(* ===== verification/_CoqProject ===== *)
-Q . S2P
Prelude.v
Threads.v
Crew.v
Words.v
Text.v
Crc16.v
RegisterStore.v
ModbusProtocol.v
ModbusRtu.v
TcpSocket.v
Mbap.v
ModbusClient.v
ModbusTcp.v
Float.v
Json.v
JsonFile.v
WebReply.v
ModbusCodec.v
ModbusRegistry.v
Version.v
Sha256.v
Permissions.v
RateLimiter.v
Validation.v
C3Codec.v
C3Replies.v
RtLog.v
C3Client.v
ZkController.v
MqEnvelope.v
MqClient.v
Citizen.v
Readers.v
CardClients.v
LogStore.v
PluginManifest.v
PluginManager.v
PluginInstall.v
PasswordHash.v
LuaBundle.v
LuaPackage.v
PackageKeys.v
PackageManager.v
PackageBuild.v
UrlQuery.v
LuaRoutes.v
LuaHttp.v
LuaRuntimes.v
Signature.v
Installer.v
UpdateManager.v
SecurityStore.v
Middleware.v
AuthHandlers.v
