(* ===== verification/Prelude.v ===== *)
(** * eMaster gateway: a verification library

    The gateway (src/, C++) connects field devices to a web front end: Modbus
    over serial lines and TCP, ZKTeco access-control panels, Lua scripts,
    software updates, and an HTTP server whose every request passes a security
    pipeline.  This library translates the parts that carry the program's own
    logic into executable definitions and proves what makes them correct.

    ** Parts, and the files that model them

    Shared: [Prelude] (outcomes, checked reads, machine integers, lists,
    tactics), [Threads] (methods as programs of atomic actions, their
    interleavings, and the rely/guarantee rule for invariants), [Crew] (the
    same for threads that know their own number and hold things), [Words] (big- and little-endian words, packed bits), [Text]
    (bytes and strings, decimal printing, the C classification functions and
    [atoi]), [Crc16] (the bitwise CRC of src/ModbusRtu.cpp and
    src/zk_controller/C3Codec.cpp), [Float] (IEEE 754 patterns and the
    arithmetic the code uses), [Json] (the interface to nlohmann::json).

    Modbus: [RegisterStore] (src/ModbusRegisterStore.cpp: four areas of bits
    and registers behind one mutex), [ModbusProtocol] (src/ModbusProtocol.cpp:
    the slave's request handler, against the interface [RegisterBank] that the
    store implements), [ModbusRtu] (src/ModbusRtu.cpp: serial framing, master,
    slave), [TcpSocket] (src/TcpSocket.cpp: send and receive of the blocking
    wrapper), [Mbap] (the TCP framing both ends share), [ModbusClient]
    (src/ModbusClient.cpp: the TCP master with its connection state),
    [ModbusTcp] (src/ModbusTcpSlave.cpp), [ModbusCodec] (src/ModbusCodec.cpp:
    typed values in runs of registers), [ModbusRegistry]
    (src/ModbusRegistry.cpp: named points that scripts own).

    Access control panels: [C3Codec] (src/zk_controller/C3Codec.cpp: requests
    and decoders), [C3Replies] (what a panel may send, and that the decoders
    read it back), [RtLog] (src/zk_controller/RTLogParser.cpp: the panel's log
    as text, in its two forms), [C3Client] (src/zk_controller/C3Client.cpp:
    the session with a panel, over [TcpSocket] and [C3Codec]) and
    [ZkController] (src/zk_controller/ZkController.cpp: the background thread
    and the calls around it, over an interface that [C3Client] implements).

    Security: [Permissions] (src/security/Permissions.cpp: roles and the route
    policy table), [RateLimiter] (token buckets), [Validation] (UTF-8, field
    checks, log sanitising, safe names and paths), [PasswordHash] (over an
    interface to libsodium), [SecurityStore] (src/security/SecurityStore.cpp:
    accounts, sessions, lockout, audit as tables), [Middleware]
    (src/security/SecurityMiddleware.h: the pipeline before and after every
    handler, which calls all of the former), [AuthHandlers] (src/WebServer.cpp,
    SetupAuthRoutes: login, logout, accounts, sessions and audit over HTTP).

    Cards: [Citizen] (src/CitizenIdParser.cpp), [Readers]
    (src/RfidClient.cpp: the reader thread) and [CardClients]
    (src/CardClientManager.cpp, src/CardCache.cpp and the card routes of
    src/WebServer.cpp, whose replies are built with [WebReply]).

    Logs: [LogStore] (src/LogStore.cpp and the log routes of
    src/WebServer.cpp: typed entries in SQLite tables, given as lists of rows
    with a committed and a working copy, and their search).

    Messages: [MqEnvelope] (src/MqCodec.cpp: the JSON envelope, over an
    interface to the text form) and [MqClient] (src/MqClient.cpp: the RabbitMQ
    client's thread, queues and one-shot operations; the protocol library's
    call-backs are its environment).

    Lua packages: [LuaBundle] (src/lua_package/LuaBundle.cpp: the payload),
    [LuaPackage] (LuaPackage.cpp: the encrypted and signed container, over an
    interface to the primitives of libsodium), [PackageKeys]
    (PackageKeys.cpp), [PackageManager] (PackageManager.cpp: the package
    directory and its state file, kept with [JsonFile], and what src/main.cpp
    starts at boot) and [PackageBuild] (LuaCompiler.cpp and the build of
    PackageManager.cpp).

    Lua scripts: [LuaRuntimes] (src/LuaRuntimeManager.cpp with the running and
    stopping of src/LuaEngine.cpp: the threads of the scripts), [LuaRoutes]
    (the table of the HTTP routes a script serves, src/LuaEngine.cpp),
    [LuaHttp] (the requests between the web threads of src/WebServer.cpp, the
    manager and the scripts' threads) and [UrlQuery] (the query of a request,
    src/WebServer.cpp).

    Plugins: [PluginManifest] (src/plugin_manager/PluginManifest.cpp),
    [PluginManager] (PluginManager.cpp: the life of a plugin, its methods
    programs over the libraries, instances and transports outside) and
    [PluginInstall] (its installation, rollback and removal on a disk of files).

    Updates: [Version] (src/update/Version.cpp) and [Sha256]
    (src/update/Sha256.cpp), which the security store also uses; [Signature]
    (src/update/SignatureVerifier.cpp), [Installer]
    (src/update/UpdateInstaller.cpp and the boot guard of src/main.cpp, over a
    file system given as operations) and [UpdateManager]
    (src/update/UpdateManager.cpp: the check, download, verify, install cycle).

    ** How the code is modelled

    A function that fails by returning [false] with a message is a function
    into [res]: [Ok], [Err] with the message, or [Fault], which is a read or
    write outside a buffer or another step C++ leaves undefined; no definition
    swallows a [Fault], so "never [Fault]" is memory safety.  Objects are
    records passed through explicitly.  A class behind a mutex is one atomic
    step per critical section, and invariants are proved over every
    interleaving of these steps (reflexive-transitive closure of a step
    relation).  Sockets and serial ports are the environment: the runs of bytes
    they deliver and whether they accept what is sent, universally quantified.
    Bytes are [Z] in 0..255, machine integers [Z] with their wrap-around
    ([to_u16], [to_int32], ...), doubles their bit patterns.  Clocks are
    arguments.  Libraries outside src/ (nlohmann::json, libsodium, SQLite's
    choice among equals, the file system) are classes or arguments.

    ** What the theorems show

    Access: a request reaches a handler exactly when preflight, body ceiling,
    rate limit and route policy allow it, and each refusal has its one reason;
    the tables of the security store keep their constraints under any
    interleaving; tokens authenticate exactly as the tables say, revocation is
    complete and lasts, a login's session lives until its expiry, lockout
    counts exactly the guesses made one after the other (overlapping ones get
    past it);
    the public surface of the policy table, the separation of roles; rate
    limiting is exact in its bursts, bounded in memory and isolated between
    keys; UTF-8 validation accepts exactly the encodings of code points.

    Accounts: the account table changes only at the word of an administrator
    or of the owner of a password, an administrator always remains while
    handlers run one at a time, the answers to failed logins reveal nothing of
    the account, and the rows stay well typed.

    Modbus: the store refines partial maps and keeps its windows; the request
    handler answers every well-formed request as specified, and never reads
    outside a request; the slave loops serve their clients under any chunking
    and end; the client reads back what a conforming slave sends, sends what it
    means to, and drops the link after three failures in a row; master and
    slave compose for writes (and fail to for reads, which is a finding);
    register values and strings round-trip with exact bounds; CRC-16 detects
    every corrupted byte.

    Panels: frames are cut from a stream and judged in one definition each
    decoder shares; no decoder reads outside what arrived; logs, tables and
    key/value text round-trip; the client opens a session with a conforming
    panel, sends exactly the control command it is asked for, and ends every
    call without a read outside a buffer, whatever the peer sends.  The
    controller dials only what a caller asked for, under every interleaving of
    its threads; redials a lost panel; never leaves an output latched by its own
    doing; and reports exactly the records of the panel.

    Cards: a citizen card is accepted exactly when its text has the documented
    form, and its fields are read off; readers are framed by lines however the
    network cuts the stream; a posted card is taken exactly from a client in
    good standing, and a revoked client stays out.

    Logs: a write is all or nothing and exactly what its definition allows, as
    long as commits succeed; a search gives exactly the entries that pass its
    filters, a keyword found wherever it stands but for the case of its ASCII
    letters, page by page; the tables stay consistent; definitions that name
    their fields, in files that parse, outlive the program.

    Messages: whatever the broker, the callers and the failures do, a message
    promised to a caller is published, in hand or queued, in order and once; a
    delivery is settled once, with its own tag and by what it is, and its
    message goes through the inbox in order and once, over any number of stops
    and starts; envelopes round-trip.

    Lua packages: a package opens exactly when it is in the format, signed and
    encrypted for this installation, built for this interpreter and intact; a
    successful build leaves a package that opens to what was compiled; what is
    deployed, kept for a rollback or started at boot always opens; a rollback
    undoes a deployment; the keys are made once.

    Lua scripts: a request finds the script's route that serves it, the same
    one every time, and none only when none does; it is answered once, with
    what the handler returned, a failure when the script stops or the time is
    up, in every interleaving of web threads, scripts, events and stops; a
    drain whose handlers only answer serves the whole queue in order; handlers
    are neither leaked nor freed in use; queries round-trip.  While one caller
    at a time starts scripts, no thread is lost or joined twice as long as the
    manager lives; with two it can be, a failed script's thread is not joined
    at its end, and a stop or a restart can wait for ever: the examples of
    [LuaRuntimes] show how.

    Plugins: a manifest is accepted exactly when the members that are read obey
    the rules and the entry resolves inside the plugin's directory (or, by the
    text comparison, beside it: an example shows it); a plugin whose manifest
    was accepted is loaded exactly when its shared object belongs to the
    manifest and asks for no more (one whose manifest was rejected may be
    loaded, another example); while calls follow one another no code runs that is not
    mapped and nothing leaks; the switch keeps the library; an installation
    never loses a plugin, and a rollback undoes it.

    Updates: version precedence is the order of the Semantic Versioning
    specification; the streaming hash equals the one-shot hash of the
    concatenation under any chunking; only a package whose digest and signature
    were checked, the latter with the configured key, is installed; an update
    that fails its trial is undone while the file system obeys; no crash leaves
    the device without a program to start, and the text handed to the shell is
    split into the words that were meant.

    ** Fuel and bounds

    Loops that are not structural take fuel computed from their input (the
    length of the buffer that each turn shortens); each file proves that it is
    enough, by equations without fuel or by a theorem that the result does not
    depend on it.  The receive loops recurse over the list of runs the peer
    delivers.  Lengths are bounded only where the code's integers are: a hashed
    message is shorter than 2^61 bytes.

    ** Not modelled

    Operating-system calls (opening sockets, ports and files), logging calls,
    third-party code; the Lua interpreter and the bindings of the other
    components into it (most of src/LuaEngine.cpp), whose scripts are arguments
    of their threads; the fan-out of device events to the scripts and their
    metrics (src/LuaRuntimeManager.cpp); the configuration
    (src/ConfigManager.cpp, src/DynamicConfigManager.cpp) and the runtime
    variables, tables of settings the components are given; the HTTP handlers
    (src/WebServer.cpp) other than those of [AuthHandlers], [CardClients],
    [LogStore] and [LuaHttp]; what a plugin gets from the host
    (src/plugin_manager/PluginHostServices.cpp, PluginTransports.cpp).  The
    scan of a source directory and the resolution of path texts are
    environment. *)

From stdpp Require Export base tactics list numbers strings gmap.
From Stdlib Require Export ZArith Lia Bool Sorting.

#[global] Open Scope Z_scope.

#[global] Arguments Nat.div : simpl never.
#[global] Arguments Nat.leb : simpl never.
#[global] Arguments Nat.ltb : simpl never.
#[global] Arguments Nat.mul : simpl never.
#[global] Arguments Nat.modulo : simpl never.
#[global] Arguments Z.div : simpl never.
#[global] Arguments Z.modulo : simpl never.
#[global] Arguments Z.shiftl : simpl never.
#[global] Arguments Z.shiftr : simpl never.
#[global] Arguments Z.land : simpl never.
#[global] Arguments Z.lor : simpl never.
#[global] Arguments Z.lxor : simpl never.
#[global] Arguments Z.pow : simpl never.

(** ** Outcomes

    The C++ routines report failure by returning [false] after writing a
    message into an [std::string& error] parameter.  [Err] is that return;
    [Fault] is a read or write outside a buffer, which C++ leaves undefined.
    No definition of the library swallows a [Fault], so a theorem that an
    operation never returns it is a memory-safety statement. *)

Inductive res (A : Type) : Type :=
| Ok (a : A)
| Err (error : string)
| Fault.
Arguments Ok {A} _.
Arguments Err {A} _.
Arguments Fault {A}.

#[global] Instance res_ret : MRet res := fun A a => Ok a.

#[global] Instance res_bind : MBind res := fun A B k m =>
  match m with
  | Ok a => k a
  | Err e => Err e
  | Fault => Fault
  end.

#[global] Instance res_fmap : FMap res := fun A B f m =>
  match m with
  | Ok a => Ok (f a)
  | Err e => Err e
  | Fault => Fault
  end.

(** [data[i]] on a buffer of known size. *)
Definition read_at {A} (data : list A) (i : nat) : res A :=
  match data !! i with
  | Some x => Ok x
  | None => Fault
  end.

(** [std::string(data.begin() + off, data.begin() + off + len)]. *)
Definition slice {A} (data : list A) (off len : nat) : res (list A) :=
  if decide (off + len <= length data)%nat
  then Ok (take len (drop off data))
  else Fault.

(** [std::copy(src.begin(), src.end(), dst.begin() + off)]. *)
Definition blit {A} (src dst : list A) (off : nat) : res (list A) :=
  if decide (off + length src <= length dst)%nat
  then Ok (take off dst ++ src ++ drop (off + length src) dst)
  else Fault.

Definition is_ok {A} (r : res A) : bool :=
  match r with Ok _ => true | _ => false end.

Definition no_fault {A} (r : res A) : Prop := r <> Fault.

(** ** Automation *)

Create HintDb gw discriminated.
Create Rewrite HintDb gwlen.

(** Case analysis on the boolean guards of a translated handler. *)
Ltac destruct_guards :=
  repeat match goal with
  | H : context [if ?b then _ else _] |- _ =>
      match type of b with
      | bool => destruct b eqn:?
      | sumbool _ _ => destruct b
      end; simplify_eq/=
  | |- context [if ?b then _ else _] =>
      match type of b with
      | bool => destruct b eqn:?
      | sumbool _ _ => destruct b
      end; simplify_eq/=
  end.

(** Boolean comparisons in the hypotheses become arithmetic facts. *)
Ltac reflect_bools :=
  repeat match goal with
  | H : (_ || _)%bool = false |- _ => apply orb_false_iff in H as [? ?]
  | H : (_ || _)%bool = true |- _ => apply orb_true_iff in H
  | H : (_ && _)%bool = true |- _ => apply andb_true_iff in H as [? ?]
  | H : (_ && _)%bool = false |- _ => apply andb_false_iff in H
  | H : negb _ = true |- _ => apply negb_true_iff in H
  | H : negb _ = false |- _ => apply negb_false_iff in H
  | H : (_ <? _)%Z = true |- _ => apply Z.ltb_lt in H
  | H : (_ <? _)%Z = false |- _ => apply Z.ltb_ge in H
  | H : (_ <=? _)%Z = true |- _ => apply Z.leb_le in H
  | H : (_ <=? _)%Z = false |- _ => apply Z.leb_gt in H
  | H : (_ =? _)%Z = true |- _ => apply Z.eqb_eq in H
  | H : (_ =? _)%Z = false |- _ => apply Z.eqb_neq in H
  | H : (_ >? _)%Z = _ |- _ => rewrite Z.gtb_ltb in H
  | H : (_ >=? _)%Z = _ |- _ => rewrite Z.geb_leb in H
  | H : (_ <? _)%nat = true |- _ => apply Nat.ltb_lt in H
  | H : (_ <? _)%nat = false |- _ => apply Nat.ltb_ge in H
  | H : (_ <=? _)%nat = true |- _ => apply Nat.leb_le in H
  | H : (_ <=? _)%nat = false |- _ => apply Nat.leb_gt in H
  | H : (_ =? _)%nat = true |- _ => apply Nat.eqb_eq in H
  | H : (_ =? _)%nat = false |- _ => apply Nat.eqb_neq in H
  end.

(** The same, splitting the disjunctions a failed guard leaves. *)
Ltac break_guards :=
  repeat match goal with
  | H : _ \/ _ |- _ => destruct H
  | _ => progress reflect_bools
  end.

(** Invert a successful run of a bind. *)
Ltac inv_bind H :=
  match type of H with
  | (mbind _ ?m) = Ok _ =>
      let x := fresh "v" in let E := fresh "Hm" in
      destruct m as [x| |] eqn:E; simpl in H; try discriminate H
  end.

(** ** Outcome lemmas *)

Lemma read_at_lookup {A} (l : list A) i x : l !! i = Some x -> read_at l i = Ok x.
Proof. unfold read_at. by intros ->. Qed.

Lemma read_at_ok_iff {A} (l : list A) i x : read_at l i = Ok x <-> l !! i = Some x.
Proof. unfold read_at. destruct (l !! i); naive_solver. Qed.

Lemma read_at_in {A} (l : list A) i :
  (i < length l)%nat -> exists x, read_at l i = Ok x /\ l !! i = Some x.
Proof.
  intros Hi. destruct (lookup_lt_is_Some_2 l i Hi) as [x Hx].
  exists x. split; [by apply read_at_lookup|done].
Qed.

Lemma slice_ok {A} (l : list A) off len :
  (off + len <= length l)%nat -> slice l off len = Ok (take len (drop off l)).
Proof. intros. unfold slice. by rewrite decide_True by lia. Qed.

Lemma blit_ok {A} (src dst : list A) off :
  (off + length src <= length dst)%nat ->
  blit src dst off = Ok (take off dst ++ src ++ drop (off + length src) dst).
Proof. intros. unfold blit. by rewrite decide_True by lia. Qed.

Lemma length_blit {A} (src dst l : list A) off :
  blit src dst off = Ok l -> length l = length dst.
Proof.
  unfold blit. case_decide; intros; simplify_eq.
  rewrite !length_app, length_take, length_drop. lia.
Qed.

(** Reading after [blit]: the copied run, and everything outside it. *)
Lemma lookup_blit {A} (src dst l : list A) off i :
  blit src dst off = Ok l ->
  l !! i = if decide (off <= i < off + length src)%nat then src !! (i - off)%nat else dst !! i.
Proof.
  unfold blit. case_decide as Hle; intros; simplify_eq.
  destruct (decide (i < off)%nat).
  - rewrite lookup_app_l by (rewrite length_take; lia).
    rewrite lookup_take_lt by lia. by rewrite decide_False by lia.
  - rewrite lookup_app_r by (rewrite length_take; lia).
    rewrite length_take, Nat.min_l by lia.
    destruct (decide (i < off + length src)%nat).
    + rewrite lookup_app_l by lia. by rewrite decide_True by lia.
    + rewrite lookup_app_r by lia. rewrite lookup_drop, decide_False by lia.
      f_equal. lia.
Qed.

(** Indexing past a known prefix. *)
Lemma lookup_app_off {A} (pre l : list A) i k :
  i = (length pre + k)%nat -> (pre ++ l) !! i = l !! k.
Proof. intros ->. rewrite lookup_app_r by lia. f_equal. lia. Qed.

Lemma read_at_app_off {A} (pre l : list A) i k :
  i = (length pre + k)%nat -> read_at (pre ++ l) i = read_at l k.
Proof. intros H. unfold read_at. by rewrite (lookup_app_off _ _ _ k). Qed.

#[export] Hint Resolve read_at_lookup slice_ok blit_ok : gw.

(** ** Integers *)

(** Two's complement views of a w-bit pattern. *)
Definition to_signed (w v : Z) : Z :=
  if v mod 2 ^ w <? 2 ^ (w - 1) then v mod 2 ^ w else v mod 2 ^ w - 2 ^ w.

(** [static_cast<int>(x)] and the 16- and 8-bit unsigned casts. *)
Definition to_int32 (v : Z) : Z := to_signed 32 v.
Definition to_u8 (v : Z) : Z := v mod 2 ^ 8.
Definition to_u16 (v : Z) : Z := v mod 2 ^ 16.
Definition to_u32 (v : Z) : Z := v mod 2 ^ 32.
Definition to_u64 (v : Z) : Z := v mod 2 ^ 64.

Lemma to_signed_id w v : 0 < w -> - 2 ^ (w - 1) <= v < 2 ^ (w - 1) -> to_signed w v = v.
Proof.
  intros Hw Hv. unfold to_signed.
  assert (2 ^ w = 2 * 2 ^ (w - 1)) as Hp.
  { rewrite <- Z.pow_succ_r by lia. f_equal. lia. }
  destruct (decide (0 <= v)).
  - rewrite Z.mod_small by lia. by rewrite (proj2 (Z.ltb_lt _ _)) by lia.
  - replace (v mod 2 ^ w) with (v + 2 ^ w).
    + rewrite (proj2 (Z.ltb_ge _ _)) by lia. lia.
    + rewrite <- (Z.mod_small (v + 2 ^ w) (2 ^ w)) by lia.
      rewrite <- (Z.mul_1_l (2 ^ w)) at 1. by rewrite Z.mod_add by lia.
Qed.

Lemma to_signed_mod w v : to_signed w (v mod 2 ^ w) = to_signed w v.
Proof. unfold to_signed. by rewrite Zmod_mod. Qed.

Lemma to_signed_range w v : 0 < w -> - 2 ^ (w - 1) <= to_signed w v < 2 ^ (w - 1).
Proof.
  intros Hw. unfold to_signed.
  assert (2 ^ w = 2 * 2 ^ (w - 1)) as Hp.
  { rewrite <- Z.pow_succ_r by lia. f_equal. lia. }
  pose proof (Z.mod_pos_bound v (2 ^ w) ltac:(lia)).
  destruct (_ <? _) eqn:E; [apply Z.ltb_lt in E|apply Z.ltb_ge in E]; lia.
Qed.

Lemma mod_to_signed w v : 0 < w -> to_signed w v mod 2 ^ w = v mod 2 ^ w.
Proof.
  intros Hw. unfold to_signed. destruct (_ <? _); [by rewrite Zmod_mod|].
  rewrite <- (Z.mul_1_l (2 ^ w)) at 2. rewrite Zminus_mod, Z.mod_mul, Z.sub_0_r by lia.
  by rewrite !Zmod_mod.
Qed.

Lemma to_int32_id v : - 2 ^ 31 <= v < 2 ^ 31 -> to_int32 v = v.
Proof. intros. apply to_signed_id; simpl; lia. Qed.

Lemma to_u8_id v : 0 <= v < 256 -> to_u8 v = v.
Proof. intros. apply Z.mod_small. lia. Qed.

Lemma to_u16_id v : 0 <= v < 65536 -> to_u16 v = v.
Proof. intros. apply Z.mod_small. lia. Qed.

Lemma to_u8_range v : 0 <= to_u8 v < 256.
Proof. apply Z.mod_pos_bound. lia. Qed.

Lemma to_u16_range v : 0 <= to_u16 v < 65536.
Proof. apply Z.mod_pos_bound. lia. Qed.

#[export] Hint Resolve to_u8_range to_u16_range : gw.

(** Bit extensionality for bounded non-negative integers. *)
Lemma testbit_high n v i : 0 <= v < 2 ^ n -> n <= i -> Z.testbit v i = false.
Proof.
  intros Hv Hi. destruct (decide (0 <= n)).
  - rewrite <- (Z.mod_small v (2 ^ n)) by lia. apply Z.mod_pow2_bits_high. lia.
  - rewrite Z.pow_neg_r in Hv by lia. lia.
Qed.

Lemma bits_inj_bounded n a b :
  0 <= a < 2 ^ n -> 0 <= b < 2 ^ n ->
  (forall i, 0 <= i < n -> Z.testbit a i = Z.testbit b i) -> a = b.
Proof.
  intros Ha Hb H. apply Z.bits_inj'. intros i Hi.
  destruct (decide (i < n)); [apply H; lia|].
  by rewrite !(testbit_high n) by lia.
Qed.

Lemma lxor_bounded n a b : 0 <= n -> 0 <= a < 2 ^ n -> 0 <= b < 2 ^ n -> 0 <= Z.lxor a b < 2 ^ n.
Proof.
  intros Hn Ha Hb.
  assert (Z.lxor a b = Z.lxor a b mod 2 ^ n) as ->.
  { apply Z.bits_inj'. intros i Hi. destruct (decide (i < n)).
    - by rewrite Z.mod_pow2_bits_low by lia.
    - rewrite Z.mod_pow2_bits_high, Z.lxor_spec by lia. by rewrite !(testbit_high n) by lia. }
  apply Z.mod_pos_bound. lia.
Qed.

Lemma lor_bounded n a b : 0 <= n -> 0 <= a < 2 ^ n -> 0 <= b < 2 ^ n -> 0 <= Z.lor a b < 2 ^ n.
Proof.
  intros Hn Ha Hb.
  assert (Z.lor a b = Z.lor a b mod 2 ^ n) as ->.
  { apply Z.bits_inj'. intros i Hi. destruct (decide (i < n)).
    - by rewrite Z.mod_pow2_bits_low by lia.
    - rewrite Z.mod_pow2_bits_high, Z.lor_spec by lia. by rewrite !(testbit_high n) by lia. }
  apply Z.mod_pos_bound. lia.
Qed.

(** Appending [n] low bits. *)
Lemma lor_shiftl_add v b n : 0 <= n -> 0 <= b < 2 ^ n -> Z.lor (Z.shiftl v n) b = v * 2 ^ n + b.
Proof.
  intros Hn Hb.
  rewrite (Z.div_mod (Z.lor _ _) (2 ^ n)), <- Z.shiftr_div_pow2, <- Z.land_ones by lia.
  rewrite Z.shiftr_lor, Z.shiftr_shiftl_l, Z.sub_diag, Z.shiftl_0_r by lia.
  rewrite Z.land_lor_distr_l, !Z.land_ones, Z.shiftl_mul_pow2, Z.mod_mul by lia.
  rewrite Z.shiftr_div_pow2, Z.div_small, Z.mod_small by lia. rewrite Z.lor_0_r, Z.lor_0_l. lia.
Qed.

Lemma lor_add_shifted lo hi n : 0 <= n -> 0 <= lo < 2 ^ n -> Z.lor lo (Z.shiftl hi n) = lo + hi * 2 ^ n.
Proof. intros. rewrite Z.lor_comm, lor_shiftl_add by lia. lia. Qed.

(** A fact about every byte, checked on all 256 of them. *)
Lemma byte_cases (P : Z -> bool) b :
  forallb P (map Z.of_nat (seq 0 256)) = true -> 0 <= b < 256 -> P b = true.
Proof.
  intros H Hb. rewrite forallb_forall in H. apply H. apply in_map_iff.
  exists (Z.to_nat b). split; [lia|]. apply in_seq. lia.
Qed.

(** ** Filtered lists *)

Lemma elem_of_filter_bool {A} (p : A -> bool) l x : x ∈ List.filter p l <-> p x = true /\ x ∈ l.
Proof. rewrite !list_elem_of_In, filter_In. tauto. Qed.

Lemma filter_all {A} (p : A -> bool) l : (forall x, x ∈ l -> p x = true) -> List.filter p l = l.
Proof.
  induction l as [|x l IH]; intros H; simpl; [done|].
  rewrite (H x) by (by left). f_equal. apply IH. intros y Hy. apply H. by right.
Qed.

Lemma find_app {A} (f : A -> bool) l1 l2 :
  List.find f (l1 ++ l2) = match List.find f l1 with Some x => Some x | None => List.find f l2 end.
Proof. induction l1 as [|x l1 IH]; simpl; [done|]. by destruct (f x). Qed.

Lemma NoDup_map_filter {A B} (f : A -> B) (p : A -> bool) l :
  NoDup (map f l) -> NoDup (map f (List.filter p l)).
Proof.
  induction l as [|x l IH]; simpl; [done|]. intros [Hx Hl]%NoDup_cons. specialize (IH Hl).
  destruct (p x); simpl; [|done]. apply NoDup_cons. split; [|done].
  intros (y & Hy & Hin)%list_elem_of_In%in_map_iff. apply Hx. rewrite <- Hy.
  apply list_elem_of_In, in_map. by apply filter_In in Hin as [Hin _].
Qed.

Lemma Forall_filter_bool {A} (P : A -> Prop) (p : A -> bool) l : Forall P l -> Forall P (List.filter p l).
Proof. rewrite !Forall_forall. intros H x [_ Hx]%elem_of_filter_bool. auto. Qed.

Lemma find_some_elem {A} (p : A -> bool) l x : List.find p l = Some x -> x ∈ l /\ p x = true.
Proof. intros H. apply find_some in H as [H1 H2]. split; [by apply list_elem_of_In|done]. Qed.

Lemma find_none_elem {A} (p : A -> bool) l x : List.find p l = None -> x ∈ l -> p x = false.
Proof. intros H Hx. eapply find_none; [exact H|]. by apply list_elem_of_In. Qed.

Lemma find_ext {A} (p q : A -> bool) l : (forall x, p x = q x) -> List.find p l = List.find q l.
Proof. intros H. induction l as [|x l IH]; simpl; [done|]. rewrite H. by destruct (q x). Qed.

(** A row found by a key that no two rows share. *)
Lemma find_unique {A B} (key : A -> B) (p : A -> bool) l x :
  NoDup (map key l) -> x ∈ l -> p x = true -> (forall y, p y = true -> key y = key x) ->
  List.find p l = Some x.
Proof.
  intros Hnd Hx Hp Hkey. induction l as [|y l IH]; [by apply not_elem_of_nil in Hx|].
  simpl in *. apply NoDup_cons in Hnd as [Hy Hnd]. destruct (p y) eqn:Hpy.
  - apply elem_of_cons in Hx as [-> | Hx]; [done|]. exfalso. apply Hy. rewrite (Hkey y Hpy).
    by apply list_elem_of_In, in_map, list_elem_of_In.
  - apply elem_of_cons in Hx as [-> | Hx]; [congruence|auto].
Qed.

(** Two rows with one key are one row. *)
Lemma NoDup_key_inj {A B} (key : A -> B) l x y : NoDup (map key l) -> x ∈ l -> y ∈ l -> key x = key y -> x = y.
Proof.
  intros Hnd Hx Hy Hk. induction l as [|z l IH]; [by apply not_elem_of_nil in Hx|].
  simpl in Hnd. apply NoDup_cons in Hnd as [Hz Hnd].
  assert (forall w, w ∈ l -> key w <> key z) as Hne.
  { intros w Hw E. apply Hz. rewrite <- E. by apply list_elem_of_In, in_map, list_elem_of_In. }
  apply elem_of_cons in Hx as [-> | Hx], Hy as [-> | Hy]; [done| | |by apply IH].
  - by destruct (Hne y Hy).
  - by destruct (Hne x Hx).
Qed.

(** ** Sorting by a total preorder *)

Section SortBy.
Context {A : Type} (leb : A -> A -> bool).

Fixpoint insert_by (x : A) (l : list A) : list A :=
  match l with
  | [] => [x]
  | y :: rest => if leb x y then x :: l else y :: insert_by x rest
  end.

Definition sort_by (l : list A) : list A := foldr insert_by [] l.

Lemma insert_by_perm x l : Permutation (insert_by x l) (x :: l).
Proof.
  induction l as [|y l IH]; simpl; [done|]. destruct (leb x y); [done|]. rewrite IH. apply perm_swap.
Qed.

Lemma sort_by_perm l : Permutation (sort_by l) l.
Proof. induction l as [|x l IH]; simpl; [done|]. by rewrite insert_by_perm, IH. Qed.

Variable P : A -> Prop.
Hypothesis leb_total : forall x y, P x -> P y -> leb x y = false -> leb y x = true.
Hypothesis leb_trans : forall x y z, P x -> P y -> P z -> leb x y = true -> leb y z = true -> leb x z = true.

Lemma sort_by_sorted l : Forall P l -> StronglySorted (fun x y => leb x y = true) (sort_by l).
Proof.
  intros HP. induction HP as [|x l Hx Hl IH]; simpl; [constructor|].
  assert (Forall P (sort_by l)) as HPs by (by rewrite sort_by_perm). clear Hl. revert IH HPs.
  induction (sort_by l) as [|y m IHm]; simpl; intros Hs HPs; [by repeat constructor|].
  apply StronglySorted_inv in Hs as [Hs Hy]. apply Forall_cons in HPs as [Py HPs].
  destruct (leb x y) eqn:E.
  - constructor; [by constructor|]. constructor; [done|]. rewrite Forall_forall in Hy, HPs |- *.
    intros z Hz. apply (leb_trans x y z); auto.
  - constructor; [by apply IHm|]. rewrite insert_by_perm. constructor; [by apply leb_total|done].
Qed.

Lemma StronglySorted_impl (R S : A -> A -> Prop) l :
  (forall x y, R x y -> S x y) -> StronglySorted R l -> StronglySorted S l.
Proof.
  intros HRS. induction 1 as [|x l Hl IH Hx]; constructor; [done|]. eapply Forall_impl; [exact Hx|]. intros; by apply HRS.
Qed.
End SortBy.
