(* ===== verification/Threads.v ===== *)
(** * Threads over a shared object

    A method of a class whose fields are guarded by mutexes, or atomic, is a
    program: a sequence of atomic actions on the object, each of which may wait
    until the object allows it (a mutex is free) and hands a value to what
    follows.  [run] executes a method with nobody else on the object;
    [pool_step] interleaves any number of methods, action by action, and lets
    new ones start at any time.  [safe] is the rely/guarantee condition under
    which a method keeps an invariant in every interleaving. *)

From stdpp Require Import relations.
From S2P Require Import Prelude.

Section Programs.
Context {S : Type}.

Inductive prog (A : Type) : Type :=
| Ret (a : A)
| Act {R : Type} (ready : S -> bool) (f : S -> res (R * S)) (k : R -> prog A).
Arguments Ret {A} _.
Arguments Act {A R} _ _ _.

#[global] Instance prog_ret : MRet prog := @Ret.

#[global] Instance prog_bind : MBind prog := fun A B k =>
  fix bind p := match p with Ret a => k a | Act ready f g => Act ready f (fun r => bind (g r)) end.

(** One action that reads or writes the object. *)
Definition always (s : S) : bool := true.
Definition get {R} (f : S -> R) : prog R := Act always (fun s => Ok (f s, s)) Ret.
Definition put (f : S -> S) : prog unit := Act always (fun s => Ok (tt, f s)) Ret.
Definition act {R} (f : S -> R * S) : prog R := Act always (fun s => Ok (f s)) Ret.
Definition put_ready (ready : S -> bool) (f : S -> S) : prog unit := Act ready (fun s => Ok (tt, f s)) Ret.

(** A range-for whose body is a program. *)
Fixpoint each {A} (body : A -> prog unit) (l : list A) : prog unit :=
  match l with
  | [] => Ret tt
  | a :: l' => body a ≫= fun _ => each body l'
  end.

(** The whole method, alone; an action that can never run is a deadlock. *)
Fixpoint run {A} (p : prog A) (s : S) : res (A * S) :=
  match p with
  | Ret a => Ok (a, s)
  | Act ready f k => if ready s then '(r, s') ← f s; run (k r) s' else Err "deadlock"
  end.

Lemma run_bind {A B} (p : prog A) (k : A -> prog B) s :
  run (p ≫= k) s = ('(a, s') ← run p s; run (k a) s').
Proof.
  revert s. induction p as [a|R ready f g IH]; intros s; [done|]. cbn. destruct (ready s); [|done].
  destruct (f s) as [[r s']| |]; [|done|done]. apply (IH r s').
Qed.

Lemma run_get {A R} (f : S -> R) (k : R -> prog A) s : run (get f ≫= k) s = run (k (f s)) s.
Proof. done. Qed.
Lemma run_put {A} (f : S -> S) (k : unit -> prog A) s : run (put f ≫= k) s = run (k tt) (f s).
Proof. done. Qed.

Lemma run_each {A} (body : A -> prog unit) (g : A -> S -> S) l :
  (forall a s, run (body a) s = Ok (tt, g a s)) -> forall s, run (each body l) s = Ok (tt, foldl (fun s a => g a s) s l).
Proof.
  intros Hb. induction l as [|a l IH]; intros s; cbn [each foldl]; [done|]. rewrite run_bind, Hb. apply IH.
Qed.

(** ** Interleavings *)

(** The methods under way and the object; a method may be called at any time. *)
Inductive pool_step (methods : prog unit -> Prop) : list (prog unit) * S -> list (prog unit) * S -> Prop :=
| pool_call p ps s : methods p -> pool_step methods (ps, s) (ps ++ [p], s)
| pool_act i R ready (f : S -> res (R * S)) k r ps s s' :
    ps !! i = Some (Act ready f k) -> ready s = true -> f s = Ok (r, s') ->
    pool_step methods (ps, s) (<[i := k r]> ps, s').

(** A given order of the threads' actions. *)
Definition step_thread (i : nat) (c : list (prog unit) * S) : option (list (prog unit) * S) :=
  match c.1 !! i with
  | Some (Act ready f k) =>
      if ready c.2 then match f c.2 with Ok (r, s') => Some (<[i := k r]> c.1, s') | _ => None end else None
  | _ => None
  end.

Fixpoint schedule (order : list nat) (c : list (prog unit) * S) : option (list (prog unit) * S) :=
  match order with
  | [] => Some c
  | i :: order' => match step_thread i c with Some c' => schedule order' c' | None => None end
  end.

Lemma schedule_sound methods order : forall c c', schedule order c = Some c' -> rtc (pool_step methods) c c'.
Proof.
  induction order as [|i order IH]; intros c c' H; cbn in H; [by injection H as ->|].
  destruct (step_thread i c) as [c1|] eqn:E; [|done]. eapply rtc_l; [|by apply IH]. clear IH H.
  destruct c as [ps s]. unfold step_thread in E. cbn in E. destruct (ps !! i) as [[|R ready f k]|] eqn:Hi; try done.
  destruct (ready s) eqn:Hr; [|done]. destruct (f s) as [[r s']| |] eqn:Hf; try done. injection E as <-. by econstructor.
Qed.

Lemma schedule_calls methods (ps : list (prog unit)) qs (s : S) : Forall methods ps ->
  rtc (pool_step methods) (qs, s) (qs ++ ps, s).
Proof.
  intros H. revert qs. induction H as [|p ps Hp _ IH]; intros qs; [by rewrite app_nil_r|].
  eapply rtc_l; [by apply pool_call|]. rewrite (cons_middle p qs ps), app_assoc. apply IH.
Qed.

Section Safe.
Context (I : S -> Prop) (G : S -> S -> Prop) `{!PreOrder G}.

(** From [s] on, whatever the others do within [G] and [I], every action of
    [p] answers and keeps both, and [Q] holds at its end. *)
Fixpoint safe {A} (p : prog A) (Q : A -> S -> Prop) (s : S) : Prop :=
  match p with
  | Ret a => Q a s
  | Act ready f k => forall s1, G s s1 -> I s1 -> ready s1 = true ->
      match f s1 with
      | Ok (r, s2) => I s2 /\ G s1 s2 /\ safe (k r) Q s2
      | _ => False
      end
  end.

Lemma safe_bind {A B} (p : prog A) (k : A -> prog B) Q Q' s :
  safe p Q s -> (forall a s', Q a s' -> safe (k a) Q' s') -> safe (p ≫= k) Q' s.
Proof.
  revert s. induction p as [a|R ready f g IH]; intros s Hp Hk; [by apply Hk|]. intros s1 HG HI Hr.
  specialize (Hp s1 HG HI Hr). destruct (f s1) as [[r s2]| |]; [|done|done].
  destruct Hp as (H1 & H2 & H3). split_and!; [done|done|]. by apply (IH r).
Qed.

Lemma safe_later (p : prog unit) s s' : safe p (fun _ _ => True) s -> G s s' -> safe p (fun _ _ => True) s'.
Proof.
  destruct p as [a|R ready f g]; intros Hp HG; [done|]. intros s1 H1. apply Hp. by etrans.
Qed.

Lemma safe_get {A R} (f : S -> R) (k : R -> prog A) Q s :
  (forall s1, G s s1 -> I s1 -> safe (k (f s1)) Q s1) -> safe (get f ≫= k) Q s.
Proof. intros H s1 HG HI _. split_and!; [done|reflexivity|by apply H]. Qed.

Lemma safe_act {A R} ready (f : S -> res (R * S)) (k : R -> prog A) Q s :
  (forall s1, G s s1 -> I s1 -> ready s1 = true ->
     exists r s2, f s1 = Ok (r, s2) /\ I s2 /\ G s1 s2 /\ safe (k r) Q s2) ->
  safe (Act ready f k) Q s.
Proof. intros H s1 HG HI Hr. by destruct (H s1 HG HI Hr) as (r & s2 & -> & ?). Qed.

(** The common case: every action of the method keeps the invariant [J]
    whenever it runs. *)
Fixpoint keeps {A} (J : S -> Prop) (p : prog A) : Prop :=
  match p with
  | Ret a => True
  | Act ready f k => forall s, J s -> ready s = true ->
      match f s with
      | Ok (r, s') => J s' /\ G s s' /\ keeps J (k r)
      | _ => False
      end
  end.

Lemma safe_weaken {A} (p : prog A) (Q Q' : A -> S -> Prop) s :
  safe p Q s -> (forall a s', Q a s' -> Q' a s') -> safe p Q' s.
Proof.
  revert s. induction p as [a|R ready f g IH]; intros s Hp HQ; [by apply HQ|]. intros s1 HG HI Hr.
  specialize (Hp s1 HG HI Hr). destruct (f s1) as [[r s2]| |]; [|done|done].
  destruct Hp as (? & ? & ?). split_and!; [done|done|]. by apply (IH r).
Qed.

Lemma keeps_bind {A B} J (p : prog A) (k : A -> prog B) :
  keeps J p -> (forall a, keeps J (k a)) -> keeps J (p ≫= k).
Proof.
  induction p as [a|R ready f g IH]; intros Hp Hk; [by apply Hk|]. intros s HJ Hr. specialize (Hp s HJ Hr).
  destruct (f s) as [[r s']| |]; [|done|done]. destruct Hp as (? & ? & ?). split_and!; [done|done|]. by apply (IH r).
Qed.

Lemma keeps_put J (f : S -> S) : (forall s, J s -> J (f s) /\ G s (f s)) -> keeps J (put f).
Proof. intros H s HJ _. destruct (H s HJ). by split_and!. Qed.

Lemma keeps_put_ready J ready (f : S -> S) : (forall s, J s -> J (f s) /\ G s (f s)) -> keeps J (put_ready ready f).
Proof. intros H s HJ _. destruct (H s HJ). by split_and!. Qed.

Lemma keeps_get {R} J (f : S -> R) : keeps J (get f).
Proof. intros s HJ _. split_and!; [done|reflexivity|done]. Qed.

Lemma keeps_act {R} J (f : S -> R * S) : (forall s, J s -> J (f s).2 /\ G s (f s).2) -> keeps J (act f).
Proof. intros H s HJ _. cbn. destruct (H s HJ). by destruct (f s). Qed.

Lemma keeps_each {A} J (body : A -> prog unit) l : (forall a, keeps J (body a)) -> keeps J (each body l).
Proof. intros H. induction l as [|a l IH]; [done|]. apply keeps_bind; auto. Qed.

(** It may also use what it knows and [G] does not take away. *)
Lemma keeps_safe {A} (K : S -> Prop) (p : prog A) s :
  (forall s s', G s s' -> K s -> K s') -> keeps (fun s => I s /\ K s) p -> K s -> safe p (fun _ => K) s.
Proof.
  intros Hst. revert s. induction p as [a|R ready f g IH]; intros s Hp HK; [done|].
  intros s1 HG HI Hr. specialize (Hp s1 (conj HI (Hst s s1 HG HK)) Hr).
  destruct (f s1) as [[r s2]| |]; [|done|done]. destruct Hp as ((? & ?) & ? & ?). split_and!; [done|done|]. by apply (IH r).
Qed.

(** Methods that are safe whenever they start keep the invariant together,
    and none of them ever gets stuck in an action. *)
Theorem pool_safe (methods : prog unit -> Prop) ps s ps' s' :
  (forall p s0, methods p -> I s0 -> safe p (fun _ _ => True) s0) ->
  rtc (pool_step methods) (ps, s) (ps', s') ->
  I s -> Forall (fun p => safe p (fun _ _ => True) s) ps ->
  I s' /\ G s s' /\ Forall (fun p => safe p (fun _ _ => True) s') ps'.
Proof.
  intros Hm Hs. remember (ps, s) as c eqn:E. remember (ps', s') as c' eqn:E'. revert ps s ps' s' E E'.
  induction Hs as [c|c d e H1 _ IH]; intros ps s ps' s' -> E' HI Hps.
  { injection E' as <- <-. split_and!; [done|reflexivity|done]. }
  inversion H1 as [p ps0 s0 Hp E1 E2|i R ready f k r ps0 s0 s1 Hi Hr Hf E1 E2]; subst.
  - apply (IH (ps ++ [p]) s ps' s' eq_refl eq_refl HI). apply Forall_app. split; [done|].
    apply Forall_singleton. by apply Hm.
  - pose proof (proj1 (Forall_lookup _ _) Hps i _ Hi s (reflexivity s) HI Hr) as Hsafe. cbn in Hsafe.
    rewrite Hf in Hsafe. destruct Hsafe as (HI1 & HG1 & Hk).
    destruct (IH (<[i := k r]> ps) s1 ps' s' eq_refl eq_refl HI1) as (? & ? & ?).
    + apply Forall_insert; [|done]. eapply Forall_impl; [exact Hps|]. intros p Hp. by apply (safe_later p s).
    + split_and!; [done|by etrans|done].
Qed.
(** What [safe] says of the action a thread is at. *)
Lemma safe_answers (p : prog unit) R ready (f : S -> res (R * S)) k s :
  p = Act ready f k -> safe p (fun _ _ => True) s -> I s -> ready s = true -> exists r s', f s = Ok (r, s').
Proof.
  intros -> Hp HI Hr. specialize (Hp s (reflexivity s) HI Hr). destruct (f s) as [[r s']| |]; [|done|done]. by exists r, s'.
Qed.
End Safe.
End Programs.
Arguments prog : clear implicits.
Arguments Ret {S A} _.
Arguments Act {S A R} _ _ _.
