(* ===== verification/Crew.v ===== *)
(** * Threads that hold things

    The programs of [Threads], run by threads that know their own number: a
    method is called on the next free number, and what a thread may rely on and
    what it guarantees depend on who it is.  A thread can then hold something
    no other touches, which [pool_safe], where every thread is alike, cannot
    say. *)

From stdpp Require Import relations.
From S2P Require Import Prelude Threads.

Section Crew.
Context {S : Type}.

Inductive crew_step (methods : nat -> prog S unit -> Prop) : list (prog S unit) * S -> list (prog S unit) * S -> Prop :=
| crew_call p ps s : methods (length ps) p -> crew_step methods (ps, s) (ps ++ [p], s)
| crew_act i R ready (f : S -> res (R * S)) k r ps s s' :
    ps !! i = Some (Act ready f k) -> ready s = true -> f s = Ok (r, s') ->
    crew_step methods (ps, s) (<[i := k r]> ps, s').

(** A given order of the threads' actions is such a run. *)
Lemma crew_schedule methods order : forall c c', schedule order c = Some c' -> rtc (crew_step methods) c c'.
Proof.
  induction order as [|i order IH]; intros c c' E; cbn in E; [by injection E as ->|].
  destruct (step_thread i c) as [c1|] eqn:E1; [|done]. eapply rtc_l; [|by apply IH]. clear IH E.
  destruct c as [ps s]. unfold step_thread in E1. cbn in E1. destruct (ps !! i) as [[|R ready f k]|] eqn:Hi; try done.
  destruct (ready s) eqn:Hr; [|done]. destruct (f s) as [[r s']| |] eqn:Hf; try done. injection E1 as <-. by econstructor.
Qed.

(** A thread runs on for at most [n] actions, or until it has to wait; several
    turns of that. *)
Fixpoint burst (n i : nat) (c : list (prog S unit) * S) : list (prog S unit) * S :=
  match n with
  | O => c
  | Datatypes.S n' => match step_thread i c with Some c' => burst n' i c' | None => c end
  end.
Definition play (turns : list (nat * nat)) (c : list (prog S unit) * S) : list (prog S unit) * S :=
  foldl (fun c turn => burst turn.2 turn.1 c) c turns.

Lemma burst_sound methods n i : forall c, rtc (crew_step methods) c (burst n i c).
Proof.
  induction n as [|n IH]; intros c; cbn; [done|]. destruct (step_thread i c) as [c1|] eqn:E; [|done].
  etrans; [|apply IH]. apply (crew_schedule methods [i]). cbn. by rewrite E.
Qed.

Lemma play_sound methods turns : forall c, rtc (crew_step methods) c (play turns c).
Proof. induction turns as [|[i n] turns IH]; intros c; cbn; [done|]. etrans; [apply burst_sound|apply IH]. Qed.

(** No thread can go on. *)
Definition stuck (c : list (prog S unit) * S) : bool :=
  forallb (fun i => match step_thread i c with Some _ => false | None => true end) (seq 0 (length c.1)).

Lemma crew_calls methods (ps : list (prog S unit)) qs (s : S) :
  (forall i p, ps !! i = Some p -> methods (length qs + i)%nat p) -> rtc (crew_step methods) (qs, s) (qs ++ ps, s).
Proof.
  revert qs. induction ps as [|p ps IH]; intros qs H; [by rewrite app_nil_r|].
  eapply rtc_l; [apply (crew_call _ p)|].
  - specialize (H 0%nat p eq_refl). by rewrite Nat.add_0_r in H.
  - rewrite (cons_middle p qs ps), app_assoc. apply IH. intros i q Hi. rewrite length_app. cbn.
    replace (length qs + 1 + i)%nat with (length qs + Datatypes.S i)%nat by lia. by apply H.
Qed.

(** [I] holds between actions; thread [t] keeps to [G t] and relies on [R t],
    which covers what the others guarantee. *)
Section Holds.
Context (I : S -> Prop) (G R : nat -> S -> S -> Prop) (R_order : forall t, PreOrder (R t)).

Fixpoint assured (t : nat) {A} (p : prog S A) (Q : A -> S -> Prop) (s : S) : Prop :=
  match p with
  | Ret a => Q a s
  | Act ready f k => forall s1, R t s s1 -> I s1 -> ready s1 = true ->
      match f s1 with
      | Ok (r, s2) => I s2 /\ G t s1 s2 /\ assured t (k r) Q s2
      | _ => False
      end
  end.

(** [P] at the start gives [Q] at the end, whatever the others do meanwhile. *)
Definition triple (t : nat) {A} (P : S -> Prop) (p : prog S A) (Q : A -> S -> Prop) : Prop :=
  forall s, P s -> assured t p Q s.

Definition stable (t : nat) (P : S -> Prop) : Prop := forall s s', R t s s' -> P s -> P s'.

Lemma assured_mono t {A} (p : prog S A) (Q Q' : A -> S -> Prop) s :
  assured t p Q s -> (forall a s', Q a s' -> Q' a s') -> assured t p Q' s.
Proof.
  revert s. induction p as [a|X ready f g IH]; intros s Hp HQ; [by apply HQ|]. intros s1 HG HI Hr.
  specialize (Hp s1 HG HI Hr). destruct (f s1) as [[r s2]| |]; [|done|done].
  destruct Hp as (? & ? & ?). split_and!; [done|done|]. by apply (IH r).
Qed.

Lemma triple_ret t {A} (P : S -> Prop) (Q : A -> S -> Prop) a : (forall s, P s -> Q a s) -> triple t P (Ret a) Q.
Proof. intros HPQ s. apply HPQ. Qed.

Lemma triple_bind t {A B} P (p : prog S A) (k : A -> prog S B) Q Q' :
  triple t P p Q -> (forall a, triple t (Q a) (k a) Q') -> triple t P (p ≫= k) Q'.
Proof.
  intros Hp Hk s HP. specialize (Hp s HP). clear P HP. revert s Hp.
  induction p as [a|X ready f g IH]; intros s Hp; [by apply Hk|]. intros s1 HG HI Hr.
  specialize (Hp s1 HG HI Hr). destruct (f s1) as [[r s2]| |]; [|done|done].
  destruct Hp as (H1 & H2 & H3). split_and!; [done|done|]. by apply (IH r).
Qed.

(** What neither this thread nor the others take away can be carried along. *)
Lemma triple_frame t {A} (P F : S -> Prop) (p : prog S A) (Q : A -> S -> Prop) :
  stable t F -> (forall s s', G t s s' -> F s -> F s') -> triple t P p Q ->
  triple t (fun s => P s /\ F s) p (fun a s => Q a s /\ F s).
Proof.
  intros HR HG Hp s (HP & HF). specialize (Hp s HP). clear P HP. revert s Hp HF.
  induction p as [a|X ready f g IH]; intros s Hp HF; [done|]. intros s1 H1 HI Hr.
  specialize (Hp s1 H1 HI Hr). destruct (f s1) as [[r s2]| |]; [|done|done].
  destruct Hp as (HI2 & HG2 & H3). split_and!; [done|done|]. apply (IH r); [done|]. by apply (HG s1), (HR s).
Qed.

Lemma triple_act t {A} (P : S -> Prop) ready (f : S -> A * S) (Q : A -> S -> Prop) :
  stable t P ->
  (forall s, I s -> P s -> ready s = true -> I (f s).2 /\ G t s (f s).2 /\ Q (f s).1 (f s).2) ->
  triple t P (Act ready (fun s => Ok (f s)) Ret) Q.
Proof.
  intros Hst H s HP s1 HR HI Hr. destruct (H s1 HI (Hst _ _ HR HP) Hr) as (? & ? & ?). by destruct (f s1).
Qed.

Lemma triple_get t {A} (P : S -> Prop) (f : S -> A) (Q : A -> S -> Prop) :
  stable t P -> (forall s, G t s s) -> (forall s, I s -> P s -> Q (f s) s) -> triple t P (get f) Q.
Proof. intros Hst Hg H. apply (triple_act t P always (fun s => (f s, s))); [done|]. intros s HI HP _. cbn. split_and!; auto. Qed.

Lemma triple_put_ready t (P : S -> Prop) ready (f : S -> S) (Q : S -> Prop) :
  stable t P -> (forall s, I s -> P s -> ready s = true -> I (f s) /\ G t s (f s) /\ Q (f s)) ->
  triple t P (put_ready ready f) (fun _ => Q).
Proof. intros Hst H. by apply (triple_act t P ready (fun s => (tt, f s))). Qed.

Lemma triple_each t {A} (body : A -> prog S unit) (P : list A -> S -> Prop) l :
  (forall a l, triple t (P (a :: l)) (body a) (fun _ => P l)) -> triple t (P l) (each body l) (fun _ => P []).
Proof.
  intros Hb. induction l as [|a l IH]; [by intros s|]. cbn [each]. eapply triple_bind; [apply Hb|]. intros []. exact IH.
Qed.

Context (others : forall t t' s s', t <> t' -> G t' s s' -> R t s s').
Context (ever : S -> S -> Prop) (ever_order : PreOrder ever) (G_ever : forall t s s', G t s s' -> ever s s').

(** Threads that start with [N t], the state of one that has done nothing, and
    end with [Q t], keep the invariant together; [ever] relates every two
    moments of the run. *)
Theorem crew_safe (methods : nat -> prog S unit -> Prop) (N Q : nat -> S -> Prop) ps s ps' s' :
  (forall t, stable t (N t)) -> (forall t, stable t (Q t)) ->
  (forall t p, methods t p -> triple t (fun s => I s /\ N t s) p (fun _ => Q t)) ->
  rtc (crew_step methods) (ps, s) (ps', s') ->
  I s -> (forall i p, ps !! i = Some p -> assured i p (fun _ => Q i) s) -> (forall t, (length ps <= t)%nat -> N t s) ->
  I s' /\ ever s s' /\ (forall i p, ps' !! i = Some p -> assured i p (fun _ => Q i) s') /\
  (forall t, (length ps' <= t)%nat -> N t s').
Proof.
  intros HN HQ Hm Hs. remember (ps, s) as c eqn:E. remember (ps', s') as c' eqn:E'. revert ps s ps' s' E E'.
  induction Hs as [c|c d e H1 _ IH]; intros ps s ps' s' -> E' HI Hps Hfree.
  { injection E' as <- <-. by split_and!. }
  inversion H1 as [p ps0 s0 Hp E1 E2|i X ready f k r ps0 s0 s1 Hi Hr Hf E1 E2]; subst.
  - apply (IH (ps ++ [p]) s ps' s' eq_refl eq_refl HI).
    + intros i q [Hi|(Hlen & Hi)]%lookup_app_Some; [by apply Hps|]. apply list_lookup_singleton_Some in Hi as (H0 & <-).
      replace i with (length ps) by lia. apply Hm; [done|]. split; [done|]. by apply Hfree.
    + intros t Ht. apply Hfree. rewrite length_app in Ht. cbn in Ht. lia.
  - pose proof (Hps i _ Hi s (reflexivity s) HI Hr) as Hsafe. rewrite Hf in Hsafe. destruct Hsafe as (HI1 & HG1 & Hk).
    pose proof (lookup_lt_Some _ _ _ Hi) as Hlen.
    destruct (IH (<[i := k r]> ps) s1 ps' s' eq_refl eq_refl HI1) as (? & ? & ?).
    + intros j q Hj. destruct (decide (i = j)) as [<-|Hne].
      * rewrite list_lookup_insert_eq in Hj by done. by injection Hj as <-.
      * rewrite list_lookup_insert_ne in Hj by done. specialize (Hps j q Hj).
        pose proof (others j i s s1 (not_eq_sym Hne) HG1) as HR. destruct q as [a|Y ready' f' g]; [by apply (HQ j s s1)|].
        intros s2 H2. apply Hps. by etrans.
    + intros t Ht. rewrite length_insert in Ht. apply (HN t s s1); [apply (others t i); [lia|done]|]. by apply Hfree.
    + split_and!; [done|etrans; [by apply (G_ever i)|done]|tauto|tauto].
Qed.
End Holds.
End Crew.
