(* ===== verification/Words.v ===== *)
(** * Bytes, 16-bit words and packed bits

    A [std::string] used as a byte buffer and a [std::vector<uint8_t>] are a
    [list Z] whose elements satisfy [byte_ok].  The Modbus code moves 16-bit
    words most significant byte first, the C3 panel protocol least significant
    byte first; the C++ repeats the same small helpers in every translation
    unit and the definitions here are shared by the components that use them.
    The second half packs coils into bytes, bit [i mod 8] of byte [i / 8]. *)

From S2P Require Import Prelude.

(** ** Definitions *)

Definition byte_ok (b : Z) : Prop := 0 <= b < 256.
Definition word_ok (w : Z) : Prop := 0 <= w < 65536.
Abbreviation bytes_ok := (Forall byte_ok).
Abbreviation words_ok := (Forall word_ok).

(** [PutU16]: append the two bytes of [value], high byte first. *)
Definition PutU16 (out : list Z) (value : Z) : list Z :=
  out ++ [to_u8 (Z.shiftr value 8); to_u8 value].

(** [GetU16(data, offset)]: both indices must be inside the buffer. *)
Definition GetU16 (data : list Z) (offset : nat) : res Z :=
  hi ← read_at data offset;
  lo ← read_at data (S offset);
  Ok (to_u16 (Z.lor (Z.shiftl hi 8) lo)).

(** The same pair in little-endian order. *)
Definition AppendU16 (out : list Z) (value : Z) : list Z :=
  out ++ [Z.land value 255; Z.land (Z.shiftr value 8) 255].

Definition ReadU16le (data : list Z) (offset : nat) : res Z :=
  lo ← read_at data offset;
  hi ← read_at data (S offset);
  Ok (Z.lor lo (Z.shiftl hi 8)).

Definition put_words (out : list Z) (ws : list Z) : list Z := foldl PutU16 out ws.

(** [for (i = 0; i < n; ++i) values.push_back(GetU16(data, off + i * 2))] *)
Fixpoint get_words (data : list Z) (off n : nat) : res (list Z) :=
  match n with
  | O => Ok []
  | S n' =>
      w ← GetU16 data off;
      ws ← get_words data (S (S off)) n';
      Ok (w :: ws)
  end.

(** [if (values[i]) buf[i / 8] |= 1u << (i % 8)] for the values from index [i]. *)
Fixpoint set_bits (i : nat) (values : list bool) (buf : list Z) : list Z :=
  match values with
  | [] => buf
  | v :: vs =>
      set_bits (S i) vs
        (if v then alter (fun b => Z.lor b (Z.shiftl 1 (Z.of_nat (i mod 8)))) (i / 8)%nat buf
         else buf)
  end.

Definition pack_bits (values : list bool) (nbytes : nat) : list Z :=
  set_bits 0 values (replicate nbytes 0).

(** [(static_cast<uint8_t>(data[off + i / 8]) >> (i % 8)) & 1] *)
Definition get_bit (data : list Z) (off i : nat) : res bool :=
  b ← read_at data (off + i / 8);
  Ok (negb (Z.land (Z.shiftr b (Z.of_nat (i mod 8))) 1 =? 0)).

Fixpoint get_bits_from (data : list Z) (off i n : nat) : res (list bool) :=
  match n with
  | O => Ok []
  | S n' =>
      b ← get_bit data off i;
      bs ← get_bits_from data off (S i) n';
      Ok (b :: bs)
  end.

Definition get_bits (data : list Z) (off n : nat) : res (list bool) :=
  get_bits_from data off 0 n.

(** ** Words *)

Lemma length_PutU16 out v : length (PutU16 out v) = (length out + 2)%nat.
Proof. unfold PutU16. rewrite length_app. simpl. lia. Qed.

Lemma length_put_words ws : forall out, length (put_words out ws) = (length out + 2 * length ws)%nat.
Proof.
  induction ws as [|w ws IH]; intros out; simpl; [lia|].
  unfold put_words in *. simpl. rewrite IH, length_PutU16. lia.
Qed.

Lemma put_words_app ws : forall out, put_words out ws = out ++ put_words [] ws.
Proof.
  induction ws as [|w ws IH]; intros out; unfold put_words in *; simpl.
  - by rewrite app_nil_r.
  - rewrite IH, (IH (PutU16 [] w)). unfold PutU16. by rewrite <- app_assoc.
Qed.

Lemma PutU16_bytes_ok out v : bytes_ok out -> bytes_ok (PutU16 out v).
Proof.
  intros H. apply Forall_app. split; [done|].
  repeat constructor; unfold byte_ok; apply to_u8_range.
Qed.

Lemma put_words_bytes_ok ws : forall out, bytes_ok out -> bytes_ok (put_words out ws).
Proof.
  induction ws as [|w ws IH]; intros out H; [done|]. simpl. apply IH. by apply PutU16_bytes_ok.
Qed.

(** Splitting a word and joining it again. *)
Lemma join_split_u16 w : word_ok w -> to_u16 (Z.lor (Z.shiftl (to_u8 (Z.shiftr w 8)) 8) (to_u8 w)) = w.
Proof.
  intros Hw. unfold word_ok, to_u8, to_u16 in *.
  apply (bits_inj_bounded 16); [apply Z.mod_pos_bound; lia|lia|].
  intros i Hi. rewrite Z.mod_pow2_bits_low, Z.lor_spec by lia.
  destruct (decide (i < 8)).
  - rewrite Z.shiftl_spec_low, Z.mod_pow2_bits_low by lia. done.
  - rewrite Z.shiftl_spec_high, (Z.mod_pow2_bits_high w), orb_false_r by lia.
    rewrite Z.mod_pow2_bits_low, Z.shiftr_spec by lia. f_equal. lia.
Qed.

Lemma split_join_u16 hi lo : byte_ok hi -> byte_ok lo ->
  let w := to_u16 (Z.lor (Z.shiftl hi 8) lo) in to_u8 (Z.shiftr w 8) = hi /\ to_u8 w = lo.
Proof.
  unfold byte_ok, to_u8, to_u16. intros Hh Hl. split.
  - apply (bits_inj_bounded 8); [apply Z.mod_pos_bound; lia|lia|].
    intros i Hi. rewrite Z.mod_pow2_bits_low, Z.shiftr_spec, Z.mod_pow2_bits_low by lia.
    rewrite Z.lor_spec, Z.shiftl_spec, (testbit_high 8 lo) by lia.
    rewrite orb_false_r. f_equal. lia.
  - apply (bits_inj_bounded 8); [apply Z.mod_pos_bound; lia|lia|].
    intros i Hi. rewrite Z.mod_pow2_bits_low, Z.mod_pow2_bits_low by lia.
    rewrite Z.lor_spec, Z.shiftl_spec_low by lia. done.
Qed.

(** The numeric value of a joined pair, for comparisons on short frames. *)
Lemma u16_value hi lo : byte_ok hi -> byte_ok lo ->
  to_u16 (Z.lor (Z.shiftl hi 8) lo) = hi * 256 + lo.
Proof.
  intros Hh Hl. unfold byte_ok in *.
  assert (Z.lor (Z.shiftl hi 8) lo = hi * 256 + lo) as ->.
  { assert (Z.land (Z.shiftl hi 8) lo = 0) as H0.
    { apply Z.bits_inj'. intros i Hi. rewrite Z.land_spec, Z.bits_0.
      destruct (decide (i < 8)).
      - by rewrite Z.shiftl_spec_low by lia.
      - rewrite (testbit_high 8 lo) by lia. apply andb_false_r. }
    rewrite <- (Z.lxor_lor _ _ H0), <- (Z.add_nocarry_lxor _ _ H0).
    by rewrite Z.shiftl_mul_pow2 by lia. }
  apply to_u16_id. lia.
Qed.

Lemma GetU16_range data off w : GetU16 data off = Ok w -> word_ok w.
Proof.
  unfold GetU16. intros H. do 2 inv_bind H. simplify_eq. apply to_u16_range.
Qed.

Lemma GetU16_in_range data off :
  (S off < length data)%nat -> exists w, GetU16 data off = Ok w /\ word_ok w.
Proof.
  intros H. unfold GetU16.
  destruct (read_at_in data off) as (a & -> & _); [lia|].
  destruct (read_at_in data (S off)) as (b & -> & _); [lia|]. simpl.
  eexists. split; [done|apply to_u16_range].
Qed.

Lemma GetU16_ok_length data off w : GetU16 data off = Ok w -> (S off < length data)%nat.
Proof.
  unfold GetU16. intros H. do 2 inv_bind H.
  apply read_at_ok_iff in Hm0. by apply lookup_lt_Some in Hm0.
Qed.

(** Reading a word out of the middle of a message that was built by [PutU16]. *)
Lemma GetU16_put pre w post off :
  off = length pre -> word_ok w -> GetU16 (pre ++ PutU16 [] w ++ post) off = Ok w.
Proof.
  intros -> Hw. unfold GetU16, PutU16.
  rewrite (read_at_app_off _ _ (length pre) 0), (read_at_app_off _ _ (S (length pre)) 1) by lia.
  simpl. by rewrite join_split_u16.
Qed.

Lemma GetU16_app data rest off w : GetU16 data off = Ok w -> GetU16 (data ++ rest) off = Ok w.
Proof.
  intros H. pose proof (GetU16_ok_length _ _ _ H). revert H.
  unfold GetU16, read_at. by rewrite !lookup_app_l by lia.
Qed.

Lemma get_words_put pre ws post off n :
  off = length pre -> n = length ws -> words_ok ws ->
  get_words (pre ++ put_words [] ws ++ post) off n = Ok ws.
Proof.
  intros Hoff -> Hws. revert pre off Hoff.
  induction Hws as [|w ws Hw Hws IH]; intros pre off Hoff; [done|].
  simpl. unfold put_words. simpl. fold (put_words (PutU16 [] w) ws).
  rewrite put_words_app, <- app_assoc, (GetU16_put _ _ _ off) by done. simpl.
  change (to_u8 (Z.shiftr w 8) :: to_u8 w :: put_words [] ws ++ post)
    with ([to_u8 (Z.shiftr w 8); to_u8 w] ++ put_words [] ws ++ post).
  rewrite app_assoc, IH; [done|]. rewrite length_app. simpl. lia.
Qed.

Lemma get_words_in_range data off n :
  (off + 2 * n <= length data)%nat ->
  exists ws, get_words data off n = Ok ws /\ length ws = n /\ words_ok ws.
Proof.
  revert off. induction n as [|n IH]; intros off H; simpl.
  - exists []. done.
  - destruct (GetU16_in_range data off) as (w & -> & Hw); [lia|].
    destruct (IH (S (S off))) as (ws & -> & Hl & Hws); [lia|]. simpl.
    exists (w :: ws). split_and!; simpl; [done|lia|by constructor].
Qed.

Lemma length_AppendU16 out v : length (AppendU16 out v) = (length out + 2)%nat.
Proof. unfold AppendU16. rewrite length_app. simpl. lia. Qed.

Lemma land_255 v : Z.land v 255 = to_u8 v.
Proof. change 255 with (Z.ones 8). by rewrite Z.land_ones by lia. Qed.

Lemma AppendU16_bytes_ok out v : bytes_ok out -> bytes_ok (AppendU16 out v).
Proof.
  intros H. apply Forall_app. split; [done|].
  rewrite !land_255. repeat constructor; unfold byte_ok; apply to_u8_range.
Qed.

Lemma ReadU16le_append pre w post off :
  off = length pre -> word_ok w -> ReadU16le (pre ++ AppendU16 [] w ++ post) off = Ok w.
Proof.
  intros -> Hw. unfold ReadU16le, AppendU16.
  rewrite (read_at_app_off _ _ (length pre) 0), (read_at_app_off _ _ (S (length pre)) 1) by lia.
  simpl. f_equal. unfold word_ok in *. rewrite !land_255. unfold to_u8.
  assert (Z.shiftr w 8 mod 2 ^ 8 = Z.shiftr w 8) as ->.
  { apply Z.mod_small. rewrite Z.shiftr_div_pow2 by lia. split; [apply Z.div_pos; lia|].
    apply Z.div_lt_upper_bound; lia. }
  apply Z.bits_inj'. intros i Hi. rewrite Z.lor_spec. destruct (decide (i < 8)).
  - rewrite Z.mod_pow2_bits_low, Z.shiftl_spec_low, orb_false_r by lia. done.
  - rewrite Z.mod_pow2_bits_high, Z.shiftl_spec_high, Z.shiftr_spec by lia.
    simpl. f_equal. lia.
Qed.

Lemma ReadU16le_in_range data off :
  (S off < length data)%nat -> exists w, ReadU16le data off = Ok w.
Proof.
  intros H. unfold ReadU16le.
  destruct (read_at_in data off) as (a & -> & _); [lia|].
  destruct (read_at_in data (S off)) as (b & -> & _); [lia|]. by eexists.
Qed.

(** ** Packed bits *)

Lemma length_set_bits vs : forall i buf, length (set_bits i vs buf) = length buf.
Proof.
  induction vs as [|v vs IH]; intros i buf; simpl; [done|].
  rewrite IH. destruct v; [apply length_alter|done].
Qed.

Lemma length_pack_bits vs n : length (pack_bits vs n) = n.
Proof. unfold pack_bits. by rewrite length_set_bits, length_replicate. Qed.

Lemma set_bits_bytes_ok vs : forall i buf, bytes_ok buf -> bytes_ok (set_bits i vs buf).
Proof.
  induction vs as [|v vs IH]; intros i buf H; simpl; [done|].
  apply IH. destruct v; [|done]. apply Forall_alter; [done|].
  intros x Hx Hb. unfold byte_ok in *.
  apply (lor_bounded 8); [lia|done|].
  rewrite Z.shiftl_1_l. pose proof (Nat.mod_upper_bound i 8).
  split; [lia|]. apply Z.pow_lt_mono_r; lia.
Qed.

Lemma pack_bits_bytes_ok vs n : bytes_ok (pack_bits vs n).
Proof. apply set_bits_bytes_ok. apply Forall_replicate. unfold byte_ok. lia. Qed.

(** Bit [k] of byte [j] after packing the values that start at index [i]. *)
Lemma set_bits_spec vs : forall i buf j b,
  buf !! j = Some b ->
  exists b', set_bits i vs buf !! j = Some b' /\
    forall k, (k < 8)%nat ->
      Z.testbit b' (Z.of_nat k) =
      Z.testbit b (Z.of_nat k) ||
      (if decide (i <= 8 * j + k)%nat then default false (vs !! (8 * j + k - i)%nat) else false).
Proof.
  induction vs as [|v vs IH]; intros i buf j b Hb; simpl.
  - exists b. split; [done|]. intros k Hk. case_decide; by rewrite orb_false_r.
  - set (buf' := if v then _ else buf).
    assert (exists b1, buf' !! j = Some b1 /\ forall k, (k < 8)%nat ->
      Z.testbit b1 (Z.of_nat k) = Z.testbit b (Z.of_nat k) || (v && bool_decide (8 * j + k = i)%nat))
      as (b1 & Hb1 & Hk1).
    { subst buf'. destruct v; [|exists b; split; [done|]; intros; by rewrite orb_false_r].
      pose proof (Nat.div_mod_eq i 8). pose proof (Nat.mod_upper_bound i 8).
      destruct (decide (i / 8 = j)%nat) as [<-|Hne].
      - rewrite list_lookup_alter_eq, Hb. eexists. split; [done|]. intros k Hk.
        rewrite Z.lor_spec, Z.shiftl_1_l, Z.pow2_bits_eqb by lia. simpl. f_equal.
        case_bool_decide; destruct (Z.eqb_spec (Z.of_nat (i mod 8)) (Z.of_nat k)); simpl; lia.
      - rewrite list_lookup_alter_ne by done. exists b. split; [done|]. intros k Hk.
        rewrite bool_decide_false by lia. by rewrite orb_false_r. }
    destruct (IH (S i) buf' j b1 Hb1) as (b' & Hb' & Hk'). exists b'. split; [done|].
    intros k Hk. rewrite Hk', Hk1 by done. rewrite <- orb_assoc. f_equal.
    destruct (decide (8 * j + k = i)%nat) as [E|E].
    + rewrite bool_decide_true by done. rewrite decide_False by lia. rewrite decide_True by lia.
      replace (8 * j + k - i)%nat with 0%nat by lia. simpl. by rewrite andb_true_r, orb_false_r.
    + rewrite bool_decide_false, andb_false_r by done. simpl.
      destruct (decide (S i <= 8 * j + k)%nat).
      * rewrite decide_True by lia. by replace (8 * j + k - i)%nat with (S (8 * j + k - S i)) by lia.
      * rewrite decide_False by lia. done.
Qed.

Lemma pack_bits_spec vs n j :
  (j < n)%nat -> exists b, pack_bits vs n !! j = Some b /\
    forall k, (k < 8)%nat -> Z.testbit b (Z.of_nat k) = default false (vs !! (8 * j + k)%nat).
Proof.
  intros Hj. unfold pack_bits.
  destruct (set_bits_spec vs 0 (replicate n 0) j 0) as (b & Hb & H); [by apply lookup_replicate_2|].
  exists b. split; [done|]. intros k Hk. rewrite H by done.
  rewrite Z.bits_0, decide_True by lia. simpl. by rewrite Nat.sub_0_r.
Qed.

Lemma get_bit_testbit data off i b :
  data !! (off + i / 8)%nat = Some b ->
  get_bit data off i = Ok (Z.testbit b (Z.of_nat (i mod 8))).
Proof.
  intros H. unfold get_bit. rewrite (read_at_lookup _ _ _ H). simpl. f_equal.
  change 1 with (Z.ones 1). rewrite Z.land_ones by lia.
  change (2 ^ 1) with 2. rewrite <- Z.bit0_mod, Z.shiftr_spec, Z.add_0_l by lia.
  by destruct (Z.testbit b _).
Qed.

Lemma get_bits_from_in_range data off n : forall i,
  (off + (i + n + 7) / 8 <= length data)%nat ->
  exists bs, get_bits_from data off i n = Ok bs /\ length bs = n.
Proof.
  induction n as [|n IH]; intros i H; simpl.
  - by exists [].
  - destruct (lookup_lt_is_Some_2 data (off + i / 8)) as [b Hb].
    { pose proof (Nat.div_mod_eq i 8). pose proof (Nat.mod_upper_bound i 8).
      pose proof (Nat.div_mod_eq (i + S n + 7) 8). pose proof (Nat.mod_upper_bound (i + S n + 7) 8). lia. }
    rewrite (get_bit_testbit _ _ _ _ Hb). simpl.
    destruct (IH (S i)) as (bs & -> & Hl).
    { by replace (S i + n + 7)%nat with (i + S n + 7)%nat by lia. }
    eexists. split; [done|]. simpl. lia.
Qed.

Lemma get_bits_in_range data off n :
  (off + (n + 7) / 8 <= length data)%nat -> exists bs, get_bits data off n = Ok bs /\ length bs = n.
Proof. intros. by apply get_bits_from_in_range. Qed.

(** Packing then unpacking gives the values back. *)
Lemma get_bits_pack pre vs post nb off :
  off = length pre -> (length vs <= 8 * nb)%nat ->
  get_bits (pre ++ pack_bits vs nb ++ post) off (length vs) = Ok vs.
Proof.
  intros -> Hn. unfold get_bits.
  assert (forall n i, (i + n = length vs)%nat ->
    get_bits_from (pre ++ pack_bits vs nb ++ post) (length pre) i n = Ok (drop i vs)) as H.
  { induction n as [|n IH]; intros i Hi; simpl.
    - by rewrite drop_ge by lia.
    - pose proof (Nat.div_mod_eq i 8). pose proof (Nat.mod_upper_bound i 8).
      destruct (pack_bits_spec vs nb (i / 8)) as (b & Hb & Hbits); [lia|].
      rewrite (get_bit_testbit _ _ _ b).
      2:{ rewrite lookup_app_r by lia.
          replace (length pre + i / 8 - length pre)%nat with (i / 8)%nat by lia.
          rewrite lookup_app_l; [done|]. rewrite length_pack_bits. lia. }
      simpl. rewrite IH by lia. simpl. rewrite Hbits by lia.
      replace (8 * (i / 8) + i mod 8)%nat with i by lia.
      destruct (lookup_lt_is_Some_2 vs i) as [v Hv]; [lia|].
      rewrite Hv. simpl. by rewrite <- (drop_S _ _ _ Hv). }
  rewrite H by lia. by rewrite drop_0.
Qed.

#[export] Hint Resolve PutU16_bytes_ok put_words_bytes_ok AppendU16_bytes_ok pack_bits_bytes_ok : gw.
#[export] Hint Rewrite length_PutU16 length_put_words length_AppendU16 length_pack_bits
  length_set_bits : gwlen.

(** ** Little-endian pairs *)

Lemma le_value lo hi : byte_ok lo -> Z.lor lo (Z.shiftl hi 8) = hi * 256 + lo.
Proof. intros. rewrite Z.lor_comm. by apply (lor_shiftl_add hi lo 8). Qed.

Lemma AppendU16_join lo hi : byte_ok lo -> byte_ok hi ->
  AppendU16 [] (Z.lor lo (Z.shiftl hi 8)) = [lo; hi].
Proof.
  intros Hl Hh. rewrite le_value by done. unfold AppendU16. rewrite !land_255, Z.shiftr_div_pow2 by lia.
  unfold to_u8, byte_ok in *. simpl. f_equal; [|f_equal].
  - rewrite Z.add_comm, Z_mod_plus_full. by apply Z.mod_small.
  - change (2 ^ 8) with 256. rewrite Z.div_add_l, (Z.div_small lo), Z.add_0_r by lia. by apply Z.mod_small.
Qed.

(** Two bytes of the buffer are the encoding of the word read there. *)
Lemma ReadU16le_shape data off w : ReadU16le data off = Ok w -> bytes_ok data ->
  word_ok w /\ exists rest, drop off data = AppendU16 [] w ++ rest.
Proof.
  unfold ReadU16le. intros H Hd. inv_bind H. inv_bind H. simplify_eq.
  apply read_at_ok_iff in Hm, Hm0.
  assert (byte_ok v) by (eapply Forall_lookup_1; eauto).
  assert (byte_ok v0) by (eapply Forall_lookup_1; eauto).
  split; [unfold word_ok; rewrite le_value by done; unfold byte_ok in *; lia|].
  rewrite AppendU16_join by done. exists (drop (S (S off)) data).
  by rewrite (drop_S _ _ _ Hm), (drop_S _ _ _ Hm0).
Qed.
