(* ===== verification/Text.v ===== *)
(** * Text

    A [std::string] that holds text is a [string]; where the code looks at its
    bytes the two views are related by [bytes_of] and [text_of].  The small
    routines every component repeats (lower-casing, decimal numbers) are
    here. *)

From stdpp Require Import strings.
From Stdlib Require Import Ascii.
From S2P Require Import Prelude Words.

(** ** Definitions *)

Definition byte_of (c : ascii) : Z := Z.of_N (N_of_ascii c).
Definition char_of (b : Z) : ascii := ascii_of_N (Z.to_N b).

Fixpoint bytes_of (s : string) : list Z :=
  match s with
  | EmptyString => []
  | String c rest => byte_of c :: bytes_of rest
  end.

Fixpoint text_of (bs : list Z) : string :=
  match bs with
  | [] => EmptyString
  | b :: rest => String (char_of b) (text_of rest)
  end.

(** [std::to_string] of an integer; a number has at most one decimal digit
    per bit. *)
Fixpoint dec_digits (fuel : nat) (n : Z) : list Z :=
  match fuel with
  | O => []
  | S fuel' => if n <? 10 then [48 + n] else dec_digits fuel' (n / 10) ++ [48 + n mod 10]
  end.

Definition decimal (n : Z) : list Z := dec_digits (S (Z.to_nat (Z.log2 n))) n.

Definition to_string (z : Z) : string :=
  text_of (if z <? 0 then 45 :: decimal (- z) else decimal z).

(** [std::tolower] in the "C" locale. *)
Definition tolower (b : Z) : Z := if (65 <=? b) && (b <=? 90) then b + 32 else b.
Definition Lower (text : string) : string := text_of (map tolower (bytes_of text)).

(** [std::toupper] in the "C" locale. *)
Definition toupper (b : Z) : Z := if (97 <=? b) && (b <=? 122) then b - 32 else b.
Definition Upper (text : string) : string := text_of (map toupper (bytes_of text)).

Definition is_digit (b : Z) : bool := (48 <=? b) && (b <=? 57).
Definition is_alpha (b : Z) : bool := ((65 <=? b) && (b <=? 90)) || ((97 <=? b) && (b <=? 122)).
Definition is_alnum (b : Z) : bool := is_digit b || is_alpha b.

(** [text] up to the first [sep], and the rest from it. *)
Fixpoint until (sep : Z) (text : list Z) : list Z * list Z :=
  match text with
  | b :: rest => if b =? sep then ([], text) else let '(a, c) := until sep rest in (b :: a, c)
  | [] => ([], [])
  end.

(** [c_str()]: what a C function sees of the text. *)
Definition c_str (text : list Z) : list Z := (until 0 text).1.

(** [starts_with] is [compare(0, n, prefix) == 0]; [ends_with] compares the
    last bytes, when there are enough. *)
Definition starts_with (prefix text : list Z) : bool :=
  bool_decide (take (length prefix) text = prefix).
Definition ends_with (suffix text : list Z) : bool :=
  (length suffix <=? length text)%nat &&
  bool_decide (drop (length text - length suffix) text = suffix).

(** [std::isspace] in the "C" locale. *)
Definition isspace (b : Z) : bool := (b =? 32) || ((9 <=? b) && (b <=? 13)).

Fixpoint skip_spaces (text : list Z) : list Z :=
  match text with
  | b :: rest => if isspace b then skip_spaces rest else text
  | [] => []
  end.

(** The longest prefix of bytes that satisfy [p], and the rest. *)
Fixpoint span_while (p : Z -> bool) (text : list Z) : list Z * list Z :=
  match text with
  | b :: rest => if p b then let '(a, c) := span_while p rest in (b :: a, c) else ([], text)
  | [] => ([], [])
  end.

(** The value of a run of decimal digits, after [v]. *)
Definition dec_value (v : Z) (digits : list Z) : Z := foldl (fun v b => v * 10 + (b - 48)) v digits.

(** [std::strtol] and [std::atoi] of a C string: white space, a sign, digits;
    [long] has 64 bits and saturates, [atoi] is [(int)strtol(s, 0, 10)]. *)
Definition strtol (text : list Z) : Z :=
  let '(negative, digits) :=
    match skip_spaces (until 0 text).1 with
    | 45 :: rest => (true, rest)
    | 43 :: rest => (false, rest)
    | rest => (false, rest)
    end in
  let v := dec_value 0 (span_while is_digit digits).1 in
  if negative then Z.max (- 2 ^ 63) (- v) else Z.min (2 ^ 63 - 1) v.

Definition atoi (text : list Z) : Z := to_int32 (strtol text).

(** [find_first_not_of] and [find_last_not_of]: the text without the given
    bytes at its ends. *)
Fixpoint skip_set (set : list Z) (text : list Z) : list Z :=
  match text with
  | b :: rest => if bool_decide (b ∈ set) then skip_set set rest else text
  | [] => []
  end.
Definition trim (set text : list Z) : list Z := rev (skip_set set (rev (skip_set set text))).

(** The order of [std::string], byte by byte. *)
Fixpoint lex_leb (a b : list Z) : bool :=
  match a, b with
  | [], _ => true
  | _ :: _, [] => false
  | x :: a', y :: b' => (x <? y) || ((x =? y) && lex_leb a' b')
  end.
(** The parts between the separators. *)
Fixpoint split_on (sep : Z) (text : list Z) : list (list Z) :=
  match text with
  | [] => [[]]
  | c :: rest =>
      if c =? sep then [] :: split_on sep rest
      else match split_on sep rest with
           | part :: parts => (c :: part) :: parts
           | [] => [[c]]
           end
  end.

(** Parts with the separator between them. *)
Fixpoint join_on (sep : Z) (parts : list (list Z)) : list Z :=
  match parts with
  | [] => []
  | [f] => f
  | f :: rest => f ++ sep :: join_on sep rest
  end.

(** [std::strtoul]: 64 bits, saturating; a minus sign negates modulo 2^64. *)
Definition strtoul (text : list Z) : Z :=
  let '(negative, digits) :=
    match skip_spaces (until 0 text).1 with
    | 45 :: rest => (true, rest)
    | 43 :: rest => (false, rest)
    | rest => (false, rest)
    end in
  let v := dec_value 0 (span_while is_digit digits).1 in
  if 2 ^ 64 <=? v then 2 ^ 64 - 1 else if negative then (- v) mod 2 ^ 64 else v.

(** A decimal integer at the head of a C string, white space and a sign before
    it, and what follows; [None] when there is no digit. *)
Definition scan_int (text : list Z) : option (Z * list Z) :=
  let '(negative, rest) :=
    match skip_spaces text with
    | 45 :: rest => (true, rest)
    | 43 :: rest => (false, rest)
    | rest => (false, rest)
    end in
  match span_while is_digit rest with
  | ([], _) => None
  | (digits, rest') => let v := dec_value 0 digits in Some (if negative then - v else v, rest')
  end.

(** [std::stoi]; [None] when it throws. *)
Definition stoi (text : list Z) : option Z :=
  match scan_int (until 0 text).1 with
  | Some (v, _) => if (- 2 ^ 31 <=? v) && (v <? 2 ^ 31) then Some v else None
  | None => None
  end.

(** A text literal as bytes. *)
Notation "'b!' s" := (bytes_of s%string) (at level 1, only parsing).

(** ** Lemmas *)

Lemma byte_of_range c : byte_ok (byte_of c).
Proof. unfold byte_ok, byte_of. pose proof (N_ascii_bounded c). lia. Qed.

Lemma char_of_byte_of c : char_of (byte_of c) = c.
Proof. unfold char_of, byte_of. by rewrite N2Z.id, ascii_N_embedding. Qed.

Lemma byte_of_char_of b : byte_ok b -> byte_of (char_of b) = b.
Proof.
  unfold byte_ok, char_of, byte_of. intros H. rewrite N_ascii_embedding by lia. lia.
Qed.

Lemma bytes_of_ok s : bytes_ok (bytes_of s).
Proof. induction s; simpl; constructor; auto using byte_of_range. Qed.

Lemma text_of_bytes_of s : text_of (bytes_of s) = s.
Proof. induction s; simpl; [done|]. by rewrite char_of_byte_of, IHs. Qed.

Lemma bytes_of_text_of bs : bytes_ok bs -> bytes_of (text_of bs) = bs.
Proof. induction 1; simpl; [done|]. by rewrite byte_of_char_of, IHForall. Qed.

Lemma bytes_of_app s t : bytes_of (s ++ t)%string = bytes_of s ++ bytes_of t.
Proof. induction s; simpl; [done|]. by rewrite IHs. Qed.

Lemma bytes_of_inj s t : bytes_of s = bytes_of t -> s = t.
Proof. intros H. by rewrite <- (text_of_bytes_of s), H, text_of_bytes_of. Qed.

Lemma length_bytes_of s : length (bytes_of s) = String.length s.
Proof. induction s; simpl; auto. Qed.

Lemma tolower_ok b : byte_ok b -> byte_ok (tolower b).
Proof. unfold byte_ok, tolower. intros. destruct (_ && _) eqn:E; [|done]. reflect_bools. lia. Qed.

Lemma tolower_idem b : tolower (tolower b) = tolower b.
Proof.
  unfold tolower at 2 3. destruct (_ && _) eqn:E; unfold tolower; [|by rewrite E].
  reflect_bools. by rewrite (proj2 (Z.leb_gt (b + 32) 90)), andb_false_r by lia.
Qed.

Lemma bytes_of_Lower s : bytes_of (Lower s) = map tolower (bytes_of s).
Proof.
  unfold Lower. apply bytes_of_text_of, Forall_map.
  eapply Forall_impl; [apply bytes_of_ok|]. apply tolower_ok.
Qed.

Lemma Lower_idem s : Lower (Lower s) = Lower s.
Proof.
  apply bytes_of_inj. rewrite !bytes_of_Lower, map_map. apply map_ext, tolower_idem.
Qed.

Lemma dec_digits_spec fuel : forall n, 0 <= n < 10 ^ Z.of_nat fuel -> (0 < fuel)%nat ->
  Forall (fun b => 48 <= b <= 57) (dec_digits fuel n) /\ dec_digits fuel n <> [] /\
  dec_value 0 (dec_digits fuel n) = n.
Proof.
  induction fuel as [|fuel IH]; intros n Hn Hf; [lia|]. simpl.
  destruct (n <? 10) eqn:E; [apply Z.ltb_lt in E|apply Z.ltb_ge in E].
  - split_and!; [repeat constructor; lia|done|]. unfold dec_value. simpl. lia.
  - rewrite Nat2Z.inj_succ, Z.pow_succ_r in Hn by lia.
    pose proof (Z.mod_pos_bound n 10). pose proof (Z.div_mod n 10).
    destruct (IH (n / 10)) as (H1 & H2 & H3).
    + split; [apply Z.div_pos; lia|]. apply Z.div_lt_upper_bound; lia.
    + destruct fuel; [|lia]. simpl in Hn. lia.
    + split_and!.
      * apply Forall_app. split; [done|]. repeat constructor; lia.
      * intros Happ. by apply app_nil in Happ as [_ ?].
      * unfold dec_value in *. rewrite foldl_app, H3. simpl. lia.
Qed.

Lemma decimal_spec n : 0 <= n ->
  Forall (fun b => 48 <= b <= 57) (decimal n) /\ decimal n <> [] /\ dec_value 0 (decimal n) = n.
Proof.
  intros Hn. apply dec_digits_spec; [|lia]. split; [done|].
  destruct (decide (n = 0)) as [->|Hn0]; [done|].
  pose proof (Z.log2_spec n ltac:(lia)) as [_ H]. pose proof (Z.log2_nonneg n).
  rewrite Nat2Z.inj_succ, Z2Nat.id by lia.
  apply (Z.lt_le_trans _ (2 ^ Z.succ (Z.log2 n))); [done|]. apply Z.pow_le_mono_l. lia.
Qed.

Lemma decimal_inj a b : 0 <= a -> 0 <= b -> decimal a = decimal b -> a = b.
Proof.
  intros Ha Hb E. destruct (decimal_spec a Ha) as (_ & _ & Va). destruct (decimal_spec b Hb) as (_ & _ & Vb).
  by rewrite <- Va, E, Vb.
Qed.

Lemma bytes_of_to_string n : 0 <= n -> bytes_of (to_string n) = decimal n.
Proof.
  intros Hn. unfold to_string. rewrite (proj2 (Z.ltb_ge n 0)) by done.
  apply bytes_of_text_of. destruct (decimal_spec n Hn) as [H _].
  eapply Forall_impl; [exact H|]. unfold byte_ok. simpl. lia.
Qed.

Lemma until_none sep l : Forall (fun b => b <> sep) l -> forall rest,
  until sep (l ++ sep :: rest) = (l, sep :: rest) /\ until sep l = (l, []).
Proof.
  induction 1 as [|b l Hb Hl IH]; intros rest; simpl.
  - by rewrite Z.eqb_refl.
  - destruct (IH rest) as [-> ->]. by rewrite (proj2 (Z.eqb_neq b sep)).
Qed.

Lemma until_fst sep l : Forall (fun b => b <> sep) (until sep l).1.
Proof.
  induction l as [|b l IH]; simpl; [constructor|]. destruct (b =? sep) eqn:E; simpl; [constructor|].
  apply Z.eqb_neq in E. destruct (until sep l). simpl in *. by constructor.
Qed.

Lemma starts_with_iff prefix text : starts_with prefix text = true <-> exists rest, text = prefix ++ rest.
Proof.
  unfold starts_with. rewrite bool_decide_eq_true. split.
  - intros H. exists (drop (length prefix) text). rewrite <- H at 1. by rewrite take_drop.
  - intros [rest ->]. by rewrite take_app_length.
Qed.

Lemma ends_with_iff suffix text : ends_with suffix text = true <-> exists front, text = front ++ suffix.
Proof.
  unfold ends_with. rewrite andb_true_iff, Nat.leb_le, bool_decide_eq_true. split.
  - intros [Hl H]. exists (take (length text - length suffix) text). rewrite <- H at 2. by rewrite take_drop.
  - intros [front ->]. rewrite length_app. split; [lia|].
    replace (length front + length suffix - length suffix)%nat with (length front) by lia.
    by rewrite drop_app_length.
Qed.

#[export] Hint Resolve bytes_of_ok byte_of_range tolower_ok : gw.
#[export] Hint Rewrite length_bytes_of : gwlen.

(** ** Runs of bytes *)

Lemma span_while_spec p text : forall a c, span_while p text = (a, c) ->
  text = a ++ c /\ Forall (fun b => p b = true) a /\ (forall b c', c = b :: c' -> p b = false).
Proof.
  induction text as [|b text IH]; simpl; intros a c H; [by simplify_eq|].
  destruct (p b) eqn:Hp; [|simplify_eq; split_and!; [done|constructor|by intros; simplify_eq]].
  destruct (span_while p text) as [a' c'] eqn:E. simplify_eq.
  destruct (IH a' c eq_refl) as (-> & H1 & H2). split_and!; [done|by constructor|done].
Qed.

Lemma span_while_app p a c : Forall (fun b => p b = true) a ->
  (forall b c', c = b :: c' -> p b = false) -> span_while p (a ++ c) = (a, c).
Proof.
  induction 1 as [|b a Hb Ha IH]; intros Hc; simpl.
  - destruct c as [|b c]; [done|]. simpl. by rewrite (Hc b c eq_refl).
  - by rewrite Hb, IH.
Qed.

(** ** Trimming and splitting *)

Lemma skip_set_app set ws text : Forall (fun b => b ∈ set) ws ->
  skip_set set (ws ++ text) = skip_set set text.
Proof. induction 1 as [|b ws Hb _ IH]; [done|]. simpl. by rewrite bool_decide_true. Qed.

Lemma skip_set_id set text : (forall b, head text = Some b -> b ∉ set) -> skip_set set text = text.
Proof.
  destruct text as [|b text]; [done|]. intros H. simpl. by rewrite bool_decide_false by (by apply H).
Qed.

(** Trimming takes off exactly the blanks around a text that has none at its
    own ends. *)
Lemma trim_spec set before text after :
  Forall (fun b => b ∈ set) before -> Forall (fun b => b ∈ set) after ->
  (forall b, head text = Some b -> b ∉ set) -> (forall b, last text = Some b -> b ∉ set) -> text <> [] ->
  trim set (before ++ text ++ after) = text.
Proof.
  intros Hb Ha Hh Hl Hne. unfold trim. rewrite skip_set_app by done.
  rewrite (skip_set_id set (text ++ after)).
  2: { destruct text; [done|]. exact Hh. }
  rewrite rev_app_distr, skip_set_app by (by apply Forall_rev).
  rewrite skip_set_id, rev_involutive; [done|].
  intros b Hb'. apply Hl. destruct (rev text) as [|c l] eqn:E; [done|]. simpl in Hb'. simplify_eq.
  apply (f_equal (@rev Z)) in E. rewrite rev_involutive in E. subst text. simpl. by rewrite last_snoc.
Qed.

Lemma until_shape sep text : let '(p, after) := until sep text in
  text = p ++ after /\ (sep ∉ p) /\ (after = [] \/ head after = Some sep).
Proof.
  induction text as [|b text IH]; simpl; [split_and!; [done|apply not_elem_of_nil|by left]|].
  destruct (b =? sep) eqn:E.
  - apply Z.eqb_eq in E. subst. split_and!; [done|apply not_elem_of_nil|by right].
  - apply Z.eqb_neq in E. destruct (until sep text) as [p after]. destruct IH as (-> & Hp & Ha).
    split_and!; [done|set_solver|done].
Qed.

(** The first part and the parts of what follows the separator. *)
Lemma split_on_until sep text : split_on sep text =
  (until sep text).1 :: match (until sep text).2 with [] => [] | _ :: rest => split_on sep rest end.
Proof.
  induction text as [|b text IH]; simpl; [done|]. destruct (b =? sep); [done|].
  rewrite IH. by destruct (until sep text).
Qed.

Lemma split_on_cons sep text : exists part parts, split_on sep text = part :: parts.
Proof. rewrite split_on_until. by do 2 eexists. Qed.

(** A separator-free beginning that ends at a separator, or at the end of the
    text, is the first part. *)
Lemma until_unique sep part after : sep ∉ part -> (after = [] \/ head after = Some sep) ->
  until sep (part ++ after) = (part, after).
Proof.
  intros Hp Ha. induction part as [|b part IH]; simpl.
  - destruct after as [|c after]; [done|]. destruct Ha as [|Ha]; [done|]. simpl in Ha. simplify_eq.
    simpl. by rewrite Z.eqb_refl.
  - rewrite (proj2 (Z.eqb_neq b sep)) by set_solver. rewrite IH by set_solver. done.
Qed.

(** *** Decimal integers *)

Lemma skip_spaces_spec text : exists blanks, text = blanks ++ skip_spaces text /\ Forall (fun c => isspace c = true) blanks.
Proof.
  induction text as [|c text (blanks & E & H)]; [by exists []|]. cbn. destruct (isspace c) eqn:Ec; [|by exists []].
  exists (c :: blanks). split; [cbn; by rewrite <- E|by constructor].
Qed.

Lemma skip_spaces_app blanks text : Forall (fun c => isspace c = true) blanks ->
  (forall c, head text = Some c -> isspace c = false) -> skip_spaces (blanks ++ text) = text.
Proof.
  intros H Ht. induction H as [|c blanks Hc _ IH]; cbn; [|by rewrite Hc]. destruct text as [|c text]; [done|]. cbn. by rewrite (Ht c).
Qed.

Lemma digit_no_space c : is_digit c = true \/ c = 43 \/ c = 45 -> isspace c = false.
Proof. unfold is_digit, isspace. intros H. destruct H as [H|[->| ->]]; [|done..]. apply andb_true_iff in H as [H1%Z.leb_le H2%Z.leb_le]. lia. Qed.

(** The text is a decimal integer, with a sign or not. *)
Definition decimal_text (text : list Z) (v : Z) : Prop :=
  exists sign digits, text = sign ++ digits /\ digits <> [] /\ Forall (fun c => is_digit c = true) digits /\
    ((sign = [] \/ sign = [43]) /\ v = dec_value 0 digits \/ sign = [45] /\ v = - dec_value 0 digits).

Lemma digits_no_nul digits : Forall (fun c => is_digit c = true) digits -> 0 ∉ digits.
Proof. rewrite Forall_forall. intros H Hin. by apply H in Hin. Qed.

Lemma stoi_decimal text v : decimal_text text v -> - 2 ^ 31 <= v < 2 ^ 31 -> stoi text = Some v.
Proof.
  intros (sign & digits & -> & Hne & Hd & Hs) Hv. destruct digits as [|d ds]; [done|].
  assert (is_digit d = true) as Hdd by (by apply Forall_cons in Hd as [? _]).
  assert (0 ∉ sign ++ d :: ds) as H0.
  { rewrite elem_of_app. intros [Hin|Hin]; [|by apply digits_no_nul in Hin]. destruct Hs as [[[->| ->] _]|[-> _]]; set_solver. }
  unfold stoi. pose proof (until_unique 0 _ [] H0 ltac:(by left)) as Hu. rewrite app_nil_r in Hu. rewrite Hu. cbn [fst].
  pose proof (span_while_app is_digit (d :: ds) [] Hd ltac:(done)) as Hw. rewrite app_nil_r in Hw.
  assert (scan_int (sign ++ d :: ds) = Some (v, [])) as ->.
  { assert (skip_spaces (sign ++ d :: ds) = sign ++ d :: ds) as Hk.
    { apply (skip_spaces_app []); [constructor|]. intros c Hc. apply digit_no_space. destruct Hs as [[[->| ->] _]|[-> _]]; injection Hc as <-; auto. }
    unfold scan_int. rewrite Hk. clear Hk. destruct Hs as [[[->| ->] ->]|[-> ->]]; [|cbn [app]; by rewrite Hw..].
    assert (d <> 43 /\ d <> 45) as [? ?] by (split; by intros ->). cbn [app].
    match goal with |- (let '(_, _) := ?m in _) = _ => replace m with (false, d :: ds) by (by repeat (case_match; try done)) end.
    by rewrite Hw. }
  by rewrite (proj2 (Z.leb_le _ _)), (proj2 (Z.ltb_lt _ _)) by lia.
Qed.

Lemma split_join_on sep parts : Forall (fun f => sep ∉ f) parts -> parts <> [] -> split_on sep (join_on sep parts) = parts.
Proof.
  induction 1 as [|f rest Hno Hrest IH]; [done|]. intros _.
  destruct rest as [|g rest].
  - simpl. rewrite split_on_until. pose proof (until_unique sep f [] Hno (or_introl eq_refl)) as E.
    rewrite app_nil_r in E. by rewrite E.
  - cbn [join_on]. rewrite split_on_until, until_unique; [|done|by right]. cbn [fst snd]. f_equal. by apply IH.
Qed.

(** ** Paths *)

(** [a / b] of [std::filesystem] paths. *)
Definition path_append (a b : list Z) : list Z :=
  match b with
  | 47 :: _ => b
  | _ => if bool_decide (a = []) || bool_decide (last a = Some 47) then a ++ b else a ++ 47 :: b
  end.
