(* ===== verification/Crc16.v ===== *)
(** * CRC-16 with the reflected polynomial 0xA001

    Shared by the Modbus RTU framing ([ModbusRtuCrc16], initial value 0xFFFF)
    and the C3 panel protocol ([Crc16] of C3Codec.cpp, initial value 0).  The
    bitwise loops of the two functions are the same; only the start differs.
    The main fact is that a change of one byte always changes the CRC. *)

From S2P Require Import Prelude Words.

(** ** Definitions *)

(** [crc = (crc & 1) ? (crc >> 1) ^ 0xA001 : crc >> 1] *)
Definition crc_bit (crc : Z) : Z :=
  if Z.land crc 1 =? 1 then to_u16 (Z.lxor (Z.shiftr crc 1) 0xA001) else to_u16 (Z.shiftr crc 1).

Fixpoint crc_bits (n : nat) (crc : Z) : Z :=
  match n with
  | O => crc
  | S n' => crc_bits n' (crc_bit crc)
  end.

Definition crc_byte (crc byte : Z) : Z := crc_bits 8 (Z.lxor crc byte).

Definition crc_from (init : Z) (data : list Z) : Z := foldl crc_byte init data.

(** src/ModbusRtu.cpp *)
Definition ModbusRtuCrc16 (data : list Z) : Z := crc_from 0xFFFF data.

(** src/zk_controller/C3Codec.cpp *)
Definition C3Crc16 (data : list Z) : Z := crc_from 0x0000 data.

(** ** The loop stays in 16 bits *)

Lemma crc_bit_range crc : word_ok (crc_bit crc).
Proof. unfold crc_bit, word_ok. case_match; apply to_u16_range. Qed.

Lemma crc_bits_range n : forall crc, word_ok crc -> word_ok (crc_bits n crc).
Proof. induction n as [|n IH]; intros crc H; [done|]. apply IH, crc_bit_range. Qed.

Lemma byte_word b : byte_ok b -> word_ok b.
Proof. unfold byte_ok, word_ok. lia. Qed.

Lemma crc_byte_range crc b : word_ok crc -> byte_ok b -> word_ok (crc_byte crc b).
Proof.
  intros Hc Hb. apply crc_bits_range. apply (lxor_bounded 16); [lia|done|by apply byte_word].
Qed.

Lemma crc_from_range data : forall init, word_ok init -> bytes_ok data -> word_ok (crc_from init data).
Proof.
  induction data as [|b data IH]; intros init Hi Hd; [done|].
  inversion Hd; subst. apply IH; [by apply crc_byte_range|done].
Qed.

Lemma crc_from_app init l l' : crc_from init (l ++ l') = crc_from (crc_from init l) l'.
Proof. apply foldl_app. Qed.

(** ** The loop is injective *)

Lemma shiftr1_range crc : word_ok crc -> 0 <= Z.shiftr crc 1 < 2 ^ 15.
Proof.
  unfold word_ok. rewrite Z.shiftr_div_pow2 by lia. change (2 ^ 1) with 2.
  intros. split; [apply Z.div_pos; lia|apply Z.div_lt_upper_bound; lia].
Qed.

(** One step without the casts: the top bit of the result is the bit shifted out. *)
Lemma crc_bit_word crc : word_ok crc ->
  crc_bit crc = Z.lxor (Z.shiftr crc 1) (if Z.testbit crc 0 then 0xA001 else 0).
Proof.
  intros H. pose proof (shiftr1_range crc H). unfold crc_bit.
  change 1 with (Z.ones 1) at 1. rewrite Z.land_ones by lia.
  change (2 ^ 1) with 2. rewrite <- Z.bit0_mod. destruct (Z.testbit crc 0); simpl.
  - apply to_u16_id. apply (lxor_bounded 16); lia.
  - rewrite Z.lxor_0_r. apply to_u16_id. lia.
Qed.

Lemma crc_bit_inj a b : word_ok a -> word_ok b -> crc_bit a = crc_bit b -> a = b.
Proof.
  intros Ha Hb H. rewrite !crc_bit_word in H by done.
  pose proof (shiftr1_range a Ha) as Ha1. pose proof (shiftr1_range b Hb) as Hb1.
  assert (Z.testbit a 0 = Z.testbit b 0) as E0.
  { apply (f_equal (fun z => Z.testbit z 15)) in H. rewrite !Z.lxor_spec in H.
    rewrite !(testbit_high 15 (Z.shiftr _ 1)) in H by lia.
    by destruct (Z.testbit a 0), (Z.testbit b 0). }
  rewrite E0 in H. apply (f_equal (fun z => Z.lxor z (if Z.testbit b 0 then 0xA001 else 0))) in H.
  rewrite !Z.lxor_assoc, Z.lxor_nilpotent, !Z.lxor_0_r in H.
  apply Z.bits_inj'. intros i Hi. destruct (decide (i = 0)) as [->|]; [done|].
  apply (f_equal (fun z => Z.testbit z (i - 1))) in H.
  rewrite !Z.shiftr_spec in H by lia. by replace (i - 1 + 1) with i in H by lia.
Qed.

Lemma crc_bits_inj n : forall a b, word_ok a -> word_ok b -> crc_bits n a = crc_bits n b -> a = b.
Proof.
  induction n as [|n IH]; intros a b Ha Hb H; [done|].
  apply crc_bit_inj; [done|done|]. apply IH; [apply crc_bit_range..|done].
Qed.

Lemma lxor_cancel_l a x y : Z.lxor a x = Z.lxor a y -> x = y.
Proof.
  intros H. apply (f_equal (Z.lxor a)) in H.
  by rewrite <- !Z.lxor_assoc, Z.lxor_nilpotent, !Z.lxor_0_l in H.
Qed.

Lemma crc_byte_inj_state a b x : word_ok a -> word_ok b -> byte_ok x ->
  crc_byte a x = crc_byte b x -> a = b.
Proof.
  intros Ha Hb Hx H. apply crc_bits_inj in H.
  - rewrite !(Z.lxor_comm _ x) in H. by apply lxor_cancel_l in H.
  - apply (lxor_bounded 16); [lia|done|by apply byte_word].
  - apply (lxor_bounded 16); [lia|done|by apply byte_word].
Qed.

Lemma crc_byte_inj_byte a x y : word_ok a -> byte_ok x -> byte_ok y ->
  crc_byte a x = crc_byte a y -> x = y.
Proof.
  intros Ha Hx Hy H. apply crc_bits_inj in H.
  - by apply lxor_cancel_l in H.
  - apply (lxor_bounded 16); [lia|done|by apply byte_word].
  - apply (lxor_bounded 16); [lia|done|by apply byte_word].
Qed.

Lemma crc_from_inj_state data : forall a b, word_ok a -> word_ok b -> bytes_ok data ->
  crc_from a data = crc_from b data -> a = b.
Proof.
  induction data as [|x data IH]; intros a b Ha Hb Hd H; [done|].
  inversion Hd; subst. eapply crc_byte_inj_state; eauto.
  apply IH; eauto using crc_byte_range.
Qed.

(** Two messages that differ in exactly one byte have different CRCs. *)
Lemma crc_one_byte init pre post x y :
  word_ok init -> bytes_ok pre -> bytes_ok post -> byte_ok x -> byte_ok y -> x <> y ->
  crc_from init (pre ++ x :: post) <> crc_from init (pre ++ y :: post).
Proof.
  intros Hi Hpre Hpost Hx Hy Hne H. rewrite !crc_from_app in H.
  assert (word_ok (crc_from init pre)) by (by apply crc_from_range).
  apply Hne. eapply crc_byte_inj_byte; [|done|done|]; [done|].
  eapply crc_from_inj_state; [| | |exact H]; eauto using crc_byte_range.
Qed.

(** The CRC-16/MODBUS check value of "123456789" is 0x4B37. *)
Example modbus_crc_check :
  ModbusRtuCrc16 [0x31;0x32;0x33;0x34;0x35;0x36;0x37;0x38;0x39] = 0x4B37.
Proof. reflexivity. Qed.

(** The CRC-16/ARC check value of the same message is 0xBB3D. *)
Example c3_crc_check :
  C3Crc16 [0x31;0x32;0x33;0x34;0x35;0x36;0x37;0x38;0x39] = 0xBB3D.
Proof. reflexivity. Qed.
