(* ===== verification/RegisterStore.v ===== *)
(** * The Modbus register store (src/ModbusRegisterStore.cpp)

    Four address areas, each a window [range] of protocol addresses with a
    vector of coils or a vector of registers behind it.  [bank_ok] is the
    invariant the class keeps, [bit_at] and [word_at] are the abstract view
    (a partial map from address to value per area), and [RegisterBank] is the
    interface the protocol layer is proved against: reads return exactly the
    mapped values, writes update exactly the written span. *)

From S2P Require Import Prelude Words.

(** ** Data *)

Inductive ModbusArea := kCoils | kDiscreteInputs | kInputRegisters | kHoldingRegisters.

#[global] Instance ModbusArea_eq_dec : EqDecision ModbusArea.
Proof. solve_decision. Defined.

Record ModbusRange := mkRange { range_start : Z; range_count : Z }.

Record AreaStorage := mkArea {
  range : ModbusRange;
  bits : list bool;
  registers : list Z
}.

Record ModbusRegisterStore := mkStore {
  coils_ : AreaStorage;
  discreteInputs_ : AreaStorage;
  inputRegisters_ : AreaStorage;
  holdingRegisters_ : AreaStorage
}.

Definition empty_area : AreaStorage := mkArea (mkRange 0 0) [] [].
Definition new_store : ModbusRegisterStore := mkStore empty_area empty_area empty_area empty_area.

(** ** Operations *)

Definition kMaxPoints : Z := 65536.

Definition StorageUnlocked (st : ModbusRegisterStore) (area : ModbusArea) : AreaStorage :=
  match area with
  | kCoils => coils_ st
  | kDiscreteInputs => discreteInputs_ st
  | kInputRegisters => inputRegisters_ st
  | kHoldingRegisters => holdingRegisters_ st
  end.

(** Assignment through the reference [StorageUnlocked] returns. *)
Definition set_storage (st : ModbusRegisterStore) (area : ModbusArea) (s : AreaStorage)
  : ModbusRegisterStore :=
  match area with
  | kCoils => mkStore s (discreteInputs_ st) (inputRegisters_ st) (holdingRegisters_ st)
  | kDiscreteInputs => mkStore (coils_ st) s (inputRegisters_ st) (holdingRegisters_ st)
  | kInputRegisters => mkStore (coils_ st) (discreteInputs_ st) s (holdingRegisters_ st)
  | kHoldingRegisters => mkStore (coils_ st) (discreteInputs_ st) (inputRegisters_ st) s
  end.

Definition is_bit_area (area : ModbusArea) : bool :=
  match area with kCoils | kDiscreteInputs => true | _ => false end.

Definition ValidateRange (r : ModbusRange) : res unit :=
  if (range_start r <? 0) || (range_count r <=? 0) || (65535 <? range_start r)
     || (kMaxPoints <? range_count r) || (65536 - range_count r <? range_start r)
  then Err "range must fit within Modbus addresses 0..65535"
  else Ok tt.

Definition ValidateAccess (area : ModbusArea) (write : bool) : res unit :=
  match write, area with
  | true, kDiscreteInputs | true, kInputRegisters => Err "address area is read-only"
  | _, _ => Ok tt
  end.

Definition ValidateSpan (s : AreaStorage) (address quantity : Z) : res unit :=
  if (quantity <=? 0) || (address <? range_start (range s)) || (range_count (range s) <? quantity)
     || (range_start (range s) + range_count (range s) - quantity <? address)
  then Err "address is outside the configured register range"
  else Ok tt.

Definition Configure (st : ModbusRegisterStore) (area : ModbusArea) (r : ModbusRange)
  : res ModbusRegisterStore :=
  _ ← ValidateRange r;
  let n := Z.to_nat (range_count r) in
  Ok (set_storage st area
        (if is_bit_area area then mkArea r (replicate n false) []
         else mkArea r [] (replicate n 0))).

Definition Range (st : ModbusRegisterStore) (area : ModbusArea) : ModbusRange :=
  range (StorageUnlocked st area).

Definition ReadBits (st : ModbusRegisterStore) (area : ModbusArea) (address quantity : Z)
  : res (list bool) :=
  if negb (is_bit_area area) then Err "area is not bit storage"
  else
    let storage := StorageUnlocked st area in
    _ ← ValidateSpan storage address quantity;
    let offset := Z.to_nat (address - range_start (range storage)) in
    slice (bits storage) offset (Z.to_nat quantity).

Definition WriteBits (st : ModbusRegisterStore) (area : ModbusArea) (address : Z)
  (values : list bool) : res ModbusRegisterStore :=
  _ ← ValidateAccess area true;
  if negb (bool_decide (area = kCoils)) then Err "area is not writable coil storage"
  else
    let storage := StorageUnlocked st area in
    _ ← ValidateSpan storage address (to_int32 (Z.of_nat (length values)));
    let offset := Z.to_nat (address - range_start (range storage)) in
    bits' ← blit values (bits storage) offset;
    Ok (set_storage st area (mkArea (range storage) bits' (registers storage))).

Definition ReadRegisters (st : ModbusRegisterStore) (area : ModbusArea) (address quantity : Z)
  : res (list Z) :=
  if is_bit_area area then Err "area is not register storage"
  else
    let storage := StorageUnlocked st area in
    _ ← ValidateSpan storage address quantity;
    let offset := Z.to_nat (address - range_start (range storage)) in
    slice (registers storage) offset (Z.to_nat quantity).

Definition WriteRegisters (st : ModbusRegisterStore) (area : ModbusArea) (address : Z)
  (values : list Z) : res ModbusRegisterStore :=
  _ ← ValidateAccess area true;
  if negb (bool_decide (area = kHoldingRegisters))
  then Err "area is not writable holding-register storage"
  else
    let storage := StorageUnlocked st area in
    _ ← ValidateSpan storage address (to_int32 (Z.of_nat (length values)));
    let offset := Z.to_nat (address - range_start (range storage)) in
    registers' ← blit values (registers storage) offset;
    Ok (set_storage st area (mkArea (range storage) (bits storage) registers')).

(** ** The calls as a step relation

    A failing call returns [false] and leaves the object alone; reads never
    change it. *)

Inductive store_step : ModbusRegisterStore -> ModbusRegisterStore -> Prop :=
| step_configure st area r st' : Configure st area r = Ok st' -> store_step st st'
| step_write_bits st area addr vs st' :
    Z.of_nat (length vs) < 2 ^ 31 -> WriteBits st area addr vs = Ok st' -> store_step st st'
| step_write_registers st area addr ws st' :
    Z.of_nat (length ws) < 2 ^ 31 -> words_ok ws ->
    WriteRegisters st area addr ws = Ok st' -> store_step st st'.

(** ** Abstract view *)

(** The window is empty only before the first [Configure]. *)
Definition area_ok (area : ModbusArea) (s : AreaStorage) : Prop :=
  0 <= range_start (range s) /\ 0 <= range_count (range s) /\
  range_start (range s) + range_count (range s) <= 65536 /\
  length (bits s) = (if is_bit_area area then Z.to_nat (range_count (range s)) else 0%nat) /\
  length (registers s) = (if is_bit_area area then 0%nat else Z.to_nat (range_count (range s))) /\
  words_ok (registers s).

Definition store_ok (st : ModbusRegisterStore) : Prop :=
  forall area, area_ok area (StorageUnlocked st area).

(** A vector seen through its window as a partial map from addresses. *)
Definition window_at {A} (start : Z) (l : list A) (x : Z) : option A :=
  if decide (start <= x) then l !! Z.to_nat (x - start) else None.

Definition store_bit_at (st : ModbusRegisterStore) (area : ModbusArea) (x : Z) : option bool :=
  let s := StorageUnlocked st area in window_at (range_start (range s)) (bits s) x.

Definition store_word_at (st : ModbusRegisterStore) (area : ModbusArea) (x : Z) : option Z :=
  let s := StorageUnlocked st area in window_at (range_start (range s)) (registers s) x.

(** ** The interface the protocol layer uses *)

Class RegisterBank (S : Type) := {
  bank_ok : S -> Prop;
  bit_at : S -> ModbusArea -> Z -> option bool;
  word_at : S -> ModbusArea -> Z -> option Z;
  read_bits : S -> ModbusArea -> Z -> Z -> res (list bool);
  read_registers : S -> ModbusArea -> Z -> Z -> res (list Z);
  write_bits : S -> ModbusArea -> Z -> list bool -> res S;
  write_registers : S -> ModbusArea -> Z -> list Z -> res S
}.

(** Every address of a non-empty span is mapped to a value. *)
Definition span_mapped {A} (m : Z -> option A) (addr : Z) (vs : list A) : Prop :=
  vs <> [] /\ forall i, (i < length vs)%nat -> m (addr + Z.of_nat i) = vs !! i.

Definition span_defined {A} (m : Z -> option A) (addr : Z) (n : nat) : Prop :=
  n <> O /\ forall i, (i < n)%nat -> is_Some (m (addr + Z.of_nat i)).

(** The map after writing [vs] at [addr]. *)
Definition span_update {A} (m : Z -> option A) (addr : Z) (vs : list A) (x : Z) : option A :=
  if decide (addr <= x < addr + Z.of_nat (length vs)) then vs !! Z.to_nat (x - addr) else m x.

Class RegisterBankLaws (S : Type) {B : RegisterBank S} := {
  read_bits_iff : forall (s : S) area addr q vs, bank_ok s ->
    read_bits s area addr q = Ok vs <->
    is_bit_area area = true /\ q = Z.of_nat (length vs) /\ span_mapped (bit_at s area) addr vs;
  read_bits_safe : forall (s : S) area addr q, bank_ok s -> no_fault (read_bits s area addr q);
  read_registers_iff : forall (s : S) area addr q ws, bank_ok s ->
    read_registers s area addr q = Ok ws <->
    is_bit_area area = false /\ q = Z.of_nat (length ws) /\ span_mapped (word_at s area) addr ws;
  read_registers_safe : forall (s : S) area addr q,
    bank_ok s -> no_fault (read_registers s area addr q);
  write_bits_ok_iff : forall (s : S) area addr vs,
    bank_ok s -> Z.of_nat (length vs) < 2 ^ 31 ->
    is_ok (write_bits s area addr vs) = true <->
    area = kCoils /\ span_defined (bit_at s kCoils) addr (length vs);
  write_bits_safe : forall (s : S) area addr vs,
    bank_ok s -> Z.of_nat (length vs) < 2 ^ 31 -> no_fault (write_bits s area addr vs);
  write_bits_effect : forall (s s' : S) area addr vs,
    bank_ok s -> Z.of_nat (length vs) < 2 ^ 31 -> write_bits s area addr vs = Ok s' ->
    bank_ok s' /\
    (forall x, bit_at s' kCoils x = span_update (bit_at s kCoils) addr vs x) /\
    (forall a x, a <> kCoils -> bit_at s' a x = bit_at s a x) /\
    (forall a x, word_at s' a x = word_at s a x);
  write_registers_ok_iff : forall (s : S) area addr ws,
    bank_ok s -> Z.of_nat (length ws) < 2 ^ 31 ->
    is_ok (write_registers s area addr ws) = true <->
    area = kHoldingRegisters /\ span_defined (word_at s kHoldingRegisters) addr (length ws);
  write_registers_safe : forall (s : S) area addr ws,
    bank_ok s -> Z.of_nat (length ws) < 2 ^ 31 -> no_fault (write_registers s area addr ws);
  write_registers_effect : forall (s s' : S) area addr ws,
    bank_ok s -> Z.of_nat (length ws) < 2 ^ 31 -> words_ok ws -> write_registers s area addr ws = Ok s' ->
    bank_ok s' /\
    (forall x, word_at s' kHoldingRegisters x = span_update (word_at s kHoldingRegisters) addr ws x) /\
    (forall a x, a <> kHoldingRegisters -> word_at s' a x = word_at s a x) /\
    (forall a x, bit_at s' a x = bit_at s a x);
  word_at_ok : forall (s : S) area x w, bank_ok s -> word_at s area x = Some w -> word_ok w
}.

#[global] Instance store_bank : RegisterBank ModbusRegisterStore := {
  bank_ok := store_ok;
  bit_at := store_bit_at;
  word_at := store_word_at;
  read_bits := ReadBits;
  read_registers := ReadRegisters;
  write_bits := WriteBits;
  write_registers := WriteRegisters
}.

(** ** Windows and spans *)

Lemma span_defined_mapped {A} (m : Z -> option A) addr n :
  span_defined m addr n -> exists vs, length vs = n /\ span_mapped m addr vs.
Proof.
  intros [Hn H].
  assert (forall k, (k <= n)%nat -> exists vs, length vs = k /\
    forall i, (i < k)%nat -> m (addr + Z.of_nat i) = vs !! i) as Hk.
  { induction k as [|k IH]; intros Hle; [by exists []; split; [|lia]|].
    destruct IH as (vs & Hl & Hvs); [lia|]. destruct (H k) as [v Hv]; [lia|].
    exists (vs ++ [v]). rewrite length_app. split; [simpl; lia|]. intros i Hi.
    destruct (decide (i = k)) as [->|].
    - rewrite (lookup_app_off _ _ _ 0) by lia. done.
    - rewrite lookup_app_l by lia. apply Hvs. lia. }
  destruct (Hk n) as (vs & Hl & Hvs); [lia|]. exists vs. split; [done|].
  split; [by destruct vs|]. by rewrite Hl.
Qed.

Lemma span_mapped_defined {A} (m : Z -> option A) addr vs :
  span_mapped m addr vs -> span_defined m addr (length vs).
Proof.
  intros [Hne H]. split; [by destruct vs|]. intros i Hi. rewrite H by done.
  by apply lookup_lt_is_Some_2.
Qed.

(** A non-empty span of a window is defined exactly when it lies inside it. *)
Lemma window_span_defined {A} start (l : list A) addr n :
  span_defined (window_at start l) addr n <->
  n <> O /\ start <= addr /\ addr + Z.of_nat n <= start + Z.of_nat (length l).
Proof.
  unfold span_defined, window_at. split.
  - intros [Hn H]. pose proof (H 0%nat) as H0. pose proof (H (n - 1)%nat) as H1.
    destruct H0 as [x Hx]; [lia|]. destruct H1 as [y Hy]; [lia|].
    case_decide; [|done]. case_decide; [|done]. apply lookup_lt_Some in Hy. lia.
  - intros (Hn & Hs & Hb). split; [done|]. intros i Hi. rewrite decide_True by lia.
    apply lookup_lt_is_Some_2. lia.
Qed.

Lemma window_slice {A} start (l : list A) addr vs :
  span_mapped (window_at start l) addr vs <->
  vs <> [] /\ start <= addr /\ slice l (Z.to_nat (addr - start)) (length vs) = Ok vs.
Proof.
  split.
  - intros Hm. pose proof (span_mapped_defined _ _ _ Hm) as Hd.
    apply window_span_defined in Hd as (Hn & Hs & Hb). destruct Hm as [Hne H].
    split_and!; [done|done|]. rewrite slice_ok by lia. f_equal.
    apply list_eq_same_length with (length vs); [done| |].
    { rewrite length_take, length_drop. lia. }
    intros i x y Hi Hx Hy. rewrite lookup_take_lt, lookup_drop in Hx by done.
    rewrite <- H in Hy by done. unfold window_at in Hy. rewrite decide_True in Hy by lia.
    replace (Z.to_nat (addr + Z.of_nat i - start)) with (Z.to_nat (addr - start) + i)%nat in Hy by lia.
    congruence.
  - intros (Hne & Hs & Hsl). split; [done|]. intros i Hi. unfold window_at.
    rewrite decide_True by lia. unfold slice in Hsl. case_decide; simplify_eq.
    rewrite <- Hsl at 1. rewrite lookup_take_lt, lookup_drop by done. f_equal. lia.
Qed.

Lemma window_blit {A} start (l l' vs : list A) addr x :
  start <= addr -> blit vs l (Z.to_nat (addr - start)) = Ok l' ->
  window_at start l' x = span_update (window_at start l) addr vs x.
Proof.
  intros Hs Hb. unfold window_at, span_update. destruct (decide (start <= x)).
  - rewrite (lookup_blit _ _ _ _ _ Hb).
    destruct (decide (addr <= x < addr + Z.of_nat (length vs))).
    + rewrite decide_True by lia. f_equal. lia.
    + by rewrite decide_False by lia.
  - by rewrite decide_False by lia.
Qed.

(** The guards of [ValidateSpan] say that the span lies in the window. *)
Lemma ValidateSpan_iff s address quantity :
  ValidateSpan s address quantity = Ok tt <->
  0 < quantity /\ range_start (range s) <= address /\
  address + quantity <= range_start (range s) + range_count (range s).
Proof.
  unfold ValidateSpan. split.
  - intros H. destruct_guards. reflect_bools. lia.
  - intros (? & ? & ?). destruct_guards; [|done]. exfalso.
    break_guards; lia.
Qed.

Lemma ValidateSpan_safe s address quantity : no_fault (ValidateSpan s address quantity).
Proof. unfold ValidateSpan, no_fault. by destruct_guards. Qed.

Lemma ValidateRange_iff r :
  ValidateRange r = Ok tt <->
  0 <= range_start r /\ 0 < range_count r /\ range_start r + range_count r <= 65536.
Proof.
  unfold ValidateRange, kMaxPoints. split.
  - intros H. destruct_guards. reflect_bools. lia.
  - intros (? & ? & ?). destruct_guards; [|done]. exfalso.
    break_guards; lia.
Qed.

(** ** The invariant *)

Lemma StorageUnlocked_set st a s a' :
  StorageUnlocked (set_storage st a s) a' = if decide (a' = a) then s else StorageUnlocked st a'.
Proof. by destruct a, a'. Qed.

Lemma store_ok_set st a s : store_ok st -> area_ok a s -> store_ok (set_storage st a s).
Proof. intros H Hs a'. rewrite StorageUnlocked_set. case_decide; naive_solver. Qed.

Lemma new_store_ok : store_ok new_store.
Proof. intros []; unfold area_ok; simpl; split_and!; (lia || constructor). Qed.

Lemma Configure_ok st area r st' : store_ok st -> Configure st area r = Ok st' -> store_ok st'.
Proof.
  intros Hst H. unfold Configure in H. inv_bind H. simplify_eq.
  destruct v. apply ValidateRange_iff in Hm. apply store_ok_set; [done|].
  unfold area_ok. destruct area; simpl; rewrite ?length_replicate;
    (split_and!; try done; try lia; try (apply Forall_replicate; unfold word_ok; lia); by constructor).
Qed.

Lemma WriteBits_inv st area addr vs st' :
  Z.of_nat (length vs) < 2 ^ 31 -> WriteBits st area addr vs = Ok st' ->
  let s := coils_ st in
  exists bits', area = kCoils /\ vs <> [] /\ range_start (range s) <= addr /\
    addr + Z.of_nat (length vs) <= range_start (range s) + range_count (range s) /\
    blit vs (bits s) (Z.to_nat (addr - range_start (range s))) = Ok bits' /\
    st' = set_storage st kCoils (mkArea (range s) bits' (registers s)).
Proof.
  intros Hl H. unfold WriteBits in H. inv_bind H. case_bool_decide; [|done]. subst area. simpl in H.
  inv_bind H. inv_bind H. simplify_eq. destruct v0. rewrite to_int32_id in Hm0 by lia.
  apply ValidateSpan_iff in Hm0 as (? & ? & ?). exists v1. split_and!; try done; try lia.
  intros ->. simpl in *. lia.
Qed.

Lemma WriteRegisters_inv st area addr ws st' :
  Z.of_nat (length ws) < 2 ^ 31 -> WriteRegisters st area addr ws = Ok st' ->
  let s := holdingRegisters_ st in
  exists regs', area = kHoldingRegisters /\ ws <> [] /\ range_start (range s) <= addr /\
    addr + Z.of_nat (length ws) <= range_start (range s) + range_count (range s) /\
    blit ws (registers s) (Z.to_nat (addr - range_start (range s))) = Ok regs' /\
    st' = set_storage st kHoldingRegisters (mkArea (range s) (bits s) regs').
Proof.
  intros Hl H. unfold WriteRegisters in H. inv_bind H. case_bool_decide; [|done]. subst area. simpl in H.
  inv_bind H. inv_bind H. simplify_eq. destruct v0. rewrite to_int32_id in Hm0 by lia.
  apply ValidateSpan_iff in Hm0 as (? & ? & ?). exists v1. split_and!; try done; try lia.
  intros ->. simpl in *. lia.
Qed.

Lemma blit_words_ok src dst l off : blit src dst off = Ok l -> words_ok src -> words_ok dst -> words_ok l.
Proof.
  unfold blit. case_decide; intros; simplify_eq.
  apply Forall_app; split; [by apply Forall_take|]. apply Forall_app; split; [done|by apply Forall_drop].
Qed.

Lemma WriteBits_keeps_ok st area addr vs st' :
  store_ok st -> Z.of_nat (length vs) < 2 ^ 31 -> WriteBits st area addr vs = Ok st' -> store_ok st'.
Proof.
  intros Hst Hl H. apply WriteBits_inv in H as (b' & -> & Hne & ? & ? & Hb & ->); [|done].
  apply store_ok_set; [done|]. destruct (Hst kCoils) as (? & ? & ? & Hbl & ? & ?).
  apply length_blit in Hb. unfold area_ok; simpl in *. split_and!; try done; congruence.
Qed.

Lemma WriteRegisters_keeps_ok st area addr ws st' :
  store_ok st -> Z.of_nat (length ws) < 2 ^ 31 -> words_ok ws ->
  WriteRegisters st area addr ws = Ok st' -> store_ok st'.
Proof.
  intros Hst Hl Hw H. apply WriteRegisters_inv in H as (r' & -> & Hne & ? & ? & Hb & ->); [|done].
  apply store_ok_set; [done|]. destruct (Hst kHoldingRegisters) as (? & ? & ? & ? & Hrl & ?).
  pose proof (length_blit _ _ _ _ Hb). unfold area_ok; simpl in *.
  split_and!; try done; [congruence|]. eapply blit_words_ok; eauto.
Qed.

Lemma store_step_ok st st' : store_step st st' -> store_ok st -> store_ok st'.
Proof. destruct 1; eauto using Configure_ok, WriteBits_keeps_ok, WriteRegisters_keeps_ok. Qed.

Lemma reachable_store_ok st st' : rtc store_step st st' -> store_ok st -> store_ok st'.
Proof. induction 1; eauto using store_step_ok. Qed.

(** ** The store implements the interface *)

Lemma ReadBits_iff st area addr q vs : store_ok st ->
  ReadBits st area addr q = Ok vs <->
  is_bit_area area = true /\ q = Z.of_nat (length vs) /\ span_mapped (store_bit_at st area) addr vs.
Proof.
  intros Hst. unfold ReadBits, store_bit_at. destruct (is_bit_area area) eqn:Ha; simpl; [|by split; [|intros [? _]]].
  set (s := StorageUnlocked st area). destruct (Hst area) as (? & ? & ? & Hbl & _).
  rewrite Ha in Hbl. fold s in Hbl. rewrite window_slice. split.
  - intros Hr. inv_bind Hr. destruct v. apply ValidateSpan_iff in Hm as (? & ? & ?).
    assert (length vs = Z.to_nat q) as Hl.
    { unfold slice in Hr. case_decide; simplify_eq. rewrite length_take, length_drop. lia. }
    split_and!; [done|lia|by intros ->; simpl in *; lia|done|by rewrite Hl].
  - intros (_ & -> & Hne & Hs & Hsl). rewrite Nat2Z.id.
    assert (ValidateSpan s addr (Z.of_nat (length vs)) = Ok tt) as ->; [|done].
    apply ValidateSpan_iff. unfold slice in Hsl. case_decide; [|done].
    assert (length vs <> O) by (by destruct vs). subst s. lia.
Qed.

Lemma ReadRegisters_iff st area addr q ws : store_ok st ->
  ReadRegisters st area addr q = Ok ws <->
  is_bit_area area = false /\ q = Z.of_nat (length ws) /\ span_mapped (store_word_at st area) addr ws.
Proof.
  intros Hst. unfold ReadRegisters, store_word_at. destruct (is_bit_area area) eqn:Ha; simpl; [by split; [|intros [? _]]|].
  set (s := StorageUnlocked st area). destruct (Hst area) as (? & ? & ? & _ & Hrl & _).
  rewrite Ha in Hrl. fold s in Hrl. rewrite window_slice. split.
  - intros Hr. inv_bind Hr. destruct v. apply ValidateSpan_iff in Hm as (? & ? & ?).
    assert (length ws = Z.to_nat q) as Hl.
    { unfold slice in Hr. case_decide; simplify_eq. rewrite length_take, length_drop. lia. }
    split_and!; [done|lia|by intros ->; simpl in *; lia|done|by rewrite Hl].
  - intros (_ & -> & Hne & Hs & Hsl). rewrite Nat2Z.id.
    assert (ValidateSpan s addr (Z.of_nat (length ws)) = Ok tt) as ->; [|done].
    apply ValidateSpan_iff. unfold slice in Hsl. case_decide; [|done].
    assert (length ws <> O) by (by destruct ws). subst s. lia.
Qed.

(** A span that passed [ValidateSpan] is inside a vector of the window's size. *)
Lemma guarded_slice_safe {A} (l : list A) s addr q :
  length l = Z.to_nat (range_count (range s)) ->
  no_fault (_ ← ValidateSpan s addr q;
            slice l (Z.to_nat (addr - range_start (range s))) (Z.to_nat q)).
Proof.
  intros Hl. destruct (ValidateSpan s addr q) as [[]| |] eqn:E; simpl;
    [|done|by destruct (ValidateSpan_safe s addr q)].
  apply ValidateSpan_iff in E. rewrite slice_ok by lia. done.
Qed.

Lemma ReadBits_safe st area addr q : store_ok st -> no_fault (ReadBits st area addr q).
Proof.
  intros Hst. unfold ReadBits. destruct (is_bit_area area) eqn:Ha; simpl; [|done].
  apply guarded_slice_safe. destruct (Hst area) as (_ & _ & _ & Hbl & _). by rewrite Ha in Hbl.
Qed.

Lemma ReadRegisters_safe st area addr q : store_ok st -> no_fault (ReadRegisters st area addr q).
Proof.
  intros Hst. unfold ReadRegisters. destruct (is_bit_area area) eqn:Ha; simpl; [done|].
  apply guarded_slice_safe. destruct (Hst area) as (_ & _ & _ & _ & Hrl & _). by rewrite Ha in Hrl.
Qed.

(** What a guarded copy into a window of the right size can answer. *)
Lemma guarded_blit {A B} (l vs : list A) s addr (k : list A -> B) :
  length l = Z.to_nat (range_count (range s)) -> Z.of_nat (length vs) < 2 ^ 31 ->
  0 <= range_count (range s) ->
  let r := _ ← ValidateSpan s addr (to_int32 (Z.of_nat (length vs)));
           l' ← blit vs l (Z.to_nat (addr - range_start (range s))); Ok (k l') in
  no_fault r /\
  (is_ok r = true <-> span_defined (window_at (range_start (range s)) l) addr (length vs)).
Proof.
  intros Hl Hv Hc. cbv zeta. rewrite to_int32_id, window_span_defined by lia. unfold no_fault.
  destruct (ValidateSpan s addr _) as [[]| |] eqn:E; simpl.
  - apply ValidateSpan_iff in E. rewrite blit_ok by lia. simpl. split; [done|]. split; [lia|done].
  - split; [done|]. split; [done|]. intros (? & ? & ?).
    assert (ValidateSpan s addr (Z.of_nat (length vs)) = Ok tt); [|congruence].
    apply ValidateSpan_iff. lia.
  - by destruct (ValidateSpan_safe s addr (Z.of_nat (length vs))).
Qed.

Lemma WriteBits_spec st area addr vs : store_ok st -> Z.of_nat (length vs) < 2 ^ 31 ->
  no_fault (WriteBits st area addr vs) /\
  (is_ok (WriteBits st area addr vs) = true <->
   area = kCoils /\ span_defined (store_bit_at st kCoils) addr (length vs)).
Proof.
  intros Hst Hv. unfold WriteBits, no_fault. destruct area; simpl; try (split; [done|naive_solver]).
  destruct (Hst kCoils) as (? & ? & ? & Hbl & _).
  pose proof (guarded_blit (bits (coils_ st)) vs (coils_ st) addr
    (fun b => set_storage st kCoils (mkArea (range (coils_ st)) b (registers (coils_ st)))) Hbl Hv H0)
    as [Hf Hok]. split; [exact Hf|]. rewrite Hok. naive_solver.
Qed.

Lemma WriteRegisters_spec st area addr ws : store_ok st -> Z.of_nat (length ws) < 2 ^ 31 ->
  no_fault (WriteRegisters st area addr ws) /\
  (is_ok (WriteRegisters st area addr ws) = true <->
   area = kHoldingRegisters /\ span_defined (store_word_at st kHoldingRegisters) addr (length ws)).
Proof.
  intros Hst Hv. unfold WriteRegisters, no_fault. destruct area; simpl; try (split; [done|naive_solver]).
  destruct (Hst kHoldingRegisters) as (? & ? & ? & _ & Hrl & _).
  pose proof (guarded_blit (registers (holdingRegisters_ st)) ws (holdingRegisters_ st) addr
    (fun r => set_storage st kHoldingRegisters
       (mkArea (range (holdingRegisters_ st)) (bits (holdingRegisters_ st)) r)) Hrl Hv H0)
    as [Hf Hok]. split; [exact Hf|]. rewrite Hok. naive_solver.
Qed.

Lemma WriteBits_effect st area addr vs st' : store_ok st -> Z.of_nat (length vs) < 2 ^ 31 ->
  WriteBits st area addr vs = Ok st' ->
  store_ok st' /\
  (forall x, store_bit_at st' kCoils x = span_update (store_bit_at st kCoils) addr vs x) /\
  (forall a x, a <> kCoils -> store_bit_at st' a x = store_bit_at st a x) /\
  (forall a x, store_word_at st' a x = store_word_at st a x).
Proof.
  intros Hst Hv H. split; [by eapply WriteBits_keeps_ok|].
  apply WriteBits_inv in H as (b' & -> & Hne & ? & ? & Hb & ->); [|done].
  unfold store_bit_at, store_word_at. split_and!.
  - intros x. simpl. by apply window_blit.
  - intros a x Ha. rewrite StorageUnlocked_set. by rewrite decide_False by done.
  - intros a x. rewrite StorageUnlocked_set. case_decide; by subst.
Qed.

Lemma WriteRegisters_effect st area addr ws st' : store_ok st -> Z.of_nat (length ws) < 2 ^ 31 ->
  words_ok ws -> WriteRegisters st area addr ws = Ok st' ->
  store_ok st' /\
  (forall x, store_word_at st' kHoldingRegisters x =
             span_update (store_word_at st kHoldingRegisters) addr ws x) /\
  (forall a x, a <> kHoldingRegisters -> store_word_at st' a x = store_word_at st a x) /\
  (forall a x, store_bit_at st' a x = store_bit_at st a x).
Proof.
  intros Hst Hv Hw H. split; [by eapply WriteRegisters_keeps_ok|].
  apply WriteRegisters_inv in H as (b' & -> & Hne & ? & ? & Hb & ->); [|done].
  unfold store_bit_at, store_word_at. split_and!.
  - intros x. simpl. by apply window_blit.
  - intros a x Ha. rewrite StorageUnlocked_set. by rewrite decide_False by done.
  - intros a x. rewrite StorageUnlocked_set. case_decide; by subst.
Qed.

Lemma store_word_at_ok st area x w : store_ok st -> store_word_at st area x = Some w -> word_ok w.
Proof.
  intros Hst. unfold store_word_at, window_at. case_decide; [|done]. intros Hw.
  destruct (Hst area) as (_ & _ & _ & _ & _ & Hws). by eapply Forall_lookup_1.
Qed.

#[global] Instance store_bank_laws : RegisterBankLaws ModbusRegisterStore.
Proof.
  split; simpl; intros.
  - by apply ReadBits_iff.
  - by apply ReadBits_safe.
  - by apply ReadRegisters_iff.
  - by apply ReadRegisters_safe.
  - by apply WriteBits_spec.
  - by apply WriteBits_spec.
  - by eapply WriteBits_effect.
  - by apply WriteRegisters_spec.
  - by apply WriteRegisters_spec.
  - by eapply WriteRegisters_effect.
  - by eapply store_word_at_ok.
Qed.

(** ** A configured store for the witnesses *)

(** Sixteen coils and discrete inputs from address 0, eight registers from 10. *)
Definition demo_store : ModbusRegisterStore :=
  let conf st a r := match Configure st a r with Ok st' => st' | _ => st end in
  conf (conf (conf (conf new_store kCoils (mkRange 0 16)) kDiscreteInputs (mkRange 0 16))
         kInputRegisters (mkRange 10 8)) kHoldingRegisters (mkRange 10 8).

Lemma demo_store_reachable : rtc store_step new_store demo_store.
Proof.
  eapply rtc_l; [apply (step_configure _ kCoils (mkRange 0 16)); reflexivity|].
  eapply rtc_l; [apply (step_configure _ kDiscreteInputs (mkRange 0 16)); reflexivity|].
  eapply rtc_l; [apply (step_configure _ kInputRegisters (mkRange 10 8)); reflexivity|].
  eapply rtc_l; [apply (step_configure _ kHoldingRegisters (mkRange 10 8)); reflexivity|].
  apply rtc_refl.
Qed.

Lemma demo_store_ok : store_ok demo_store.
Proof. eapply reachable_store_ok; [apply demo_store_reachable|apply new_store_ok]. Qed.

(** ** Properties *)

(** Whatever sequence of [Configure], [WriteBits] and [WriteRegisters]
    calls succeeds on a new register store, every area keeps a window inside
    the address space 0..65535 and a vector of exactly the window's size, of
    the kind the area stores, with 16-bit register values; and no read of such
    a store, in range or not, leaves a vector. *)
Theorem store_reachable_invariant st :
  rtc store_step new_store st ->
  store_ok st /\
  (forall area address quantity,
     no_fault (ReadBits st area address quantity) /\
     no_fault (ReadRegisters st area address quantity)).
Proof.
  intros H. assert (store_ok st) as Hok by (eapply reachable_store_ok; eauto using new_store_ok).
  split; [done|]. split; [by apply ReadBits_safe|by apply ReadRegisters_safe].
Qed.

Lemma store_reachable_invariant_witness : store_ok demo_store /\
  (forall area address quantity,
     no_fault (ReadBits demo_store area address quantity) /\
     no_fault (ReadRegisters demo_store area address quantity)).
Proof. apply (store_reachable_invariant demo_store). apply demo_store_reachable. Defined.

(** The reads refine a partial map per area: a read answers [vs] exactly
    when the area holds that kind of value, the quantity is the length of
    [vs], the span is not empty and every address of it is mapped to the
    corresponding element; otherwise it is refused. *)
Theorem store_reads_refine_map st area address quantity vs ws :
  store_ok st ->
  (ReadBits st area address quantity = Ok vs <->
   is_bit_area area = true /\ quantity = Z.of_nat (length vs) /\
   span_mapped (store_bit_at st area) address vs) /\
  (ReadRegisters st area address quantity = Ok ws <->
   is_bit_area area = false /\ quantity = Z.of_nat (length ws) /\
   span_mapped (store_word_at st area) address ws).
Proof. intros. split; [by apply ReadBits_iff|by apply ReadRegisters_iff]. Qed.

Lemma store_reads_refine_map_witness :
  ReadRegisters demo_store kInputRegisters 15 3 = Ok [0; 0; 0] /\
  ReadBits demo_store kCoils 15 2 <> Ok [false; false].
Proof.
  pose proof (store_reads_refine_map demo_store kInputRegisters 15 3 [] [0; 0; 0] demo_store_ok) as [_ Hw].
  pose proof (store_reads_refine_map demo_store kCoils 15 2 [false; false] [] demo_store_ok) as [Hb _].
  split.
  - apply Hw. split; [reflexivity|]. split; [reflexivity|]. split; [discriminate|].
    intros [|[|[|i]]] Hi; try reflexivity. simpl in Hi. lia.
  - intros H. apply Hb in H as (_ & _ & _ & H). specialize (H 1%nat). vm_compute in H.
    discriminate H. repeat constructor.
Defined.

(** The writes refine the update of that map: only the coil and the
    holding-register area are writable, a write succeeds exactly when every
    address of its non-empty span is configured, it then changes exactly the
    addresses of the span, and it never leaves the vector (for fewer than 2^31
    values, the width of the count the code computes). *)
Theorem store_writes_refine_map st area address vs ws :
  store_ok st -> Z.of_nat (length vs) < 2 ^ 31 -> Z.of_nat (length ws) < 2 ^ 31 -> words_ok ws ->
  match WriteBits st area address vs with
  | Ok st' => area = kCoils /\ span_defined (store_bit_at st kCoils) address (length vs) /\
      (forall x, store_bit_at st' kCoils x = span_update (store_bit_at st kCoils) address vs x) /\
      (forall a x, a <> kCoils -> store_bit_at st' a x = store_bit_at st a x) /\
      (forall a x, store_word_at st' a x = store_word_at st a x)
  | Err _ => area <> kCoils \/ ~ span_defined (store_bit_at st kCoils) address (length vs)
  | Fault => False
  end /\
  match WriteRegisters st area address ws with
  | Ok st' => area = kHoldingRegisters /\
      span_defined (store_word_at st kHoldingRegisters) address (length ws) /\
      (forall x, store_word_at st' kHoldingRegisters x =
                 span_update (store_word_at st kHoldingRegisters) address ws x) /\
      (forall a x, a <> kHoldingRegisters -> store_word_at st' a x = store_word_at st a x) /\
      (forall a x, store_bit_at st' a x = store_bit_at st a x)
  | Err _ => area <> kHoldingRegisters \/
      ~ span_defined (store_word_at st kHoldingRegisters) address (length ws)
  | Fault => False
  end.
Proof.
  intros Hst Hv Hl Hw. split.
  - destruct (WriteBits_spec st area address vs Hst Hv) as [Hf Hi].
    destruct (WriteBits st area address vs) as [st'| |] eqn:E; [| |by destruct Hf].
    + apply WriteBits_effect in E as (_ & ?); [|done|done]. destruct Hi as [Hi _].
      destruct (Hi eq_refl). tauto.
    + destruct (decide (area = kCoils)); [right|by left]. intros Hd.
      destruct Hi as [_ Hi]. by discriminate Hi.
  - destruct (WriteRegisters_spec st area address ws Hst Hl) as [Hf Hi].
    destruct (WriteRegisters st area address ws) as [st'| |] eqn:E; [| |by destruct Hf].
    + apply WriteRegisters_effect in E as (_ & ?); [|done..]. destruct Hi as [Hi _].
      destruct (Hi eq_refl). tauto.
    + destruct (decide (area = kHoldingRegisters)); [right|by left]. intros Hd.
      destruct Hi as [_ Hi]. by discriminate Hi.
Qed.

Lemma store_writes_refine_map_witness :
  exists st', WriteRegisters demo_store kHoldingRegisters 12 [7; 8] = Ok st' /\
    forall x, store_word_at st' kHoldingRegisters x =
              span_update (store_word_at demo_store kHoldingRegisters) 12 [7; 8] x.
Proof.
  destruct (store_writes_refine_map demo_store kHoldingRegisters 12 [] [7; 8] demo_store_ok) as [_ H];
    [done|done|repeat constructor; discriminate|].
  eexists. split; [reflexivity|]. exact (proj1 (proj2 (proj2 H))).
Defined.
