(* ===== verification/ModbusProtocol.v ===== *)
(** * The Modbus application protocol (src/ModbusProtocol.cpp)

    [Handle] takes a request PDU and answers a response PDU, reading and
    writing the register store behind the [RegisterBank] interface.  [Err] is
    the [return false] for a truncated PDU (the transports drop the frame);
    every other refusal is a two-byte exception PDU.

    The specification side is a type of well-formed [request]s with the PDU
    that carries each, and the reply and the store the handler owes it. *)

From S2P Require Import Prelude Words RegisterStore.

(** ** The handler *)

Definition kIllegalFunction : Z := 0x01.
Definition kIllegalAddress : Z := 0x02.
Definition kIllegalValue : Z := 0x03.

Definition ParseQuantity (quantity max : Z) : res unit :=
  if (quantity =? 0) || (max <? quantity) then Err "invalid Modbus quantity" else Ok tt.

Definition Need (data : list Z) (size : nat) : res unit :=
  if (length data <? size)%nat then Err "truncated Modbus PDU" else Ok tt.

Definition Exception (function code : Z) : list Z := [Z.lor function 128; code].

(** [if (!call) return handler;] followed by the rest of the body. *)
Definition on_error {A B} (call : res A) (handler : res B) (k : A -> res B) : res B :=
  match call with
  | Ok a => k a
  | Err _ => handler
  | Fault => Fault
  end.

Section Handler.
Context {S : Type} {B : RegisterBank S}.

(** Function codes 1 and 2. *)
Definition HandleReadBits (st : S) (function : Z) (requestPdu : list Z) : res (S * list Z) :=
  _ ← Need requestPdu 5;
  address ← GetU16 requestPdu 1;
  quantity ← GetU16 requestPdu 3;
  on_error (ParseQuantity quantity 2000) (Ok (st, Exception function kIllegalValue)) (fun _ =>
  on_error (read_bits st (if function =? 1 then kCoils else kDiscreteInputs) address quantity)
    (Ok (st, Exception function kIllegalAddress)) (fun values =>
  let n := (quantity + 7) / 8 in
  Ok (st, to_u8 n :: pack_bits values (Z.to_nat n)))).

(** Function codes 3 and 4. *)
Definition HandleReadRegisters (st : S) (function : Z) (requestPdu : list Z) : res (S * list Z) :=
  _ ← Need requestPdu 5;
  address ← GetU16 requestPdu 1;
  quantity ← GetU16 requestPdu 3;
  on_error (ParseQuantity quantity 125) (Ok (st, Exception function kIllegalValue)) (fun _ =>
  on_error (read_registers st (if function =? 3 then kHoldingRegisters else kInputRegisters)
              address quantity)
    (Ok (st, Exception function kIllegalAddress)) (fun values =>
  Ok (st, put_words [to_u8 (quantity * 2)] values))).

(** Function code 5. *)
Definition HandleWriteCoil (st : S) (function : Z) (requestPdu : list Z) : res (S * list Z) :=
  _ ← Need requestPdu 5;
  address ← GetU16 requestPdu 1;
  raw ← GetU16 requestPdu 3;
  if negb (raw =? 0) && negb (raw =? 0xFF00) then Ok (st, Exception function kIllegalValue)
  else on_error (write_bits st kCoils address [raw =? 0xFF00])
         (Ok (st, Exception function kIllegalAddress)) (fun st' => Ok (st', requestPdu)).

(** Function code 6. *)
Definition HandleWriteRegister (st : S) (function : Z) (requestPdu : list Z) : res (S * list Z) :=
  _ ← Need requestPdu 5;
  address ← GetU16 requestPdu 1;
  value ← GetU16 requestPdu 3;
  on_error (write_registers st kHoldingRegisters address [value])
    (Ok (st, Exception function kIllegalAddress)) (fun st' => Ok (st', requestPdu)).

(** Function code 15. *)
Definition HandleWriteCoils (st : S) (function : Z) (requestPdu : list Z) : res (S * list Z) :=
  _ ← Need requestPdu 6;
  address ← GetU16 requestPdu 1;
  quantity ← GetU16 requestPdu 3;
  byteCount ← read_at requestPdu 5;
  if negb (is_ok (ParseQuantity quantity 1968)) || negb (byteCount =? (quantity + 7) / 8)
     || negb (Z.of_nat (length requestPdu) =? 6 + byteCount)
  then Ok (st, Exception function kIllegalValue)
  else
    values ← get_bits requestPdu 6 (Z.to_nat quantity);
    on_error (write_bits st kCoils address values)
      (Ok (st, Exception function kIllegalAddress)) (fun st' => Ok (st', take 5 requestPdu)).

(** Function code 16. *)
Definition HandleWriteRegisters (st : S) (function : Z) (requestPdu : list Z) : res (S * list Z) :=
  _ ← Need requestPdu 6;
  address ← GetU16 requestPdu 1;
  quantity ← GetU16 requestPdu 3;
  byteCount ← read_at requestPdu 5;
  if negb (is_ok (ParseQuantity quantity 123)) || negb (byteCount =? quantity * 2)
     || negb (Z.of_nat (length requestPdu) =? 6 + byteCount)
  then Ok (st, Exception function kIllegalValue)
  else
    values ← get_words requestPdu 6 (Z.to_nat quantity);
    on_error (write_registers st kHoldingRegisters address values)
      (Ok (st, Exception function kIllegalAddress)) (fun st' => Ok (st', take 5 requestPdu)).

Definition Handle (st : S) (unitId : Z) (requestPdu : list Z) : res (S * list Z) :=
  _ ← Need requestPdu 1;
  function ← read_at requestPdu 0;
  if (function =? 1) || (function =? 2) then HandleReadBits st function requestPdu
  else if (function =? 3) || (function =? 4) then HandleReadRegisters st function requestPdu
  else if function =? 5 then HandleWriteCoil st function requestPdu
  else if function =? 6 then HandleWriteRegister st function requestPdu
  else if function =? 15 then HandleWriteCoils st function requestPdu
  else if function =? 16 then HandleWriteRegisters st function requestPdu
  else Ok (st, Exception function kIllegalFunction).

End Handler.

(** ** Specification: requests, their PDUs, and what the server owes them *)

Inductive request :=
| ReqReadBits (discrete : bool) (address : Z) (quantity : nat)
| ReqReadRegisters (input : bool) (address : Z) (quantity : nat)
| ReqWriteCoil (address : Z) (value : bool)
| ReqWriteRegister (address : Z) (value : Z)
| ReqWriteCoils (address : Z) (values : list bool)
| ReqWriteRegisters (address : Z) (values : list Z).

Definition request_code (r : request) : Z :=
  match r with
  | ReqReadBits discrete _ _ => if discrete then 2 else 1
  | ReqReadRegisters input _ _ => if input then 4 else 3
  | ReqWriteCoil _ _ => 5
  | ReqWriteRegister _ _ => 6
  | ReqWriteCoils _ _ => 15
  | ReqWriteRegisters _ _ => 16
  end.

Definition request_address (r : request) : Z :=
  match r with
  | ReqReadBits _ a _ | ReqReadRegisters _ a _ | ReqWriteCoil a _
  | ReqWriteRegister a _ | ReqWriteCoils a _ | ReqWriteRegisters a _ => a
  end.

Definition bytes_for (nbits : nat) : nat := ((nbits + 7) / 8)%nat.

(** The PDU of a request, as the Modbus application protocol lays it out. *)
Definition request_pdu (r : request) : list Z :=
  let head := PutU16 [request_code r] (request_address r) in
  match r with
  | ReqReadBits _ _ q | ReqReadRegisters _ _ q => PutU16 head (Z.of_nat q)
  | ReqWriteCoil _ v => PutU16 head (if v then 0xFF00 else 0)
  | ReqWriteRegister _ w => PutU16 head w
  | ReqWriteCoils _ vs =>
      PutU16 head (Z.of_nat (length vs)) ++ Z.of_nat (bytes_for (length vs)) :: pack_bits vs (bytes_for (length vs))
  | ReqWriteRegisters _ ws =>
      put_words (PutU16 head (Z.of_nat (length ws)) ++ [Z.of_nat (2 * length ws)]) ws
  end.

(** The protocol's limits on each request. *)
Definition request_ok (r : request) : Prop :=
  word_ok (request_address r) /\
  match r with
  | ReqReadBits _ _ q => (0 < q <= 2000)%nat
  | ReqReadRegisters _ _ q => (0 < q <= 125)%nat
  | ReqWriteCoil _ _ => True
  | ReqWriteRegister _ w => word_ok w
  | ReqWriteCoils _ vs => (0 < length vs <= 1968)%nat
  | ReqWriteRegisters _ ws => (0 < length ws <= 123)%nat /\ words_ok ws
  end.

Section Specification.
Context {S : Type} {B : RegisterBank S}.

(** The span of the store a request touches, and whether it is configured. *)
Definition request_defined (st : S) (r : request) : Prop :=
  let a := request_address r in
  match r with
  | ReqReadBits d _ q => span_defined (bit_at st (if d then kDiscreteInputs else kCoils)) a q
  | ReqReadRegisters i _ q =>
      span_defined (word_at st (if i then kInputRegisters else kHoldingRegisters)) a q
  | ReqWriteCoil _ _ => span_defined (bit_at st kCoils) a 1
  | ReqWriteRegister _ _ => span_defined (word_at st kHoldingRegisters) a 1
  | ReqWriteCoils _ vs => span_defined (bit_at st kCoils) a (length vs)
  | ReqWriteRegisters _ ws => span_defined (word_at st kHoldingRegisters) a (length ws)
  end.

Definition same_bank (st st' : S) : Prop :=
  (forall a x, bit_at st' a x = bit_at st a x) /\ (forall a x, word_at st' a x = word_at st a x).

Definition coils_written (st st' : S) (addr : Z) (vs : list bool) : Prop :=
  (forall x, bit_at st' kCoils x = span_update (bit_at st kCoils) addr vs x) /\
  (forall a x, a <> kCoils -> bit_at st' a x = bit_at st a x) /\
  (forall a x, word_at st' a x = word_at st a x).

Definition registers_written (st st' : S) (addr : Z) (ws : list Z) : Prop :=
  (forall x, word_at st' kHoldingRegisters x = span_update (word_at st kHoldingRegisters) addr ws x) /\
  (forall a x, a <> kHoldingRegisters -> word_at st' a x = word_at st a x) /\
  (forall a x, bit_at st' a x = bit_at st a x).

(** What the handler answers to a request whose span is configured. *)
Definition served (st : S) (r : request) (st' : S) (reply : list Z) : Prop :=
  match r with
  | ReqReadBits d a q => st' = st /\ exists vs, length vs = q /\
      span_mapped (bit_at st (if d then kDiscreteInputs else kCoils)) a vs /\
      reply = Z.of_nat (bytes_for q) :: pack_bits vs (bytes_for q)
  | ReqReadRegisters i a q => st' = st /\ exists ws, length ws = q /\
      span_mapped (word_at st (if i then kInputRegisters else kHoldingRegisters)) a ws /\
      reply = put_words [Z.of_nat (2 * q)] ws
  | ReqWriteCoil a v => coils_written st st' a [v] /\ reply = request_pdu r
  | ReqWriteRegister a w => registers_written st st' a [w] /\ reply = request_pdu r
  | ReqWriteCoils a vs => coils_written st st' a vs /\ reply = take 5 (request_pdu r)
  | ReqWriteRegisters a ws => registers_written st st' a ws /\ reply = take 5 (request_pdu r)
  end.

End Specification.

(** ** Safety: every byte string is answered without leaving a buffer *)

Section Safety.
Context {S : Type} {B : RegisterBank S} {L : RegisterBankLaws S}.
Implicit Types (st : S) (pdu : list Z).

Definition outcome_good st pdu (r : res (S * list Z)) : Prop :=
  match r with
  | Ok (st', reply) =>
      bank_ok st' /\ bytes_ok reply /\ (2 <= length reply <= max 251 (length pdu))%nat
  | Err e => e = "truncated Modbus PDU"%string /\ (length pdu < 6)%nat
  | Fault => False
  end.

Lemma Need_cases pdu n :
  (Need pdu n = Ok tt /\ (n <= length pdu)%nat) \/
  (Need pdu n = Err "truncated Modbus PDU" /\ (length pdu < n)%nat).
Proof. unfold Need. destruct (length pdu <? n)%nat eqn:E; reflect_bools; auto. Qed.

Lemma exception_good st pdu f c :
  bank_ok st -> byte_ok f -> byte_ok c -> outcome_good st pdu (Ok (st, Exception f c)).
Proof.
  intros Hst Hf Hc. simpl. split_and!; [done| |lia|lia].
  repeat constructor; try apply Hc; unfold byte_ok in *.
  - apply (lor_bounded 8); lia.
  - apply (lor_bounded 8 f 128); lia.
Qed.

Lemma on_error_good {A} st pdu (call : res A) h k :
  no_fault call -> outcome_good st pdu h ->
  (forall a, call = Ok a -> outcome_good st pdu (k a)) -> outcome_good st pdu (on_error call h k).
Proof. intros Hf Hh Hk. destruct call; simpl; [by apply Hk|done|by destruct Hf]. Qed.

Lemma ParseQuantity_iff q m : ParseQuantity q m = Ok tt <-> q <> 0 /\ q <= m.
Proof.
  unfold ParseQuantity. destruct_guards; break_guards; split; intros; try done; lia.
Qed.

Lemma ParseQuantity_safe q m : no_fault (ParseQuantity q m).
Proof. unfold ParseQuantity, no_fault. by destruct_guards. Qed.

Lemma pdu_words_5 pdu : (5 <= length pdu)%nat ->
  exists a q, GetU16 pdu 1 = Ok a /\ GetU16 pdu 3 = Ok q /\ word_ok a /\ word_ok q.
Proof.
  intros H. destruct (GetU16_in_range pdu 1) as (a & Ha & ?); [lia|].
  destruct (GetU16_in_range pdu 3) as (q & Hq & ?); [lia|]. by exists a, q.
Qed.

Ltac code_byte := unfold byte_ok, kIllegalAddress, kIllegalValue, kIllegalFunction; lia.

Lemma HandleReadBits_good st f pdu : bank_ok st -> byte_ok f ->
  outcome_good st pdu (HandleReadBits st f pdu).
Proof.
  intros Hst Hf. unfold HandleReadBits.
  destruct (Need_cases pdu 5) as [[-> Hl]|[-> Hl]]; simpl; [|split; [done|lia]].
  destruct (pdu_words_5 pdu Hl) as (a & q & -> & -> & Ha & Hq). simpl.
  apply on_error_good; [apply ParseQuantity_safe|apply exception_good; [done|done|code_byte]|].
  intros [] HQ. apply ParseQuantity_iff in HQ as [Hq0 Hq1].
  apply on_error_good; [by apply read_bits_safe|apply exception_good; [done|done|code_byte]|].
  intros vs Hr. unfold word_ok in *. simpl. split_and!; [done| | |].
  - constructor; [apply to_u8_range|apply pack_bits_bytes_ok].
  - rewrite length_pack_bits. pose proof (Z.div_le_lower_bound (q + 7) 8 1). lia.
  - rewrite length_pack_bits. pose proof (Z.div_lt_upper_bound (q + 7) 8 251). lia.
Qed.

Lemma HandleReadRegisters_good st f pdu : bank_ok st -> byte_ok f ->
  outcome_good st pdu (HandleReadRegisters st f pdu).
Proof.
  intros Hst Hf. unfold HandleReadRegisters.
  destruct (Need_cases pdu 5) as [[-> Hl]|[-> Hl]]; simpl; [|split; [done|lia]].
  destruct (pdu_words_5 pdu Hl) as (a & q & -> & -> & Ha & Hq). simpl.
  apply on_error_good; [apply ParseQuantity_safe|apply exception_good; [done|done|code_byte]|].
  intros [] HQ. apply ParseQuantity_iff in HQ as [Hq0 Hq1].
  apply on_error_good; [by apply read_registers_safe|apply exception_good; [done|done|code_byte]|].
  intros ws Hr. apply read_registers_iff in Hr as (_ & -> & _); [|done].
  unfold word_ok in *. simpl. rewrite length_put_words. simpl. split_and!; [done| |lia|lia].
  apply put_words_bytes_ok. repeat constructor; apply to_u8_range.
Qed.

Lemma take_bytes_ok n pdu : bytes_ok pdu -> bytes_ok (take n pdu).
Proof. intros. by apply Forall_take. Qed.

Lemma HandleWriteCoil_good st f pdu : bank_ok st -> byte_ok f -> bytes_ok pdu ->
  outcome_good st pdu (HandleWriteCoil st f pdu).
Proof.
  intros Hst Hf Hb. unfold HandleWriteCoil.
  destruct (Need_cases pdu 5) as [[-> Hl]|[-> Hl]]; simpl; [|split; [done|lia]].
  destruct (pdu_words_5 pdu Hl) as (a & q & -> & -> & Ha & Hq). simpl.
  destruct (_ && _); [apply exception_good; [done|done|code_byte]|].
  apply on_error_good; [by apply write_bits_safe|apply exception_good; [done|done|code_byte]|].
  intros st' Hw. apply write_bits_effect in Hw; [|done|done]. simpl. split_and!; [tauto|done|lia|lia].
Qed.

Lemma HandleWriteRegister_good st f pdu : bank_ok st -> byte_ok f -> bytes_ok pdu ->
  outcome_good st pdu (HandleWriteRegister st f pdu).
Proof.
  intros Hst Hf Hb. unfold HandleWriteRegister.
  destruct (Need_cases pdu 5) as [[-> Hl]|[-> Hl]]; simpl; [|split; [done|lia]].
  destruct (pdu_words_5 pdu Hl) as (a & q & -> & -> & Ha & Hq). simpl.
  apply on_error_good; [by apply write_registers_safe|apply exception_good; [done|done|code_byte]|].
  intros st' Hw. apply write_registers_effect in Hw; [|done|done|by apply Forall_singleton].
  simpl. split_and!; [tauto|done|lia|lia].
Qed.

(** The length field of a multiple write that passed the third guard. *)
Lemma write_many_guard q max bc n len :
  (negb (is_ok (ParseQuantity q max)) || negb (bc =? n) || negb (Z.of_nat len =? 6 + bc)) = false ->
  q <> 0 /\ q <= max /\ bc = n /\ Z.of_nat len = 6 + bc.
Proof.
  intros H. reflect_bools. destruct (ParseQuantity q max) as [[]| |] eqn:E; try done.
  apply ParseQuantity_iff in E. lia.
Qed.

Lemma HandleWriteCoils_good st f pdu : bank_ok st -> byte_ok f -> bytes_ok pdu ->
  outcome_good st pdu (HandleWriteCoils st f pdu).
Proof.
  intros Hst Hf Hb. unfold HandleWriteCoils.
  destruct (Need_cases pdu 6) as [[-> Hl]|[-> Hl]]; simpl; [|split; [done|lia]].
  destruct (pdu_words_5 pdu) as (a & q & -> & -> & Ha & Hq); [lia|]. simpl.
  destruct (read_at_in pdu 5) as (bc & -> & Hbc); [lia|]. simpl.
  destruct (_ || _) eqn:G; [apply exception_good; [done|done|code_byte]|].
  apply write_many_guard in G as (Hq0 & Hq1 & -> & Hlen). unfold word_ok in *.
  destruct (get_bits_in_range pdu 6 (Z.to_nat q)) as (vs & -> & Hvs).
  { assert (((Z.to_nat q + 7) / 8)%nat = Z.to_nat ((q + 7) / 8)) as ->; [|lia].
    rewrite Z2Nat.inj_div, Z2Nat.inj_add by lia. done. }
  simpl. assert (Z.of_nat (length vs) < 2 ^ 31) by lia.
  apply on_error_good; [by apply write_bits_safe|apply exception_good; [done|done|code_byte]|].
  intros st' Hw. apply write_bits_effect in Hw; [|done|done]. simpl. rewrite length_take.
  split_and!; [tauto|by apply take_bytes_ok|lia|lia].
Qed.

Lemma HandleWriteRegisters_good st f pdu : bank_ok st -> byte_ok f -> bytes_ok pdu ->
  outcome_good st pdu (HandleWriteRegisters st f pdu).
Proof.
  intros Hst Hf Hb. unfold HandleWriteRegisters.
  destruct (Need_cases pdu 6) as [[-> Hl]|[-> Hl]]; simpl; [|split; [done|lia]].
  destruct (pdu_words_5 pdu) as (a & q & -> & -> & Ha & Hq); [lia|]. simpl.
  destruct (read_at_in pdu 5) as (bc & -> & Hbc); [lia|]. simpl.
  destruct (_ || _) eqn:G; [apply exception_good; [done|done|code_byte]|].
  apply write_many_guard in G as (Hq0 & Hq1 & -> & Hlen). unfold word_ok in *.
  destruct (get_words_in_range pdu 6 (Z.to_nat q)) as (ws & -> & Hvs & Hws); [lia|].
  simpl. assert (Z.of_nat (length ws) < 2 ^ 31) by lia.
  apply on_error_good; [by apply write_registers_safe|apply exception_good; [done|done|code_byte]|].
  intros st' Hw. apply write_registers_effect in Hw; [|done|done|done]. simpl. rewrite length_take.
  split_and!; [tauto|by apply take_bytes_ok|lia|lia].
Qed.

Lemma Handle_good st u pdu : bank_ok st -> bytes_ok pdu -> outcome_good st pdu (Handle st u pdu).
Proof.
  intros Hst Hb. unfold Handle.
  destruct (Need_cases pdu 1) as [[-> Hl]|[-> Hl]]; simpl; [|split; [done|lia]].
  destruct (read_at_in pdu 0) as (f & -> & Hf); [lia|]. simpl.
  assert (byte_ok f) by (by eapply Forall_lookup_1).
  destruct_guards; eauto using HandleReadBits_good, HandleReadRegisters_good, HandleWriteCoil_good,
    HandleWriteRegister_good, HandleWriteCoils_good, HandleWriteRegisters_good.
  apply exception_good; [done|done|code_byte].
Qed.

End Safety.

(** ** Well-formed requests are served *)

Section Serving.
Context {S : Type} {B : RegisterBank S} {L : RegisterBankLaws S}.
Implicit Types (st : S).

(** The fixed five-byte head of every request. *)
Definition pdu_head (c a q : Z) : list Z := PutU16 (PutU16 [c] a) q.

Lemma pdu_head_parse c a q rest : word_ok a -> word_ok q ->
  let pdu := pdu_head c a q ++ rest in
  read_at pdu 0 = Ok c /\ GetU16 pdu 1 = Ok a /\ GetU16 pdu 3 = Ok q /\
  Need pdu 1 = Ok tt /\ Need pdu 5 = Ok tt /\ length pdu = (5 + length rest)%nat.
Proof.
  intros Ha Hq pdu. subst pdu. unfold pdu_head, PutU16 at 1 3 5. rewrite <- !app_assoc.
  split_and!; try done.
  - apply (GetU16_put [c] a); done.
  - rewrite app_assoc. by apply (GetU16_put (PutU16 [c] a) q).
Qed.

Lemma pdu_head_5 c a q rest :
  take 5 (pdu_head c a q ++ rest) = pdu_head c a q /\ drop 5 (pdu_head c a q ++ rest) = rest.
Proof. done. Qed.

Lemma request_pdu_head r : exists q rest, request_pdu r = pdu_head (request_code r) (request_address r) q ++ rest /\
  (request_ok r -> word_ok q) /\
  match r with
  | ReqReadBits _ _ n | ReqReadRegisters _ _ n => q = Z.of_nat n /\ rest = []
  | ReqWriteCoil _ v => q = (if v then 0xFF00 else 0) /\ rest = []
  | ReqWriteRegister _ w => q = w /\ rest = []
  | ReqWriteCoils _ vs => q = Z.of_nat (length vs) /\
      rest = Z.of_nat (bytes_for (length vs)) :: pack_bits vs (bytes_for (length vs))
  | ReqWriteRegisters _ ws => q = Z.of_nat (length ws) /\
      rest = Z.of_nat (2 * length ws) :: put_words [] ws
  end.
Proof.
  unfold request_ok, word_ok. destruct r; unfold request_pdu.
  all: try (eexists _, []; rewrite app_nil_r; split; [reflexivity|]; split; [|done]; simpl; try lia).
  - by destruct value.
  - eexists _, _. split; [reflexivity|]. split; [simpl; lia|done].
  - eexists _, _. split; [|split; [|done]].
    + rewrite put_words_app, <- app_assoc. reflexivity.
    + simpl. lia.
Qed.

(** The outcome of a read on a span that is, or is not, configured. *)
Lemma read_bits_served st area a q : bank_ok st -> is_bit_area area = true ->
  span_defined (bit_at st area) a q ->
  exists vs, read_bits st area a (Z.of_nat q) = Ok vs /\ length vs = q /\ span_mapped (bit_at st area) a vs.
Proof.
  intros Hst Ha Hd. destruct (span_defined_mapped _ _ _ Hd) as (vs & <- & Hm).
  exists vs. split_and!; [|done|done]. by apply read_bits_iff.
Qed.

Lemma read_registers_served st area a q : bank_ok st -> is_bit_area area = false ->
  span_defined (word_at st area) a q ->
  exists ws, read_registers st area a (Z.of_nat q) = Ok ws /\ length ws = q /\
    span_mapped (word_at st area) a ws.
Proof.
  intros Hst Ha Hd. destruct (span_defined_mapped _ _ _ Hd) as (ws & <- & Hm).
  exists ws. split_and!; [|done|done]. by apply read_registers_iff.
Qed.

Lemma not_ok_err {A} (r : res A) : no_fault r -> is_ok r <> true -> exists e, r = Err e.
Proof. destruct r; intros Hf H; [done|by eexists|by destruct Hf]. Qed.

Lemma read_bits_refused st area a q : bank_ok st ->
  ~ span_defined (bit_at st area) a q -> exists e, read_bits st area a (Z.of_nat q) = Err e.
Proof.
  intros Hst Hd. apply not_ok_err; [by apply read_bits_safe|].
  destruct (read_bits st area a (Z.of_nat q)) as [vs| |] eqn:E; [|done|done].
  apply read_bits_iff in E as (_ & Hq & Hm); [|done]. apply Nat2Z.inj in Hq as ->.
  by apply span_mapped_defined in Hm.
Qed.

Lemma read_registers_refused st area a q : bank_ok st ->
  ~ span_defined (word_at st area) a q -> exists e, read_registers st area a (Z.of_nat q) = Err e.
Proof.
  intros Hst Hd. apply not_ok_err; [by apply read_registers_safe|].
  destruct (read_registers st area a (Z.of_nat q)) as [ws| |] eqn:E; [|done|done].
  apply read_registers_iff in E as (_ & Hq & Hm); [|done]. apply Nat2Z.inj in Hq as ->.
  by apply span_mapped_defined in Hm.
Qed.

Lemma write_bits_cases st a vs : bank_ok st -> Z.of_nat (length vs) < 2 ^ 31 ->
  (span_defined (bit_at st kCoils) a (length vs) ->
   exists st', write_bits st kCoils a vs = Ok st' /\ bank_ok st' /\ coils_written st st' a vs) /\
  (~ span_defined (bit_at st kCoils) a (length vs) -> exists e, write_bits st kCoils a vs = Err e).
Proof.
  intros Hst Hl. pose proof (write_bits_ok_iff st kCoils a vs Hst Hl) as Hi. split; intros Hd.
  - destruct (write_bits st kCoils a vs) as [st'| |] eqn:E; [|by destruct Hi as [_ Hi]; discriminate Hi..].
    exists st'. split; [done|]. by apply write_bits_effect in E.
  - apply not_ok_err; [by apply write_bits_safe|]. rewrite Hi. tauto.
Qed.

Lemma write_registers_cases st a ws : bank_ok st -> Z.of_nat (length ws) < 2 ^ 31 -> words_ok ws ->
  (span_defined (word_at st kHoldingRegisters) a (length ws) ->
   exists st', write_registers st kHoldingRegisters a ws = Ok st' /\ bank_ok st' /\
     registers_written st st' a ws) /\
  (~ span_defined (word_at st kHoldingRegisters) a (length ws) ->
   exists e, write_registers st kHoldingRegisters a ws = Err e).
Proof.
  intros Hst Hl Hw. pose proof (write_registers_ok_iff st kHoldingRegisters a ws Hst Hl) as Hi. split; intros Hd.
  - destruct (write_registers st kHoldingRegisters a ws) as [st'| |] eqn:E;
      [|by destruct Hi as [_ Hi]; discriminate Hi..].
    exists st'. split; [done|]. by apply write_registers_effect in E.
  - apply not_ok_err; [by apply write_registers_safe|]. rewrite Hi. tauto.
Qed.

Lemma ParseQuantity_ok q m : q <> 0 -> q <= m -> ParseQuantity q m = Ok tt.
Proof. intros. apply ParseQuantity_iff. done. Qed.

Lemma bytes_for_Z n : (Z.of_nat n + 7) / 8 = Z.of_nat (bytes_for n).
Proof. unfold bytes_for. rewrite Nat2Z.inj_div. f_equal. lia. Qed.

Lemma bytes_for_le n : (n <= 8 * bytes_for n /\ 8 * bytes_for n < n + 8)%nat.
Proof. unfold bytes_for. pose proof (Nat.div_mod_eq (n + 7) 8). pose proof (Nat.mod_upper_bound (n + 7) 8). lia. Qed.

Definition serves st (r : request) (out : res (S * list Z)) : Prop :=
  (request_defined st r ->
   exists st' reply, out = Ok (st', reply) /\ bank_ok st' /\ served st r st' reply) /\
  (~ request_defined st r -> out = Ok (st, Exception (request_code r) kIllegalAddress)).

Lemma HandleReadBits_serves st d a q : bank_ok st -> request_ok (ReqReadBits d a q) ->
  let r := ReqReadBits d a q in serves st r (HandleReadBits st (request_code r) (request_pdu r)).
Proof.
  intros Hst [Ha Hq] r. simpl in Ha. destruct (request_pdu_head r) as (q' & rest & E & _ & -> & ->).
  assert (word_ok (Z.of_nat q)) as Hqw by (unfold word_ok; lia). rewrite E.
  destruct (pdu_head_parse (request_code r) (request_address r) (Z.of_nat q) [] Ha Hqw) as (_ & H1 & H3 & _ & Hn & _).
  unfold HandleReadBits, serves. rewrite H1, H3, Hn. simpl.
  rewrite ParseQuantity_ok by lia. simpl.
  replace (if (if d then 2 else 1) =? 1 then kCoils else kDiscreteInputs)
    with (if d then kDiscreteInputs else kCoils) by (by destruct d).
  split; intros Hd.
  - assert (is_bit_area (if d then kDiscreteInputs else kCoils) = true) as Hba by (by destruct d).
    destruct (read_bits_served _ _ _ _ Hst Hba Hd) as (vs & -> & Hl & Hm). simpl.
    rewrite bytes_for_Z, Nat2Z.id. do 2 eexists. split; [done|]. split; [done|]. split; [done|].
    exists vs. split_and!; [done|done|]. f_equal. apply to_u8_id.
    pose proof (bytes_for_le q). lia.
  - by destruct (read_bits_refused _ _ _ _ Hst Hd) as (e & ->).
Qed.

Lemma HandleReadRegisters_serves st i a q : bank_ok st -> request_ok (ReqReadRegisters i a q) ->
  let r := ReqReadRegisters i a q in serves st r (HandleReadRegisters st (request_code r) (request_pdu r)).
Proof.
  intros Hst [Ha Hq] r. simpl in Ha. destruct (request_pdu_head r) as (q' & rest & E & _ & -> & ->).
  assert (word_ok (Z.of_nat q)) as Hqw by (unfold word_ok; lia). rewrite E.
  destruct (pdu_head_parse (request_code r) (request_address r) (Z.of_nat q) [] Ha Hqw) as (_ & H1 & H3 & _ & Hn & _).
  unfold HandleReadRegisters, serves. rewrite H1, H3, Hn. simpl.
  rewrite ParseQuantity_ok by lia. simpl.
  replace (if (if i then 4 else 3) =? 3 then kHoldingRegisters else kInputRegisters)
    with (if i then kInputRegisters else kHoldingRegisters) by (by destruct i).
  split; intros Hd.
  - assert (is_bit_area (if i then kInputRegisters else kHoldingRegisters) = false) as Hba by (by destruct i).
    destruct (read_registers_served _ _ _ _ Hst Hba Hd) as (ws & -> & Hl & Hm). simpl.
    do 2 eexists. split; [done|]. split; [done|]. split; [done|].
    exists ws. split_and!; [done|done|]. f_equal. f_equal. rewrite to_u8_id by lia. lia.
  - by destruct (read_registers_refused _ _ _ _ Hst Hd) as (e & ->).
Qed.

Lemma HandleWriteCoil_serves st a v : bank_ok st -> request_ok (ReqWriteCoil a v) ->
  let r := ReqWriteCoil a v in serves st r (HandleWriteCoil st (request_code r) (request_pdu r)).
Proof.
  intros Hst [Ha _] r. simpl in Ha. destruct (request_pdu_head r) as (q' & rest & E & Hq & -> & ->).
  assert (word_ok (if v then 0xFF00 else 0)) as Hqw by (by destruct v). rewrite E.
  destruct (pdu_head_parse (request_code r) (request_address r) _ [] Ha Hqw) as (_ & H1 & H3 & _ & Hn & _).
  unfold HandleWriteCoil, serves. rewrite H1, H3, Hn. simpl.
  replace (negb _ && negb _) with false by (by destruct v). simpl.
  replace ((if v then 0xFF00 else 0) =? 0xFF00) with v by (by destruct v).
  destruct (write_bits_cases st a [v] Hst) as [Hok Hno]; [done|]. split; intros Hd.
  - destruct (Hok Hd) as (st' & -> & ? & ?). simpl. do 2 eexists. split; [done|]. split; [done|].
    split; [done|]. exact (eq_sym E).
  - by destruct (Hno Hd) as (e & ->).
Qed.

Lemma HandleWriteRegister_serves st a w : bank_ok st -> request_ok (ReqWriteRegister a w) ->
  let r := ReqWriteRegister a w in serves st r (HandleWriteRegister st (request_code r) (request_pdu r)).
Proof.
  intros Hst [Ha Hw] r. simpl in Ha. destruct (request_pdu_head r) as (q' & rest & E & Hq & -> & ->).
  rewrite E. destruct (pdu_head_parse (request_code r) (request_address r) _ [] Ha Hw) as (_ & H1 & H3 & _ & Hn & _).
  unfold HandleWriteRegister, serves. rewrite H1, H3, Hn. simpl.
  destruct (write_registers_cases st a [w] Hst) as [Hok Hno]; [done|by apply Forall_singleton|].
  split; intros Hd.
  - destruct (Hok Hd) as (st' & -> & ? & ?). simpl. do 2 eexists. split; [done|]. split; [done|].
    split; [done|]. exact (eq_sym E).
  - by destruct (Hno Hd) as (e & ->).
Qed.

Lemma read_at_head_5 c a q x rest : read_at (pdu_head c a q ++ x :: rest) 5 = Ok x.
Proof. done. Qed.

Lemma HandleWriteCoils_serves st a vs : bank_ok st -> request_ok (ReqWriteCoils a vs) ->
  let r := ReqWriteCoils a vs in serves st r (HandleWriteCoils st (request_code r) (request_pdu r)).
Proof.
  intros Hst [Ha Hq] r. simpl in Ha, Hq. destruct (request_pdu_head r) as (q' & rest & E & _ & -> & ->).
  assert (word_ok (Z.of_nat (length vs))) as Hqw by (unfold word_ok; lia). rewrite E.
  set (nb := bytes_for (length vs)) in *. pose proof (bytes_for_le (length vs)) as Hnb. fold nb in Hnb.
  destruct (pdu_head_parse (request_code r) (request_address r) _
    (Z.of_nat nb :: pack_bits vs nb) Ha Hqw) as (_ & H1 & H3 & _ & Hn & Hl).
  unfold HandleWriteCoils, serves. rewrite H1, H3, read_at_head_5.
  assert (Need (pdu_head (request_code r) (request_address r) (Z.of_nat (length vs)) ++
                Z.of_nat nb :: pack_bits vs nb) 6 = Ok tt) as -> by done.
  cbn [mbind res_bind]. rewrite Hl, bytes_for_Z. fold nb. simpl length. rewrite length_pack_bits.
  rewrite ParseQuantity_ok by lia.
  rewrite !(proj2 (Z.eqb_eq _ _)) by lia. simpl. rewrite Nat2Z.id.
  replace (get_bits _ 6 _) with (Ok vs); [simpl|].
  2:{ symmetry. rewrite <- (app_nil_r (pack_bits vs nb)) at 1.
      apply (get_bits_pack (pdu_head 15 a (Z.of_nat (length vs)) ++ [Z.of_nat nb])); [done|lia]. }
  destruct (write_bits_cases st a vs Hst) as [Hok Hno]; [lia|]. split; intros Hd.
  - destruct (Hok Hd) as (st' & -> & ? & ?). simpl. do 2 eexists. split; [done|]. done.
  - by destruct (Hno Hd) as (e & ->).
Qed.

Lemma HandleWriteRegisters_serves st a ws : bank_ok st -> request_ok (ReqWriteRegisters a ws) ->
  let r := ReqWriteRegisters a ws in serves st r (HandleWriteRegisters st (request_code r) (request_pdu r)).
Proof.
  intros Hst [Ha [Hq Hws]] r. simpl in Ha, Hq, Hws.
  destruct (request_pdu_head r) as (q' & rest & E & _ & -> & ->).
  assert (word_ok (Z.of_nat (length ws))) as Hqw by (unfold word_ok; lia). rewrite E.
  destruct (pdu_head_parse (request_code r) (request_address r) _
    (Z.of_nat (2 * length ws) :: put_words [] ws) Ha Hqw) as (_ & H1 & H3 & _ & Hn & Hl).
  unfold HandleWriteRegisters, serves. rewrite H1, H3, read_at_head_5.
  assert (Need (pdu_head (request_code r) (request_address r) (Z.of_nat (length ws)) ++
                Z.of_nat (2 * length ws) :: put_words [] ws) 6 = Ok tt) as -> by done.
  cbn [mbind res_bind]. rewrite Hl. simpl length. rewrite length_put_words. simpl length.
  rewrite ParseQuantity_ok by lia.
  rewrite !(proj2 (Z.eqb_eq _ _)) by lia. simpl. rewrite Nat2Z.id.
  replace (get_words _ 6 _) with (Ok ws); [simpl|].
  2:{ symmetry. rewrite <- (app_nil_r (put_words [] ws)) at 1.
      by apply (get_words_put (pdu_head 16 a (Z.of_nat (length ws)) ++ [Z.of_nat (2 * length ws)])). }
  destruct (write_registers_cases st a ws Hst) as [Hok Hno]; [lia|done|]. split; intros Hd.
  - destruct (Hok Hd) as (st' & -> & ? & ?). simpl. do 2 eexists. split; [done|]. split; [done|].
    split; [done|]. by rewrite put_words_app.
  - by destruct (Hno Hd) as (e & ->).
Qed.

(** Every well-formed request is dispatched to the handler of its code. *)
Lemma Handle_serves st u r : bank_ok st -> request_ok r -> serves st r (Handle st u (request_pdu r)).
Proof.
  intros Hst Hok. assert (Handle st u (request_pdu r) =
    match r with
    | ReqReadBits _ _ _ => HandleReadBits st (request_code r) (request_pdu r)
    | ReqReadRegisters _ _ _ => HandleReadRegisters st (request_code r) (request_pdu r)
    | ReqWriteCoil _ _ => HandleWriteCoil st (request_code r) (request_pdu r)
    | ReqWriteRegister _ _ => HandleWriteRegister st (request_code r) (request_pdu r)
    | ReqWriteCoils _ _ => HandleWriteCoils st (request_code r) (request_pdu r)
    | ReqWriteRegisters _ _ => HandleWriteRegisters st (request_code r) (request_pdu r)
    end) as ->.
  { destruct (request_pdu_head r) as (q & rest & E & Hq & _).
    destruct (pdu_head_parse (request_code r) (request_address r) q rest) as (H0 & _ & _ & Hn & _);
      [by destruct Hok|by apply Hq|].
    unfold Handle. rewrite E, Hn, H0. simpl. by destruct r as [[]| [] | | | |]. }
  destruct r; [by apply HandleReadBits_serves|by apply HandleReadRegisters_serves
    |by apply HandleWriteCoil_serves|by apply HandleWriteRegister_serves
    |by apply HandleWriteCoils_serves|by apply HandleWriteRegisters_serves].
Qed.

(** A well-formed request always gets a reply. *)
Lemma Handle_answers st u r : bank_ok st -> request_ok r ->
  exists st' reply, Handle st u (request_pdu r) = Ok (st', reply).
Proof.
  intros Hst Hr. destruct (Handle_serves st u r Hst Hr) as [Hs Hn].
  destruct (Handle st u (request_pdu r)) as [[st' reply]| |]; [by eauto| |].
  - assert (~ request_defined st r) as Hd by (intros Hd; by destruct (Hs Hd) as (? & ? & ? & _)).
    by specialize (Hn Hd).
  - assert (~ request_defined st r) as Hd by (intros Hd; by destruct (Hs Hd) as (? & ? & ? & _)).
    by specialize (Hn Hd).
Qed.

End Serving.

(** ** Properties *)

(** Every byte string handed to [Handle] on a well-formed store is
    answered or dropped without reading or writing outside a buffer: the
    store stays well formed, the reply is a byte string of 2 to 251 bytes (or
    the request itself, echoed), and only a PDU shorter than 6 bytes is
    dropped, as truncated. *)
Theorem handle_is_safe (st : ModbusRegisterStore) unitId pdu :
  store_ok st -> bytes_ok pdu -> outcome_good st pdu (Handle st unitId pdu).
Proof. intros Hst Hb. by apply Handle_good. Qed.

Lemma handle_is_safe_witness :
  outcome_good demo_store [3; 0; 200; 0; 1] (Handle demo_store 1 [3; 0; 200; 0; 1]) /\
  Handle demo_store 1 [3; 0; 200; 0; 1] = Ok (demo_store, [0x83; 2]).
Proof.
  split; [|reflexivity]. apply handle_is_safe; [exact demo_store_ok|repeat constructor; discriminate].
Defined.

(** C18: A well-formed request whose span is configured is served: a read
    answers the byte count and the mapped values and changes nothing, a write
    changes exactly its span and echoes the request (its first five bytes for
    the multiple writes); a request that touches an unconfigured address is
    answered with exception 2 and leaves the store as it was. *)
Theorem handle_serves_requests (st : ModbusRegisterStore) unitId r :
  store_ok st -> request_ok r ->
  (request_defined st r -> exists st' reply,
     Handle st unitId (request_pdu r) = Ok (st', reply) /\ store_ok st' /\ served st r st' reply) /\
  (~ request_defined st r ->
     Handle st unitId (request_pdu r) = Ok (st, Exception (request_code r) kIllegalAddress)).
Proof. intros Hst Hr. exact (Handle_serves st unitId r Hst Hr). Qed.

Lemma handle_serves_requests_witness :
  let r := ReqWriteRegisters 12 [7; 8] in
  request_defined demo_store r /\
  exists st' reply, Handle demo_store 1 (request_pdu r) = Ok (st', reply) /\ store_ok st' /\
    served demo_store r st' reply.
Proof.
  intros r. assert (request_defined demo_store r) as Hd.
  { split; [discriminate|]. intros [|[|i]] Hi; try (vm_compute; eexists; reflexivity). simpl in Hi. lia. }
  split; [exact Hd|]. apply (handle_serves_requests demo_store 1 r); [exact demo_store_ok| |exact Hd].
  split; [split; vm_compute; [discriminate|reflexivity]|]. split; [simpl; lia|].
  repeat constructor; discriminate.
Defined.

(** The reply PDU the Modbus protocol prescribes for a read: the function
    code, the byte count and the values. *)
Definition conforming_read_reply (st : ModbusRegisterStore) (r : request) (reply : list Z) : Prop :=
  match r with
  | ReqReadBits d a q => exists vs, length vs = q /\
      span_mapped (store_bit_at st (if d then kDiscreteInputs else kCoils)) a vs /\
      reply = request_code r :: Z.of_nat (bytes_for q) :: pack_bits vs (bytes_for q)
  | ReqReadRegisters i a q => exists ws, length ws = q /\
      span_mapped (store_word_at st (if i then kInputRegisters else kHoldingRegisters)) a ws /\
      reply = request_code r :: put_words [Z.of_nat (2 * q)] ws
  | _ => False
  end.

(** The handler's answer to every served read is the conforming reply
    without its first byte: the function code is missing, unlike in every
    exception and write reply. *)
Theorem read_reply_lacks_function_code (st : ModbusRegisterStore) unitId r :
  store_ok st -> request_ok r -> request_defined st r -> (request_code r <= 4) ->
  exists reply, conforming_read_reply st r (request_code r :: reply) /\
    Handle st unitId (request_pdu r) = Ok (st, reply).
Proof.
  intros Hst Hr Hd Hc. destruct (Handle_serves (B:=store_bank) st unitId r Hst Hr) as [Hs _].
  destruct (Hs Hd) as (st' & reply & HH & _ & Hserved). exists reply.
  destruct r; simpl in Hc; try lia; simpl in Hserved; destruct Hserved as (-> & vs & Hl & Hm & ->).
  - split; [|done]. exists vs. done.
  - split; [|done]. exists vs. done.
Qed.

Lemma read_reply_lacks_function_code_witness :
  let r := ReqReadRegisters false 12 1 in
  exists reply, conforming_read_reply demo_store r (3 :: reply) /\
    Handle demo_store 1 (request_pdu r) = Ok (demo_store, reply).
Proof.
  intros r. apply (read_reply_lacks_function_code demo_store 1 r).
  - exact demo_store_ok.
  - split; [split; vm_compute; [discriminate|reflexivity]|simpl; lia].
  - split; [discriminate|]. intros [|i] Hi; [vm_compute; eexists; reflexivity|simpl in Hi; lia].
  - vm_compute. discriminate.
Defined.

(** ** Bytes of a request (used by the transports) *)

Lemma request_pdu_bytes_ok r : request_ok r -> bytes_ok (request_pdu r).
Proof.
  intros Hr. destruct (request_pdu_head r) as (q & rest & -> & _ & Hrest).
  apply Forall_app. split.
  { unfold pdu_head. do 2 apply PutU16_bytes_ok. apply Forall_singleton. destruct r as [[]|[]| | | |]; done. }
  destruct Hr as [_ Hr]. destruct r; simpl in Hr; destruct Hrest as [_ ->]; try done.
  - constructor; [|apply pack_bits_bytes_ok]. pose proof (bytes_for_le (length values)).
    unfold byte_ok. lia.
  - constructor; [unfold byte_ok; lia|]. by apply put_words_bytes_ok.
Qed.

Lemma length_request_pdu r :
  length (request_pdu r) =
  match r with
  | ReqWriteCoils _ vs => (6 + bytes_for (length vs))%nat
  | ReqWriteRegisters _ ws => (6 + 2 * length ws)%nat
  | _ => 5%nat
  end.
Proof.
  destruct (request_pdu_head r) as (q & rest & -> & _ & Hrest).
  rewrite length_app. destruct r; destruct Hrest as [_ ->]; simpl; try done.
  - by rewrite length_pack_bits.
  - by rewrite length_put_words.
Qed.

Lemma request_pdu_fits r : request_ok r -> (5 <= length (request_pdu r) <= 252)%nat.
Proof.
  intros [_ Hr]. rewrite length_request_pdu. destruct r; simpl in *; try lia.
  pose proof (bytes_for_le (length values)). lia.
Qed.
