(* ===== verification/ModbusRtu.v ===== *)
(** * Modbus RTU framing, master and slave (src/ModbusRtu.cpp)

    A frame is the unit id, the PDU and a little-endian CRC-16.  The serial
    port is the environment: whether it is open, whether it accepts a frame
    for transmission, and what each [ReadAvailable] poll returns ([polls], one
    element per turn of a loop).  The master's wait for a response is a
    recursion over the polls that arrive before the deadline, the end of the
    list being the time-out, and a call gives the frames it wrote to the port
    with what it returned; the slave's [Run] is the fold of one loop turn
    over the polls, with the store and the receive buffer as its state. *)

From S2P Require Import Prelude Words Crc16 RegisterStore ModbusProtocol.

(** ** Framing *)

Definition BuildModbusRtuFrame (unitId : Z) (pdu : list Z) : list Z :=
  let frame := unitId :: pdu in
  let crc := ModbusRtuCrc16 frame in
  frame ++ [Z.land crc 255; to_u8 (Z.shiftr crc 8)].

Definition ParseModbusRtuFrame (frame : list Z) : res (Z * list Z) :=
  if (length frame <? 4)%nat then Err "RTU frame is too short"
  else
    let size := length frame in
    let expected := ModbusRtuCrc16 (take (size - 2) frame) in
    lo ← read_at frame (size - 2);
    hi ← read_at frame (size - 1);
    let actual := to_u16 (Z.lor lo (Z.shiftl hi 8)) in
    if negb (expected =? actual) then Err "RTU CRC16 mismatch"
    else
      unitId ← read_at frame 0;
      pdu ← slice frame 1 (size - 3);
      Ok (unitId, pdu).

(** ** Master *)

Definition MasterExpectedFrameSize (bytes : list Z) (request : bool) : res Z :=
  if (length bytes <? 2)%nat then Ok 0
  else
    function ← read_at bytes 1;
    if negb (Z.land function 128 =? 0) then Ok 5
    else if (function =? 1) || (function =? 2) || (function =? 3) || (function =? 4) then
      if request then Ok 8
      else if (length bytes <? 3)%nat then Ok 0
      else n ← read_at bytes 2; Ok (5 + n)
    else if (function =? 5) || (function =? 6) || (function =? 15) || (function =? 16) then Ok 8
    else Ok 0.

(** [response.empty() || (response[0] != f && response[0] != (f | 0x80))] *)
Definition unexpected_function (response : list Z) (requestFunction : Z) : bool :=
  match response with
  | [] => true
  | f :: _ => negb (f =? requestFunction) && negb (f =? Z.lor requestFunction 128)
  end.

(** The polling loop of [Transact]; the end of [polls] is the deadline. *)
Fixpoint await_response (unitId requestFunction : Z) (frame : list Z) (polls : list (list Z))
  : res (list Z) :=
  match polls with
  | [] => Err "RTU response timeout"
  | chunk :: polls' =>
      let frame' := frame ++ chunk in
      expected ← MasterExpectedFrameSize frame' false;
      if (0 <? expected) && (expected <=? Z.of_nat (length frame')) then
        parsed ← ParseModbusRtuFrame (take (Z.to_nat expected) frame');
        let '(responseUnit, response) := parsed in
        if negb (responseUnit =? unitId) || unexpected_function response requestFunction
        then Err "unexpected RTU response"
        else Ok response
      else await_response unitId requestFunction frame' polls'
  end.

(** What the master finds at the serial port during one transaction. *)
Record port_env := mkPort {
  port_running : bool;          (** [running_ && port_.IsOpen()] *)
  port_accepts : bool;          (** [port_.Write] queued the frame *)
  port_stale : list Z;          (** what the first [ReadAvailable] finds and drops *)
  port_polls : list (list Z)    (** what arrives before the deadline *)
}.

(** What a call writes to the port, and what it returns. *)
Definition call (A : Type) : Type := list (list Z) * res A.

Definition refused_call {A} (e : string) : call A := ([], Err e).

(** The rest of a method after its transaction writes nothing more. *)
Definition with_response {A} (c : call (list Z)) (k : list Z -> res A) : call A := (c.1, response ← c.2; k response).

Definition Transact (env : port_env) (unitId : Z) (requestPdu : list Z) : call (list Z) :=
  if negb (port_running env) then refused_call "RTU master is not running"
  else match requestPdu with
  | [] => refused_call "RTU request PDU is empty"
  | requestFunction :: _ =>
      if negb (port_accepts env) then refused_call "RTU frame could not be queued"
      else ([BuildModbusRtuFrame unitId requestPdu], await_response unitId requestFunction [] (port_polls env))
  end.

Definition read_request (code address count : Z) : list Z :=
  PutU16 (PutU16 [code] (to_u16 address)) (to_u16 count).

Definition MasterReadBits (env : port_env) (unitId address count : Z) (discreteInputs : bool)
  : call (list bool) :=
  if (address <? 0) || (65535 <? address) || (count <=? 0) || (2000 <? count)
  then refused_call "RTU bit read must use address 0..65535 and count 1..2000"
  else
    let request := read_request (if discreteInputs then 2 else 1) address count in
    with_response (Transact env unitId request) (fun response =>
    if (length response <? 2)%nat then Err ""
    else
      bytes ← read_at response 1;
      if negb (bytes =? (count + 7) / 8) || negb (Z.of_nat (length response) =? bytes + 2)
      then Err "invalid RTU bit response length"
      else get_bits response 2 (Z.to_nat count)).

Definition MasterWriteCoil (env : port_env) (unitId address : Z) (value : bool) : call (list Z) :=
  if (address <? 0) || (65535 <? address) then refused_call "RTU coil address must be 0..65535"
  else
    let request := PutU16 (PutU16 [5] (to_u16 address)) (if value then 0xFF00 else 0) in
    Transact env unitId request.

Definition MasterReadRegisters (env : port_env) (unitId address count : Z) (inputRegisters : bool)
  : call (list Z) :=
  if (address <? 0) || (65535 <? address) || (count <=? 0) || (125 <? count)
  then refused_call "RTU register read must use address 0..65535 and count 1..125"
  else
    let request := read_request (if inputRegisters then 4 else 3) address count in
    with_response (Transact env unitId request) (fun response =>
    if (length response <? 2)%nat then Err ""
    else
      bytes ← read_at response 1;
      if negb (bytes =? count * 2) || negb (Z.of_nat (length response) =? bytes + 2)
      then Err "invalid RTU register response length"
      else get_words response 2 (Z.to_nat count)).

Definition MasterWriteHoldingRegister (env : port_env) (unitId address value : Z) : call (list Z) :=
  if (address <? 0) || (65535 <? address) then refused_call "RTU holding-register address must be 0..65535"
  else Transact env unitId (PutU16 (PutU16 [6] (to_u16 address)) value).

Definition MasterWriteHoldingRegisters (env : port_env) (unitId address : Z) (values : list Z)
  : call (list Z) :=
  let n := Z.of_nat (length values) in
  if (address <? 0) || (65535 <? address) || (n =? 0) || (123 <? n) || (65536 - n <? address)
  then refused_call "RTU register write must use address 0..65535 and count 1..123"
  else
    let request := PutU16 (PutU16 [16] (to_u16 address)) (to_u16 n) ++ [to_u8 (n * 2)] in
    Transact env unitId (put_words request values).

(** ** Slave *)

Definition SlaveExpectedFrameSize (bytes : list Z) : res Z :=
  if (length bytes <? 2)%nat then Ok 0
  else
    function ← read_at bytes 1;
    if (function =? 1) || (function =? 2) || (function =? 3) || (function =? 4) || (function =? 5)
       || (function =? 6)
    then Ok 8
    else if ((function =? 15) || (function =? 16)) && (7 <=? length bytes)%nat
    then n ← read_at bytes 6; Ok (9 + n)
    else Ok 0.

Section Slave.
Context {S : Type} {B : RegisterBank S}.

Record slave := mkSlave { slave_store : S; slave_buffer : list Z }.

(** One turn of the loop in [Run]: what it leaves and the frames it writes. *)
Definition slave_turn (unitId_ : Z) (s : slave) (available : list Z) : res (slave * list (list Z)) :=
  let buffer := slave_buffer s ++ available in
  expected ← SlaveExpectedFrameSize buffer;
  if (0 <? expected) && (expected <=? Z.of_nat (length buffer)) then
    let frame := take (Z.to_nat expected) buffer in
    let rest := drop (Z.to_nat expected) buffer in
    match ParseModbusRtuFrame frame with
    | Fault => Fault
    | Err _ => Ok (mkSlave (slave_store s) rest, [])
    | Ok (unit, requestPdu) =>
        if negb (unit =? unitId_) then Ok (mkSlave (slave_store s) rest, [])
        else match Handle (slave_store s) unit requestPdu with
             | Fault => Fault
             | Err _ => Ok (mkSlave (slave_store s) rest, [])
             | Ok (store', responsePdu) =>
                 Ok (mkSlave store' rest, [BuildModbusRtuFrame unit responsePdu])
             end
    end
  else Ok (mkSlave (slave_store s) buffer, []).

(** [Run] over the polls of a run of the thread. *)
Fixpoint slave_run (unitId_ : Z) (s : slave) (polls : list (list Z)) : res (slave * list (list Z)) :=
  match polls with
  | [] => Ok (s, [])
  | chunk :: polls' =>
      turn ← slave_turn unitId_ s chunk;
      let '(s', out) := turn in
      more ← slave_run unitId_ s' polls';
      let '(s'', out') := more in
      Ok (s'', out ++ out')
  end.

End Slave.
Arguments slave S : clear implicits.

(** ** Framing lemmas *)

Definition crc_bytes (crc : Z) : list Z := [Z.land crc 255; to_u8 (Z.shiftr crc 8)].

Lemma BuildModbusRtuFrame_eq u pdu :
  BuildModbusRtuFrame u pdu = (u :: pdu) ++ crc_bytes (ModbusRtuCrc16 (u :: pdu)).
Proof. done. Qed.

Lemma length_BuildModbusRtuFrame u pdu : length (BuildModbusRtuFrame u pdu) = (length pdu + 3)%nat.
Proof. rewrite BuildModbusRtuFrame_eq, length_app. simpl. lia. Qed.

Lemma crc_bytes_ok crc : bytes_ok (crc_bytes crc).
Proof. unfold crc_bytes. rewrite land_255. repeat constructor; apply to_u8_range. Qed.

Lemma BuildModbusRtuFrame_bytes_ok u pdu : byte_ok u -> bytes_ok pdu -> bytes_ok (BuildModbusRtuFrame u pdu).
Proof.
  intros. rewrite BuildModbusRtuFrame_eq. apply Forall_app. split; [by constructor|apply crc_bytes_ok].
Qed.

Lemma crc_bytes_join crc : word_ok crc ->
  to_u16 (Z.lor (Z.land crc 255) (Z.shiftl (to_u8 (Z.shiftr crc 8)) 8)) = crc.
Proof. intros H. rewrite land_255, Z.lor_comm. by apply join_split_u16. Qed.

Lemma crc_bytes_inj a b : word_ok a -> word_ok b -> crc_bytes a = crc_bytes b -> a = b.
Proof.
  intros Ha Hb H. unfold crc_bytes in H. injection H as H1 H2.
  rewrite <- (crc_bytes_join a Ha), <- (crc_bytes_join b Hb). by rewrite H1, H2.
Qed.

Lemma rtu_crc_range data : bytes_ok data -> word_ok (ModbusRtuCrc16 data).
Proof. apply crc_from_range. unfold word_ok. lia. Qed.

(** Parsing any body followed by two bytes: the CRC decides, nothing else. *)
Lemma parse_body u body lo hi : (1 <= length body)%nat -> byte_ok lo -> byte_ok hi -> bytes_ok (u :: body) ->
  ParseModbusRtuFrame (u :: body ++ [lo; hi]) =
  if decide (crc_bytes (ModbusRtuCrc16 (u :: body)) = [lo; hi]) then Ok (u, body)
  else Err "RTU CRC16 mismatch".
Proof.
  intros Hb Hlo Hhi Hok. unfold ParseModbusRtuFrame.
  assert (length (u :: body ++ [lo; hi]) = (length body + 3)%nat) as Hl
    by (simpl; rewrite length_app; simpl; lia).
  rewrite Hl. destruct (length body + 3 <? 4)%nat eqn:E; reflect_bools; [lia|].
  rewrite (app_comm_cons body [lo; hi] u).
  rewrite take_app_le, take_ge by (simpl; lia).
  rewrite (read_at_app_off _ _ (length body + 3 - 2) 0) by (simpl; lia).
  rewrite (read_at_app_off _ _ (length body + 3 - 1) 1) by (simpl; lia).
  cbn [read_at lookup list_lookup mbind res_bind].
  pose proof (rtu_crc_range _ Hok) as Hc. set (crc := ModbusRtuCrc16 (u :: body)) in *.
  destruct (decide (crc_bytes crc = [lo; hi])) as [D|D].
  - unfold crc_bytes in D. injection D as <- <-. rewrite crc_bytes_join by done.
    rewrite Z.eqb_refl. cbn [negb]. rewrite <- app_comm_cons. cbn [read_at lookup list_lookup mbind res_bind].
    rewrite slice_ok by (simpl; rewrite length_app; simpl; lia). simpl.
    rewrite drop_0, take_app_length'; [done|lia].
  - destruct (crc =? _) eqn:E2; [|done]. exfalso. reflect_bools. apply D. rewrite E2.
    unfold crc_bytes. rewrite land_255, Z.lor_comm.
    destruct (split_join_u16 hi lo Hhi Hlo) as [-> ->]. done.
Qed.

Lemma parse_build u pdu : byte_ok u -> bytes_ok pdu -> pdu <> [] ->
  ParseModbusRtuFrame (BuildModbusRtuFrame u pdu) = Ok (u, pdu).
Proof.
  intros Hu Hp Hne. rewrite BuildModbusRtuFrame_eq. simpl. unfold crc_bytes.
  pose proof (crc_bytes_ok (ModbusRtuCrc16 (u :: pdu))) as Hc. unfold crc_bytes in Hc.
  inversion Hc as [|? ? Hlo Hc']; inversion Hc' as [|? ? Hhi _]; subst.
  rewrite parse_body; [|by destruct pdu; simpl; [|lia]|done|done|by constructor].
  by rewrite decide_True.
Qed.

(** A parsed frame is the frame that was built: the parser accepts nothing else. *)
Lemma parse_inv frame u pdu : bytes_ok frame -> ParseModbusRtuFrame frame = Ok (u, pdu) ->
  frame = BuildModbusRtuFrame u pdu /\ pdu <> [].
Proof.
  intros Hok H. destruct (decide (length frame < 4)%nat) as [Hs|Hs].
  { unfold ParseModbusRtuFrame in H. by rewrite (proj2 (Nat.ltb_lt _ _)) in H by lia. }
  destruct frame as [|x rest]; [simpl in *; lia|].
  destruct (rest) as [|hi rest' _] using rev_ind; [simpl in *; lia|].
  destruct (rest') as [|lo body _] using rev_ind; [simpl in *; lia|].
  rewrite <- app_assoc in *. simpl in H, Hok |- *.
  inversion Hok as [|? ? Hx Hr]; subst. apply Forall_app in Hr as [Hbody Htail].
  inversion Htail as [|? ? Hlo Ht']; inversion Ht' as [|? ? Hhi _]; subst.
  simpl in Hs. rewrite length_app in Hs. simpl in Hs.
  rewrite parse_body in H; [|lia|done|done|by constructor].
  case_decide as D; simplify_eq. rewrite BuildModbusRtuFrame_eq, D. split; [done|].
  intros ->. simpl in Hs. lia.
Qed.

Lemma ParseModbusRtuFrame_safe frame : no_fault (ParseModbusRtuFrame frame).
Proof.
  unfold ParseModbusRtuFrame, no_fault. destruct (length frame <? 4)%nat eqn:E; reflect_bools; [done|].
  destruct (read_at_in frame (length frame - 2)) as (? & -> & _); [lia|].
  destruct (read_at_in frame (length frame - 1)) as (? & -> & _); [lia|]. simpl.
  case_match; [done|]. destruct (read_at_in frame 0) as (? & -> & _); [lia|]. simpl.
  by rewrite slice_ok by lia.
Qed.

(** Changing one byte of a built frame, anywhere, is detected. *)
Lemma parse_corrupted u pdu i x old : byte_ok u -> bytes_ok pdu -> pdu <> [] -> byte_ok x ->
  BuildModbusRtuFrame u pdu !! i = Some old -> x <> old ->
  ParseModbusRtuFrame (<[i := x]> (BuildModbusRtuFrame u pdu)) = Err "RTU CRC16 mismatch".
Proof.
  intros Hu Hp Hne Hx Hi Hxo. rewrite BuildModbusRtuFrame_eq in *.
  set (msg := u :: pdu) in *. assert (bytes_ok msg) as Hm by (by constructor).
  pose proof (crc_bytes_ok (ModbusRtuCrc16 msg)) as Hc. unfold crc_bytes in Hc.
  inversion Hc as [|? ? Hlo Hc']; inversion Hc' as [|? ? Hhi _]; subst.
  assert (1 <= length pdu)%nat as Hlen by (destruct pdu; simpl; [done|lia]).
  destruct (decide (i < length msg)%nat) as [Hlt|Hge].
  - rewrite lookup_app_l in Hi by done. rewrite insert_app_l by done.
    assert (exists u' body', <[i:=x]> msg = u' :: body' /\ length body' = length pdu) as (u' & body' & E & El).
    { subst msg. destruct i as [|i]; simpl; [by exists x, pdu|].
      exists u, (<[i:=x]> pdu). split; [done|apply length_insert]. }
    assert (bytes_ok (<[i:=x]> msg)) as Hm' by (by apply Forall_insert).
    rewrite E in Hm' |- *. simpl. unfold crc_bytes. rewrite parse_body by (done || lia).
    rewrite decide_False; [done|]. intros D. apply crc_bytes_inj in D; [|by apply rtu_crc_range..].
    rewrite <- E in D. pose proof (take_drop_middle _ _ _ Hi) as Hsplit.
    assert (<[i:=x]> msg = take i msg ++ x :: drop (S i) msg) as E3.
    { rewrite insert_take_drop by done. done. }
    rewrite E3 in D. rewrite <- Hsplit in D at 3.
    assert (bytes_ok (take i msg)) by (by apply Forall_take).
    assert (bytes_ok (drop (S i) msg)) by (by apply Forall_drop).
    assert (byte_ok old) by exact (Forall_lookup_1 _ _ _ _ Hm Hi).
    eapply (crc_one_byte 0xFFFF); [| | | | |exact Hxo|exact D]; try done.
  - rewrite lookup_app_r in Hi by lia. rewrite insert_app_r_alt by lia.
    set (j := (i - length msg)%nat) in *. subst msg. simpl app. unfold crc_bytes in Hi |- *.
    destruct j as [|[|j]]; simpl in Hi |- *; simplify_eq;
      (rewrite parse_body by (done || lia)); (rewrite decide_False; [done|]);
      unfold crc_bytes; intros D; injection D; congruence.
Qed.

(** ** The slave: a frame is served however it is cut *)

Lemma read_at_take {A} (l : list A) k i : (i < k)%nat -> read_at (take k l) i = read_at l i.
Proof. intros. unfold read_at. by rewrite lookup_take_lt. Qed.

(** Bytes 1 and 6 of a request frame: the function code and the byte count. *)
Lemma request_frame_shape u r : request_ok r ->
  let F := BuildModbusRtuFrame u (request_pdu r) in
  read_at F 1 = Ok (request_code r) /\
  match r with
  | ReqWriteCoils _ _ | ReqWriteRegisters _ _ =>
      exists n, read_at F 6 = Ok n /\ 9 + n = Z.of_nat (length F)
  | _ => length F = 8%nat
  end.
Proof.
  intros Hr F. pose proof (length_BuildModbusRtuFrame u (request_pdu r)) as Hl. fold F in Hl.
  rewrite length_request_pdu in Hl.
  destruct (request_pdu_head r) as (q & rest & E & _ & Hrest). subst F. rewrite BuildModbusRtuFrame_eq, E in *.
  split; [done|]. destruct r; destruct Hrest as [_ ->]; try done;
    (eexists; split; [reflexivity|rewrite Hl; lia]).
Qed.

(** Any strict prefix of a request frame asks the slave to wait for more. *)
Lemma SlaveExpectedFrameSize_request u r k : request_ok r ->
  let F := BuildModbusRtuFrame u (request_pdu r) in
  exists e, SlaveExpectedFrameSize (take k F) = Ok e /\
    (e = 0 \/ e = Z.of_nat (length F)) /\ (length F <= k -> e = Z.of_nat (length F))%nat.
Proof.
  intros Hr F. destruct (request_frame_shape u r Hr) as [Hc Hn]. fold F in Hc, Hn.
  assert (8 <= length F)%nat as H8.
  { destruct r; try lia; subst F; rewrite length_BuildModbusRtuFrame, length_request_pdu; lia. }
  clearbody F. unfold SlaveExpectedFrameSize. rewrite length_take.
  destruct (_ <? 2)%nat eqn:E; reflect_bools.
  { exists 0. split; [done|]. split; [by left|lia]. }
  rewrite (read_at_take F k 1), Hc by lia. simpl.
  destruct (request_code r) as [|c|c] eqn:Ec; [by destruct r as [[]|[]| | | |]| |by destruct r as [[]|[]| | | |]].
  destruct r as [[]|[]| | | |]; simpl in Ec; simplify_eq; simpl;
    try (exists 8; rewrite Hn; split; [done|]; split; [by right|done]).
  all: destruct Hn as (n & H6 & Hn); destruct (7 <=? _)%nat eqn:E7; reflect_bools.
  all: first
    [ rewrite (read_at_take F k 6), H6 by lia; exists (9 + n); simpl; split; [done|]; split; [by right|done]
    | exists 0; split; [done|]; split; [by left|lia] ].
Qed.

Section SlaveProofs.
Context {S : Type} {B : RegisterBank S} {L : RegisterBankLaws S}.

Lemma slave_run_silent unitId (st : S) polls : concat polls = [] ->
  slave_run unitId (mkSlave st []) polls = Ok (mkSlave st [], []).
Proof.
  induction polls as [|chunk polls IH]; intros H; [done|].
  simpl in H. apply app_eq_nil in H as [-> H]. simpl. by rewrite IH.
Qed.

(** The turn that completes the frame hands its PDU to the protocol. *)
Lemma slave_turn_request unitId (st : S) r buf chunk :
  bank_ok st -> byte_ok unitId -> request_ok r ->
  let F := BuildModbusRtuFrame unitId (request_pdu r) in
  forall k, (k <= length F)%nat -> buf ++ chunk = take k F ->
  slave_turn unitId (mkSlave st buf) chunk =
  if decide (k = length F)
  then match Handle st unitId (request_pdu r) with
       | Ok (st', reply) => Ok (mkSlave st' [], [BuildModbusRtuFrame unitId reply])
       | Err _ => Ok (mkSlave st [], [])
       | Fault => Fault
       end
  else Ok (mkSlave st (take k F), []).
Proof.
  intros Hst Hu Hr F k Hk Hbuf. unfold slave_turn. simpl. rewrite Hbuf.
  destruct (SlaveExpectedFrameSize_request unitId r k Hr) as (e & He & Hcase & Hfull).
  fold F in He, Hcase, Hfull. rewrite He. simpl. rewrite length_take, Nat.min_l by lia.
  destruct (decide (k = length F)) as [->|Hne].
  - rewrite Hfull by lia. rewrite Z.leb_refl, andb_true_r.
    assert ((0 <? Z.of_nat (length F)) = true) as ->.
    { apply Z.ltb_lt. subst F. rewrite length_BuildModbusRtuFrame. lia. }
    rewrite decide_True, !Nat2Z.id, !(take_ge F), (drop_ge F) by (done || lia).
    subst F. rewrite parse_build; [|done|by apply request_pdu_bytes_ok|].
    2:{ intros E. apply (f_equal length) in E. rewrite length_request_pdu in E. destruct r; simpl in E; lia. }
    rewrite Z.eqb_refl. simpl. by destruct (Handle st unitId (request_pdu r)) as [[]| |].
  - rewrite decide_False by done. destruct Hcase as [->| ->]; [done|].
    rewrite (proj2 (Z.leb_gt _ _)) by lia. by rewrite andb_false_r.
Qed.

Lemma slave_run_request unitId (st : S) r : bank_ok st -> byte_ok unitId -> request_ok r ->
  let F := BuildModbusRtuFrame unitId (request_pdu r) in
  forall polls k, (k < length F)%nat -> concat polls = drop k F ->
  exists st' reply, Handle st unitId (request_pdu r) = Ok (st', reply) /\
    slave_run unitId (mkSlave st (take k F)) polls =
      Ok (mkSlave st' [], [BuildModbusRtuFrame unitId reply]).
Proof.
  intros Hst Hu Hr F.
  destruct (Handle_answers st unitId r Hst Hr) as (st' & reply & HH).
  intros polls. induction polls as [|chunk polls IH]; intros k Hk Hc; simpl in Hc.
  { apply (f_equal length) in Hc. rewrite length_drop in Hc.
    change (length (@nil Z)) with 0%nat in Hc. lia. }
  exists st', reply. split; [done|]. simpl.
  assert (exists k', (k <= k' <= length F)%nat /\ take k F ++ chunk = take k' F /\ concat polls = drop k' F)
    as (k' & Hk' & Htake & Hdrop).
  { exists (k + length chunk)%nat. apply (f_equal length) in Hc as Hlen.
    rewrite length_app, length_drop in Hlen.
    split; [lia|]. rewrite <- take_take_drop, <- drop_drop, <- Hc.
    by rewrite take_app_length, drop_app_length. }
  rewrite (slave_turn_request unitId st r _ chunk Hst Hu Hr k'); [|fold F; lia|done].
  fold F. case_decide as D; simpl.
  - rewrite HH. simpl. rewrite slave_run_silent; [done|]. rewrite Hdrop. apply drop_ge. lia.
  - destruct (IH k') as (st2 & reply2 & HH2 & ->); [lia|done|]. simpl.
    rewrite HH in HH2. by simplify_eq.
Qed.

(** A buffer whose second byte is no supported function code is never consumed. *)
Definition stuck_code (f : Z) : Prop := ~ (f ∈ [1; 2; 3; 4; 5; 6; 15; 16]).

Lemma SlaveExpectedFrameSize_stuck u f rest : stuck_code f -> SlaveExpectedFrameSize (u :: f :: rest) = Ok 0.
Proof.
  intros Hf. unfold SlaveExpectedFrameSize. simpl.
  assert (forall c, c ∈ [1; 2; 3; 4; 5; 6; 15; 16] -> (f =? c) = false) as Hne.
  { intros c Hc. apply Z.eqb_neq. by intros ->. }
  rewrite !Hne by set_solver. done.
Qed.

Lemma slave_run_stuck unitId (st : S) u f : stuck_code f -> forall polls rest,
  slave_run unitId (mkSlave st (u :: f :: rest)) polls =
  Ok (mkSlave st (u :: f :: rest ++ concat polls), []).
Proof.
  intros Hf. induction polls as [|chunk polls IH]; intros rest; simpl; [by rewrite app_nil_r|].
  unfold slave_turn. simpl. rewrite SlaveExpectedFrameSize_stuck by done. simpl.
  rewrite IH. simpl. by rewrite <- app_assoc.
Qed.

End SlaveProofs.

(** ** The master: what a successful wait has seen *)

Lemma MasterExpectedFrameSize_safe bytes b : no_fault (MasterExpectedFrameSize bytes b).
Proof.
  unfold MasterExpectedFrameSize, no_fault. destruct (_ <? 2)%nat eqn:E; reflect_bools; [done|].
  destruct (read_at_in bytes 1) as (f & -> & _); [lia|]. simpl. destruct (negb _); [done|].
  destruct (_ || _); [|by destruct (_ || _)]. destruct b; [done|].
  destruct (_ <? 3)%nat eqn:E3; reflect_bools; [done|].
  by destruct (read_at_in bytes 2) as (n & -> & _); [lia|].
Qed.

(** A successful response is the PDU of a frame received as a prefix of the polls. *)
Lemma await_response_inv u f polls : forall frame response,
  bytes_ok (frame ++ concat polls) -> await_response u f frame polls = Ok response ->
  exists k, take k (frame ++ concat polls) = BuildModbusRtuFrame u response /\
    response <> [] /\ unexpected_function response f = false.
Proof.
  induction polls as [|chunk polls IH]; intros frame response Hok H; simpl in H; [done|].
  simpl in Hok |- *. rewrite app_assoc in Hok |- *.
  inv_bind H. destruct (_ && _) eqn:G; [|by apply IH].
  inv_bind H. destruct v0 as [ru resp]. destruct (_ || _) eqn:G2; simplify_eq. reflect_bools. subst ru.
  apply parse_inv in Hm0 as [Hf Hne].
  - exists (Z.to_nat v). split; [|done]. rewrite <- Hf. apply take_app_le. lia.
  - apply Forall_take. by apply Forall_app in Hok as [? _].
Qed.

(** The response is complete as soon as the head of the frame is in. *)
Lemma await_response_frame u f reply :
  byte_ok u -> bytes_ok reply -> reply <> [] -> unexpected_function reply f = false ->
  let F := BuildModbusRtuFrame u reply in
  (forall k, exists e, MasterExpectedFrameSize (take k F) false = Ok e /\
     (e = 0 \/ e = Z.of_nat (length F)) /\ (length F <= k -> e = Z.of_nat (length F))%nat) ->
  forall polls k, (k < length F)%nat -> concat polls = drop k F ->
  await_response u f (take k F) polls = Ok reply.
Proof.
  intros Hu Hb Hne Hun F Hexp. assert (ParseModbusRtuFrame F = Ok (u, reply)) as HP by (by apply parse_build).
  assert (0 < length F)%nat as Hpos by (subst F; rewrite length_BuildModbusRtuFrame; lia). clearbody F.
  intros polls. induction polls as [|chunk polls IH]; intros k Hk Hc.
  { apply (f_equal length) in Hc. rewrite length_drop in Hc. simpl in Hc. lia. }
  simpl in Hc |- *.
  assert ((k + length chunk <= length F)%nat /\ take k F ++ chunk = take (k + length chunk) F /\
          concat polls = drop (k + length chunk) F) as (Hk' & Htake & Hdrop).
  { apply (f_equal length) in Hc as Hlen. rewrite length_app, length_drop in Hlen.
    split; [lia|]. rewrite <- take_take_drop, <- drop_drop, <- Hc.
    by rewrite take_app_length, drop_app_length. }
  rewrite Htake. set (k' := (k + length chunk)%nat) in *.
  destruct (Hexp k') as (e & -> & Hcase & Hfull). simpl. rewrite length_take, Nat.min_l by lia.
  destruct (decide (k' = length F)) as [E|E].
  - rewrite Hfull by lia. rewrite E, Z.leb_refl, (proj2 (Z.ltb_lt _ _)) by lia. cbn [andb].
    rewrite Nat2Z.id, !(take_ge F) by lia. rewrite HP. simpl. rewrite Z.eqb_refl, Hun. done.
  - destruct Hcase as [->| ->]; simpl.
    + apply IH; [lia|done].
    + rewrite (proj2 (Z.leb_gt _ _)) by lia. rewrite andb_false_r. apply IH; [lia|done].
Qed.

(** The requests the master sends are the well-formed requests of the specification. *)
Lemma MasterReadRegisters_request (input : bool) a n :
  word_ok a -> (0 < n <= 125)%nat ->
  read_request (if input then 4 else 3) a (Z.of_nat n) = request_pdu (ReqReadRegisters input a n).
Proof.
  intros Ha Hn. unfold read_request, word_ok in *. by rewrite (to_u16_id a), to_u16_id by lia.
Qed.

Lemma MasterReadBits_request (discrete : bool) a n :
  word_ok a -> (0 < n <= 2000)%nat ->
  read_request (if discrete then 2 else 1) a (Z.of_nat n) = request_pdu (ReqReadBits discrete a n).
Proof.
  intros Ha Hn. unfold read_request, word_ok in *. by rewrite (to_u16_id a), to_u16_id by lia.
Qed.

Lemma MasterWriteHoldingRegisters_eq env u a ws :
  request_ok (ReqWriteRegisters a ws) -> a + Z.of_nat (length ws) <= 65536 ->
  MasterWriteHoldingRegisters env u a ws = Transact env u (request_pdu (ReqWriteRegisters a ws)).
Proof.
  intros [Ha [Hl Hw]] Hfit. unfold word_ok in *. simpl in Ha, Hl.
  unfold MasterWriteHoldingRegisters. destruct_guards; break_guards; try lia.
  rewrite (to_u16_id a), (to_u16_id (Z.of_nat (length ws))), (to_u8_id (Z.of_nat (length ws) * 2)) by lia.
  simpl. by replace (Z.of_nat (length ws) * 2) with (Z.of_nat (2 * length ws)) by lia.
Qed.

Lemma Transact_request env u r : request_ok r -> port_running env = true -> port_accepts env = true ->
  Transact env u (request_pdu r) =
  ([BuildModbusRtuFrame u (request_pdu r)], await_response u (request_code r) [] (port_polls env)).
Proof.
  intros Hr H1 H2. unfold Transact. rewrite H1, H2. simpl.
  by destruct (request_pdu_head r) as (q & rest & -> & _).
Qed.

(** Replies of five bytes and exceptions have a frame size the master knows. *)
Lemma MasterExpected_short u f rest (F := BuildModbusRtuFrame u (f :: rest)) :
  (f ∈ [5; 6; 15; 16] /\ length rest = 4%nat) \/ (negb (Z.land f 128 =? 0) = true /\ length rest = 1%nat) ->
  forall k, exists e, MasterExpectedFrameSize (take k F) false = Ok e /\
     (e = 0 \/ e = Z.of_nat (length F)) /\ (length F <= k -> e = Z.of_nat (length F))%nat.
Proof.
  intros Hf k. pose proof (length_BuildModbusRtuFrame u (f :: rest)) as Hl. fold F in Hl.
  change (length (f :: rest)) with (S (length rest)) in Hl.
  assert (read_at F 1 = Ok f) as Hc by done. clearbody F.
  unfold MasterExpectedFrameSize. rewrite length_take. destruct (_ <? 2)%nat eqn:E; reflect_bools.
  { exists 0. split; [done|]. split; [by left|lia]. }
  rewrite (read_at_take F k 1), Hc by lia. cbn [mbind res_bind].
  destruct Hf as [[Hf Hr]|[-> Hr]].
  - exists 8. rewrite Hl, Hr. split; [|split; [by right|done]].
    rewrite !elem_of_cons, elem_of_nil in Hf. by destruct Hf as [->|[->|[->|[->|[]]]]].
  - exists 5. rewrite Hl, Hr. split; [done|]. split; [by right|done].
Qed.

Lemma exception_flag c : byte_ok c -> negb (Z.land (Z.lor c 128) 128 =? 0) = true.
Proof.
  intros Hc. apply negb_true_iff, Z.eqb_neq. intros H.
  apply (f_equal (fun z => Z.testbit z 7)) in H. rewrite Z.land_spec, Z.lor_spec in H.
  by rewrite orb_true_r in H.
Qed.

(** ** Properties *)

(** The frame parser accepts exactly the frames the builder makes: a built
    frame of a non-empty PDU parses to its unit id and PDU, and any accepted
    byte string is the built frame of what it parsed to. *)
Theorem rtu_frame_roundtrip u pdu frame :
  byte_ok u -> bytes_ok pdu -> bytes_ok frame ->
  (pdu <> [] -> ParseModbusRtuFrame (BuildModbusRtuFrame u pdu) = Ok (u, pdu)) /\
  (ParseModbusRtuFrame frame = Ok (u, pdu) -> frame = BuildModbusRtuFrame u pdu /\ pdu <> []).
Proof. intros. split; [intros; by apply parse_build|by apply parse_inv]. Qed.

Lemma rtu_frame_roundtrip_witness :
  ParseModbusRtuFrame (BuildModbusRtuFrame 7 [3; 0; 0; 0; 2]) = Ok (7, [3; 0; 0; 0; 2]).
Proof.
  apply (rtu_frame_roundtrip 7 [3; 0; 0; 0; 2] []);
    [split; [discriminate|reflexivity]|repeat constructor; discriminate|constructor|discriminate].
Defined.

(** Changing any one byte of a built frame, the unit id, the PDU or the
    CRC itself, makes the parser refuse it with the CRC error. *)
Theorem rtu_detects_byte_corruption u pdu i old x :
  byte_ok u -> bytes_ok pdu -> pdu <> [] -> byte_ok x ->
  BuildModbusRtuFrame u pdu !! i = Some old -> x <> old ->
  ParseModbusRtuFrame (<[i := x]> (BuildModbusRtuFrame u pdu)) = Err "RTU CRC16 mismatch".
Proof. apply parse_corrupted. Qed.

Lemma rtu_detects_byte_corruption_witness :
  ParseModbusRtuFrame (<[2%nat := 9]> (BuildModbusRtuFrame 7 [3; 0; 0; 0; 2])) = Err "RTU CRC16 mismatch".
Proof.
  apply (rtu_detects_byte_corruption 7 [3; 0; 0; 0; 2] 2 0 9);
    [split; [discriminate|reflexivity]|repeat constructor; discriminate|discriminate
    |split; [discriminate|reflexivity]|reflexivity|discriminate].
Defined.

(** However the serial line cuts the frame of a well-formed request into
    reads, empty reads included, the slave answers it exactly once, with the
    frame of the protocol's reply, takes the protocol's new store and is left
    with an empty buffer. *)
Theorem rtu_slave_serves_any_chunking (st : ModbusRegisterStore) unitId r polls :
  store_ok st -> byte_ok unitId -> request_ok r ->
  concat polls = BuildModbusRtuFrame unitId (request_pdu r) ->
  exists st' reply, Handle st unitId (request_pdu r) = Ok (st', reply) /\
    slave_run unitId (mkSlave st []) polls = Ok (mkSlave st' [], [BuildModbusRtuFrame unitId reply]).
Proof.
  intros Hst Hu Hr Hc.
  apply (slave_run_request (B:=store_bank) unitId st r Hst Hu Hr polls 0); [|by rewrite drop_0].
  rewrite length_BuildModbusRtuFrame. lia.
Qed.

Lemma rtu_slave_serves_any_chunking_witness :
  exists st' reply,
    Handle demo_store 1 (request_pdu (ReqWriteRegister 12 513)) = Ok (st', reply) /\
    slave_run 1 (mkSlave demo_store []) [[1; 6]; []; [0; 12; 2]; [1; 137; 105]] =
      Ok (mkSlave st' [], [BuildModbusRtuFrame 1 reply]).
Proof.
  apply (rtu_slave_serves_any_chunking demo_store 1 (ReqWriteRegister 12 513)).
  - exact demo_store_ok.
  - split; [discriminate|reflexivity].
  - split; split; vm_compute; (discriminate || reflexivity).
  - reflexivity.
Defined.

(** Once the slave's buffer starts with a byte followed by anything that is
    not a supported function code (one noise byte, or another function), no
    later input is ever answered: the slave only accumulates it. *)
Theorem rtu_slave_wedges (st : ModbusRegisterStore) unitId u f rest polls :
  f ∉ [1; 2; 3; 4; 5; 6; 15; 16] ->
  slave_run unitId (mkSlave st (u :: f :: rest)) polls =
  Ok (mkSlave st (u :: f :: rest ++ concat polls), []).
Proof. intros Hf. by apply slave_run_stuck. Qed.

Lemma rtu_slave_wedges_witness :
  slave_run 1 (mkSlave demo_store [1; 43]) [BuildModbusRtuFrame 1 [6; 0; 12; 2; 1]] =
  Ok (mkSlave demo_store ([1; 43] ++ BuildModbusRtuFrame 1 [6; 0; 12; 2; 1]), []).
Proof.
  apply (rtu_slave_wedges demo_store 1 1 43 [] [BuildModbusRtuFrame 1 [6; 0; 12; 2; 1]]).
  apply (bool_decide_unpack _). vm_compute. exact I.
Defined.

(** C19: A register write from the master to the slave over one serial line,
    with any chunking in both directions.  The master writes one frame, the same
    whatever it then receives; when the slave is sent the bytes of that frame it
    gives one answer; when the span is configured its store has exactly the
    written values, and when it is not it refuses with exception 2 and changes
    nothing; and when the bytes of that answer reach the master before its
    deadline it reports success, in the first case and in the second all the
    same. *)
Theorem rtu_write_end_to_end (st : ModbusRegisterStore) unitId address values :
  store_ok st -> byte_ok unitId -> request_ok (ReqWriteRegisters address values) ->
  address + Z.of_nat (length values) <= 65536 ->
  exists frame,
    (forall env, port_running env = true -> port_accepts env = true ->
       (MasterWriteHoldingRegisters env unitId address values).1 = [frame]) /\
    forall rx, concat rx = frame ->
    exists st' answer, slave_run unitId (mkSlave st []) rx = Ok (mkSlave st' [], [answer]) /\
      (request_defined st (ReqWriteRegisters address values) -> registers_written st st' address values) /\
      (~ request_defined st (ReqWriteRegisters address values) ->
         st' = st /\ answer = BuildModbusRtuFrame unitId [0x90; 2]) /\
      (forall env, port_running env = true -> port_accepts env = true -> concat (port_polls env) = answer ->
         is_ok (MasterWriteHoldingRegisters env unitId address values).2 = true).
Proof.
  intros Hst Hu Hr Hfit. set (r := ReqWriteRegisters address values) in *.
  exists (BuildModbusRtuFrame unitId (request_pdu r)). split.
  { intros env Hrun Hacc. by rewrite MasterWriteHoldingRegisters_eq, Transact_request by done. }
  intros rx Hrx.
  destruct (slave_run_request (B:=store_bank) unitId st r Hst Hu Hr rx 0) as (st' & reply & HH & Hs);
    [rewrite length_BuildModbusRtuFrame; lia|by rewrite drop_0|].
  exists st', (BuildModbusRtuFrame unitId reply). split; [exact Hs|].
  pose proof (Handle_good (B:=store_bank) st unitId _ Hst (request_pdu_bytes_ok r Hr)) as Hgood.
  rewrite HH in Hgood. destruct Hgood as (_ & Hb & _).
  destruct (Handle_serves (B:=store_bank) st unitId r Hst Hr) as [Hyes Hno]. rewrite HH in Hyes, Hno.
  assert (forall f rest env, reply = f :: rest -> unexpected_function reply 16 = false ->
    (f ∈ [5; 6; 15; 16] /\ length rest = 4%nat) \/ (negb (Z.land f 128 =? 0) = true /\ length rest = 1%nat) ->
    port_running env = true -> port_accepts env = true -> concat (port_polls env) = BuildModbusRtuFrame unitId reply ->
    is_ok (MasterWriteHoldingRegisters env unitId address values).2 = true) as Hmaster.
  { intros f rest env -> Hun Hshape Hrun Hacc Hpolls. rewrite MasterWriteHoldingRegisters_eq by done. fold r.
    rewrite Transact_request by done.
    pose proof (await_response_frame unitId 16 (f :: rest) Hu Hb ltac:(done) Hun
      (MasterExpected_short unitId f rest Hshape) (port_polls env) 0) as Hw.
    rewrite take_0 in Hw. simpl request_code. cbn [snd]. rewrite Hw; [done| |by rewrite drop_0].
    rewrite length_BuildModbusRtuFrame. lia. }
  assert (forall rest, reply = 16 :: rest -> length rest = 4%nat ->
    unexpected_function reply 16 = false /\ (16 ∈ [5; 6; 15; 16] /\ length rest = 4%nat)) as Hserved_shape.
  { intros rest -> Hl. split; [done|]. split; [set_solver|done]. }
  split_and!.
  - intros Hd. destruct (Hyes Hd) as (st2 & reply2 & E & _ & Hserved). simplify_eq. apply Hserved.
  - intros Hd. specialize (Hno Hd). by simplify_eq.
  - intros env Hrun Hacc Hpolls.
    destruct (is_ok (MasterWriteHoldingRegisters _ _ _ _).2) eqn:Eok; [done|].
    assert (~ request_defined st r) as Hd.
    { intros Hd. destruct (Hyes Hd) as (st2 & reply2 & E & _ & Hserved). simplify_eq.
      destruct Hserved as [_ ->].
      assert (exists rest, take 5 (request_pdu r) = 16 :: rest /\ length rest = 4%nat) as (rest & Et & Hrest).
      { destruct (request_pdu_head r) as (q & tail & -> & _). by eexists. }
      destruct (Hserved_shape rest Et Hrest) as [Hun Hshape].
      rewrite (Hmaster _ _ env Et Hun (or_introl Hshape) Hrun Hacc Hpolls) in Eok. done. }
    specialize (Hno Hd). simplify_eq.
    by rewrite (Hmaster 144 [2] env eq_refl eq_refl ltac:(by right) Hrun Hacc Hpolls) in Eok.
Qed.

Lemma rtu_write_end_to_end_witness :
  let env := mkPort true true [9; 9] [[1]; [144; 2; 205; 193]] in
  exists frame, (MasterWriteHoldingRegisters env 1 200 [7; 8]).1 = [frame] /\
  exists st' answer, slave_run 1 (mkSlave demo_store []) [take 3 frame; []; drop 3 frame] = Ok (mkSlave st' [], [answer]) /\
    (~ request_defined demo_store (ReqWriteRegisters 200 [7; 8]) ->
       st' = demo_store /\ answer = BuildModbusRtuFrame 1 [0x90; 2]) /\
    (concat (port_polls env) = answer -> is_ok (MasterWriteHoldingRegisters env 1 200 [7; 8]).2 = true).
Proof.
  intros env. destruct (rtu_write_end_to_end demo_store 1 200 [7; 8]) as (frame & Hsent & Hserve).
  - exact demo_store_ok.
  - split; [discriminate|reflexivity].
  - split; [split; vm_compute; [discriminate|reflexivity]|]. split; [simpl; lia|].
    repeat constructor; discriminate.
  - vm_compute. discriminate.
  - exists frame. split; [apply Hsent; reflexivity|].
    destruct (Hserve [take 3 frame; []; drop 3 frame]) as (st' & answer & Hrun & _ & Hno & Hok).
    { simpl. rewrite app_nil_r. apply take_drop. }
    exists st', answer. split; [exact Hrun|]. split; [exact Hno|]. apply Hok; reflexivity.
Defined.

(** The master never succeeds in reading this gateway's own RTU slave:
    whatever part of the slave's answer to a register or coil read arrives, in
    whatever pieces, [ReadRegisters] and [ReadBits] fail, because the answer is
    one byte shorter than the response they accept. *)
Theorem rtu_reads_of_own_slave_fail (st : ModbusRegisterStore) unitId address (n : nat) (second : bool)
  st' reply env k :
  store_ok st -> byte_ok unitId -> word_ok address ->
  (Handle st unitId (request_pdu (ReqReadRegisters second address n)) = Ok (st', reply) ->
   (0 < n <= 125)%nat ->
   concat (port_polls env) = take k (BuildModbusRtuFrame unitId reply) ->
   is_ok (MasterReadRegisters env unitId address (Z.of_nat n) second).2 = false) /\
  (Handle st unitId (request_pdu (ReqReadBits second address n)) = Ok (st', reply) ->
   (0 < n <= 2000)%nat ->
   concat (port_polls env) = take k (BuildModbusRtuFrame unitId reply) ->
   is_ok (MasterReadBits env unitId address (Z.of_nat n) second).2 = false).
Proof.
  intros Hst Hu Ha.
  assert (forall r response, request_ok r -> Handle st unitId (request_pdu r) = Ok (st', reply) ->
    concat (port_polls env) = take k (BuildModbusRtuFrame unitId reply) ->
    (Transact env unitId (request_pdu r)).2 = Ok response -> (length response <= length reply)%nat) as Hshort.
  { intros r response Hr HH Hc HT.
    pose proof (Handle_good (B:=store_bank) st unitId _ Hst (request_pdu_bytes_ok r Hr)) as Hg.
    rewrite HH in Hg. destruct Hg as (_ & Hb & _).
    unfold Transact in HT. destruct (negb (port_running env)); [done|].
    destruct (request_pdu r); [done|]. destruct (negb (port_accepts env)); [done|]. cbn [snd] in HT.
    apply await_response_inv in HT as (j & Hj & _).
    - simpl in Hj. rewrite Hc, take_take in Hj. apply (f_equal length) in Hj.
      rewrite length_take, !length_BuildModbusRtuFrame in Hj. lia.
    - simpl. rewrite Hc. apply Forall_take. by apply BuildModbusRtuFrame_bytes_ok. }
  split; intros HH Hn Hc.
  - assert (request_ok (ReqReadRegisters second address n)) as Hr by done.
    unfold MasterReadRegisters. destruct (_ || _); [done|].
    rewrite MasterReadRegisters_request by done.
    unfold with_response. cbn [snd].
    destruct (Transact env unitId _).2 as [response| |] eqn:HT; [|done|done]. simpl.
    pose proof (Hshort _ _ Hr HH Hc HT) as Hlen.
    destruct (_ <? 2)%nat eqn:E2; reflect_bools; [done|].
    destruct (read_at response 1) as [b| |]; simpl; [|done|done].
    destruct (_ || _) eqn:G; [done|]. reflect_bools. exfalso.
    destruct (Handle_serves (B:=store_bank) st unitId _ Hst Hr) as [Hyes Hno]. rewrite HH in Hyes, Hno.
    assert (~ request_defined st (ReqReadRegisters second address n)) as Hnd.
    { intros Hd. destruct (Hyes Hd) as (? & ? & E & _ & Hs). simplify_eq. destruct Hs as (_ & ws & Hl & _ & ->).
      rewrite length_put_words in Hlen. simpl in Hlen. lia. }
    specialize (Hno Hnd). simplify_eq. simpl in Hlen. lia.
  - assert (request_ok (ReqReadBits second address n)) as Hr by done.
    unfold MasterReadBits. destruct (_ || _); [done|].
    rewrite MasterReadBits_request by done.
    unfold with_response. cbn [snd].
    destruct (Transact env unitId _).2 as [response| |] eqn:HT; [|done|done]. simpl.
    pose proof (Hshort _ _ Hr HH Hc HT) as Hlen.
    destruct (_ <? 2)%nat eqn:E2; reflect_bools; [done|].
    destruct (read_at response 1) as [b| |]; simpl; [|done|done].
    destruct (_ || _) eqn:G; [done|]. reflect_bools. exfalso.
    rewrite bytes_for_Z in *. pose proof (bytes_for_le n) as Hnb.
    destruct (Handle_serves (B:=store_bank) st unitId _ Hst Hr) as [Hyes Hno]. rewrite HH in Hyes, Hno.
    assert (~ request_defined st (ReqReadBits second address n)) as Hnd.
    { intros Hd. destruct (Hyes Hd) as (? & ? & E & _ & Hs). simplify_eq. destruct Hs as (_ & vs & Hl & _ & ->).
      simpl in Hlen. rewrite length_pack_bits in Hlen. lia. }
    specialize (Hno Hnd). simplify_eq. simpl in Hlen. lia.
Qed.

Lemma rtu_reads_of_own_slave_fail_witness :
  is_ok (MasterReadRegisters (mkPort true true [] [BuildModbusRtuFrame 1 [4; 0; 0; 0; 0]]) 1 12 2 false).2 = false.
Proof.
  apply (proj1 (rtu_reads_of_own_slave_fail demo_store 1 12 2 false demo_store [4; 0; 0; 0; 0]
    (mkPort true true [] [BuildModbusRtuFrame 1 [4; 0; 0; 0; 0]]) 100 demo_store_ok
    ltac:(split; [discriminate|reflexivity]) ltac:(split; [discriminate|reflexivity]))).
  - reflexivity.
  - lia.
  - reflexivity.
Defined.
