(* ===== verification/TcpSocket.v ===== *)
(** * The blocking surface of the TCP socket (src/TcpSocket.cpp)

    The operating system is the environment: [incoming] is what successive
    waits on the socket see (nothing before the time-out, the peer gone, or a
    run of bytes), [send_results] whether each [Send] could push its whole
    frame.  [sent] records the frames handed over.  [Receive] returns what one
    [recv] yields; the callers loop over it with [ReadExact]. *)

From S2P Require Import Prelude Words.

(** ** State and operations *)

Inductive recv_event :=
| NotReady                  (** [select] timed out or failed *)
| PeerGone                  (** [recv] returned 0 or an error *)
| Data (bytes : list Z).    (** bytes ready to be read; empty means end of stream *)

Record TcpSocket := mkSocket {
  sock_open : bool;
  incoming : list recv_event;
  send_results : list bool;
  sent : list (list Z)
}.

Definition IsOpen (s : TcpSocket) : bool := sock_open s.

Definition Close (s : TcpSocket) : TcpSocket :=
  mkSocket false (incoming s) (send_results s) (sent s).

Definition Send (s : TcpSocket) (data : list Z) : bool * TcpSocket :=
  if negb (IsOpen s) then (false, s)
  else match send_results s with
  | false :: rest => (false, Close (mkSocket true (incoming s) rest (sent s)))
  | true :: rest => (true, mkSocket true (incoming s) rest (sent s ++ [data]))
  | [] => (true, mkSocket true (incoming s) [] (sent s ++ [data]))
  end.

Definition push_back_data (bytes : list Z) (events : list recv_event) : list recv_event :=
  match bytes with [] => events | _ => Data bytes :: events end.

Definition Receive (s : TcpSocket) (maxBytes : nat) : option (list Z) * TcpSocket :=
  if negb (IsOpen s) then (None, s)
  else match incoming s with
  | [] => (None, s)
  | NotReady :: rest => (None, mkSocket true rest (send_results s) (sent s))
  | PeerGone :: rest | Data [] :: rest => (None, Close (mkSocket true rest (send_results s) (sent s)))
  | Data bytes :: rest =>
      (Some (take maxBytes bytes),
       mkSocket true (push_back_data (drop maxBytes bytes) rest) (send_results s) (sent s))
  end.

(** [ReadExact] of src/ModbusClient.cpp.  A turn that gets bytes gets at least
    one, so [count] turns are enough; a [NotReady] event also stands for the
    overall deadline passing between two turns. *)
Fixpoint ReadExactLoop (fuel : nat) (s : TcpSocket) (count : nat) (out : list Z)
  : option (list Z) * TcpSocket :=
  if (count <=? length out)%nat then (Some out, s)
  else match fuel with
  | O => (None, s)
  | Datatypes.S fuel' =>
      let '(chunk, s') := Receive s (count - length out) in
      match chunk with
      | None => (None, s')
      | Some bytes => ReadExactLoop fuel' s' count (out ++ bytes)
      end
  end.

Definition ReadExact (s : TcpSocket) (count : nat) : option (list Z) * TcpSocket :=
  ReadExactLoop count s count [].

(** ** Reading from a stream cut into arbitrary pieces *)

(** The bytes the socket will deliver when every event is a non-empty run. *)
Definition event_bytes (e : recv_event) : list Z := match e with Data b => b | _ => [] end.

Definition delivers (s : TcpSocket) (stream : list Z) : Prop :=
  sock_open s = true /\ Forall (fun e => exists b bs, e = Data (b :: bs)) (incoming s) /\
  concat (map event_bytes (incoming s)) = stream.

Lemma push_back_data_stream b rest : 
  Forall (fun e => exists b bs, e = Data (b :: bs)) rest ->
  Forall (fun e => exists b bs, e = Data (b :: bs)) (push_back_data b rest) /\
  concat (map event_bytes (push_back_data b rest)) = b ++ concat (map event_bytes rest).
Proof. destruct b as [|x b]; simpl; [done|]. intros H. split; [constructor; eauto|done]. Qed.

Lemma Receive_delivers s stream n :
  delivers s stream -> stream <> [] -> (0 < n)%nat ->
  exists got s', Receive s n = (Some got, s') /\ (0 < length got <= n)%nat /\
    exists rest, stream = got ++ rest /\ delivers s' rest /\
      sent s' = sent s /\ send_results s' = send_results s.
Proof.
  intros (Ho & Hd & <-) Hne Hn. unfold Receive, IsOpen. rewrite Ho. simpl.
  destruct (incoming s) as [|e rest] eqn:E; [done|].
  inversion Hd as [|? ? (b & bs & ->) Hrest]; subst. simpl.
  destruct n as [|n]; [lia|]. simpl.
  do 2 eexists. split; [done|]. split; [simpl; rewrite length_take; lia|].
  exists (drop n bs ++ concat (map event_bytes rest)). split.
  { simpl. by rewrite app_assoc, take_drop. }
  split; [|done]. destruct (push_back_data_stream (drop n bs) rest Hrest) as [H1 H2]. done.
Qed.

Lemma ReadExactLoop_delivers fuel : forall s stream count out,
  delivers s stream -> (count <= length out + length stream)%nat -> (length out <= count)%nat ->
  (count - length out <= fuel)%nat ->
  exists s', ReadExactLoop fuel s count out = (Some (out ++ take (count - length out) stream), s') /\
    delivers s' (drop (count - length out) stream) /\ sent s' = sent s /\ send_results s' = send_results s.
Proof.
  induction fuel as [|fuel IH]; intros s stream count out Hs Hle Hout Hf; simpl.
  - replace (count - length out)%nat with 0%nat by lia. rewrite (proj2 (Nat.leb_le _ _)) by lia.
    rewrite take_0, drop_0, app_nil_r. eauto.
  - destruct (count <=? length out)%nat eqn:E; reflect_bools.
    { replace (count - length out)%nat with 0%nat by lia. rewrite take_0, drop_0, app_nil_r. eauto. }
    destruct (Receive_delivers s stream (count - length out)) as (got & s1 & -> & Hgot & rest & -> & Hs1 & Hse & Hsr);
      [done|intros ->; simpl in *; lia|lia|].
    rewrite length_app in Hle.
    destruct (IH s1 rest count (out ++ got)) as (s2 & -> & Hd & ? & ?);
      [done|rewrite length_app; lia..|].
    exists s2. rewrite length_app in *.
    replace (count - length out)%nat with (length got + (count - (length out + length got)))%nat by lia.
    rewrite take_app_add, drop_app_add, <- app_assoc.
    split; [done|]. split; [done|]. split; congruence.
Qed.

Lemma ReadExact_delivers s stream count :
  delivers s stream -> (count <= length stream)%nat ->
  exists s', ReadExact s count = (Some (take count stream), s') /\ delivers s' (drop count stream) /\
    sent s' = sent s /\ send_results s' = send_results s.
Proof.
  intros Hs Hl. destruct (ReadExactLoop_delivers count s stream count []) as (s' & H & Hd & ?);
    [done|simpl; lia..|]. simpl in H. rewrite Nat.sub_0_r in *. eauto.
Qed.

(** The loop always reads exactly [count] bytes or fails: [count] turns suffice. *)
Lemma ReadExactLoop_length fuel : forall s count out bytes s',
  (length out <= count)%nat ->
  ReadExactLoop fuel s count out = (Some bytes, s') -> length bytes = count.
Proof.
  induction fuel as [|fuel IH]; intros s count out bytes s' Hout; simpl;
    destruct (count <=? length out)%nat eqn:E; reflect_bools; intros H; simplify_eq; try lia; try done.
  destruct (Receive s (count - length out)) as [[got|] s1] eqn:R; [|done].
  eapply IH; [|exact H]. rewrite length_app.
  unfold Receive in R. destruct (negb (IsOpen s)); [done|].
  destruct (incoming s) as [|[| |[|b bs]] rest]; simplify_eq. rewrite length_take. lia.
Qed.

Lemma ReadExact_length s count bytes s' :
  ReadExact s count = (Some bytes, s') -> length bytes = count.
Proof. apply ReadExactLoop_length. simpl. lia. Qed.

(** The fuel of [ReadExact] never runs out: any larger amount gives the same result. *)
Lemma ReadExactLoop_fuel fuel fuel' : forall s count out,
  (count - length out <= fuel)%nat -> (count - length out <= fuel')%nat ->
  ReadExactLoop fuel s count out = ReadExactLoop fuel' s count out.
Proof.
  revert fuel'. induction fuel as [|fuel IH]; intros fuel' s count out H1 H2.
  - destruct fuel'; simpl; [done|]. by rewrite (proj2 (Nat.leb_le _ _)) by lia.
  - destruct fuel' as [|fuel']; simpl.
    { by rewrite (proj2 (Nat.leb_le _ _)) by lia. }
    destruct (count <=? length out)%nat eqn:E; reflect_bools; [done|].
    destruct (Receive s (count - length out)) as [[got|] s1] eqn:R; [|done].
    assert (1 <= length got)%nat.
    { unfold Receive in R. destruct (negb (IsOpen s)); [done|].
      destruct (incoming s) as [|[| |[|b bs]] rest]; simplify_eq. rewrite length_take. simpl. lia. }
    apply IH; rewrite length_app; lia.
Qed.
