(* ===== verification/Mbap.v ===== *)
(** * MBAP frames

    The Modbus TCP frame both ends exchange, as the specification states it:
    the client (src/ModbusClient.cpp) and the slave (src/ModbusTcpSlave.cpp)
    each build and take apart their own copy. *)

From S2P Require Import Prelude Words.

(** A frame of the protocol: the transaction id, protocol 0, the length and
    the unit id, then the PDU. *)
Definition mbap_frame (txId unit : Z) (pdu : list Z) : list Z :=
  PutU16 (PutU16 (PutU16 [] txId) 0) (1 + Z.of_nat (length pdu)) ++ unit :: pdu.

Lemma mbap_frame_parse txId unit pdu : word_ok txId -> (1 <= length pdu <= 252)%nat ->
  let header := take 7 (mbap_frame txId unit pdu) in
  length (mbap_frame txId unit pdu) = (7 + length pdu)%nat /\
  drop 7 (mbap_frame txId unit pdu) = pdu /\
  GetU16 header 0 = Ok txId /\ GetU16 header 2 = Ok 0 /\
  GetU16 header 4 = Ok (1 + Z.of_nat (length pdu)).
Proof.
  intros Ht Hl. set (n := 1 + Z.of_nat (length pdu)). assert (word_ok n) as Hn by (unfold word_ok; lia).
  unfold mbap_frame. fold n. split_and!; try done.
  - apply (GetU16_put [] txId (PutU16 (PutU16 [] 0) n ++ [unit])); [done|done].
  - apply (GetU16_put (PutU16 (PutU16 [] txId) 0) n [unit]); done.
Qed.

