(* ===== verification/ModbusClient.v ===== *)
(** * The Modbus TCP client (src/ModbusClient.cpp)

    [Transact] sends an MBAP frame and validates the answer; the [Do...]
    routines build the requests and decode the answers; [ModbusClient] adds
    the connection state: a transaction counter, the [connected_] flag, and
    the counter of consecutive transport failures that closes the link.
    Logging is left out.  [Transact] also reports whether the peer answered
    with a complete frame ([responded]), which is what the failure counter
    is fed with. *)

From stdpp Require Import relations.
From S2P Require Import Prelude Words Text RegisterStore ModbusProtocol TcpSocket Mbap.


(** ** One transaction *)

Definition kUnitId : Z := 0xFF.
Definition kReadCoils : Z := 0x01.
Definition kReadDiscreteInputs : Z := 0x02.
Definition kReadHoldingRegisters : Z := 0x03.
Definition kReadInputRegisters : Z := 0x04.
Definition kWriteSingleCoil : Z := 0x05.
Definition kWriteSingleRegister : Z := 0x06.
Definition kWriteMultipleCoils : Z := 0x0F.
Definition kWriteMultipleRegisters : Z := 0x10.

(** The result of a transaction and the state it leaves. *)
Record xact (A : Type) := mkXact {
  x_socket : TcpSocket;
  x_tx : Z;
  x_responded : bool;
  x_result : res A
}.
Arguments mkXact {A}.
Arguments x_socket {A}.
Arguments x_tx {A}.
Arguments x_responded {A}.
Arguments x_result {A}.

Definition exception_message (exceptionCode : Z) : string :=
  "Modbus exception 0x" ++ to_string exceptionCode ++
  (if exceptionCode =? 0x01 then
     " (illegal function - the PLC does not support this function code)"
   else if exceptionCode =? 0x02 then " (illegal data address - no such address on this PLC)"
   else if exceptionCode =? 0x03 then " (illegal data value)"
   else if exceptionCode =? 0x04 then " (device failure)"
   else "").

(** The request frame: transaction id, protocol 0, length, unit id, PDU. *)
Definition mbap_request (txId functionCode : Z) (data : list Z) : list Z :=
  PutU16 (PutU16 (PutU16 [] txId) 0) (to_u16 (1 + 1 + Z.of_nat (length data)))
  ++ [kUnitId; functionCode] ++ data.

(** The checks on the body of the answer, once it is complete. *)
Definition check_body (functionCode : Z) (body : list Z) : res (list Z) :=
  respFunctionCode ← read_at body 0;
  if respFunctionCode =? Z.lor functionCode 128 then
    exceptionCode ← (if (1 <? length body)%nat then read_at body 1 else Ok 0);
    Err (exception_message exceptionCode)
  else if negb (respFunctionCode =? functionCode) then Err "unexpected function code in response"
  else Ok (drop 1 body).

Definition Transact (socket : TcpSocket) (transactionId functionCode : Z) (data : list Z)
  : xact (list Z) :=
  if negb (IsOpen socket) then mkXact socket transactionId false (Err "not connected")
  else
    let txId := to_u16 (transactionId + 1) in
    let '(ok, s1) := Send socket (mbap_request txId functionCode data) in
    if negb ok then mkXact s1 txId false (Err "send failed")
    else match ReadExact s1 7 with
    | (None, s2) => mkXact s2 txId false (Err "no response (timeout)")
    | (Some header, s2) =>
        match GetU16 header 0, GetU16 header 2, GetU16 header 4 with
        | Ok respTxId, Ok protocolId, Ok len =>
            if negb (respTxId =? txId) then mkXact s2 txId false (Err "transaction ID mismatch")
            else if negb (protocolId =? 0)
            then mkXact s2 txId false (Err "invalid protocol ID in response")
            else if (len <? 2) || (253 <? len)
            then mkXact s2 txId false (Err "invalid length in response")
            else match ReadExact s2 (Z.to_nat (len - 1)) with
            | (None, s3) => mkXact s3 txId false (Err "incomplete response")
            | (Some body, s3) => mkXact s3 txId true (check_body functionCode body)
            end
        | _, _, _ => mkXact s2 txId false Fault
        end
    end.

(** ** The request routines *)

(** Decode the answer of a transaction. *)
Definition x_map {A B} (f : A -> res B) (x : xact A) : xact B :=
  mkXact (x_socket x) (x_tx x) (x_responded x) (r ← x_result x; f r).

(** [if (byteIndex >= response.size()) break;] stops the loop early. *)
Fixpoint decode_bits (response : list Z) (i n : nat) : list bool :=
  match n with
  | O => []
  | S n' =>
      match response !! (1 + i / 8)%nat with
      | None => []
      | Some byte =>
          negb (Z.land (Z.shiftr byte (Z.of_nat (i mod 8))) 1 =? 0) :: decode_bits response (S i) n'
      end
  end.

Definition DoReadBits (socket : TcpSocket) (transactionId functionCode address count : Z)
  : xact (list bool) :=
  if count <=? 0 then mkXact socket transactionId false (Err "")
  else
    let data := PutU16 (PutU16 [] (to_u16 address)) (to_u16 count) in
    x_map (fun response =>
             match response with
             | [] => Err "empty response"
             | _ => Ok (decode_bits response 0 (Z.to_nat count))
             end)
      (Transact socket transactionId functionCode data).

Definition DoWriteCoil (socket : TcpSocket) (transactionId address : Z) (value : bool) : xact unit :=
  let data := PutU16 (PutU16 [] (to_u16 address)) (if value then 0xFF00 else 0x0000) in
  x_map (fun _ => Ok tt) (Transact socket transactionId kWriteSingleCoil data).

Definition DoWriteCoils (socket : TcpSocket) (transactionId address : Z) (values : list bool)
  : xact unit :=
  match values with
  | [] => mkXact socket transactionId false (Err "")
  | _ =>
      let count := Z.of_nat (length values) in
      let byteCount := (count + 7) / 8 in
      let data := PutU16 (PutU16 [] (to_u16 address)) (to_u16 count) ++ [to_u8 byteCount]
                  ++ pack_bits values (Z.to_nat byteCount) in
      x_map (fun _ => Ok tt) (Transact socket transactionId kWriteMultipleCoils data)
  end.

(** [if (offset + 1 >= response.size()) break;] *)
Fixpoint decode_words (response : list Z) (offset n : nat) : list Z :=
  match n with
  | O => []
  | S n' =>
      match GetU16 response offset with
      | Ok w => w :: decode_words response (offset + 2) n'
      | _ => []
      end
  end.

Definition DoReadRegisters (socket : TcpSocket) (transactionId functionCode address count : Z)
  : xact (list Z) :=
  if count <=? 0 then mkXact socket transactionId false (Err "")
  else
    let data := PutU16 (PutU16 [] (to_u16 address)) (to_u16 count) in
    x_map (fun response =>
             match response with
             | [] => Err "empty response"
             | byteCount :: _ => Ok (decode_words response 1 (Z.to_nat (byteCount / 2)))
             end)
      (Transact socket transactionId functionCode data).

Definition DoWriteHoldingRegister (socket : TcpSocket) (transactionId address value : Z) : xact unit :=
  let data := PutU16 (PutU16 [] (to_u16 address)) value in
  x_map (fun _ => Ok tt) (Transact socket transactionId kWriteSingleRegister data).

Definition DoWriteHoldingRegisters (socket : TcpSocket) (transactionId address : Z) (values : list Z)
  : xact unit :=
  match values with
  | [] => mkXact socket transactionId false (Err "")
  | _ =>
      let count := Z.of_nat (length values) in
      let data := put_words (PutU16 (PutU16 [] (to_u16 address)) (to_u16 count) ++ [to_u8 (count * 2)]) values in
      x_map (fun _ => Ok tt) (Transact socket transactionId kWriteMultipleRegisters data)
  end.

(** ** The client object *)

Record ModbusClient := mkClient {
  enabled : bool;              (** [config_.enabled] *)
  socket_ : TcpSocket;
  transactionId_ : Z;
  connected_ : bool;
  consecutiveFailures_ : Z;
  connectFailureCount_ : Z
}.

Definition closed_socket : TcpSocket := mkSocket false [] [] [].
Definition new_client (cfg_enabled : bool) : ModbusClient :=
  mkClient cfg_enabled closed_socket 0 false 0 0.

Definition kFailureThreshold : Z := 3.

Definition NoteTransactionResultUnlocked (c : ModbusClient) (ok : bool) : ModbusClient :=
  if ok then mkClient (enabled c) (socket_ c) (transactionId_ c) (connected_ c) 0 (connectFailureCount_ c)
  else
    let failures := consecutiveFailures_ c + 1 in
    if failures <? kFailureThreshold
    then mkClient (enabled c) (socket_ c) (transactionId_ c) (connected_ c) failures (connectFailureCount_ c)
    else if connected_ c
    then mkClient (enabled c) (Close (socket_ c)) (transactionId_ c) false 0 (connectFailureCount_ c)
    else mkClient (enabled c) (socket_ c) (transactionId_ c) (connected_ c) 0 (connectFailureCount_ c).

Definition Configure (c : ModbusClient) (cfg_enabled : bool) : ModbusClient :=
  if connected_ c
  then mkClient cfg_enabled (Close (socket_ c)) (transactionId_ c) false (consecutiveFailures_ c)
         (connectFailureCount_ c)
  else mkClient cfg_enabled (socket_ c) (transactionId_ c) (connected_ c) (consecutiveFailures_ c)
         (connectFailureCount_ c).

Definition IsConnected (c : ModbusClient) : bool := connected_ c && IsOpen (socket_ c).

(** [dial] is the outcome of [socket_.Connect]: the new socket, or a failure. *)
Definition Connect (c : ModbusClient) (dial : option TcpSocket) : bool * ModbusClient :=
  if negb (enabled c) then (false, c)
  else if connected_ c && IsOpen (socket_ c) then (true, c)
  else match dial with
  | None => (false, mkClient (enabled c) (Close (socket_ c)) (transactionId_ c) false
                      (consecutiveFailures_ c) (connectFailureCount_ c + 1))
  | Some s => (true, mkClient (enabled c) s 0 true 0 0)
  end.

Definition Disconnect (c : ModbusClient) : ModbusClient :=
  mkClient (enabled c) (Close (socket_ c)) (transactionId_ c) false (consecutiveFailures_ c)
    (connectFailureCount_ c).

(** The common tail of the locked operations: run the transaction on the
    client's socket, then feed the failure counter. *)
Definition finish {A} (c : ModbusClient) (x : xact A) : option A * ModbusClient :=
  let c' := mkClient (enabled c) (x_socket x) (x_tx x) (connected_ c) (consecutiveFailures_ c)
              (connectFailureCount_ c) in
  match x_result x with
  | Ok a => (Some a, NoteTransactionResultUnlocked c' true)
  | _ => (None, NoteTransactionResultUnlocked c' (x_responded x))
  end.

Definition ReadCoils (c : ModbusClient) (address count : Z) : option (list bool) * ModbusClient :=
  if negb (connected_ c) || (count <=? 0) then (None, c)
  else finish c (DoReadBits (socket_ c) (transactionId_ c) kReadCoils address count).

Definition ReadDiscreteInputs (c : ModbusClient) (address count : Z)
  : option (list bool) * ModbusClient :=
  if negb (connected_ c) || (count <=? 0) then (None, c)
  else finish c (DoReadBits (socket_ c) (transactionId_ c) kReadDiscreteInputs address count).

Definition first_of {A} (r : option (list A) * ModbusClient) : option A * ModbusClient :=
  (match r.1 with Some (v :: _) => Some v | _ => None end, r.2).

Definition ReadCoil (c : ModbusClient) (address : Z) := first_of (ReadCoils c address 1).
Definition ReadDiscreteInput (c : ModbusClient) (address : Z) := first_of (ReadDiscreteInputs c address 1).

Definition WriteCoil (c : ModbusClient) (address : Z) (value : bool) : option unit * ModbusClient :=
  if negb (connected_ c) then (None, c)
  else finish c (DoWriteCoil (socket_ c) (transactionId_ c) address value).

Definition WriteCoils (c : ModbusClient) (address : Z) (values : list bool) : option unit * ModbusClient :=
  if negb (connected_ c) || (length values =? 0)%nat then (None, c)
  else finish c (DoWriteCoils (socket_ c) (transactionId_ c) address values).

Definition ReadHoldingRegisters (c : ModbusClient) (address count : Z) : option (list Z) * ModbusClient :=
  if negb (connected_ c) || (count <=? 0) then (None, c)
  else finish c (DoReadRegisters (socket_ c) (transactionId_ c) kReadHoldingRegisters address count).

Definition ReadInputRegisters (c : ModbusClient) (address count : Z) : option (list Z) * ModbusClient :=
  if negb (connected_ c) || (count <=? 0) then (None, c)
  else finish c (DoReadRegisters (socket_ c) (transactionId_ c) kReadInputRegisters address count).

Definition ReadHoldingRegister (c : ModbusClient) (address : Z) := first_of (ReadHoldingRegisters c address 1).
Definition ReadInputRegister (c : ModbusClient) (address : Z) := first_of (ReadInputRegisters c address 1).

Definition WriteHoldingRegister (c : ModbusClient) (address value : Z) : option unit * ModbusClient :=
  if negb (connected_ c) then (None, c)
  else finish c (DoWriteHoldingRegister (socket_ c) (transactionId_ c) address value).

Definition WriteHoldingRegisters (c : ModbusClient) (address : Z) (values : list Z)
  : option unit * ModbusClient :=
  if negb (connected_ c) || (length values =? 0)%nat then (None, c)
  else finish c (DoWriteHoldingRegisters (socket_ c) (transactionId_ c) address values).

(** ** The one-shot variants: connect, one transaction, close *)

Definition once {A} (dial : option TcpSocket) (job : TcpSocket -> xact A) : res A :=
  match dial with
  | None => Err "connect failed"
  | Some s => x_result (job s)
  end.

Definition ReadBitOnce (dial : option TcpSocket) (functionCode address : Z) : res bool :=
  match once dial (fun s => DoReadBits s 0 functionCode address 1) with
  | Ok (v :: _) => Ok v
  | Ok [] => Err ""
  | Err e => Err e
  | Fault => Fault
  end.

Definition ReadCoilOnce (dial : option TcpSocket) (address : Z) := ReadBitOnce dial kReadCoils address.
Definition ReadDiscreteInputOnce (dial : option TcpSocket) (address : Z) :=
  ReadBitOnce dial kReadDiscreteInputs address.

Definition WriteCoilOnce (dial : option TcpSocket) (address : Z) (value : bool) : res unit :=
  once dial (fun s => DoWriteCoil s 0 address value).

Definition ReadBitsOnce (dial : option TcpSocket) (address count : Z) (discreteInputs : bool)
  : res (list bool) :=
  if (count <=? 0) || (2000 <? count) then Err "count must be 1..2000"
  else once dial (fun s => DoReadBits s 0 (if discreteInputs then kReadDiscreteInputs else kReadCoils)
                             address count).

Definition ReadHoldingRegistersOnce (dial : option TcpSocket) (address count : Z) : res (list Z) :=
  if (count <=? 0) || (125 <? count) then Err "count must be 1..125"
  else once dial (fun s => DoReadRegisters s 0 kReadHoldingRegisters address count).

Definition ReadInputRegistersOnce (dial : option TcpSocket) (address count : Z) : res (list Z) :=
  if (count <=? 0) || (125 <? count) then Err "count must be 1..125"
  else once dial (fun s => DoReadRegisters s 0 kReadInputRegisters address count).

Definition WriteHoldingRegisterOnce (dial : option TcpSocket) (address value : Z) : res unit :=
  once dial (fun s => DoWriteHoldingRegister s 0 address value).

(** ** The locked operations as a step relation *)

Inductive client_step : ModbusClient -> ModbusClient -> Prop :=
| step_config c b : client_step c (Configure c b)
| step_connect c dial : client_step c (Connect c dial).2
| step_disconnect c : client_step c (Disconnect c)
| step_read_coils c a n : client_step c (ReadCoils c a n).2
| step_read_inputs c a n : client_step c (ReadDiscreteInputs c a n).2
| step_write_coil c a v : client_step c (WriteCoil c a v).2
| step_write_coils c a vs : client_step c (WriteCoils c a vs).2
| step_read_holding c a n : client_step c (ReadHoldingRegisters c a n).2
| step_read_input_registers c a n : client_step c (ReadInputRegisters c a n).2
| step_write_register c a v : client_step c (WriteHoldingRegister c a v).2
| step_write_holding c a ws : client_step c (WriteHoldingRegisters c a ws).2.

(** ** A transaction against a peer that answers *)

(** The socket accepts a frame and will deliver [stream], in any pieces. *)
Definition ready (s : TcpSocket) (stream : list Z) : Prop :=
  delivers s stream /\ hd true (send_results s) = true.

Lemma Send_ready s stream data : ready s stream ->
  exists s', Send s data = (true, s') /\ delivers s' stream /\ sent s' = sent s ++ [data].
Proof.
  intros [(Ho & Hd & Hs) Hr]. unfold Send, IsOpen. rewrite Ho. simpl.
  destruct (send_results s) as [|[] rest]; simpl in Hr; try done; eexists; done.
Qed.

Lemma Transact_conforming s t fc data unit pdu more :
  (1 <= length pdu <= 252)%nat ->
  let tx := to_u16 (t + 1) in
  ready s (mbap_frame tx unit pdu ++ more) ->
  let x := Transact s t fc data in
  x_tx x = tx /\ x_responded x = true /\ x_result x = check_body fc pdu /\
  delivers (x_socket x) more /\ sent (x_socket x) = sent s ++ [mbap_request tx fc data].
Proof.
  intros Hl tx Hready x. subst x. unfold Transact, IsOpen. destruct (Hready) as [Hd Hr].
  rewrite (proj1 Hd). cbn [negb]. fold tx.
  destruct (Send_ready s _ (mbap_request tx fc data) Hready) as (s1 & -> & Hd1 & Hs1). cbn [negb].
  destruct (mbap_frame_parse tx unit pdu (to_u16_range _) Hl) as (Hlen & Hdrop & H0 & H2 & H4).
  destruct (ReadExact_delivers s1 _ 7 Hd1) as (s2 & -> & Hd2 & Hs2 & _).
  { rewrite length_app, Hlen. lia. }
  rewrite take_app_le, H0, H2, H4 by lia. rewrite Z.eqb_refl. cbn [negb].
  rewrite Z.eqb_refl. cbn [negb].
  destruct (_ || _) eqn:G; [exfalso; break_guards; lia|].
  rewrite drop_app_le, Hdrop in Hd2 by lia.
  destruct (ReadExact_delivers s2 _ (Z.to_nat (1 + Z.of_nat (length pdu) - 1)) Hd2)
    as (s3 & -> & Hd3 & Hs3 & _); [rewrite length_app; lia|].
  replace (Z.to_nat (1 + Z.of_nat (length pdu) - 1)) with (length pdu) in * by lia.
  rewrite take_app_length. rewrite drop_app_length in Hd3. simpl. split_and!; try done. congruence.
Qed.

Lemma check_body_ok fc rest : 0 <= fc < 128 -> check_body fc (fc :: rest) = Ok rest.
Proof.
  intros Hfc. unfold check_body. simpl.
  assert ((fc =? Z.lor fc 128) = false) as ->.
  { apply Z.eqb_neq. intros H. apply (f_equal (fun z => Z.testbit z 7)) in H.
    rewrite Z.lor_spec, (testbit_high 7 fc) in H by lia. done. }
  by rewrite Z.eqb_refl, drop_0.
Qed.

Lemma check_body_exception fc code :
  check_body fc [Z.lor fc 128; code] = Err (exception_message code).
Proof. unfold check_body. simpl. by rewrite Z.eqb_refl. Qed.

(** ** Decoding what was packed *)

Lemma decode_bits_get response n : forall i bs,
  get_bits_from response 1 i n = Ok bs -> decode_bits response i n = bs.
Proof.
  induction n as [|n IH]; intros i bs H; simpl in *; [by simplify_eq|].
  inv_bind H. inv_bind H. simplify_eq. unfold get_bit in Hm. inv_bind Hm. simplify_eq.
  apply read_at_ok_iff in Hm1. simpl in Hm1. rewrite Hm1. f_equal. by apply IH.
Qed.

Lemma decode_words_get response n : forall off ws,
  get_words response off n = Ok ws -> decode_words response off n = ws.
Proof.
  induction n as [|n IH]; intros off ws H; simpl in *; [by simplify_eq|].
  inv_bind H. inv_bind H. simplify_eq. f_equal. apply IH.
  by replace (off + 2)%nat with (S (S off)) by lia.
Qed.

(** The PDU a conforming server answers to a read. *)
Definition read_bits_reply (fc : Z) (vs : list bool) : list Z :=
  fc :: Z.of_nat (bytes_for (length vs)) :: pack_bits vs (bytes_for (length vs)).
Definition read_registers_reply (fc : Z) (ws : list Z) : list Z :=
  fc :: put_words [Z.of_nat (2 * length ws)] ws.

Lemma DoReadBits_conforming s t fc a (vs : list bool) unit more :
  0 <= fc < 128 -> (0 < length vs <= 2000)%nat ->
  ready s (mbap_frame (to_u16 (t + 1)) unit (read_bits_reply fc vs) ++ more) ->
  let x := DoReadBits s t fc a (Z.of_nat (length vs)) in
  x_result x = Ok vs /\ x_responded x = true /\ delivers (x_socket x) more.
Proof.
  intros Hfc Hl Hr. unfold DoReadBits. rewrite (proj2 (Z.leb_gt _ _)) by lia.
  destruct (Transact_conforming s t fc (PutU16 (PutU16 [] (to_u16 a)) (to_u16 (Z.of_nat (length vs))))
    unit (read_bits_reply fc vs) more) as (_ & Hresp & Hres & Hd & _); [|done|].
  { unfold read_bits_reply. simpl. rewrite length_pack_bits. pose proof (bytes_for_le (length vs)). lia. }
  simpl. rewrite Hres, Hresp. unfold read_bits_reply. rewrite check_body_ok by done. simpl.
  split_and!; [|done|done]. f_equal. apply decode_bits_get. rewrite Nat2Z.id.
  pose proof (bytes_for_le (length vs)).
  pose proof (get_bits_pack [Z.of_nat (bytes_for (length vs))] vs [] (bytes_for (length vs)) 1) as H1.
  rewrite app_nil_r in H1. apply H1; [done|lia].
Qed.

Lemma DoReadRegisters_conforming s t fc a (ws : list Z) unit more :
  0 <= fc < 128 -> (0 < length ws <= 125)%nat -> words_ok ws ->
  ready s (mbap_frame (to_u16 (t + 1)) unit (read_registers_reply fc ws) ++ more) ->
  let x := DoReadRegisters s t fc a (Z.of_nat (length ws)) in
  x_result x = Ok ws /\ x_responded x = true /\ delivers (x_socket x) more.
Proof.
  intros Hfc Hl Hw Hr. unfold DoReadRegisters. rewrite (proj2 (Z.leb_gt _ _)) by lia.
  destruct (Transact_conforming s t fc (PutU16 (PutU16 [] (to_u16 a)) (to_u16 (Z.of_nat (length ws))))
    unit (read_registers_reply fc ws) more) as (_ & Hresp & Hres & Hd & _); [|done|].
  { unfold read_registers_reply. simpl. rewrite length_put_words. simpl. lia. }
  simpl. rewrite Hres, Hresp. unfold read_registers_reply. rewrite check_body_ok by done.
  rewrite put_words_app. cbn [mbind res_bind app].
  split_and!; [|done|done]. f_equal. apply decode_words_get.
  replace (Z.to_nat (Z.of_nat (2 * length ws) / 2)) with (length ws).
  2:{ replace (Z.of_nat (2 * length ws)) with (Z.of_nat (length ws) * 2) by lia.
      rewrite Z.div_mul by lia. lia. }
  rewrite <- (app_nil_r (put_words [] ws)). by apply (get_words_put [Z.of_nat (2 * length ws)]).
Qed.

(** ** The requests are the protocol's PDUs *)

Lemma mbap_request_frame tx fc data : Z.of_nat (length data) < 65534 ->
  mbap_request tx fc data = mbap_frame tx kUnitId (fc :: data).
Proof.
  intros Hl. unfold mbap_request, mbap_frame. rewrite to_u16_id by lia. simpl length.
  by replace (1 + 1 + Z.of_nat (length data)) with (1 + Z.of_nat (S (length data))) by lia.
Qed.

(** The client routine that issues a request; the decoded values are dropped. *)
Definition issue (s : TcpSocket) (t : Z) (r : request) : xact unit :=
  match r with
  | ReqReadBits d a q =>
      x_map (fun _ => Ok tt)
        (DoReadBits s t (if d then kReadDiscreteInputs else kReadCoils) a (Z.of_nat q))
  | ReqReadRegisters i a q =>
      x_map (fun _ => Ok tt)
        (DoReadRegisters s t (if i then kReadInputRegisters else kReadHoldingRegisters) a (Z.of_nat q))
  | ReqWriteCoil a v => DoWriteCoil s t a v
  | ReqWriteRegister a w => DoWriteHoldingRegister s t a w
  | ReqWriteCoils a vs => DoWriteCoils s t a vs
  | ReqWriteRegisters a ws => DoWriteHoldingRegisters s t a ws
  end.

Lemma issue_transact s t r : request_ok r -> exists data,
  request_pdu r = request_code r :: data /\ (length data <= 252)%nat /\ 0 <= request_code r < 128 /\
  exists f : list Z -> res unit, issue s t r = x_map f (Transact s t (request_code r) data).
Proof.
  intros [Ha Hr]. unfold word_ok in Ha.
  assert (forall A B C (f : A -> res B) (g : B -> res C) x,
    x_map g (x_map f x) = x_map (fun a => b ← f a; g b) x) as Hcomp.
  { intros. unfold x_map. simpl. f_equal. by destruct (x_result x). }
  destruct r as [d a q|i a q|a v|a w|a vs|a ws]; simpl in Ha, Hr; simpl.
  - eexists. split; [done|]. simpl. split_and!; [lia|by destruct d..|].
    unfold DoReadBits. rewrite (proj2 (Z.leb_gt _ _)) by lia.
    rewrite Hcomp, (to_u16_id a), (to_u16_id (Z.of_nat q)) by lia. eexists. by destruct d.
  - eexists. split; [done|]. simpl. split_and!; [lia|by destruct i..|].
    unfold DoReadRegisters. rewrite (proj2 (Z.leb_gt _ _)) by lia.
    rewrite Hcomp, (to_u16_id a), (to_u16_id (Z.of_nat q)) by lia. eexists. by destruct i.
  - eexists. split; [done|]. simpl. split_and!; [lia..|].
    unfold DoWriteCoil. rewrite (to_u16_id a) by lia. by eexists.
  - eexists. split; [done|]. simpl. split_and!; [lia..|].
    unfold DoWriteHoldingRegister. rewrite (to_u16_id a) by lia. by eexists.
  - eexists. split; [done|]. pose proof (bytes_for_le (length vs)). split_and!; [|lia..|].
    { simpl. rewrite length_pack_bits. lia. }
    unfold DoWriteCoils. destruct vs as [|v vs]; [simpl in Hr; lia|]. set (l := v :: vs) in *. clearbody l.
    cbv zeta. rewrite (to_u16_id a), (to_u16_id (Z.of_nat (length l))), bytes_for_Z by lia.
    rewrite to_u8_id, Nat2Z.id by lia. by eexists.
  - eexists. destruct Hr as [Hl Hw]. rewrite put_words_app. split; [done|]. split_and!; [|lia..|].
    { simpl. rewrite length_put_words. simpl. lia. }
    unfold DoWriteHoldingRegisters. destruct ws as [|w ws]; [simpl in Hl; lia|].
    set (l := w :: ws) in *. clearbody l. cbv zeta. rewrite put_words_app.
    rewrite (to_u16_id a), (to_u16_id (Z.of_nat (length l))), (to_u8_id (_ * 2)) by lia.
    rewrite (Z.mul_comm _ 2), Nat2Z.inj_mul. by eexists.
Qed.

(** ** No environment makes the client read outside a buffer *)

Lemma Transact_safe s t fc data :
  let x := Transact s t fc data in
  no_fault (x_result x) /\ (0 <= t < 65536 -> 0 <= x_tx x < 65536) /\
  (is_ok (x_result x) = true -> x_responded x = true).
Proof.
  unfold Transact. destruct (negb (IsOpen s)); [done|].
  destruct (Send s _) as [[] s1]; simpl; [|split_and!; [done|intros; apply to_u16_range|done]].
  destruct (ReadExact s1 7) as [[header|] s2] eqn:E1;
    [|split_and!; [done|intros; apply to_u16_range|done]].
  apply ReadExact_length in E1.
  destruct (GetU16_in_range header 0) as (a & -> & _); [lia|].
  destruct (GetU16_in_range header 2) as (b & -> & _); [lia|].
  destruct (GetU16_in_range header 4) as (l & -> & _); [lia|].
  destruct (negb _); [split_and!; [done|intros; apply to_u16_range|done]|].
  destruct (negb _); [split_and!; [done|intros; apply to_u16_range|done]|].
  destruct (_ || _) eqn:G; [split_and!; [done|intros; apply to_u16_range|done]|].
  destruct (ReadExact s2 _) as [[body|] s3] eqn:E2;
    [|split_and!; [done|intros; apply to_u16_range|done]].
  apply ReadExact_length in E2. simpl. split_and!; [|intros; apply to_u16_range|done].
  break_guards. destruct body as [|b0 body]; [simpl in E2; lia|]. unfold check_body. simpl.
  destruct (_ =? _); [|by destruct (negb _)]. destruct body; simpl; done.
Qed.

(** ** The connection state *)

Definition client_ok (c : ModbusClient) : Prop :=
  0 <= transactionId_ c < 65536 /\ 0 <= consecutiveFailures_ c < kFailureThreshold /\
  0 <= connectFailureCount_ c /\ (connected_ c = true -> enabled c = true).

Lemma Note_ok c b : client_ok c -> client_ok (NoteTransactionResultUnlocked c b).
Proof.
  unfold client_ok, NoteTransactionResultUnlocked, kFailureThreshold. intros (H1 & H2 & H3 & H4).
  destruct b; simpl; [split_and!; (done || lia)|].
  destruct (_ <? _) eqn:E; [|destruct (connected_ c) eqn:Ec]; break_guards; simpl;
    split_and!; (done || lia || (rewrite Ec; done)).
Qed.

Lemma finish_ok {A} c (x : xact A) :
  client_ok c -> (0 <= transactionId_ c < 65536 -> 0 <= x_tx x < 65536) -> client_ok (finish c x).2.
Proof.
  intros (H1 & H2 & H3 & H4) Hx. unfold finish.
  destruct (x_result x); apply Note_ok; unfold client_ok; simpl; tauto.
Qed.

Lemma Do_safe {A} s t fc data (f : list Z -> res A) :
  (forall l, no_fault (f l)) ->
  let x := x_map f (Transact s t fc data) in
  no_fault (x_result x) /\ (0 <= t < 65536 -> 0 <= x_tx x < 65536).
Proof.
  intros Hf. destruct (Transact_safe s t fc data) as (H1 & H2 & _). split; [|done]. simpl.
  destruct (x_result (Transact s t fc data)) as [l| |]; simpl; [apply Hf|done|done].
Qed.

Ltac do_safe :=
  lazymatch goal with
  | |- no_fault (x_result (if ?b then _ else _)) /\ _ => destruct b; [done|]
  | |- no_fault (x_result (match ?l with [] => _ | _ => _ end)) /\ _ => destruct l; [done|]
  end.

Lemma DoReadBits_safe s t fc a n : let x := DoReadBits s t fc a n in
  no_fault (x_result x) /\ (0 <= t < 65536 -> 0 <= x_tx x < 65536).
Proof. unfold DoReadBits. cbv zeta. do_safe. apply Do_safe. by intros []. Qed.

Lemma DoReadRegisters_safe s t fc a n : let x := DoReadRegisters s t fc a n in
  no_fault (x_result x) /\ (0 <= t < 65536 -> 0 <= x_tx x < 65536).
Proof. unfold DoReadRegisters. cbv zeta. do_safe. apply Do_safe. by intros []. Qed.

Lemma DoWriteCoil_safe s t a v : let x := DoWriteCoil s t a v in
  no_fault (x_result x) /\ (0 <= t < 65536 -> 0 <= x_tx x < 65536).
Proof. by apply Do_safe. Qed.

Lemma DoWriteCoils_safe s t a vs : let x := DoWriteCoils s t a vs in
  no_fault (x_result x) /\ (0 <= t < 65536 -> 0 <= x_tx x < 65536).
Proof. unfold DoWriteCoils. cbv zeta. do_safe. by apply Do_safe. Qed.

Lemma DoWriteHoldingRegister_safe s t a w : let x := DoWriteHoldingRegister s t a w in
  no_fault (x_result x) /\ (0 <= t < 65536 -> 0 <= x_tx x < 65536).
Proof. by apply Do_safe. Qed.

Lemma DoWriteHoldingRegisters_safe s t a ws : let x := DoWriteHoldingRegisters s t a ws in
  no_fault (x_result x) /\ (0 <= t < 65536 -> 0 <= x_tx x < 65536).
Proof. unfold DoWriteHoldingRegisters. cbv zeta. do_safe. by apply Do_safe. Qed.

Lemma locked_ok {A} (b : bool) c (x : xact A) :
  client_ok c -> (0 <= transactionId_ c < 65536 -> 0 <= x_tx x < 65536) ->
  client_ok (if b then (None, c) else finish c x).2.
Proof. intros. destruct b; [done|]. by apply finish_ok. Qed.

Lemma client_step_ok c c' : client_step c c' -> client_ok c -> client_ok c'.
Proof.
  intros Hstep Hok. pose proof Hok as (H1 & H2 & H3 & H4).
  destruct Hstep; try (apply locked_ok; [done|]).
  - unfold Configure. destruct (connected_ c) eqn:E; simpl; split_and!; simpl; auto; try lia; congruence.
  - unfold Connect. destruct (negb (enabled c)) eqn:E; [done|]. reflect_bools.
    destruct (_ && _); [done|]. destruct dial; split_and!; simpl; auto; try lia; done.
  - split_and!; simpl; auto; try lia; done.
  - apply DoReadBits_safe.
  - apply DoReadBits_safe.
  - apply DoWriteCoil_safe.
  - apply DoWriteCoils_safe.
  - apply DoReadRegisters_safe.
  - apply DoReadRegisters_safe.
  - apply DoWriteHoldingRegister_safe.
  - apply DoWriteHoldingRegisters_safe.
Qed.

(** ** The failure detector *)

(** Three failures in a row somewhere in the run. *)
Fixpoint three_failures (rs : list bool) : bool :=
  match rs with
  | false :: (false :: false :: _) => true
  | _ :: rest => three_failures rest
  | [] => false
  end.

(** The locked operation a request stands for, and what the failure detector
    is told about it. *)
Definition perform (c : ModbusClient) (r : request) : ModbusClient :=
  match r with
  | ReqReadBits false a q => (ReadCoils c a (Z.of_nat q)).2
  | ReqReadBits true a q => (ReadDiscreteInputs c a (Z.of_nat q)).2
  | ReqReadRegisters false a q => (ReadHoldingRegisters c a (Z.of_nat q)).2
  | ReqReadRegisters true a q => (ReadInputRegisters c a (Z.of_nat q)).2
  | ReqWriteCoil a v => (WriteCoil c a v).2
  | ReqWriteRegister a w => (WriteHoldingRegister c a w).2
  | ReqWriteCoils a vs => (WriteCoils c a vs).2
  | ReqWriteRegisters a ws => (WriteHoldingRegisters c a ws).2
  end.

Definition outcome (c : ModbusClient) (r : request) : bool :=
  let x := issue (socket_ c) (transactionId_ c) r in is_ok (x_result x) || x_responded x.

(** The outcomes of a run of operations; nothing is sent once disconnected. *)
Fixpoint outcomes (c : ModbusClient) (rs : list request) : list bool :=
  match rs with
  | [] => []
  | r :: rest => if connected_ c then outcome c r :: outcomes (perform c r) rest else []
  end.

Lemma finish_map {A B} c (x : xact A) (f : A -> B) :
  (finish c (x_map (fun a => Ok (f a)) x)).2 = (finish c x).2.
Proof. unfold finish, x_map. simpl. by destruct (x_result x). Qed.

Lemma perform_finish c r : request_ok r ->
  perform c r = if connected_ c then (finish c (issue (socket_ c) (transactionId_ c) r)).2 else c.
Proof.
  intros [_ Hr]. destruct r as [[] a q|[] a q|a v|a w|a vs|a ws]; simpl in *;
    rewrite ?(finish_map _ _ (fun _ => tt));
    unfold ReadCoils, ReadDiscreteInputs, ReadHoldingRegisters, ReadInputRegisters, WriteCoil,
      WriteHoldingRegister, WriteCoils, WriteHoldingRegisters;
    rewrite ?(proj2 (Z.leb_gt _ _)), ?(proj2 (Nat.eqb_neq _ _)), ?orb_false_r by lia;
    by destruct (connected_ c).
Qed.

Lemma perform_note c r : request_ok r -> connected_ c = true -> exists s t,
  perform c r = NoteTransactionResultUnlocked
    (mkClient (enabled c) s t true (consecutiveFailures_ c) (connectFailureCount_ c)) (outcome c r).
Proof.
  intros Hr Hc. rewrite perform_finish, Hc by done. unfold finish, outcome. rewrite Hc.
  destruct (x_result (issue (socket_ c) (transactionId_ c) r)); simpl; eauto.
Qed.

Lemma perform_disconnected rs : forall c, Forall request_ok rs -> connected_ c = false ->
  foldl perform c rs = c /\ outcomes c rs = [].
Proof.
  induction rs as [|r rs IH]; intros c Hr Hc; [done|]. inversion Hr; subst. simpl.
  rewrite perform_finish, Hc by done. split; [by apply IH|done].
Qed.

(** Induction along the run, with the count of the failures already pending. *)
Lemma perform_run rs : forall c (k : nat), Forall request_ok rs ->
  connected_ c = true -> consecutiveFailures_ c = Z.of_nat k -> (k < 3)%nat ->
  connected_ (foldl perform c rs) = negb (three_failures (replicate k false ++ outcomes c rs)).
Proof.
  induction rs as [|r rs IH]; intros c k Hr Hc Hk Hlt; simpl.
  - rewrite app_nil_r, Hc. by destruct k as [|[|[|k]]]; [..|lia].
  - inversion Hr; subst. rewrite Hc.
    destruct (perform_note c r) as (s & t & ->); [done..|].
    destruct (outcome c r); simpl.
    + rewrite (IH _ 0%nat) by (done || lia). by destruct k as [|[|[|k]]]; [..|lia].
    + unfold NoteTransactionResultUnlocked, kFailureThreshold. simpl. rewrite Hk.
      destruct (decide (k = 2)%nat) as [->|Hne].
      * simpl. match goal with |- context [foldl perform ?d rs] =>
          destruct (perform_disconnected rs d) as [-> _] end; done.
      * rewrite (proj2 (Z.ltb_lt _ _)) by lia.
        rewrite (IH _ (S k)) by (simpl; done || lia).
        f_equal. by rewrite replicate_S_end, <- app_assoc.
Qed.

(** ** Properties *)

(** Whatever request the client issues, on a socket that takes the frame
    and delivers an answer frame with the right transaction id in any pieces,
    it sends exactly one frame, the MBAP header with unit 0xFF followed by the
    protocol's PDU of the request, consumes exactly the answer frame, and
    reports an exception answer as the failure that names its code, without
    taking it for a transport failure. *)
Theorem client_sends_request_frames s t r unit reply more :
  request_ok r -> (1 <= length reply <= 252)%nat ->
  ready s (mbap_frame (to_u16 (t + 1)) unit reply ++ more) ->
  let x := issue s t r in
  sent (x_socket x) = sent s ++ [mbap_frame (to_u16 (t + 1)) kUnitId (request_pdu r)] /\
  delivers (x_socket x) more /\ x_responded x = true /\
  (forall code, reply = [Z.lor (request_code r) 128; code] ->
     x_result x = Err (exception_message code)).
Proof.
  intros Hr Hl Hs x. destruct (issue_transact s t r Hr) as (data & Hpdu & Hd & Hc & f & Hx).
  subst x. rewrite Hx. destruct (Transact_conforming s t (request_code r) data unit reply more Hl Hs)
    as (_ & Hresp & Hres & Hdel & Hsent). simpl. split_and!; [|done|done|].
  - rewrite Hsent, mbap_request_frame, Hpdu by lia. done.
  - intros code ->. rewrite Hres, check_body_exception. done.
Qed.

Lemma client_sends_request_frames_witness :
  let s := mkSocket true [Data [0; 1; 0; 0; 0; 3; 255]; Data [131]; Data [2; 9]] [] [] in
  let x := issue s 0 (ReqReadRegisters false 12 2) in
  sent (x_socket x) = [[0; 1; 0; 0; 0; 6; 255; 3; 0; 12; 0; 2]] /\
  x_result x = Err (exception_message 2).
Proof.
  destruct (client_sends_request_frames
    (mkSocket true [Data [0; 1; 0; 0; 0; 3; 255]; Data [131]; Data [2; 9]] [] []) 0
    (ReqReadRegisters false 12 2) 255 [131; 2] [9]) as (H1 & _ & _ & H4).
  - split; [split; [discriminate|reflexivity]|simpl; lia].
  - simpl. lia.
  - split; [|reflexivity]. split; [reflexivity|]. split; [repeat constructor; eauto|reflexivity].
  - split; [exact H1|exact (H4 2 eq_refl)].
Defined.

(** C20: Reading from a conforming server gives the values the server packed:
    bits for function codes 1 and 2 and registers for 3 and 4, for every count
    the protocol allows and any cut of the answer into reads. *)
Theorem client_reads_roundtrip s t a (second : bool) (vs : list bool) (ws : list Z) unit more :
  let s1 := if second then kReadDiscreteInputs else kReadCoils in
  let s3 := if second then kReadInputRegisters else kReadHoldingRegisters in
  ((0 < length vs <= 2000)%nat ->
   ready s (mbap_frame (to_u16 (t + 1)) unit (read_bits_reply s1 vs) ++ more) ->
   x_result (DoReadBits s t s1 a (Z.of_nat (length vs))) = Ok vs) /\
  ((0 < length ws <= 125)%nat -> words_ok ws ->
   ready s (mbap_frame (to_u16 (t + 1)) unit (read_registers_reply s3 ws) ++ more) ->
   x_result (DoReadRegisters s t s3 a (Z.of_nat (length ws))) = Ok ws).
Proof.
  cbv zeta. split; intros.
  - eapply DoReadBits_conforming; [by destruct second|done|done].
  - eapply DoReadRegisters_conforming; [by destruct second|done..].
Qed.

Lemma client_reads_roundtrip_witness :
  x_result (DoReadRegisters (mkSocket true [Data [0; 8; 0; 0; 0; 7]; Data [1; 3; 4; 2]; Data [1; 0; 7]] [] [])
              7 kReadHoldingRegisters 100 2) = Ok [513; 7].
Proof.
  apply (proj2 (client_reads_roundtrip
    (mkSocket true [Data [0; 8; 0; 0; 0; 7]; Data [1; 3; 4; 2]; Data [1; 0; 7]] [] [])
    7 100 false [] [513; 7] 1 [])).
  - simpl. lia.
  - repeat constructor; discriminate.
  - split; [|reflexivity]. split; [reflexivity|]. split; [repeat constructor; eauto|reflexivity].
Defined.

(** In every state the client can reach, whatever the network does, the
    transaction counter is a 16-bit value, fewer than three failures are
    pending, a connected client is an enabled one, and no request reads
    outside the answer it received. *)
Theorem client_reachable_invariant cfg c r :
  rtc client_step (new_client cfg) c ->
  client_ok c /\ no_fault (x_result (issue (socket_ c) (transactionId_ c) r)).
Proof.
  intros H. assert (client_ok c) as Hok.
  { assert (client_ok (new_client cfg)) as H0 by (unfold client_ok, kFailureThreshold; simpl; split_and!; done).
    induction H as [|c1 c2 c3 Hstep _ IH]; [done|]. apply IH. by eapply client_step_ok. }
  split; [done|]. destruct r as [d a q|i a q|a v|a w|a vs|a ws]; simpl.
  - pose proof (DoReadBits_safe (socket_ c) (transactionId_ c)
      (if d then kReadDiscreteInputs else kReadCoils) a (Z.of_nat q)) as [Hf _].
    by destruct (x_result _).
  - pose proof (DoReadRegisters_safe (socket_ c) (transactionId_ c)
      (if i then kReadInputRegisters else kReadHoldingRegisters) a (Z.of_nat q)) as [Hf _].
    by destruct (x_result _).
  - apply DoWriteCoil_safe.
  - apply DoWriteHoldingRegister_safe.
  - apply DoWriteCoils_safe.
  - apply DoWriteHoldingRegisters_safe.
Qed.

Lemma client_reachable_invariant_witness :
  let c := (ReadCoils (Connect (new_client true)
              (Some (mkSocket true [Data [0; 1]; PeerGone] [] []))).2 0 8).2 in
  client_ok c /\ consecutiveFailures_ c = 1 /\ IsConnected c = false.
Proof.
  split; [|split; reflexivity].
  apply (client_reachable_invariant true _ (ReqWriteCoil 0 true)).
  eapply rtc_l; [apply (step_connect _ (Some (mkSocket true [Data [0; 1]; PeerGone] [] [])))|].
  eapply rtc_l; [apply (step_read_coils _ 0 8)|]. apply rtc_refl.
Defined.

(** A freshly connected client stays connected through a run of requests
    unless three of them in a row fail without an answer; answers that are
    exceptions count as contact.  After the third it sends nothing more. *)
Theorem client_drops_after_three_failures c rs :
  connected_ c = true -> consecutiveFailures_ c = 0 -> Forall request_ok rs ->
  connected_ (foldl perform c rs) = negb (three_failures (outcomes c rs)).
Proof. intros Hc H0 Hr. apply (perform_run rs c 0); [done..|lia]. Qed.

Lemma client_drops_after_three_failures_witness :
  let c := (Connect (new_client true)
              (Some (mkSocket true [NotReady; Data [0; 2; 0; 0; 0; 3; 255; 133; 2]; NotReady; NotReady; NotReady]
                       [] []))).2 in
  let w := ReqWriteCoil 4 true in
  connected_ (foldl perform c [w; w; w; w]) = true /\ connected_ (foldl perform c [w; w; w; w; w]) = false.
Proof.
  set (c := (Connect _ _).2). cbv zeta.
  assert (request_ok (ReqWriteCoil 4 true)) as Hr by (split; [split; [discriminate|reflexivity]|exact I]).
  split.
  - etransitivity; [apply (client_drops_after_three_failures c (replicate 4 (ReqWriteCoil 4 true)))|].
    + reflexivity.
    + reflexivity.
    + repeat (constructor; [exact Hr|]). constructor.
    + reflexivity.
  - etransitivity; [apply (client_drops_after_three_failures c (replicate 5 (ReqWriteCoil 4 true)))|].
    + reflexivity.
    + reflexivity.
    + repeat (constructor; [exact Hr|]). constructor.
    + reflexivity.
Defined.
