(* ===== verification/ModbusTcp.v ===== *)
(** * The Modbus TCP slave (src/ModbusTcpSlave.cpp)

    [ServeClient] is the loop that serves one connection, [Run] the accept
    loop, [Start] and [Stop] the life cycle.  A connection is what the peer
    sends, cut into the runs successive [recv] calls return (an empty run, or
    no run left, is the end of the stream), what each [send] call returns (the
    bytes it takes; none or a negative number is a failure; once the list is
    used up, calls take all they are offered), and the bytes written so far.  [turns] is the number of passes for which
    [running_] is still set. *)

From S2P Require Import Prelude Words RegisterStore ModbusProtocol Mbap.

(** ** The connection *)

Record Peer := mkPeer {
  rx : list (list Z);
  sends : list Z;
  tx : list Z
}.

Fixpoint ReceiveExact (chunks : list (list Z)) (size : nat) : option (list Z * list (list Z)) :=
  match size with
  | O => Some ([], chunks)
  | _ =>
      match chunks with
      | [] => None
      | chunk :: rest =>
          if (length chunk =? 0)%nat then None
          else if (size <? length chunk)%nat then Some (take size chunk, drop size chunk :: rest)
          else match ReceiveExact rest (size - length chunk) with
          | None => None
          | Some (got, rest') => Some (chunk ++ got, rest')
          end
      end
  end.

(** Whether all was sent, the bytes that went out, the results left. *)
Fixpoint send_loop (results : list Z) (data : list Z) : bool * list Z * list Z :=
  match data, results with
  | [], _ => (true, [], results)
  | _, [] => (true, data, [])
  | _, n :: rest =>
      if n <=? 0 then (false, [], rest)
      else let '(ok, out, rest') := send_loop rest (drop (Z.to_nat n) data) in (ok, take (Z.to_nat n) data ++ out, rest')
  end.

Definition SendExact (p : Peer) (data : list Z) : bool * Peer :=
  let '(ok, out, rest) := send_loop (sends p) data in (ok, mkPeer (rx p) rest (tx p ++ out)).

(** ** Serving a client *)

(** Why a turn of the loop ended: on to the next one, or out of the loop. *)
Inductive verdict := Continue | Break.

Section Serve.
Context {S : Type} {B : RegisterBank S}.

Definition build_response (transaction unitId : Z) (responsePdu : list Z) : list Z :=
  PutU16 (PutU16 (PutU16 [] transaction) 0) (to_u16 (Z.of_nat (length responsePdu) + 1))
  ++ [unitId] ++ responsePdu.

(** One turn of the loop of [ServeClient]. *)
Definition serve_turn (unitId : Z) (st : S) (p : Peer) : res (verdict * S * Peer) :=
  match ReceiveExact (rx p) 7 with
  | None => Ok (Break, st, p)
  | Some (header, rx1) =>
      let p1 := mkPeer rx1 (sends p) (tx p) in
      transaction ← GetU16 header 0;
      protocol ← GetU16 header 2;
      len ← GetU16 header 4;
      if negb (protocol =? 0) || (len <? 2) || (253 <? len) then Ok (Break, st, p1)
      else match ReceiveExact rx1 (Z.to_nat (len - 1)) with
      | None => Ok (Break, st, p1)
      | Some (body, rx2) =>
          let p2 := mkPeer rx2 (sends p) (tx p) in
          unit ← read_at body 0;
          if negb (unit =? unitId) then Ok (Continue, st, p2)
          else match Handle st unit (drop 1 body) with
          | Fault => Fault
          | Err _ => Ok (Break, st, p2)
          | Ok (st', responsePdu) =>
              let '(ok, p3) := SendExact p2 (build_response transaction unitId responsePdu) in
              Ok (if ok then Continue else Break, st', p3)
          end
      end
  end.

(** [true]: the loop left because [running_] was cleared. *)
Fixpoint ServeClient (turns : nat) (unitId : Z) (st : S) (p : Peer) : res (bool * S * Peer) :=
  match turns with
  | O => Ok (true, st, p)
  | Datatypes.S turns' =>
      r ← serve_turn unitId st p;
      match r with
      | (Continue, st', p') => ServeClient turns' unitId st' p'
      | (Break, st', p') => Ok (false, st', p')
      end
  end.

(** The accept loop: the outcome of each [accept] while the slave runs, with
    the turns its connection gets; connections are served one at a time. *)
Fixpoint Run (unitId : Z) (st : S) (accepts : list (option (nat * Peer))) : res (S * list Peer) :=
  match accepts with
  | [] => Ok (st, [])
  | None :: rest => Run unitId st rest
  | Some (turns, p) :: rest =>
      r ← ServeClient turns unitId st p;
      let '(_, st', p') := r in
      r' ← Run unitId st' rest;
      let '(st'', ps) := r' in
      Ok (st'', p' :: ps)
  end.

End Serve.

(** ** Life cycle *)

Record ModbusTcpSlave := mkTcpSlave { listening : bool; running_ : bool; unitId_ : Z }.

Definition new_slave : ModbusTcpSlave := mkTcpSlave false false 1.

Definition CloseListener (s : ModbusTcpSlave) : ModbusTcpSlave :=
  mkTcpSlave false (running_ s) (unitId_ s).

Definition Stop (s : ModbusTcpSlave) : ModbusTcpSlave :=
  CloseListener (mkTcpSlave (listening s) false (unitId_ s)).

(** [opens] is the outcome of [OpenListener] for the address and port. *)
Definition Start (s : ModbusTcpSlave) (port unitId : Z) (opens : bool) : res unit * ModbusTcpSlave :=
  if (port <=? 0) || (65535 <? port) then (Err "invalid Modbus TCP port", s)
  else
    let s1 := Stop s in
    if negb opens then (Err "could not bind/listen", s1)
    else (Ok tt, mkTcpSlave true true unitId).

(** ** Receiving *)


Definition chunked : list (list Z) -> Prop := Forall (fun c => c <> []).

Lemma ReceiveExact_enough chunks : forall n,
  chunked chunks -> (n <= length (concat chunks))%nat ->
  exists rest, ReceiveExact chunks n = Some (take n (concat chunks), rest) /\
    concat rest = drop n (concat chunks) /\ chunked rest.
Proof.
  induction chunks as [|c chunks IH]; intros n Hc Hn.
  - simpl in Hn. replace n with 0%nat by lia. simpl. eauto.
  - destruct n as [|n]; [simpl; rewrite take_0, drop_0; eauto|].
    inversion Hc as [|? ? Hne Hrest]; subst. simpl. simpl in Hn. rewrite length_app in Hn.
    destruct c as [|b c]; [done|]. set (c' := b :: c) in *. change (length c' =? 0)%nat with false.
    assert (length c' <> 0)%nat by done. clearbody c'. cbn [negb].
    destruct (_ <? _)%nat eqn:E; reflect_bools.
    + eexists. rewrite take_app_le, drop_app_le by lia. split; [done|]. split; [done|].
      constructor; [|done]. intros H0. apply (f_equal length) in H0. rewrite length_drop in H0. simpl in H0. lia.
    + destruct (IH (Datatypes.S n - length c')%nat Hrest) as (rest & -> & Hr & Hk); [lia|].
      exists rest. rewrite take_app_ge, drop_app_ge by lia. done.
Qed.

Lemma ReceiveExact_app chunks n pre post : chunked chunks -> concat chunks = pre ++ post -> length pre = n ->
  exists rest, ReceiveExact chunks n = Some (pre, rest) /\ concat rest = post /\ chunked rest.
Proof.
  intros Hc E <-. destruct (ReceiveExact_enough chunks (length pre) Hc) as (rest & -> & Hr & Hk).
  { rewrite E, length_app. lia. }
  exists rest. rewrite E, take_app_length in *. rewrite drop_app_length in Hr. done.
Qed.

(** ** One turn *)

Section Turns.
Context {S : Type} {B : RegisterBank S} {L : RegisterBankLaws S}.
Implicit Types (st : S) (p : Peer).



Definition frames (unitId : Z) (replies : list (Z * list Z)) : list Z :=
  concat (map (fun '(transaction, pdu) => mbap_frame transaction unitId pdu) replies).









Lemma GetU16_word data i w : GetU16 data i = Ok w -> word_ok w.
Proof. unfold GetU16. intros H. inv_bind H. inv_bind H. injection H as <-. apply to_u16_range. Qed.





(** A frame whose PDU does not start with the unit id is read and dropped. *)
Lemma serve_turn_frame unitId st p transaction unit pdu rest :
  word_ok transaction -> (1 <= length pdu <= 252)%nat -> chunked (rx p) ->
  concat (rx p) = mbap_frame transaction unit pdu ++ rest ->
  exists rx', concat rx' = rest /\ chunked rx' /\
    let p' := mkPeer rx' (sends p) (tx p) in
    serve_turn unitId st p =
      match pdu with
      | [] => Fault
      | f :: args =>
          if negb (f =? unitId) then Ok (Continue, st, p')
          else match Handle st f args with
          | Fault => Fault
          | Err _ => Ok (Break, st, p')
          | Ok (st', reply) =>
              let '(ok, p3) := SendExact p' (build_response transaction unitId reply) in
              Ok (if ok then Continue else Break, st', p3)
          end
      end.
Proof.
  intros Ht Hl Hc Hr. unfold serve_turn.
  destruct (mbap_frame_parse transaction unit pdu Ht Hl) as (Hlen & Hdrop & H0 & H2 & H4).
  rewrite <- (take_drop 7 (mbap_frame transaction unit pdu)), Hdrop, <- app_assoc in Hr.
  destruct (ReceiveExact_app (rx p) 7 _ _ Hc Hr) as (rx1 & -> & Hr1 & Hc1); [rewrite length_take; lia|].
  rewrite H0, H2, H4. cbn [mbind res_bind]. rewrite Z.eqb_refl. cbn [negb orb].
  destruct (_ || _) eqn:G; [exfalso; break_guards; lia|].
  destruct (ReceiveExact_app rx1 (Z.to_nat (1 + Z.of_nat (length pdu) - 1)) pdu rest Hc1 Hr1)
    as (rx2 & -> & Hr2 & Hc2); [lia|].
  exists rx2. split; [done|]. split; [done|]. destruct pdu as [|f args]; [simpl in Hl; lia|].
  cbn [read_at lookup list_lookup mbind res_bind drop]. rewrite drop_0.
  destruct (negb (f =? unitId)); done.
Qed.

Lemma ServeClient_drops frames : forall turns unitId st p,
  Forall (fun '(t, u, pdu) => word_ok t /\ (1 <= length pdu <= 252)%nat /\ hd unitId pdu <> unitId) frames ->
  chunked (rx p) -> concat (rx p) = concat (map (fun '(t, u, pdu) => mbap_frame t u pdu) frames) ->
  (length frames < turns)%nat ->
  exists p', ServeClient turns unitId st p = Ok (false, st, p') /\ tx p' = tx p.
Proof.
  induction frames as [|[[t u] pdu] frames IH]; intros turns unitId st p Hf Hc Hr Hn;
    (destruct turns as [|turns]; [simpl in Hn; lia|]).
  - assert (rx p = []) as E.
    { destruct (rx p) as [|c cs]; [done|]. inversion Hc; subst. simpl in Hr. by destruct c. }
    exists p. simpl. unfold serve_turn. rewrite E. done.
  - inversion Hf as [|? ? Hh Hf']; subst. simpl in Hh, Hr, Hn. destruct Hh as (Ht & Hl & Hhd).
    destruct (serve_turn_frame unitId st p t u pdu _ Ht Hl Hc Hr) as (rx' & Hr' & Hc' & E).
    simpl. rewrite E. destruct pdu as [|f args]; [simpl in Hl; lia|]. simpl in Hhd.
    rewrite (proj2 (Z.eqb_neq f unitId)) by done. cbn [negb mbind res_bind].
    destruct (IH turns unitId st (mkPeer rx' (sends p) (tx p)) Hf' Hc' Hr') as (p' & -> & Htx); [lia|].
    by exists p'.
Qed.

End Turns.

(** ** Properties *)



(** The slave takes the function code for the unit id: a client that sends
    any number of well-formed requests, with any transaction ids and unit ids,
    gets no answer to any of them and changes nothing, unless a request's
    function code happens to equal the slave's unit id. *)
Theorem tcp_slave_never_answers turns unitId (st : ModbusRegisterStore) p (requests : list (Z * Z * request)) :
  Forall (fun '(t, _, r) => word_ok t /\ request_ok r /\ request_code r <> unitId) requests ->
  Forall (fun c => c <> []) (rx p) ->
  concat (rx p) = concat (map (fun '(t, u, r) => mbap_frame t u (request_pdu r)) requests) ->
  (length requests < turns)%nat ->
  exists p', ServeClient turns unitId st p = Ok (false, st, p') /\ tx p' = tx p.
Proof.
  intros Hr Hc E Hn.
  apply (ServeClient_drops (map (fun '(t, u, r) => (t, u, request_pdu r)) requests)).
  - apply Forall_map. eapply Forall_impl; [exact Hr|]. intros [[t u] r] (Ht & Hok & Hcode). simpl.
    pose proof (request_pdu_fits r Hok). destruct (request_pdu_head r) as (q & tail & Ep & _).
    rewrite Ep in *. split_and!; [done|lia|lia|done].
  - done.
  - rewrite E. f_equal. rewrite map_map. apply map_ext. by intros [[t u] r].
  - by rewrite length_map.
Qed.

Lemma tcp_slave_never_answers_witness :
  exists p', ServeClient 3 1 demo_store
      (mkPeer [mbap_frame 1 1 (request_pdu (ReqReadRegisters false 12 2));
               mbap_frame 2 1 (request_pdu (ReqWriteRegister 12 7))] [] []) =
    Ok (false, demo_store, p') /\ tx p' = [].
Proof.
  apply (tcp_slave_never_answers 3 1 demo_store
    (mkPeer [mbap_frame 1 1 (request_pdu (ReqReadRegisters false 12 2));
             mbap_frame 2 1 (request_pdu (ReqWriteRegister 12 7))] [] [])
    [(1, 1, ReqReadRegisters false 12 2); (2, 1, ReqWriteRegister 12 7)]).
  - repeat constructor; simpl; try discriminate; lia.
  - repeat constructor; discriminate.
  - reflexivity.
  - repeat constructor.
Defined.

(** When the function code equals the unit id the request reaches the
    protocol without its function code: the answer to any well-formed request
    for an address below 256 is an exception "illegal function" for function
    0, whatever was asked, and the store does not change. *)
Theorem tcp_slave_shifts_pdu (st : ModbusRegisterStore) r transaction unit p rest :
  request_ok r -> request_address r < 256 -> word_ok transaction ->
  Forall (fun c => c <> []) (rx p) -> sends p = [] ->
  concat (rx p) = mbap_frame transaction unit (request_pdu r) ++ rest ->
  exists p', serve_turn (request_code r) st p = Ok (Continue, st, p') /\ concat (rx p') = rest /\
    tx p' = tx p ++ mbap_frame transaction (request_code r) [128; kIllegalFunction].
Proof.
  intros Hok Ha Ht Hc Hs E. pose proof (request_pdu_fits r Hok).
  destruct (request_pdu_head r) as (q & tail & Ep & _).
  destruct (serve_turn_frame (request_code r) st p transaction unit (request_pdu r) rest Ht ltac:(lia) Hc E)
    as (rx' & Hr & _ & ->).
  rewrite Ep. simpl. rewrite Z.eqb_refl. cbn [negb].
  destruct Hok as [Hw _]. unfold word_ok in Hw.
  assert (to_u8 (Z.shiftr (request_address r) 8) = 0) as ->.
  { rewrite Z.shiftr_div_pow2 by lia. by rewrite Z.div_small by lia. }
  unfold Handle. simpl. unfold SendExact. simpl. rewrite Hs. simpl.
  eexists. split; [done|]. split; [done|]. done.
Qed.

Lemma tcp_slave_shifts_pdu_witness :
  exists p', serve_turn 3 demo_store
      (mkPeer [mbap_frame 9 1 (request_pdu (ReqReadRegisters false 12 2))] [] []) =
    Ok (Continue, demo_store, p') /\ concat (rx p') = [] /\
    tx p' = [0; 9; 0; 0; 0; 3; 3; 128; 1].
Proof.
  apply (tcp_slave_shifts_pdu demo_store (ReqReadRegisters false 12 2) 9 1
    (mkPeer [mbap_frame 9 1 (request_pdu (ReqReadRegisters false 12 2))] [] []) []).
  - split; [split; [discriminate|reflexivity]|simpl; lia].
  - reflexivity.
  - split; [discriminate|reflexivity].
  - repeat constructor; discriminate.
  - reflexivity.
  - reflexivity.
Defined.
