(* ===== verification/Float.v ===== *)
(** * IEEE 754 single and double precision

    A [float] and a [double] are their bit patterns, 32 and 64 bits wide, as
    the code sees them through [memcpy].  A finite pattern stands for
    [(-1)^sign * m * 2^e]; conversions round to nearest, ties to even, and
    overflow to infinity (IEC 60559, which the language leaves to the
    implementation). *)

From S2P Require Import Prelude.

(** ** Formats *)

(** [prec] significand bits with the implicit one, exponents from [emin] for
    the last place, [wide] bits in all. *)
Record format := mkFormat { prec : Z; emin : Z; wide : Z }.
Definition binary32 : format := mkFormat 24 (-149) 32.
Definition binary64 : format := mkFormat 53 (-1074) 64.

Definition sign_bit (f : format) (bits : Z) : bool := Z.testbit bits (wide f - 1).
Definition magnitude (f : format) (bits : Z) : Z := bits mod 2 ^ (wide f - 1).

(** The pattern of infinity, without the sign: an all-ones exponent field. *)
Definition inf_bits (f : format) : Z := 2 ^ (wide f - 1) - 2 ^ (prec f - 1).

Definition is_finite (f : format) (bits : Z) : bool := magnitude f bits <? inf_bits f.

(** The significand and the exponent of a finite pattern. *)
Definition unpack (f : format) (bits : Z) : Z * Z :=
  let mag := magnitude f bits in
  let E := mag / 2 ^ (prec f - 1) in
  let M := mag mod 2 ^ (prec f - 1) in
  if E =? 0 then (M, emin f) else (M + 2 ^ (prec f - 1), E - 1 + emin f).

(** [n / d] rounded to the nearest integer, ties to even. *)
Definition round_half_even (n d : Z) : Z :=
  let q := n / d in
  let r := n mod d in
  if (2 * r <? d) || ((2 * r =? d) && Z.even q) then q else q + 1.

(** The exponent of the last place when [m * 2^e] is written in the format. *)
Definition target_exp (f : format) (m e : Z) : Z := Z.max (e + Z.log2 m + 1 - prec f) (emin f).

Definition scaled (m k : Z) : Z := if k <=? 0 then m * 2 ^ (- k) else round_half_even m (2 ^ k).

(** The magnitude bits of the nearest value of the format; the carry of a
    significand that rounds up to the next power of two goes to the exponent. *)
Definition pack (f : format) (m e : Z) : Z :=
  if m =? 0 then 0
  else
    let e' := target_exp f m e in
    let q := scaled m (e' - e) in
    Z.min (inf_bits f) ((e' - emin f) * 2 ^ (prec f - 1) + q).

Definition with_sign (f : format) (s : bool) (mag : Z) : Z :=
  (if s then 2 ^ (wide f - 1) else 0) + mag.

(** ** The conversions of the language *)

(** [static_cast] between the two formats; a NaN keeps its top payload bits
    and becomes quiet. *)
Definition convert (f g : format) (bits : Z) : Z :=
  with_sign g (sign_bit f bits)
    (if is_finite f bits then let '(m, e) := unpack f bits in pack g m e
     else if magnitude f bits =? inf_bits f then inf_bits g
     else Z.lor (inf_bits g + Z.shiftr (Z.shiftl (magnitude f bits - inf_bits f) (prec g - 1)) (prec f - 1))
                (2 ^ (prec g - 2))).

Definition f64_of_f32 (bits : Z) : Z := convert binary32 binary64 bits.
Definition f32_of_f64 (bits : Z) : Z := convert binary64 binary32 bits.

(** An integer as a double. *)
Definition f64_of_Z (z : Z) : Z := with_sign binary64 (z <? 0) (pack binary64 (Z.abs z) 0).

(** The integer part towards zero of a finite double. *)
Definition f64_trunc (bits : Z) : option Z :=
  if is_finite binary64 bits then
    let '(m, e) := unpack binary64 bits in
    let a := if 0 <=? e then m * 2 ^ e else m / 2 ^ (- e) in
    Some (if sign_bit binary64 bits then - a else a)
  else None.

(** [d == std::floor(d)]: true of infinities, false of NaN. *)
Definition f64_is_whole (bits : Z) : bool :=
  if is_finite binary64 bits then
    let '(m, e) := unpack binary64 bits in (0 <=? e) || (m mod 2 ^ (- e) =? 0)
  else magnitude binary64 bits =? inf_bits binary64.

(** ** Arithmetic on doubles *)

Definition f64_nan : Z := 0x7FF8000000000000.
Definition f64_zero : Z := 0.
Definition f64_one : Z := 0x3FF0000000000000.
Definition is_nan (bits : Z) : bool := inf_bits binary64 <? magnitude binary64 bits.
Definition is_inf (bits : Z) : bool := magnitude binary64 bits =? inf_bits binary64.

(** Doubles that are not NaN are ordered as their signed magnitudes. *)
Definition f64_key (bits : Z) : Z :=
  if sign_bit binary64 bits then - magnitude binary64 bits else magnitude binary64 bits.
Definition f64_lt (a b : Z) : bool := negb (is_nan a) && negb (is_nan b) && (f64_key a <? f64_key b).

Definition f64_neg (bits : Z) : Z :=
  with_sign binary64 (negb (sign_bit binary64 bits)) (magnitude binary64 bits).

Definition signed (s : bool) (m : Z) : Z := if s then - m else m.

Definition f64_add (a b : Z) : Z :=
  let sa := sign_bit binary64 a in
  let sb := sign_bit binary64 b in
  if is_nan a || is_nan b then f64_nan
  else if is_inf a then (if is_inf b && negb (eqb sa sb) then f64_nan else a)
  else if is_inf b then b
  else
    let '(ma, ea) := unpack binary64 a in
    let '(mb, eb) := unpack binary64 b in
    let e := Z.min ea eb in
    let z := signed sa (ma * 2 ^ (ea - e)) + signed sb (mb * 2 ^ (eb - e)) in
    if z =? 0 then with_sign binary64 (sa && sb) 0
    else with_sign binary64 (z <? 0) (pack binary64 (Z.abs z) e).

Definition f64_sub (a b : Z) : Z := f64_add a (f64_neg b).

Definition f64_mul (a b : Z) : Z :=
  let s := xorb (sign_bit binary64 a) (sign_bit binary64 b) in
  if is_nan a || is_nan b then f64_nan
  else if is_inf a || is_inf b then
    (if (magnitude binary64 a =? 0) || (magnitude binary64 b =? 0) then f64_nan
     else with_sign binary64 s (inf_bits binary64))
  else
    let '(ma, ea) := unpack binary64 a in
    let '(mb, eb) := unpack binary64 b in
    with_sign binary64 s (pack binary64 (ma * mb) (ea + eb)).

(** The quotient to 66 bits below the leading one, the last one sticky. *)
Definition f64_div (a b : Z) : Z :=
  let s := xorb (sign_bit binary64 a) (sign_bit binary64 b) in
  if is_nan a || is_nan b || (is_inf a && is_inf b)
     || ((magnitude binary64 a =? 0) && (magnitude binary64 b =? 0)) then f64_nan
  else if is_inf a || (magnitude binary64 b =? 0) then with_sign binary64 s (inf_bits binary64)
  else if is_inf b then with_sign binary64 s 0
  else
    let '(ma, ea) := unpack binary64 a in
    let '(mb, eb) := unpack binary64 b in
    let q := ma * 2 ^ 120 / mb in
    let r := (ma * 2 ^ 120) mod mb in
    with_sign binary64 s (pack binary64 (2 * q + (if r =? 0 then 0 else 1)) (ea - eb - 121)).

(** [std::min(a, b)]: [a] unless [b < a]. *)
Definition f64_min (a b : Z) : Z := if f64_lt b a then b else a.

(** ** Examples *)

Example f64_arith : f64_add 0x3FB999999999999A 0x3FC999999999999A = 0x3FD3333333333334 /\
  f64_div f64_one (f64_of_Z 3) = 0x3FD5555555555555 /\
  f64_mul 0x3FB999999999999A (f64_of_Z 3) = 0x3FD3333333333334 /\
  f64_sub (f64_of_Z 5) (f64_of_Z 5) = 0 /\ f64_div (f64_of_Z 2) (f64_of_Z 0) = 0x7FF0000000000000.
Proof. repeat split; vm_compute; reflexivity. Qed.

Example f32_one : f64_of_f32 0x3F800000 = 0x3FF0000000000000.
Proof. reflexivity. Qed.
Example f32_smallest_subnormal : f64_of_f32 1 = 0x36A0000000000000.
Proof. reflexivity. Qed.
Example f32_tenth : f32_of_f64 0x3FB999999999999A = 0x3DCCCCCD.
Proof. reflexivity. Qed.
Example f32_overflow : f32_of_f64 0xFE37E43C8800759C = 0xFF800000.
Proof. reflexivity. Qed.
Example f64_ten : f64_of_Z 10 = 0x4024000000000000 /\ f64_trunc 0xC029666666666666 = Some (-12).
Proof. split; reflexivity. Qed.

(** ** Rounding *)

Lemma round_half_even_scale m d c : 0 < d -> 0 < c ->
  round_half_even (m * c) (d * c) = round_half_even m d.
Proof.
  intros Hd Hc. unfold round_half_even.
  rewrite Z.div_mul_cancel_r, Z.mul_mod_distr_r by lia.
  assert (((2 * (m mod d * c) <? d * c)) = (2 * (m mod d) <? d)) as ->.
  { apply eq_iff_eq_true. rewrite !Z.ltb_lt. nia. }
  assert (((2 * (m mod d * c) =? d * c)) = (2 * (m mod d) =? d)) as ->.
  { apply eq_iff_eq_true. rewrite !Z.eqb_eq. nia. }
  done.
Qed.

Lemma round_half_even_exact q d : 0 < d -> round_half_even (q * d) d = q.
Proof.
  intros Hd. unfold round_half_even. rewrite Z.div_mul, Z.mod_mul by lia.
  by rewrite (proj2 (Z.ltb_lt (2 * 0) d)) by lia.
Qed.

(** Scaling the significand up by [2^k] and the exponent down by [k]. *)
Lemma scaled_shift m k j : 0 <= k -> scaled (m * 2 ^ k) (j + k) = scaled m j.
Proof.
  intros Hk. unfold scaled.
  destruct (j <=? 0) eqn:Ej, (j + k <=? 0) eqn:Ejk; reflect_bools; try lia.
  - rewrite <- Z.mul_assoc, <- Z.pow_add_r by lia. do 2 f_equal. lia.
  - replace (m * 2 ^ k) with (m * 2 ^ (- j) * 2 ^ (j + k)).
    { apply round_half_even_exact. lia. }
    rewrite <- Z.mul_assoc, <- Z.pow_add_r by lia. do 2 f_equal. lia.
  - rewrite Z.pow_add_r by lia. apply round_half_even_scale; lia.
Qed.

Lemma pack_shift f m e k : 0 <= k -> 0 <= m -> pack f (m * 2 ^ k) (e - k) = pack f m e.
Proof.
  intros Hk Hm. unfold pack. assert (0 < 2 ^ k) by lia.
  destruct (m =? 0) eqn:Em; reflect_bools; [by subst m|].
  rewrite (proj2 (Z.eqb_neq _ 0)) by nia.
  assert (target_exp f (m * 2 ^ k) (e - k) = target_exp f m e) as ->.
  { unfold target_exp. rewrite Z.log2_mul_pow2 by lia. f_equal. lia. }
  replace (target_exp f m e - (e - k)) with (target_exp f m e - e + k) by lia.
  by rewrite scaled_shift by lia.
Qed.

(** ** Formats *)

Definition format_ok (f : format) : Prop := 2 <= prec f < wide f.

Lemma format_bounds f : format_ok f ->
  0 < 2 ^ (prec f - 1) /\ 2 ^ (prec f - 1) < 2 ^ (wide f - 1) /\ 2 ^ wide f = 2 * 2 ^ (wide f - 1).
Proof.
  unfold format_ok. intros. split; [lia|]. split; [apply Z.pow_lt_mono_r; lia|].
  rewrite <- Z.pow_succ_r by lia. f_equal. lia.
Qed.

Lemma magnitude_with_sign f s mag : format_ok f -> 0 <= mag < 2 ^ (wide f - 1) ->
  magnitude f (with_sign f s mag) = mag /\ sign_bit f (with_sign f s mag) = s.
Proof.
  intros Hf Hm. unfold magnitude, sign_bit, with_sign. unfold format_ok in Hf.
  rewrite Z.testbit_eqb by lia. destruct s.
  - rewrite <- (Z.mul_1_l (2 ^ (wide f - 1))) at 1 3.
    rewrite Z.add_comm, Z.mod_add, Z.div_add, Z.mod_small, Z.div_small by lia. done.
  - rewrite Z.add_0_l, Z.mod_small, Z.div_small by lia. done.
Qed.

Lemma with_sign_magnitude f bits : format_ok f -> 0 <= bits < 2 ^ wide f ->
  with_sign f (sign_bit f bits) (magnitude f bits) = bits.
Proof.
  intros Hf Hb. destruct (format_bounds f Hf) as (_ & Hp & Hw). unfold format_ok in Hf.
  unfold magnitude, sign_bit, with_sign. rewrite Z.testbit_eqb by lia.
  pose proof (Z.div_mod bits (2 ^ (wide f - 1)) ltac:(lia)) as E.
  pose proof (Z.mod_pos_bound bits (2 ^ (wide f - 1)) ltac:(lia)) as Hmod.
  assert (bits / 2 ^ (wide f - 1) = 0 \/ bits / 2 ^ (wide f - 1) = 1) as [Hq|Hq].
  { pose proof (Z.div_pos bits (2 ^ (wide f - 1))).
    pose proof (Z.div_lt_upper_bound bits (2 ^ (wide f - 1)) 2). lia. }
  - rewrite Hq in *. simpl. lia.
  - rewrite Hq in *. simpl. lia.
Qed.

(** Unpacking a finite pattern and packing it again. *)
Lemma pack_unpack f bits : format_ok f -> is_finite f bits = true ->
  let '(m, e) := unpack f bits in pack f m e = magnitude f bits.
Proof.
  intros Hf Hfin. destruct (format_bounds f Hf) as (HP & Hp & _). unfold format_ok in Hf.
  unfold is_finite in Hfin. reflect_bools. unfold unpack.
  assert (0 <= magnitude f bits) as H0 by (apply Z.mod_pos_bound; lia).
  set (mag := magnitude f bits) in *. set (P := 2 ^ (prec f - 1)) in *.
  pose proof (Z.div_mod mag P ltac:(lia)) as E. pose proof (Z.mod_pos_bound mag P ltac:(lia)) as HM.
  assert (0 <= mag / P) as HE by (apply Z.div_pos; lia).
  destruct (mag / P =? 0) eqn:E0; reflect_bools; unfold pack; fold P.
  - rewrite E0 in E. destruct (_ =? 0) eqn:EM; reflect_bools; [lia|].
    assert (Z.log2 (mag mod P) < prec f - 1) as HL by (apply Z.log2_lt_pow2; fold P; lia).
    replace (target_exp f (mag mod P) (emin f)) with (emin f) by (unfold target_exp; lia).
    rewrite !Z.sub_diag. unfold scaled. simpl. lia.
  - rewrite (proj2 (Z.eqb_neq _ 0)) by lia.
    assert (Z.log2 (mag mod P + P) = prec f - 1) as HL.
    { apply Z.log2_unique; [lia|]. fold P. rewrite Z.pow_succ_r by lia. fold P. lia. }
    replace (target_exp f (mag mod P + P) (mag / P - 1 + emin f)) with (mag / P - 1 + emin f)
      by (unfold target_exp; lia).
    rewrite !Z.sub_diag. unfold scaled. simpl. nia.
Qed.

(** ** Single to double and back *)

Lemma binary32_ok : format_ok binary32. Proof. by unfold format_ok. Qed.
Lemma binary64_ok : format_ok binary64. Proof. by unfold format_ok. Qed.
#[export] Hint Resolve binary32_ok binary64_ok : gw.

Lemma unpack32_range bits : is_finite binary32 bits = true ->
  let '(m, e) := unpack binary32 bits in 0 <= m < 2 ^ 24 /\ -149 <= e <= 104.
Proof.
  unfold is_finite, unpack. intros H. reflect_bools.
  change (inf_bits binary32) with (255 * 2 ^ 23) in H. simpl prec. simpl emin. change (24 - 1) with 23.
  assert (0 <= magnitude binary32 bits) by (apply Z.mod_pos_bound; reflexivity).
  pose proof (Z.mod_pos_bound (magnitude binary32 bits) (2 ^ 23)).
  pose proof (Z.div_lt_upper_bound (magnitude binary32 bits) (2 ^ 23) 255).
  pose proof (Z.div_pos (magnitude binary32 bits) (2 ^ 23)).
  destruct (_ =? 0) eqn:E; reflect_bools; lia.
Qed.

(** A significand that fits the format is packed exactly, with its leading bit
    at the top. *)
Lemma pack64_exact m e : 0 < m < 2 ^ 53 -> -900 <= e <= 900 ->
  let k := 52 - Z.log2 m in
  0 <= k <= 52 /\ 2 ^ 52 <= m * 2 ^ k < 2 ^ 53 /\
  pack binary64 m e = (e - k + 1074) * 2 ^ 52 + m * 2 ^ k.
Proof.
  intros Hm He k.
  assert (0 <= Z.log2 m <= 52) as HL.
  { split; [apply Z.log2_nonneg|]. pose proof (Z.log2_lt_pow2 m 53). lia. }
  pose proof (Z.log2_spec m ltac:(lia)) as [Hlo Hhi]. rewrite Z.pow_succ_r in Hhi by lia.
  assert (2 ^ 52 = 2 ^ Z.log2 m * 2 ^ k) as Hk.
  { rewrite <- Z.pow_add_r by (unfold k; lia). f_equal. unfold k. lia. }
  assert (2 ^ 52 <= m * 2 ^ k < 2 ^ 53) as Hq.
  { replace (2 ^ 53) with (2 * 2 ^ 52) by done. nia. }
  split; [unfold k; lia|]. split; [done|]. set (q := m * 2 ^ k) in *.
  unfold pack. rewrite (proj2 (Z.eqb_neq m 0)) by lia.
  replace (target_exp binary64 m e) with (e - k) by (unfold target_exp, k; simpl; lia).
  unfold scaled. rewrite (proj2 (Z.leb_le _ 0)) by (unfold k; lia).
  replace (- (e - k - e)) with k by lia. fold q.
  change (inf_bits binary64) with (2047 * 2 ^ 52). change (prec binary64 - 1) with 52. simpl emin.
  rewrite Z.min_r; [lia|]. unfold k. lia.
Qed.

Lemma unpack_pack64 s m e : 0 < m < 2 ^ 53 -> -900 <= e <= 900 ->
  exists k, 0 <= k /\ 0 <= pack binary64 m e < inf_bits binary64 /\
    unpack binary64 (with_sign binary64 s (pack binary64 m e)) = (m * 2 ^ k, e - k).
Proof.
  intros Hm He. destruct (pack64_exact m e Hm He) as (Hk & Hq & Epack).
  set (k := 52 - Z.log2 m) in *. clearbody k. set (q := m * 2 ^ k) in *.
  exists k. split; [lia|]. change (inf_bits binary64) with (2047 * 2 ^ 52).
  assert (0 <= pack binary64 m e < 2047 * 2 ^ 52) as Hr by (rewrite Epack; lia).
  split; [done|]. unfold unpack.
  destruct (magnitude_with_sign binary64 s (pack binary64 m e)) as [-> _]; [apply binary64_ok| |].
  { change (2 ^ (wide binary64 - 1)) with (2048 * 2 ^ 52). lia. }
  rewrite Epack. change (prec binary64 - 1) with 52. simpl emin.
  replace ((e - k + 1074) * 2 ^ 52 + q) with ((q - 2 ^ 52) + (e - k + 1075) * 2 ^ 52) by lia.
  rewrite Z.div_add, Z.mod_add, Z.div_small, Z.mod_small by lia.
  rewrite (proj2 (Z.eqb_neq _ 0)) by lia. f_equal; lia.
Qed.

Lemma inf_bits_lt f : format_ok f -> inf_bits f < 2 ^ (wide f - 1).
Proof. intros Hf. destruct (format_bounds f Hf) as (? & ? & _). unfold inf_bits. lia. Qed.

(** Widening a finite single: the double is finite, has the same sign, and
    narrows back to it. *)
Lemma f32_f64_f32 bits : 0 <= bits < 2 ^ 32 -> is_finite binary32 bits = true ->
  is_finite binary64 (f64_of_f32 bits) = true /\ f32_of_f64 (f64_of_f32 bits) = bits /\
  0 <= f64_of_f32 bits < 2 ^ 64.
Proof.
  intros Hb Hfin. unfold f64_of_f32, convert. rewrite Hfin.
  pose proof (pack_unpack binary32 bits binary32_ok Hfin) as Hp.
  pose proof (unpack32_range bits Hfin) as Hr.
  destruct (unpack binary32 bits) as [m e]. destruct Hr as [Hm He].
  set (s := sign_bit binary32 bits).
  assert (exists m' e', 0 <= pack binary64 m e < inf_bits binary64 /\
    unpack binary64 (with_sign binary64 s (pack binary64 m e)) = (m', e') /\
    pack binary32 m' e' = pack binary32 m e) as (m' & e' & Hrange & Hu & Hpk).
  { destruct (decide (m = 0)) as [->|Hm0].
    - exists 0, (-1074). split; [done|]. by destruct s.
    - destruct (unpack_pack64 s m e ltac:(lia) ltac:(lia)) as (k & Hk & Hrange & Hu).
      exists (m * 2 ^ k), (e - k). split_and!; try tauto. apply pack_shift; lia. }
  pose proof (inf_bits_lt binary64 binary64_ok) as Hinf.
  destruct (magnitude_with_sign binary64 s (pack binary64 m e) binary64_ok) as [Hmag Hsign]; [lia|].
  assert (is_finite binary64 (with_sign binary64 s (pack binary64 m e)) = true) as Hfin64.
  { unfold is_finite. rewrite Hmag. apply Z.ltb_lt. lia. }
  split; [done|]. split.
  - unfold f32_of_f64, convert. rewrite Hfin64, Hu, Hpk, Hp, Hsign.
    apply with_sign_magnitude; [apply binary32_ok|exact Hb].
  - unfold with_sign. change (wide binary64 - 1) with 63 in *. destruct s; lia.
Qed.

(** ** Small integers as doubles *)

(** A double that is not negative, not NaN and not infinite. *)
Definition f64_nonneg (bits : Z) : Prop :=
  sign_bit binary64 bits = false /\ is_finite binary64 bits = true /\ 0 <= bits < 2 ^ 64.

Lemma finite_not_special bits : is_finite binary64 bits = true -> is_nan bits = false /\ is_inf bits = false.
Proof.
  unfold is_finite, is_nan, is_inf. intros H. apply Z.ltb_lt in H.
  split; [apply Z.ltb_ge|apply Z.eqb_neq]; lia.
Qed.

Lemma f64_nonneg_bits bits : f64_nonneg bits -> magnitude binary64 bits = bits.
Proof.
  intros (Hs & _ & Hb). rewrite <- (with_sign_magnitude binary64 bits binary64_ok Hb) at 2.
  by rewrite Hs.
Qed.

Definition int53 (z : Z) : Prop := 0 <= z < 2 ^ 53.

(** An integer of at most 53 bits is represented exactly. *)
Lemma f64_of_Z_exact z : int53 z ->
  f64_nonneg (f64_of_Z z) /\ f64_of_Z z = pack binary64 z 0 /\
  exists k, 0 <= k /\ unpack binary64 (f64_of_Z z) = (z * 2 ^ k, - k).
Proof.
  intros Hz. unfold int53 in Hz. destruct (decide (z = 0)) as [->|Hn].
  { split; [split_and!; [reflexivity|reflexivity|done|done]|]. split; [done|]. by exists 1074. }
  assert (f64_of_Z z = with_sign binary64 false (pack binary64 z 0)) as E.
  { unfold f64_of_Z. rewrite (proj2 (Z.ltb_ge z 0)), Z.abs_eq by lia. done. }
  destruct (unpack_pack64 false z 0 ltac:(lia) ltac:(lia)) as (k & Hk & Hr & Hu).
  pose proof (inf_bits_lt binary64 binary64_ok) as Hinf.
  destruct (magnitude_with_sign binary64 false (pack binary64 z 0) binary64_ok ltac:(lia)) as [Hm Hs].
  rewrite E. split; [|split; [done|by exists k]]. split; [done|]. split.
  - unfold is_finite. rewrite Hm. apply Z.ltb_lt. lia.
  - unfold with_sign. change (wide binary64 - 1) with 63 in *. lia.
Qed.

Lemma f64_of_Z_lt a b : int53 a -> int53 b -> f64_lt (f64_of_Z a) (f64_of_Z b) = (a <? b).
Proof.
  intros Ha Hb. destruct (f64_of_Z_exact a Ha) as (Na & Ea & _).
  destruct (f64_of_Z_exact b Hb) as (Nb & Eb & _).
  unfold f64_lt, f64_key. pose proof (f64_nonneg_bits _ Na) as Ma. pose proof (f64_nonneg_bits _ Nb) as Mb.
  destruct Na as (Sa & Fa & _), Nb as (Sb & Fb & _).
  destruct (finite_not_special _ Fa) as [-> _]. destruct (finite_not_special _ Fb) as [-> _].
  rewrite Sa, Sb, Ma, Mb, Ea, Eb. simpl. clear - Ha Hb.
  assert (forall x y, int53 x -> int53 y -> x < y -> pack binary64 x 0 < pack binary64 y 0) as Hmono.
  { clear. unfold int53. intros x y Hx Hy Hxy.
    destruct (pack64_exact y 0 ltac:(lia) ltac:(lia)) as (Ky & Qy & ->).
    destruct (decide (x = 0)) as [->|Hx0]; [change (pack binary64 0 0) with 0; lia|].
    destruct (pack64_exact x 0 ltac:(lia) ltac:(lia)) as (Kx & Qx & ->).
    pose proof (Z.log2_le_mono x y ltac:(lia)) as HL.
    destruct (decide (Z.log2 x = Z.log2 y)) as [E|E]; [rewrite E in *|lia].
    assert (0 < 2 ^ (52 - Z.log2 y)) by lia. nia. }
  destruct (a <? b) eqn:E; [apply Z.ltb_lt in E; apply Z.ltb_lt; auto|].
  apply Z.ltb_ge in E. apply Z.ltb_ge. destruct (decide (a = b)) as [->|]; [lia|].
  pose proof (Hmono b a Hb Ha ltac:(lia)). lia.
Qed.

Lemma f64_add_zero bits : f64_nonneg bits -> f64_add bits 0 = bits.
Proof.
  intros Hn. pose proof (f64_nonneg_bits bits Hn) as Hmag. destruct Hn as (Hs & Hf & Hb).
  unfold f64_add. destruct (finite_not_special bits Hf) as [-> ->].
  change (is_nan 0) with false. change (is_inf 0) with false. cbn [orb].
  pose proof (pack_unpack binary64 bits binary64_ok Hf) as Hp. rewrite Hmag in Hp.
  change (unpack binary64 0) with (0, -1074). change (sign_bit binary64 0) with false. rewrite Hs.
  assert (-1074 <= (unpack binary64 bits).2 /\ 0 <= (unpack binary64 bits).1) as [He Hm].
  { unfold unpack. set (P := 2 ^ (prec binary64 - 1)). assert (0 < P) by done.
    pose proof (Z.mod_pos_bound (magnitude binary64 bits) P ltac:(lia)).
    assert (0 <= magnitude binary64 bits / P) by (apply Z.div_pos; lia).
    destruct (_ =? 0) eqn:E; simpl; [lia|]. apply Z.eqb_neq in E. lia. }
  destruct (unpack binary64 bits) as [m e]. simpl in He, Hm.
  rewrite Z.min_r by lia. set (k := e - -1074). unfold signed. cbn [andb].
  replace (m * 2 ^ k + 0 * 2 ^ (-1074 - -1074)) with (m * 2 ^ k) by lia.
  assert (0 < 2 ^ k) by (unfold k; lia).
  destruct (m * 2 ^ k =? 0) eqn:E.
  - apply Z.eqb_eq in E. assert (m = 0) as -> by nia. rewrite <- Hp. reflexivity.
  - rewrite (proj2 (Z.ltb_ge _ 0)), Z.abs_eq by lia.
    replace (-1074) with (e - k) by (unfold k; lia). rewrite pack_shift by (unfold k; lia). by rewrite Hp.
Qed.

Lemma f64_sub_one z : int53 z -> 1 <= z -> f64_sub (f64_of_Z z) f64_one = f64_of_Z (z - 1).
Proof.
  intros Hz H1. destruct (f64_of_Z_exact z Hz) as ((Hs & Hf & _) & _ & k & Hk & Hu).
  destruct (f64_of_Z_exact (z - 1)) as (_ & -> & _); [unfold int53 in *; lia|].
  unfold f64_sub, f64_add. destruct (finite_not_special _ Hf) as [-> ->].
  change (is_nan (f64_neg f64_one)) with false. change (is_inf (f64_neg f64_one)) with false.
  change (sign_bit binary64 (f64_neg f64_one)) with true.
  change (unpack binary64 (f64_neg f64_one)) with (2 ^ 52, -52). rewrite Hu, Hs. cbn [orb andb signed].
  set (e := Z.min (- k) (-52)).
  assert (z * 2 ^ k * 2 ^ (- k - e) + - (2 ^ 52 * 2 ^ (-52 - e)) = (z - 1) * 2 ^ (- e)) as ->.
  { rewrite <- Z.mul_assoc, <- !Z.pow_add_r by (unfold e; lia).
    replace (k + (- k - e)) with (- e) by lia. replace (52 + (-52 - e)) with (- e) by lia. lia. }
  assert (0 < 2 ^ (- e)) by (unfold e; lia).
  destruct (_ =? 0) eqn:E.
  - apply Z.eqb_eq in E. assert (z = 1) as -> by nia. reflexivity.
  - rewrite (proj2 (Z.ltb_ge _ 0)), Z.abs_eq by nia.
    replace e with (0 - (- e)) at 2 by lia. rewrite pack_shift by (unfold e; lia). done.
Qed.

(** No time passed: nothing is refilled. *)
Lemma f64_mul_zero_l bits : f64_nonneg bits -> f64_mul 0 bits = 0.
Proof.
  intros (Hs & Hf & _). unfold f64_mul. destruct (finite_not_special bits Hf) as [-> ->].
  change (is_nan 0) with false. change (is_inf 0) with false. cbn [orb].
  change (unpack binary64 0) with (0, -1074). rewrite Hs. by destruct (unpack binary64 bits).
Qed.
