(* ===== verification/Json.v ===== *)
(** * The JSON library, as an interface

    The gateway uses the nlohmann::json package, which is not part of the
    repository.  Its documented data model is the interface [JsonLib]: a value
    is one of the alternatives of [jview], a value built from a scalar is seen
    as that scalar, one built from a list is that array, and one built from an object has the members it was built
    from, in whatever order.  The accessors the code calls ([is_string],
    [get<long long>], ...) are defined on that view; [get] on a floating-point
    value is a [static_cast], undefined when the value does not fit.  [jtree]
    is a concrete instance for examples. *)

From S2P Require Import Prelude Float.

(** ** The interface *)

Inductive jview (J : Type) :=
| JNull
| JBool (b : bool)
| JInt (z : Z)            (** [number_integer]: 64-bit signed *)
| JUint (z : Z)           (** [number_unsigned]: 64-bit unsigned *)
| JFloat (bits : Z)       (** [number_float]: the pattern of a [double] *)
| JString (s : string)
| JArray (l : list J)
| JObject (l : list (string * J)).
Arguments JNull {J}.
Arguments JBool {J}.
Arguments JInt {J}.
Arguments JUint {J}.
Arguments JFloat {J}.
Arguments JString {J}.
Arguments JArray {J}.
Arguments JObject {J}.

Definition scalar {J} (v : jview J) : bool :=
  match v with JArray _ | JObject _ => false | _ => true end.

Class JsonLib := {
  json : Type;
  view : json -> jview json;
  inject : jview json -> json;
  view_inject : forall v, scalar v = true -> view (inject v) = v;
  view_object : forall l, NoDup l.*1 -> exists l', view (inject (JObject l)) = JObject l' /\ Permutation l' l;
  view_array : forall l, view (inject (JArray l)) = JArray l
}.

(** ** The accessors *)

Section Accessors.
Context {J : JsonLib}.

Definition is_string (j : json) : bool := match view j with JString _ => true | _ => false end.
Definition is_number (j : json) : bool :=
  match view j with JInt _ | JUint _ | JFloat _ => true | _ => false end.
Definition is_number_float (j : json) : bool := match view j with JFloat _ => true | _ => false end.

Definition get_string (j : json) : res string :=
  match view j with JString s => Ok s | _ => Err "type_error" end.

(** [get<long long>] and [get<unsigned long long>]. *)
Definition get_int64 (j : json) : res Z :=
  match view j with
  | JInt z | JUint z => Ok (to_signed 64 z)
  | JFloat bits =>
      match f64_trunc bits with
      | Some z => if (- 2 ^ 63 <=? z) && (z <? 2 ^ 63) then Ok z else Fault
      | None => Fault
      end
  | JBool b => Ok (if b then 1 else 0)
  | _ => Err "type_error"
  end.

Definition get_uint64 (j : json) : res Z :=
  match view j with
  | JInt z | JUint z => Ok (to_u64 z)
  | JFloat bits =>
      match f64_trunc bits with
      | Some z => if (0 <=? z) && (z <? 2 ^ 64) then Ok z else Fault
      | None => Fault
      end
  | JBool b => Ok (if b then 1 else 0)
  | _ => Err "type_error"
  end.

(** [get<double>]: integers are converted to the nearest double. *)
Definition get_double (j : json) : res Z :=
  match view j with
  | JInt z | JUint z => Ok (f64_of_Z z)
  | JFloat bits => Ok bits
  | JBool b => Ok (f64_of_Z (if b then 1 else 0))
  | _ => Err "type_error"
  end.

(** [j.value(key, default)] reads a member of an object, converted to the type
    of the default; [None] is the exception of a value that is no object or a
    member of another type. *)
Definition member (l : list (string * json)) (key : string) : option json :=
  snd <$> List.find (fun entry => String.eqb (fst entry) key) l.

Definition contains (j : json) (key : string) : bool :=
  match view j with JObject l => bool_decide (is_Some (member l key)) | _ => false end.

Definition field_string (l : list (string * json)) (key default : string) : option string :=
  match member l key with
  | None => Some default
  | Some x => match view x with JString s => Some s | _ => None end
  end.

Definition field_bool (l : list (string * json)) (key : string) (default : bool) : option bool :=
  match member l key with
  | None => Some default
  | Some x => match view x with JBool b => Some b | _ => None end
  end.

(** An integer [width] bits wide; a floating-point member is [static_cast], a
    [Fault] when it does not fit. *)
Definition field_int (width : Z) (l : list (string * json)) (key : string) (default : Z) : res (option Z) :=
  match member l key with
  | None => Ok (Some default)
  | Some x =>
      match view x with
      | JInt z | JUint z => Ok (Some (to_signed width z))
      | JBool b => Ok (Some (if b then 1 else 0))
      | JFloat bits =>
          match f64_trunc bits with
          | Some z => if (- 2 ^ (width - 1) <=? z) && (z <? 2 ^ (width - 1)) then Ok (Some z) else Fault
          | None => Fault
          end
      | _ => Ok None
      end
  end.

Definition value_string (j : json) (key default : string) : option string :=
  match view j with JObject l => field_string l key default | _ => None end.
Definition value_int (width : Z) (j : json) (key : string) (default : Z) : res (option Z) :=
  match view j with JObject l => field_int width l key default | _ => Ok None end.

Lemma member_perm l l' key : NoDup l.*1 -> Permutation l l' -> member l key = member l' key.
Proof.
  intros Hnd Hp. unfold member.
  destruct (List.find _ l) as [[k x]|] eqn:E; simpl.
  - apply find_some_elem in E as [Hin Hk]. simpl in Hk. apply String.eqb_eq in Hk as ->.
    rewrite (find_unique fst _ l' (key, x)); [done|by rewrite <- Hp|by rewrite <- Hp|by apply String.eqb_refl|].
    intros [k y] Hy. by apply String.eqb_eq in Hy.
  - assert (forall y, y ∈ l' -> String.eqb y.1 key = false) as Hn.
    { intros y Hy. rewrite <- Hp in Hy. by apply (find_none_elem _ _ _ E). }
    destruct (List.find _ l') as [y|] eqn:E'; [|done]. apply find_some_elem in E' as [Hy Hk].
    by rewrite Hn in Hk.
Qed.

(** A member of an object that was built member by member. *)
Lemma value_string_object l key default s : NoDup l.*1 -> member l key = Some (inject (JString s)) ->
  value_string (inject (JObject l)) key default = Some s.
Proof.
  intros Hnd Hm. unfold value_string, field_string. destruct (view_object l Hnd) as (l' & -> & Hp).
  rewrite (member_perm l' l key), Hm; [by rewrite view_inject|by rewrite Hp|done].
Qed.

Lemma value_int_object l key default z : NoDup l.*1 -> - 2 ^ 31 <= z < 2 ^ 31 ->
  member l key = Some (inject (JInt z)) -> value_int 32 (inject (JObject l)) key default = Ok (Some z).
Proof.
  intros Hnd Hz Hm. unfold value_int, field_int. destruct (view_object l Hnd) as (l' & -> & Hp).
  rewrite (member_perm l' l key), Hm; [|by rewrite Hp|done]. rewrite view_inject by done.
  change (to_signed 32 z) with (to_int32 z). by rewrite to_int32_id.
Qed.

End Accessors.

(** ** A concrete instance *)

Inductive jtree :=
| TNull
| TBool (b : bool)
| TInt (z : Z)
| TUint (z : Z)
| TFloat (bits : Z)
| TString (s : string)
| TArray (l : list jtree)
| TObject (l : list (string * jtree)).

Definition jtree_view (t : jtree) : jview jtree :=
  match t with
  | TNull => JNull | TBool b => JBool b | TInt z => JInt z | TUint z => JUint z
  | TFloat b => JFloat b | TString s => JString s | TArray l => JArray l | TObject l => JObject l
  end.

Definition jtree_inject (v : jview jtree) : jtree :=
  match v with
  | JNull => TNull | JBool b => TBool b | JInt z => TInt z | JUint z => TUint z
  | JFloat b => TFloat b | JString s => TString s | JArray l => TArray l | JObject l => TObject l
  end.

Lemma jtree_view_inject v : scalar v = true -> jtree_view (jtree_inject v) = v.
Proof. by destruct v. Qed.

Lemma jtree_view_object l : NoDup l.*1 ->
  exists l', jtree_view (jtree_inject (JObject l)) = JObject l' /\ Permutation l' l.
Proof. intros _. by exists l. Qed.

Definition jtree_json : JsonLib := {|
  json := jtree; view := jtree_view; inject := jtree_inject; view_inject := jtree_view_inject;
  view_object := jtree_view_object; view_array := fun _ => eq_refl
|}.
