(* ===== verification/JsonFile.v ===== *)
(** * JSON documents kept in files

    A configuration or state file is read with [in >> root] and written with
    [out << root.dump(2)], a document in a database column is parsed and dumped
    as a whole; these belong to the JSON library and are the interface
    [JsonFiles].  A document without signed or floating-point numbers
    is read back as it was written ([plain]; a number may come back with
    another type).  [coded_files] is a concrete instance. *)

From stdpp Require Import countable.
From S2P Require Import Prelude Text Json.

Class JsonFileOps {J : JsonLib} := {
  read_json : list Z -> option json;        (** [None]: an exception *)
  dump_json : json -> option (list Z);      (** [None]: a text that is not UTF-8 throws *)
  parse_text : list Z -> option json;       (** [json::parse] of a whole text *)
  dump_text : json -> option (list Z)       (** [dump()] *)
}.

Section Plain.
Context {J : JsonLib}.

Inductive plain (j : json) : Prop :=
| plain_leaf : match view j with JNull | JBool _ | JUint _ | JString _ => True | _ => False end -> plain j
| plain_items l : view j = JArray l -> Forall plain l -> plain j
| plain_members l : view j = JObject l -> Forall (fun e => plain e.2) l -> plain j.

Lemma plain_string s : plain (inject (JString s)).
Proof. apply plain_leaf. by rewrite view_inject. Qed.
Lemma plain_array l : Forall plain l -> plain (inject (JArray l)).
Proof. intros H. apply (plain_items _ l); [apply view_array|done]. Qed.
Lemma plain_object l : NoDup l.*1 -> Forall (fun e => plain e.2) l -> plain (inject (JObject l)).
Proof.
  intros Hnd H. destruct (view_object l Hnd) as (l' & Hv & Hp). apply (plain_members _ l' Hv). by rewrite Hp.
Qed.
Lemma plain_array_items j l : plain j -> view j = JArray l -> Forall plain l.
Proof. intros [H|l' E H|l' E H] Hv; rewrite Hv in *; [done|by injection E as ->|done]. Qed.
Lemma plain_strings l : plain (inject (JArray (map (fun s => inject (JString s)) l))).
Proof. apply plain_array, Forall_map, Forall_true. intros s. apply plain_string. Qed.
End Plain.

Class JsonFiles {J : JsonLib} := {
  json_file_ops :: JsonFileOps;
  read_dump j bs : plain j -> dump_json j = Some bs -> read_json bs = Some j;
  parse_dump_text j bs : plain j -> dump_text j = Some bs -> parse_text bs = Some j;
  dump_text_no_nul j bs : dump_text j = Some bs -> 0 ∉ bs          (** control characters are escaped *)
}.

(** ** A concrete instance: a tree coded as a number, the number in binary *)

Fixpoint tree_code (t : jtree) : gen_tree (Z + string) :=
  match t with
  | TNull => GenNode 0 []
  | TBool b => GenNode (if b then 1 else 2) []
  | TInt z => GenNode 3 [GenLeaf (inl z)]
  | TUint z => GenNode 4 [GenLeaf (inl z)]
  | TFloat z => GenNode 5 [GenLeaf (inl z)]
  | TString s => GenNode 6 [GenLeaf (inr s)]
  | TArray l => GenNode 7 (map tree_code l)
  | TObject l => GenNode 8 (map (fun e => GenNode 9 [GenLeaf (inr e.1); tree_code e.2]) l)
  end.

Fixpoint code_tree (g : gen_tree (Z + string)) : jtree :=
  match g with
  | GenNode 1 [] => TBool true
  | GenNode 2 [] => TBool false
  | GenNode 3 [GenLeaf (inl z)] => TInt z
  | GenNode 4 [GenLeaf (inl z)] => TUint z
  | GenNode 5 [GenLeaf (inl z)] => TFloat z
  | GenNode 6 [GenLeaf (inr s)] => TString s
  | GenNode 7 l => TArray (map code_tree l)
  | GenNode 8 l => TObject (map (fun g => match g with GenNode 9 [GenLeaf (inr k); x] => (k, code_tree x) | _ => (EmptyString, TNull) end) l)
  | _ => TNull
  end.

(** The induction principle that sees through lists. *)
Section TreeInd.
Variable P : jtree -> Prop.
Hypothesis Hleaf : forall t, scalar (jtree_view t) = true -> P t.
Hypothesis Harray : forall l, Forall P l -> P (TArray l).
Hypothesis Hobject : forall l, Forall (fun e => P e.2) l -> P (TObject l).

Fixpoint jtree_rec' (t : jtree) : P t.
Proof.
  refine (match t with TArray l => Harray l _ | TObject l => Hobject l _ | t => Hleaf t eq_refl end).
  - induction l as [|x l IH]; constructor; [apply jtree_rec'|exact IH].
  - induction l as [|x l IH]; constructor; [apply jtree_rec'|exact IH].
Defined.
End TreeInd.

Lemma code_tree_code t : code_tree (tree_code t) = t.
Proof.
  induction t as [t Ht|l IH|l IH] using jtree_rec'.
  - destruct t; try done; by destruct b.
  - cbn. f_equal. induction IH as [|x l Hx _ IH]; [done|]. cbn. by rewrite Hx, IH.
  - cbn. f_equal. induction IH as [|[k x] l Hx _ IH]; [done|]. cbn in *. by rewrite Hx, IH.
Qed.

(** The binary digits, the lowest first. *)
Fixpoint digits_of (p : positive) : list Z :=
  match p with xH => [] | xO p => 48 :: digits_of p | xI p => 49 :: digits_of p end.
Fixpoint of_digits (l : list Z) : positive :=
  match l with [] => xH | b :: l => if b =? 48 then xO (of_digits l) else xI (of_digits l) end.
Lemma of_digits_of p : of_digits (digits_of p) = p.
Proof. induction p as [p IH|p IH|]; cbn; by rewrite ?IH. Qed.

#[export] Instance coded_ops : JsonFileOps (J := jtree_json) := {
  read_json bs := code_tree <$> decode (A := gen_tree (Z + string)) (of_digits bs);
  dump_json t := Some (digits_of (encode (tree_code t)));
  parse_text bs := code_tree <$> decode (A := gen_tree (Z + string)) (of_digits bs);
  dump_text t := Some (digits_of (encode (tree_code t)))
}.

Lemma digits_of_no_nul p : 0 ∉ digits_of p.
Proof. induction p as [p IH|p IH|]; cbn; rewrite ?not_elem_of_cons; [by split|by split|apply not_elem_of_nil]. Qed.

#[export] Instance coded_files : JsonFiles (J := jtree_json).
Proof.
  refine {| json_file_ops := coded_ops |}; [intros j bs _ H..|intros j bs H]; cbn in *; injection H as <-;
    try (rewrite of_digits_of, decode_encode; cbn; by rewrite code_tree_code). apply digits_of_no_nul.
Defined.
