(* ===== verification/WebReply.v ===== *)
(** * Replies of the web server (src/WebServer.cpp)

    What a handler answers: a status and a JSON value; and the shorthands the
    handlers build the value with. *)

From S2P Require Import Prelude Text Json.

Record response {J : JsonLib} := mkResponse { code : Z; payload : json }.
Arguments mkResponse {J} _ _.

Section Replies.
Context {J : JsonLib}.

Definition object (fields : list (string * json)) : json := inject (JObject fields).
Definition jtext (text : list Z) : json := inject (JString (text_of text)).
Definition jstring (text : string) : json := inject (JString text).
Definition jint (z : Z) : json := inject (JInt z).
Definition jbool (b : bool) : json := inject (JBool b).
Definition jlist (l : list json) : json := inject (JArray l).

Definition failure (code : Z) (error : string) : response :=
  mkResponse code (object [("success"%string, jbool false); ("error"%string, jstring error)]).
Definition success (fields : list (string * json)) : response :=
  mkResponse 200 (object (("success"%string, jbool true) :: fields)).
End Replies.
