(* ===== verification/ModbusCodec.v ===== *)
(** * Typed values in runs of Modbus registers (src/ModbusCodec.cpp)

    [DecodeRegisters] and [EncodeRegisters] move numbers and strings between
    JSON and 16-bit registers under a format: a type, two swap flags, and the
    byte length of a string.  The unsigned value a format reads is assembled
    in 64-bit arithmetic; a [double] that does not fit the integer it is cast
    to is undefined behaviour, [Fault]. *)

From S2P Require Import Prelude Words Text Float Json.

(** ** Formats *)

Inductive RegisterType :=
| kUInt16 | kInt16 | kUInt32 | kInt32 | kUInt64 | kInt64 | kFloat32 | kFloat64 | kString.

#[global] Instance RegisterType_eq_dec : EqDecision RegisterType.
Proof. solve_decision. Defined.

Record RegisterFormat := mkFmt {
  type : RegisterType;
  byte_swap : bool;
  word_swap : bool;
  fmt_length : Z            (** [length]: for strings, in bytes *)
}.

Definition ToString (t : RegisterType) : string :=
  match t with
  | kInt16 => "int16" | kUInt32 => "uint32" | kInt32 => "int32" | kUInt64 => "uint64"
  | kInt64 => "int64" | kFloat32 => "float32" | kFloat64 => "float64" | kString => "string"
  | kUInt16 => "uint16"
  end.

(** [t == a || t == b || ...] *)
Definition one_of (t : string) (names : list string) : bool :=
  existsb (fun n => String.eqb t n) names.

Definition ParseRegisterType (text : string) : option RegisterType :=
  let t := Lower text in
  if one_of t ["uint16"; "u16"; "word"; "ushort"]%string then Some kUInt16
  else if one_of t ["int16"; "i16"; "s16"; "short"]%string then Some kInt16
  else if one_of t ["uint32"; "u32"; "dword"; "udint"]%string then Some kUInt32
  else if one_of t ["int32"; "i32"; "s32"; "dint"]%string then Some kInt32
  else if one_of t ["uint64"; "u64"; "lword"; "ulint"]%string then Some kUInt64
  else if one_of t ["int64"; "i64"; "s64"; "lint"]%string then Some kInt64
  else if one_of t ["float32"; "f32"; "float"; "real"]%string then Some kFloat32
  else if one_of t ["float64"; "f64"; "double"; "lreal"]%string then Some kFloat64
  else if one_of t ["string"; "str"; "ascii"; "char"]%string then Some kString
  else None.

(** The pair [(byteSwap, wordSwap)]. *)
Definition ParseEndian (text : string) : option (bool * bool) :=
  let t := Lower text in
  if one_of t ["abcd"; "big"; "big_endian"; "be"]%string then Some (false, false)
  else if one_of t ["badc"; "big_byte_swap"; "big_endian_byte_swap"; "be_bs"]%string
  then Some (true, false)
  else if one_of t ["cdab"; "little_byte_swap"; "little_endian_byte_swap"; "word_swap";
                    "mid_little"; "le_bs"]%string then Some (false, true)
  else if one_of t ["dcba"; "little"; "little_endian"; "le"]%string then Some (true, true)
  else None.

Definition EndianName (byteSwap wordSwap : bool) : string :=
  if negb byteSwap && negb wordSwap then "ABCD"
  else if byteSwap && negb wordSwap then "BADC"
  else if negb byteSwap && wordSwap then "CDAB"
  else "DCBA".

Definition RegisterCount (format : RegisterFormat) : Z :=
  match type format with
  | kUInt16 | kInt16 => 1
  | kUInt32 | kInt32 | kFloat32 => 2
  | kUInt64 | kInt64 | kFloat64 => 4
  | kString => Z.max 1 (Z.quot (Z.max 0 (fmt_length format) + 1) 2)
  end.

(** ** Bytes *)

Definition split_word (byteSwap : bool) (word : Z) : list Z :=
  let hi := Z.land (Z.shiftr word 8) 0xFF in
  let lo := Z.land word 0xFF in
  if byteSwap then [lo; hi] else [hi; lo].

Definition ToBytes (registers : list Z) (byteSwap wordSwap : bool) : list Z :=
  let words := if wordSwap then rev registers else registers in
  concat (map (split_word byteSwap) words).

Fixpoint join_words (bytes : list Z) (byteSwap : bool) : list Z :=
  match bytes with
  | first :: second :: rest =>
      (if byteSwap then to_u16 (Z.lor (Z.shiftl second 8) first)
       else to_u16 (Z.lor (Z.shiftl first 8) second)) :: join_words rest byteSwap
  | _ => []
  end.

Definition FromBytes (bytes : list Z) (byteSwap wordSwap : bool) : list Z :=
  let words := join_words bytes byteSwap in
  if wordSwap then rev words else words.

Definition ReadBigEndian (bytes : list Z) (count : nat) : Z :=
  foldl (fun value b => to_u64 (Z.lor (Z.shiftl value 8) b)) 0 (take count bytes).

Definition WriteBigEndian (bytes : list Z) (value : Z) (count : nat) : list Z :=
  bytes ++ map (fun i => Z.land (Z.shiftr value (8 * Z.of_nat (count - 1 - i))) 0xFF) (seq 0 count).

(** ** Decoding *)

(** [if (bytes[i] == 0) break;] *)
Fixpoint until_nul (bytes : list Z) : list Z :=
  match bytes with
  | [] => []
  | b :: rest => if b =? 0 then [] else b :: until_nul rest
  end.

(** [while (back is ' ' or '\t') pop_back();] on the reversed text. *)
Fixpoint drop_blanks (reversed : list Z) : list Z :=
  match reversed with
  | b :: rest => if (b =? 32) || (b =? 9) then drop_blanks rest else reversed
  | [] => []
  end.

Section Codec.
Context {J : JsonLib}.

Definition DecodeRegisters (format : RegisterFormat) (registers : list Z) : res json :=
  let needed := RegisterCount format in
  if Z.of_nat (length registers) <? needed
  then Err ("expected " ++ to_string needed ++ " register(s), got "
            ++ to_string (Z.of_nat (length registers)))
  else
    let bytes := ToBytes (take (Z.to_nat needed) registers) (byte_swap format) (word_swap format) in
    Ok (inject
      match type format with
      | kUInt16 => JUint (to_u16 (ReadBigEndian bytes 2))
      | kInt16 => JInt (to_signed 16 (ReadBigEndian bytes 2))
      | kUInt32 => JUint (to_u32 (ReadBigEndian bytes 4))
      | kInt32 => JInt (to_signed 32 (ReadBigEndian bytes 4))
      | kUInt64 => JUint (ReadBigEndian bytes 8)
      | kInt64 => JInt (to_signed 64 (ReadBigEndian bytes 8))
      | kFloat32 =>
          let raw := to_u32 (ReadBigEndian bytes 4) in
          if negb (is_finite binary32 raw) then JNull else JFloat (f64_of_f32 raw)
      | kFloat64 =>
          let raw := ReadBigEndian bytes 8 in
          if negb (is_finite binary64 raw) then JNull else JFloat raw
      | kString =>
          let limit := Nat.min (length bytes) (Z.to_nat (Z.max 0 (fmt_length format))) in
          JString (text_of (rev (drop_blanks (rev (until_nul (take limit bytes))))))
      end).

(** ** Encoding *)

Definition not_fit {A} (v : Z) (type_name : string) : res A :=
  Err ("value " ++ to_string v ++ " does not fit " ++ type_name).

Definition checkSigned (t : RegisterType) (v lo hi : Z) : res unit :=
  if (v <? lo) || (hi <? v) then not_fit v (ToString t) else Ok tt.

Definition checkUnsigned (t : RegisterType) (v hi : Z) : res unit :=
  if hi <? v then not_fit v (ToString t) else Ok tt.

(** The switch on the integer types: the bytes to be split into words. *)
Definition encode_int (t : RegisterType) (value : json) : res (list Z) :=
  match t with
  | kUInt16 =>
      v ← get_int64 value;
      if v <? 0 then not_fit v "uint16"
      else _ ← checkUnsigned t v 0xFFFF; Ok (WriteBigEndian [] v 2)
  | kInt16 =>
      v ← get_int64 value;
      _ ← checkSigned t v (-32768) 32767; Ok (WriteBigEndian [] (to_u16 v) 2)
  | kUInt32 =>
      v ← get_int64 value;
      if v <? 0 then not_fit v "uint32"
      else _ ← checkUnsigned t v 0xFFFFFFFF; Ok (WriteBigEndian [] v 4)
  | kInt32 =>
      v ← get_int64 value;
      _ ← checkSigned t v (-2147483648) 2147483647; Ok (WriteBigEndian [] (to_u32 v) 4)
  | kUInt64 => v ← get_uint64 value; Ok (WriteBigEndian [] v 8)
  | kInt64 => v ← get_int64 value; Ok (WriteBigEndian [] (to_u64 v) 8)
  | _ => Err "unsupported register type"
  end.

(** The text, NUL padded to the width of the field. *)
Definition encode_string (format : RegisterFormat) (text : string) : res (list Z) :=
  let bytes := bytes_of text in
  let width := Z.to_nat (RegisterCount format * 2) in
  if (width <? length bytes)%nat
  then Err ("string is " ++ to_string (Z.of_nat (length bytes)) ++ " bytes, field holds "
            ++ to_string (Z.of_nat width))
  else Ok (bytes ++ replicate (width - length bytes) 0).

Definition EncodeRegisters (format : RegisterFormat) (value : json) : res (list Z) :=
  let finish := fun bytes => Ok (FromBytes bytes (byte_swap format) (word_swap format)) in
  match type format with
  | kString =>
      if negb (is_string value) then Err "expected a string value"
      else text ← get_string value; bytes ← encode_string format text; finish bytes
  | kFloat32 | kFloat64 =>
      if negb (is_number value) then Err "expected a numeric value"
      else
        d ← get_double value;
        match type format with
        | kFloat32 => finish (WriteBigEndian [] (f32_of_f64 d) 4)
        | _ => finish (WriteBigEndian [] d 8)
        end
  | t =>
      if negb (is_number value) then Err "expected a numeric value"
      else
        whole ← (if is_number_float value then d ← get_double value; Ok (f64_is_whole d) else Ok true);
        if negb whole then Err ("expected a whole number for " ++ ToString t)
        else bytes ← encode_int t value; finish bytes
  end.

End Codec.

(** ** Words and bytes *)

Lemma split_word_bytes_ok bs w : bytes_ok (split_word bs w).
Proof.
  unfold split_word. rewrite !land_255. destruct bs; repeat constructor; apply to_u8_range.
Qed.

Lemma ToBytes_bytes_ok ws bs wsw : bytes_ok (ToBytes ws bs wsw).
Proof.
  unfold ToBytes. set (l := if wsw then rev ws else ws). clearbody l.
  induction l; simpl; [constructor|]. apply Forall_app. eauto using split_word_bytes_ok.
Qed.

Lemma length_ToBytes ws bs wsw : length (ToBytes ws bs wsw) = (2 * length ws)%nat.
Proof.
  unfold ToBytes. assert (length (if wsw then rev ws else ws) = length ws) as <-.
  { destruct wsw; [apply length_rev|done]. }
  induction (if wsw then rev ws else ws) as [|w l IH]; simpl; [done|].
  rewrite length_app, IH. destruct bs; simpl; lia.
Qed.

Lemma join_split_words bs l : words_ok l -> join_words (concat (map (split_word bs) l)) bs = l.
Proof.
  induction 1 as [|w l Hw Hl IH]; simpl; [done|]. unfold split_word at 1.
  rewrite !land_255. pose proof (join_split_u16 w Hw) as E.
  destruct bs; simpl; by rewrite E, IH.
Qed.

Lemma FromBytes_ToBytes ws bs wsw : words_ok ws -> FromBytes (ToBytes ws bs wsw) bs wsw = ws.
Proof.
  intros H. unfold FromBytes, ToBytes. rewrite join_split_words.
  - destruct wsw; [apply rev_involutive|done].
  - destruct wsw; [by apply Forall_rev|done].
Qed.

Lemma join_words_spec n : forall bytes bs, bytes_ok bytes -> length bytes = (2 * n)%nat ->
  length (join_words bytes bs) = n /\ words_ok (join_words bytes bs) /\
  concat (map (split_word bs) (join_words bytes bs)) = bytes.
Proof.
  induction n as [|n IH]; intros bytes bs Hb Hl.
  - by destruct bytes.
  - destruct bytes as [|a [|b bytes]]; simpl in Hl; [lia|lia|].
    inversion Hb as [|? ? Ha Hb']; subst. inversion Hb' as [|? ? Hb2 Hb3]; subst.
    destruct (IH bytes bs Hb3) as (H1 & H2 & H3); [lia|]. simpl. rewrite H1, H3.
    split; [done|]. split.
    + constructor; [|done]. unfold word_ok. destruct bs; apply to_u16_range.
    + unfold split_word. rewrite !land_255.
      destruct (split_join_u16 a b Ha Hb2) as [E1 E2]. destruct (split_join_u16 b a Hb2 Ha) as [E3 E4].
      destruct bs; simpl; by rewrite ?E1, ?E2, ?E3, ?E4.
Qed.

Lemma FromBytes_spec n bytes bs wsw : bytes_ok bytes -> length bytes = (2 * n)%nat ->
  length (FromBytes bytes bs wsw) = n /\ words_ok (FromBytes bytes bs wsw) /\
  ToBytes (FromBytes bytes bs wsw) bs wsw = bytes.
Proof.
  intros Hb Hl. destruct (join_words_spec n bytes bs Hb Hl) as (H1 & H2 & H3).
  unfold FromBytes, ToBytes. destruct wsw; [|done].
  rewrite length_rev, rev_involutive. split_and!; [done|by apply Forall_rev|done].
Qed.

(** ** Big-endian values *)

Definition be_value (bytes : list Z) : Z := foldl (fun v b => v * 256 + b) 0 bytes.

Fixpoint be_digits (n : nat) (v : Z) : list Z :=
  match n with
  | O => []
  | S n' => be_digits n' (v / 256) ++ [v mod 256]
  end.

Lemma be_value_snoc bytes b : be_value (bytes ++ [b]) = be_value bytes * 256 + b.
Proof. unfold be_value. by rewrite foldl_app. Qed.

Lemma be_value_bound bytes : bytes_ok bytes -> 0 <= be_value bytes < 256 ^ Z.of_nat (length bytes).
Proof.
  induction bytes as [|b bytes IH] using rev_ind; intros H.
  - done.
  - apply Forall_app in H as [H Hb]. inversion Hb as [|? ? Hb' _]; subst. unfold byte_ok in Hb'.
    rewrite be_value_snoc, length_app. simpl. replace (Z.of_nat (length bytes + 1)) with (Z.succ (Z.of_nat (length bytes))) by lia.
    rewrite Z.pow_succ_r by lia. specialize (IH H). lia.
Qed.

Lemma lor_shiftl_8 v b : byte_ok b -> Z.lor (Z.shiftl v 8) b = v * 256 + b.
Proof. intros Hb. exact (lor_shiftl_add v b 8 ltac:(lia) Hb). Qed.

Lemma ReadBigEndian_value bytes n : bytes_ok bytes -> (length bytes <= 8)%nat -> n = length bytes ->
  ReadBigEndian bytes n = be_value bytes.
Proof.
  intros Hb Hl ->. unfold ReadBigEndian. rewrite take_ge by lia.
  induction bytes as [|b bytes IH] using rev_ind; [done|].
  apply Forall_app in Hb as [Hb Hb1]. rewrite length_app in Hl. simpl in Hl.
  rewrite foldl_app, be_value_snoc. simpl. rewrite IH by (done || lia).
  apply Forall_inv in Hb1. rewrite (lor_shiftl_8 _ b Hb1).
  pose proof (be_value_bound bytes Hb) as Hv. unfold byte_ok in Hb1.
  apply Z.mod_small.
  assert (256 ^ Z.of_nat (length bytes) <= 256 ^ 7) by (apply Z.pow_le_mono_r; lia).
  change (2 ^ 64) with (256 ^ 7 * 256). lia.
Qed.

Lemma length_be_digits n v : length (be_digits n v) = n.
Proof. revert v. induction n; intros; simpl; [done|]. rewrite length_app, IHn. simpl. lia. Qed.

Lemma be_digits_bytes_ok n : forall v, bytes_ok (be_digits n v).
Proof.
  induction n; intros; simpl; [constructor|]. apply Forall_app. split; [done|].
  apply Forall_singleton, Z.mod_pos_bound. lia.
Qed.

Lemma WriteBigEndian_digits out n : forall v, WriteBigEndian out v n = out ++ be_digits n v.
Proof.
  unfold WriteBigEndian. induction n as [|n IH]; intros v; [done|].
  rewrite seq_S, map_app. simpl be_digits. rewrite !app_assoc. f_equal.
  - rewrite <- IH. f_equal. apply map_ext_in. intros i Hi. apply in_seq in Hi.
    rewrite !land_255. f_equal.
    change (v / 256) with (v / 2 ^ 8). rewrite <- Z.shiftr_div_pow2, Z.shiftr_shiftr by lia.
    f_equal. lia.
  - simpl. rewrite land_255. do 2 f_equal.
    replace (8 * Z.of_nat (n - 0 - n)) with 0 by lia. by rewrite Z.shiftr_0_r.
Qed.

Lemma be_value_digits n : forall v, 0 <= v < 256 ^ Z.of_nat n -> be_value (be_digits n v) = v.
Proof.
  induction n as [|n IH]; intros v Hv; [change (256 ^ Z.of_nat 0) with 1 in Hv; change (be_value (be_digits 0 v)) with 0; lia|].
  simpl. rewrite be_value_snoc. rewrite Nat2Z.inj_succ, Z.pow_succ_r in Hv by lia.
  rewrite IH.
  - pose proof (Z.div_mod v 256). lia.
  - split; [apply Z.div_pos; lia|]. apply Z.div_lt_upper_bound; lia.
Qed.

Lemma be_digits_value bytes : bytes_ok bytes -> be_digits (length bytes) (be_value bytes) = bytes.
Proof.
  induction bytes as [|b bytes IH] using rev_ind; intros H; [done|].
  apply Forall_app in H as [H Hb]. apply Forall_inv in Hb. unfold byte_ok in Hb.
  rewrite length_app, Nat.add_comm. simpl. rewrite be_value_snoc.
  rewrite Z.add_comm, Z.div_add, Z.mod_add, Z.div_small, Z.mod_small, Z.add_0_l by lia.
  by rewrite IH.
Qed.

(** Reading back what was written, and writing back what was read. *)
Lemma Read_Write n v bs wsw : (n <= 8)%nat -> (exists k, n = 2 * k)%nat -> 0 <= v < 256 ^ Z.of_nat n ->
  ReadBigEndian (ToBytes (FromBytes (WriteBigEndian [] v n) bs wsw) bs wsw) n = v /\
  length (FromBytes (WriteBigEndian [] v n) bs wsw) = (n / 2)%nat /\
  words_ok (FromBytes (WriteBigEndian [] v n) bs wsw).
Proof.
  intros Hn [k Hk] Hv. rewrite WriteBigEndian_digits, app_nil_l.
  destruct (FromBytes_spec k (be_digits n v) bs wsw) as (H1 & H2 & ->);
    [apply be_digits_bytes_ok|by rewrite length_be_digits|].
  rewrite ReadBigEndian_value, be_value_digits by
    (done || apply be_digits_bytes_ok || rewrite length_be_digits; lia).
  split_and!; [done| |done]. rewrite H1, Hk, Nat.mul_comm, Nat.div_mul by lia. done.
Qed.

Lemma Write_Read n ws bs wsw : words_ok ws -> n = (2 * length ws)%nat -> (n <= 8)%nat ->
  let v := ReadBigEndian (ToBytes ws bs wsw) n in
  0 <= v < 256 ^ Z.of_nat n /\ FromBytes (WriteBigEndian [] v n) bs wsw = ws.
Proof.
  intros Hw -> Hl. cbv zeta. pose proof (ToBytes_bytes_ok ws bs wsw) as Hb.
  pose proof (length_ToBytes ws bs wsw) as Hlen.
  rewrite ReadBigEndian_value by (done || lia).
  split; [rewrite <- Hlen; by apply be_value_bound|].
  rewrite WriteBigEndian_digits, app_nil_l, <- Hlen, be_digits_value by done.
  by apply FromBytes_ToBytes.
Qed.

(** ** Numbers *)

Section Numbers.
Context {J : JsonLib}.

Definition int_type (t : RegisterType) : bool :=
  match t with kString | kFloat32 | kFloat64 => false | _ => true end.

(** What the raw big-endian value of the registers stands for. *)
Definition decode_number (t : RegisterType) (raw : Z) : jview json :=
  match t with
  | kUInt16 => JUint (to_u16 raw)
  | kInt16 => JInt (to_signed 16 raw)
  | kUInt32 => JUint (to_u32 raw)
  | kInt32 => JInt (to_signed 32 raw)
  | kUInt64 => JUint raw
  | kInt64 => JInt (to_signed 64 raw)
  | kFloat32 => if negb (is_finite binary32 (to_u32 raw)) then JNull else JFloat (f64_of_f32 (to_u32 raw))
  | _ => if negb (is_finite binary64 raw) then JNull else JFloat raw
  end.

Definition byte_count (fmt : RegisterFormat) : nat := Z.to_nat (2 * RegisterCount fmt).

Definition raw_value (fmt : RegisterFormat) (registers : list Z) : Z :=
  ReadBigEndian (ToBytes registers (byte_swap fmt) (word_swap fmt)) (byte_count fmt).

Definition finite_number (t : RegisterType) (raw : Z) : bool :=
  match t with
  | kFloat32 => is_finite binary32 raw
  | kFloat64 => is_finite binary64 raw
  | _ => true
  end.

Lemma DecodeRegisters_number fmt regs :
  type fmt <> kString -> Z.of_nat (length regs) = RegisterCount fmt ->
  DecodeRegisters fmt regs = Ok (inject (decode_number (type fmt) (raw_value fmt regs))).
Proof.
  intros Ht Hl. unfold DecodeRegisters. rewrite Hl, Z.ltb_irrefl, <- Hl, Nat2Z.id, take_ge by lia.
  unfold raw_value, byte_count, RegisterCount. by destruct (type fmt).
Qed.

Lemma number_width fmt : type fmt <> kString ->
  (byte_count fmt <= 8)%nat /\ (exists k, byte_count fmt = 2 * k)%nat /\
  Z.of_nat (byte_count fmt / 2) = RegisterCount fmt.
Proof.
  unfold byte_count, RegisterCount. intros Ht.
  destruct (type fmt); try done; (split; [apply Nat.leb_le; reflexivity|]);
    (split; [|reflexivity]); by (exists 1%nat + exists 2%nat + exists 4%nat).
Qed.

(** The registers of a raw value read back as it. *)
Lemma written_number fmt raw :
  type fmt <> kString -> 0 <= raw < 256 ^ Z.of_nat (byte_count fmt) ->
  let regs := FromBytes (WriteBigEndian [] raw (byte_count fmt)) (byte_swap fmt) (word_swap fmt) in
  Z.of_nat (length regs) = RegisterCount fmt /\ words_ok regs /\
  DecodeRegisters fmt regs = Ok (inject (decode_number (type fmt) raw)).
Proof.
  intros Ht Hr. cbv zeta. destruct (number_width fmt Ht) as (H1 & H2 & H3).
  destruct (Read_Write (byte_count fmt) raw (byte_swap fmt) (word_swap fmt) H1 H2 Hr) as (E & Hl & Hw).
  rewrite Hl. split; [done|]. split; [done|].
  rewrite DecodeRegisters_number by (rewrite ?Hl; done). unfold raw_value. by rewrite E.
Qed.

Lemma read_number fmt regs :
  type fmt <> kString -> words_ok regs -> Z.of_nat (length regs) = RegisterCount fmt ->
  0 <= raw_value fmt regs < 256 ^ Z.of_nat (byte_count fmt) /\
  FromBytes (WriteBigEndian [] (raw_value fmt regs) (byte_count fmt)) (byte_swap fmt) (word_swap fmt) = regs.
Proof.
  intros Ht Hw Hl. destruct (number_width fmt Ht) as (H1 & _).
  apply Write_Read; [done| |done]. unfold byte_count. lia.
Qed.

(** The 64-bit integer a JSON integer gives, the values an integer type
    holds, and how it shows them. *)
Definition integer_view (v : jview json) : option Z :=
  match v with JInt z | JUint z => Some z | _ => None end.

Definition stored (t : RegisterType) (z : Z) : Z :=
  match t with kUInt64 => to_u64 z | _ => to_signed 64 z end.

Definition in_range (t : RegisterType) (v : Z) : Prop :=
  match t with
  | kUInt16 => 0 <= v <= 65535
  | kInt16 => -32768 <= v <= 32767
  | kUInt32 => 0 <= v <= 4294967295
  | kInt32 => -2147483648 <= v <= 2147483647
  | _ => True
  end.

Definition shown (t : RegisterType) (v : Z) : jview json :=
  match t with kUInt16 | kUInt32 | kUInt64 => JUint v | _ => JInt v end.

Lemma integer_accessors j z : integer_view (view j) = Some z ->
  is_number j = true /\ is_number_float j = false /\
  get_int64 j = Ok (to_signed 64 z) /\ get_uint64 j = Ok (to_u64 z).
Proof.
  unfold is_number, is_number_float, get_int64, get_uint64.
  by destruct (view j); intros; simplify_eq/=.
Qed.

(** The raw value the integer encoder writes, where the value is in range. *)
Definition raw_of (t : RegisterType) (v : Z) : Z :=
  match t with
  | kInt16 => to_u16 v
  | kInt32 => to_u32 v
  | kInt64 => to_u64 v
  | _ => v
  end.

Lemma encode_int_cases fmt j z : int_type (type fmt) = true -> integer_view (view j) = Some z ->
  let t := type fmt in
  (in_range t (stored t z) /\ encode_int t j = Ok (WriteBigEndian [] (raw_of t (stored t z)) (byte_count fmt))) \/
  (~ in_range t (stored t z) /\ exists e, encode_int t j = Err e).
Proof.
  intros Ht Hz. cbv zeta. destruct (integer_accessors j z Hz) as (_ & _ & H1 & H2).
  unfold byte_count, RegisterCount, encode_int, checkUnsigned, checkSigned, not_fit.
  rewrite ?H1, ?H2. destruct (type fmt); try done; simpl; try (left; done);
    destruct_guards; break_guards; simplify_eq/=; try (left; split; [lia|done]);
    right; (split; [lia|eauto]).
Qed.

Lemma raw_of_range fmt z : int_type (type fmt) = true ->
  let t := type fmt in in_range t (stored t z) ->
  0 <= raw_of t (stored t z) < 256 ^ Z.of_nat (byte_count fmt) /\
  decode_number t (raw_of t (stored t z)) = shown t (stored t z).
Proof.
  intros Ht. cbv zeta. unfold byte_count, RegisterCount. pose proof (to_signed_range 64 z ltac:(lia)).
  destruct (type fmt); try done; simpl in *; intros Hr;
    change (256 ^ Z.of_nat (Z.to_nat (2 * 1))) with 65536;
    change (256 ^ Z.of_nat (Z.to_nat (2 * 2))) with 4294967296;
    change (256 ^ Z.of_nat (Z.to_nat (2 * 4))) with (2 ^ 64).
  - split; [lia|]. by rewrite to_u16_id by lia.
  - split; [apply to_u16_range|]. unfold to_u16. rewrite to_signed_mod, (to_signed_id 16) by lia. done.
  - split; [lia|]. unfold to_u32. by rewrite Z.mod_small by lia.
  - split; [apply Z.mod_pos_bound; lia|]. unfold to_u32. rewrite to_signed_mod, (to_signed_id 32) by lia. done.
  - split; [apply Z.mod_pos_bound; lia|done].
  - split; [apply Z.mod_pos_bound; lia|]. unfold to_u64. rewrite to_signed_mod, (to_signed_id 64) by lia. done.
Qed.

Lemma EncodeRegisters_int fmt j : int_type (type fmt) = true -> is_number j = true ->
  is_number_float j = false ->
  EncodeRegisters fmt j =
    (bytes ← encode_int (type fmt) j; Ok (FromBytes bytes (byte_swap fmt) (word_swap fmt))).
Proof.
  intros Ht Hn Hf. unfold EncodeRegisters. rewrite Hn, Hf. by destruct (type fmt).
Qed.

Lemma encode_int_spec fmt j z : int_type (type fmt) = true -> integer_view (view j) = Some z ->
  let t := type fmt in
  match EncodeRegisters fmt j with
  | Ok regs => in_range t (stored t z) /\ Z.of_nat (length regs) = RegisterCount fmt /\ words_ok regs /\
      regs = FromBytes (WriteBigEndian [] (raw_of t (stored t z)) (byte_count fmt)) (byte_swap fmt) (word_swap fmt) /\
      DecodeRegisters fmt regs = Ok (inject (shown t (stored t z)))
  | Err _ => ~ in_range t (stored t z)
  | Fault => False
  end.
Proof.
  intros Ht Hz. cbv zeta. destruct (integer_accessors j z Hz) as (Hn & Hf & _).
  rewrite EncodeRegisters_int by done.
  destruct (encode_int_cases fmt j z Ht Hz) as [[Hr ->]|[Hr [e ->]]]; simpl; [|done].
  assert (type fmt <> kString) as Hs by (intros E; by rewrite E in Ht).
  destruct (raw_of_range fmt z Ht Hr) as [Hraw Hshow].
  destruct (written_number fmt _ Hs Hraw) as (? & ? & ->). by rewrite Hshow.
Qed.

Lemma decode_number_int fmt raw : int_type (type fmt) = true ->
  0 <= raw < 256 ^ Z.of_nat (byte_count fmt) ->
  exists z, integer_view (decode_number (type fmt) raw) = Some z /\
    in_range (type fmt) (stored (type fmt) z) /\ raw_of (type fmt) (stored (type fmt) z) = raw.
Proof.
  unfold byte_count, RegisterCount. intros Ht. destruct (type fmt); try done; simpl;
    change (256 ^ Z.of_nat (Z.to_nat (2 * 1))) with 65536;
    change (256 ^ Z.of_nat (Z.to_nat (2 * 2))) with 4294967296;
    change (256 ^ Z.of_nat (Z.to_nat (2 * 4))) with (2 ^ 64);
    intros Hr; eexists; (split; [reflexivity|]).
  - rewrite to_u16_id, to_signed_id by lia. lia.
  - pose proof (to_signed_range 16 raw ltac:(lia)). simpl in *. rewrite (to_signed_id 64) by lia.
    split; [lia|]. unfold to_u16. rewrite mod_to_signed, Z.mod_small by lia. done.
  - unfold to_u32. rewrite Z.mod_small, to_signed_id by lia. lia.
  - pose proof (to_signed_range 32 raw ltac:(lia)). simpl in *. rewrite (to_signed_id 64) by lia.
    split; [lia|]. unfold to_u32. rewrite mod_to_signed, Z.mod_small by lia. done.
  - unfold to_u64. by rewrite Z.mod_small by lia.
  - split; [done|]. unfold to_u64. by rewrite !mod_to_signed, Z.mod_small by lia.
Qed.

Lemma Encode_decoded fmt regs j :
  type fmt <> kString -> words_ok regs -> Z.of_nat (length regs) = RegisterCount fmt ->
  view j = decode_number (type fmt) (raw_value fmt regs) ->
  (finite_number (type fmt) (raw_value fmt regs) = true -> EncodeRegisters fmt j = Ok regs) /\
  (finite_number (type fmt) (raw_value fmt regs) = false ->
   EncodeRegisters fmt j = Err "expected a numeric value").
Proof.
  intros Ht Hw Hl Hj. destruct (read_number fmt regs Ht Hw Hl) as [Hr Hregs].
  destruct (int_type (type fmt)) eqn:Hint.
  - destruct (decode_number_int fmt _ Hint Hr) as (z & Hz & Hin & Hraw). rewrite <- Hj in Hz.
    pose proof (encode_int_spec fmt j z Hint Hz) as H. cbv zeta in H.
    split; [|by destruct (type fmt)]. intros _.
    destruct (EncodeRegisters fmt j); [|done|done]. destruct H as (_ & _ & _ & -> & _). by rewrite Hraw, Hregs.
  - set (raw := raw_value fmt regs) in *. unfold byte_count, RegisterCount in *.
    unfold EncodeRegisters, is_number, get_double.
    destruct (type fmt); try done; simpl in Hj, Hr |- *.
    + change (256 ^ Z.of_nat (Z.to_nat (2 * 2))) with (2 ^ 32) in Hr.
      unfold to_u32 in Hj. rewrite Z.mod_small in Hj by lia.
      split; intros Hf; rewrite Hf in Hj; simpl in Hj; rewrite Hj; simpl; [|done].
      destruct (f32_f64_f32 raw Hr Hf) as (_ & -> & _). f_equal. exact Hregs.
    + split; intros Hf; rewrite Hf in Hj; simpl in Hj; rewrite Hj; simpl; [|done]. f_equal. exact Hregs.
Qed.

(** ** Strings *)

Lemma until_nul_pad l k : Forall (fun b => b <> 0) l -> until_nul (l ++ replicate k 0) = l.
Proof.
  induction 1 as [|b l Hb Hl IH]; simpl; [by destruct k|].
  rewrite (proj2 (Z.eqb_neq b 0)) by done. by rewrite IH.
Qed.

(** The text ends with neither a space nor a tab. *)
Definition no_trailing_blank (l : list Z) : Prop :=
  match last l with Some b => b <> 32 /\ b <> 9 | None => True end.

Lemma trim_id l : no_trailing_blank l -> rev (drop_blanks (rev l)) = l.
Proof.
  unfold no_trailing_blank. destruct l as [|b l _] using rev_ind; [done|].
  rewrite last_snoc, rev_app_distr. simpl. intros [H1 H2].
  rewrite (proj2 (Z.eqb_neq b 32)), (proj2 (Z.eqb_neq b 9)) by done. simpl. by rewrite rev_involutive.
Qed.

Lemma string_width fmt : type fmt = kString ->
  exists k, (1 <= k)%nat /\ RegisterCount fmt = Z.of_nat k /\
    (Z.to_nat (Z.max 0 (fmt_length fmt)) <= 2 * k)%nat.
Proof.
  intros Ht. unfold RegisterCount. rewrite Ht.
  set (L := Z.max 0 (fmt_length fmt)). assert (0 <= L) by lia.
  rewrite Z.quot_div_nonneg by lia.
  pose proof (Z.div_mod (L + 1) 2 ltac:(lia)). pose proof (Z.mod_pos_bound (L + 1) 2 ltac:(lia)).
  exists (Z.to_nat (Z.max 1 ((L + 1) / 2))). split_and!; lia.
Qed.

Lemma Encode_string fmt j text : type fmt = kString -> view j = JString text ->
  let bytes := bytes_of text in
  match EncodeRegisters fmt j with
  | Ok regs => Z.of_nat (length bytes) <= 2 * RegisterCount fmt /\
      Z.of_nat (length regs) = RegisterCount fmt /\ words_ok regs /\
      ToBytes regs (byte_swap fmt) (word_swap fmt) =
        bytes ++ replicate (Z.to_nat (2 * RegisterCount fmt) - length bytes) 0
  | Err _ => 2 * RegisterCount fmt < Z.of_nat (length bytes)
  | Fault => False
  end.
Proof.
  intros Ht Hj bytes. destruct (string_width fmt Ht) as (k & Hk & Hc & _).
  unfold EncodeRegisters, is_string, get_string, encode_string. rewrite Ht, Hj. simpl. fold bytes.
  rewrite (Z.mul_comm _ 2). destruct (_ <? _)%nat eqn:E; reflect_bools; simpl; [lia|].
  destruct (FromBytes_spec k (bytes ++ replicate (Z.to_nat (2 * RegisterCount fmt) - length bytes) 0)
    (byte_swap fmt) (word_swap fmt)) as (-> & H2 & H3).
  - apply Forall_app. split; [apply bytes_of_ok|]. by apply Forall_replicate.
  - rewrite length_app, length_replicate. lia.
  - split_and!; [lia|lia|done|done].
Qed.

Lemma Decode_string fmt regs text : type fmt = kString ->
  let bytes := bytes_of text in
  Z.of_nat (length regs) = RegisterCount fmt ->
  ToBytes regs (byte_swap fmt) (word_swap fmt) =
    bytes ++ replicate (Z.to_nat (2 * RegisterCount fmt) - length bytes) 0 ->
  Z.of_nat (length bytes) <= Z.max 0 (fmt_length fmt) ->
  Forall (fun b => b <> 0) bytes -> no_trailing_blank bytes ->
  DecodeRegisters fmt regs = Ok (inject (JString text)).
Proof.
  intros Ht bytes Hl Hb Hlen Hnul Hblank. destruct (string_width fmt Ht) as (k & Hk & Hc & Hw).
  unfold DecodeRegisters. rewrite Hl, Z.ltb_irrefl, <- Hl, Nat2Z.id, take_ge, Ht, Hb by lia.
  rewrite length_app, length_replicate. do 3 f_equal.
  set (L := Z.to_nat (Z.max 0 (fmt_length fmt))) in *.
  rewrite take_app_ge, take_replicate by lia.
  rewrite until_nul_pad, trim_id by done. apply text_of_bytes_of.
Qed.

End Numbers.

(** ** Properties *)

(** Reading a number out of registers and writing it back gives the same
    registers, for every numeric type and every byte and word order; only a
    single or double that is not finite is decoded to null, which is not
    accepted back. *)
Theorem registers_roundtrip (J : JsonLib) fmt regs :
  type fmt <> kString -> words_ok regs -> Z.of_nat (length regs) = RegisterCount fmt ->
  exists j, DecodeRegisters fmt regs = Ok j /\
    (finite_number (type fmt) (raw_value fmt regs) = true -> EncodeRegisters fmt j = Ok regs) /\
    (finite_number (type fmt) (raw_value fmt regs) = false ->
     EncodeRegisters fmt j = Err "expected a numeric value").
Proof.
  intros Ht Hw Hl. eexists. split; [by apply DecodeRegisters_number|].
  apply Encode_decoded; [done..|]. apply view_inject.
  destruct (type fmt); simpl; try done; by destruct (negb _).
Qed.

Lemma registers_roundtrip_witness :
  exists j, DecodeRegisters (J:=jtree_json) (mkFmt kFloat32 true true 0) [52275; 52285] = Ok j /\
    EncodeRegisters (J:=jtree_json) (mkFmt kFloat32 true true 0) j = Ok [52275; 52285].
Proof.
  destruct (registers_roundtrip jtree_json (mkFmt kFloat32 true true 0) [52275; 52285])
    as (j & H1 & H2 & _).
  - discriminate.
  - repeat constructor; discriminate.
  - reflexivity.
  - exists j. split; [exact H1|]. apply H2. vm_compute. reflexivity.
Defined.

(** A JSON integer is written to an integer register format exactly when
    the 64-bit integer it converts to is in the range of the type (always, for
    the 64-bit types), and the registers written then decode to that integer;
    otherwise it is refused. *)
Theorem encode_int_exact (J : JsonLib) fmt j z :
  int_type (type fmt) = true -> integer_view (view j) = Some z ->
  match EncodeRegisters fmt j with
  | Ok regs => in_range (type fmt) (stored (type fmt) z) /\
      Z.of_nat (length regs) = RegisterCount fmt /\ words_ok regs /\
      DecodeRegisters fmt regs = Ok (inject (shown (type fmt) (stored (type fmt) z)))
  | Err _ => ~ in_range (type fmt) (stored (type fmt) z)
  | Fault => False
  end.
Proof.
  intros Ht Hz. pose proof (encode_int_spec fmt j z Ht Hz) as H. cbv zeta in H.
  destruct (EncodeRegisters fmt j); [tauto|done|done].
Qed.

Lemma encode_int_exact_witness :
  EncodeRegisters (J:=jtree_json) (mkFmt kInt32 false true 0) (TInt (-2)) = Ok [65534; 65535] /\
  DecodeRegisters (J:=jtree_json) (mkFmt kInt32 false true 0) [65534; 65535] = Ok (TInt (-2)).
Proof.
  split; [reflexivity|].
  exact (proj2 (proj2 (proj2 (encode_int_exact jtree_json (mkFmt kInt32 false true 0) (TInt (-2)) (-2)
    eq_refl eq_refl)))).
Defined.

(** A negative number is accepted by the unsigned 64-bit format, and a large
    unsigned one by the signed 16-bit format: both wrap. *)
Example uint64_accepts_negative :
  EncodeRegisters (J:=jtree_json) (mkFmt kUInt64 false false 0) (TInt (-1)) = Ok [65535; 65535; 65535; 65535].
Proof. reflexivity. Qed.
Example int16_accepts_huge :
  EncodeRegisters (J:=jtree_json) (mkFmt kInt16 false false 0) (TUint 18446744073709551615) = Ok [65535].
Proof. reflexivity. Qed.

(** A string is written exactly when it fits the registers of its field,
    and reads back as itself when it fits the byte length of the field, has no
    NUL and ends in neither space nor tab. *)
Theorem string_field_roundtrip (J : JsonLib) fmt j text :
  type fmt = kString -> view j = JString text ->
  match EncodeRegisters fmt j with
  | Ok regs => Z.of_nat (length (bytes_of text)) <= 2 * RegisterCount fmt /\
      Z.of_nat (length regs) = RegisterCount fmt /\ words_ok regs /\
      (Z.of_nat (length (bytes_of text)) <= Z.max 0 (fmt_length fmt) ->
       Forall (fun b => b <> 0) (bytes_of text) -> no_trailing_blank (bytes_of text) ->
       DecodeRegisters fmt regs = Ok (inject (JString text)))
  | Err _ => 2 * RegisterCount fmt < Z.of_nat (length (bytes_of text))
  | Fault => False
  end.
Proof.
  intros Ht Hj. pose proof (Encode_string fmt j text Ht Hj) as H. cbv zeta in H.
  destruct (EncodeRegisters fmt j); [|done|done]. destruct H as (H1 & H2 & H3 & H4).
  split_and!; [done..|]. intros. by apply Decode_string.
Qed.

Lemma string_field_roundtrip_witness :
  exists regs, EncodeRegisters (J:=jtree_json) (mkFmt kString true false 5) (TString "pump") = Ok regs /\
    DecodeRegisters (J:=jtree_json) (mkFmt kString true false 5) regs = Ok (TString "pump").
Proof.
  pose proof (string_field_roundtrip jtree_json (mkFmt kString true false 5) (TString "pump") "pump"
    eq_refl eq_refl) as H.
  eexists. split; [reflexivity|]. apply H.
  - discriminate.
  - repeat constructor; discriminate.
  - split; discriminate.
Defined.

(** A field of odd length takes one byte more than it gives back. *)
Example odd_string_field_loses_a_byte :
  (regs ← EncodeRegisters (J:=jtree_json) (mkFmt kString false false 5) (TString "pump12");
   DecodeRegisters (J:=jtree_json) (mkFmt kString false false 5) regs) = Ok (TString "pump1").
Proof. reflexivity. Qed.

(** The names of the register types and of the byte orders parse back to
    what they name, the two swap flags included, and parsing ignores case. *)
Theorem format_names_roundtrip t byteSwap wordSwap text :
  ParseRegisterType (ToString t) = Some t /\
  ParseEndian (EndianName byteSwap wordSwap) = Some (byteSwap, wordSwap) /\
  ParseRegisterType (Lower text) = ParseRegisterType text /\
  ParseEndian (Lower text) = ParseEndian text.
Proof.
  split; [by destruct t|]. split; [by destruct byteSwap, wordSwap|].
  unfold ParseRegisterType, ParseEndian. by rewrite Lower_idem.
Qed.
