(* ===== verification/ModbusRegistry.v ===== *)
(** * Named Modbus points (src/ModbusRegistry.cpp)

    Three lists of points that running scripts register and the poller fills:
    [inputs_], [outputs_] and typed [registers_].  Rows are found by name and
    carry the script runtime that owns them.  The operations are translated
    as they walk the lists (first row of that name, else append) and shown to
    act as operations on a map from names. *)

From stdpp Require Import relations.
From S2P Require Import Prelude Words Text Float Json ModbusCodec.

(** ** Data *)

Inductive ModbusSource := kAuto | kDiscreteInput | kCoil.

#[global] Instance ModbusSource_eq_dec : EqDecision ModbusSource.
Proof. solve_decision. Defined.

Definition SourceToString (source : ModbusSource) : string :=
  match source with kDiscreteInput => "discrete" | kCoil => "coil" | kAuto => "auto" end.

Definition ParseModbusSource (text : string) (fallback : ModbusSource) : ModbusSource :=
  if one_of text ["coil"; "coils"; "fc01"; "FC01"; "1"]%string then kCoil
  else if one_of text ["discrete"; "discrete_input"; "disc"; "input"; "fc02"; "FC02"; "2"]%string
  then kDiscreteInput
  else if String.eqb text "auto" then kAuto
  else fallback.

Record ModbusPoint := mkPoint {
  pt_name : string;
  pt_address : Z;
  pt_owner : Z;
  pt_value : bool;
  pt_valid : bool;
  pt_source : ModbusSource;
  pt_function_code : Z
}.

Section Registry.
Context {J : JsonLib}.

Record ModbusRegisterPoint := mkRegisterPoint {
  rp_name : string;
  rp_address : Z;
  rp_owner : Z;
  rp_format : RegisterFormat;
  rp_input_register : bool;
  rp_writable : bool;
  rp_unit : string;
  rp_raw : list Z;
  rp_value : json;
  rp_valid : bool;
  rp_error : string
}.

Record ModbusRegistry := mkRegistry {
  inputs_ : list ModbusPoint;
  outputs_ : list ModbusPoint;
  registers_ : list ModbusRegisterPoint
}.

Definition new_registry : ModbusRegistry := mkRegistry [] [] [].

(** ** Operations *)

(** [for (auto& point : points) if (point.name == name) { ...; return; }]
    followed by the code after the loop, [append]. *)
Fixpoint on_first {P} (matches : P -> bool) (change : P -> P) (append : list P) (points : list P)
  : list P :=
  match points with
  | [] => append
  | point :: rest =>
      if matches point then change point :: rest else point :: on_first matches change append rest
  end.

Definition named (name : string) (p : ModbusPoint) : bool := String.eqb (pt_name p) name.
Definition reg_named (name : string) (p : ModbusRegisterPoint) : bool := String.eqb (rp_name p) name.

Definition UpsertUnlocked (points : list ModbusPoint) (name : string) (address : Z)
    (source : ModbusSource) (owner : Z) : list ModbusPoint :=
  on_first (named name)
    (fun point =>
       if negb (pt_address point =? address) || negb (bool_decide (pt_source point = source))
       then mkPoint (pt_name point) address owner false false source 0
       else mkPoint (pt_name point) (pt_address point) owner (pt_value point) (pt_valid point)
              (pt_source point) (pt_function_code point))
    [mkPoint name address owner false false source 0] points.

Definition UpdateUnlocked (points : list ModbusPoint) (name : string) (value : bool)
    (functionCode : Z) : list ModbusPoint :=
  on_first (named name)
    (fun point => mkPoint (pt_name point) (pt_address point) (pt_owner point) value true
                    (pt_source point) functionCode)
    [] points.

Definition RegisterInput (r : ModbusRegistry) name address source owner :=
  mkRegistry (UpsertUnlocked (inputs_ r) name address source owner) (outputs_ r) (registers_ r).

Definition RegisterOutput (r : ModbusRegistry) name address owner :=
  mkRegistry (inputs_ r) (UpsertUnlocked (outputs_ r) name address kCoil owner) (registers_ r).

Definition sameShape (existing point : ModbusRegisterPoint) : bool :=
  (rp_address existing =? rp_address point) &&
  eqb (rp_input_register existing) (rp_input_register point) &&
  bool_decide (type (rp_format existing) = type (rp_format point)) &&
  eqb (byte_swap (rp_format existing)) (byte_swap (rp_format point)) &&
  eqb (word_swap (rp_format existing)) (word_swap (rp_format point)) &&
  (fmt_length (rp_format existing) =? fmt_length (rp_format point)).

Definition RegisterRegister (r : ModbusRegistry) (point : ModbusRegisterPoint) :=
  mkRegistry (inputs_ r) (outputs_ r)
    (on_first (reg_named (rp_name point))
       (fun existing =>
          if sameShape existing point
          then mkRegisterPoint (rp_name point) (rp_address point) (rp_owner point) (rp_format point)
                 (rp_input_register point) (rp_writable point) (rp_unit point)
                 (rp_raw existing) (rp_value existing) (rp_valid existing) (rp_error existing)
          else point)
       [point] (registers_ r)).

Definition UpdateRegister (r : ModbusRegistry) (name : string) (raw : list Z) (value : json) :=
  mkRegistry (inputs_ r) (outputs_ r)
    (on_first (reg_named name)
       (fun p => mkRegisterPoint (rp_name p) (rp_address p) (rp_owner p) (rp_format p)
                   (rp_input_register p) (rp_writable p) (rp_unit p) raw value true "")
       [] (registers_ r)).

Definition UpdateRegisterError (r : ModbusRegistry) (name : string) (error : string) :=
  mkRegistry (inputs_ r) (outputs_ r)
    (on_first (reg_named name)
       (fun p => mkRegisterPoint (rp_name p) (rp_address p) (rp_owner p) (rp_format p)
                   (rp_input_register p) (rp_writable p) (rp_unit p) (rp_raw p) (rp_value p)
                   (rp_valid p) error)
       [] (registers_ r)).

Definition FindRegister (r : ModbusRegistry) (name : string) : option ModbusRegisterPoint :=
  List.find (reg_named name) (registers_ r).

Definition Clear (r : ModbusRegistry) : ModbusRegistry := mkRegistry [] [] [].

(** [erase(remove_if(...))] *)
Definition ClearOwner (r : ModbusRegistry) (owner : Z) : ModbusRegistry :=
  mkRegistry (List.filter (fun p => negb (pt_owner p =? owner)) (inputs_ r))
    (List.filter (fun p => negb (pt_owner p =? owner)) (outputs_ r))
    (List.filter (fun p => negb (rp_owner p =? owner)) (registers_ r)).

Definition Empty (r : ModbusRegistry) : bool :=
  (length (inputs_ r) =? 0)%nat && (length (outputs_ r) =? 0)%nat && (length (registers_ r) =? 0)%nat.

Definition UpdateInput (r : ModbusRegistry) name value functionCode :=
  mkRegistry (UpdateUnlocked (inputs_ r) name value functionCode) (outputs_ r) (registers_ r).

Definition UpdateOutput (r : ModbusRegistry) name value :=
  mkRegistry (inputs_ r) (UpdateUnlocked (outputs_ r) name value 1) (registers_ r).

Definition SetResolvedSource (r : ModbusRegistry) (name : string) (source : ModbusSource) :=
  mkRegistry
    (on_first (fun p => named name p && bool_decide (pt_source p = kAuto))
       (fun p => mkPoint (pt_name p) (pt_address p) (pt_owner p) (pt_value p) (pt_valid p) source
                   (pt_function_code p))
       [] (inputs_ r))
    (outputs_ r) (registers_ r).

Definition FindOutputAddress (r : ModbusRegistry) (name : string) : option Z :=
  pt_address <$> List.find (named name) (outputs_ r).

(** ** The dashboard's view *)

Definition j_str (s : string) : json := inject (JString s).
Definition j_int (z : Z) : json := inject (JInt z).
Definition j_bool (b : bool) : json := inject (JBool b).

Definition PointsToJson (points : list ModbusPoint) : json :=
  inject (JArray (map (fun point => inject (JObject
    [("name"%string, j_str (pt_name point));
     ("address"%string, j_int (pt_address point));
     ("value"%string, j_bool (pt_value point));
     ("valid"%string, j_bool (pt_valid point));
     ("source"%string, j_str (SourceToString (pt_source point)));
     ("function_code"%string, j_int (pt_function_code point))])) points)).

Definition register_to_json (point : ModbusRegisterPoint) : json :=
  let format := rp_format point in
  inject (JObject
    [("name"%string, j_str (rp_name point));
     ("address"%string, j_int (rp_address point));
     ("type"%string, j_str (ToString (type format)));
     ("endian"%string, j_str (EndianName (byte_swap format) (word_swap format)));
     ("length"%string, j_int (fmt_length format));
     ("count"%string, j_int (RegisterCount format));
     ("function_code"%string, j_int (if rp_input_register point then 4 else 3));
     ("writable"%string, j_bool (rp_writable point));
     ("unit"%string, j_str (rp_unit point));
     ("raw"%string, inject (JArray (map (fun word => inject (JUint word)) (rp_raw point))));
     ("value"%string, if rp_valid point then rp_value point else inject JNull);
     ("valid"%string, j_bool (rp_valid point));
     ("error"%string, j_str (rp_error point))]).

Definition ToJson (r : ModbusRegistry) : json :=
  inject (JObject
    [("inputs"%string, PointsToJson (inputs_ r));
     ("outputs"%string, PointsToJson (outputs_ r));
     ("registers"%string, inject (JArray (map register_to_json (registers_ r))))]).

(** ** The public operations as steps *)

Inductive registry_step : ModbusRegistry -> ModbusRegistry -> Prop :=
| step_register_input r n a s o : registry_step r (RegisterInput r n a s o)
| step_register_output r n a o : registry_step r (RegisterOutput r n a o)
| step_register_register r p : registry_step r (RegisterRegister r p)
| step_update_register r n raw v : registry_step r (UpdateRegister r n raw v)
| step_update_error r n e : registry_step r (UpdateRegisterError r n e)
| step_clear r : registry_step r (Clear r)
| step_clear_owner r o : registry_step r (ClearOwner r o)
| step_update_input r n v f : registry_step r (UpdateInput r n v f)
| step_update_output r n v : registry_step r (UpdateOutput r n v)
| step_resolve r n s : registry_step r (SetResolvedSource r n s).

(** ** Lists with unique keys as maps *)

Section Keyed.
Context {P : Type} (key : P -> string).
Implicit Types (l : list P) (change : P -> P).

Definition has_key (n : string) (p : P) : bool := String.eqb (key p) n.

(** The row a name selects. *)
Definition row (l : list P) (n : string) : option P := List.find (has_key n) l.
#[local] Arguments row : simpl never.

Lemma row_cons p l n : row (p :: l) n = if String.eqb (key p) n then Some p else row l n.
Proof. done. Qed.

Lemma row_key l n p : row l n = Some p -> key p = n /\ p ∈ l.
Proof.
  intros H. apply List.find_some in H as [Hin Hk]. apply String.eqb_eq in Hk.
  split; [done|by apply list_elem_of_In].
Qed.

Lemma row_none l n : row l n = None <-> n ∉ map key l.
Proof.
  induction l as [|p l IH]; simpl; [split; [set_solver|done]|].
  rewrite row_cons. destruct (String.eqb_spec (key p) n) as [E|E]; split; intros H.
  - done.
  - destruct H. rewrite E. set_solver.
  - apply IH in H. set_solver.
  - apply IH. set_solver.
Qed.

(** The row of that name, when it is there. *)
Lemma row_on_first_found l n p (matches : P -> bool) change append :
  (forall q, matches q = true -> key q = n) -> (forall q, matches q = true -> key (change q) = key q) ->
  row l n = Some p ->
  row (on_first matches change append l) n = Some (if matches p then change p else p).
Proof.
  intros Hm Hk. induction l as [|q l IH]; [done|]. rewrite row_cons. simpl.
  destruct (matches q) eqn:Em; rewrite row_cons.
  - rewrite (Hk q Em), (Hm q Em), String.eqb_refl. intros [= <-]. by rewrite Em.
  - destruct (String.eqb (key q) n) eqn:E; [intros [= <-]; by rewrite Em|apply IH].
Qed.

(** Changing the first row of a name, without renaming it, or appending. *)
Lemma row_on_first l n n' (matches : P -> bool) change append :
  (forall p, matches p = true -> key p = n) -> (forall p, matches p = true -> key (change p) = key p) ->
  (forall q, q ∈ append -> key q = n) ->
  row (on_first matches change append l) n' =
    if String.eqb n n' then
      match row l n with
      | Some p => Some (if matches p then change p else p)
      | None => row append n
      end
    else row l n'.
Proof.
  intros Hm Hk Ha. destruct (String.eqb_spec n n') as [<-|Hn].
  - destruct (row l n) as [p|] eqn:E; [by apply row_on_first_found|]. apply row_none in E.
    induction l as [|p l IH]; [done|]. simpl in *. apply not_elem_of_cons in E as [Ep El].
    destruct (matches p) eqn:Em; [destruct Ep; symmetry; by apply Hm|].
    rewrite row_cons. destruct (String.eqb_spec (key p) n); [congruence|auto].
  - induction l as [|p l IH]; simpl.
    + change (row [] n') with (@None P). apply row_none. intros H.
      apply list_elem_of_fmap in H as (q & Hq & Hin). apply Ha in Hin. congruence.
    + destruct (matches p) eqn:Em; rewrite !row_cons.
      * rewrite (Hk p Em), (Hm p Em). by destruct (String.eqb_spec n n').
      * by rewrite IH.
Qed.

Lemma on_first_keys l (matches : P -> bool) change append :
  (forall p, matches p = true -> key (change p) = key p) ->
  map key (on_first matches change append l) =
    if existsb matches l then map key l else map key l ++ map key append.
Proof.
  intros Hk. induction l as [|p l IH]; simpl; [done|].
  destruct (matches p) eqn:Em; simpl; [by rewrite (Hk p Em)|]. rewrite IH. by destruct (existsb matches l).
Qed.

Lemma existsb_has_key l n : existsb (has_key n) l = bool_decide (n ∈ map key l).
Proof.
  induction l as [|p l IH]; simpl; [done|]. unfold has_key at 1. rewrite IH.
  destruct (String.eqb_spec (key p) n) as [E|E]; simpl.
  - symmetry. apply bool_decide_eq_true. rewrite E. set_solver.
  - apply bool_decide_ext. set_solver.
Qed.

Lemma on_first_NoDup l n (matches : P -> bool) change append :
  (forall p, matches p = true -> key (change p) = key p) -> (forall p, key p = n -> matches p = true) ->
  map key append = [n] \/ append = [] ->
  NoDup (map key l) -> NoDup (map key (on_first matches change append l)).
Proof.
  intros Hk Hn Happ Hl. rewrite on_first_keys by done.
  destruct (existsb matches l) eqn:E; [done|].
  destruct Happ as [->| ->]; [|by rewrite app_nil_r].
  apply NoDup_app. split; [done|]. split; [|apply NoDup_singleton].
  intros x Hx Hin. apply list_elem_of_singleton in Hin as ->.
  apply list_elem_of_fmap in Hx as (p & -> & Hp).
  assert (existsb matches l = true) as E2; [|by rewrite E2 in E].
  apply existsb_exists. exists p. split; [by apply list_elem_of_In|by apply Hn].
Qed.

Lemma filter_NoDup l (f : P -> bool) : NoDup (map key l) -> NoDup (map key (List.filter f l)).
Proof.
  induction l as [|p l IH]; simpl; [done|]. intros H. inversion H as [|? ? Hp Hl]; subst.
  destruct (f p); simpl; [|auto]. constructor; [|auto].
  intros Hin. apply Hp. apply list_elem_of_fmap in Hin as (q & -> & Hq).
  apply list_elem_of_fmap. exists q. split; [done|].
  apply list_elem_of_In in Hq. apply filter_In in Hq as [Hq _]. by apply list_elem_of_In.
Qed.

Lemma row_filter l (f : P -> bool) n : NoDup (map key l) ->
  row (List.filter f l) n = match row l n with Some p => if f p then Some p else None | None => None end.
Proof.
  induction l as [|p l IH]; intros H; [done|]. inversion H as [|? ? Hp Hl]; subst.
  simpl. rewrite row_cons. destruct (f p) eqn:Ef.
  - rewrite row_cons, (IH Hl). destruct (String.eqb (key p) n); [by rewrite Ef|done].
  - rewrite (IH Hl). destruct (String.eqb_spec (key p) n) as [<-|]; [|done].
    apply row_none in Hp. by rewrite Hp, Ef.
Qed.

End Keyed.

(** ** The invariant *)

Definition registry_ok (r : ModbusRegistry) : Prop :=
  NoDup (map pt_name (inputs_ r)) /\ NoDup (map pt_name (outputs_ r)) /\
  NoDup (map rp_name (registers_ r)) /\ Forall (fun p => pt_source p = kCoil) (outputs_ r).

Lemma named_key n p : named n p = true <-> pt_name p = n.
Proof. apply String.eqb_eq. Qed.

Lemma reg_named_key n p : reg_named n p = true <-> rp_name p = n.
Proof. apply String.eqb_eq. Qed.

Lemma on_first_Forall {P} (Q : P -> Prop) (matches : P -> bool) change append l :
  (forall p, Q p -> Q (change p)) -> Forall Q append -> Forall Q l ->
  Forall Q (on_first matches change append l).
Proof.
  intros Hc Ha. induction 1 as [|p l Hp Hl IH]; simpl; [done|].
  destruct (matches p); constructor; auto.
Qed.

Lemma Upsert_NoDup l n a s o : NoDup (map pt_name l) -> NoDup (map pt_name (UpsertUnlocked l n a s o)).
Proof.
  apply (on_first_NoDup pt_name l n); [|intros; by apply named_key|by left].
  intros p _. by destruct (_ || _).
Qed.

Lemma Update_NoDup l n v f : NoDup (map pt_name l) -> NoDup (map pt_name (UpdateUnlocked l n v f)).
Proof. apply (on_first_NoDup pt_name l n); [done|intros; by apply named_key|by right]. Qed.

Lemma on_first_no_append_NoDup {P} (key : P -> string) l (matches : P -> bool) change :
  (forall p, matches p = true -> key (change p) = key p) -> NoDup (map key l) -> NoDup (map key (on_first matches change [] l)).
Proof.
  intros Hk Hl. rewrite on_first_keys by done. destruct (existsb _ _); [done|]. by rewrite app_nil_r.
Qed.

Lemma RegisterRegister_keeps_name p q : reg_named (rp_name p) q = true ->
  rp_name (if sameShape q p
           then mkRegisterPoint (rp_name p) (rp_address p) (rp_owner p) (rp_format p)
                  (rp_input_register p) (rp_writable p) (rp_unit p)
                  (rp_raw q) (rp_value q) (rp_valid q) (rp_error q)
           else p) = rp_name q.
Proof. intros H. apply reg_named_key in H. rewrite H. by destruct (sameShape q p). Qed.

Lemma Upsert_Forall_coil l n a o :
  Forall (fun p => pt_source p = kCoil) l ->
  Forall (fun p => pt_source p = kCoil) (UpsertUnlocked l n a kCoil o).
Proof.
  apply on_first_Forall; [|by repeat constructor]. intros p Hp. by destruct (_ || _).
Qed.

Lemma registry_step_ok r r' : registry_step r r' -> registry_ok r -> registry_ok r'.
Proof.
  intros Hs (H1 & H2 & H3 & H4). destruct Hs; unfold registry_ok; simpl; split_and!; try done;
    try (by apply Upsert_NoDup); try (by apply Update_NoDup); try (by apply filter_NoDup);
    try (by constructor); try (by apply on_first_no_append_NoDup).
  - by apply Upsert_Forall_coil.
  - apply (on_first_NoDup rp_name _ (rp_name p)); [|intros; by apply reg_named_key|by left|done].
    apply RegisterRegister_keeps_name.
  - apply Forall_forall. intros p Hp. apply list_elem_of_In, filter_In in Hp as [Hp _].
    rewrite Forall_forall in H4. by apply H4, list_elem_of_In.
  - by apply on_first_Forall.
Qed.

(** ** What the operations do to the row of a name *)

Definition point_row (l : list ModbusPoint) (n : string) := row pt_name l n.
Definition register_row (l : list ModbusRegisterPoint) (n : string) := row rp_name l n.

Lemma Upsert_row l n a s o n' :
  point_row (UpsertUnlocked l n a s o) n' =
    if String.eqb n n' then Some
      match point_row l n with
      | Some p => if (pt_address p =? a) && bool_decide (pt_source p = s)
                  then mkPoint n a o (pt_value p) (pt_valid p) s (pt_function_code p)
                  else mkPoint n a o false false s 0
      | None => mkPoint n a o false false s 0
      end
    else point_row l n'.
Proof.
  unfold UpsertUnlocked, point_row.
  rewrite (row_on_first pt_name l n n'); [|intros; by apply named_key
    |intros q _; by destruct (_ || _)|intros q Hq; by apply list_elem_of_singleton in Hq as ->].
  destruct (String.eqb_spec n n') as [<-|]; [|done].
  destruct (row pt_name l n) as [p|] eqn:E; [|by rewrite row_cons, String.eqb_refl].
  apply row_key in E as [Ek _]. rewrite (proj2 (named_key n p)) by done. f_equal. rewrite Ek.
  destruct (pt_address p =? a) eqn:Ea; simpl; [|done]. apply Z.eqb_eq in Ea. subst a.
  destruct (bool_decide_reflect (pt_source p = s)) as [<-|]; done.
Qed.

Lemma Update_row l n v f n' :
  point_row (UpdateUnlocked l n v f) n' =
    if String.eqb n n' then
      (fun p => mkPoint n (pt_address p) (pt_owner p) v true (pt_source p) f) <$> point_row l n
    else point_row l n'.
Proof.
  unfold UpdateUnlocked, point_row.
  rewrite (row_on_first pt_name l n n'); [|intros; by apply named_key|done|set_solver].
  destruct (String.eqb_spec n n') as [<-|]; [|done].
  destruct (row pt_name l n) as [p|] eqn:E; [|done].
  apply row_key in E as [Ek _]. rewrite (proj2 (named_key n p)) by done. simpl. by rewrite Ek.
Qed.

Lemma RegisterRegister_row r p n :
  register_row (registers_ (RegisterRegister r p)) n =
    if String.eqb (rp_name p) n then Some
      match register_row (registers_ r) (rp_name p) with
      | Some q => if sameShape q p
          then mkRegisterPoint (rp_name p) (rp_address p) (rp_owner p) (rp_format p)
                 (rp_input_register p) (rp_writable p) (rp_unit p)
                 (rp_raw q) (rp_value q) (rp_valid q) (rp_error q)
          else p
      | None => p
      end
    else register_row (registers_ r) n.
Proof.
  unfold RegisterRegister, register_row. simpl.
  rewrite (row_on_first rp_name _ (rp_name p) n); [|intros; by apply reg_named_key
    |intros; by apply RegisterRegister_keeps_name|intros q Hq; by apply list_elem_of_singleton in Hq as ->].
  destruct (String.eqb_spec (rp_name p) n) as [<-|]; [|done].
  destruct (row rp_name (registers_ r) (rp_name p)) as [q|] eqn:E; [|by rewrite row_cons, String.eqb_refl].
  apply row_key in E as [Ek _]. by rewrite (proj2 (reg_named_key _ q)) by done.
Qed.

Lemma update_register_row r (f : ModbusRegisterPoint -> ModbusRegisterPoint) n n' :
  (forall p, rp_name (f p) = rp_name p) ->
  register_row (on_first (reg_named n) f [] (registers_ r)) n' =
    if String.eqb n n' then f <$> register_row (registers_ r) n else register_row (registers_ r) n'.
Proof.
  intros Hf. unfold register_row.
  rewrite (row_on_first rp_name _ n n'); [|intros; by apply reg_named_key|auto|set_solver].
  destruct (String.eqb_spec n n') as [<-|]; [|done].
  destruct (row rp_name (registers_ r) n) as [p|] eqn:E; [|done].
  apply row_key in E as [Ek _]. by rewrite (proj2 (reg_named_key n p)).
Qed.

End Registry.

(** ** Properties *)

(** Whatever sequence of operations scripts, the poller and the dashboard
    perform, no list ever holds two rows of the same name, and every output is
    a coil. *)
Theorem registry_reachable_invariant (J : JsonLib) r :
  rtc registry_step new_registry r -> registry_ok r.
Proof.
  intros H. assert (registry_ok new_registry) as H0 by (split_and!; constructor).
  induction H as [|r1 r2 r3 Hstep _ IH]; [done|]. apply IH. by eapply registry_step_ok.
Qed.

Definition demo_register (J : JsonLib) (address owner : Z) : ModbusRegisterPoint :=
  mkRegisterPoint "speed" address owner (mkFmt kInt32 false true 0) false true "rpm" [] (inject JNull) false "".

Definition demo_registry (J : JsonLib) : ModbusRegistry :=
  UpdateRegister
    (RegisterRegister
       (RegisterInput (RegisterInput new_registry "CardTaken" 1024 kAuto 1) "Door" 7 kCoil 2)
       (demo_register J 100 1))
    "speed" [65535; 65535] (inject (JInt (-1))).

Lemma registry_reachable_invariant_witness : registry_ok (J:=jtree_json) (demo_registry jtree_json).
Proof.
  apply registry_reachable_invariant.
  eapply rtc_l; [apply step_register_input|]. eapply rtc_l; [apply step_register_input|].
  eapply rtc_l; [apply step_register_register|]. eapply rtc_l; [apply step_update_register|].
  apply rtc_refl.
Defined.

(** The registry is a map from names to rows.  Registering a point sets
    the address, source and owner of its name only, keeping the reading just
    when address and source (for a register: address, space and format) are
    unchanged; an update sets the reading of an existing name only; a read
    error keeps the last reading; no other row is touched. *)
Theorem registry_refines_map (J : JsonLib) r l n n' address source owner value fc p raw v e :
  point_row (UpsertUnlocked l n address source owner) n' =
    (if String.eqb n n' then Some
       match point_row l n with
       | Some q => if (pt_address q =? address) && bool_decide (pt_source q = source)
                   then mkPoint n address owner (pt_value q) (pt_valid q) source (pt_function_code q)
                   else mkPoint n address owner false false source 0
       | None => mkPoint n address owner false false source 0
       end
     else point_row l n') /\
  point_row (UpdateUnlocked l n value fc) n' =
    (if String.eqb n n' then
       (fun q => mkPoint n (pt_address q) (pt_owner q) value true (pt_source q) fc) <$> point_row l n
     else point_row l n') /\
  FindRegister (RegisterRegister r p) n' =
    (if String.eqb (rp_name p) n' then Some
       match FindRegister r (rp_name p) with
       | Some q => if sameShape q p
           then mkRegisterPoint (rp_name p) (rp_address p) (rp_owner p) (rp_format p)
                  (rp_input_register p) (rp_writable p) (rp_unit p)
                  (rp_raw q) (rp_value q) (rp_valid q) (rp_error q)
           else p
       | None => p
       end
     else FindRegister r n') /\
  (n <> n' -> FindRegister (UpdateRegister r n raw v) n' = FindRegister r n') /\
  (rp_value <$> FindRegister (UpdateRegister r n raw v) n) = (fun _ => v) <$> FindRegister r n /\
  (rp_valid <$> FindRegister (UpdateRegister r n raw v) n) = (fun _ => true) <$> FindRegister r n /\
  (rp_valid <$> FindRegister (UpdateRegisterError r n e) n) = rp_valid <$> FindRegister r n /\
  (rp_value <$> FindRegister (UpdateRegisterError r n e) n) = rp_value <$> FindRegister r n.
Proof.
  split; [apply Upsert_row|]. split; [apply Update_row|]. split; [apply RegisterRegister_row|].
  assert (forall f m m', (forall q, rp_name (f q) = rp_name q) ->
    FindRegister (mkRegistry (inputs_ r) (outputs_ r) (on_first (reg_named m) f [] (registers_ r))) m' =
    if String.eqb m m' then f <$> FindRegister r m else FindRegister r m') as Hu.
  { intros. by apply update_register_row. }
  split_and!.
  - intros Hn. unfold UpdateRegister. rewrite Hu by done. by destruct (String.eqb_spec n n').
  - unfold UpdateRegister. rewrite Hu, String.eqb_refl by done. by destruct (FindRegister r n).
  - unfold UpdateRegister. rewrite Hu, String.eqb_refl by done. by destruct (FindRegister r n).
  - unfold UpdateRegisterError. rewrite Hu, String.eqb_refl by done. by destruct (FindRegister r n).
  - unfold UpdateRegisterError. rewrite Hu, String.eqb_refl by done. by destruct (FindRegister r n).
Qed.

(** Clearing the points of one script runtime removes exactly its rows:
    the row of every name is gone if that runtime owned it and is otherwise
    untouched, in all three lists. *)
Theorem registry_clear_owner_isolates (J : JsonLib) r owner n :
  registry_ok r ->
  point_row (inputs_ (ClearOwner r owner)) n =
    (match point_row (inputs_ r) n with
     | Some p => if negb (pt_owner p =? owner) then Some p else None | None => None end) /\
  point_row (outputs_ (ClearOwner r owner)) n =
    (match point_row (outputs_ r) n with
     | Some p => if negb (pt_owner p =? owner) then Some p else None | None => None end) /\
  FindRegister (ClearOwner r owner) n =
    (match FindRegister r n with
     | Some p => if negb (rp_owner p =? owner) then Some p else None | None => None end).
Proof.
  intros (H1 & H2 & H3 & _). split; [by apply row_filter|]. split; [by apply row_filter|].
  by apply (row_filter rp_name).
Qed.

Lemma registry_clear_owner_isolates_witness :
  FindRegister (J:=jtree_json) (ClearOwner (J:=jtree_json) (demo_registry jtree_json) 1) "speed" = None.
Proof.
  destruct (registry_clear_owner_isolates jtree_json (demo_registry jtree_json) 1 "speed") as (_ & _ & H).
  - split_and!; try constructor.
    + intros H. apply list_elem_of_singleton in H. discriminate H.
    + constructor; [intros H; inversion H|constructor].
    + intros H. inversion H.
    + constructor.
  - rewrite H. reflexivity.
Defined.
