(* ===== verification/Version.v ===== *)
(** * Release versions (src/update/Version.cpp)

    Parsing, printing and semver precedence of the versions the updater
    compares.  A position in the text is the suffix that starts there. *)

From S2P Require Import Prelude Words Text.

(** ** Definitions *)

Record Version := mkVersion { major : Z; minor : Z; patch : Z; prerelease : list Z }.

(** The digit loop of [ReadNumber]. *)
Fixpoint read_digits (text : list Z) (value : Z) : option (Z * list Z) :=
  match text with
  | b :: rest =>
      if is_digit b then
        let value' := value * 10 + (b - 48) in
        if 1000000000 <? value' then None else read_digits rest value'
      else Some (value, text)
  | [] => Some (value, [])
  end.

Definition ReadNumber (text : list Z) : option (Z * list Z) :=
  match text with
  | b :: _ => if is_digit b then read_digits text 0 else None
  | [] => None
  end.

(** [if (pos >= text.size() || text[pos] != c) return false; ++pos;] *)
Definition expect (c : Z) (text : list Z) : option (list Z) :=
  match text with
  | b :: rest => if b =? c then Some rest else None
  | [] => None
  end.

Definition Parse (text : list Z) : option Version :=
  let t0 := skip_spaces text in
  let t1 := match t0 with
            | b :: rest => if (b =? 118) || (b =? 86) then rest else t0
            | [] => []
            end in
  r ← ReadNumber t1; let '(maj, t2) := r in
  t3 ← expect 46 t2;
  r ← ReadNumber t3; let '(min, t4) := r in
  t5 ← expect 46 t4;
  r ← ReadNumber t5; let '(pat, t6) := r in
  let '(pre, t7) := match t6 with
                    | b :: rest => if b =? 45 then until 43 rest else ([], t6)
                    | [] => ([], [])
                    end in
  let t8 := match t7 with
            | b :: _ => if b =? 43 then [] else t7
            | [] => []
            end in
  match skip_spaces t8 with
  | [] => Some (mkVersion maj min pat pre)
  | _ => None
  end.

Definition VersionToString (v : Version) : list Z :=
  let s := bytes_of (to_string (major v)) ++ [46] ++ bytes_of (to_string (minor v)) ++ [46]
           ++ bytes_of (to_string (patch v)) in
  match prerelease v with [] => s | pre => s ++ [45] ++ pre end.

Fixpoint SplitIdentifiers (text : list Z) : list (list Z) :=
  match text with
  | [] => [[]]
  | c :: rest =>
      if c =? 46 then [] :: SplitIdentifiers rest
      else match SplitIdentifiers rest with
           | part :: parts => (c :: part) :: parts
           | [] => [[c]]
           end
  end.

Definition IsNumericIdentifier (text : list Z) : bool :=
  match text with [] => false | _ => forallb is_digit text end.

(** [std::strtoll] of a run of digits saturates at the largest value. *)
Definition strtoll (digits : list Z) : Z :=
  Z.min (2 ^ 63 - 1) (foldl (fun v b => v * 10 + (b - 48)) 0 digits).

(** [a < b] on strings: bytes compared as unsigned characters. *)
Fixpoint string_lt (a b : list Z) : bool :=
  match a, b with
  | _, [] => false
  | [], _ :: _ => true
  | x :: a', y :: b' => if x <? y then true else if y <? x then false else string_lt a' b'
  end.

Definition compare_identifiers (a b : list Z) : Z :=
  let na := IsNumericIdentifier a in
  let nb := IsNumericIdentifier b in
  if na && nb then
    let va := strtoll a in
    let vb := strtoll b in
    if negb (va =? vb) then (if va <? vb then -1 else 1) else 0
  else if negb (eqb na nb) then (if na then -1 else 1)
  else if negb (bool_decide (a = b)) then (if string_lt a b then -1 else 1)
  else 0.

(** The loop over the identifiers both sides have, then the counts. *)
Fixpoint compare_lists (a b : list (list Z)) : Z :=
  match a, b with
  | [], [] => 0
  | [], _ :: _ => -1
  | _ :: _, [] => 1
  | x :: a', y :: b' => let c := compare_identifiers x y in if negb (c =? 0) then c else compare_lists a' b'
  end.

Definition Compare (v other : Version) : Z :=
  if negb (major v =? major other) then (if major v <? major other then -1 else 1)
  else if negb (minor v =? minor other) then (if minor v <? minor other then -1 else 1)
  else if negb (patch v =? patch other) then (if patch v <? patch other then -1 else 1)
  else match prerelease v, prerelease other with
       | [], [] => 0
       | [], _ => 1
       | _, [] => -1
       | p, q => compare_lists (SplitIdentifiers p) (SplitIdentifiers q)
       end.

Definition IsNewer (candidate current : list Z) : bool :=
  match Parse candidate, Parse current with
  | Some c, Some now => 0 <? Compare c now
  | _, _ => false
  end.

Example newer_1 : IsNewer (b! "v1.10.0") (b! "1.9.9") = true. Proof. reflexivity. Qed.
Example newer_2 : IsNewer (b! "1.2.3-rc.2") (b! "1.2.3-rc.10") = false. Proof. reflexivity. Qed.
Example newer_3 : IsNewer (b! "1.2.3") (b! "1.2.3-rc.10+build") = true. Proof. reflexivity. Qed.
(** Trailing white space becomes part of the prerelease. *)
Example prerelease_keeps_newline : Parse (b! "1.2.3-rc.1" ++ [10]) =
  Some (mkVersion 1 2 3 (b! "rc.1" ++ [10])).
Proof. reflexivity. Qed.

(** ** Reading back what was printed *)

Definition no_digit_first (rest : list Z) : Prop :=
  match rest with b :: _ => is_digit b = false | [] => True end.

Lemma dec_value_mono digits : forall v, 0 <= v -> Forall (fun b => 48 <= b <= 57) digits ->
  v <= dec_value v digits.
Proof.
  induction digits as [|b digits IH]; intros v Hv H; [done|].
  inversion H as [|? ? Hb Hd]; subst. unfold dec_value in *. simpl.
  specialize (IH (v * 10 + (b - 48)) ltac:(lia) Hd). lia.
Qed.

Lemma read_digits_app digits rest : forall v, 0 <= v ->
  Forall (fun b => 48 <= b <= 57) digits -> dec_value v digits <= 1000000000 -> no_digit_first rest ->
  read_digits (digits ++ rest) v = Some (dec_value v digits, rest).
Proof.
  induction digits as [|b digits IH]; intros v Hv H Hmax Hrest; simpl.
  - destruct rest as [|c rest]; [done|]. simpl in *. by rewrite Hrest.
  - inversion H as [|? ? Hb Hd]; subst. unfold is_digit.
    rewrite !(proj2 (Z.leb_le _ _)) by lia. simpl.
    pose proof (dec_value_mono digits (v * 10 + (b - 48)) ltac:(lia) Hd) as Hm.
    unfold dec_value in *. simpl in *. rewrite (proj2 (Z.ltb_ge _ _)) by lia.
    apply IH; [lia|done|done|done].
Qed.

Lemma ReadNumber_decimal n rest : 0 <= n <= 1000000000 -> no_digit_first rest ->
  ReadNumber (decimal n ++ rest) = Some (n, rest).
Proof.
  intros Hn Hrest. destruct (decimal_spec n ltac:(lia)) as (Hd & Hne & Hv).
  pose proof (read_digits_app (decimal n) rest 0 ltac:(lia) Hd ltac:(lia) Hrest) as Hr. rewrite Hv in Hr.
  destruct (decimal n) as [|b ds]; [done|]. inversion Hd; subst. simpl in Hr |- *.
  unfold is_digit in *. rewrite !(proj2 (Z.leb_le _ _)) in * by lia. simpl. exact Hr.
Qed.

Lemma read_digits_range text : forall v n rest, 0 <= v <= 1000000000 ->
  read_digits text v = Some (n, rest) -> 0 <= n <= 1000000000.
Proof.
  induction text as [|b text IH]; intros v n rest Hv H; simpl in H; [by simplify_eq|].
  unfold is_digit in H. destruct (_ && _) eqn:E; [|by simplify_eq].
  destruct (_ <? _) eqn:E2; [done|]. break_guards. eapply IH; [|exact H]. lia.
Qed.

Lemma ReadNumber_range text n rest : ReadNumber text = Some (n, rest) -> 0 <= n <= 1000000000.
Proof.
  unfold ReadNumber. destruct text; [done|]. destruct (is_digit _); [|done].
  apply read_digits_range. lia.
Qed.

Definition version_ok (v : Version) : Prop :=
  0 <= major v <= 1000000000 /\ 0 <= minor v <= 1000000000 /\ 0 <= patch v <= 1000000000 /\
  Forall (fun b => b <> 43) (prerelease v).

(** What [Parse] does after the white space and the tag. *)
Lemma Parse_print v build : version_ok v -> (build = [] \/ exists m, build = 43 :: m) ->
  exists b rest, VersionToString v ++ build = b :: rest /\ 48 <= b <= 57 /\
    forall t, (exists c, t = c :: b :: rest /\ (c = 118 \/ c = 86)) \/ t = b :: rest ->
    forall ws, Forall (fun b => isspace b = true) ws -> Parse (ws ++ t) = Some v.
Proof.
  intros (Hmaj & Hmin & Hpat & Hpre) Hbuild.
  set (tail := match prerelease v with [] => build | p => 45 :: p ++ build end).
  assert (VersionToString v ++ build =
    decimal (major v) ++ 46 :: decimal (minor v) ++ 46 :: decimal (patch v) ++ tail) as E.
  { unfold VersionToString, tail. rewrite !bytes_of_to_string by lia.
    destruct (prerelease v); simpl; rewrite <- ?app_assoc; simpl; rewrite <- ?app_assoc; simpl; done. }
  assert (no_digit_first tail) as Htail.
  { unfold tail. destruct (prerelease v); [|done]. by destruct Hbuild as [->|[m ->]]. }
  pose proof (ReadNumber_decimal (major v)
    (46 :: decimal (minor v) ++ 46 :: decimal (patch v) ++ tail) Hmaj eq_refl) as R1. rewrite <- E in R1.
  destruct (VersionToString v ++ build) as [|b rest] eqn:Es.
  { destruct (decimal_spec (major v) ltac:(lia)) as (_ & Hne & _). by destruct (decimal (major v)). }
  assert (48 <= b <= 57) as Hb.
  { simpl in R1. unfold is_digit in R1. destruct (_ && _) eqn:G; [break_guards; lia|done]. }
  exists b, rest. split; [done|]. split; [done|]. intros t Ht ws Hws.
  assert (exists c l, t = c :: l /\ isspace c = false /\
    (if (c =? 118) || (c =? 86) then l else t) = b :: rest) as (c & l & -> & Hc & Ht').
  { destruct Ht as [(c & -> & Hc)| ->]; do 2 eexists; (split; [done|]).
    - by destruct Hc as [->| ->].
    - unfold isspace. rewrite !(proj2 (Z.eqb_neq b _)), (proj2 (Z.leb_gt b 13)), andb_false_r by lia. done. }
  unfold Parse. rewrite skip_spaces_app by (done || by intros ? [= <-]). rewrite Ht', R1. cbn [mbind option_bind expect]. rewrite Z.eqb_refl. cbn [mbind option_bind].
  rewrite (ReadNumber_decimal (minor v) (46 :: decimal (patch v) ++ tail) Hmin eq_refl). cbn [mbind option_bind expect]. rewrite Z.eqb_refl. cbn [mbind option_bind].
  rewrite (ReadNumber_decimal (patch v) _ Hpat Htail). cbn [mbind option_bind].
  unfold tail. destruct v as [ma mi pa pre]. simpl in *. destruct pre as [|p pre].
  - by destruct Hbuild as [->|[m ->]].
  - simpl. destruct Hbuild as [->|[m ->]].
    + rewrite app_nil_r. destruct (until_none 43 (p :: pre) Hpre []) as [_ Hu]. simpl in Hu. by rewrite Hu.
    + destruct (until_none 43 (p :: pre) Hpre m) as [Hu _]. simpl in Hu. rewrite Hu. done.
Qed.

Lemma Parse_ok text v : Parse text = Some v -> version_ok v.
Proof.
  unfold Parse. intros H.
  apply bind_Some in H as ([maj t2] & H1 & H). apply bind_Some in H as (t3 & _ & H).
  apply bind_Some in H as ([min t4] & H2 & H). apply bind_Some in H as (t5 & _ & H).
  apply bind_Some in H as ([pat t6] & H3 & H).
  apply ReadNumber_range in H1, H2, H3.
  assert (Forall (fun b => b <> 43) (match t6 with
      | b :: rest => if b =? 45 then until 43 rest else ([], t6) | [] => ([], []) end).1) as Hp.
  { destruct t6 as [|b t6]; [constructor|]. destruct (b =? 45); [apply until_fst|constructor]. }
  match type of Hp with Forall _ (?m.1) => destruct m as [pre t7] end. destruct (skip_spaces _); [|done].
  simplify_eq. done.
Qed.

(** ** Precedence is a total order *)

(** A three-way comparison that is antisymmetric and transitive. *)
Definition ordered {A} (cmp : A -> A -> Z) : Prop :=
  (forall a b, cmp b a = - cmp a b) /\
  (forall a b c, cmp a b <= 0 -> cmp b c <= 0 -> cmp a c <= 0).

(** Compare by the first, then by the second. *)
Definition then_by {A} (c d : A -> A -> Z) (a b : A) : Z := if c a b =? 0 then d a b else c a b.

Lemma ordered_zero {A} (cmp : A -> A -> Z) a b c : ordered cmp ->
  cmp a b <= 0 -> cmp b c <= 0 -> cmp a c = 0 -> cmp a b = 0 /\ cmp b c = 0.
Proof.
  intros [Hs Ht] H1 H2 H3.
  pose proof (Ht b c a H2 ltac:(rewrite Hs; lia)). pose proof (Ht c a b ltac:(rewrite Hs; lia) H1).
  rewrite (Hs a b), (Hs b c) in *. lia.
Qed.

Lemma ordered_then_by {A} (c d : A -> A -> Z) : ordered c -> ordered d -> ordered (then_by c d).
Proof.
  intros Hc Hd. pose proof Hc as [Cs Ct]. pose proof Hd as [Ds Dt]. split; unfold then_by.
  - intros x y. rewrite (Cs x y). destruct (c x y =? 0) eqn:E; reflect_bools.
    + by rewrite E, Ds.
    + by rewrite (proj2 (Z.eqb_neq (- c x y) 0)) by lia.
  - intros x y z H1 H2.
    assert (c x y <= 0 /\ c y z <= 0) as [Hxy Hyz].
    { destruct (c x y =? 0) eqn:E1, (c y z =? 0) eqn:E2; reflect_bools; lia. }
    destruct (c x z =? 0) eqn:E; reflect_bools; [|by apply (Ct x y z)].
    destruct (ordered_zero c x y z Hc Hxy Hyz E) as [E1 E2]. rewrite E1, E2 in *. by apply (Dt x y z).
Qed.

Lemma ordered_by_key {A B} (f : A -> B) (cmp : B -> B -> Z) :
  ordered cmp -> ordered (fun a b => cmp (f a) (f b)).
Proof. intros [Hs Ht]. split; [intros; apply Hs|intros a b c; apply Ht]. Qed.

Definition cmp_Z (a b : Z) : Z := if negb (a =? b) then (if a <? b then -1 else 1) else 0.

Lemma ordered_cmp_Z : ordered cmp_Z.
Proof.
  split; unfold cmp_Z.
  - intros a b. rewrite (Z.eqb_sym b a). destruct (a =? b) eqn:E; [done|]. simpl. reflect_bools.
    destruct (a <? b) eqn:E1, (b <? a) eqn:E2; reflect_bools; lia.
  - intros a b c. destruct (a =? b) eqn:E1, (b =? c) eqn:E2, (a =? c) eqn:E3; simpl; intros;
      destruct_guards; reflect_bools; lia.
Qed.

Lemma string_lt_spec a : forall b, string_lt a b = true \/ a = b \/ string_lt b a = true.
Proof.
  induction a as [|x a IH]; intros [|y b]; simpl; auto.
  destruct (x <? y) eqn:E1; [auto|]. destruct (y <? x) eqn:E2; [auto|]. reflect_bools.
  assert (x = y) as <- by lia. destruct (IH b) as [|[->|]]; auto.
Qed.

Lemma string_lt_asym a : forall b, string_lt a b = true -> string_lt b a = false.
Proof.
  induction a as [|x a IH]; intros [|y b]; simpl; try done.
  destruct (x <? y) eqn:E1; reflect_bools.
  - intros _. by rewrite (proj2 (Z.ltb_ge y x)) by lia.
  - destruct (y <? x) eqn:E2; [done|]. intros. auto.
Qed.

Lemma string_lt_trans a : forall b c, string_lt a b = true -> string_lt b c = true -> string_lt a c = true.
Proof.
  induction a as [|x a IH]; intros [|y b] [|z c]; simpl; try done.
  destruct (x <? y) eqn:E1, (y <? x) eqn:E2, (y <? z) eqn:E3, (z <? y) eqn:E4; try done; reflect_bools; try lia.
  - intros _ _. by rewrite (proj2 (Z.ltb_lt x z)) by lia.
  - intros _ _. by rewrite (proj2 (Z.ltb_lt x z)) by lia.
  - intros _ _. by rewrite (proj2 (Z.ltb_lt x z)) by lia.
  - intros. assert (x = z) as -> by lia. rewrite Z.ltb_irrefl. eauto.
Qed.

Definition cmp_string (a b : list Z) : Z :=
  if negb (bool_decide (a = b)) then (if string_lt a b then -1 else 1) else 0.

Lemma ordered_cmp_string : ordered cmp_string.
Proof.
  split; unfold cmp_string.
  - intros a b. destruct (decide (a = b)) as [->|Hn]; [by rewrite bool_decide_true|].
    rewrite !bool_decide_false by congruence. simpl.
    destruct (string_lt a b) eqn:E1; [by rewrite (string_lt_asym a b)|].
    destruct (string_lt_spec a b) as [|[|H]]; [congruence|done|by rewrite H].
  - intros a b c. destruct (decide (a = b)) as [->|H1]; [by rewrite (bool_decide_true (b = b))|].
    destruct (decide (b = c)) as [->|H2]; [done|]. rewrite !(bool_decide_false (a = b)), !(bool_decide_false (b = c)) by done.
    simpl. destruct (string_lt a b) eqn:E1; [|lia]. destruct (string_lt b c) eqn:E2; [|lia].
    rewrite (string_lt_trans a b c E1 E2). intros _ _. by destruct (negb _).
Qed.

(** Numeric identifiers first, by value; the others by bytes. *)
Definition identifier_class (a : list Z) : Z := if IsNumericIdentifier a then 0 else 1.
Definition identifier_number (a : list Z) : Z := if IsNumericIdentifier a then strtoll a else 0.
Definition identifier_text (a : list Z) : list Z := if IsNumericIdentifier a then [] else a.

Lemma compare_identifiers_eq a b : compare_identifiers a b =
  then_by (fun a b => cmp_Z (identifier_class a) (identifier_class b))
    (then_by (fun a b => cmp_Z (identifier_number a) (identifier_number b))
       (fun a b => cmp_string (identifier_text a) (identifier_text b))) a b.
Proof.
  unfold compare_identifiers, then_by, identifier_class, identifier_number, identifier_text.
  destruct (IsNumericIdentifier a), (IsNumericIdentifier b); simpl; try done.
  unfold cmp_Z. by destruct (strtoll a =? strtoll b); simpl; [|destruct (_ <? _)].
Qed.

Lemma ordered_identifiers : ordered compare_identifiers.
Proof.
  assert (ordered (then_by (fun a b => cmp_Z (identifier_class a) (identifier_class b))
    (then_by (fun a b => cmp_Z (identifier_number a) (identifier_number b))
       (fun a b => cmp_string (identifier_text a) (identifier_text b))))) as [Hs Ht].
  { repeat apply ordered_then_by; apply ordered_by_key; auto using ordered_cmp_Z, ordered_cmp_string. }
  split; intros; rewrite !compare_identifiers_eq in *; eauto.
Qed.

Lemma ordered_lists : ordered compare_lists.
Proof.
  destruct ordered_identifiers as [Is It]. split.
  - induction a as [|x a IH]; intros [|y b]; simpl; try done. rewrite (Is x y).
    destruct (compare_identifiers x y =? 0) eqn:E; simpl; reflect_bools.
    + rewrite E. simpl. apply IH.
    + by rewrite (proj2 (Z.eqb_neq (- _) 0)) by lia.
  - induction a as [|x a IH]; intros [|y b] [|z c]; simpl; try lia; try done.
    intros H1 H2.
    assert (compare_identifiers x y <= 0 /\ compare_identifiers y z <= 0) as [Hxy Hyz].
    { destruct (compare_identifiers x y =? 0) eqn:E1, (compare_identifiers y z =? 0) eqn:E2; reflect_bools;
        simpl in *; lia. }
    destruct (compare_identifiers x z =? 0) eqn:E; reflect_bools; simpl; [|by apply (It x y z)].
    destruct (ordered_zero _ x y z (conj Is It) Hxy Hyz E) as [E1 E2]. rewrite E1, E2 in *.
    simpl in *. by apply (IH b c).
Qed.

(** The prerelease, present or not: without one is greater. *)
Definition release_class (v : Version) : Z := match prerelease v with [] => 1 | _ => 0 end.
Definition release_identifiers (v : Version) : list (list Z) :=
  match prerelease v with [] => [] | p => SplitIdentifiers p end.

Lemma Compare_eq v w : Compare v w =
  then_by (fun v w => cmp_Z (major v) (major w))
    (then_by (fun v w => cmp_Z (minor v) (minor w))
       (then_by (fun v w => cmp_Z (patch v) (patch w))
          (then_by (fun v w => cmp_Z (release_class v) (release_class w))
             (fun v w => compare_lists (release_identifiers v) (release_identifiers w))))) v w.
Proof.
  unfold Compare, then_by, release_class, release_identifiers, cmp_Z.
  destruct (major v =? major w); simpl; [|by destruct (_ <? _)].
  destruct (minor v =? minor w); simpl; [|by destruct (_ <? _)].
  destruct (patch v =? patch w); simpl; [|by destruct (_ <? _)].
  by destruct (prerelease v), (prerelease w).
Qed.

Lemma ordered_Compare : ordered Compare.
Proof.
  assert (ordered (then_by (fun v w => cmp_Z (major v) (major w))
    (then_by (fun v w => cmp_Z (minor v) (minor w))
       (then_by (fun v w => cmp_Z (patch v) (patch w))
          (then_by (fun v w => cmp_Z (release_class v) (release_class w))
             (fun v w => compare_lists (release_identifiers v) (release_identifiers w))))))) as [Hs Ht].
  { repeat apply ordered_then_by; apply ordered_by_key; auto using ordered_cmp_Z, ordered_lists. }
  split; intros; rewrite !Compare_eq in *; eauto.
Qed.

(** ** Properties *)

(** Printing a version and parsing it gives the version back, behind any
    white space, with or without a "v" and with any build metadata, which is
    ignored; and every text that parses gives a version of that shape, with
    components of at most 10^9. *)
Theorem version_parse_roundtrip v ws tag build text w :
  version_ok v -> Forall (fun b => isspace b = true) ws -> tag ∈ [[]; [118]; [86]] ->
  (build = [] \/ exists m, build = 43 :: m) ->
  Parse (ws ++ tag ++ VersionToString v ++ build) = Some v /\
  (Parse text = Some w -> version_ok w).
Proof.
  intros Hv Hws Htag Hb. split; [|apply Parse_ok].
  destruct (Parse_print v build Hv Hb) as (b & rest & -> & _ & H). apply H; [|done].
  rewrite !elem_of_cons, elem_of_nil in Htag. destruct Htag as [->|[->|[->|[]]]]; simpl; eauto.
Qed.

Lemma version_parse_roundtrip_witness :
  Parse (b! " v1.20.3-rc.1+linux") = Some (mkVersion 1 20 3 (b! "rc.1")).
Proof.
  apply (version_parse_roundtrip (mkVersion 1 20 3 (b! "rc.1")) [32] [118] (b! "+linux") [] (mkVersion 0 0 0 [])).
  - split; [split; discriminate|]. split; [split; discriminate|]. split; [split; discriminate|].
    repeat constructor; discriminate.
  - repeat constructor.
  - apply list_elem_of_further, list_elem_of_here.
  - right. eexists. reflexivity.
Defined.

(** Precedence is a total preorder: comparison is antisymmetric and
    transitive, a release is above its own prereleases; so "is newer" is a
    strict order and two releases can never each update to the other. *)
Theorem version_precedence (a b c : Version) (x y z : list Z) :
  Compare b a = - Compare a b /\
  (Compare a b <= 0 -> Compare b c <= 0 -> Compare a c <= 0) /\
  (prerelease a = [] -> prerelease b <> [] -> major a = major b -> minor a = minor b ->
   patch a = patch b -> Compare b a = -1) /\
  (IsNewer x y = true -> IsNewer y x = false) /\
  (IsNewer x y = true -> IsNewer y z = true -> IsNewer x z = true).
Proof.
  destruct ordered_Compare as [Hs Ht]. split_and!; [apply Hs|apply Ht| | |].
  - intros Ha Hb E1 E2 E3. unfold Compare. rewrite E1, E2, E3, !Z.eqb_refl, Ha. simpl.
    by destruct (prerelease b).
  - unfold IsNewer. destruct (Parse x) as [u|], (Parse y) as [v|]; try done.
    rewrite (Hs u v). intros H. reflect_bools. apply Z.ltb_ge. lia.
  - unfold IsNewer. destruct (Parse x) as [u|], (Parse y) as [v|], (Parse z) as [w|]; try done.
    intros H1 H2. reflect_bools. apply Z.ltb_lt.
    pose proof (Hs u v). pose proof (Hs v w). pose proof (Hs u w).
    destruct (decide (0 < Compare u w)) as [|Hn]; [done|].
    pose proof (ordered_zero Compare w v u ordered_Compare ltac:(lia) ltac:(lia)).
    pose proof (Ht w v u ltac:(lia) ltac:(lia)). lia.
Qed.

Lemma version_precedence_witness :
  IsNewer (b! "2.0.0") (b! "2.0.0-rc.1") = true /\ IsNewer (b! "2.0.0-rc.1") (b! "2.0.0") = false /\
  IsNewer (b! "2.0.0") (b! "1.9.0") = true.
Proof.
  pose proof (version_precedence (mkVersion 2 0 0 []) (mkVersion 2 0 0 (b! "rc.1")) (mkVersion 1 9 0 [])
    (b! "2.0.0") (b! "2.0.0-rc.1") (b! "1.9.0")) as (_ & _ & _ & H4 & H5).
  split; [reflexivity|]. split; [apply H4; reflexivity|apply H5; reflexivity].
Defined.
