(* ===== verification/Sha256.v ===== *)
(** * SHA-256 (src/update/Sha256.cpp)

    The incremental hasher the updater verifies downloads with, and its
    specification: the message is padded to 64-byte blocks and the blocks are
    folded through the compression function.  Words are 32-bit unsigned
    integers, the bit count a 64-bit one. *)

From Stdlib Require Import ZifyNat.
From S2P Require Import Prelude Words Text.

(** ** The compression function *)

Definition kRoundConstants : list Z :=
  [0x428a2f98; 0x71374491; 0xb5c0fbcf; 0xe9b5dba5; 0x3956c25b; 0x59f111f1; 0x923f82a4; 0xab1c5ed5] ++
  [0xd807aa98; 0x12835b01; 0x243185be; 0x550c7dc3; 0x72be5d74; 0x80deb1fe; 0x9bdc06a7; 0xc19bf174] ++
  [0xe49b69c1; 0xefbe4786; 0x0fc19dc6; 0x240ca1cc; 0x2de92c6f; 0x4a7484aa; 0x5cb0a9dc; 0x76f988da] ++
  [0x983e5152; 0xa831c66d; 0xb00327c8; 0xbf597fc7; 0xc6e00bf3; 0xd5a79147; 0x06ca6351; 0x14292967] ++
  [0x27b70a85; 0x2e1b2138; 0x4d2c6dfc; 0x53380d13; 0x650a7354; 0x766a0abb; 0x81c2c92e; 0x92722c85] ++
  [0xa2bfe8a1; 0xa81a664b; 0xc24b8b70; 0xc76c51a3; 0xd192e819; 0xd6990624; 0xf40e3585; 0x106aa070] ++
  [0x19a4c116; 0x1e376c08; 0x2748774c; 0x34b0bcb5; 0x391c0cb3; 0x4ed8aa4a; 0x5b9cca4f; 0x682e6ff3] ++
  [0x748f82ee; 0x78a5636f; 0x84c87814; 0x8cc70208; 0x90befffa; 0xa4506ceb; 0xbef9a3f7; 0xc67178f2].

Definition RotR (value bits : Z) : Z :=
  to_u32 (Z.lor (Z.shiftr value bits) (Z.shiftl value (32 - bits))).

Definition xor3 (a b c : Z) : Z := Z.lxor (Z.lxor a b) c.

(** [w[i]], [block[i]]: the indices below are in range by construction. *)
Definition at_ (l : list Z) (i : nat) : Z := nth i l 0.

Definition load_word (block : list Z) (i : nat) : Z :=
  Z.lor (Z.lor (Z.lor (Z.shiftl (at_ block (i * 4)) 24) (Z.shiftl (at_ block (i * 4 + 1)) 16))
               (Z.shiftl (at_ block (i * 4 + 2)) 8)) (at_ block (i * 4 + 3)).

Definition next_word (w : list Z) (i : nat) : Z :=
  let w15 := at_ w (i - 15) in
  let w2 := at_ w (i - 2) in
  let s0 := xor3 (RotR w15 7) (RotR w15 18) (Z.shiftr w15 3) in
  let s1 := xor3 (RotR w2 17) (RotR w2 19) (Z.shiftr w2 10) in
  to_u32 (at_ w (i - 16) + s0 + at_ w (i - 7) + s1).

Definition schedule (block : list Z) : list Z :=
  foldl (fun w i => w ++ [next_word w i]) (map (load_word block) (seq 0 16)) (seq 16 48).

(** One round on the working variables [a] to [h]. *)
Definition sha_round (v : list Z) (kw : Z * Z) : list Z :=
  match v with
  | [a; b; c; d; e; f; g; h] =>
      let S1 := xor3 (RotR e 6) (RotR e 11) (RotR e 25) in
      let ch := Z.lxor (Z.land e f) (Z.land (Z.lxor e 0xFFFFFFFF) g) in
      let temp1 := to_u32 (h + S1 + ch + fst kw + snd kw) in
      let S0 := xor3 (RotR a 2) (RotR a 13) (RotR a 22) in
      let maj := xor3 (Z.land a b) (Z.land a c) (Z.land b c) in
      let temp2 := to_u32 (S0 + maj) in
      [to_u32 (temp1 + temp2); a; b; c; to_u32 (d + temp1); e; f; g]
  | _ => v
  end.

Definition Transform (state : list Z) (block : list Z) : list Z :=
  let v := foldl sha_round state (zip kRoundConstants (schedule block)) in
  zip_with (fun s x => to_u32 (s + x)) state v.

(** ** The hasher *)

Record Sha256 := mkSha {
  state_ : list Z;
  bitCount_ : Z;
  buffer_ : list Z;
  bufferLength_ : nat
}.

Definition initial_state : list Z :=
  [0x6a09e667; 0xbb67ae85; 0x3c6ef372; 0xa54ff53a; 0x510e527f; 0x9b05688c; 0x1f83d9ab; 0x5be0cd19].

Definition Reset : Sha256 := mkSha initial_state 0 (replicate 64 0) 0.

(** The copy loop of [Update]; every turn with room in the buffer consumes at
    least one byte. *)
Fixpoint update_loop (fuel : nat) (h : Sha256) (bytes : list Z) : res Sha256 :=
  match bytes, fuel with
  | [], _ => Ok h
  | _, O => Fault
  | _, S fuel' =>
      let space := (64 - bufferLength_ h)%nat in
      let take_ := if (length bytes <? space)%nat then length bytes else space in
      buffer ← blit (take take_ bytes) (buffer_ h) (bufferLength_ h);
      let filled := (bufferLength_ h + take_)%nat in
      update_loop fuel'
        (if (filled =? 64)%nat then mkSha (Transform (state_ h) buffer) (bitCount_ h) buffer 0
         else mkSha (state_ h) (bitCount_ h) buffer filled)
        (drop take_ bytes)
  end.

Definition Update (h : Sha256) (data : list Z) : res Sha256 :=
  update_loop (length data)
    (mkSha (state_ h) (to_u64 (bitCount_ h + Z.of_nat (length data) * 8)) (buffer_ h) (bufferLength_ h))
    data.

(** [while (bufferLength_ != 56) Update(&zero, 1);] *)
Fixpoint pad_zeros (fuel : nat) (h : Sha256) : res Sha256 :=
  if (bufferLength_ h =? 56)%nat then Ok h
  else match fuel with
  | O => Fault
  | S fuel' => h' ← Update h [0]; pad_zeros fuel' h'
  end.

Definition length_bytes (totalBits : Z) : list Z :=
  map (fun i => Z.land (Z.shiftr totalBits (56 - Z.of_nat i * 8)) 0xFF) (seq 0 8).

Definition kHex : list Z := Eval compute in bytes_of "0123456789abcdef".

Definition hex_word (word : Z) : list Z :=
  concat (map (fun shift =>
    let byte := Z.land (Z.shiftr word shift) 0xFF in
    [at_ kHex (Z.to_nat (Z.shiftr byte 4)); at_ kHex (Z.to_nat (Z.land byte 0x0F))]) [24; 16; 8; 0]).

Definition HexDigest (h : Sha256) : res (list Z) :=
  let totalBits := bitCount_ h in
  h1 ← Update h [0x80];
  h2 ← pad_zeros 64 h1;
  block ← blit (length_bytes totalBits) (buffer_ h2) (bufferLength_ h2);
  Ok (concat (map hex_word (Transform (state_ h2) block))).

Definition HexOf (data : list Z) : res (list Z) :=
  h ← Update Reset data; HexDigest h.

(** A file as the reads see it: it may not open, each [read] returns some
    bytes, and the stream may end up [bad]. *)
Record file_reads := mkFile { is_open : bool; reads : list (list Z); bad : bool }.

Fixpoint update_all (h : Sha256) (chunks : list (list Z)) : res Sha256 :=
  match chunks with
  | [] => Ok h
  | c :: rest =>
      h' ← (if (0 <? length c)%nat then Update h c else Ok h);
      update_all h' rest
  end.

Definition HexOfFile (file : file_reads) : res (list Z) :=
  if negb (is_open file) then Ok []
  else
    h ← update_all Reset (reads file);
    if bad file then Ok [] else HexDigest h.

Definition nibble (c : Z) : Z :=
  if (48 <=? c) && (c <=? 57) then c - 48 else Z.lor c 0x20 - 97 + 10.

Definition RawOfFile (file : file_reads) : res (option (list Z)) :=
  hex ← HexOfFile file;
  if negb (length hex =? 64)%nat then Ok None
  else Ok (Some (map (fun i =>
    to_u8 (Z.lor (Z.shiftl (nibble (at_ hex (i * 2))) 4) (nibble (at_ hex (i * 2 + 1))))) (seq 0 32))).

Definition HexEquals (a b : list Z) : bool :=
  if negb (length a =? length b)%nat then false
  else foldl Z.lor 0 (zip_with (fun x y => Z.lxor (tolower x) (tolower y)) a b) =? 0.

(** ** Specification *)

Fixpoint blocks_of (n : nat) (message : list Z) : list (list Z) :=
  match n with
  | O => []
  | S n' => take 64 message :: blocks_of n' (drop 64 message)
  end.

(** A one, zeros up to eight bytes short of a block, the length in bits. *)
Definition padded (message : list Z) : list Z :=
  message ++ [0x80] ++ replicate ((119 - length message mod 64) mod 64) 0
  ++ length_bytes (Z.of_nat (length message) * 8).

Definition digest_words (message : list Z) : list Z :=
  let p := padded message in foldl Transform initial_state (blocks_of (length p / 64) p).

Definition digest_hex (message : list Z) : list Z := concat (map hex_word (digest_words message)).

(** ** Test vectors *)

Example sha_empty : text_of (digest_hex []) =
  "e3b0c44298fc1c149afbf4c8996fb92427ae41e4649b934ca495991b7852b855"%string.
Proof. vm_compute. reflexivity. Qed.
Example sha_abc : HexOf (b! "abc") =
  Ok (b! "ba7816bf8f01cfea414140de5dae2223b00361a396177a9cb410ff61f20015ad").
Proof. vm_compute. reflexivity. Qed.
Example sha_two_blocks : HexOf (b! "abcdbcdecdefdefgefghfghighijhijkijkljklmklmnlmnomnopnopq") =
  Ok (b! "248d6a61d20638b8e5c026930c3e6039a33ce45964ff2167f6ecedd419db06c1").
Proof. vm_compute. reflexivity. Qed.

(** ** The state represents a message *)

#[local] Ltac Zify.zify_post_hook ::= Z.to_euclidean_division_equations.

(** The full blocks of the message are in the state, the rest in the buffer. *)
Definition holds (h : Sha256) (message : list Z) : Prop := exists bs tail,
  message = concat bs ++ tail /\ Forall (fun b => length b = 64%nat) bs /\ (length tail < 64)%nat /\
  state_ h = foldl Transform initial_state bs /\ bufferLength_ h = length tail /\
  length (buffer_ h) = 64%nat /\ take (length tail) (buffer_ h) = tail.

Lemma length_concat_blocks (bs : list (list Z)) :
  Forall (fun b => length b = 64%nat) bs -> length (concat bs) = (64 * length bs)%nat.
Proof. induction 1; simpl; [done|]. rewrite length_app. lia. Qed.

Lemma holds_length h message : holds h message -> bufferLength_ h = (length message mod 64)%nat.
Proof.
  intros (bs & tail & -> & Hbs & Ht & _ & -> & _).
  rewrite length_app, (length_concat_blocks bs Hbs). lia.
Qed.

Lemma holds_reset : holds Reset [].
Proof. exists [], []. split_and!; try done; simpl; lia. Qed.

Lemma update_loop_holds fuel : forall h message bytes,
  holds h message -> (length bytes <= fuel)%nat ->
  exists h', update_loop fuel h bytes = Ok h' /\ holds h' (message ++ bytes) /\ bitCount_ h' = bitCount_ h.
Proof.
  induction fuel as [|fuel IH]; intros h message bytes Hh Hf;
    (destruct bytes as [|b bytes]; [exists h; by rewrite app_nil_r|]); [simpl in Hf; lia|].
  destruct Hh as (bs & tail & -> & Hbs & Ht & Hst & Hlen & Hbuf & Htail). simpl. rewrite Hlen.
  set (l := b :: bytes) in *. change (S (length bytes)) with (length l) in *. set (t := if (length l <? 64 - length tail)%nat then length l else (64 - length tail)%nat).
  assert (t <= length l /\ length tail + t <= 64 /\ 0 < t /\ (t = length l \/ length tail + t = 64))%nat
    as (Ht1 & Ht2 & Ht3 & Ht4).
  { assert (0 < length l)%nat by (subst l; simpl; lia). clearbody l. subst t.
    destruct (_ <? _)%nat eqn:E; reflect_bools; lia. }
  clearbody l t.
  assert (length (take t l) = t) as Hx by (rewrite length_take; lia).
  rewrite blit_ok by (rewrite Hx; lia). rewrite Hx, Htail. cbn [mbind res_bind].
  replace ((concat bs ++ tail) ++ l) with ((concat bs ++ tail ++ take t l) ++ drop t l).
  2:{ rewrite <- !app_assoc. by rewrite take_drop. }
  destruct (length tail + t =? 64)%nat eqn:E; reflect_bools.
  - destruct (IH (mkSha (Transform (state_ h) (tail ++ take t l ++ drop (length tail + t) (buffer_ h)))
      (bitCount_ h) (tail ++ take t l ++ drop (length tail + t) (buffer_ h)) 0)
      (concat bs ++ tail ++ take t l) (drop t l)) as (h' & -> & Hh' & Hb); [|rewrite length_drop; lia|eauto].
    rewrite (drop_ge (buffer_ h)) by lia. rewrite app_nil_r.
    assert (length (tail ++ take t l) = 64%nat) as H64 by (rewrite length_app; lia).
    exists (bs ++ [tail ++ take t l]), []. simpl. split_and!; try done; try lia.
    + by rewrite concat_app, app_nil_r; simpl; rewrite app_nil_r.
    + apply Forall_app. split; [done|]. by apply Forall_singleton.
    + by rewrite foldl_app, Hst.
  - destruct (IH (mkSha (state_ h) (bitCount_ h)
      (tail ++ take t l ++ drop (length tail + t) (buffer_ h)) (length tail + t))
      (concat bs ++ tail ++ take t l) (drop t l)) as (h' & -> & Hh' & Hb); [|rewrite length_drop; lia|eauto].
    assert (length (tail ++ take t l) = (length tail + t)%nat) as Hl2 by (rewrite length_app; lia).
    exists bs, (tail ++ take t l). simpl. rewrite Hl2. split_and!; try done; try lia.
    + rewrite !length_app, length_drop. lia.
    + rewrite app_assoc, <- Hl2. apply take_app_length.
Qed.

Lemma Update_holds h message data : holds h message ->
  exists h', Update h data = Ok h' /\ holds h' (message ++ data) /\
    bitCount_ h' = to_u64 (bitCount_ h + Z.of_nat (length data) * 8).
Proof.
  intros Hh. unfold Update.
  destruct (update_loop_holds (length data)
    (mkSha (state_ h) (to_u64 (bitCount_ h + Z.of_nat (length data) * 8)) (buffer_ h) (bufferLength_ h))
    message data Hh ltac:(lia)) as (h' & -> & ? & Hb). eauto.
Qed.

Lemma update_all_holds chunks : forall h message, holds h message ->
  bitCount_ h = to_u64 (Z.of_nat (length message) * 8) ->
  exists h', update_all h chunks = Ok h' /\ holds h' (message ++ concat chunks) /\
    bitCount_ h' = to_u64 (Z.of_nat (length (message ++ concat chunks)) * 8).
Proof.
  induction chunks as [|c chunks IH]; intros h message Hh Hb; simpl.
  - exists h. by rewrite app_nil_r.
  - assert (exists h1, (if (0 <? length c)%nat then Update h c else Ok h) = Ok h1 /\ holds h1 (message ++ c) /\
      bitCount_ h1 = to_u64 (Z.of_nat (length (message ++ c)) * 8)) as (h1 & -> & Hh1 & Hb1).
    { destruct (_ <? _)%nat eqn:E; reflect_bools.
      - destruct (Update_holds h message c Hh) as (h1 & -> & Hh1 & Hb1). exists h1.
        split; [done|]. split; [done|]. rewrite Hb1, Hb. unfold to_u64. rewrite Zplus_mod_idemp_l, length_app. f_equal. lia.
      - assert (c = []) as -> by (apply length_zero_iff_nil; lia). exists h. by rewrite app_nil_r. }
    simpl. destruct (IH h1 (message ++ c) Hh1 Hb1) as (h' & -> & Hh' & Hb').
    exists h'. rewrite <- app_assoc in *. done.
Qed.

Lemma pad_zeros_holds fuel : forall h message, holds h message ->
  ((120 - length message mod 64) mod 64 <= fuel)%nat ->
  exists h', pad_zeros fuel h = Ok h' /\
    holds h' (message ++ replicate ((120 - length message mod 64) mod 64) 0).
Proof.
  induction fuel as [|fuel IH]; intros h message Hh Hf; pose proof (holds_length h message Hh) as Hl; simpl.
  - replace ((120 - length message mod 64) mod 64)%nat with 0%nat by lia.
    rewrite (proj2 (Nat.eqb_eq _ 56)) by lia. exists h. by rewrite app_nil_r.
  - destruct (_ =? _)%nat eqn:E; reflect_bools.
    + replace ((120 - length message mod 64) mod 64)%nat with 0%nat by lia. exists h. by rewrite app_nil_r.
    + destruct (Update_holds h message [0] Hh) as (h1 & -> & Hh1 & _). cbn [mbind res_bind].
      assert ((120 - length message mod 64) mod 64 =
        S ((120 - length (message ++ [0%Z]) mod 64) mod 64))%nat as Hs by (rewrite length_app; simpl; lia).
      destruct (IH h1 (message ++ [0]) Hh1) as (h' & -> & Hh'); [lia|].
      exists h'. split; [done|]. rewrite Hs. by rewrite <- app_assoc in Hh'.
Qed.

(** ** The digest *)

Lemma blocks_of_concat bs : Forall (fun b => length b = 64%nat) bs ->
  blocks_of (length bs) (concat bs) = bs.
Proof.
  induction 1 as [|b bs Hb Hbs IH]; [done|]. cbn [length concat blocks_of].
  by rewrite take_app_length', drop_app_length', IH.
Qed.

Lemma HexDigest_holds h message : holds h message ->
  bitCount_ h = to_u64 (Z.of_nat (length message) * 8) -> Z.of_nat (length message) * 8 < 2 ^ 64 ->
  HexDigest h = Ok (digest_hex message).
Proof.
  intros Hh Hb Hlt. unfold HexDigest. rewrite Hb. unfold to_u64. rewrite Z.mod_small by lia.
  destruct (Update_holds h message [0x80] Hh) as (h1 & -> & Hh1 & _). cbn [mbind res_bind].
  destruct (pad_zeros_holds 64 h1 _ Hh1) as (h2 & -> & Hh2); [lia|]. cbn [mbind res_bind].
  pose proof (holds_length h2 _ Hh2) as Hl2.
  replace ((120 - length (message ++ [0x80%Z]) mod 64) mod 64)%nat
    with ((119 - length message mod 64) mod 64)%nat in * by (rewrite length_app; simpl; lia).
  rewrite !length_app, length_replicate in Hl2. simpl in Hl2.
  destruct Hh2 as (bs & tail & E & Hbs & Ht & Hst & Hlen & Hbuf & Htail).
  assert (length tail = 56%nat) as H56 by lia.
  set (lb := length_bytes (Z.of_nat (length message) * 8)). assert (length lb = 8%nat) as Hlb by done.
  rewrite Hlen, blit_ok by (rewrite Hlb; lia). cbn [mbind res_bind].
  rewrite Htail, Hlb, (drop_ge (buffer_ h2)), app_nil_r by lia.
  unfold digest_hex, digest_words, padded. fold lb.
  assert (message ++ [0x80] ++ replicate ((119 - length message mod 64) mod 64) 0 ++ lb
    = concat (bs ++ [tail ++ lb])) as ->.
  { rewrite concat_app. simpl. rewrite app_nil_r, app_assoc, <- E. by rewrite <- !app_assoc. }
  assert (Forall (fun b => length b = 64%nat) (bs ++ [tail ++ lb])) as Hall.
  { apply Forall_app. split; [done|]. apply Forall_singleton. rewrite length_app. lia. }
  rewrite (length_concat_blocks _ Hall), Nat.mul_comm, Nat.div_mul by lia.
  by rewrite blocks_of_concat, foldl_app, Hst.
Qed.

(** ** Hexadecimal digits *)

Definition u32_ok (w : Z) : Prop := 0 <= w < 2 ^ 32.

Lemma sha_round_length v kw : length v = 8%nat -> length (sha_round v kw) = 8%nat.
Proof. intros H. by destruct v as [|? [|? [|? [|? [|? [|? [|? [|? [|? ?]]]]]]]]]. Qed.

Lemma Transform_shape st block : length st = 8%nat ->
  length (Transform st block) = 8%nat /\ Forall u32_ok (Transform st block).
Proof.
  intros H. unfold Transform.
  assert (forall l v, length v = 8%nat -> length (foldl sha_round v l) = 8%nat) as Hr.
  { induction l; intros v Hv; simpl; [done|]. apply IHl. by apply sha_round_length. }
  split; [rewrite length_zip_with, Hr by done; lia|].
  generalize (foldl sha_round st (zip kRoundConstants (schedule block))). clear.
  induction st as [|s st IH]; intros [|x v]; simpl; constructor; [apply Z.mod_pos_bound; lia|apply IH].
Qed.

Lemma digest_words_shape message :
  length (digest_words message) = 8%nat /\ Forall u32_ok (digest_words message).
Proof.
  unfold digest_words. generalize (blocks_of (length (padded message) / 64) (padded message)) as bs.
  assert (forall bs st, length st = 8%nat -> Forall u32_ok st ->
    length (foldl Transform st bs) = 8%nat /\ Forall u32_ok (foldl Transform st bs)) as H.
  { induction bs as [|b bs IH]; intros st Hl Hu; [done|]. simpl.
    destruct (Transform_shape st b Hl). by apply IH. }
  intros bs. apply H; [done|]. repeat constructor; discriminate.
Qed.

(** The bytes of the digest, most significant first. *)
Definition word_bytes (w : Z) : list Z :=
  map (fun shift => Z.land (Z.shiftr w shift) 0xFF) [24; 16; 8; 0].
Definition digest (message : list Z) : list Z := concat (map word_bytes (digest_words message)).

Definition hex_byte (byte : Z) : list Z :=
  [at_ kHex (Z.to_nat (Z.shiftr byte 4)); at_ kHex (Z.to_nat (Z.land byte 0x0F))].

Lemma hex_word_bytes w : hex_word w = concat (map hex_byte (word_bytes w)).
Proof. unfold hex_word, word_bytes. by rewrite map_map. Qed.

Lemma digest_hex_bytes message : digest_hex message = concat (map hex_byte (digest message)).
Proof.
  unfold digest_hex, digest. induction (digest_words message) as [|w ws IH]; [done|].
  cbn [map concat]. by rewrite hex_word_bytes, IH, map_app, concat_app.
Qed.

Lemma digest_shape message : length (digest message) = 32%nat /\ bytes_ok (digest message).
Proof.
  unfold digest. destruct (digest_words_shape message) as [Hl _].
  assert (forall ws, length (concat (map word_bytes ws)) = (4 * length ws)%nat /\
    bytes_ok (concat (map word_bytes ws))) as H.
  { induction ws as [|w ws [IH1 IH2]]; [split; [done|constructor]|]. cbn [map concat].
    rewrite length_app, IH1. split; [simpl; lia|]. apply Forall_app. split; [|done].
    unfold word_bytes. simpl. rewrite !land_255. repeat constructor; apply to_u8_range. }
  destruct (H (digest_words message)) as [H1 H2]. rewrite H1, Hl. done.
Qed.

(** Each byte survives its two digits, checked on all 256 of them. *)
Lemma nibble_hex b : byte_ok b ->
  match hex_byte b with
  | [hi; lo] => to_u8 (Z.lor (Z.shiftl (nibble hi) 4) (nibble lo)) = b
  | _ => False
  end.
Proof.
  intros Hb. unfold byte_ok in Hb. rewrite <- (Z2Nat.id b) by lia.
  assert (Z.to_nat b < 256)%nat as Hn by lia. revert Hn. generalize (Z.to_nat b). clear. intros n Hn.
  assert (forallb (fun n => to_u8 (Z.lor (Z.shiftl (nibble (at_ (hex_byte (Z.of_nat n)) 0)) 4)
    (nibble (at_ (hex_byte (Z.of_nat n)) 1))) =? Z.of_nat n) (seq 0 256) = true) as H by (vm_compute; reflexivity).
  rewrite forallb_forall in H. specialize (H n). rewrite Z.eqb_eq in H. apply H, in_seq. lia.
Qed.

Definition unhex (hex : list Z) (n : nat) : list Z :=
  map (fun i => to_u8 (Z.lor (Z.shiftl (nibble (at_ hex (i * 2))) 4) (nibble (at_ hex (i * 2 + 1)))))
    (seq 0 n).

Lemma unhex_hex bs : bytes_ok bs -> unhex (concat (map hex_byte bs)) (length bs) = bs.
Proof.
  induction 1 as [|b bs Hb Hbs IH]; [done|]. unfold unhex. cbn [length]. rewrite <- cons_seq.
  cbn [map concat]. f_equal; [exact (nibble_hex b Hb)|].
  rewrite <- IH at 2. unfold unhex. rewrite <- seq_shift, map_map. apply map_ext. intros i.
  replace (S i * 2)%nat with (S (S (i * 2))) by lia. done.
Qed.

Lemma length_digest_hex message : length (digest_hex message) = 64%nat.
Proof.
  rewrite digest_hex_bytes. destruct (digest_shape message) as [Hl _].
  assert (forall l : list Z, length (concat (map hex_byte l)) = (2 * length l)%nat) as ->; [|lia].
  induction l; simpl; lia.
Qed.

Lemma HexOf_digest data : Z.of_nat (length data) * 8 < 2 ^ 64 -> HexOf data = Ok (digest_hex data).
Proof.
  intros Hl. unfold HexOf. destruct (Update_holds Reset [] data holds_reset) as (h & -> & Hh & Hbits).
  cbn [mbind res_bind]. apply HexDigest_holds; [done| |done]. rewrite Hbits. done.
Qed.

Lemma HexOfFile_digest file : is_open file = true -> bad file = false ->
  Z.of_nat (length (concat (reads file))) * 8 < 2 ^ 64 ->
  HexOfFile file = Ok (digest_hex (concat (reads file))).
Proof.
  intros Ho Hb Hl. unfold HexOfFile. rewrite Ho, Hb. cbn [negb].
  destruct (update_all_holds (reads file) Reset [] holds_reset eq_refl) as (h & -> & Hh & Hbits).
  cbn [mbind res_bind]. by apply HexDigest_holds.
Qed.

(** A file that hashes to anything is hashed to its digest. *)
Lemma HexOfFile_inv file hex : Z.of_nat (length (concat (reads file))) * 8 < 2 ^ 64 ->
  HexOfFile file = Ok hex -> hex = [] \/ hex = digest_hex (concat (reads file)).
Proof.
  intros Hl H. destruct (is_open file) eqn:Ho; [|unfold HexOfFile in H; rewrite Ho in H; left; by injection H].
  destruct (bad file) eqn:Hb.
  - unfold HexOfFile in H. rewrite Ho, Hb in H. cbn [negb] in H. inv_bind H. left. by injection H.
  - rewrite HexOfFile_digest in H by done. right. by injection H.
Qed.

Lemma foldl_lor_zero l : forall acc, foldl Z.lor acc l = 0 <-> acc = 0 /\ Forall (fun x => x = 0) l.
Proof.
  induction l as [|x l IH]; intros acc; simpl.
  - split; [done|by intros [? _]].
  - rewrite IH, Z.lor_eq_0_iff, Forall_cons. tauto.
Qed.

Lemma HexEquals_iff a b : HexEquals a b = true <-> map tolower a = map tolower b.
Proof.
  unfold HexEquals. destruct (length a =? length b)%nat eqn:E; simpl; reflect_bools.
  - rewrite Z.eqb_eq, foldl_lor_zero. revert b E.
    induction a as [|x a IH]; intros [|y b] E; simpl in *; try done.
    rewrite Forall_cons. assert (length a = length b) as E' by lia. specialize (IH b E').
    rewrite Z.lxor_eq_0_iff. split.
    + intros (_ & -> & H). f_equal. tauto.
    + intros H. injection H as -> H. tauto.
  - split; [done|]. intros H. apply (f_equal length) in H. by rewrite !length_map in H.
Qed.

(** ** Properties *)

(** C21: Hashing a file or a buffer gives the hexadecimal SHA-256 digest of the
    padded message, whatever the sizes of the reads it arrives in: the
    incremental hasher refines the block specification for messages below
    2^61 bytes, and never leaves its 64-byte buffer. *)
Theorem sha256_streams file data :
  is_open file = true -> bad file = false ->
  Z.of_nat (length (concat (reads file))) * 8 < 2 ^ 64 ->
  HexOfFile file = Ok (digest_hex (concat (reads file))) /\
  (data = concat (reads file) -> HexOf data = Ok (digest_hex data)).
Proof.
  intros Ho Hb Hl. split; [by apply HexOfFile_digest|]. intros ->. by apply HexOf_digest.
Qed.

Lemma sha256_streams_witness :
  HexOfFile (mkFile true [b! "a"; []; b! "bc"] false) = Ok (digest_hex (b! "abc")).
Proof.
  apply (sha256_streams (mkFile true [b! "a"; []; b! "bc"] false) []); reflexivity.
Defined.

(** The 32 raw bytes handed to the signature check are the bytes the
    hexadecimal digest spells, and the comparison of two digests is equality
    up to letter case. *)
Theorem sha256_raw_and_compare file a b :
  is_open file = true -> bad file = false ->
  Z.of_nat (length (concat (reads file))) * 8 < 2 ^ 64 ->
  RawOfFile file = Ok (Some (digest (concat (reads file)))) /\
  length (digest (concat (reads file))) = 32%nat /\
  HexOfFile file = Ok (concat (map hex_byte (digest (concat (reads file))))) /\
  (HexEquals a b = true <-> map tolower a = map tolower b).
Proof.
  intros Ho Hb Hl. destruct (digest_shape (concat (reads file))) as [H32 Hbytes].
  split_and!; [|done| |apply HexEquals_iff].
  - unfold RawOfFile. rewrite HexOfFile_digest by done. cbn [mbind res_bind].
    rewrite length_digest_hex. simpl negb. cbn iota. do 2 f_equal.
    rewrite digest_hex_bytes. fold (unhex (concat (map hex_byte (digest (concat (reads file))))) 32).
    rewrite <- H32. by apply unhex_hex.
  - rewrite <- digest_hex_bytes. by apply HexOfFile_digest.
Qed.

Lemma sha256_raw_and_compare_witness :
  length (digest (b! "abc")) = 32%nat /\ HexEquals (b! "aBc1") (b! "AbC1") = true.
Proof.
  destruct (sha256_raw_and_compare (mkFile true [b! "abc"] false) (b! "aBc1") (b! "AbC1"))
    as (_ & H & _ & E); [reflexivity..|].
  split; [exact H|]. apply E. reflexivity.
Defined.
