(* ===== verification/Permissions.v ===== *)
(** * Permissions and the route policy (src/security/Permissions.cpp)

    The authorization vocabulary, the three roles, and the ordered table that
    gives each request of the configuration API its guard: the first entry
    whose pattern and method match, else "a session is required".  Paths and
    methods are byte strings. *)

From S2P Require Import Prelude Words Text.

(** ** The vocabulary *)

Inductive Permission :=
| kSystemConfigRead | kSystemConfigWrite | kConfigExport | kConfigImport | kDeviceRead
| kDeviceControl | kRelayControl | kZkProtocolTest | kRabbitmqTest | kLuaRead | kLuaWrite
| kLuaRun | kLuaCompile | kLuaDeploy | kLuaRollback | kLogRead | kLogManage
| kCardClientRead | kCardClientWrite | kUpdateRead | kUpdateInstall | kUserRead | kUserWrite
| kPermCount.

#[global] Instance Permission_eq_dec : EqDecision Permission.
Proof. solve_decision. Defined.

Definition kPermissionNames : list (Permission * string) := [
  (kSystemConfigRead, "SYSTEM_CONFIG_READ");
  (kSystemConfigWrite, "SYSTEM_CONFIG_WRITE");
  (kConfigExport, "CONFIG_EXPORT");
  (kConfigImport, "CONFIG_IMPORT");
  (kDeviceRead, "DEVICE_READ");
  (kDeviceControl, "DEVICE_CONTROL");
  (kRelayControl, "RELAY_CONTROL");
  (kZkProtocolTest, "ZK_PROTOCOL_TEST");
  (kRabbitmqTest, "RABBITMQ_TEST");
  (kLuaRead, "LUA_READ");
  (kLuaWrite, "LUA_WRITE");
  (kLuaRun, "LUA_RUN");
  (kLuaCompile, "LUA_COMPILE");
  (kLuaDeploy, "LUA_DEPLOY");
  (kLuaRollback, "LUA_ROLLBACK");
  (kLogRead, "LOG_READ");
  (kLogManage, "LOG_MANAGE");
  (kCardClientRead, "CARD_CLIENT_READ");
  (kCardClientWrite, "CARD_CLIENT_WRITE");
  (kUpdateRead, "UPDATE_READ");
  (kUpdateInstall, "UPDATE_INSTALL");
  (kUserRead, "USER_READ");
  (kUserWrite, "USER_WRITE") ]%string.

Definition kOperatorPermissions : list Permission := [
  kSystemConfigRead; kDeviceRead; kDeviceControl; kRelayControl; kZkProtocolTest; kLuaRead;
  kLogRead; kCardClientRead; kUpdateRead ].

Definition kUserPermissions : list Permission := [
  kDeviceRead; kLuaRead; kLogRead; kUpdateRead; kConfigExport; kConfigImport ].

Definition PermissionName (permission : Permission) : string :=
  match List.find (fun entry => bool_decide (fst entry = permission)) kPermissionNames with
  | Some entry => snd entry
  | None => "UNKNOWN"
  end.

Definition PermissionFromName (name : string) : Permission :=
  match List.find (fun entry => String.eqb name (snd entry)) kPermissionNames with
  | Some entry => fst entry
  | None => kPermCount
  end.

Inductive Role := kAdmin | kOperator | kUser | kRoleCount.

#[global] Instance Role_eq_dec : EqDecision Role.
Proof. solve_decision. Defined.

Definition RoleName (role : Role) : string :=
  match role with
  | kAdmin => "ADMIN" | kOperator => "OPERATOR" | kUser => "USER" | kRoleCount => "UNKNOWN"
  end.

Definition RoleFromName (name : string) : Role :=
  let upper := Upper name in
  if String.eqb upper "ADMIN" then kAdmin
  else if String.eqb upper "OPERATOR" then kOperator
  else if String.eqb upper "USER" then kUser
  else if String.eqb upper "CLIENT" then kUser
  else kRoleCount.

Definition RoleHasPermission (role : Role) (permission : Permission) : bool :=
  match role with
  | kAdmin => true
  | kOperator => existsb (fun p => bool_decide (p = permission)) kOperatorPermissions
  | kUser => existsb (fun p => bool_decide (p = permission)) kUserPermissions
  | kRoleCount => false
  end.

Definition PermissionNamesFor (role : Role) : list string :=
  map snd (List.filter (fun entry => RoleHasPermission role (fst entry)) kPermissionNames).

(** ** The policy table *)

Inductive Guard := kPublic | kAuthenticated | kPermission | kApiKey.

#[global] Instance Guard_eq_dec : EqDecision Guard.
Proof. solve_decision. Defined.

Record RoutePolicy := mkPolicy {
  pattern : string;
  methods : string;
  guard : Guard;
  permission : Permission
}.

Local Open Scope string_scope.

Definition public_policies : list RoutePolicy := [
  mkPolicy "/" "" kPublic kPermCount;
  mkPolicy "/css/*" "" kPublic kPermCount;
  mkPolicy "/js/*" "" kPublic kPermCount;
  mkPolicy "*.html" "" kPublic kPermCount;
  mkPolicy "/favicon.ico" "" kPublic kPermCount;
  mkPolicy "/api/auth/login" "POST" kPublic kPermCount;
  mkPolicy "/api/auth/mode" "GET" kPublic kPermCount;
  mkPolicy "/api/health" "GET" kPublic kPermCount ].

Definition api_key_policies : list RoutePolicy := [
  mkPolicy "/api/card/input" "POST" kApiKey kPermCount ].

Definition session_policies : list RoutePolicy := [
  mkPolicy "/api/auth/logout" "" kAuthenticated kPermCount;
  mkPolicy "/api/auth/me" "" kAuthenticated kPermCount;
  mkPolicy "/api/auth/password" "POST" kAuthenticated kPermCount ].

Definition user_policies : list RoutePolicy := [
  mkPolicy "/api/users" "GET" kPermission kUserRead;
  mkPolicy "/api/users*" "" kPermission kUserWrite;
  mkPolicy "/api/audit" "" kPermission kUserRead ].

Definition config_policies : list RoutePolicy := [
  mkPolicy "/api/config" "GET" kPermission kSystemConfigRead;
  mkPolicy "/api/config" "POST" kPermission kSystemConfigWrite;
  mkPolicy "/api/config/export" "GET" kPermission kConfigExport;
  mkPolicy "/api/config/import" "POST" kPermission kConfigImport;
  mkPolicy "/api/status" "" kPermission kDeviceRead;
  mkPolicy "/api/variables" "" kPermission kDeviceRead;
  mkPolicy "/api/serial/ports" "" kPermission kSystemConfigRead ].

Definition log_policies : list RoutePolicy := [
  mkPolicy "/api/logs/clear" "POST" kPermission kLogManage;
  mkPolicy "/api/logs*" "" kPermission kLogRead ].

Definition lua_policies : list RoutePolicy := [
  mkPolicy "/api/lua/scripts/file" "GET" kPermission kLuaRead;
  mkPolicy "/api/lua/scripts/file" "" kPermission kLuaWrite;
  mkPolicy "/api/lua/scripts/import" "POST" kPermission kConfigImport;
  mkPolicy "/api/lua/script" "GET" kPermission kLuaRead;
  mkPolicy "/api/lua/script" "POST" kPermission kLuaWrite;
  mkPolicy "/api/lua/scripts-dir" "GET" kPermission kLuaRead;
  mkPolicy "/api/lua/scripts-dir" "POST" kPermission kLuaWrite;
  mkPolicy "/api/lua/scripts/rename" "" kPermission kLuaWrite;
  mkPolicy "/api/lua/scripts/folder/delete" "POST" kPermission kLuaWrite;
  mkPolicy "/api/lua/scripts/set-default" "" kPermission kLuaWrite;
  mkPolicy "/api/lua/clear-default" "" kPermission kLuaWrite;
  mkPolicy "/api/lua/validate" "" kPermission kLuaWrite;
  mkPolicy "/api/lua/scripts/run" "" kPermission kLuaRun;
  mkPolicy "/api/lua/scripts/stop" "" kPermission kLuaRun;
  mkPolicy "/api/lua/run" "" kPermission kLuaRun;
  mkPolicy "/api/lua/stop" "" kPermission kLuaRun;
  mkPolicy "/api/lua/restart" "" kPermission kLuaRun;
  mkPolicy "/api/lua/runtimes/prune" "" kPermission kLuaRun;
  mkPolicy "/api/lua/scripts" "" kPermission kLuaRead;
  mkPolicy "/api/lua/runtime*" "" kPermission kLuaRead;
  mkPolicy "/api/lua/projects*" "GET" kPermission kLuaRead;
  mkPolicy "/api/lua/projects*" "PUT" kPermission kSystemConfigWrite ].

Definition package_policies : list RoutePolicy := [
  mkPolicy "/api/lua/packages" "GET" kPermission kLuaRead;
  mkPolicy "/api/lua/packages/import" "POST" kPermission kConfigImport;
  mkPolicy "/api/lua/compile" "" kPermission kLuaCompile;
  mkPolicy "/api/lua/packages/build" "" kPermission kLuaCompile;
  mkPolicy "/api/lua/packages/rollback" "" kPermission kLuaRollback;
  mkPolicy "/api/lua/packages/keys" "" kPermission kUserWrite;
  mkPolicy "/api/lua/packages/deploy" "" kPermission kLuaDeploy;
  mkPolicy "/api/lua/packages/stop" "POST" kPermission kLuaDeploy;
  mkPolicy "/api/lua/packages/start" "POST" kPermission kLuaDeploy;
  mkPolicy "/api/lua/packages/delete" "" kPermission kLuaDeploy;
  mkPolicy "/api/plugins/import" "POST" kPermission kConfigImport;
  mkPolicy "/api/plugins*" "GET" kPermission kDeviceRead;
  mkPolicy "/api/plugins*" "POST" kPermission kDeviceControl ].

Definition app_policies : list RoutePolicy := [
  mkPolicy "/api/app*" "" kAuthenticated kPermCount ].

Definition update_policies : list RoutePolicy := [
  mkPolicy "/api/update/status" "" kPermission kUpdateRead;
  mkPolicy "/api/update/check" "" kPermission kUpdateRead;
  mkPolicy "/api/update/dismiss" "" kPermission kUpdateRead;
  mkPolicy "/api/update/install" "" kPermission kUpdateInstall ].

Definition card_policies : list RoutePolicy := [
  mkPolicy "/api/card/clients" "GET" kPermission kCardClientRead;
  mkPolicy "/api/card/clients*" "" kPermission kCardClientWrite;
  mkPolicy "/api/card/cache" "GET" kPermission kDeviceRead;
  mkPolicy "/api/card/cache" "" kPermission kDeviceControl ].

Definition modbus_policies : list RoutePolicy := [
  mkPolicy "/api/modbus/io" "" kPermission kDeviceRead;
  mkPolicy "/api/modbus/output" "" kPermission kDeviceControl;
  mkPolicy "/api/modbus/register" "" kPermission kDeviceControl;
  mkPolicy "/api/modbus/test" "" kPermission kDeviceControl ].

Definition hardware_policies : list RoutePolicy := [
  mkPolicy "/api/test/relay*" "" kPermission kRelayControl;
  mkPolicy "/api/test/aux-relay*" "" kPermission kRelayControl;
  mkPolicy "/api/test/beeper" "" kPermission kRelayControl;
  mkPolicy "/api/test/zk/door" "" kPermission kRelayControl;
  mkPolicy "/api/test/zk/device/control" "" kPermission kRelayControl;
  mkPolicy "/api/test/zk*" "" kPermission kZkProtocolTest;
  mkPolicy "/api/test/rabbitmq*" "" kPermission kRabbitmqTest;
  mkPolicy "/api/mq/test" "" kPermission kRabbitmqTest;
  mkPolicy "/api/mq/publish" "" kPermission kRabbitmqTest;
  mkPolicy "/api/test/aux-input/status" "" kPermission kDeviceRead;
  mkPolicy "/api/test/button/status" "" kPermission kDeviceRead;
  mkPolicy "/api/test/log" "GET" kPermission kLogRead;
  mkPolicy "/api/test/log" "" kPermission kLogManage;
  mkPolicy "/api/test/scenario*" "" kPermission kDeviceControl;
  mkPolicy "/api/test/serial" "" kPermission kDeviceControl;
  mkPolicy "/api/test/modbus" "" kPermission kDeviceControl;
  mkPolicy "/api/test/rest" "" kPermission kSystemConfigRead;
  mkPolicy "/api/serial/test" "" kPermission kDeviceControl;
  mkPolicy "/api/serial2/led-test" "" kPermission kDeviceControl;
  mkPolicy "/api/rfid/test" "" kPermission kDeviceControl;
  mkPolicy "/api/rest/test" "" kPermission kSystemConfigRead ].

Definition RoutePolicies : list RoutePolicy :=
  public_policies ++
  api_key_policies ++
  session_policies ++
  user_policies ++
  config_policies ++
  log_policies ++
  lua_policies ++
  package_policies ++
  app_policies ++
  update_policies ++
  card_policies ++
  modbus_policies ++
  hardware_policies.

Local Close Scope string_scope.

(** ** Matching *)

(** The walk over the comma-separated list; each turn passes a comma. *)
Fixpoint method_loop (fuel : nat) (cursor method : list Z) : bool :=
  match cursor, fuel with
  | [], _ | _, O => false
  | _, S fuel' =>
      let '(segment, rest) := until 44 cursor in
      if bool_decide (segment = method) then true
      else match rest with
           | [] => false
           | _ :: rest' => method_loop fuel' rest' method
           end
  end.

Definition MethodMatches (methods method : list Z) : bool :=
  match methods with
  | [] => true
  | _ => method_loop (length methods) methods method
  end.

Definition PathMatches (pattern path : list Z) : bool :=
  match pattern with
  | [] => false
  | first :: suffix =>
      if first =? 42 then ends_with suffix path
      else if bool_decide (last pattern = Some 42)
      then starts_with (take (length pattern - 1) pattern) path
      else bool_decide (path = pattern)
  end.

Definition policy_matches (path method : list Z) (policy : RoutePolicy) : bool :=
  PathMatches (bytes_of (pattern policy)) path && MethodMatches (bytes_of (methods policy)) method.

Definition default_policy : RoutePolicy := mkPolicy "" "" kAuthenticated kPermCount.

Definition PolicyFor (path method : list Z) : RoutePolicy :=
  match List.find (policy_matches path method) RoutePolicies with
  | Some policy => policy
  | None => default_policy
  end.

Example policy_config_post : PolicyFor (b! "/api/config") (b! "POST") =
  mkPolicy "/api/config" "POST" kPermission kSystemConfigWrite.
Proof. reflexivity. Qed.
Example policy_unlisted : PolicyFor (b! "/api/new") (b! "POST") = default_policy.
Proof. reflexivity. Qed.

(** ** First match *)

Lemma find_existsb {A} (f : A -> bool) l : existsb f l = bool_decide (is_Some (List.find f l)).
Proof. induction l as [|x l IH]; simpl; [done|]. by destruct (f x). Qed.

Definition guarded_policies : list RoutePolicy :=
  api_key_policies ++ session_policies ++ user_policies ++ config_policies ++ log_policies ++
  lua_policies ++ package_policies ++ app_policies ++ update_policies ++ card_policies ++
  modbus_policies ++ hardware_policies.

Lemma public_first : RoutePolicies = public_policies ++ guarded_policies /\
  forallb (fun p => bool_decide (guard p = kPublic)) public_policies = true /\
  forallb (fun p => bool_decide (guard p <> kPublic)) guarded_policies = true.
Proof. split; [reflexivity|]. split; vm_compute; reflexivity. Qed.

Lemma find_guard {A} (f : A -> bool) (Q : A -> Prop) `{forall x, Decision (Q x)} l x :
  forallb (fun p => bool_decide (Q p)) l = true -> List.find f l = Some x -> Q x.
Proof.
  intros Hl Hx. apply List.find_some in Hx as [Hin _].
  rewrite forallb_forall in Hl. specialize (Hl x Hin). by apply bool_decide_eq_true in Hl.
Qed.

Lemma public_iff path method :
  guard (PolicyFor path method) = kPublic <-> existsb (policy_matches path method) public_policies = true.
Proof.
  destruct public_first as (E & Hpub & Hguard). unfold PolicyFor. rewrite E, find_app, find_existsb.
  rewrite bool_decide_eq_true.
  destruct (List.find (policy_matches path method) public_policies) as [p|] eqn:F.
  - pose proof (find_guard _ (fun p => guard p = kPublic) _ _ Hpub F). split; [by eexists|done].
  - split; [|by intros [? ?]].
    destruct (List.find _ guarded_policies) as [p|] eqn:G; [|done].
    by pose proof (find_guard _ (fun p => guard p <> kPublic) _ _ Hguard G).
Qed.

Lemma if_bool_decide (P : Prop) `{Decision P} : (if bool_decide P then true else false) = bool_decide P.
Proof. by destruct (bool_decide P). Qed.

(** A request that decides an entry: its pattern without the star, and one of
    its methods, or a method no entry lists. *)
Definition sample_path (policy : RoutePolicy) : list Z :=
  List.filter (fun b => negb (b =? 42)) (bytes_of (pattern policy)).
Definition sample_method (policy : RoutePolicy) : list Z :=
  match methods policy with EmptyString => b! "TRACE" | m => bytes_of m end.

#[global] Instance RoutePolicy_eq_dec : EqDecision RoutePolicy.
Proof. solve_decision. Defined.

(** ** Properties *)

(** The requests the gateway serves without any credential are exactly the
    page shell and assets, everything whose path ends in ".html", and the
    login, auth-mode and health endpoints with their one method each. *)
Theorem public_surface path method :
  guard (PolicyFor path method) = kPublic <->
  path = b! "/" \/ (exists r, path = b! "/css/" ++ r) \/ (exists r, path = b! "/js/" ++ r) \/
  (exists f, path = f ++ b! ".html") \/ path = b! "/favicon.ico" \/
  (path = b! "/api/auth/login" /\ method = b! "POST") \/
  (path = b! "/api/auth/mode" /\ method = b! "GET") \/
  (path = b! "/api/health" /\ method = b! "GET").
Proof.
  rewrite public_iff. unfold public_policies, existsb, policy_matches. cbn [pattern methods].
  change (PathMatches (b! "/css/*") path) with (starts_with (b! "/css/") path).
  change (PathMatches (b! "/js/*") path) with (starts_with (b! "/js/") path).
  change (PathMatches (b! "*.html") path) with (ends_with (b! ".html") path).
  change (PathMatches (b! "/") path) with (bool_decide (path = b! "/")).
  change (PathMatches (b! "/favicon.ico") path) with (bool_decide (path = b! "/favicon.ico")).
  change (PathMatches (b! "/api/auth/login") path) with (bool_decide (path = b! "/api/auth/login")).
  change (PathMatches (b! "/api/auth/mode") path) with (bool_decide (path = b! "/api/auth/mode")).
  change (PathMatches (b! "/api/health") path) with (bool_decide (path = b! "/api/health")).
  change (MethodMatches (b! "") method) with true.
  change (MethodMatches (b! "POST") method) with (if bool_decide (b! "POST" = method) then true else false).
  change (MethodMatches (b! "GET") method) with (if bool_decide (b! "GET" = method) then true else false).
  rewrite !if_bool_decide, !orb_true_iff, !andb_true_iff, !bool_decide_eq_true, !starts_with_iff, ends_with_iff.
  intuition congruence.
Qed.

(** No entry of the policy table is shadowed by the ones above it: each
    one decides some request. *)
Theorem no_dead_policy policy :
  policy ∈ RoutePolicies -> exists path method, PolicyFor path method = policy.
Proof.
  intros Hin. exists (sample_path policy), (sample_method policy). revert policy Hin.
  assert (forallb (fun p => bool_decide (PolicyFor (sample_path p) (sample_method p) = p)) RoutePolicies = true)
    as H by (vm_compute; reflexivity).
  intros policy Hin. rewrite forallb_forall in H.
  specialize (H policy (proj1 (list_elem_of_In _ _) Hin)). by apply bool_decide_eq_true in H.
Qed.

Lemma no_dead_policy_witness : exists path method,
  PolicyFor path method = mkPolicy "/api/test/zk*" "" kPermission kZkProtocolTest.
Proof.
  apply (no_dead_policy (mkPolicy "/api/test/zk*" "" kPermission kZkProtocolTest)).
  apply (bool_decide_unpack _). vm_compute. exact I.
Defined.

(** The names round-trip; an operator holds no permission that changes
    configuration, Lua, users or the software, and no role name gives a
    permission to an unknown role.  A viewer holds what an operator holds,
    except for configuration import and export, which the operator lacks. *)
Theorem roles_separate p r name :
  (p <> kPermCount -> PermissionFromName (PermissionName p) = p) /\
  (r <> kRoleCount -> RoleFromName (RoleName r) = r) /\
  (RoleHasPermission kOperator p = true ->
   p ∉ [kSystemConfigWrite; kConfigImport; kLuaWrite; kLuaRun; kLuaCompile; kLuaDeploy; kLuaRollback;
        kUserRead; kUserWrite; kUpdateInstall; kLogManage; kCardClientWrite]) /\
  (RoleFromName name = kRoleCount -> RoleHasPermission (RoleFromName name) p = false) /\
  (RoleHasPermission kUser p = true /\ RoleHasPermission kOperator p = false <->
   p = kConfigExport \/ p = kConfigImport).
Proof.
  split_and!.
  - by destruct p.
  - by destruct r.
  - intros H. apply (bool_decide_unpack _). by destruct p.
  - by intros ->.
  - split; [by destruct p; intros [? ?]; auto|by intros [->| ->]].
Qed.

Lemma roles_separate_witness :
  PermissionFromName "LUA_WRITE" = kLuaWrite /\ RoleFromName "OPERATOR" = kOperator /\
  RoleHasPermission (RoleFromName "guest") kDeviceRead = false.
Proof.
  split; [apply (proj1 (roles_separate kLuaWrite kAdmin "")); discriminate|].
  split; [apply (proj1 (proj2 (roles_separate kLuaWrite kOperator ""))); discriminate|].
  apply (proj1 (proj2 (proj2 (proj2 (roles_separate kDeviceRead kAdmin "guest"))))). reflexivity.
Defined.

(** Importing a Lua package by path has no entry and needs only a session,
    and installing a plugin needs only a permission operators hold. *)
Example import_path_unclassified :
  PolicyFor (b! "/api/lua/packages/import-path") (b! "POST") = default_policy.
Proof. reflexivity. Qed.
Example operator_installs_plugins :
  permission (PolicyFor (b! "/api/plugins/install") (b! "POST")) = kDeviceControl /\
  RoleHasPermission kOperator kDeviceControl = true.
Proof. split; reflexivity. Qed.
