(* ===== verification/RateLimiter.v ===== *)
(** * Token-bucket rate limiting (src/security/RateLimiter.cpp)

    A bucket per key, refilled in proportion to the time since it was last
    touched.  Levels and rates are doubles, times are nanoseconds of the
    steady clock, given as an argument.  The buckets are an [unordered_map]:
    a list in iteration order, which any step may permute. *)

From stdpp Require Import relations.
From S2P Require Import Prelude Float.

(** ** State *)

Record Bucket := mkBucket { tokens : Z; last_ : Z }.

Record RateLimiter := mkLimiter {
  perSecond_ : Z;
  burst_ : Z;
  maxKeys_ : nat;
  buckets_ : list (string * Bucket)
}.

(** [x > 0 ? x : 1.0] *)
Definition positive_or_one (x : Z) : Z := if f64_lt f64_zero x then x else f64_one.

Definition new_limiter (perSecond burst : Z) (maxKeys : nat) : RateLimiter :=
  mkLimiter (positive_or_one perSecond) (positive_or_one burst)
    (if (0 <? maxKeys)%nat then maxKeys else 1024%nat) [].

(** ** Operations *)

Definition Configure (l : RateLimiter) (perSecond burst : Z) : RateLimiter :=
  mkLimiter (positive_or_one perSecond) (positive_or_one burst) (maxKeys_ l) (buckets_ l).

(** Ten minutes. *)
Definition kIdleEviction : Z := 600000000000.

Definition SweepUnlocked (buckets : list (string * Bucket)) (now : Z) : list (string * Bucket) :=
  List.filter (fun b => negb (kIdleEviction <? now - last_ (snd b))) buckets.

Definition has (key : string) (b : string * Bucket) : bool := String.eqb (fst b) key.

Definition find_bucket (key : string) (buckets : list (string * Bucket)) : option Bucket :=
  snd <$> List.find (has key) buckets.

Definition erase (key : string) (buckets : list (string * Bucket)) : list (string * Bucket) :=
  List.filter (fun b => negb (has key b)) buckets.

Definition put (key : string) (bucket : Bucket) (buckets : list (string * Bucket)) :=
  map (fun b => if has key b then (key, bucket) else b) buckets.

(** The scan for the least recently used entry, starting from the first. *)
Definition oldest (first : string * Bucket) (rest : list (string * Bucket)) : string * Bucket :=
  foldl (fun old candidate => if last_ (snd candidate) <? last_ (snd old) then candidate else old) first rest.

Definition evict_oldest (buckets : list (string * Bucket)) : list (string * Bucket) :=
  match buckets with
  | [] => []
  | first :: rest => erase (fst (oldest first rest)) buckets
  end.

Definition make_room (l : RateLimiter) (now : Z) : list (string * Bucket) :=
  if (maxKeys_ l <=? length (buckets_ l))%nat then
    let swept := SweepUnlocked (buckets_ l) now in
    if (maxKeys_ l <=? length swept)%nat then evict_oldest swept else swept
  else buckets_ l.

(** [std::chrono::duration<double>(now - last).count()] *)
Definition seconds (nanoseconds : Z) : Z := f64_div (f64_of_Z nanoseconds) (f64_of_Z 1000000000).

Definition TouchUnlocked (l : RateLimiter) (key : string) (now : Z) : Bucket * RateLimiter :=
  match find_bucket key (buckets_ l) with
  | None =>
      let fresh := mkBucket (burst_ l) now in
      (fresh, mkLimiter (perSecond_ l) (burst_ l) (maxKeys_ l) ((key, fresh) :: make_room l now))
  | Some bucket =>
      let elapsed := seconds (now - last_ bucket) in
      let bucket' := mkBucket (f64_min (burst_ l) (f64_add (tokens bucket) (f64_mul elapsed (perSecond_ l)))) now in
      (bucket', mkLimiter (perSecond_ l) (burst_ l) (maxKeys_ l) (put key bucket' (buckets_ l)))
  end.

Definition Allow (l : RateLimiter) (key : string) (now : Z) : bool * RateLimiter :=
  let '(bucket, l1) := TouchUnlocked l key now in
  if f64_lt (tokens bucket) f64_one then (false, l1)
  else (true, mkLimiter (perSecond_ l1) (burst_ l1) (maxKeys_ l1)
                (put key (mkBucket (f64_sub (tokens bucket) f64_one) (last_ bucket)) (buckets_ l1))).

Definition RetryAfter (l : RateLimiter) (key : string) (now : Z) : Z * RateLimiter :=
  let '(bucket, l1) := TouchUnlocked l key now in
  if negb (f64_lt (tokens bucket) f64_one) then (f64_zero, l1)
  else (f64_div (f64_sub f64_one (tokens bucket)) (perSecond_ l1), l1).

Definition Reset (l : RateLimiter) (key : string) : RateLimiter :=
  mkLimiter (perSecond_ l) (burst_ l) (maxKeys_ l) (erase key (buckets_ l)).

Definition Clear (l : RateLimiter) : RateLimiter := mkLimiter (perSecond_ l) (burst_ l) (maxKeys_ l) [].

Definition TrackedKeys (l : RateLimiter) : nat := length (buckets_ l).

Inductive limiter_step : RateLimiter -> RateLimiter -> Prop :=
| step_allow l key now : limiter_step l (Allow l key now).2
| step_retry l key now : limiter_step l (RetryAfter l key now).2
| step_reset l key : limiter_step l (Reset l key)
| step_clear l : limiter_step l (Clear l)
| step_configure l p b : limiter_step l (Configure l p b)
| step_rehash l bs : Permutation (buckets_ l) bs ->
    limiter_step l (mkLimiter (perSecond_ l) (burst_ l) (maxKeys_ l) bs).

(** ** The table is a bounded map *)

Definition keys (l : list (string * Bucket)) : list string := map fst l.

Definition limiter_ok (l : RateLimiter) : Prop :=
  NoDup (keys (buckets_ l)) /\ (length (buckets_ l) <= maxKeys_ l)%nat /\ (0 < maxKeys_ l)%nat.

Lemma has_iff key b : has key b = true <-> fst b = key.
Proof. apply String.eqb_eq. Qed.

Lemma keys_put key bucket bs : keys (put key bucket bs) = keys bs.
Proof.
  unfold keys, put. rewrite map_map. apply map_ext. intros b.
  destruct (has key b) eqn:E; [|done]. by apply has_iff in E.
Qed.

Lemma filter_sub (f : string * Bucket -> bool) bs :
  (length (List.filter f bs) <= length bs)%nat /\
  (NoDup (keys bs) -> NoDup (keys (List.filter f bs))) /\
  (forall k, k ∈ keys (List.filter f bs) -> k ∈ keys bs).
Proof.
  induction bs as [|b bs (IH1 & IH2 & IH3)]; simpl; [done|]. unfold keys in *.
  destruct (f b); simpl; (split; [lia|]).
  - split; [|set_solver]. rewrite !NoDup_cons. intros [Hb Hn]. split; [|auto]. intros H. by apply Hb, IH3.
  - split; [|set_solver]. rewrite NoDup_cons. intros [_ Hn]. auto.
Qed.

Lemma oldest_in rest : forall first, oldest first rest ∈ first :: rest.
Proof.
  unfold oldest. induction rest as [|c rest IH]; intros first; simpl; [set_solver|].
  destruct (_ <? _); [specialize (IH c)|specialize (IH first)]; set_solver.
Qed.

Lemma erase_shrinks key bs : key ∈ keys bs -> (length (erase key bs) < length bs)%nat.
Proof.
  induction bs as [|b bs IH]; simpl; [set_solver|]. intros Hin.
  unfold erase in *. simpl. destruct (has key b) eqn:E; simpl.
  - pose proof (proj1 (filter_sub (fun b => negb (has key b)) bs)). lia.
  - assert (key ∈ keys bs) as Hk; [|specialize (IH Hk); lia].
    apply elem_of_cons in Hin as [->|]; [|done]. by rewrite (proj2 (has_iff (fst b) b)) in E.
Qed.

Lemma evict_oldest_shrinks bs : bs <> [] -> (length (evict_oldest bs) < length bs)%nat.
Proof.
  destruct bs as [|first rest]; [done|]. intros _. apply erase_shrinks.
  unfold keys. apply list_elem_of_fmap. exists (oldest first rest). split; [done|apply oldest_in].
Qed.

Lemma evict_oldest_sub bs :
  (NoDup (keys bs) -> NoDup (keys (evict_oldest bs))) /\ (forall k, k ∈ keys (evict_oldest bs) -> k ∈ keys bs).
Proof. destruct bs as [|first rest]; [done|]. by destruct (filter_sub (fun b => negb (has (oldest first rest).1 b)) (first :: rest)). Qed.

Lemma make_room_spec l now : limiter_ok l ->
  (length (make_room l now) < maxKeys_ l)%nat /\ NoDup (keys (make_room l now)) /\
  (forall k, k ∈ keys (make_room l now) -> k ∈ keys (buckets_ l)).
Proof.
  intros (Hn & Hl & Hm). unfold make_room.
  destruct (_ <=? _)%nat eqn:E; reflect_bools; [|split_and!; [lia|done|done]].
  destruct (filter_sub (fun b => negb (kIdleEviction <? now - last_ b.2)) (buckets_ l)) as (S1 & S2 & S3).
  fold (SweepUnlocked (buckets_ l) now) in *. set (swept := SweepUnlocked (buckets_ l) now) in *.
  destruct (_ <=? _)%nat eqn:E2; reflect_bools; [|split_and!; [lia|auto|auto]].
  destruct (evict_oldest_sub swept) as [H1 H2].
  pose proof (evict_oldest_shrinks swept). split_and!; [|auto|auto].
  destruct swept; [simpl in *; lia|]. specialize (H ltac:(done)). lia.
Qed.

Lemma find_bucket_none key bs : find_bucket key bs = None <-> key ∉ keys bs.
Proof.
  unfold find_bucket. induction bs as [|b bs IH]; simpl; [split; [set_solver|done]|].
  destruct (has key b) eqn:E; simpl.
  - apply has_iff in E. split; [done|]. intros H. destruct H. set_solver.
  - rewrite IH. assert (fst b <> key) by (intros H; apply has_iff in H; congruence). set_solver.
Qed.

Lemma find_bucket_put key bucket bs key' :
  find_bucket key' (put key bucket bs) =
    if String.eqb key' key then (if decide (key ∈ keys bs) then Some bucket else None) else find_bucket key' bs.
Proof.
  unfold find_bucket. induction bs as [|b bs IH]; simpl.
  - by destruct (String.eqb _ _).
  - destruct (has key b) eqn:E.
    + apply has_iff in E. unfold has at 1. simpl. rewrite (String.eqb_sym key key').
      destruct (String.eqb_spec key' key) as [Heq|Hn]; simpl.
      * rewrite decide_True; [done|]. rewrite E. set_solver.
      * rewrite IH. assert (has key' b = false) as ->; [|done].
        destruct (has key' b) eqn:E2; [|done]. apply has_iff in E2. congruence.
    + assert (fst b <> key) as Hb by (intros H; apply has_iff in H; congruence).
      destruct (has key' b) eqn:E2; simpl.
      * apply has_iff in E2. destruct (String.eqb_spec key' key) as [Heq|Hn]; [congruence|done].
      * rewrite IH. destruct (String.eqb_spec key' key) as [Heq|Hn]; [|done].
        destruct (decide (key ∈ keys bs)), (decide (key ∈ b.1 :: keys bs)); set_solver.
Qed.

Lemma TouchUnlocked_ok l key now : limiter_ok l ->
  let r := TouchUnlocked l key now in
  limiter_ok r.2 /\ maxKeys_ r.2 = maxKeys_ l /\ burst_ r.2 = burst_ l /\ perSecond_ r.2 = perSecond_ l /\
  find_bucket key (buckets_ r.2) = Some r.1 /\ last_ r.1 = now.
Proof.
  intros Hok. unfold TouchUnlocked. destruct (find_bucket key (buckets_ l)) as [b|] eqn:E; simpl.
  - destruct Hok as (Hn & Hl & Hm). unfold limiter_ok. simpl. rewrite keys_put. unfold put at 1. rewrite length_map.
    split_and!; try done. rewrite find_bucket_put, String.eqb_refl, decide_True; [done|].
    destruct (decide (key ∈ keys (buckets_ l))) as [|Hk]; [done|]. apply find_bucket_none in Hk. congruence.
  - destruct (make_room_spec l now Hok) as (H1 & H2 & H3). apply find_bucket_none in E.
    unfold limiter_ok. simpl. split_and!; try done; try lia.
    + constructor; [|done]. intros H. apply E. by apply H3.
    + unfold find_bucket. simpl. unfold has at 1. simpl. by rewrite String.eqb_refl.
Qed.

Lemma put_ok l key b : limiter_ok l ->
  limiter_ok (mkLimiter (perSecond_ l) (burst_ l) (maxKeys_ l) (put key b (buckets_ l))).
Proof.
  intros (Hn & Hl & Hm). unfold limiter_ok. simpl. rewrite keys_put. unfold put. by rewrite length_map.
Qed.

Lemma limiter_step_ok l l' : limiter_step l l' -> limiter_ok l -> limiter_ok l'.
Proof.
  intros Hs Hok. destruct Hs as [l key now|l key now|l key|l|l p b|l bs Hp].
  - unfold Allow. destruct (TouchUnlocked_ok l key now Hok) as (H & _).
    destruct (TouchUnlocked l key now) as [b l1]. simpl in *. destruct (f64_lt _ _); [done|]. by apply put_ok.
  - unfold RetryAfter. destruct (TouchUnlocked_ok l key now Hok) as (H & _).
    destruct (TouchUnlocked l key now) as [b l1]. simpl in *. by destruct (negb _).
  - destruct Hok as (Hn & Hl & Hm). destruct (filter_sub (fun b => negb (has key b)) (buckets_ l)) as (S1 & S2 & _).
    unfold limiter_ok, Reset, erase. simpl. split_and!; [auto|lia|done].
  - unfold limiter_ok, Clear. simpl. destruct Hok as (_ & _ & ?). split_and!; [constructor|lia|done].
  - done.
  - destruct Hok as (Hn & Hl & Hm). unfold limiter_ok. simpl. split_and!; [|by rewrite <- Hp|done].
    unfold keys in *. by rewrite <- Hp.
Qed.

(** ** A burst *)

(** Requests of one key at one instant. *)
Fixpoint allow_many (n : nat) (l : RateLimiter) (key : string) (now : Z) : list bool * RateLimiter :=
  match n with
  | O => ([], l)
  | S n' =>
      let '(ok, l1) := Allow l key now in
      let '(oks, l2) := allow_many n' l1 key now in
      (ok :: oks, l2)
  end.

(** The bucket of [key], touched at this very instant, holds [level]. *)
Definition holds_level (l : RateLimiter) (key : string) (now level : Z) : Prop :=
  find_bucket key (buckets_ l) = Some (mkBucket (f64_of_Z level) now).

Lemma f64_min_int a b : int53 a -> int53 b -> f64_min (f64_of_Z a) (f64_of_Z b) = f64_of_Z (Z.min a b).
Proof.
  intros Ha Hb. unfold f64_min. rewrite f64_of_Z_lt by done.
  destruct (b <? a) eqn:E; [apply Z.ltb_lt in E|apply Z.ltb_ge in E]; f_equal; lia.
Qed.

Lemma touch_level l key now level n : int53 level -> int53 n -> level <= n ->
  burst_ l = f64_of_Z n -> f64_nonneg (perSecond_ l) -> holds_level l key now level ->
  TouchUnlocked l key now = (mkBucket (f64_of_Z level) now,
    mkLimiter (perSecond_ l) (burst_ l) (maxKeys_ l) (put key (mkBucket (f64_of_Z level) now) (buckets_ l))).
Proof.
  intros Hl Hn Hle Hb Hp Hh. unfold TouchUnlocked. rewrite Hh. cbn [tokens last_].
  rewrite Z.sub_diag. change (seconds 0) with 0. rewrite f64_mul_zero_l by done.
  destruct (f64_of_Z_exact level Hl) as (Hnn & _). rewrite f64_add_zero by done.
  rewrite Hb, f64_min_int by done. by rewrite Z.min_r by lia.
Qed.

Lemma find_bucket_put_same key b bs : is_Some (find_bucket key bs) ->
  find_bucket key (put key b bs) = Some b.
Proof.
  intros [x Hx]. rewrite find_bucket_put, String.eqb_refl. rewrite decide_True; [done|].
  destruct (decide (key ∈ keys bs)) as [|Hk]; [done|]. apply find_bucket_none in Hk. congruence.
Qed.

(** One request against a bucket at a whole level. *)
Lemma allow_level l key now level n : int53 level -> int53 n -> level <= n ->
  burst_ l = f64_of_Z n -> f64_nonneg (perSecond_ l) -> holds_level l key now level ->
  exists l', Allow l key now = (1 <=? level, l') /\ burst_ l' = burst_ l /\ perSecond_ l' = perSecond_ l /\
    holds_level l' key now (Z.max 0 (level - 1)).
Proof.
  intros Hl Hn Hle Hb Hp Hh. unfold Allow. rewrite (touch_level l key now level n) by done.
  cbn [tokens last_ buckets_ perSecond_ burst_ maxKeys_].
  change f64_one with (f64_of_Z 1) at 1. unfold int53 in *. rewrite f64_of_Z_lt by (unfold int53; lia).
  assert (is_Some (find_bucket key (buckets_ l))) as Hs by (rewrite Hh; eauto).
  destruct (level <? 1) eqn:E; reflect_bools.
  - rewrite (proj2 (Z.leb_gt 1 level)) by lia. eexists. split; [done|]. split; [done|]. split; [done|].
    unfold holds_level. simpl. rewrite find_bucket_put_same by done. do 3 f_equal. lia.
  - rewrite (proj2 (Z.leb_le 1 level)) by lia. eexists. split; [done|]. split; [done|]. split; [done|].
    unfold holds_level. simpl. rewrite find_bucket_put_same by (rewrite find_bucket_put_same; eauto).
    rewrite f64_sub_one by (unfold int53; lia). do 3 f_equal. lia.
Qed.

Lemma allow_many_level m : forall l key now level n, int53 level -> int53 n -> level <= n ->
  burst_ l = f64_of_Z n -> f64_nonneg (perSecond_ l) -> holds_level l key now level ->
  (allow_many m l key now).1 =
    replicate (Nat.min m (Z.to_nat level)) true ++ replicate (m - Z.to_nat level) false.
Proof.
  induction m as [|m IH]; intros l key now level n Hl Hn Hle Hb Hp Hh; simpl; [done|].
  destruct (allow_level l key now level n) as (l' & -> & Hb' & Hp' & Hh'); [done..|].
  specialize (IH l' key now (Z.max 0 (level - 1)) n). unfold int53 in *.
  destruct (allow_many m l' key now) as [oks l2]. simpl in IH |- *.
  rewrite IH by (done || congruence || lia). clear IH.
  destruct (1 <=? level) eqn:E; reflect_bools.
  - replace (Z.to_nat (Z.max 0 (level - 1))) with (Z.to_nat level - 1)%nat by lia.
    replace (Z.to_nat level) with (S (Z.to_nat level - 1)) at 3 4 by lia. simpl. done.
  - assert (level = 0) as -> by lia. simpl. rewrite Nat.min_0_r. simpl. by rewrite Nat.sub_0_r.
Qed.

(** ** Properties *)

(** C24: Whatever requests, resets and reconfigurations happen, in whatever
    order the hash table keeps its entries, the limiter tracks at most
    [maxKeys] keys, each once; and a request of one key leaves every other
    key's bucket as it was, unless it needed room for a new key. *)
Theorem limiter_bounded_and_isolated perSecond burst maxKeys l key other now :
  rtc limiter_step (new_limiter perSecond burst maxKeys) l ->
  (TrackedKeys l <= (if (0 <? maxKeys)%nat then maxKeys else 1024))%nat /\ NoDup (keys (buckets_ l)) /\
  (other <> key -> (is_Some (find_bucket key (buckets_ l)) \/ (TrackedKeys l < maxKeys_ l)%nat) ->
   find_bucket other (buckets_ (Allow l key now).2) = find_bucket other (buckets_ l)).
Proof.
  intros H. assert (limiter_ok l /\ maxKeys_ l = (if (0 <? maxKeys)%nat then maxKeys else 1024%nat)) as [Hok Hmax].
  { set (l0 := new_limiter perSecond burst maxKeys) in H.
    assert (limiter_ok l0) as H0.
    { unfold l0, limiter_ok. simpl. split; [constructor|].
      destruct (0 <? maxKeys)%nat eqn:E; [apply Nat.ltb_lt in E|]; lia. }
    change (if (0 <? maxKeys)%nat then maxKeys else 1024%nat) with (maxKeys_ l0). clearbody l0.
    induction H as [|l1 l2 l3 Hs _ IH]; [done|].
    assert (maxKeys_ l2 = maxKeys_ l1) as <-.
    { destruct Hs as [l key' t|l key' t| | | |]; try done; unfold Allow, RetryAfter;
        destruct (TouchUnlocked_ok l key' t H0) as (_ & Hm & _);
        destruct (TouchUnlocked l key' t) as [b lt]; simpl in *; [by destruct (f64_lt _ _)|by destruct (negb _)]. }
    apply IH. by eapply limiter_step_ok. }
  pose proof Hok as (Hnd & Hlen & _). unfold TrackedKeys. rewrite <- Hmax. split; [done|]. split; [done|].
  intros Hne Hroom. unfold Allow.
  assert (find_bucket other (buckets_ (TouchUnlocked l key now).2) = find_bucket other (buckets_ l)) as Ht.
  { unfold TouchUnlocked. destruct (find_bucket key (buckets_ l)) as [b|] eqn:E; simpl.
    - rewrite find_bucket_put. by destruct (String.eqb_spec other key).
    - destruct Hroom as [[? ?]|Hroom]; [congruence|]. unfold make_room.
      rewrite (proj2 (Nat.leb_gt _ _)) by done. unfold find_bucket. simpl. unfold has at 1. simpl.
      by destruct (String.eqb_spec key other). }
  destruct (TouchUnlocked l key now) as [b l1]. simpl in Ht |- *. destruct (f64_lt _ _); simpl; [done|].
  rewrite find_bucket_put. by destruct (String.eqb_spec other key).
Qed.

Lemma limiter_bounded_and_isolated_witness :
  let l := (Allow (new_limiter (f64_of_Z 40) (f64_of_Z 120) 2) "10.0.0.1" 0).2 in
  (TrackedKeys l <= 2)%nat /\
  find_bucket "10.0.0.1" (buckets_ (Allow l "10.0.0.2" 5).2) = find_bucket "10.0.0.1" (buckets_ l).
Proof.
  set (l := (Allow _ _ _).2).
  destruct (limiter_bounded_and_isolated (f64_of_Z 40) (f64_of_Z 120) 2 l "10.0.0.2" "10.0.0.1" 5) as (H1 & _ & H3).
  - eapply rtc_l; [apply step_allow|]. apply rtc_refl.
  - split; [exact H1|]. apply H3; [discriminate|]. right. apply Nat.ltb_lt. vm_compute. reflexivity.
Defined.

(** A key that is not tracked gets exactly its burst: of any number of
    requests at one instant, the first [n] are allowed and all others refused,
    where [n] is the configured whole burst and the rate any finite one. *)
Theorem limiter_burst_exact l key now n m :
  limiter_ok l -> find_bucket key (buckets_ l) = None -> 1 <= n < 2 ^ 53 ->
  burst_ l = f64_of_Z n -> f64_nonneg (perSecond_ l) ->
  (allow_many m l key now).1 =
    replicate (Nat.min m (Z.to_nat n)) true ++ replicate (m - Z.to_nat n) false.
Proof.
  intros Hok Hf Hn Hb Hp. assert (int53 n) as H53 by (unfold int53; lia). destruct m as [|m]; [done|].
  assert (exists l', Allow l key now = (true, l') /\ burst_ l' = burst_ l /\ perSecond_ l' = perSecond_ l /\
    holds_level l' key now (n - 1)) as (l' & HA & Hb' & Hp' & Hh).
  { unfold Allow. destruct (TouchUnlocked_ok l key now Hok) as (_ & _ & Hb1 & Hp1 & Hf1 & Hl1).
    assert ((TouchUnlocked l key now).1 = mkBucket (burst_ l) now) as Ht.
    { unfold TouchUnlocked. by rewrite Hf. }
    destruct (TouchUnlocked l key now) as [b l1]. simpl in *. subst b. simpl in *. rewrite Hb in *.
    change f64_one with (f64_of_Z 1) at 1. rewrite f64_of_Z_lt, (proj2 (Z.ltb_ge n 1)) by (done || lia).
    eexists. split; [done|]. split; [done|]. split; [done|]. unfold holds_level. simpl.
    rewrite find_bucket_put_same by (rewrite Hf1; eauto). by rewrite f64_sub_one by (done || lia). }
  simpl. rewrite HA. pose proof (allow_many_level m l' key now (n - 1) n) as H. unfold int53 in *.
  destruct (allow_many m l' key now) as [oks l2]. simpl in H |- *.
  rewrite H by (done || congruence || lia).
  replace (Z.to_nat n) with (S (Z.to_nat (n - 1))) by lia. done.
Qed.

Lemma limiter_burst_exact_witness :
  (allow_many 7 (new_limiter 0x3FC999999999999A (f64_of_Z 5) 4096) "10.0.0.9" 77).1 =
  [true; true; true; true; true; false; false].
Proof.
  apply (limiter_burst_exact (new_limiter 0x3FC999999999999A (f64_of_Z 5) 4096) "10.0.0.9" 77 5 7).
  - split; [constructor|]. split; [apply Nat.leb_le; vm_compute; reflexivity|apply Nat.ltb_lt; vm_compute; reflexivity].
  - reflexivity.
  - split; [discriminate|reflexivity].
  - reflexivity.
  - split; [reflexivity|]. split; [reflexivity|]. split; [discriminate|reflexivity].
Defined.
