(* ===== verification/Validation.v ===== *)
(** * Input validation (src/security/Validation.cpp)

    The checks every handler applies to what a client sends: typed JSON
    fields with an error list, UTF-8, log sanitising, file names and path
    containment.  Texts are byte strings; JSON strings are [string]s. *)

From S2P Require Import Prelude Words Text Float Json ModbusCodec.

(** ** Characters *)

Definition CharsetAllows (charset : string) (c : Z) : bool :=
  if String.eqb charset "alnum" then is_alnum c
  else if String.eqb charset "identifier" then is_alnum c || (c =? 46) || (c =? 95) || (c =? 45)
  else if String.eqb charset "printable" then (c =? 9) || ((0x20 <=? c) && negb (c =? 0x7F))
  else true.

Definition kReserved : list (list Z) :=
  map bytes_of ["CON"; "PRN"; "AUX"; "NUL"; "COM1"; "COM2"; "COM3"; "COM4"; "COM5"; "COM6"; "COM7";
    "COM8"; "COM9"; "LPT1"; "LPT2"; "LPT3"; "LPT4"; "LPT5"; "LPT6"; "LPT7"; "LPT8"; "LPT9"]%string.

Definition IsReservedDeviceName (name : list Z) : bool :=
  let stem := map toupper (until 46 name).1 in
  existsb (fun reserved => bool_decide (stem = reserved)) kReserved.

(** ** UTF-8 *)

(** [for (k = 1; k <= extra; ++k)]; [None] is [return false]. *)
Fixpoint continuation_loop (bytes : list Z) (k extra : nat) (codepoint : Z) : res (option Z) :=
  match extra with
  | O => Ok (Some codepoint)
  | S extra' =>
      continuation ← read_at bytes k;
      if negb (Z.land continuation 0xC0 =? 0x80) then Ok None
      else continuation_loop bytes (S k) extra' (Z.lor (Z.shiftl codepoint 6) (Z.land continuation 0x3F))
  end.

(** The first byte of a multi-byte form: how many follow, and its bits. *)
Definition lead_byte (first : Z) : option (nat * Z) :=
  if Z.land first 0xE0 =? 0xC0 then Some (1%nat, Z.land first 0x1F)
  else if Z.land first 0xF0 =? 0xE0 then Some (2%nat, Z.land first 0x0F)
  else if Z.land first 0xF8 =? 0xF0 then Some (3%nat, Z.land first 0x07)
  else None.

Definition codepoint_ok (extra : nat) (codepoint : Z) : bool :=
  negb (((extra =? 1)%nat && (codepoint <? 0x80)) || ((extra =? 2)%nat && (codepoint <? 0x800))
        || ((extra =? 3)%nat && (codepoint <? 0x10000)) || (0x10FFFF <? codepoint)
        || ((0xD800 <=? codepoint) && (codepoint <=? 0xDFFF))).

(** The loop, on what is left of the text; each turn consumes a byte. *)
Fixpoint utf8_loop (fuel : nat) (bytes : list Z) : res bool :=
  match bytes, fuel with
  | [], _ => Ok true
  | _, O => Fault
  | first :: rest, S fuel' =>
      if first <? 0x80 then utf8_loop fuel' rest
      else match lead_byte first with
      | None => Ok false
      | Some (extra, bits) =>
          if (length bytes <=? extra)%nat then Ok false
          else
            r ← continuation_loop bytes 1 extra bits;
            match r with
            | None => Ok false
            | Some codepoint =>
                if codepoint_ok extra codepoint then utf8_loop fuel' (drop (extra + 1) bytes) else Ok false
            end
      end
  end.

Definition IsValidUtf8 (value : list Z) : res bool := utf8_loop (length value) value.

(** ** Fields *)

Section Fields.
Context {J : JsonLib}.

Definition Errors : Type := list (string * string).
Definition Add (errors : Errors) (field problem : string) : Errors := errors ++ [(field, problem)].

Definition Summary (errors : Errors) : string :=
  foldl (fun summary '(field, problem) =>
    ((if String.eqb summary "" then summary else summary ++ "; ") ++ field ++ ": " ++ problem)%string) ""%string errors.

(** [parent.contains(field)], [parent[field]]. *)
Definition member (parent : json) (field : string) : option json :=
  match view parent with
  | JObject l => snd <$> List.find (fun entry => String.eqb (fst entry) field) l
  | _ => None
  end.

Definition is_null (j : json) : bool := match view j with JNull => true | _ => false end.

(** The field, when it is there and not null. *)
Definition present (parent : json) (field : string) : option json :=
  match member parent field with
  | Some j => if is_null j then None else Some j
  | None => None
  end.

Definition missing (errors : Errors) (field : string) (required : bool) : Errors :=
  if required then Add errors field "is required" else errors.

Definition StringField (parent : json) (field : string) (minLength maxLength : nat) (charset : string)
    (errors : Errors) (required : bool) : res (option string * Errors) :=
  match present parent field with
  | None => Ok (None, missing errors field required)
  | Some j =>
      match view j with
      | JString value =>
          if (String.length value <? minLength)%nat || (maxLength <? String.length value)%nat
          then Ok (None, Add errors field ("must be " ++ to_string (Z.of_nat minLength) ++ "-"
                 ++ to_string (Z.of_nat maxLength) ++ " characters"))
          else
            utf8 ← IsValidUtf8 (bytes_of value);
            if negb utf8 then Ok (None, Add errors field "must be valid UTF-8")
            else if existsb (fun c => (c <? 0x80) && negb (CharsetAllows charset c)) (bytes_of value)
            then Ok (None, Add errors field "contains a disallowed character")
            else Ok (Some value, errors)
      | _ => Ok (None, Add errors field "must be a string")
      end
  end.

Definition IntField (parent : json) (field : string) (minimum maximum : Z) (errors : Errors)
    (required : bool) : option Z * Errors :=
  match present parent field with
  | None => (None, missing errors field required)
  | Some j =>
      match view j with
      | JInt z | JUint z =>
          let value := to_signed 64 z in
          if (value <? minimum) || (maximum <? value)
          then (None, Add errors field ("must be " ++ to_string minimum ++ ".." ++ to_string maximum))
          else (Some value, errors)
      | _ => (None, Add errors field "must be an integer")
      end
  end.

Definition BoolField (parent : json) (field : string) (errors : Errors) (required : bool)
  : option bool * Errors :=
  match present parent field with
  | None => (None, missing errors field required)
  | Some j =>
      match view j with
      | JBool b => (Some b, errors)
      | _ => (None, Add errors field "must be true or false")
      end
  end.

Definition EnumField (parent : json) (field : string) (allowed : list string) (errors : Errors)
    (required : bool) : res (option string * Errors) :=
  r ← StringField parent field 1 64 "identifier" errors required;
  match r with
  | (Some value, errors') =>
      if existsb (fun candidate => String.eqb value candidate) allowed then Ok (Some value, errors')
      else Ok (None, Add errors' field ("must be one of: " ++
             foldl (fun l candidate => ((if String.eqb l "" then l else l ++ ", ") ++ candidate)%string) "" allowed))
  | (None, errors') => Ok (None, errors')
  end.

Definition is_object (j : json) : bool := match view j with JObject _ => true | _ => false end.

(** [parse] is the JSON parser of the library; [None] is its exception. *)
Definition JsonObject (parse : string -> option json) (body : string) (maxBytes : nat) : res json :=
  if (maxBytes <? String.length body)%nat
  then Err ("request body exceeds " ++ to_string (Z.of_nat maxBytes) ++ " bytes")
  else if (String.length body =? 0)%nat then Ok (inject (JObject []))
  else match parse body with
  | None => Err "body is not valid JSON"
  | Some out => if negb (is_object out) then Err "body must be a JSON object" else Ok out
  end.

(** [fields[field] = problem]: a later problem of a field replaces the earlier. *)
Definition set_member (l : list (string * json)) (field : string) (j : json) : list (string * json) :=
  List.filter (fun entry => negb (String.eqb (fst entry) field)) l ++ [(field, j)].

Definition ErrorsToJson (errors : Errors) : json :=
  let fields := inject (JObject
    (foldl (fun l '(field, problem) => set_member l field (inject (JString problem))) [] errors)) in
  inject (JObject [("success"%string, inject (JBool false));
                   ("error"%string, inject (JString "VALIDATION_FAILED"));
                   ("fields"%string, fields)]).

End Fields.

(** ** Text hygiene *)

Definition clean_byte (c : Z) : Z :=
  if (c =? 13) || (c =? 10) || (c =? 9) then 32
  else if (c <? 0x20) || (c =? 0x7F) then 63
  else c.

Fixpoint sanitise_loop (value clean : list Z) (maxLength : nat) : list Z :=
  match value with
  | [] => clean
  | c :: rest =>
      if (maxLength <=? length clean)%nat then clean ++ [46; 46; 46]
      else sanitise_loop rest (clean ++ [clean_byte c]) maxLength
  end.

Definition SanitiseForLog (value : list Z) (maxLength : nat) : list Z := sanitise_loop value [] maxLength.

(** ** Paths *)

(** Slash, backslash, colon, star, question mark, double quote, the angle
    brackets and the bar. *)
Definition forbidden : list Z := [47; 92; 58; 42; 63; 34; 60; 62; 124].

Definition SafeFilename (name : list Z) : bool :=
  match name with
  | [] => false
  | front :: _ =>
      if (128 <? length name)%nat then false
      else if bool_decide (name = b! ".") || bool_decide (name = b! "..") then false
      else if front =? 46 then false
      else if bool_decide (last name = Some 46) || bool_decide (last name = Some 32) then false
      else if existsb (fun c => (c <? 0x20) || (c =? 0x7F) || existsb (Z.eqb c) forbidden) name then false
      else negb (IsReservedDeviceName name)
  end.

(** A [filesystem::path]: whether it is absolute, and its components. *)
Record path := mkPath { is_absolute : bool; parts : list string }.

(** The component-wise comparison at the end of [PathStaysWithin]. *)
Fixpoint parts_prefix (base joined : list string) : bool :=
  match base, joined with
  | [], _ => true
  | b :: base', j :: joined' => String.eqb j b && parts_prefix base' joined'
  | _ :: _, [] => false
  end.

(** [canonical] is [weakly_canonical] in the file system at hand; [None] is
    an error code. *)
Definition PathStaysWithin (canonical : path -> option path) (base relative : path) : option path :=
  match canonical base with
  | None => None
  | Some baseCanonical =>
      if is_absolute relative then None
      else if existsb (fun part => String.eqb part "..") (parts relative) then None
      else match canonical (mkPath (is_absolute baseCanonical) (parts baseCanonical ++ parts relative)) with
      | None => None
      | Some joined => if parts_prefix (parts baseCanonical) (parts joined) then Some joined else None
      end
  end.

(** ** Specification of UTF-8 *)

Definition scalar_value (c : Z) : Prop := 0 <= c < 0xD800 \/ 0xDFFF < c <= 0x10FFFF.

Definition encode_scalar (c : Z) : list Z :=
  if c <? 128 then [c]
  else if c <? 2048 then [192 + c / 64; 128 + c mod 64]
  else if c <? 65536 then [224 + c / 4096; 128 + c / 64 mod 64; 128 + c mod 64]
  else [240 + c / 262144; 128 + c / 4096 mod 64; 128 + c / 64 mod 64; 128 + c mod 64].

Definition encode_text (cs : list Z) : list Z := concat (map encode_scalar cs).

(** ** UTF-8 is exactly the encoded texts *)

#[local] Ltac Zify.zify_post_hook ::= Z.to_euclidean_division_equations.

(** The tests and the bits of the first byte, checked on every byte. *)
Definition lead_class (b : Z) : option (nat * Z) :=
  if (192 <=? b) && (b <? 224) then Some (1%nat, b - 192)
  else if (224 <=? b) && (b <? 240) then Some (2%nat, b - 224)
  else if (240 <=? b) && (b <? 248) then Some (3%nat, b - 240)
  else None.

Lemma lead_byte_spec b : byte_ok b -> lead_byte b = lead_class b.
Proof.
  intros Hb. assert (forallb (fun b => bool_decide (lead_byte b = lead_class b)) (map Z.of_nat (seq 0 256)) = true)
    as H by (vm_compute; reflexivity).
  by apply (byte_cases _ b H), bool_decide_eq_true in Hb.
Qed.

Lemma continuation_spec b : byte_ok b ->
  (Z.land b 0xC0 =? 0x80) = ((128 <=? b) && (b <? 192)) /\ Z.land b 0x3F = b mod 64.
Proof.
  intros Hb. assert (forallb (fun b => eqb (Z.land b 0xC0 =? 0x80) ((128 <=? b) && (b <? 192)) &&
    (Z.land b 0x3F =? b mod 64)) (map Z.of_nat (seq 0 256)) = true) as H by (vm_compute; reflexivity).
  apply (byte_cases _ b H) in Hb. apply andb_true_iff in Hb as [H1 H2].
  apply eqb_prop in H1. apply Z.eqb_eq in H2. done.
Qed.

Definition continuation (b : Z) : Prop := 128 <= b < 192.

Lemma continuation_loop_spec rest : forall extra k bits data,
  bytes_ok rest -> (extra <= length rest)%nat ->
  (forall i, data !! (k + i)%nat = rest !! i) ->
  continuation_loop data k extra bits =
    Ok (if decide (Forall continuation (take extra rest))
        then Some (foldl (fun v b => v * 64 + b mod 64) bits (take extra rest)) else None).
Proof.
  induction rest as [|b rest IH]; intros [|extra] k bits data Hb Hl Hd; simpl in *; try lia.
  - done.
  - done.
  - inversion Hb as [|? ? Hb1 Hb2]; subst. unfold read_at. specialize (Hd 0%nat) as Hd0.
    rewrite Nat.add_0_r in Hd0. rewrite Hd0. simpl. destruct (continuation_spec b Hb1) as [-> ->].
    destruct ((128 <=? b) && (b <? 192)) eqn:E; simpl.
    + rewrite (lor_shiftl_add bits (b mod 64) 6) by lia. change (2 ^ 6) with 64.
      rewrite (IH extra (S k)); [|done|lia|].
      * assert (continuation b) as Hc by (unfold continuation; break_guards; lia).
        destruct (decide (Forall continuation (take extra rest))) as [H|H].
        -- rewrite decide_True; [done|by constructor].
        -- rewrite decide_False; [done|]. intros H'. by inversion H'.
      * intros i. specialize (Hd (S i)). simpl in Hd. rewrite <- Hd. f_equal. lia.
    + rewrite decide_False; [done|]. intros H. inversion H as [|? ? Hc ?]; subst.
      unfold continuation in Hc. rewrite (proj2 (Z.leb_le _ _)), (proj2 (Z.ltb_lt _ _)) in E by lia. done.
Qed.

(** One turn of the loop on a text that starts with an encoded scalar. *)
Lemma encode_scalar_bytes c : scalar_value c -> bytes_ok (encode_scalar c) /\ encode_scalar c <> [].
Proof.
  unfold scalar_value, encode_scalar, byte_ok. intros Hc.
  destruct_guards; break_guards; (split; [repeat constructor; lia|done]).
Qed.

Lemma utf8_step_encoded fuel c rest : scalar_value c -> bytes_ok rest ->
  utf8_loop (S fuel) (encode_scalar c ++ rest) = utf8_loop fuel rest.
Proof.
  unfold scalar_value. intros Hc Hrest.
  assert (forall first tail extra bits, encode_scalar c = first :: tail -> 128 <= first < 256 ->
    length tail = extra -> Forall continuation tail -> lead_byte first = Some (extra, bits) ->
    foldl (fun v b => v * 64 + b mod 64) bits tail = c -> codepoint_ok extra c = true ->
    utf8_loop (S fuel) (encode_scalar c ++ rest) = utf8_loop fuel rest) as Hmulti.
  { intros first tail extra bits -> Hf Hlen Hcont Hlead Hval Hok. simpl.
    rewrite (proj2 (Z.ltb_ge first 0x80)), Hlead by lia.
    rewrite (proj2 (Nat.leb_gt _ _)) by (rewrite length_app; lia).
    assert (bytes_ok tail) as Htail.
    { eapply Forall_impl; [exact Hcont|]. unfold continuation, byte_ok. simpl. lia. }
    rewrite (continuation_loop_spec (tail ++ rest) extra 1 bits); [|by apply Forall_app|rewrite length_app; lia|done].
    rewrite <- Hlen, take_app_length, decide_True by done. simpl. rewrite Hval, Hlen, Hok.
    rewrite Nat.add_comm. simpl. by rewrite <- Hlen, drop_app_length. }
  destruct (c <? 128) eqn:E1; [|destruct (c <? 2048) eqn:E2; [|destruct (c <? 65536) eqn:E3]];
    unfold encode_scalar in *; rewrite ?E1, ?E2, ?E3 in *; reflect_bools.
  - simpl. by rewrite (proj2 (Z.ltb_lt c 0x80)).
  - eapply (Hmulti _ _ 1%nat (c / 64)); [reflexivity|lia|done|repeat constructor; lia| |simpl; lia|].
    + rewrite lead_byte_spec by (unfold byte_ok; lia). unfold lead_class.
      rewrite !(proj2 (Z.leb_le _ _)), (proj2 (Z.ltb_lt _ _)) by lia. simpl. do 2 f_equal. lia.
    + unfold codepoint_ok. simpl. apply negb_true_iff. repeat (apply orb_false_iff; split); try done; lia.
  - eapply (Hmulti _ _ 2%nat (c / 4096)); [reflexivity|lia|done|repeat constructor; lia| |simpl; lia|].
    + rewrite lead_byte_spec by (unfold byte_ok; lia). unfold lead_class.
      rewrite (proj2 (Z.ltb_ge _ 224)), andb_false_r by lia.
      rewrite !(proj2 (Z.leb_le _ _)), (proj2 (Z.ltb_lt _ _)) by lia. simpl. do 2 f_equal. lia.
    + unfold codepoint_ok. simpl. apply negb_true_iff. repeat (apply orb_false_iff; split); try done; try lia.
  - eapply (Hmulti _ _ 3%nat (c / 262144)); [reflexivity|lia|done|repeat constructor; lia| |simpl; lia|].
    + rewrite lead_byte_spec by (unfold byte_ok; lia). unfold lead_class.
      rewrite (proj2 (Z.ltb_ge _ 224)), (proj2 (Z.ltb_ge _ 240)), !andb_false_r by lia.
      rewrite !(proj2 (Z.leb_le _ _)), (proj2 (Z.ltb_lt _ _)) by lia. simpl. do 2 f_equal. lia.
    + unfold codepoint_ok. simpl. apply negb_true_iff. repeat (apply orb_false_iff; split); try done; try lia.
Qed.

(** A first byte and its continuation bytes that pass every test are the
    encoding of the scalar value they give. *)
Lemma decoded_is_encoded first extra bits cont :
  byte_ok first -> 128 <= first -> lead_byte first = Some (extra, bits) ->
  length cont = extra -> Forall continuation cont ->
  let c := foldl (fun v b => v * 64 + b mod 64) bits cont in
  codepoint_ok extra c = true -> scalar_value c /\ encode_scalar c = first :: cont.
Proof.
  intros Hb H128 Hlead Hlen Hc. rewrite lead_byte_spec in Hlead by done. unfold lead_class in Hlead.
  unfold codepoint_ok, scalar_value. cbv zeta. rewrite negb_true_iff, !orb_false_iff.
  assert (forall c, encode_scalar c = if c <? 128 then [c] else if c <? 2048 then [192 + c / 64; 128 + c mod 64]
    else if c <? 65536 then [224 + c / 4096; 128 + c / 64 mod 64; 128 + c mod 64]
    else [240 + c / 262144; 128 + c / 4096 mod 64; 128 + c / 64 mod 64; 128 + c mod 64]) as Henc by done.
  unfold continuation, byte_ok in *.
  destruct ((192 <=? first) && (first <? 224)) eqn:E1; [|destruct ((224 <=? first) && (first <? 240)) eqn:E2;
    [|destruct ((240 <=? first) && (first <? 248)) eqn:E3; [|done]]]; injection Hlead as <- <-.
  - assert (192 <= first < 224) as Hf by (break_guards; lia). clear E1.
    destruct cont as [|c1 [|]]; try done. inversion Hc as [|? ? H1 ?]; subst. simpl.
    set (c := (first - 192) * 64 + c1 mod 64). intros Hok. destruct_and?.
    rewrite Henc. assert (128 <= c < 2048) as Hr by (break_guards; lia).
    rewrite (proj2 (Z.ltb_ge c 128)), (proj2 (Z.ltb_lt c 2048)) by lia.
    split; [lia|]. repeat f_equal; lia.
  - assert (224 <= first < 240) as Hf by (break_guards; lia). clear E1 E2.
    destruct cont as [|c1 [|c2 [|]]]; try done. inversion Hc as [|? ? H1 Hc']; subst.
    inversion Hc' as [|? ? H2 ?]; subst. simpl.
    set (c := ((first - 224) * 64 + c1 mod 64) * 64 + c2 mod 64). intros Hok. destruct_and?.
    rewrite Henc.
    assert (2048 <= c < 65536) as Hr by (break_guards; lia).
    rewrite (proj2 (Z.ltb_ge c 128)), (proj2 (Z.ltb_ge c 2048)), (proj2 (Z.ltb_lt c 65536)) by lia.
    split; [break_guards; lia|]. repeat f_equal; lia.
  - assert (240 <= first < 248) as Hf by (break_guards; lia). clear E1 E2 E3.
    destruct cont as [|c1 [|c2 [|c3 [|]]]]; try done. inversion Hc as [|? ? H1 Hc']; subst.
    inversion Hc' as [|? ? H2 Hc'']; subst. inversion Hc'' as [|? ? H3 ?]; subst. simpl.
    set (c := (((first - 240) * 64 + c1 mod 64) * 64 + c2 mod 64) * 64 + c3 mod 64). intros Hok. destruct_and?.
    rewrite Henc.
    assert (65536 <= c <= 1114111) as Hr by (break_guards; lia).
    rewrite (proj2 (Z.ltb_ge c 128)), (proj2 (Z.ltb_ge c 2048)), (proj2 (Z.ltb_ge c 65536)) by lia.
    split; [lia|]. repeat f_equal; lia.
Qed.

Lemma utf8_loop_encoded cs : forall fuel, Forall scalar_value cs -> (length (encode_text cs) <= fuel)%nat ->
  utf8_loop fuel (encode_text cs) = Ok true.
Proof.
  induction cs as [|c cs IH]; intros fuel Hcs Hf; [by destruct fuel|].
  inversion Hcs as [|? ? Hc Hcs']; subst. unfold encode_text in *. cbn [map concat] in *.
  destruct (encode_scalar_bytes c Hc) as [_ Hne]. rewrite length_app in Hf.
  destruct fuel as [|fuel]; [destruct (encode_scalar c); [done|simpl in Hf; lia]|].
  rewrite utf8_step_encoded; [|done|].
  - apply IH; [done|]. destruct (encode_scalar c); [done|simpl in Hf; lia].
  - clear -Hcs'. induction Hcs' as [|c cs Hc Hcs IH]; simpl; [constructor|].
    apply Forall_app. split; [apply (proj1 (encode_scalar_bytes c Hc))|done].
Qed.

Lemma utf8_loop_sound fuel : forall bytes, bytes_ok bytes -> (length bytes <= fuel)%nat ->
  no_fault (utf8_loop fuel bytes) /\
  (utf8_loop fuel bytes = Ok true -> exists cs, Forall scalar_value cs /\ bytes = encode_text cs).
Proof.
  induction fuel as [|fuel IH]; intros bytes Hb Hf.
  { destruct bytes; [|simpl in Hf; lia]. split; [done|]. intros _. by exists []. }
  destruct bytes as [|first rest]; [split; [done|]; intros _; by exists []|].
  inversion Hb as [|? ? Hfirst Hrest]; subst. simpl in Hf |- *.
  destruct (first <? 0x80) eqn:E1; reflect_bools.
  { destruct (IH rest Hrest ltac:(lia)) as [H1 H2]. split; [done|]. intros H. destruct (H2 H) as (cs & Hcs & ->).
    unfold byte_ok in Hfirst. exists (first :: cs). split; [constructor; [left; lia|done]|].
    unfold encode_text. cbn [map concat]. unfold encode_scalar at 2. by rewrite (proj2 (Z.ltb_lt first 128)). }
  destruct (lead_byte first) as [[extra bits]|] eqn:El; [|done].
  destruct (_ <=? extra)%nat eqn:E2; reflect_bools; [done|].
  rewrite (continuation_loop_spec rest extra 1 bits) by (done || lia). cbn [mbind res_bind].
  destruct (decide (Forall continuation (take extra rest))) as [Hc|]; [|done].
  set (c := foldl (fun v b => v * 64 + b mod 64) bits (take extra rest)).
  destruct (codepoint_ok extra c) eqn:Ec; [|done].
  destruct (decoded_is_encoded first extra bits (take extra rest) Hfirst E1 El) as [Hs He];
    [rewrite length_take; lia|done|done|]. fold c in Hs, He.
  rewrite Nat.add_comm. cbn [Nat.add drop].
  destruct (IH (drop extra rest)) as [H1 H2]; [by apply Forall_drop|rewrite length_drop; lia|].
  split; [done|]. intros H. destruct (H2 H) as (cs & Hcs & Hd). exists (c :: cs).
  split; [by constructor|]. unfold encode_text in *. cbn [map concat]. rewrite He, <- Hd. simpl.
  by rewrite take_drop.
Qed.

(** ** Sanitised log values *)

Definition printable (b : Z) : Prop := 32 <= b /\ b <> 127.

Lemma clean_byte_printable c : printable (clean_byte c).
Proof.
  unfold clean_byte, printable. destruct_guards; break_guards; lia.
Qed.

Lemma clean_byte_id c : printable c -> clean_byte c = c.
Proof.
  unfold clean_byte, printable. intros [H1 H2].
  rewrite !(proj2 (Z.eqb_neq c _)), (proj2 (Z.ltb_ge c 0x20)) by lia. done.
Qed.

Lemma sanitise_loop_spec value : forall clean maxLength,
  Forall printable clean -> (length clean <= maxLength)%nat ->
  Forall printable (sanitise_loop value clean maxLength) /\
  (length (sanitise_loop value clean maxLength) <= maxLength + 3)%nat /\
  (Forall printable value -> (length clean + length value <= maxLength)%nat ->
   sanitise_loop value clean maxLength = clean ++ value).
Proof.
  induction value as [|c value IH]; intros clean n Hc Hl; simpl.
  - split_and!; [done|lia|by rewrite app_nil_r].
  - destruct (_ <=? _)%nat eqn:E; reflect_bools.
    + split_and!; [|rewrite length_app; simpl; lia|intros; lia].
      apply Forall_app. split; [done|]. unfold printable. repeat constructor; lia.
    + destruct (IH (clean ++ [clean_byte c]) n) as (H1 & H2 & H3).
      * apply Forall_app. split; [done|]. constructor; [apply clean_byte_printable|constructor].
      * rewrite length_app. simpl. lia.
      * split_and!; [done|done|]. intros Hv Hn. inversion Hv as [|? ? Hcp Hvp]; subst.
        rewrite H3, clean_byte_id, <- app_assoc by (done || (rewrite length_app; simpl; lia)). done.
Qed.

(** ** File names and paths *)

Lemma SafeFilename_facts name : SafeFilename name = true ->
  (1 <= length name <= 128)%nat /\ Forall (fun c => printable c /\ c ∉ forbidden) name /\
  hd 0 name <> 46 /\ last name <> Some 46 /\ last name <> Some 32 /\
  map toupper (until 46 name).1 ∉ kReserved.
Proof.
  unfold SafeFilename. destruct name as [|front rest]; [done|]. set (name := front :: rest).
  destruct (128 <? length name)%nat eqn:E1; [done|].
  destruct (_ || _) eqn:E2; [done|]. destruct (front =? 46) eqn:E3; [done|].
  destruct (bool_decide (last name = Some 46) || bool_decide (last name = Some 32)) eqn:E4; [done|].
  destruct (existsb _ name) eqn:E5; [done|]. intros H. reflect_bools. split_and!.
  - simpl. lia.
  - done.
  - apply Forall_forall. intros c Hc. apply not_true_iff_false in E5. rewrite existsb_exists in E5.
    destruct (decide (printable c /\ c ∉ forbidden)) as [|Hn]; [done|]. destruct E5. exists c.
    split; [by apply list_elem_of_In|]. unfold printable in Hn.
    destruct (c <? 0x20) eqn:F1; [done|]. destruct (c =? 0x7F) eqn:F2; [done|]. reflect_bools.
    assert (c ∈ forbidden) as Hin.
    { destruct (decide (c ∈ forbidden)) as [|Hf]; [done|]. destruct Hn. split; [lia|done]. }
    assert (existsb (Z.eqb c) forbidden = true) as ->; [|done].
    apply existsb_exists. exists c. split; [by apply list_elem_of_In|apply Z.eqb_refl].
  - done.
  - intros Hl. by rewrite Hl in *.
  - intros Hl. by rewrite Hl in *.
  - intros Hin. unfold IsReservedDeviceName in H. apply not_true_iff_false in H. apply H.
    apply existsb_exists. eexists. split; [by apply list_elem_of_In|]. by apply bool_decide_eq_true.
Qed.

Lemma parts_prefix_iff base joined : parts_prefix base joined = true <-> exists rest, joined = base ++ rest.
Proof.
  revert joined. induction base as [|b base IH]; intros joined; simpl; [split; [by exists joined|done]|].
  destruct joined as [|j joined]; [split; [done|by intros [? ?]]|].
  rewrite andb_true_iff, String.eqb_eq, IH. split.
  - intros [-> [rest ->]]. by exists rest.
  - intros [rest [= -> ->]]. split; [done|by exists rest].
Qed.

(** The loop answers yes or no: it has no error of its own. *)
Lemma continuation_loop_no_err extra : forall bytes k cp e, continuation_loop bytes k extra cp <> Err e.
Proof.
  induction extra as [|extra IH]; intros bytes k cp e; cbn [continuation_loop]; [done|].
  unfold read_at. destruct (bytes !! k); cbn [mbind res_bind]; [|done]. destruct (negb _); [done|apply IH].
Qed.

Lemma utf8_loop_no_err fuel : forall l e, utf8_loop fuel l <> Err e.
Proof.
  induction fuel as [|fuel IH]; intros [|b l] e; cbn [utf8_loop]; [done|done|done|].
  destruct (b <? 0x80); [apply IH|]. destruct (lead_byte b) as [[extra bits]|]; [|done].
  destruct (_ <=? extra)%nat; [done|].
  destruct (continuation_loop (b :: l) 1 extra bits) as [[cp|]| |] eqn:Ec; cbn [mbind res_bind]; try done.
  - destruct (codepoint_ok extra cp); [apply IH|done].
  - by apply continuation_loop_no_err in Ec.
Qed.

(** ** Fields *)

Section FieldFacts.
Context {J : JsonLib}.

(** A refused field adds one problem under its name, except that a missing
    optional field adds none. *)
Definition refused (parent : json) (field : string) (required : bool) (errors errors' : Errors) : Prop :=
  (exists problem, errors' = errors ++ [(field, problem)]) \/
  (required = false /\ present parent field = None /\ errors' = errors).

Lemma missing_refused parent field required errors : present parent field = None ->
  refused parent field required errors (missing errors field required).
Proof. intros H. unfold missing, refused, Add. destruct required; eauto. Qed.

Lemma StringField_spec parent field minLength maxLength charset errors required :
  match StringField parent field minLength maxLength charset errors required with
  | Ok (Some v, errors') =>
      errors' = errors /\ (exists j, present parent field = Some j /\ view j = JString v) /\
      (minLength <= String.length v <= maxLength)%nat /\
      (exists cs, Forall scalar_value cs /\ bytes_of v = encode_text cs) /\
      Forall (fun c => c < 128 -> CharsetAllows charset c = true) (bytes_of v)
  | Ok (None, errors') => refused parent field required errors errors'
  | _ => False
  end.
Proof.
  unfold StringField. destruct (present parent field) as [j|] eqn:Ep; [|by apply missing_refused].
  destruct (view j) as [| | | | |v| |] eqn:Ej; try (left; eexists; reflexivity).
  destruct (_ || _) eqn:E1; [left; eexists; reflexivity|].
  destruct (utf8_loop_sound (length (bytes_of v)) (bytes_of v) (bytes_of_ok v) ltac:(lia)) as [Hf Hs].
  unfold IsValidUtf8. destruct (utf8_loop _ _) as [utf8| |] eqn:Eu.
  - cbn [mbind res_bind]. destruct utf8; [|left; eexists; reflexivity].
    cbn [negb]. destruct (existsb _ _) eqn:E2; [left; eexists; reflexivity|].
    split_and!; [done|by eexists|reflect_bools; lia..|by apply Hs|].
    apply Forall_forall. intros c Hc Hlt. apply not_true_iff_false in E2. rewrite existsb_exists in E2.
    destruct (CharsetAllows charset c) eqn:Ec; [done|]. destruct E2. exists c.
    split; [by apply list_elem_of_In|]. by rewrite (proj2 (Z.ltb_lt c 0x80)), Ec by lia.
  - by apply utf8_loop_no_err in Eu.
  - by destruct Hf.
Qed.

Lemma IntField_spec parent field minimum maximum errors required :
  match IntField parent field minimum maximum errors required with
  | (Some v, errors') =>
      errors' = errors /\ minimum <= v <= maximum /\
      exists j z, present parent field = Some j /\ integer_view (view j) = Some z /\ v = to_signed 64 z
  | (None, errors') => refused parent field required errors errors'
  end.
Proof.
  unfold IntField. destruct (present parent field) as [j|] eqn:Ep; [|by apply missing_refused].
  destruct (view j) as [| |z|z| | | |] eqn:Ej; try (left; eexists; reflexivity);
    (destruct (_ || _) eqn:E1; [left; eexists; reflexivity|]);
    (split; [done|]); (split; [reflect_bools; lia|]); exists j, z; by rewrite Ej.
Qed.

Lemma BoolField_spec parent field errors required :
  match BoolField parent field errors required with
  | (Some b, errors') => errors' = errors /\ exists j, present parent field = Some j /\ view j = JBool b
  | (None, errors') => refused parent field required errors errors'
  end.
Proof.
  unfold BoolField. destruct (present parent field) as [j|] eqn:Ep; [|by apply missing_refused].
  destruct (view j) eqn:Ej; try (left; eexists; reflexivity). split; [done|by exists j].
Qed.

Lemma EnumField_spec parent field allowed errors required :
  match EnumField parent field allowed errors required with
  | Ok (Some v, errors') => errors' = errors /\ In v allowed
  | Ok (None, errors') => refused parent field required errors errors'
  | _ => False
  end.
Proof.
  unfold EnumField. pose proof (StringField_spec parent field 1 64 "identifier" errors required) as H.
  destruct (StringField _ _ _ _ _ _ _) as [[[v|] errors']| |]; cbn [mbind res_bind]; [|done|done|done].
  destruct H as (-> & _). destruct (existsb _ allowed) eqn:E; [|left; eexists; reflexivity].
  split; [done|]. apply existsb_exists in E as (x & Hx & E). by apply String.eqb_eq in E as ->.
Qed.

End FieldFacts.

(** ** Properties *)

(** C23: The UTF-8 check accepts exactly the byte strings that encode a sequence
    of Unicode scalar values in their shortest form (no overlong encoding, no
    surrogate, nothing above 10FFFF, nothing cut off), and never reads past
    the end of the text. *)
Theorem utf8_valid_iff_encoding bytes : bytes_ok bytes ->
  no_fault (IsValidUtf8 bytes) /\
  (IsValidUtf8 bytes = Ok true <-> exists cs, Forall scalar_value cs /\ bytes = encode_text cs).
Proof.
  intros Hb. destruct (utf8_loop_sound (length bytes) bytes Hb ltac:(lia)) as [H1 H2].
  split; [done|]. split; [done|]. intros (cs & Hcs & ->). by apply utf8_loop_encoded.
Qed.

Lemma utf8_valid_iff_encoding_witness :
  IsValidUtf8 [0x24; 0xE2; 0x82; 0xAC; 0xF0; 0x90; 0x8D; 0x88] = Ok true /\
  (forall cs, Forall scalar_value cs -> encode_text cs <> [0xC0; 0xAF]).
Proof.
  split.
  - apply (utf8_valid_iff_encoding [0x24; 0xE2; 0x82; 0xAC; 0xF0; 0x90; 0x8D; 0x88]).
    + repeat constructor; discriminate.
    + exists [0x24; 0x20AC; 0x10348]. split; [repeat constructor; discriminate|reflexivity].
  - intros cs Hcs E. assert (IsValidUtf8 [0xC0; 0xAF] = Ok true) as H; [|discriminate H].
    apply (utf8_valid_iff_encoding [0xC0; 0xAF]); [repeat constructor; discriminate|].
    exists cs. split; [exact Hcs|symmetry; exact E].
Defined.

(** What reaches the logs is printable, bounded, and the value itself when
    that was printable and short; an accepted file name is one ordinary path
    component on every platform; an accepted path lies below its base. *)
Theorem hygiene value maxLength name canonical base relative joined :
  (Forall printable (SanitiseForLog value maxLength) /\
   (length (SanitiseForLog value maxLength) <= maxLength + 3)%nat /\
   (Forall printable value -> (length value <= maxLength)%nat -> SanitiseForLog value maxLength = value)) /\
  (SafeFilename name = true ->
   (1 <= length name <= 128)%nat /\ Forall (fun c => printable c /\ c ∉ forbidden) name /\
   hd 0 name <> 46 /\ last name <> Some 46 /\ last name <> Some 32 /\
   map toupper (until 46 name).1 ∉ kReserved) /\
  (PathStaysWithin canonical base relative = Some joined ->
   exists b rest, canonical base = Some b /\ parts joined = parts b ++ rest /\
     ".."%string ∉ parts relative).
Proof.
  split; [|split; [apply SafeFilename_facts|]].
  - unfold SanitiseForLog. destruct (sanitise_loop_spec value [] maxLength) as (H1 & H2 & H3);
      [constructor|simpl; lia|]. split_and!; [done|done|]. intros. by apply H3.
  - unfold PathStaysWithin. destruct (canonical base) as [b|]; [|done]. destruct (is_absolute relative); [done|].
    destruct (existsb _ _) eqn:Ed; [done|]. destruct (canonical _) as [j|]; [|done].
    destruct (parts_prefix _ _) eqn:Ep; [|done]. intros [= <-]. apply parts_prefix_iff in Ep as [rest Hr].
    exists b, rest. split_and!; [done|done|]. intros Hin. apply not_true_iff_false in Ed. apply Ed.
    apply existsb_exists. exists ".."%string. split; [by apply list_elem_of_In|done].
Qed.

Lemma hygiene_witness :
  SanitiseForLog (b! "ok" ++ [13; 10] ++ b! "fake") 64 = b! "ok  fake" /\
  47 ∉ b! "report.txt".
Proof.
  destruct (hygiene (b! "ok") 64 (b! "report.txt") (fun p => Some p) (mkPath true ["opt"%string])
    (mkPath false ["a"%string]) (mkPath true ["opt"; "a"]%string)) as (_ & H & _).
  split; [reflexivity|].
  destruct (H eq_refl) as (_ & Hall & _). intros Hin. rewrite Forall_forall in Hall.
  destruct (Hall 47 Hin) as [_ Hf]. apply Hf. apply list_elem_of_here.
Defined.

(** A field that a handler receives satisfies what it asked for: a string
    of the right length that encodes Unicode text in the allowed characters,
    an integer in the range, a listed word; and a field that does not is
    refused with exactly one problem under its name, unless it is optional and
    absent. *)
Theorem fields_validated (J : JsonLib) parent field minLength maxLength charset minimum maximum allowed errors required :
  (match StringField parent field minLength maxLength charset errors required with
   | Ok (Some v, errors') =>
       errors' = errors /\ (exists j, present parent field = Some j /\ view j = JString v) /\
       (minLength <= String.length v <= maxLength)%nat /\
       (exists cs, Forall scalar_value cs /\ bytes_of v = encode_text cs) /\
       Forall (fun c => c < 128 -> CharsetAllows charset c = true) (bytes_of v)
   | Ok (None, errors') => refused parent field required errors errors'
   | _ => False
   end) /\
  (match IntField parent field minimum maximum errors required with
   | (Some v, errors') =>
       errors' = errors /\ minimum <= v <= maximum /\
       exists j z, present parent field = Some j /\ integer_view (view j) = Some z /\ v = to_signed 64 z
   | (None, errors') => refused parent field required errors errors'
   end) /\
  (match EnumField parent field allowed errors required with
   | Ok (Some v, errors') => errors' = errors /\ In v allowed
   | Ok (None, errors') => refused parent field required errors errors'
   | _ => False
   end).
Proof. split; [apply StringField_spec|]. split; [apply IntField_spec|apply EnumField_spec]. Qed.
