(* ===== verification/C3Codec.v ===== *)
(** * The C3 panel protocol (src/zk_controller/C3Codec.cpp)

    Frames of the access-control panels on TCP port 4370, the requests the
    gateway sends and the decoders of what the panel answers.  Bytes are [Z]
    in 0..255; every index the code computes is a [read_at], so a decoder that
    reached past the end of the reply would be a [Fault].  A JSON record, which
    the code builds with [record[key] = value], is a finite map from the bytes
    of the key. *)

From S2P Require Import Prelude Words Text Crc16.

(** ** Frames *)

Definition kFrameStart : Z := 0xAA.
Definition kFrameEnd : Z := 0x55.
Definition kProtocolVersion : Z := 0x01.
Definition kCommandConnectSessionLess : Z := 0x01.
Definition kCommandDisconnect : Z := 0x02.
Definition kCommandGetParam : Z := 0x04.
Definition kCommandControl : Z := 0x05.
Definition kCommandDataTableCfg : Z := 0x06.
Definition kCommandGetData : Z := 0x08.
Definition kCommandRtlogBinary : Z := 0x0B.
Definition kCommandConnectSession : Z := 0x76.
Definition kCommandRtlogKeyValue : Z := 0x79.
Definition kReplyOk : Z := 0xC8.
Definition kReplyError : Z := 0xC9.
Definition kPreSessionId : Z := 0xFEFE.
Definition kPreSessionRequestNr : Z := -258.

(** [length] is computed as a [size_t] and truncated to 16 bits. *)
Definition EncodeFrame (command sessionId requestNr : Z) (payload : list Z)
  (includeSessionBlock : bool) : list Z :=
  let head := AppendU16 [kProtocolVersion; command]
                (to_u16 ((if includeSessionBlock then 4 else 0) + Z.of_nat (length payload))) in
  let session := if includeSessionBlock then AppendU16 (AppendU16 [] sessionId) (to_u16 requestNr)
                 else [] in
  let body := head ++ session ++ payload in
  AppendU16 (kFrameStart :: body) (C3Crc16 body) ++ [kFrameEnd].

Inductive ResponseStatus := kIncomplete | kMalformed | kRejected | kOk.

(** The checks [DecodeFrameGeneric] and [DecodeConnectSession] both open with,
    up to the command byte: [kOk] comes with the claimed length. *)
Definition check_frame (data : list Z) : res (ResponseStatus * nat) :=
  if (length data <? 5)%nat then Ok (kIncomplete, 0%nat)
  else
    len ← ReadU16le data 3;
    let len := Z.to_nat len in
    let frameSize := (5 + len + 2 + 1)%nat in
    if (length data <? frameSize)%nat then Ok (kIncomplete, 0%nat)
    else
      expectedCrc ← ReadU16le data (5 + len);
      command ← read_at data 2;
      first ← read_at data 0;
      end_ ← read_at data (frameSize - 1);
      body ← slice data 1 (4 + len);
      if negb (first =? kFrameStart) || negb (end_ =? kFrameEnd) || negb (C3Crc16 body =? expectedCrc)
         || (negb (command =? kReplyOk) && negb (command =? kReplyError))
      then Ok (kMalformed, 0%nat)
      else if command =? kReplyError then Ok (kRejected, 0%nat)
      else Ok (kOk, len).

Definition DecodeFrameGeneric (data : list Z) (stripSessionBlock : bool)
  : res (ResponseStatus * list Z) :=
  '(status, len) ← check_frame data;
  match status with
  | kOk =>
      payload ← slice data 5 len;
      Ok (kOk, if stripSessionBlock && (4 <=? length payload)%nat then drop 4 payload else payload)
  | _ => Ok (status, [])
  end.

Definition FrameSize (data : list Z) : res nat :=
  if (length data <? 5)%nat then Ok 0%nat
  else len ← ReadU16le data 3; Ok (5 + Z.to_nat len + 2 + 1)%nat.

(** ** Session *)

Definition EncodeConnectSession (password : list Z) : list Z :=
  EncodeFrame kCommandConnectSession kPreSessionId kPreSessionRequestNr password true.

Definition DecodeConnectSession (data : list Z) : res (ResponseStatus * Z) :=
  '(status, len) ← check_frame data;
  match status with
  | kOk =>
      if (len <? 2)%nat then Ok (kMalformed, 0)
      else session_id ← ReadU16le data 5; Ok (kOk, session_id)
  | _ => Ok (status, 0)
  end.

Definition EncodeConnectSessionLess (password : list Z) : list Z :=
  EncodeFrame kCommandConnectSessionLess 0 0 password false.
Definition EncodeDisconnect (sessionId requestNr : Z) : list Z :=
  EncodeFrame kCommandDisconnect sessionId requestNr [] true.
Definition EncodeSessionLessDisconnect : list Z := EncodeFrame kCommandDisconnect 0 0 [] false.

Definition DecodeGenericReply (data : list Z) : res ResponseStatus :=
  '(status, _) ← DecodeFrameGeneric data false; Ok status.

(** ** Control *)

Inductive ControlOperation := kOutput | kCancelAlarm | kRestartDevice | kEnableDisableNormalOpen.
Definition operation_byte (op : ControlOperation) : Z :=
  match op with kOutput => 1 | kCancelAlarm => 2 | kRestartDevice => 3 | kEnableDisableNormalOpen => 4 end.

Definition EncodeControl (operation : ControlOperation) (param1 param2 param3 : Z)
  (includeSessionBlock : bool) (sessionId requestNr : Z) : list Z :=
  EncodeFrame kCommandControl sessionId requestNr
    [operation_byte operation; param1; param2; param3; 0] includeSessionBlock.

(** ** The real-time log *)

Definition EncodeRtlogBinaryRequest (includeSessionBlock : bool) (sessionId requestNr : Z) : list Z :=
  EncodeFrame kCommandRtlogBinary sessionId requestNr [] includeSessionBlock.
Definition EncodeRtlogKeyValueRequest (includeSessionBlock : bool) (sessionId requestNr : Z) : list Z :=
  EncodeFrame kCommandRtlogKeyValue sessionId requestNr [] includeSessionBlock.

Record C3DateTime := mkDateTime { year : Z; month : Z; day : Z; hour : Z; minute : Z; second : Z }.

Definition DecodeC3Time (value : Z) : C3DateTime :=
  let second := value mod 60 in let value := value / 60 in
  let minute := value mod 60 in let value := value / 60 in
  let hour := value mod 24 in let value := value / 24 in
  let day := value mod 31 + 1 in let value := value / 31 in
  let month := value mod 12 + 1 in let value := value / 12 in
  mkDateTime (value + 2000) month day hour minute second.

(** [%0<width>d] of a number that is not negative. *)
Definition padded_decimal (width : nat) (n : Z) : list Z :=
  replicate (width - length (decimal n)) 48 ++ decimal n.

Definition FormatC3Time (value : Z) : list Z :=
  let t := DecodeC3Time value in
  padded_decimal 4 (year t) ++ b! "-" ++ padded_decimal 2 (month t) ++ b! "-" ++
  padded_decimal 2 (day t) ++ b! " " ++ padded_decimal 2 (hour t) ++ b! ":" ++
  padded_decimal 2 (minute t) ++ b! ":" ++ padded_decimal 2 (second t).

Definition ReadU32 (data : list Z) (offset : nat) : res Z :=
  b0 ← read_at data offset; b1 ← read_at data (offset + 1);
  b2 ← read_at data (offset + 2); b3 ← read_at data (offset + 3);
  Ok (Z.lor (Z.lor (Z.lor b0 (Z.shiftl b1 8)) (Z.shiftl b2 16)) (Z.shiftl b3 24)).

Inductive RtLogRecordKind := kEvent | kDoorAlarmStatus.

Record RtLogRecord := mkRtLog {
  kind : RtLogRecordKind;
  card_no : Z; pin : Z;
  alarm_status : list Z; dss_status : list Z;
  verified : Z; door_id : Z; event_type : Z; in_out_state : Z;
  time_second : Z
}.

Definition decode_rtlog_record (data : list Z) (offset : nat) : res RtLogRecord :=
  event ← read_at data (offset + 10);
  if event =? 255 then
    alarm ← slice data offset 4;
    dss ← slice data (offset + 4) 4;
    ver ← read_at data (offset + 9);
    time ← ReadU32 data (offset + 12);
    Ok (mkRtLog kDoorAlarmStatus 0 0 alarm dss ver 0 event 0 time)
  else
    card ← ReadU32 data offset;
    pin_ ← ReadU32 data (offset + 4);
    ver ← read_at data (offset + 8);
    door ← read_at data (offset + 9);
    state ← read_at data (offset + 11);
    time ← ReadU32 data (offset + 12);
    Ok (mkRtLog kEvent card pin_ [] [] ver door event state time).

(** [n] records of 16 bytes, from [offset]. *)
Fixpoint rtlog_records (data : list Z) (offset n : nat) : res (list RtLogRecord) :=
  match n with
  | O => Ok []
  | S n' =>
      record ← decode_rtlog_record data offset;
      records ← rtlog_records data (offset + 16) n';
      Ok (record :: records)
  end.

Inductive RtLogStatus := kRtIncomplete | kRtMalformed | kRtRejected | kNotBinaryMode | kRtOk.

Definition DecodeRtlogBinary (data : list Z) (includeSessionBlock : bool)
  : res (RtLogStatus * list RtLogRecord) :=
  '(status, payload) ← DecodeFrameGeneric data includeSessionBlock;
  match status with
  | kIncomplete => Ok (kRtIncomplete, [])
  | kMalformed => Ok (kRtMalformed, [])
  | kRejected => Ok (kRtRejected, [])
  | kOk =>
      if negb (length payload mod 16 =? 0)%nat then Ok (kNotBinaryMode, [])
      else records ← rtlog_records payload 0 (length payload / 16); Ok (kRtOk, records)
  end.

(** ** Key/value text *)

Definition wordChar (c : Z) : bool :=
  ((97 <=? c) && (c <=? 122)) || ((65 <=? c) && (c <=? 90)) || ((48 <=? c) && (c <=? 57))
  || (c =? 95) || (c =? 126).
Definition valueChar (c : Z) : bool := negb (c =? 44) && negb (c =? 9).

(** The scanner; the index of the code is the suffix still to be read.  Every
    turn reads at least one byte, so the length of the text is fuel enough. *)
Fixpoint scan_pairs (fuel : nat) (rest : list Z) : list (list Z * list Z) :=
  match fuel, rest with
  | O, _ | _, [] => []
  | S fuel', _ =>
      let '(key, after) := span_while wordChar rest in
      match key, after with
      | _ :: _, c :: valueStart =>
          if c =? 61 then
            let '(value, next) := span_while valueChar valueStart in
            match value with
            | [] => scan_pairs fuel' next
            | _ => (key, value) :: scan_pairs fuel' next
            end
          else scan_pairs fuel' valueStart
      | _, _ => scan_pairs fuel' (drop 1 after)
      end
  end.

Definition ParseKeyValuePairs (data : list Z) : list (list Z * list Z) :=
  scan_pairs (length data) data.

(** [for (auto& [key, value] : pairs) record[key] = value]: the last one wins. *)
Definition record_of (pairs : list (list Z * list Z)) : gmap (list Z) (list Z) :=
  foldl (fun record '(key, value) => <[key := value]> record) ∅ pairs.

Definition DecodeRtlogKeyValue (data : list Z) (includeSessionBlock : bool)
  : res (ResponseStatus * list (gmap (list Z) (list Z))) :=
  '(status, payload) ← DecodeFrameGeneric data includeSessionBlock;
  match status, payload with
  | kOk, _ :: _ =>
      match ParseKeyValuePairs payload with
      | [] => Ok (status, [])
      | pairs => Ok (status, [record_of pairs])
      end
  | _, _ => Ok (status, [])
  end.

(** ** Parameters *)

Fixpoint join_names (names : list (list Z)) : list Z :=
  match names with
  | [] => []
  | [name] => name
  | name :: rest => name ++ 44 :: join_names rest
  end.

Definition EncodeGetParam (names : list (list Z)) (includeSessionBlock : bool)
  (sessionId requestNr : Z) : list Z :=
  EncodeFrame kCommandGetParam sessionId requestNr (join_names names) includeSessionBlock.

Definition DecodeGetParam (data : list Z) (includeSessionBlock : bool)
  : res (ResponseStatus * gmap (list Z) (list Z)) :=
  '(status, payload) ← DecodeFrameGeneric data includeSessionBlock;
  match status, payload with
  | kOk, _ :: _ => Ok (status, record_of (ParseKeyValuePairs payload))
  | _, _ => Ok (status, ∅)
  end.

(** ** Data tables *)

Record DataTableField := mkField { field_name : list Z; field_type : Z; field_index : Z }.
Record DataTableConfig := mkTable { table_name : list Z; table_index : Z; fields : list DataTableField }.

Definition EncodeDataTableConfig (includeSessionBlock : bool) (sessionId requestNr : Z) : list Z :=
  EncodeFrame kCommandDataTableCfg sessionId requestNr [] includeSessionBlock.

Definition field_of (pair : list Z * list Z) : option DataTableField :=
  match pair.2 with
  | [] => None
  | t :: index => Some (mkField pair.1 t (atoi index))
  end.

Definition table_of (line : list Z) : option DataTableConfig :=
  match ParseKeyValuePairs line with
  | [] => None
  | (name, index) :: rest => Some (mkTable name (atoi index) (omap field_of rest))
  end.

(** The lines of the payload, between newlines; the empty ones are skipped. *)
Fixpoint table_lines (fuel : nat) (rest : list Z) : list DataTableConfig :=
  match fuel with
  | O => []
  | S fuel' =>
      let '(line, after) := until 10 rest in
      let here := match line with [] => [] | _ => option_list (table_of line) end in
      match after with
      | [] => here
      | _ :: next => here ++ table_lines fuel' next
      end
  end.

Definition DecodeDataTableConfig (data : list Z) (includeSessionBlock : bool)
  : res (ResponseStatus * list DataTableConfig) :=
  '(status, payload) ← DecodeFrameGeneric data includeSessionBlock;
  match status with
  | kOk => Ok (status, table_lines (S (length payload)) payload)
  | _ => Ok (status, [])
  end.

Definition EncodeGetData (tableIndex : Z) (fieldIndexes : list Z) (includeSessionBlock : bool)
  (sessionId requestNr : Z) : list Z :=
  EncodeFrame kCommandGetData sessionId requestNr
    (to_u8 tableIndex :: to_u8 (Z.of_nat (length fieldIndexes)) :: map to_u8 fieldIndexes ++ [0; 0])
    includeSessionBlock.

(** The values of a record. *)
Inductive FieldValue := FInt (value : Z) | FText (bytes : list Z).

Inductive GetDataStatus :=
  kDataIncomplete | kDataMalformed | kDataRejected | kTableMismatch | kDataOk.

(** [value |= (int64_t)payload[offset + b] << (8 * b)], on 64 bits. *)
Fixpoint read_int (bytes : list Z) (b : Z) (value : Z) : Z :=
  match bytes with
  | [] => value
  | x :: rest => read_int rest (b + 1) (Z.lor value (to_signed 64 (Z.shiftl x (8 * b))))
  end.

(** One value; [None] is the code's "malformed". *)
Definition decode_value (field : DataTableField) (payload : list Z) (offset : nat)
  : res (option (FieldValue * nat)) :=
  if (length payload <=? offset)%nat then Ok None
  else
    valueSize ← read_at payload offset;
    let valueSize := Z.to_nat valueSize in
    let offset := S offset in
    if (length payload - offset <? valueSize)%nat then Ok None
    else
      bytes ← slice payload offset valueSize;
      if (field_type field =? 105) || (field_type field =? 76)
      then if (8 <? valueSize)%nat then Ok None
           else Ok (Some (FInt (read_int bytes 0 0), (offset + valueSize)%nat))
      else if field_type field =? 115
      then Ok (Some (FText bytes, (offset + valueSize)%nat))
      else Ok None.

(** One record: [record[field->name] = value] for every returned field. *)
Fixpoint decode_record (returned : list DataTableField) (payload : list Z) (offset : nat)
  (record : gmap (list Z) FieldValue) : res (option (gmap (list Z) FieldValue * nat)) :=
  match returned with
  | [] => Ok (Some (record, offset))
  | field :: rest =>
      v ← decode_value field payload offset;
      match v with
      | None => Ok None
      | Some (value, offset') =>
          decode_record rest payload offset' (<[field_name field := value]> record)
      end
  end.

(** The records up to the end of the payload; every one of them reads at least
    one byte, because the code enters this loop with no returned field only
    when there is nothing left to read. *)
Fixpoint decode_records (fuel : nat) (returned : list DataTableField) (payload : list Z) (offset : nat)
  : res (option (list (gmap (list Z) FieldValue))) :=
  if (length payload <=? offset)%nat then Ok (Some [])
  else match fuel with
  | O => Fault
  | S fuel' =>
      r ← decode_record returned payload offset ∅;
      match r with
      | None => Ok None
      | Some (record, offset') =>
          records ← decode_records fuel' returned payload offset';
          Ok (option_map (cons record) records)
      end
  end.

(** The fields the reply says it returns, each looked up by its index. *)
Fixpoint returned_fields (indexes : list Z) (tableFields : list DataTableField)
  : option (list DataTableField) :=
  match indexes with
  | [] => Some []
  | i :: rest =>
      match find (fun field => field_index field =? i) tableFields with
      | None => None
      | Some field => option_map (cons field) (returned_fields rest tableFields)
      end
  end.

Definition DecodeGetData (data : list Z) (expectedTableIndex : Z) (tableFields : list DataTableField)
  (includeSessionBlock : bool) : res (GetDataStatus * list (gmap (list Z) FieldValue)) :=
  '(status, payload) ← DecodeFrameGeneric data includeSessionBlock;
  match status with
  | kIncomplete => Ok (kDataIncomplete, [])
  | kMalformed => Ok (kDataMalformed, [])
  | kRejected => Ok (kDataRejected, [])
  | kOk =>
      if (length payload <? 2)%nat then Ok (kDataMalformed, [])
      else
        table ← read_at payload 0;
        if negb (table =? to_u8 expectedTableIndex) then Ok (kTableMismatch, [])
        else
          count ← read_at payload 1;
          let fieldCount := Z.to_nat count in
          if (length payload <? 2 + fieldCount)%nat then Ok (kDataMalformed, [])
          else
            indexes ← slice payload 2 fieldCount;
            match returned_fields indexes tableFields with
            | None => Ok (kDataMalformed, [])
            | Some returned =>
                let offset := (2 + fieldCount)%nat in
                if (length returned =? 0)%nat && negb (offset =? length payload)%nat
                then Ok (kDataMalformed, [])
                else
                  records ← decode_records (length payload) returned payload offset;
                  match records with
                  | None => Ok (kDataMalformed, [])
                  | Some rs => Ok (kDataOk, rs)
                  end
            end
  end.

(** ** Frames, taken apart *)

(** A frame with every byte free; [EncodeFrame] is the one with the markers,
    the version and the CRC that belong there. *)
Definition raw_frame (start version command : Z) (content : list Z) (crc end_ : Z) : list Z :=
  [start; version; command] ++ AppendU16 [] (Z.of_nat (length content)) ++ content
    ++ AppendU16 [] crc ++ [end_].

Definition crc_body (version command : Z) (content : list Z) : list Z :=
  AppendU16 [version; command] (Z.of_nat (length content)) ++ content.

Definition session_block (includeSessionBlock : bool) (sessionId requestNr : Z) : list Z :=
  if includeSessionBlock then AppendU16 (AppendU16 [] sessionId) (to_u16 requestNr) else [].

Lemma AppendU16_app out v : AppendU16 out v = out ++ AppendU16 [] v.
Proof. done. Qed.

Lemma length_session_block inc sid nr : length (session_block inc sid nr) = if inc then 4%nat else 0%nat.
Proof. by destruct inc. Qed.

Lemma length_raw_frame s v c content crc e : length (raw_frame s v c content crc e) = (8 + length content)%nat.
Proof. unfold raw_frame. rewrite !length_app, !length_AppendU16. simpl. lia. Qed.

Lemma EncodeFrame_raw cmd sid nr payload inc :
  let content := session_block inc sid nr ++ payload in
  Z.of_nat (length content) < 65536 ->
  EncodeFrame cmd sid nr payload inc =
  raw_frame kFrameStart kProtocolVersion cmd content (C3Crc16 (crc_body kProtocolVersion cmd content)) kFrameEnd.
Proof.
  intros content Hl.
  assert (to_u16 ((if inc then 4 else 0) + Z.of_nat (length payload)) = Z.of_nat (length content)) as Hlen.
  { unfold content in *. rewrite length_app, length_session_block in *.
    rewrite to_u16_id by (destruct inc; lia). destruct inc; lia. }
  unfold EncodeFrame, raw_frame, crc_body. rewrite Hlen. fold (session_block inc sid nr). fold content.
  rewrite (AppendU16_app (kFrameStart :: _)), (AppendU16_app [kProtocolVersion; cmd]).
  by rewrite <- !app_assoc, app_comm_cons, <- !app_assoc.
Qed.

(** What [check_frame] says of a frame with free bytes. *)
Definition frame_verdict (start version command : Z) (content : list Z) (crc end_ : Z)
  : ResponseStatus * nat :=
  if negb (start =? kFrameStart) || negb (end_ =? kFrameEnd)
     || negb (C3Crc16 (crc_body version command content) =? crc)
     || (negb (command =? kReplyOk) && negb (command =? kReplyError))
  then (kMalformed, 0%nat)
  else if command =? kReplyError then (kRejected, 0%nat)
  else (kOk, length content).

Lemma ReadU16le_raw s v c content crc e rest : Z.of_nat (length content) < 65536 ->
  ReadU16le (raw_frame s v c content crc e ++ rest) 3 = Ok (Z.of_nat (length content)).
Proof.
  intros Hl. unfold raw_frame. rewrite <- !app_assoc.
  apply (ReadU16le_append [s; v; c]); [done|unfold word_ok; lia].
Qed.

Lemma check_frame_raw s v c content crc e rest :
  Z.of_nat (length content) < 65536 -> word_ok crc ->
  check_frame (raw_frame s v c content crc e ++ rest) = Ok (frame_verdict s v c content crc e).
Proof.
  intros Hl Hcrc. set (n := length content).
  assert (length (raw_frame s v c content crc e ++ rest) = (8 + n + length rest)%nat) as Hlen.
  { by rewrite length_app, length_raw_frame. }
  unfold check_frame. rewrite Hlen, (proj2 (Nat.ltb_ge _ _)) by lia.
  rewrite ReadU16le_raw by done. cbn [mbind res_bind]. rewrite Nat2Z.id. fold n.
  rewrite (proj2 (Nat.ltb_ge _ _)) by lia.
  assert (raw_frame s v c content crc e ++ rest =
          (([s; v; c] ++ AppendU16 [] (Z.of_nat n)) ++ content) ++ AppendU16 [] crc ++ ([e] ++ rest)) as Hshape.
  { unfold raw_frame. fold n. by rewrite <- !app_assoc. }
  rewrite Hshape at 1. rewrite ReadU16le_append; [|rewrite !length_app; simpl; unfold n; lia|done].
  cbn [mbind res_bind].
  rewrite (read_at_lookup _ 2 c), (read_at_lookup _ 0 s) by done. cbn [mbind res_bind].
  rewrite Hshape, (read_at_lookup _ (5 + n + 2 + 1 - 1) e).
  2: { rewrite app_assoc, (lookup_app_off _ _ _ 0); [done|].
       rewrite !length_app, length_AppendU16. simpl. unfold n. lia. }
  cbn [mbind res_bind]. rewrite <- Hshape, slice_ok by lia. cbn [mbind res_bind].
  assert (take (4 + n) (drop 1 (raw_frame s v c content crc e ++ rest)) = crc_body v c content) as ->.
  { rewrite Hshape. unfold crc_body. simpl. do 4 f_equal.
    rewrite take_app_le, take_ge by (unfold n; lia). done. }
  unfold frame_verdict. fold n. by case_match; [|case_match].
Qed.

(** Fewer bytes than the frame: still incomplete. *)
Lemma check_frame_take s v c content crc e k :
  Z.of_nat (length content) < 65536 -> (k < 8 + length content)%nat ->
  check_frame (take k (raw_frame s v c content crc e)) = Ok (kIncomplete, 0%nat).
Proof.
  intros Hl Hk. unfold check_frame. rewrite length_take, length_raw_frame, Nat.min_l by lia.
  destruct (k <? 5)%nat eqn:H5; [done|]. apply Nat.ltb_ge in H5.
  assert (take k (raw_frame s v c content crc e) =
    [s; v; c] ++ AppendU16 [] (Z.of_nat (length content)) ++
      take (k - 5) (content ++ AppendU16 [] crc ++ [e])) as ->.
  { unfold raw_frame. destruct k as [|[|[|[|[|k]]]]]; try lia. simpl. by rewrite Nat.sub_0_r. }
  rewrite (ReadU16le_append [s; v; c]) by (done || unfold word_ok; lia). cbn [mbind res_bind].
  by rewrite Nat2Z.id, (proj2 (Nat.ltb_lt _ _)) by lia.
Qed.

Lemma crc_body_ok v c content : byte_ok v -> byte_ok c -> bytes_ok content -> bytes_ok (crc_body v c content).
Proof.
  intros. apply Forall_app; split; [|done]. apply AppendU16_bytes_ok. constructor; [done|]. constructor; [done|constructor].
Qed.

Lemma crc_word data : bytes_ok data -> word_ok (C3Crc16 data).
Proof. intros. by apply crc_from_range. Qed.

Lemma session_block_ok inc sid nr : bytes_ok (session_block inc sid nr).
Proof. destruct inc; [|constructor]. by do 2 apply AppendU16_bytes_ok; constructor. Qed.

(** ** No decoder leaves the reply *)

Lemma check_frame_safe data : exists status n, check_frame data = Ok (status, n) /\
  (status = kOk -> (5 + n + 3 <= length data)%nat).
Proof.
  unfold check_frame. destruct (length data <? 5)%nat eqn:H5; [do 2 eexists; by split|]. apply Nat.ltb_ge in H5.
  destruct (ReadU16le_in_range data 3) as [len ->]; [lia|]. cbn [mbind res_bind].
  set (n := Z.to_nat len). destruct (length data <? 5 + n + 2 + 1)%nat eqn:Hn; [do 2 eexists; by split|].
  apply Nat.ltb_ge in Hn.
  destruct (ReadU16le_in_range data (5 + n)) as [crc ->]; [lia|].
  destruct (read_at_in data 2) as (cmd & -> & _); [lia|].
  destruct (read_at_in data 0) as (first & -> & _); [lia|].
  destruct (read_at_in data (5 + n + 2 + 1 - 1)) as (last & -> & _); [lia|].
  cbn [mbind res_bind]. rewrite slice_ok by lia. cbn [mbind res_bind].
  case_match; [do 2 eexists; by split|]. case_match; [do 2 eexists; by split|]. exists kOk, n. split; [done|lia].
Qed.

Lemma DecodeFrameGeneric_safe data strip : exists status payload,
  DecodeFrameGeneric data strip = Ok (status, payload).
Proof.
  unfold DecodeFrameGeneric. destruct (check_frame_safe data) as (status & n & -> & Hn).
  cbn [mbind res_bind]. destruct status; eauto. specialize (Hn eq_refl).
  rewrite slice_ok by lia. cbn [mbind res_bind]. eauto.
Qed.

Lemma ReadU32_in_range data off : (off + 3 < length data)%nat -> exists v, ReadU32 data off = Ok v.
Proof.
  intros H. unfold ReadU32.
  do 4 (edestruct (read_at_in data) as (? & -> & _); [|cbn [mbind res_bind]]; [lia|]). eauto.
Qed.

Lemma decode_rtlog_record_safe data off : (off + 16 <= length data)%nat ->
  exists r, decode_rtlog_record data off = Ok r.
Proof.
  intros H. unfold decode_rtlog_record.
  destruct (read_at_in data (off + 10)) as (ev & -> & _); [lia|]. cbn [mbind res_bind].
  destruct (ReadU32_in_range data (off + 12)) as [t ->]; [lia|].
  destruct (read_at_in data (off + 9)) as (b9 & -> & _); [lia|]. case_match.
  - rewrite !slice_ok by lia. cbn [mbind res_bind]. eauto.
  - destruct (ReadU32_in_range data off) as [? ->]; [lia|].
    destruct (ReadU32_in_range data (off + 4)) as [? ->]; [lia|].
    destruct (read_at_in data (off + 8)) as (? & -> & _); [lia|].
    destruct (read_at_in data (off + 11)) as (? & -> & _); [lia|]. cbn [mbind res_bind]. eauto.
Qed.

Lemma rtlog_records_safe data n : forall off, (off + 16 * n <= length data)%nat ->
  exists rs, rtlog_records data off n = Ok rs.
Proof.
  induction n as [|n IH]; intros off H; simpl; [by eauto|].
  destruct (decode_rtlog_record_safe data off) as [r ->]; [lia|]. simpl.
  destruct (IH (off + 16)%nat) as [rs ->]; [lia|]. simpl. eauto.
Qed.

(** A decoded value was read from the payload: the offset grew and stayed inside. *)
Lemma decode_value_safe f payload off : exists v, decode_value f payload off = Ok v /\
  (forall x off', v = Some (x, off') -> (off < off' <= length payload)%nat).
Proof.
  unfold decode_value. destruct (length payload <=? off)%nat eqn:Ho; [eexists; by split|].
  apply Nat.leb_gt in Ho. destruct (read_at_in payload off) as (n & -> & _); [lia|]. cbn [mbind res_bind].
  destruct (length payload - S off <? Z.to_nat n)%nat eqn:Hn; [eexists; by split|]. apply Nat.ltb_ge in Hn.
  rewrite slice_ok by lia. cbn [mbind res_bind].
  repeat case_match; eexists; (split; [reflexivity|]); intros; simplify_eq; lia.
Qed.

Lemma decode_record_safe fs payload : forall off record, exists v,
  decode_record fs payload off record = Ok v /\
  (forall x off', v = Some (x, off') -> (off <= length payload)%nat ->
     (off' <= length payload)%nat /\ (off + length fs <= off')%nat).
Proof.
  induction fs as [|f fs IH]; intros off record; simpl.
  { eexists; split; [done|]. intros; simplify_eq. lia. }
  destruct (decode_value_safe f payload off) as (v & -> & Hv). simpl.
  destruct v as [[x off']|]; [|eexists; by split]. specialize (Hv x off' eq_refl).
  destruct (IH off' (<[field_name f := x]> record)) as (v' & -> & Hv').
  eexists; split; [done|]. intros y off'' Hy Ho. specialize (Hv' y off'' Hy). lia.
Qed.

Lemma decode_records_safe fuel fs payload : forall off,
  (off <= length payload)%nat -> (length payload - off <= fuel)%nat ->
  (fs <> [] \/ off = length payload) -> exists v, decode_records fuel fs payload off = Ok v.
Proof.
  induction fuel as [|fuel IH]; intros off Ho Hf Hfs; cbn [decode_records].
  { rewrite (proj2 (Nat.leb_le _ _)) by lia. eauto. }
  destruct (length payload <=? off)%nat eqn:Hl; [by eauto|]. apply Nat.leb_gt in Hl.
  destruct (decode_record_safe fs payload off ∅) as (v & -> & Hv). cbn [mbind res_bind].
  destruct v as [[r off']|]; [|by eauto]. destruct (Hv r off' eq_refl) as [H1 H2]; [lia|].
  destruct Hfs as [Hfs|]; [|lia]. destruct fs as [|f fs]; [done|]. simpl in H2.
  destruct (IH off') as [rs ->]; [lia|lia|by left|]. cbn [mbind res_bind]. eauto.
Qed.

Lemma returned_fields_length ixs tfs fs : returned_fields ixs tfs = Some fs -> length fs = length ixs.
Proof.
  revert fs. induction ixs as [|i ixs IH]; simpl; intros fs H; [by simplify_eq|].
  destruct (find _ _); [|done]. destruct (returned_fields ixs tfs) as [fs'|]; [|done].
  simpl in H. simplify_eq. simpl. by rewrite (IH fs').
Qed.

Lemma DecodeGetData_safe data table tfs inc : exists r, DecodeGetData data table tfs inc = Ok r.
Proof.
  unfold DecodeGetData. destruct (DecodeFrameGeneric_safe data inc) as (status & payload & ->).
  cbn [mbind res_bind]. destruct status; eauto.
  destruct (length payload <? 2)%nat eqn:H2; [by eauto|]. apply Nat.ltb_ge in H2.
  destruct (read_at_in payload 0) as (t & -> & _); [lia|]. cbn [mbind res_bind]. case_match; [by eauto|].
  destruct (read_at_in payload 1) as (c & -> & _); [lia|]. cbn [mbind res_bind].
  destruct (length payload <? 2 + Z.to_nat c)%nat eqn:Hc; [by eauto|]. apply Nat.ltb_ge in Hc.
  rewrite slice_ok by lia. cbn [mbind res_bind].
  destruct (returned_fields _ tfs) as [fs|] eqn:Hr; [|by eauto].
  destruct ((length fs =? 0)%nat && negb (2 + Z.to_nat c =? length payload)%nat) eqn:Hz; [by eauto|].
  destruct (decode_records_safe (length payload) fs payload (2 + Z.to_nat c)) as [v ->]; [lia|lia| |].
  { apply andb_false_iff in Hz as [Hz|Hz].
    - left. intros ->. done.
    - right. apply negb_false_iff, Nat.eqb_eq in Hz. done. }
  cbn [mbind res_bind]. destruct v; eauto.
Qed.

(** A buffer that holds a whole frame, taken apart. *)
Lemma check_frame_shape data status n : check_frame data = Ok (status, n) -> bytes_ok data ->
  status <> kIncomplete -> exists s v c content crc e rest,
    data = raw_frame s v c content crc e ++ rest /\
    Z.of_nat (length content) < 65536 /\ bytes_ok content /\ word_ok crc.
Proof.
  unfold check_frame. intros H Hd Hst. case_match; [by simplify_eq|]. apply Nat.ltb_ge in H0.
  destruct data as [|s [|v [|c data]]]; simpl in H0; try lia.
  destruct (ReadU16le _ 3) as [len| |] eqn:Hlen; try done. cbn [mbind res_bind] in H.
  destruct (ReadU16le_shape _ _ _ Hlen Hd) as (Hw & rest & Hrest). cbn [drop] in Hrest.
  case_match; [by simplify_eq|]. apply Nat.ltb_ge in H1. set (m := Z.to_nat len) in *.
  destruct (ReadU16le _ (5 + m)) as [crc| |] eqn:Hcrc; try done.
  destruct (ReadU16le_shape _ _ _ Hcrc Hd) as (Hcw & rest2 & Hrest2).
  rewrite drop_0 in Hrest. subst data. cbn [Nat.add drop app AppendU16] in Hrest2.
  assert (rest = take m rest ++ AppendU16 [] crc ++ rest2) as Hr.
  { rewrite <- (take_drop m rest) at 1. by rewrite Hrest2. }
  assert (length (take m rest) = m) as Hm.
  { simpl in H1. rewrite length_take. lia. }
  clear Hlen Hcrc H Hst Hrest2. revert Hr Hm. generalize (take m rest). intros content -> Hm.
  destruct rest2 as [|e rest3]; [simpl in H1; rewrite !length_app in H1; simpl in H1; lia|].
  exists s, v, c, content, crc, e, rest3. rewrite Hm.
  assert (Z.of_nat m = len) as Hmz by (unfold m, word_ok in *; lia). split_and!; [|unfold word_ok in *; lia| |done].
  - unfold raw_frame. rewrite Hm, Hmz, <- !app_assoc. done.
  - repeat (apply Forall_cons in Hd as [_ Hd]). by apply Forall_app in Hd as [Hd _].
Qed.

(** What the accepted frames are. *)
Lemma check_frame_ok_inv data n : check_frame data = Ok (kOk, n) -> bytes_ok data ->
  exists version content rest, length content = n /\ Z.of_nat n < 65536 /\ bytes_ok content /\
    data = raw_frame kFrameStart version kReplyOk content (C3Crc16 (crc_body version kReplyOk content))
             kFrameEnd ++ rest.
Proof.
  intros H Hd. destruct (check_frame_shape _ _ _ H Hd) as (s & v & c & content & crc & e & rest & -> & Hl & Hc & Hw);
    [done|].
  rewrite check_frame_raw in H by done. unfold frame_verdict in H.
  destruct_guards. break_guards; subst; try done; exists v, content, rest; done.
Qed.

(** ** Corruption *)

Lemma verdict_malformed s v c content crc e :
  s <> kFrameStart \/ e <> kFrameEnd \/ C3Crc16 (crc_body v c content) <> crc ->
  frame_verdict s v c content crc e = (kMalformed, 0%nat).
Proof.
  unfold frame_verdict. intros H.
  destruct (s =? kFrameStart) eqn:E1; [|done]. destruct (e =? kFrameEnd) eqn:E2; [|done].
  destruct (C3Crc16 _ =? crc) eqn:E3; [|done]. break_guards; congruence.
Qed.

(** A changed byte of the checksummed part changes the CRC. *)
Lemma crc_changed data i x old : bytes_ok data -> byte_ok x -> data !! i = Some old -> x <> old ->
  C3Crc16 (<[i := x]> data) <> C3Crc16 data.
Proof.
  intros Hd Hx Hi Hne. pose proof (lookup_lt_Some _ _ _ Hi) as Hlt.
  rewrite <- (take_drop_middle data i old Hi) at 2. rewrite insert_take_drop by done.
  apply crc_one_byte; [done|by apply Forall_take|by apply Forall_drop|done| |done].
  by eapply Forall_lookup_1.
Qed.

Lemma raw_frame_body_insert s v c content crc e i x : (i <> 2 /\ i <> 3)%nat ->
  (i < 4 + length content)%nat -> exists v' c' content',
    <[S i := x]> (raw_frame s v c content crc e) = raw_frame s v' c' content' crc e /\
    length content' = length content /\ crc_body v' c' content' = <[i := x]> (crc_body v c content).
Proof.
  intros [H2 H3] Hi. unfold raw_frame, crc_body. destruct i as [|[|[|[|i]]]]; [..|].
  - by exists x, c, content.
  - by exists v, x, content.
  - done.
  - done.
  - exists v, c, (<[i := x]> content). rewrite length_insert. split_and!; [|done|done].
    simpl. do 5 f_equal. rewrite insert_app_l by lia. done.
Qed.

Lemma raw_frame_corrupted v c content i old x :
  let crc := C3Crc16 (crc_body v c content) in
  byte_ok v -> byte_ok c -> bytes_ok content -> byte_ok x -> (i <> 3 /\ i <> 4)%nat ->
  raw_frame kFrameStart v c content crc kFrameEnd !! i = Some old -> x <> old ->
  exists s' v' c' content' crc' e',
    <[i := x]> (raw_frame kFrameStart v c content crc kFrameEnd) = raw_frame s' v' c' content' crc' e' /\
    length content' = length content /\ word_ok crc' /\
    (s' <> kFrameStart \/ e' <> kFrameEnd \/ C3Crc16 (crc_body v' c' content') <> crc').
Proof.
  intros crc Hv Hc Hcontent Hx Hi Hold Hne. pose proof (crc_body_ok v c content Hv Hc Hcontent) as Hb.
  pose proof (crc_word _ Hb) as Hw. fold crc in Hw.
  pose proof (lookup_lt_Some _ _ _ Hold) as Hlt. rewrite length_raw_frame in Hlt.
  destruct i as [|i].
  { exists x, v, c, content, crc, kFrameEnd. split_and!; [done..|]. left. simpl in Hold. congruence. }
  destruct (decide (i < 4 + length content)%nat) as [Hin|Hout].
  - destruct (raw_frame_body_insert kFrameStart v c content crc kFrameEnd i x) as (v' & c' & content' & -> & Hl & Hcb);
      [lia|done|].
    exists kFrameStart, v', c', content', crc, kFrameEnd. split_and!; [done..|]. right; right. rewrite Hcb.
    eapply crc_changed; [done|done| |exact Hne].
    assert (raw_frame kFrameStart v c content crc kFrameEnd =
            (kFrameStart :: crc_body v c content) ++ AppendU16 [] crc ++ [kFrameEnd]) as Hraw.
    { unfold raw_frame, crc_body, AppendU16. cbn [app]. done. }
    rewrite Hraw in Hold.
    change ((crc_body v c content ++ AppendU16 [] crc ++ [kFrameEnd]) !! i = Some old) in Hold.
    rewrite lookup_app_l in Hold; [done|].
    unfold crc_body. rewrite length_app, length_AppendU16. simpl. lia.
  - assert (forall w y, raw_frame kFrameStart v c content w y =
      (kFrameStart :: crc_body v c content) ++ AppendU16 [] w ++ [y]) as Hraw.
    { intros. unfold raw_frame, crc_body, AppendU16. cbn [app]. done. }
    set (pre := kFrameStart :: crc_body v c content) in *.
    assert (length pre = (5 + length content)%nat) as Hpre.
    { unfold pre, crc_body. cbn [length]. rewrite length_app, length_AppendU16. cbn [length]. lia. }
    rewrite Hraw in Hold |- *. assert (exists k, S i = (length pre + k)%nat /\ (k < 3)%nat) as (k & Hik & Hk).
    { exists (S i - length pre)%nat. lia. }
    rewrite Hik in Hold |- *.
    rewrite insert_app_r. rewrite (lookup_app_off _ _ _ k) in Hold by done.
    assert (forall w, word_ok w -> w <> crc -> exists s' v' c' content' crc' e',
      pre ++ AppendU16 [] w ++ [kFrameEnd] = raw_frame s' v' c' content' crc' e' /\
      length content' = length content /\ word_ok crc' /\
      (s' <> kFrameStart \/ e' <> kFrameEnd \/ C3Crc16 (crc_body v' c' content') <> crc')) as Hcase.
    { intros w Hww Hne'. exists kFrameStart, v, c, content, w, kFrameEnd. rewrite Hraw.
      split_and!; [done..|]. right; right. fold crc. congruence. }
    pose proof (AppendU16_bytes_ok [] crc (Forall_nil_2 _)) as Hab.
    unfold AppendU16 in Hold, Hab |- *. cbn [app] in Hold, Hab |- *.
    assert (forall lo hi, byte_ok lo -> byte_ok hi -> [lo; hi] <> AppendU16 [] crc ->
      exists w, word_ok w /\ w <> crc /\ AppendU16 [] w = [lo; hi]) as Hsplit.
    { intros lo hi Hlo Hhi Hd. exists (Z.lor lo (Z.shiftl hi 8)). rewrite AppendU16_join by done.
      split_and!; [|intros E; apply Hd; by rewrite <- E, AppendU16_join|done].
      rewrite le_value by done. unfold word_ok, byte_ok in *. lia. }
    apply Forall_cons in Hab as [Hlo Hab]. apply Forall_cons in Hab as [Hhi _].
    destruct k as [|[|[|k]]]; [| | |lia]; simpl in Hold |- *; simplify_eq.
    + destruct (Hsplit x (Z.land (Z.shiftr crc 8) 255)) as (w & H1 & H2 & H3); [done|done|unfold AppendU16; simpl; congruence|].
      destruct (Hcase w H1 H2) as (? & ? & ? & ? & ? & ? & H). rewrite H3 in H. eauto 10.
    + destruct (Hsplit (Z.land crc 255) x) as (w & H1 & H2 & H3); [done|done|unfold AppendU16; simpl; congruence|].
      destruct (Hcase w H1 H2) as (? & ? & ? & ? & ? & ? & H). rewrite H3 in H. eauto 10.
    + exists kFrameStart, v, c, content, crc, x. rewrite Hraw. split_and!; [done..|]. by right; left.
Qed.

(** ** What the decoder makes of an encoded frame *)

Lemma slice_raw s v c content crc e rest :
  slice (raw_frame s v c content crc e ++ rest) 5 (length content) = Ok content.
Proof.
  rewrite slice_ok by (rewrite length_app, length_raw_frame; lia). f_equal.
  unfold raw_frame. rewrite <- !app_assoc. simpl.
  by rewrite drop_0, take_app_le, take_ge by lia.
Qed.

Lemma DecodeFrameGeneric_encoded command sid nr payload inc rest :
  bytes_ok payload -> Z.of_nat (length payload) < 65532 ->
  (command = kReplyOk \/ command = kReplyError) ->
  DecodeFrameGeneric (EncodeFrame command sid nr payload inc ++ rest) inc =
  Ok (if command =? kReplyOk then (kOk, payload) else (kRejected, [])).
Proof.
  intros Hp Hl Hcmd. set (content := session_block inc sid nr ++ payload).
  assert (length content = (if inc then 4 else 0) + length payload)%nat as Hlc.
  { unfold content. rewrite length_app, length_session_block. by destruct inc. }
  assert (Z.of_nat (length content) < 65536) as Hlc' by (destruct inc; lia).
  assert (bytes_ok (crc_body kProtocolVersion command content)) as Hb.
  { apply crc_body_ok; [done|by destruct Hcmd; subst|].
    apply Forall_app; split; [apply session_block_ok|done]. }
  rewrite EncodeFrame_raw by done. fold content. unfold DecodeFrameGeneric.
  rewrite check_frame_raw by (done || by apply crc_word).
  unfold frame_verdict. rewrite !Z.eqb_refl. cbn [negb orb mbind res_bind].
  destruct Hcmd as [-> | ->]; [|done].
  change (kReplyOk =? kReplyOk) with true. change (kReplyOk =? kReplyError) with false.
  cbn [negb andb mbind res_bind]. rewrite slice_raw. cbn [mbind res_bind].
  rewrite Hlc. unfold content. by destruct inc.
Qed.

Lemma EncodeFrame_corrupted sid nr payload inc strip i old x :
  let frame := EncodeFrame kReplyOk sid nr payload inc in
  bytes_ok payload -> Z.of_nat (length payload) < 65532 -> byte_ok x -> (i <> 3 /\ i <> 4)%nat ->
  frame !! i = Some old -> x <> old -> DecodeFrameGeneric (<[i := x]> frame) strip = Ok (kMalformed, []).
Proof.
  intros frame Hp Hl Hx Hi Hold Hne. set (content := session_block inc sid nr ++ payload).
  assert (Z.of_nat (length content) < 65536) as Hlc'.
  { unfold content. rewrite length_app, length_session_block. destruct inc; lia. }
  assert (bytes_ok content) as Hb by (apply Forall_app; split; [apply session_block_ok|done]).
  unfold frame in *. rewrite EncodeFrame_raw in Hold |- * by done. fold content in Hold |- *.
  destruct (raw_frame_corrupted kProtocolVersion kReplyOk content i old x)
    as (s' & v' & c' & content' & crc' & e' & -> & Hl' & Hw & Hbad); try done.
  unfold DecodeFrameGeneric. rewrite <- (app_nil_r (raw_frame _ _ _ _ _ _)).
  rewrite check_frame_raw by (by rewrite ?Hl'). by rewrite verdict_malformed.
Qed.

(** ** Every decoder answers *)

Lemma FrameSize_total data : exists n, FrameSize data = Ok n.
Proof.
  unfold FrameSize. destruct (length data <? 5)%nat eqn:E; [by eexists|]. apply Nat.ltb_ge in E.
  destruct (ReadU16le_in_range data 3) as [w ->]; [lia|by eexists].
Qed.

Lemma DecodeConnectSession_total data : exists r, DecodeConnectSession data = Ok r.
Proof.
  unfold DecodeConnectSession. destruct (check_frame_safe data) as (st & n & -> & Hn). simpl.
  destruct st; try by eexists. destruct (n <? 2)%nat eqn:E; [by eexists|]. apply Nat.ltb_ge in E.
  specialize (Hn eq_refl). destruct (ReadU16le_in_range data 5) as [w ->]; [lia|by eexists].
Qed.

Lemma DecodeGenericReply_total data : exists r, DecodeGenericReply data = Ok r.
Proof. unfold DecodeGenericReply. destruct (DecodeFrameGeneric_safe data false) as (st & p & ->). by eexists. Qed.

Lemma DecodeRtlogBinary_total data inc : exists r, DecodeRtlogBinary data inc = Ok r.
Proof.
  unfold DecodeRtlogBinary. destruct (DecodeFrameGeneric_safe data inc) as (st & payload & ->). simpl.
  destruct st; try by eexists. case_match; [by eexists|].
  destruct (rtlog_records_safe payload (length payload / 16) 0) as [rs ->]; [|by eexists].
  pose proof (Nat.Div0.mul_div_le (length payload) 16). lia.
Qed.

Lemma DecodeRtlogKeyValue_total data inc : exists r, DecodeRtlogKeyValue data inc = Ok r.
Proof.
  unfold DecodeRtlogKeyValue. destruct (DecodeFrameGeneric_safe data inc) as (st & payload & ->). simpl.
  repeat case_match; by eexists.
Qed.

Lemma DecodeGetParam_total data inc : exists r, DecodeGetParam data inc = Ok r.
Proof.
  unfold DecodeGetParam. destruct (DecodeFrameGeneric_safe data inc) as (st & payload & ->). simpl.
  repeat case_match; by eexists.
Qed.

Lemma DecodeDataTableConfig_total data inc : exists r, DecodeDataTableConfig data inc = Ok r.
Proof.
  unfold DecodeDataTableConfig. destruct (DecodeFrameGeneric_safe data inc) as (st & payload & ->). simpl.
  case_match; by eexists.
Qed.

Lemma DecodeConnectSession_encoded command sid nr payload rest :
  bytes_ok payload -> Z.of_nat (length payload) < 65532 -> word_ok sid ->
  (command = kReplyOk \/ command = kReplyError) ->
  DecodeConnectSession (EncodeFrame command sid nr payload true ++ rest) =
  Ok (if command =? kReplyOk then (kOk, sid) else (kRejected, 0)).
Proof.
  intros Hp Hl Hsid Hcmd. set (content := session_block true sid nr ++ payload).
  assert (Z.of_nat (length content) < 65536) as Hlc.
  { unfold content. rewrite length_app, length_session_block. lia. }
  assert (bytes_ok (crc_body kProtocolVersion command content)) as Hb.
  { apply crc_body_ok; [done|by destruct Hcmd; subst|]. apply Forall_app; split; [apply session_block_ok|done]. }
  rewrite EncodeFrame_raw by done. fold content. unfold DecodeConnectSession.
  rewrite check_frame_raw by (done || by apply crc_word).
  unfold frame_verdict. rewrite !Z.eqb_refl. cbn [negb orb mbind res_bind].
  destruct Hcmd as [-> | ->]; [|done].
  change (kReplyOk =? kReplyOk) with true. change (kReplyOk =? kReplyError) with false.
  cbn [negb andb mbind res_bind].
  rewrite (proj2 (Nat.ltb_ge _ _)) by (unfold content; rewrite length_app, length_session_block; lia).
  set (head := [kFrameStart; kProtocolVersion; kReplyOk] ++ AppendU16 [] (Z.of_nat (length content))).
  assert (raw_frame kFrameStart kProtocolVersion kReplyOk content (C3Crc16 (crc_body kProtocolVersion kReplyOk content))
    kFrameEnd ++ rest = head ++ AppendU16 [] sid ++ (AppendU16 [] (to_u16 nr) ++ payload ++
      AppendU16 [] (C3Crc16 (crc_body kProtocolVersion kReplyOk content)) ++ [kFrameEnd] ++ rest)) as ->.
  { generalize (C3Crc16 (crc_body kProtocolVersion kReplyOk content)). intros crc.
    unfold raw_frame, head. generalize (AppendU16 [] (Z.of_nat (length content))). intros len.
    unfold content, session_block. by rewrite (AppendU16_app (AppendU16 [] sid)), <- !app_assoc. }
  by rewrite ReadU16le_append.
Qed.

Lemma FrameSize_encoded command sid nr payload inc rest : Z.of_nat (length payload) < 65532 ->
  FrameSize (EncodeFrame command sid nr payload inc ++ rest) = Ok (length (EncodeFrame command sid nr payload inc)).
Proof.
  intros Hl.
  assert (Z.of_nat (length (session_block inc sid nr ++ payload)) < 65536) as Hlc.
  { rewrite length_app, length_session_block. destruct inc; lia. }
  unfold FrameSize. rewrite EncodeFrame_raw by done.
  rewrite (proj2 (Nat.ltb_ge _ _)) by (rewrite length_app, length_raw_frame; lia).
  rewrite ReadU16le_raw by done. cbn [mbind res_bind]. rewrite Nat2Z.id, length_raw_frame. f_equal. lia.
Qed.

Lemma length_EncodeFrame command sid nr payload inc : Z.of_nat (length payload) < 65532 ->
  8 <= Z.of_nat (length (EncodeFrame command sid nr payload inc)) < 65544.
Proof.
  intros Hl.
  assert (Z.of_nat (length (session_block inc sid nr ++ payload)) < 65536) as Hlc.
  { rewrite length_app, length_session_block. destruct inc; lia. }
  rewrite EncodeFrame_raw, length_raw_frame by done. lia.
Qed.

Ltac totally H := destruct H as [? ->]; discriminate.

(** ** Properties *)

(** A panel's answer is taken out of the stream as a whole: with anything
    after it, the frame decodes to its payload (without the session block) and
    to its size, a refusal decodes to "rejected", every proper prefix asks for
    more bytes, and a frame with any one byte changed, its length field
    excepted, is malformed. *)
Theorem c3_reply_stream sid nr payload inc rest :
  bytes_ok payload -> Z.of_nat (length payload) < 65532 ->
  let frame := EncodeFrame kReplyOk sid nr payload inc in
  DecodeFrameGeneric (frame ++ rest) inc = Ok (kOk, payload) /\
  FrameSize (frame ++ rest) = Ok (length frame) /\
  DecodeFrameGeneric (EncodeFrame kReplyError sid nr payload inc ++ rest) inc = Ok (kRejected, []) /\
  (forall k, (k < length frame)%nat -> DecodeFrameGeneric (take k frame) inc = Ok (kIncomplete, [])) /\
  (forall i old x, byte_ok x -> (i <> 3 /\ i <> 4)%nat -> frame !! i = Some old -> x <> old ->
     DecodeFrameGeneric (<[i := x]> frame) inc = Ok (kMalformed, [])).
Proof.
  intros Hp Hl frame.
  assert (Z.of_nat (length (session_block inc sid nr ++ payload)) < 65536) as Hlc.
  { rewrite length_app, length_session_block. destruct inc; lia. }
  split_and!.
  - unfold frame. rewrite DecodeFrameGeneric_encoded; auto.
  - by apply FrameSize_encoded.
  - rewrite DecodeFrameGeneric_encoded; auto.
  - intros k Hk. unfold frame in *. rewrite EncodeFrame_raw in Hk |- * by done.
    rewrite length_raw_frame in Hk. unfold DecodeFrameGeneric. by rewrite check_frame_take.
  - intros i old x Hx Hi Hold Hne. by apply (EncodeFrame_corrupted sid nr payload inc inc i old x).
Qed.

Lemma c3_reply_stream_witness :
  DecodeFrameGeneric (EncodeFrame kReplyOk 7 1 [1; 2; 3] true ++ [170; 1]) true = Ok (kOk, [1; 2; 3]).
Proof.
  refine (proj1 (c3_reply_stream 7 1 [1; 2; 3] true [170; 1] _ _)); [repeat constructor; discriminate|reflexivity].
Defined.

(** No reply, however malformed, makes a decoder read outside it, and every
    decoder answers; a reply is accepted only when it starts with a complete
    frame that carries the "ok" command and the CRC of its contents. *)
Theorem c3_decoders_safe data inc table tableFields : bytes_ok data ->
  no_fault (DecodeConnectSession data) /\ no_fault (DecodeGenericReply data) /\
  no_fault (DecodeRtlogBinary data inc) /\ no_fault (DecodeRtlogKeyValue data inc) /\
  no_fault (DecodeGetParam data inc) /\ no_fault (DecodeDataTableConfig data inc) /\
  no_fault (DecodeGetData data table tableFields inc) /\ no_fault (FrameSize data) /\
  (forall payload, DecodeFrameGeneric data false = Ok (kOk, payload) -> exists version rest,
     data = raw_frame kFrameStart version kReplyOk payload
              (C3Crc16 (crc_body version kReplyOk payload)) kFrameEnd ++ rest).
Proof.
  intros Hd. split_and!; unfold no_fault.
  - totally (DecodeConnectSession_total data).
  - totally (DecodeGenericReply_total data).
  - totally (DecodeRtlogBinary_total data inc).
  - totally (DecodeRtlogKeyValue_total data inc).
  - totally (DecodeGetParam_total data inc).
  - totally (DecodeDataTableConfig_total data inc).
  - totally (DecodeGetData_safe data table tableFields inc).
  - totally (FrameSize_total data).
  - intros p Hp. unfold DecodeFrameGeneric in Hp. destruct (check_frame data) as [[st n]| |] eqn:Hc; try done.
    simpl in Hp. destruct st; try done.
    destruct (check_frame_ok_inv data n Hc Hd) as (v & content & rest & Hn & _ & _ & ->).
    exists v, rest. subst n. rewrite slice_raw in Hp. simpl in Hp. by injection Hp as <-.
Qed.

Lemma c3_decoders_safe_witness : no_fault (DecodeGetData [170; 1; 200; 255; 255] 1 [] true).
Proof.
  destruct (c3_decoders_safe [170; 1; 200; 255; 255] true 1 []) as (_ & _ & _ & _ & _ & _ & H & _);
    [repeat constructor; discriminate|exact H].
Defined.
