(* ===== verification/C3Replies.v ===== *)
(** * The contents of C3 replies

    Reference encoders for what a panel puts in its answers (real-time log
    records, data tables, key/value text, packed times), written from the
    protocol's description in C3Codec.h, and the theorems that the gateway's
    decoders invert them. *)

From Stdlib Require Import ZifyNat.
From S2P Require Import Prelude Words Text Crc16 C3Codec.

#[local] Ltac Zify.zify_post_hook ::= Z.to_euclidean_division_equations.

(** ** Little-endian integers *)

Fixpoint le_bytes (n : nat) (v : Z) : list Z :=
  match n with
  | O => []
  | S n' => v mod 256 :: le_bytes n' (v / 256)
  end.

Lemma length_le_bytes n : forall v, length (le_bytes n v) = n.
Proof. induction n; intros; simpl; auto. Qed.

Lemma le_bytes_ok n : forall v, bytes_ok (le_bytes n v).
Proof. induction n; intros; simpl; constructor; auto. unfold byte_ok. lia. Qed.

Lemma ReadU32_le v post : 0 <= v < 2 ^ 32 -> ReadU32 (le_bytes 4 v ++ post) 0 = Ok v.
Proof.
  intros Hv. unfold ReadU32. simpl. f_equal.
  rewrite (lor_add_shifted _ _ 8) by lia. rewrite (lor_add_shifted _ _ 16) by lia.
  rewrite (lor_add_shifted _ _ 24) by lia. lia.
Qed.

(** [int64_t value |= byte << (8 * b)] adds up to the integer. *)
Lemma read_int_le w : forall v b acc, 0 <= b -> 0 <= acc < 2 ^ (8 * b) -> 0 <= v < 256 ^ Z.of_nat w ->
  acc + v * 2 ^ (8 * b) < 2 ^ 63 -> read_int (le_bytes w v) b acc = acc + v * 2 ^ (8 * b).
Proof.
  induction w as [|w IH]; intros v b acc Hb Ha Hv Hs; cbn [le_bytes read_int].
  { change (256 ^ Z.of_nat 0) with 1 in Hv. replace v with 0 by lia. lia. }
  assert (0 <= v mod 256 < 256) as Hm by lia.
  assert (v = 256 * (v / 256) + v mod 256) as Hv' by lia.
  set (p := 2 ^ (8 * b)) in *. assert (0 < p) by (unfold p; lia).
  assert (2 ^ (8 * (b + 1)) = 256 * p) as Hp.
  { unfold p. replace (8 * (b + 1)) with (8 + 8 * b) by lia. by rewrite Z.pow_add_r by lia. }
  assert (v mod 256 * p <= v * p) by (apply Z.mul_le_mono_nonneg_r; lia).
  rewrite to_signed_id; [|lia|rewrite Z.shiftl_mul_pow2 by lia; fold p; lia].
  rewrite lor_add_shifted by (fold p; lia). fold p.
  rewrite IH; rewrite ?Hp; [|lia| |split; [lia|]|].
  - rewrite Hv' at 3. ring.
  - split; [lia|]. apply Z.lt_le_trans with (p + v mod 256 * p); [lia|]. nia.
  - rewrite Nat2Z.inj_succ, Z.pow_succ_r in Hv by lia. apply Z.div_lt_upper_bound; lia.
  - rewrite Hv' in Hs. nia.
Qed.

(** ** Reading past a known prefix *)

Lemma ReadU32_app pre l k : ReadU32 (pre ++ l) (length pre + k) = ReadU32 l k.
Proof.
  unfold ReadU32. by rewrite (read_at_app_off pre l (length pre + k) k),
    (read_at_app_off pre l (length pre + k + 1) (k + 1)),
    (read_at_app_off pre l (length pre + k + 2) (k + 2)),
    (read_at_app_off pre l (length pre + k + 3) (k + 3)) by lia.
Qed.

Lemma slice_app {A} (pre l : list A) k n : slice (pre ++ l) (length pre + k) n = slice l k n.
Proof.
  unfold slice. rewrite length_app.
  destruct (decide (k + n <= length l)%nat); [|by rewrite decide_False by lia].
  rewrite decide_True by lia. f_equal. rewrite drop_app_ge by lia. by rewrite Nat.add_comm, Nat.add_sub.
Qed.

Lemma decode_rtlog_record_app pre l :
  decode_rtlog_record (pre ++ l) (length pre) = decode_rtlog_record l 0.
Proof.
  unfold decode_rtlog_record. simpl.
  rewrite (read_at_app_off pre l (length pre + 10) 10), (read_at_app_off pre l (length pre + 9) 9),
    (read_at_app_off pre l (length pre + 8) 8), (read_at_app_off pre l (length pre + 11) 11) by lia.
  pose proof (slice_app pre l 0) as Hs. pose proof (ReadU32_app pre l 0) as Hr.
  setoid_rewrite Nat.add_0_r in Hs. rewrite Nat.add_0_r in Hr.
  by rewrite Hs, Hr, slice_app, !ReadU32_app.
Qed.

(** ** Real-time log records *)

(** The 16 bytes of a record; [spare] fills the bytes no field uses. *)
Definition record_bytes (spare : Z) (r : RtLogRecord) : list Z :=
  match kind r with
  | kEvent => le_bytes 4 (card_no r) ++ le_bytes 4 (pin r) ++
      [verified r; door_id r; event_type r; in_out_state r] ++ le_bytes 4 (time_second r)
  | kDoorAlarmStatus => alarm_status r ++ dss_status r ++
      [spare; verified r; event_type r; spare] ++ le_bytes 4 (time_second r)
  end.

Definition u32_field (v : Z) : Prop := 0 <= v < 2 ^ 32.

(** A record as the gateway represents one: the fields of the other kind are
    at their defaults, and 255 marks the door status. *)
Definition record_ok (r : RtLogRecord) : Prop :=
  byte_ok (verified r) /\ u32_field (time_second r) /\
  match kind r with
  | kEvent => u32_field (card_no r) /\ u32_field (pin r) /\ alarm_status r = [] /\ dss_status r = [] /\
      byte_ok (door_id r) /\ byte_ok (in_out_state r) /\ byte_ok (event_type r) /\ event_type r <> 255
  | kDoorAlarmStatus => card_no r = 0 /\ pin r = 0 /\ length (alarm_status r) = 4%nat /\
      length (dss_status r) = 4%nat /\ bytes_ok (alarm_status r) /\ bytes_ok (dss_status r) /\
      door_id r = 0 /\ in_out_state r = 0 /\ event_type r = 255
  end.

Lemma length_record_bytes spare r : record_ok r -> length (record_bytes spare r) = 16%nat.
Proof.
  unfold record_ok, record_bytes. intros (_ & _ & H). destruct (kind r); rewrite !length_app, ?length_le_bytes.
  - done.
  - destruct H as (_ & _ & -> & -> & _). done.
Qed.

Lemma record_bytes_ok spare r : byte_ok spare -> record_ok r -> bytes_ok (record_bytes spare r).
Proof.
  unfold record_ok, record_bytes. intros Hs (Hv & _ & H).
  destruct (kind r); destruct H as (?&?&?&?&?&?&?&?);
    repeat (apply Forall_app; split); auto using le_bytes_ok.
  destruct_and?. match goal with H : event_type r = _ |- _ => rewrite H end.
  by repeat (constructor; [done || (unfold byte_ok; lia)|]).
Qed.

Lemma decode_record_bytes spare r post : record_ok r ->
  decode_rtlog_record (record_bytes spare r ++ post) 0 = Ok r.
Proof.
  unfold record_ok, record_bytes. destruct r as [k card p alarm dss ver door ev st t].
  cbn [kind card_no pin alarm_status dss_status verified door_id event_type in_out_state time_second].
  intros (Hv & Ht & H). unfold decode_rtlog_record.
  assert (forall l : list Z, length l = 12%nat -> ReadU32 ((l ++ le_bytes 4 t) ++ post) (0 + 12) = Ok t) as HT.
  { intros l Hl. rewrite <- app_assoc, <- Hl, Nat.add_comm, ReadU32_app. by apply ReadU32_le. }
  destruct k.
  - destruct H as (Hc & Hp & -> & -> & Hd & Hst & Hev & Hne).
    rewrite (app_assoc (le_bytes 4 card)), (app_assoc (_ ++ _)), HT by done.
    rewrite <- !app_assoc, (ReadU32_le card) by done.
    assert (ReadU32 (le_bytes 4 card ++ le_bytes 4 p ++ [ver; door; ev; st] ++ le_bytes 4 t ++ post) (0 + 4) = Ok p) as ->.
    { change (0 + 4)%nat with (length (le_bytes 4 card) + 0)%nat. rewrite ReadU32_app. by apply ReadU32_le. }
    simpl. by rewrite (proj2 (Z.eqb_neq ev 255)).
  - destruct H as (-> & -> & Ha & Hd & _ & _ & -> & -> & ->).
    rewrite (app_assoc alarm), (app_assoc (_ ++ _)).
    rewrite HT by (rewrite !length_app, Ha, Hd; done). rewrite <- !app_assoc.
    destruct alarm as [|a0 [|a1 [|a2 [|a3 [|]]]]]; try done.
    destruct dss as [|d0 [|d1 [|d2 [|d3 [|]]]]]; done.
Qed.

Lemma rtlog_records_bytes spare rs : forall pre, Forall record_ok rs ->
  rtlog_records (pre ++ concat (map (record_bytes spare) rs)) (length pre) (length rs) = Ok rs.
Proof.
  induction rs as [|r rs IH]; intros pre H; [done|]. inversion H as [|? ? Hr Hrs]; subst. cbn [length rtlog_records map concat].
  rewrite decode_rtlog_record_app, decode_record_bytes by done. cbn [mbind res_bind].
  rewrite (app_assoc pre).
  replace (length pre + 16)%nat with (length (pre ++ record_bytes spare r))
    by (rewrite length_app, length_record_bytes by done; lia).
  by rewrite IH.
Qed.

Lemma length_records spare rs : Forall record_ok rs ->
  length (concat (map (record_bytes spare) rs)) = (16 * length rs)%nat.
Proof.
  induction 1 as [|r rs Hr Hrs IH]; [done|]. simpl. rewrite length_app, length_record_bytes, IH by done. lia.
Qed.

(** ** Data tables *)

(** The bytes of one value of a field: its size, then the integer in as many
    bytes as the panel likes, or the text. *)
Inductive encodes (f : DataTableField) : FieldValue -> list Z -> Prop :=
| encodes_int v w : field_type f = 105 \/ field_type f = 76 -> (w <= 8)%nat ->
    0 <= v < 256 ^ Z.of_nat w -> v < 2 ^ 63 -> encodes f (FInt v) (Z.of_nat w :: le_bytes w v)
| encodes_text t : field_type f = 115 -> (length t <= 255)%nat -> bytes_ok t ->
    encodes f (FText t) (Z.of_nat (length t) :: t).

(** One record: a value per returned field, one after the other. *)
Inductive row_encodes : list DataTableField -> list FieldValue -> list Z -> Prop :=
| row_nil : row_encodes [] [] []
| row_cons f fs v vs b bs : encodes f v b -> row_encodes fs vs bs ->
    row_encodes (f :: fs) (v :: vs) (b ++ bs).

(** The JSON object of a record, field names that repeat included. *)
Definition row_record (fs : list DataTableField) (vs : list FieldValue) (record : gmap (list Z) FieldValue)
  : gmap (list Z) FieldValue :=
  foldl (fun r '(f, v) => <[field_name f := v]> r) record (zip fs vs).

Lemma encodes_ok f v b : encodes f v b -> bytes_ok b /\ b <> [].
Proof.
  destruct 1; (split; [|done]); constructor; unfold byte_ok; auto using le_bytes_ok; lia.
Qed.

Lemma row_encodes_ok fs vs b : row_encodes fs vs b -> bytes_ok b /\ (length fs <= length b)%nat.
Proof.
  induction 1 as [|f fs v vs b bs Hb _ [IH1 IH2]]; [done|]. destruct (encodes_ok _ _ _ Hb) as [H1 H2].
  split; [by apply Forall_app|]. rewrite length_app. destruct b; [done|]. simpl. lia.
Qed.

Lemma decode_value_encoded f v b pre post : encodes f v b ->
  decode_value f (pre ++ b ++ post) (length pre) = Ok (Some (v, (length pre + length b)%nat)).
Proof.
  intros H. unfold decode_value. rewrite !length_app.
  destruct (encodes_ok _ _ _ H) as [_ Hne].
  rewrite (proj2 (Nat.leb_gt _ _)) by (destruct b; [done|simpl; lia]).
  assert (forall n t, b = Z.of_nat n :: t -> length t = n ->
    read_at (pre ++ b ++ post) (length pre) = Ok (Z.of_nat n) /\
    slice (pre ++ b ++ post) (S (length pre)) n = Ok t /\ length b = S n) as Hb.
  { intros n t -> <-. split_and!; [|rewrite <- (Nat.add_1_r (length pre)), slice_app|done].
    - rewrite (read_at_app_off _ _ _ 0) by lia. done.
    - rewrite slice_ok by (simpl; rewrite length_app; lia). simpl.
      by rewrite drop_0, take_app_le, take_ge by lia. }
  destruct H as [v w Ht Hw Hv Hs|t Ht Hl Hok].
  - destruct (Hb w _ eq_refl (length_le_bytes w v)) as (-> & Hsl & Hlb). cbn [mbind res_bind].
    rewrite Nat2Z.id, Hsl, Hlb, (proj2 (Nat.ltb_ge _ _)) by lia. cbn [mbind res_bind].
    assert ((field_type f =? 105) || (field_type f =? 76) = true) as -> by (destruct Ht as [-> | ->]; done).
    rewrite (proj2 (Nat.ltb_ge _ _)) by lia. rewrite (read_int_le w v 0 0) by lia.
    do 3 f_equal; [f_equal; lia|lia].
  - destruct (Hb (length t) t eq_refl eq_refl) as (-> & Hsl & Hlb). cbn [mbind res_bind].
    rewrite Nat2Z.id, Hsl, Hlb, (proj2 (Nat.ltb_ge _ _)) by lia. cbn [mbind res_bind].
    rewrite Ht. simpl. do 3 f_equal. lia.
Qed.

Lemma decode_record_encoded fs vs b : row_encodes fs vs b -> forall pre post record,
  decode_record fs (pre ++ b ++ post) (length pre) record =
  Ok (Some (row_record fs vs record, (length pre + length b)%nat)).
Proof.
  induction 1 as [|f fs v vs b bs Hb _ IH]; intros pre post record; cbn [decode_record].
  { simpl. by rewrite Nat.add_0_r. }
  rewrite <- app_assoc, (decode_value_encoded f v b) by done. cbn [mbind res_bind].
  rewrite (app_assoc pre), <- length_app, IH. do 3 f_equal. rewrite !length_app. lia.
Qed.

Lemma decode_records_encoded fs rows chunks : Forall2 (row_encodes fs) rows chunks -> fs <> [] ->
  forall fuel pre, (length (concat chunks) <= fuel)%nat ->
  decode_records fuel fs (pre ++ concat chunks) (length pre) =
  Ok (Some (map (fun row => row_record fs row ∅) rows)).
Proof.
  intros H Hfs. induction H as [|row b rows chunks Hb _ IH]; intros fuel pre Hf; cbn [concat map] in *.
  { destruct fuel; simpl; by rewrite app_nil_r, (proj2 (Nat.leb_le _ _)) by lia. }
  destruct (row_encodes_ok _ _ _ Hb) as [_ Hlen]. destruct fs as [|f fs]; [done|]. simpl in Hlen.
  rewrite length_app in Hf. destruct fuel as [|fuel]; [lia|]. cbn [decode_records].
  rewrite (proj2 (Nat.leb_gt _ _)) by (rewrite !length_app; lia).
  rewrite (decode_record_encoded _ _ _ Hb). cbn [mbind res_bind].
  rewrite (app_assoc pre), <- length_app, IH by lia. done.
Qed.

Lemma rows_bytes_ok fs rows chunks : Forall2 (row_encodes fs) rows chunks -> bytes_ok (concat chunks).
Proof.
  induction 1 as [|row b rows chunks Hb _ IH]; simpl; [done|]. apply Forall_app. split; [|done].
  by apply (row_encodes_ok _ _ _ Hb).
Qed.

(** ** Key/value text *)

Definition pair_text (kv : list Z * list Z) : list Z := kv.1 ++ 61 :: kv.2.

Definition pair_ok (kv : list Z * list Z) : Prop :=
  kv.1 <> [] /\ Forall (fun c => wordChar c = true) kv.1 /\
  kv.2 <> [] /\ Forall (fun c => valueChar c = true) kv.2.

(** One turn of the scanner on a pair that ends at a comma or at the end. *)
Lemma scan_pair fuel kv next : pair_ok kv -> next = [] \/ (exists rest, next = 44 :: rest) ->
  scan_pairs (S fuel) (pair_text kv ++ next) = kv :: scan_pairs fuel next.
Proof.
  intros (Hk & Hkw & Hv & Hvw) Hnext. destruct kv as [key value]. unfold pair_text. simpl in *.
  rewrite <- app_assoc. simpl. destruct key as [|k key]; [done|]. cbn [app scan_pairs].
  rewrite app_comm_cons, span_while_app; [|done|by intros; simplify_eq].
  rewrite span_while_app; [|done|].
  - destruct value; [done|]. done.
  - intros b c' ->. by destruct Hnext as [|[rest ?]]; simplify_eq.
Qed.

Lemma scan_join pairs : Forall pair_ok pairs -> forall fuel,
  (length (join_names (map pair_text pairs)) <= fuel)%nat ->
  scan_pairs fuel (join_names (map pair_text pairs)) = pairs.
Proof.
  induction 1 as [|kv pairs Hkv _ IH]; intros fuel Hf; [by destruct fuel|].
  assert (1 <= length (pair_text kv))%nat by (unfold pair_text; rewrite length_app; simpl; lia).
  destruct pairs as [|kv' pairs]; cbn [map join_names] in *.
  - destruct fuel as [|fuel]; [lia|]. rewrite <- (app_nil_r (pair_text kv)), scan_pair by auto.
    by destruct fuel.
  - rewrite length_app in Hf. cbn [length] in Hf. destruct fuel as [|[|fuel]]; [lia|lia|].
    rewrite scan_pair by eauto. f_equal. cbn [scan_pairs span_while]. apply IH. cbn [map join_names]. lia.
Qed.

(** Whatever the scanner finds is in the text and has the shape of a pair. *)
Lemma scan_sound fuel : forall text kv, kv ∈ scan_pairs fuel text ->
  pair_ok kv /\ exists before after, text = before ++ pair_text kv ++ after.
Proof.
  induction fuel as [|fuel IH]; intros text kv Hin; [by apply not_elem_of_nil in Hin|].
  assert (forall pre rest, kv ∈ scan_pairs fuel rest -> text = pre ++ rest ->
    pair_ok kv /\ exists before after, text = before ++ pair_text kv ++ after) as Hrec.
  { intros pre rest Hr ->. destruct (IH rest kv Hr) as (Hok & b & a & ->).
    split; [done|]. exists (pre ++ b), a. by rewrite <- app_assoc. }
  destruct text as [|c0 text0]; [by apply not_elem_of_nil in Hin|]. cbn [scan_pairs] in Hin.
  destruct (span_while wordChar (c0 :: text0)) as [key after] eqn:Hspan.
  apply span_while_spec in Hspan as (Htext & Hkey & _).
  destruct key as [|k key].
  { apply (Hrec (take 1 after) (drop 1 after) Hin). by rewrite take_drop. }
  destruct after as [|c after]; [apply (Hrec (k :: key) [] Hin Htext)|].
  destruct (c =? 61) eqn:Hc; [|apply (Hrec ((k :: key) ++ [c]) after Hin); by rewrite <- app_assoc].
  apply Z.eqb_eq in Hc. subst c. destruct (span_while valueChar after) as [value next] eqn:Hv.
  apply span_while_spec in Hv as (-> & Hval & _). destruct value as [|v value].
  - apply (Hrec ((k :: key) ++ [61]) next Hin). by rewrite <- app_assoc.
  - apply elem_of_cons in Hin as [-> | Hin].
    + split; [by split_and!|]. exists [], next. unfold pair_text. simpl. rewrite <- app_assoc. done.
    + apply (Hrec ((k :: key) ++ 61 :: v :: value) next Hin). rewrite <- app_assoc. done.
Qed.

Lemma fold_record_lookup (pairs : list (list Z * list Z)) : forall (acc : gmap (list Z) (list Z)) k v,
  NoDup (map fst pairs) -> (forall key, key ∈ map fst pairs -> acc !! key = None) ->
  foldl (fun record '(key, value) => <[key := value]> record) acc pairs !! k = Some v <->
  (k, v) ∈ pairs \/ acc !! k = Some v.
Proof.
  induction pairs as [|[key value] pairs IH]; intros acc k v Hnd Hacc; simpl.
  { rewrite elem_of_nil. naive_solver. }
  apply NoDup_cons in Hnd as [Hk Hnd]. simpl in *. rewrite IH; [|done|].
  - rewrite elem_of_cons, lookup_insert_Some. split; [naive_solver|].
    intros [[Heq|Hin]|Hsome]; [simplify_eq; naive_solver|by left|].
    right; right. split; [|done]. intros ->. rewrite Hacc in Hsome by left. done.
  - intros key' Hin. rewrite lookup_insert_ne by (intros ->; done). apply Hacc. by right.
Qed.

(** ** Packed times *)

Definition time_ok (t : C3DateTime) : Prop :=
  2000 <= year t /\ 1 <= month t <= 12 /\ 1 <= day t <= 31 /\ 0 <= hour t < 24 /\
  0 <= minute t < 60 /\ 0 <= second t < 60.

(** The packing the panel uses: every month counts 31 days. *)
Definition pack_time (t : C3DateTime) : Z :=
  (((((year t - 2000) * 12 + (month t - 1)) * 31 + (day t - 1)) * 24 + hour t) * 60 + minute t) * 60
  + second t.

Lemma time_pack value : 0 <= value -> time_ok (DecodeC3Time value) /\ pack_time (DecodeC3Time value) = value.
Proof. intros. unfold time_ok, pack_time, DecodeC3Time. cbn [year month day hour minute second]. lia. Qed.

Lemma div_mod_digit q r m : 0 <= r < m -> (q * m + r) / m = q /\ (q * m + r) mod m = r.
Proof.
  intros. rewrite Z.div_add_l, Z.div_small by lia. rewrite (Z.add_comm (q * m)), Z_mod_plus_full, Z.mod_small by lia. lia.
Qed.

Lemma pack_time_decode t : time_ok t -> DecodeC3Time (pack_time t) = t.
Proof.
  destruct t as [y mo d h mi s]. unfold time_ok, pack_time, DecodeC3Time.
  cbn [year month day hour minute second]. intros (Hy & Hmo & Hd & Hh & Hmi & Hs).
  do 5 (match goal with |- context [(?q * ?m + ?r) / ?m] =>
    destruct (div_mod_digit q r m) as [-> ->]; [lia|] end).
  f_equal; lia.
Qed.

Lemma length_dec_digits fuel : forall n k, (1 <= k)%nat -> n < 10 ^ Z.of_nat k ->
  (length (dec_digits fuel n) <= k)%nat.
Proof.
  induction fuel as [|fuel IH]; intros n k Hk Hn; cbn [dec_digits]; [simpl; lia|].
  destruct (n <? 10) eqn:E; [simpl; lia|]. apply Z.ltb_ge in E. rewrite length_app. simpl.
  destruct k as [|[|k]]; [lia|simpl in Hn; lia|].
  enough (length (dec_digits fuel (n / 10)) <= S k)%nat by lia. apply IH; [lia|].
  rewrite (Nat2Z.inj_succ (S k)), Z.pow_succ_r in Hn by lia. apply Z.div_lt_upper_bound; lia.
Qed.

Lemma length_padded width n : (1 <= width)%nat -> n < 10 ^ Z.of_nat width ->
  length (padded_decimal width n) = width.
Proof.
  intros Hw Hn. unfold padded_decimal. rewrite length_app, length_replicate.
  pose proof (length_dec_digits (S (Z.to_nat (Z.log2 n))) n width Hw Hn). unfold decimal. lia.
Qed.

Lemma length_FormatC3Time value : 0 <= value < 2 ^ 32 -> length (FormatC3Time value) = 19%nat.
Proof.
  intros Hv. unfold FormatC3Time. destruct (time_pack value) as [Hok _]; [lia|].
  assert (year (DecodeC3Time value) < 10 ^ Z.of_nat 4) as Hy.
  { unfold DecodeC3Time. cbn [year]. change (10 ^ Z.of_nat 4) with 10000. lia. }
  unfold time_ok in Hok. change (10 ^ Z.of_nat 4) with 10000 in *.
  rewrite !length_app, !length_padded; simpl; try lia.
Qed.

(** Records in a frame. *)
Lemma DecodeRtlogBinary_encoded spare rs sid nr inc rest : Forall record_ok rs -> byte_ok spare ->
  16 * Z.of_nat (length rs) < 65532 ->
  DecodeRtlogBinary (EncodeFrame kReplyOk sid nr (concat (map (record_bytes spare) rs)) inc ++ rest) inc
    = Ok (kRtOk, rs).
Proof.
  intros Hrs Hs Hl. pose proof (length_records spare rs Hrs) as Hlen. unfold DecodeRtlogBinary.
  rewrite DecodeFrameGeneric_encoded; [|..|by left].
  - cbn [mbind res_bind]. simpl. rewrite Hlen, (proj2 (Nat.eqb_eq _ _)) by lia. simpl.
    replace ((16 * length rs) / 16)%nat with (length rs) by lia.
    pose proof (rtlog_records_bytes spare rs [] Hrs) as Hd. cbn [app length] in Hd. by rewrite Hd.
  - clear Hlen Hl. induction Hrs as [|r rs Hr Hrs IH]; simpl; [done|].
    apply Forall_app. split; [by apply record_bytes_ok|done].
  - rewrite Hlen. lia.
Qed.

(** ** Properties *)

(** The real-time log is decoded record by record to exactly what the
    panel wrote, both kinds of record and any unused bytes, with or without a
    session; a payload that is not made of 16-byte records is reported as
    "not binary mode". *)
Theorem c3_rtlog_roundtrip spare rs sid nr inc rest payload :
  Forall record_ok rs -> byte_ok spare -> 16 * Z.of_nat (length rs) < 65532 ->
  bytes_ok payload -> Z.of_nat (length payload) < 65532 ->
  DecodeRtlogBinary (EncodeFrame kReplyOk sid nr (concat (map (record_bytes spare) rs)) inc ++ rest) inc
    = Ok (kRtOk, rs) /\
  (length payload mod 16 <> 0 ->
   DecodeRtlogBinary (EncodeFrame kReplyOk sid nr payload inc ++ rest) inc = Ok (kNotBinaryMode, []))%nat.
Proof.
  intros Hrs Hs Hl Hp Hlp. split; [by apply DecodeRtlogBinary_encoded|]. unfold DecodeRtlogBinary.
  intros Hm. rewrite DecodeFrameGeneric_encoded by auto. cbn [mbind res_bind]. simpl.
  by rewrite (proj2 (Nat.eqb_neq _ _)).
Qed.

Lemma c3_rtlog_roundtrip_witness :
  let event := mkRtLog kEvent 3735928559 7 [] [] 4 1 0 2 762390000 in
  let status := mkRtLog kDoorAlarmStatus 0 0 [1; 0; 0; 0] [2; 1; 0; 0] 0 0 255 0 762390001 in
  DecodeRtlogBinary (EncodeFrame kReplyOk 9 1 (concat (map (record_bytes 0) [event; status])) true ++ []) true
    = Ok (kRtOk, [event; status]).
Proof.
  intros event status.
  refine (proj1 (c3_rtlog_roundtrip 0 [event; status] 9 1 true [] [] _ _ _ _ _)).
  - repeat constructor; unfold u32_field; simpl; lia || done.
  - unfold byte_ok. lia.
  - reflexivity.
  - constructor.
  - reflexivity.
Defined.

(** A data-table answer that returns any of the table's fields in any order
    decodes to one record per row, each integer (in whatever number of bytes
    up to eight) and each text under its field's name. *)
Theorem c3_get_data_roundtrip table indexes tableFields fs rows chunks sid nr inc rest :
  let payload := table :: Z.of_nat (length indexes) :: indexes ++ concat chunks in
  byte_ok table -> bytes_ok indexes -> (1 <= length indexes <= 255)%nat ->
  returned_fields indexes tableFields = Some fs -> Forall2 (row_encodes fs) rows chunks ->
  Z.of_nat (length payload) < 65532 ->
  DecodeGetData (EncodeFrame kReplyOk sid nr payload inc ++ rest) table tableFields inc =
  Ok (kDataOk, map (fun row => row_record fs row ∅) rows).
Proof.
  intros payload Ht Hi Hl Hfs Hrows Hlp. pose proof (rows_bytes_ok _ _ _ Hrows) as Hc.
  assert (bytes_ok payload) as Hp.
  { constructor; [done|]. constructor; [unfold byte_ok; lia|]. by apply Forall_app. }
  unfold DecodeGetData. rewrite DecodeFrameGeneric_encoded by auto. cbn [mbind res_bind Z.eqb Pos.eqb kReplyOk].
  rewrite (proj2 (Nat.ltb_ge _ _)) by (simpl; lia).
  rewrite (read_at_lookup payload 0 table), (read_at_lookup payload 1 (Z.of_nat (length indexes))) by done.
  cbn [mbind res_bind]. rewrite to_u8_id, Z.eqb_refl by done. cbn [negb]. rewrite Nat2Z.id.
  assert (length payload = 2 + length indexes + length (concat chunks))%nat as Hpl.
  { unfold payload. simpl. rewrite length_app. lia. }
  rewrite (proj2 (Nat.ltb_ge _ _)), slice_ok by lia. cbn [mbind res_bind].
  assert (take (length indexes) (drop 2 payload) = indexes) as ->.
  { unfold payload. simpl. by rewrite drop_0, take_app_le, take_ge by lia. }
  rewrite Hfs. pose proof (returned_fields_length _ _ _ Hfs) as Hfl.
  rewrite (proj2 (Nat.eqb_neq (length fs) 0)) by lia. cbn [andb].
  pose proof (decode_records_encoded fs rows chunks Hrows) as Hd.
  specialize (Hd ltac:(intros ->; simpl in Hfl; lia) (length payload) (table :: Z.of_nat (length indexes) :: indexes)
    ltac:(lia)).
  cbn [length app] in Hd. change (2 + length indexes)%nat with (S (S (length indexes))).
  unfold payload at 2. rewrite Hd. done.
Qed.

Lemma c3_get_data_roundtrip_witness :
  let card := mkField [67] 105 1 in let name := mkField [78] 115 2 in
  DecodeGetData (EncodeFrame kReplyOk 9 1 [1; 2; 2; 1; 2; 65; 66; 2; 44; 1] true ++ []) 1 [card; name] true
  = Ok (kDataOk, [row_record [name; card] [FText [65; 66]; FInt 300] ∅]).
Proof.
  intros card name.
  apply (c3_get_data_roundtrip 1 [2; 1] [card; name] [name; card] [[FText [65; 66]; FInt 300]]
    [[2; 65; 66] ++ [2; 44; 1] ++ []] 9 1 true []).
  - unfold byte_ok. lia.
  - repeat constructor; discriminate.
  - simpl. lia.
  - reflexivity.
  - constructor; [|constructor]. constructor.
    + apply (encodes_text name [65; 66]); [reflexivity|simpl; lia|repeat constructor; discriminate].
    + constructor; [|constructor]. apply (encodes_int card 300 2); [by left|lia|lia|lia].
  - reflexivity.
Defined.

(** The key/value scanner reads a comma-separated list of pairs back as
    that list, so a parameter reply with distinct names gives exactly the
    values the panel sent; and in any text at all, whatever it reports is
    there, as a non-empty name, an equals sign and a non-empty value. *)
Theorem c3_pairs_roundtrip pairs text kv sid nr inc rest :
  let reply := join_names (map pair_text pairs) in
  Forall pair_ok pairs ->
  ParseKeyValuePairs reply = pairs /\
  (kv ∈ ParseKeyValuePairs text ->
   pair_ok kv /\ exists before after, text = before ++ pair_text kv ++ after) /\
  (NoDup (map fst pairs) -> bytes_ok reply -> Z.of_nat (length reply) < 65532 -> exists values,
   DecodeGetParam (EncodeFrame kReplyOk sid nr reply inc ++ rest) inc = Ok (kOk, values) /\
   forall k v, values !! k = Some v <-> (k, v) ∈ pairs).
Proof.
  intros reply Hp. split_and!; [by apply scan_join|apply scan_sound|].
  intros Hnd Hb Hl. exists (record_of pairs). split.
  - unfold DecodeGetParam. rewrite DecodeFrameGeneric_encoded by auto. cbn [mbind res_bind Z.eqb Pos.eqb kReplyOk].
    assert (ParseKeyValuePairs reply = pairs) as Hparse by (by apply scan_join).
    destruct reply eqn:E; [|by rewrite Hparse]. by rewrite <- Hparse.
  - intros k v. unfold record_of. rewrite fold_record_lookup by (done || intros; apply lookup_empty).
    rewrite lookup_empty. naive_solver.
Qed.

Lemma c3_pairs_roundtrip_witness :
  ParseKeyValuePairs (b! "IPAddress=10.0.0.7,GATEIPAddress=10.0.0.1") =
    [(b! "IPAddress", b! "10.0.0.7"); (b! "GATEIPAddress", b! "10.0.0.1")].
Proof.
  refine (proj1 (c3_pairs_roundtrip
    [(b! "IPAddress", b! "10.0.0.7"); (b! "GATEIPAddress", b! "10.0.0.1")] [] ([], []) 0 0 true [] _)).
  repeat constructor; discriminate.
Defined.

(** The panel's packed time and the calendar fields determine each other;
    every 32-bit value decodes to fields in range and prints in 19 characters. *)
Theorem c3_time_bijective value t :
  (0 <= value < 2 ^ 32 ->
   time_ok (DecodeC3Time value) /\ pack_time (DecodeC3Time value) = value /\
   length (FormatC3Time value) = 19%nat) /\
  (time_ok t -> DecodeC3Time (pack_time t) = t).
Proof.
  split; [|apply pack_time_decode]. intros Hv. destruct (time_pack value) as [H1 H2]; [lia|].
  split_and!; [done|done|by apply length_FormatC3Time].
Qed.
