(* ===== verification/RtLog.v ===== *)
(** * Event text of the panels (src/zk_controller/RTLogParser.cpp)

    The comma-separated lines a panel's real-time log arrives in, read into
    events and door states.  Texts are byte lists. *)

From S2P Require Import Prelude Words Text.

Record RTLogEvent := mkEvent {
  e_time : list Z; e_pin : list Z; e_card : list Z;
  e_door : Z; e_type : Z; e_in_out : Z; e_verify : Z
}.
Record DoorAlarmStatus := mkDoorStatus { d_time : list Z; dss_packed : Z; alarm_packed : Z }.
Record RTLogParseResult := mkParsed { events : list RTLogEvent; statuses : list DoorAlarmStatus }.

(** Space, tab, carriage return, newline. *)
Definition Trim (s : list Z) : list Z := trim [32; 9; 13; 10] s.

Definition Split (s : list Z) (delim : Z) : list (list Z) := split_on delim s.

(** The pieces between the line ends, found from the left. *)
Fixpoint split_crlf (text : list Z) : list (list Z) :=
  match text with
  | [] => [[]]
  | c :: rest =>
      match rest with
      | d :: rest' =>
          if (c =? 13) && (d =? 10) then [] :: split_crlf rest'
          else match split_crlf rest with
               | line :: lines => (c :: line) :: lines
               | [] => [[c]]
               end
      | [] => [[c]]
      end
  end.

Definition SplitLines (text : list Z) : list (list Z) :=
  List.filter (fun line => negb (length line =? 0)%nat) (split_crlf text).

(** One line of at least seven fields. *)
Definition parse_line (line : list Z) : option (RTLogEvent + DoorAlarmStatus) :=
  match Split line 44 with
  | f0 :: f1 :: f2 :: f3 :: f4 :: f5 :: f6 :: _ =>
      if bool_decide (Trim f4 = b! "255")
      then Some (inr (mkDoorStatus f0 (to_u32 (strtoul (Trim f1))) (to_u32 (strtoul (Trim f2)))))
      else Some (inl (mkEvent f0 f1 f2 (atoi (Trim f3)) (atoi (Trim f4)) (atoi (Trim f5)) (atoi (Trim f6))))
  | _ => None
  end.

Definition add_line (result : RTLogParseResult) (line : list Z) : RTLogParseResult :=
  match parse_line line with
  | None => result
  | Some (inl event) => mkParsed (events result ++ [event]) (statuses result)
  | Some (inr status) => mkParsed (events result) (statuses result ++ [status])
  end.

(** [buffer.c_str()] ends at the first NUL. *)
Definition ParseRTLogBuffer (buffer : list Z) : RTLogParseResult :=
  foldl add_line (mkParsed [] []) (SplitLines (until 0 buffer).1).

Example parse_event :
  ParseRTLogBuffer (b! "2026-01-02 03:04:05,7,1234,1,0,0,4" ++ [13; 10] ++ b! "bad" ++ [13; 10] ++
    b! "2026-01-02 03:04:06,16909060,5,0,255,0,0" ++ [13; 10; 0; 0]) =
  mkParsed [mkEvent (b! "2026-01-02 03:04:05") (b! "7") (b! "1234") 1 0 0 4]
           [mkDoorStatus (b! "2026-01-02 03:04:06") 16909060 5].
Proof. vm_compute. reflexivity. Qed.

(** ** Lines that were written with separators *)

(** A field: no comma, no line end, no NUL. *)
Definition plain (field : list Z) : Prop := Forall (fun b => b <> 44 /\ b <> 13 /\ b <> 10 /\ b <> 0) field.

Definition crlf : list Z := [13; 10].
Abbreviation join_commas := (join_on 44).

Lemma split_join fields : Forall plain fields -> fields <> [] -> Split (join_commas fields) 44 = fields.
Proof.
  intros H. apply split_join_on. eapply Forall_impl; [exact H|]. intros f Hf Hin. unfold plain in Hf.
  rewrite Forall_forall in Hf. by destruct (Hf 44 Hin).
Qed.

Lemma split_crlf_cons c rest : c <> 13 -> split_crlf (c :: rest) =
  match split_crlf rest with line :: lines => (c :: line) :: lines | [] => [[c]] end.
Proof. intros Hc. destruct rest as [|d rest]; [done|]. cbn [split_crlf]. by rewrite (proj2 (Z.eqb_neq c 13)). Qed.

(** A line without line ends, followed by one. *)
Lemma split_crlf_line line rest : Forall (fun b => b <> 13) line ->
  split_crlf (line ++ crlf ++ rest) = line :: split_crlf rest.
Proof.
  induction 1 as [|c line Hc _ IH]; [done|]. cbn [app]. by rewrite split_crlf_cons, IH by done.
Qed.

(** Whole lines are read back, in order. *)
Lemma SplitLines_lines lines : Forall (fun l => l <> [] /\ Forall (fun b => b <> 13) l) lines ->
  SplitLines (concat (map (fun l => l ++ crlf) lines)) = lines.
Proof.
  unfold SplitLines. induction 1 as [|l lines [Hne Hl] _ IH]; [done|].
  cbn [map concat]. rewrite <- app_assoc, split_crlf_line by done. cbn [List.filter].
  destruct l as [|b l]; [done|]. cbn [length Nat.eqb negb]. by rewrite IH.
Qed.

Lemma until_no_nul text : Forall (fun b => b <> 0) text -> (until 0 text).1 = text.
Proof.
  intros H. pose proof (until_unique 0 text [] (fun Hin => proj1 (Forall_forall _ _) H 0 Hin eq_refl) (or_introl eq_refl)) as E.
  rewrite app_nil_r in E. by rewrite E.
Qed.

(** Decimal fields. *)
Lemma decimal_digit n b : 0 <= n -> b ∈ decimal n -> 48 <= b <= 57.
Proof. intros Hn Hb. destruct (decimal_spec n Hn) as (H & _ & _). rewrite Forall_forall in H. by apply H. Qed.

Lemma decimal_plain n : 0 <= n -> plain (decimal n).
Proof. intros Hn. apply Forall_forall. intros b Hb. pose proof (decimal_digit n b Hn Hb). lia. Qed.

Lemma trim_text_id set text : (forall b, b ∈ text -> b ∉ set) -> trim set text = text.
Proof.
  intros H. destruct (decide (text = [])) as [->|Hne]; [done|].
  pose proof (trim_spec set [] text []) as E. rewrite app_nil_r in E. apply E; try done.
  - intros b Hb. apply H. destruct text; [done|]. injection Hb as ->. by left.
  - intros b Hb. apply H. apply last_Some in Hb as [l ->]. apply elem_of_app. right. by left.
Qed.

Lemma Trim_decimal n : 0 <= n -> Trim (decimal n) = decimal n.
Proof.
  intros Hn. apply trim_text_id. intros b Hb Hin. pose proof (decimal_digit n b Hn Hb).
  repeat (apply elem_of_cons in Hin as [->|Hin]; [lia|]). by apply not_elem_of_nil in Hin.
Qed.

Lemma skip_spaces_digits text : (forall b, head text = Some b -> 48 <= b <= 57) -> skip_spaces text = text.
Proof.
  destruct text as [|b text]; [done|]. intros H. specialize (H b eq_refl). simpl.
  unfold isspace. rewrite (proj2 (Z.eqb_neq b 32)), (proj2 (Z.leb_gt b 13)), andb_false_r by lia. done.
Qed.

Lemma decimal_digits n : 0 <= n -> (until 0 (decimal n)).1 = decimal n /\ skip_spaces (decimal n) = decimal n /\
  (span_while is_digit (decimal n)).1 = decimal n /\ (exists d ds, decimal n = d :: ds /\ 48 <= d <= 57).
Proof.
  intros Hn. destruct (decimal_spec n Hn) as (Hd & Hne & _). split_and!.
  - apply until_no_nul. eapply Forall_impl; [exact Hd|]. simpl. lia.
  - apply skip_spaces_digits. intros b Hb. apply (decimal_digit n); [done|].
    destruct (decimal n); [done|]. injection Hb as ->. by left.
  - pose proof (span_while_app is_digit (decimal n) []) as E. rewrite app_nil_r in E. rewrite E; [done| |done].
    eapply Forall_impl; [exact Hd|]. intros b Hb. simpl in Hb. unfold is_digit.
    by rewrite (proj2 (Z.leb_le _ _)), (proj2 (Z.leb_le _ _)) by lia.
  - destruct (decimal n) as [|d ds] eqn:E; [done|]. exists d, ds. split; [done|]. apply (decimal_digit n); [done|].
    rewrite E. by left.
Qed.

Lemma strtol_decimal n : 0 <= n < 2 ^ 63 -> strtol (decimal n) = n.
Proof.
  intros [Hn Hlt]. destruct (decimal_digits n Hn) as (H1 & H2 & H3 & d & ds & E & Hd).
  destruct (decimal_spec n Hn) as (_ & _ & Hv). unfold strtol. rewrite H1, H2.
  assert (match decimal n with 45 :: rest => (true, rest) | 43 :: rest => (false, rest) | rest => (false, rest) end
    = (false, decimal n)) as ->.
  { rewrite E. destruct d as [|p|p]; [done| |done].
    do 6 (destruct p as [p|p|]; try done; try (simpl in Hd; lia)). }
  rewrite H3, Hv. lia.
Qed.

Lemma strtoul_decimal n : 0 <= n < 2 ^ 64 -> strtoul (decimal n) = n.
Proof.
  intros [Hn Hlt]. destruct (decimal_digits n Hn) as (H1 & H2 & H3 & d & ds & E & Hd).
  destruct (decimal_spec n Hn) as (_ & _ & Hv). unfold strtoul. rewrite H1, H2.
  assert (match decimal n with 45 :: rest => (true, rest) | 43 :: rest => (false, rest) | rest => (false, rest) end
    = (false, decimal n)) as ->.
  { rewrite E. destruct d as [|p|p]; [done| |done].
    do 6 (destruct p as [p|p|]; try done; try (simpl in Hd; lia)). }
  rewrite H3, Hv. by rewrite (proj2 (Z.leb_gt _ _)).
Qed.

Lemma atoi_decimal n : 0 <= n < 2 ^ 31 -> atoi (decimal n) = n.
Proof. intros Hn. unfold atoi. rewrite strtol_decimal by lia. apply to_int32_id. lia. Qed.
