(* ===== verification/C3Client.v ===== *)
(** * The C3 panel client (src/zk_controller/C3Client.cpp)

    A connection to an access-control panel: session establishment with its
    fall-back, one request at a time with its reply cut from the stream, door
    control, parameters and the event log as text.  The socket is that of
    [TcpSocket]; [dial] is what a [socket_.Connect] comes back with.  A
    [NotReady] event of the socket stands for the deadline of a reply passing,
    whether inside [Receive] or between two calls of it. *)

From stdpp Require Import relations.
From S2P Require Import Prelude Words Text Crc16 TcpSocket C3Codec C3Replies RtLog.

(** ** State *)

Record C3Client := mkC3 {
  socket_ : TcpSocket;
  host_ : list Z; port_ : Z; timeoutMs_ : Z; password_ : list Z;
  connected_ : bool; sessionLess_ : bool; sessionId_ : Z; requestNr_ : Z;
  lastError_ : list Z; carry_ : list Z; rtlogKeyValueMode_ : bool
}.

Definition no_socket : TcpSocket := mkSocket false [] [] [].
Definition new_c3 : C3Client := mkC3 no_socket [] 4370 2000 [] false false 0 0 [] [] false.

Definition with_socket (c : C3Client) (s : TcpSocket) : C3Client :=
  mkC3 s (host_ c) (port_ c) (timeoutMs_ c) (password_ c) (connected_ c) (sessionLess_ c) (sessionId_ c)
    (requestNr_ c) (lastError_ c) (carry_ c) (rtlogKeyValueMode_ c).
Definition with_carry (c : C3Client) (carry : list Z) : C3Client :=
  mkC3 (socket_ c) (host_ c) (port_ c) (timeoutMs_ c) (password_ c) (connected_ c) (sessionLess_ c) (sessionId_ c)
    (requestNr_ c) (lastError_ c) carry (rtlogKeyValueMode_ c).
Definition with_error (c : C3Client) (error : list Z) : C3Client :=
  mkC3 (socket_ c) (host_ c) (port_ c) (timeoutMs_ c) (password_ c) (connected_ c) (sessionLess_ c) (sessionId_ c)
    (requestNr_ c) error (carry_ c) (rtlogKeyValueMode_ c).
Definition with_connected (c : C3Client) (connected : bool) : C3Client :=
  mkC3 (socket_ c) (host_ c) (port_ c) (timeoutMs_ c) (password_ c) connected (sessionLess_ c) (sessionId_ c)
    (requestNr_ c) (lastError_ c) (carry_ c) (rtlogKeyValueMode_ c).
Definition with_session (c : C3Client) (sessionLess : bool) (sessionId requestNr : Z) : C3Client :=
  mkC3 (socket_ c) (host_ c) (port_ c) (timeoutMs_ c) (password_ c) (connected_ c) sessionLess sessionId
    requestNr (lastError_ c) (carry_ c) (rtlogKeyValueMode_ c).
Definition with_mode (c : C3Client) (keyValue : bool) : C3Client :=
  mkC3 (socket_ c) (host_ c) (port_ c) (timeoutMs_ c) (password_ c) (connected_ c) (sessionLess_ c) (sessionId_ c)
    (requestNr_ c) (lastError_ c) (carry_ c) keyValue.
Definition with_target (c : C3Client) (host : list Z) (port timeoutMs : Z) (password : list Z) : C3Client :=
  mkC3 (socket_ c) host port timeoutMs password (connected_ c) (sessionLess_ c) (sessionId_ c)
    (requestNr_ c) (lastError_ c) (carry_ c) (rtlogKeyValueMode_ c).

(** ** Connection strings *)

(** [needle] is the key with its equals sign; a token that is nothing else
    does not match. *)
Definition token_matches (needle token : list Z) : bool :=
  (length needle <? length token)%nat &&
  bool_decide (map tolower (take (length needle) token) = map tolower needle).

Definition FieldFrom (connectionString key : list Z) : list Z :=
  let needle := key ++ [61] in
  match List.find (token_matches needle) (split_on 44 connectionString) with
  | Some token => drop (length needle) token
  | None => []
  end.

(** ** One request, one reply *)

Definition IsConnected (c : C3Client) : bool := connected_ c && IsOpen (socket_ c).

Definition NextRequestNr (c : C3Client) : Z * C3Client :=
  let n := Z.land (requestNr_ c + 1) 0xFFFF in
  (n, with_session c (sessionLess_ c) (sessionId_ c) n).

(** The bytes the socket still has to give. *)
Definition pending (s : TcpSocket) : nat :=
  length (incoming s) + length (concat (map event_bytes (incoming s))).

(** Every turn that goes on took a byte from the socket. *)
Fixpoint read_frame (fuel : nat) (c : C3Client) : res (option (list Z) * C3Client) :=
  needed ← FrameSize (carry_ c);
  if (0 <? needed)%nat && (needed <=? length (carry_ c))%nat
  then Ok (Some (take needed (carry_ c)), with_carry c (drop needed (carry_ c)))
  else
    let '(chunk, s) := Receive (socket_ c) 4096 in
    let c1 := with_socket c s in
    match chunk with
    | None | Some [] => Ok (None, c1)
    | Some bytes =>
        let c2 := with_carry c1 (carry_ c1 ++ bytes) in
        if 1024 * 1024 <? Z.of_nat (length (carry_ c2))
        then Ok (None, with_carry (with_error c2 (b! "the panel sent more than 1 MB without a complete frame")) [])
        else match fuel with
        | O => Fault
        | S fuel' => read_frame fuel' c2
        end
    end.

Definition ReadOneFrame (c : C3Client) : res (option (list Z) * C3Client) :=
  read_frame (pending (socket_ c)) c.

Definition Transact (c : C3Client) (request : list Z) : res (option (list Z) * C3Client) :=
  if negb (IsOpen (socket_ c)) then Ok (None, with_error c (b! "not connected"))
  else
    let '(ok, s) := Send (socket_ c) request in
    let c1 := with_socket c s in
    if negb ok then Ok (None, with_connected (with_error c1 (b! "failed to send to the panel")) false)
    else
      '(reply, c2) ← ReadOneFrame c1;
      match reply with
      | Some frame => Ok (Some frame, c2)
      | None =>
          Ok (None, match lastError_ c2 with
            | [] => with_error c2 (b! "the panel did not reply within " ++ bytes_of (to_string (timeoutMs_ c2)) ++ b! " ms")
            | _ => c2
            end)
      end.

(** ** Connecting *)

Definition Disconnect (c : C3Client) : C3Client :=
  let c1 :=
    if connected_ c && IsOpen (socket_ c) then
      let '(frame, c') :=
        if sessionLess_ c then (EncodeSessionLessDisconnect, c)
        else let '(n, c') := NextRequestNr c in (EncodeDisconnect (sessionId_ c') n, c') in
      with_socket c' (Send (socket_ c') frame).2
    else c in
  with_carry (with_session (with_connected (with_socket c1 (Close (socket_ c1))) false) false 0 (requestNr_ c1)) [].

(** The session-less connection, on a second socket. *)
Definition connect_session_less (c : C3Client) (dial : option TcpSocket) : res (bool * C3Client) :=
  let c := with_carry (with_socket c (Close (socket_ c))) [] in
  match dial with
  | None =>
      Ok (false, with_error c (b! "cannot reach " ++ host_ c ++ b! ":" ++ bytes_of (to_string (port_ c))
                               ++ b! " for a session-less connect"))
  | Some s =>
      '(reply, c1) ← Transact (with_socket c s) (EncodeConnectSessionLess (password_ c));
      match reply with
      | None =>
          let c2 := with_error c1 (b! "no reply to either CONNECT_SESSION or CONNECT_SESSION_LESS") in
          Ok (false, with_socket c2 (Close (socket_ c2)))
      | Some frame =>
          status ← DecodeGenericReply frame;
          match status with
          | kOk => Ok (true, with_connected (with_session c1 true 0 (requestNr_ c1)) true)
          | kRejected =>
              let c2 := with_error c1 (b! "the panel rejected the connection (wrong password?)") in
              Ok (false, with_socket c2 (Close (socket_ c2)))
          | _ =>
              let c2 := with_error c1 (b! "the panel's connect reply was malformed") in
              Ok (false, with_socket c2 (Close (socket_ c2)))
          end
      end
  end.

Definition first_text (a b : list Z) : list Z := match a with [] => b | _ => a end.

Definition Connect (c : C3Client) (connectionString : list Z) (dial dial2 : option TcpSocket) : res (bool * C3Client) :=
  let c := with_error (Disconnect c) [] in
  let host := first_text (FieldFrom connectionString (b! "ipaddress")) (FieldFrom connectionString (b! "ip")) in
  let portText := FieldFrom connectionString (b! "port") in
  let timeoutText := FieldFrom connectionString (b! "timeout") in
  let password := FieldFrom connectionString (b! "passwd") in
  match host with
  | [] => Ok (false, with_error (with_target c host (port_ c) (timeoutMs_ c) password)
                       (b! "no ipaddress in the connection string"))
  | _ =>
      let port := match portText with [] => 4370 | _ => atoi portText end in
      let timeoutMs := match timeoutText with [] => 2000 | _ => atoi timeoutText end in
      let c := with_target c host port (if timeoutMs <? 500 then 500 else timeoutMs) password in
      match dial with
      | None => Ok (false, with_error (with_socket c (Close (socket_ c)))
                             (b! "cannot reach " ++ host ++ b! ":" ++ bytes_of (to_string port)))
      | Some s =>
          let c := with_session (with_carry (with_socket c s) []) (sessionLess_ c) (sessionId_ c) 0 in
          '(reply, c1) ← Transact c (EncodeConnectSession password);
          match reply with
          | None => connect_session_less c1 dial2
          | Some frame =>
              '(status, session_id) ← DecodeConnectSession frame;
              match status with
              | kOk => Ok (true, with_connected (with_session c1 false session_id 0) true)
              | _ => connect_session_less c1 dial2
              end
          end
      end
  end.

(** ** Commands *)

(** The result text, what is written to [retOut], the client. *)
Definition text_result : Type := (list Z * Z) * C3Client.

Definition not_connected (c : C3Client) : C3Client := with_error c (b! "not connected").

(** An object of the JSON library keeps its members in the order of their keys. *)
Definition sorted_values (values : gmap (list Z) (list Z)) : list (list Z * list Z) :=
  sort_by (fun a b => lex_leb a.1 b.1) (map_to_list values).

Definition param_text (values : gmap (list Z) (list Z)) : list Z :=
  foldl (fun out '(key, value) => (match out with [] => [] | _ => out ++ [44] end) ++ key ++ 61 :: value) []
    (sorted_values values).

Definition GetDeviceParam (c : C3Client) (items : list Z) : res text_result :=
  if negb (IsConnected c) then Ok (([], -1), not_connected c)
  else
    let names := List.filter (fun name => negb (length name =? 0)%nat) (split_on 44 items) in
    let '(n, c1) := NextRequestNr c in
    '(reply, c2) ← Transact c1 (EncodeGetParam names (negb (sessionLess_ c1)) (sessionId_ c1) n);
    match reply with
    | None => Ok (([], -1), c2)
    | Some frame =>
        '(status, values) ← DecodeGetParam frame (negb (sessionLess_ c2));
        match status with
        | kOk => let out := param_text values in Ok ((out, to_int32 (Z.of_nat (length out))), c2)
        | _ => Ok (([], -1), with_error c2 (b! "GETPARAM was rejected by the panel"))
        end
    end.

Definition SetDeviceParam (c : C3Client) : Z * C3Client :=
  (-1, with_error c (b! "SetDeviceParam is not supported by the C3 backend (no SETPARAM in this command set)")).

Definition operation_of (operationId : Z) : option ControlOperation :=
  if operationId =? 1 then Some kOutput else if operationId =? 2 then Some kCancelAlarm
  else if operationId =? 3 then Some kRestartDevice else if operationId =? 4 then Some kEnableDisableNormalOpen
  else None.

Definition ControlDevice (c : C3Client) (operationId param1 param2 param3 : Z) : res (Z * C3Client) :=
  if negb (IsConnected c) then Ok (-1, not_connected c)
  else match operation_of operationId with
  | None => Ok (-1, with_error c (b! "unknown control operation " ++ bytes_of (to_string operationId)))
  | Some operation =>
      let '(n, c1) := NextRequestNr c in
      '(reply, c2) ← Transact c1 (EncodeControl operation (to_u8 param1) (to_u8 param2) (to_u8 param3)
                                    (negb (sessionLess_ c1)) (sessionId_ c1) n);
      match reply with
      | None => Ok (-1, c2)
      | Some frame =>
          status ← DecodeGenericReply frame;
          match status with
          | kOk => Ok (0, c2)
          | kRejected => Ok (-1, with_error c2 (b! "the panel rejected the control command"))
          | _ => Ok (-1, with_error c2 (b! "the panel's control reply was malformed"))
          end
      end
  end.

(** ** The event log as text *)

(** Four bytes, the first one lowest; missing ones are zero. *)
Definition pack_status (bytes : list Z) : Z :=
  foldl (fun v i => Z.lor (to_u32 (Z.shiftl v 8)) (nth i bytes 0)) 0 [3; 2; 1; 0]%nat.

Definition num (n : Z) : list Z := bytes_of (to_string n).

Definition rtlog_fields (record : RtLogRecord) : list (list Z) :=
  let time := FormatC3Time (time_second record) in
  match kind record with
  | kDoorAlarmStatus =>
      [time; num (pack_status (dss_status record)); num (pack_status (alarm_status record)); b! "0"; b! "255"; b! "0";
       num (verified record)]
  | kEvent =>
      [time; num (pin record); num (card_no record); num (door_id record); num (event_type record);
       num (in_out_state record); num (verified record)]
  end.

Definition rtlog_line (record : RtLogRecord) : list Z := join_commas (rtlog_fields record) ++ crlf.

Definition kv_line (record : gmap (list Z) (list Z)) : list Z :=
  let field key fallback := default fallback (record !! key) in
  join_commas [field (b! "time") []; field (b! "pin") (b! "0"); field (b! "cardno") (b! "0"); field (b! "door") (b! "0");
               field (b! "eventtype") (b! "0"); field (b! "inoutstate") (b! "0"); field (b! "verified") (b! "0")] ++ crlf.

(** The second half, in key/value mode. *)
Definition get_rtlog_key_value (c : C3Client) : res text_result :=
  let '(n, c1) := NextRequestNr c in
  '(reply, c2) ← Transact c1 (EncodeRtlogKeyValueRequest (negb (sessionLess_ c1)) (sessionId_ c1) n);
  match reply with
  | None => Ok (([], -1), c2)
  | Some frame =>
      '(status, records) ← DecodeRtlogKeyValue frame (negb (sessionLess_ c2));
      match status with
      | kOk => let csv := concat (map kv_line records) in Ok ((csv, to_int32 (Z.of_nat (length csv))), c2)
      | _ => Ok (([], -1), with_error c2 (b! "RTLOG (key/value) was rejected by the panel"))
      end
  end.

Definition GetRTLog (c : C3Client) : res text_result :=
  if negb (IsConnected c) then Ok (([], -1), not_connected c)
  else if rtlogKeyValueMode_ c then get_rtlog_key_value c
  else
    let '(n, c1) := NextRequestNr c in
    '(reply, c2) ← Transact c1 (EncodeRtlogBinaryRequest (negb (sessionLess_ c1)) (sessionId_ c1) n);
    match reply with
    | None => Ok (([], -1), c2)
    | Some frame =>
        '(status, records) ← DecodeRtlogBinary frame (negb (sessionLess_ c2));
        match status with
        | kNotBinaryMode => get_rtlog_key_value (with_mode c2 true)
        | kRtOk => let csv := concat (map rtlog_line records) in Ok ((csv, to_int32 (Z.of_nat (length csv))), c2)
        | _ => Ok (([], -1), with_error c2 (b! "RTLOG was rejected by the panel"))
        end
    end.

(** ** Reading one frame *)

Lemma Receive_pending s n bytes s' : (0 < n)%nat -> Receive s n = (Some bytes, s') ->
  (0 < length bytes)%nat /\ (pending s' < pending s)%nat.
Proof.
  unfold Receive, pending. intros Hn H. destruct (negb (IsOpen s)); [done|].
  destruct (incoming s) as [|[| |[|b bs]] rest]; try done. injection H as <- <-. cbn [incoming].
  destruct n as [|n]; [lia|]. cbn [take drop map concat event_bytes length].
  split; [lia|]. pose proof (length_drop bs n) as Hd. destruct (drop n bs) as [|x l];
    cbn [push_back_data map concat event_bytes length] in *; rewrite ?length_app; cbn [length] in *;
    rewrite ?length_app; cbn [length]; lia.
Qed.

(** The fuel is enough: a turn that goes on has taken a byte. *)
Lemma read_frame_total fuel : forall c, (pending (socket_ c) <= fuel)%nat -> exists r, read_frame fuel c = Ok r.
Proof.
  induction fuel as [|fuel IH]; intros c Hp; cbn [read_frame];
    destruct (FrameSize_total (carry_ c)) as [n ->]; cbn [mbind res_bind];
    (destruct (_ && _)%bool; [by eexists|]); destruct (Receive (socket_ c) 4096) as [[[|b bytes]|] s] eqn:E;
    try by eexists.
  - apply Receive_pending in E; [lia|lia].
  - destruct (_ <? _); [by eexists|]. apply Receive_pending in E; [|lia]. apply IH. simpl. lia.
Qed.

Lemma FrameSize_prefix pre l : (5 <= length pre)%nat -> FrameSize (pre ++ l) = FrameSize pre.
Proof.
  intros H. unfold FrameSize, ReadU16le, read_at. rewrite length_app, !lookup_app_l by lia.
  by rewrite !(proj2 (Nat.ltb_ge _ _)) by lia.
Qed.

(** A frame that says its own size. *)
Definition framed (frame : list Z) : Prop :=
  FrameSize frame = Ok (length frame) /\ 8 <= Z.of_nat (length frame) < 65544.

Lemma framed_encoded command sid nr payload inc : Z.of_nat (length payload) < 65532 ->
  framed (EncodeFrame command sid nr payload inc).
Proof.
  intros Hl. split; [|by apply length_EncodeFrame]. pose proof (FrameSize_encoded command sid nr payload inc [] Hl) as H.
  by rewrite app_nil_r in H.
Qed.

(** Only the socket and the buffer change while a frame is read. *)
Definition reading (c : C3Client) (s : TcpSocket) (carry : list Z) : C3Client := with_carry (with_socket c s) carry.

Lemma read_frame_delivers frame rest : framed frame -> forall fuel c stream,
  delivers (socket_ c) stream -> carry_ c ++ stream = frame ++ rest -> (pending (socket_ c) <= fuel)%nat ->
  exists s' carry' stream', read_frame fuel c = Ok (Some frame, reading c s' carry') /\
    delivers s' stream' /\ carry' ++ stream' = rest /\
    sent s' = sent (socket_ c) /\ send_results s' = send_results (socket_ c).
Proof.
  intros [Hsize Hlen]. induction fuel as [fuel IH] using lt_wf_ind. intros c stream Hd Heq Hp.
  assert (read_frame fuel c = (needed ← FrameSize (carry_ c);
    if (0 <? needed)%nat && (needed <=? length (carry_ c))%nat
    then Ok (Some (take needed (carry_ c)), with_carry c (drop needed (carry_ c)))
    else
      let '(chunk, s) := Receive (socket_ c) 4096 in
      let c1 := with_socket c s in
      match chunk with
      | None | Some [] => Ok (None, c1)
      | Some bytes =>
          let c2 := with_carry c1 (carry_ c1 ++ bytes) in
          if 1024 * 1024 <? Z.of_nat (length (carry_ c2))
          then Ok (None, with_carry (with_error c2 (b! "the panel sent more than 1 MB without a complete frame")) [])
          else match fuel with O => Fault | S fuel' => read_frame fuel' c2 end
      end)) as -> by (by destruct fuel).
  destruct (decide (length frame <= length (carry_ c))%nat) as [Hle|Hgt].
  - assert (carry_ c = frame ++ drop (length frame) (carry_ c)) as Hc.
    { pose proof (f_equal (take (length frame)) Heq) as E. rewrite take_app_length, take_app_le in E by done.
      rewrite <- E at 1. by rewrite take_drop. }
    rewrite Hc, FrameSize_prefix, Hsize by lia. cbn [mbind res_bind]. rewrite <- Hc.
    rewrite (proj2 (Nat.ltb_lt _ _)), (proj2 (Nat.leb_le _ _)) by lia. cbn [andb].
    exists (socket_ c), (drop (length frame) (carry_ c)), stream. split_and!; try done.
    + assert (take (length frame) (carry_ c) = frame) as -> by (rewrite Hc; by rewrite take_app_length).
      by destruct c.
    + rewrite Hc, <- app_assoc in Heq. by apply app_inv_head in Heq.
  - assert (exists tail, frame = carry_ c ++ tail) as [tail Ht].
    { exists (drop (length (carry_ c)) frame). pose proof (f_equal (take (length (carry_ c))) Heq) as E.
      rewrite take_app_length, take_app_le in E by lia. rewrite E at 1. by rewrite take_drop. }
    assert (exists n, FrameSize (carry_ c) = Ok n /\ ((0 <? n)%nat && (n <=? length (carry_ c))%nat) = false) as (n & -> & Hn).
    { destruct (decide (5 <= length (carry_ c))%nat) as [H5|H5].
      - exists (length frame). split; [by rewrite <- Hsize, Ht, FrameSize_prefix by done|].
        by rewrite (proj2 (Nat.leb_gt _ _)), andb_false_r by lia.
      - exists 0%nat. split; [|done]. unfold FrameSize. by rewrite (proj2 (Nat.ltb_lt _ _)) by lia. }
    cbn [mbind res_bind]. rewrite Hn.
    destruct (Receive_delivers (socket_ c) stream 4096) as (got & s1 & E & Hgot & rest' & -> & Hd' & Hs1 & Hs2);
      [done| |lia|].
    { intros ->. rewrite app_nil_r in Heq. apply (f_equal length) in Heq. rewrite length_app in Heq. lia. }
    pose proof (Receive_pending _ 4096 _ _ ltac:(lia) E) as [_ Hp']. rewrite E.
    destruct got as [|b got]; [simpl in Hgot; lia|]. cbn [with_socket with_carry carry_ socket_].
    assert ((1024 * 1024 <? Z.of_nat (length (carry_ c ++ b :: got))) = false) as ->.
    { apply Z.ltb_ge. rewrite length_app. lia. }
    destruct fuel as [|fuel]; [lia|].
    destruct (IH fuel ltac:(lia) (reading c s1 (carry_ c ++ b :: got)) rest') as (s' & carry' & stream' & H1 & H2 & H3 & H4 & H5).
    + done.
    + cbn. by rewrite <- app_assoc.
    + cbn. lia.
    + exists s', carry', stream'. split_and!; [exact H1|done|done|by rewrite H4|by rewrite H5].
Qed.

(** ** Every operation answers, and what stays true *)

Lemma Transact_total c request : exists r, Transact c request = Ok r.
Proof.
  unfold Transact, ReadOneFrame. destruct (negb _); [by eexists|].
  destruct (Send (socket_ c) request) as [[|] s]; [|by eexists]. simpl.
  destruct (read_frame_total (pending s) (with_socket c s)) as [[[frame|] c'] E]; [done| |];
    simpl in E; rewrite E; by eexists.
Qed.

(** The client's own invariant. *)
Record client_ok (c : C3Client) : Prop := {
  ok_request : 0 <= requestNr_ c < 65536;
  ok_session : sessionLess_ c = true -> sessionId_ c = 0;
  ok_timeout : 500 <= timeoutMs_ c;
  ok_carry : Z.of_nat (length (carry_ c)) <= 1024 * 1024;
  ok_host : connected_ c = true -> host_ c <> []
}.

Lemma read_frame_ok fuel : forall c r c', read_frame fuel c = Ok (r, c') -> client_ok c ->
  client_ok c' /\ host_ c' = host_ c.
Proof.
  induction fuel as [|fuel IH]; intros c r c' H Hok; cbn [read_frame] in H; inv_bind H;
    (destruct (_ && _)%bool; [injection H as _ <-; split; [|done]; destruct Hok; constructor; try done;
       simpl; rewrite length_drop; lia|]);
    destruct (Receive (socket_ c) 4096) as [[[|b bytes]|] s]; try (injection H as _ <-; by destruct Hok);
    (destruct (1024 * 1024 <? _) eqn:E; [injection H as _ <-; split; [|done]; destruct Hok; by constructor|]); [done|].
  apply IH in H; [done|]. apply Z.ltb_ge in E. destruct Hok; by constructor.
Qed.

Lemma Transact_ok c request r c' : Transact c request = Ok (r, c') -> client_ok c ->
  client_ok c' /\ host_ c' = host_ c.
Proof.
  unfold Transact, ReadOneFrame. intros H Hok. destruct (negb _); [injection H as _ <-; by destruct Hok|].
  destruct (Send (socket_ c) request) as [[|] s]; simpl in H; [|injection H as _ <-; by destruct Hok].
  inv_bind H. destruct v as [reply c2]. apply read_frame_ok in Hm as [Hok2 Hh]; [|by destruct Hok].
  simpl in Hh. destruct reply; [by injection H as _ <-|]. injection H as _ <-.
  destruct (lastError_ c2); [|done]. by destruct Hok2.
Qed.

Lemma NextRequestNr_ok c n c' : NextRequestNr c = (n, c') -> client_ok c ->
  client_ok c' /\ host_ c' = host_ c /\ c' = with_session c (sessionLess_ c) (sessionId_ c) n /\ 0 <= n < 65536.
Proof.
  unfold NextRequestNr. intros [= <- <-] Hok. change 0xFFFF with (Z.ones 16). rewrite Z.land_ones by lia.
  pose proof (Z.mod_pos_bound (requestNr_ c + 1) (2 ^ 16)). change (2 ^ 16) with 65536 in *.
  split_and!; try done; try lia. destruct Hok. constructor; simpl; try done. lia.
Qed.

Lemma Disconnect_ok c : client_ok c -> client_ok (Disconnect c) /\ connected_ (Disconnect c) = false /\
  sock_open (socket_ (Disconnect c)) = false /\ carry_ (Disconnect c) = [].
Proof.
  intros Hok. split; [|by unfold Disconnect]. unfold Disconnect. destruct (connected_ c && _).
  - destruct (sessionLess_ c).
    + destruct Hok; constructor; simpl; try done; lia.
    + destruct (NextRequestNr c) as [n c'] eqn:E. apply NextRequestNr_ok in E as ([] & _); [|done].
      constructor; simpl; try done; lia.
  - destruct Hok; constructor; simpl; try done; lia.
Qed.

Lemma connect_session_less_total c dial : exists r, connect_session_less c dial = Ok r.
Proof.
  unfold connect_session_less. destruct dial as [s|]; [|by eexists].
  destruct (Transact_total (with_socket (with_carry (with_socket c (Close (socket_ c))) []) s)
    (EncodeConnectSessionLess (password_ (with_carry (with_socket c (Close (socket_ c))) [])))) as [[[frame|] c1] ->];
    cbn [mbind res_bind]; [|by eexists].
  destruct (DecodeGenericReply_total frame) as [[] ->]; by eexists.
Qed.

Lemma connect_session_less_ok c dial ok c' : connect_session_less c dial = Ok (ok, c') -> client_ok c ->
  host_ c <> [] -> client_ok c'.
Proof.
  unfold connect_session_less. intros H Hok Hh. destruct dial as [s|].
  2: { injection H as _ <-. destruct Hok; constructor; try done; simpl; lia. }
  inv_bind H. destruct v as [reply c1]. apply Transact_ok in Hm as [Hok1 Hh1].
  2: { destruct Hok; constructor; try done; simpl; lia. }
  simpl in Hh1. destruct reply as [frame|]; [|injection H as _ <-; by destruct Hok1].
  inv_bind H. destruct v; injection H as _ <-; try by destruct Hok1.
  destruct Hok1; constructor; try done. simpl. by rewrite Hh1.
Qed.

Lemma Connect_total c connectionString dial dial2 : exists r, Connect c connectionString dial dial2 = Ok r.
Proof.
  unfold Connect. destruct (first_text _ _); [by eexists|]. destruct dial as [s|]; [|by eexists].
  match goal with |- context [Transact ?c ?r] => destruct (Transact_total c r) as [[[frame|] c1] ->] end;
    cbn [mbind res_bind]; [|apply connect_session_less_total].
  destruct (DecodeConnectSession_total frame) as [[[] sid] ->]; cbn [mbind res_bind];
    try apply connect_session_less_total. by eexists.
Qed.

Lemma Connect_ok c connectionString dial dial2 ok c' : Connect c connectionString dial dial2 = Ok (ok, c') ->
  client_ok c -> client_ok c'.
Proof.
  intros H Hok. apply Disconnect_ok in Hok as (Hok & Hc & _). unfold Connect in H.
  destruct (first_text _ _) as [|h host] eqn:Hh.
  { injection H as _ <-. by destruct Hok. }
  match type of H with context [with_target ?c ?h ?p ?t ?w] => set (c1 := with_target c h p t w) in * end.
  assert (client_ok c1) as Hok1.
  { destruct Hok; constructor; try done. simpl.
    match goal with |- 500 <= (if ?b then _ else _) => destruct b eqn:E end; [lia|]. by apply Z.ltb_ge in E. }
  assert (host_ c1 = h :: host) as Hh1 by done. clearbody c1.
  destruct dial as [s|]; [|injection H as _ <-; by destruct Hok1].
  match type of H with context [Transact ?c ?r] => destruct (Transact c r) as [[reply c2]| |] eqn:E end; try done.
  apply Transact_ok in E as [Hok2 Hh2].
  2: { destruct Hok1; constructor; try done; simpl; lia. }
  cbn [mbind res_bind] in H. simpl in Hh2. rewrite Hh1 in Hh2.
  assert (host_ c2 <> []) as Hne by (by rewrite Hh2).
  destruct reply as [frame|]; [|by eapply connect_session_less_ok].
  inv_bind H. destruct v as [[] sid]; try by eapply connect_session_less_ok.
  injection H as _ <-. destruct Hok2; constructor; simpl; try done; lia.
Qed.

Lemma with_error_ok c e : client_ok c -> client_ok (with_error c e).
Proof. by intros []. Qed.

Lemma GetDeviceParam_total c items : exists r, GetDeviceParam c items = Ok r.
Proof.
  unfold GetDeviceParam. destruct (negb _); [by eexists|]. destruct (NextRequestNr c) as [n c1].
  match goal with |- context [Transact ?c ?r] => destruct (Transact_total c r) as [[[frame|] c2] ->] end;
    cbn [mbind res_bind]; [|by eexists].
  destruct (DecodeGetParam_total frame (negb (sessionLess_ c2))) as [[[] values] ->]; by eexists.
Qed.

Lemma GetDeviceParam_ok c items r c' : GetDeviceParam c items = Ok (r, c') -> client_ok c -> client_ok c'.
Proof.
  unfold GetDeviceParam. intros H Hok. destruct (negb _); [injection H as _ <-; by apply with_error_ok|].
  destruct (NextRequestNr c) as [n c1] eqn:E. apply NextRequestNr_ok in E as (Hok1 & _); [|done].
  inv_bind H. destruct v as [[frame|] c2]; apply Transact_ok in Hm as [Hok2 _]; try done; [|by injection H as _ <-].
  inv_bind H. destruct v as [[] values]; injection H as _ <-; by try apply with_error_ok.
Qed.

Lemma ControlDevice_total c op p1 p2 p3 : exists r, ControlDevice c op p1 p2 p3 = Ok r.
Proof.
  unfold ControlDevice. destruct (negb _); [by eexists|]. destruct (operation_of op); [|by eexists].
  destruct (NextRequestNr c) as [n c1].
  match goal with |- context [Transact ?c ?r] => destruct (Transact_total c r) as [[[frame|] c2] ->] end;
    cbn [mbind res_bind]; [|by eexists].
  destruct (DecodeGenericReply_total frame) as [[] ->]; by eexists.
Qed.

Lemma ControlDevice_ok c op p1 p2 p3 r c' : ControlDevice c op p1 p2 p3 = Ok (r, c') -> client_ok c -> client_ok c'.
Proof.
  unfold ControlDevice. intros H Hok. destruct (negb _); [injection H as _ <-; by apply with_error_ok|].
  destruct (operation_of op); [|injection H as _ <-; by apply with_error_ok].
  destruct (NextRequestNr c) as [n c1] eqn:E. apply NextRequestNr_ok in E as (Hok1 & _); [|done].
  inv_bind H. destruct v as [[frame|] c2]; apply Transact_ok in Hm as [Hok2 _]; try done; [|by injection H as _ <-].
  inv_bind H. destruct v; injection H as _ <-; by try apply with_error_ok.
Qed.

Lemma get_rtlog_key_value_total c : exists r, get_rtlog_key_value c = Ok r.
Proof.
  unfold get_rtlog_key_value. destruct (NextRequestNr c) as [n c1].
  match goal with |- context [Transact ?c ?r] => destruct (Transact_total c r) as [[[frame|] c2] ->] end;
    cbn [mbind res_bind]; [|by eexists].
  destruct (DecodeRtlogKeyValue_total frame (negb (sessionLess_ c2))) as [[[] records] ->]; by eexists.
Qed.

Lemma get_rtlog_key_value_ok c r c' : get_rtlog_key_value c = Ok (r, c') -> client_ok c -> client_ok c'.
Proof.
  unfold get_rtlog_key_value. intros H Hok.
  destruct (NextRequestNr c) as [n c1] eqn:E. apply NextRequestNr_ok in E as (Hok1 & _); [|done].
  inv_bind H. destruct v as [[frame|] c2]; apply Transact_ok in Hm as [Hok2 _]; try done; [|by injection H as _ <-].
  inv_bind H. destruct v as [[] records]; injection H as _ <-; by try apply with_error_ok.
Qed.

Lemma GetRTLog_total c : exists r, GetRTLog c = Ok r.
Proof.
  unfold GetRTLog. destruct (negb _); [by eexists|].
  destruct (rtlogKeyValueMode_ c); [apply get_rtlog_key_value_total|]. destruct (NextRequestNr c) as [n c1].
  match goal with |- context [Transact ?c ?r] => destruct (Transact_total c r) as [[[frame|] c2] ->] end;
    cbn [mbind res_bind]; [|by eexists].
  destruct (DecodeRtlogBinary_total frame (negb (sessionLess_ c2))) as [[[] records] ->]; cbn [mbind res_bind];
    (by eexists) || apply get_rtlog_key_value_total.
Qed.

Lemma GetRTLog_ok c r c' : GetRTLog c = Ok (r, c') -> client_ok c -> client_ok c'.
Proof.
  unfold GetRTLog. intros H Hok. destruct (negb _); [injection H as _ <-; by apply with_error_ok|].
  destruct (rtlogKeyValueMode_ c); [by eapply get_rtlog_key_value_ok|].
  destruct (NextRequestNr c) as [n c1] eqn:E. apply NextRequestNr_ok in E as (Hok1 & _); [|done].
  inv_bind H. destruct v as [[frame|] c2]; apply Transact_ok in Hm as [Hok2 _]; try done; [|by injection H as _ <-].
  inv_bind H. destruct v as [[] records]; try (injection H as _ <-; by try apply with_error_ok).
  apply get_rtlog_key_value_ok in H; [done|by destruct Hok2].
Qed.

(** Every use of the client, and bytes arriving in between. *)
Inductive c3_step : C3Client -> C3Client -> Prop :=
| step_connect c connectionString dial dial2 ok c' : Connect c connectionString dial dial2 = Ok (ok, c') -> c3_step c c'
| step_disconnect c : c3_step c (Disconnect c)
| step_get_param c items r c' : GetDeviceParam c items = Ok (r, c') -> c3_step c c'
| step_set_param c : c3_step c (SetDeviceParam c).2
| step_control c op p1 p2 p3 r c' : ControlDevice c op p1 p2 p3 = Ok (r, c') -> c3_step c c'
| step_rtlog c r c' : GetRTLog c = Ok (r, c') -> c3_step c c'
| step_network c events results :
    c3_step c (with_socket c (mkSocket (sock_open (socket_ c)) events results (sent (socket_ c)))).

Lemma c3_step_ok c c' : c3_step c c' -> client_ok c -> client_ok c'.
Proof.
  intros [] Hok.
  - by eapply Connect_ok.
  - by apply Disconnect_ok.
  - by eapply GetDeviceParam_ok.
  - by apply with_error_ok.
  - by eapply ControlDevice_ok.
  - by eapply GetRTLog_ok.
  - by destruct Hok.
Qed.

(** ** A reply that arrives *)

Definition will_send (s : TcpSocket) : Prop := match send_results s with false :: _ => False | _ => True end.

(** The panel's next bytes are [frame] and then [rest], in any pieces; some of
    them may already be in the buffer. *)
Definition answers (c : C3Client) (frame rest : list Z) : Prop :=
  will_send (socket_ c) /\ exists stream, delivers (socket_ c) stream /\ carry_ c ++ stream = frame ++ rest.

Lemma Transact_replies c request frame rest : framed frame -> answers c frame rest ->
  exists s' carry' stream', Transact c request = Ok (Some frame, reading c s' carry') /\
    delivers s' stream' /\ carry' ++ stream' = rest /\ sent s' = sent (socket_ c) ++ [request].
Proof.
  intros Hf (Hw & stream & Hd & Heq). pose proof Hd as (Hopen & Hev & Hstream).
  unfold Transact, IsOpen. rewrite Hopen. cbn [negb].
  assert (exists results, Send (socket_ c) request =
    (true, mkSocket true (incoming (socket_ c)) results (sent (socket_ c) ++ [request]))) as [results E].
  { unfold Send, IsOpen. rewrite Hopen. cbn [negb]. unfold will_send in Hw.
    destruct (send_results (socket_ c)) as [|[] l]; [by eexists|by eexists|done]. }
  rewrite E. cbn [negb]. unfold ReadOneFrame. cbn [with_socket socket_].
  set (s1 := mkSocket _ _ _ _).
  destruct (read_frame_delivers frame rest Hf (pending s1) (with_socket c s1) stream) as
    (s' & carry' & stream' & H1 & H2 & H3 & H4 & H5); [done|done|done|].
  exists s', carry', stream'. rewrite H1. split_and!; done.
Qed.

(** What is sent. *)
Lemma Receive_sent s n r s' : Receive s n = (r, s') -> sent s' = sent s.
Proof.
  unfold Receive. destruct (negb _); [by intros [= _ <-]|].
  destruct (incoming s) as [|[| |[|b bs]] l]; by intros [= _ <-].
Qed.

Lemma read_frame_sent fuel : forall c r c', read_frame fuel c = Ok (r, c') -> sent (socket_ c') = sent (socket_ c).
Proof.
  induction fuel as [|fuel IH]; intros c r c' H; cbn [read_frame] in H; inv_bind H;
    (destruct (_ && _)%bool; [by injection H as _ <-|]);
    destruct (Receive (socket_ c) 4096) as [[[|b bytes]|] s] eqn:E; apply Receive_sent in E;
    try (injection H as _ <-; done); (destruct (1024 * 1024 <? _); [by injection H as _ <-|]); [done|].
  apply IH in H. by rewrite H.
Qed.

Lemma Transact_sent c request r c' : Transact c request = Ok (r, c') ->
  (sent (socket_ c') = sent (socket_ c) /\ r = None) \/ sent (socket_ c') = sent (socket_ c) ++ [request].
Proof.
  unfold Transact, ReadOneFrame. intros H. destruct (negb _); [injection H as <- <-; by left|].
  unfold Send in H. destruct (negb _); [injection H as <- <-; by left|].
  destruct (send_results (socket_ c)) as [|[] l].
  2: { cbn [negb] in H. inv_bind H. destruct v as [reply c2]. apply read_frame_sent in Hm. right.
       destruct reply; [by injection H as _ <-|]. injection H as _ <-. by destruct (lastError_ c2). }
  2: { injection H as <- <-. by left. }
  cbn [negb] in H. inv_bind H. destruct v as [reply c2]. apply read_frame_sent in Hm. right.
  destruct reply; [by injection H as _ <-|]. injection H as _ <-. by destruct (lastError_ c2).
Qed.

(** ** Connecting to a panel *)

Lemma will_send_fresh s frame rest c : will_send s -> delivers s (frame ++ rest) -> socket_ c = s -> carry_ c = [] ->
  answers c frame rest.
Proof. intros Hw Hd <- Hc. split; [done|]. eexists. by rewrite Hc. Qed.

(** The first two addresses a connection string can name, as [Connect] reads them. *)
Definition host_of (connectionString : list Z) : list Z :=
  first_text (FieldFrom connectionString (b! "ipaddress")) (FieldFrom connectionString (b! "ip")).
Definition password_of (connectionString : list Z) : list Z := FieldFrom connectionString (b! "passwd").

(** A panel at the other end of a fresh connection: it answers the request with
    [reply], in any pieces. *)
Definition panel (s : TcpSocket) (reply rest : list Z) : Prop :=
  will_send s /\ sent s = [] /\ delivers s (reply ++ rest).

Lemma connect_first c connectionString s dial2 reply rest :
  host_of connectionString <> [] -> panel s reply rest -> framed reply ->
  exists c1 stream',
    Connect c connectionString (Some s) dial2 =
      ('(status, session_id) ← DecodeConnectSession reply;
       match status with
       | kOk => Ok (true, with_connected (with_session c1 false session_id 0) true)
       | _ => connect_session_less c1 dial2
       end) /\
    delivers (socket_ c1) stream' /\ carry_ c1 ++ stream' = rest /\
    sent (socket_ c1) = [EncodeConnectSession (password_of connectionString)] /\
    password_ c1 = password_of connectionString /\ requestNr_ c1 = 0.
Proof.
  intros Hh (Hw & Hsent & Hd) Hf. unfold Connect. fold (host_of connectionString) (password_of connectionString).
  destruct (host_of connectionString) as [|h host] eqn:E; [done|].
  match goal with |- context [Transact ?c ?r] => set (c0 := c) end.
  destruct (Transact_replies c0 (EncodeConnectSession (password_of connectionString)) reply rest Hf)
    as (s' & carry' & stream' & Ht & H1 & H2 & H3).
  { by eapply will_send_fresh. }
  rewrite Ht. cbn [mbind res_bind]. exists (reading c0 s' carry'), stream'. split_and!; try done.
  unfold c0 in H3. cbn [with_session with_carry with_socket socket_] in H3. by rewrite Hsent in H3.
Qed.

Lemma connect_second c s reply rest : panel s reply rest -> framed reply ->
  exists s' carry' stream', let c1 := reading c s' carry' in
    connect_session_less c (Some s) =
      (status ← DecodeGenericReply reply;
       match status with
       | kOk => Ok (true, with_connected (with_session c1 true 0 (requestNr_ c1)) true)
       | kRejected => Ok (false, with_socket (with_error c1 (b! "the panel rejected the connection (wrong password?)"))
                                   (Close (socket_ c1)))
       | _ => Ok (false, with_socket (with_error c1 (b! "the panel's connect reply was malformed")) (Close (socket_ c1)))
       end) /\
    delivers s' stream' /\ carry' ++ stream' = rest /\ sent s' = [EncodeConnectSessionLess (password_ c)].
Proof.
  intros (Hw & Hsent & Hd) Hf. unfold connect_session_less.
  match goal with |- context [Transact ?c ?r] => set (c0 := c) end.
  destruct (Transact_replies c0 (EncodeConnectSessionLess (password_ c)) reply rest Hf) as (s' & carry' & stream' & Ht & H1 & H2 & H3).
  { by eapply will_send_fresh. }
  exists s', carry', stream'. cbv zeta. split_and!; try done.
  - change (password_ (with_carry (with_socket c (Close (socket_ c))) [])) with (password_ c). rewrite Ht.
    cbn [mbind res_bind]. by destruct (DecodeGenericReply reply) as [[]| |].
  - unfold c0 in H3. cbn [with_socket socket_] in H3. by rewrite Hsent in H3.
Qed.

(** The replies of a panel that opens a session, of one that only knows
    session-less connections, and of one that knows another password. *)
Lemma generic_encoded command sid nr payload inc : bytes_ok payload -> Z.of_nat (length payload) < 65528 ->
  command = kReplyOk \/ command = kReplyError ->
  DecodeGenericReply (EncodeFrame command sid nr payload inc) = Ok (if command =? kReplyOk then kOk else kRejected).
Proof.
  intros Hp Hl Hc. unfold DecodeGenericReply.
  assert (EncodeFrame command sid nr payload inc = EncodeFrame command sid nr (session_block inc sid nr ++ payload) false ++ [])
    as ->.
  { rewrite app_nil_r, !EncodeFrame_raw; [done| |].
    - simpl. rewrite length_app, length_session_block. destruct inc; lia.
    - rewrite length_app, length_session_block. destruct inc; lia. }
  rewrite DecodeFrameGeneric_encoded; [|apply Forall_app; split; [apply session_block_ok|done]| |done].
  - by destruct (command =? kReplyOk).
  - rewrite length_app, length_session_block. destruct inc; lia.
Qed.

(** ** The event log as text *)

Lemma num_decimal n : 0 <= n -> num n = decimal n.
Proof. intros Hn. unfold num. by apply bytes_of_to_string. Qed.

Lemma pack_four a b c d : byte_ok a -> byte_ok b -> byte_ok c -> byte_ok d ->
  pack_status [a; b; c; d] = a + b * 2 ^ 8 + c * 2 ^ 16 + d * 2 ^ 24.
Proof.
  unfold byte_ok. intros Ha Hb Hc Hd. unfold pack_status. cbn [foldl nth].
  assert (forall v x, 0 <= v < 2 ^ 24 -> 0 <= x < 256 -> Z.lor (to_u32 (Z.shiftl v 8)) x = v * 256 + x) as Hstep.
  { intros v x Hv Hx. unfold to_u32. rewrite Z.shiftl_mul_pow2 by lia. rewrite Z.mod_small by lia.
    rewrite Z.lor_comm, <- Z.shiftl_mul_pow2, (lor_add_shifted x v 8) by lia. change (2 ^ 8) with 256. lia. }
  change (2 ^ 24) with 16777216 in *. change (2 ^ 16) with 65536. change (2 ^ 8) with 256.
  rewrite (Hstep 0 d), (Hstep (0 * 256 + d) c), (Hstep ((0 * 256 + d) * 256 + c) b), (Hstep (((0 * 256 + d) * 256 + c) * 256 + b) a)
    by lia. lia.
Qed.

Lemma padded_plain width n : 0 <= n -> plain (padded_decimal width n).
Proof.
  intros Hn. unfold padded_decimal. apply Forall_app. split; [|by apply decimal_plain].
  apply Forall_replicate. lia.
Qed.

Lemma FormatC3Time_plain v : 0 <= v -> plain (FormatC3Time v) /\ FormatC3Time v <> [].
Proof.
  intros Hv. unfold FormatC3Time. destruct (time_pack v Hv) as [(?&?&?&?&?&?) _].
  split; [|intros E; apply app_nil in E as [_ E]; discriminate E].
  unfold plain. repeat match goal with |- Forall _ (_ ++ _) => apply Forall_app; split end;
    first [apply padded_plain; lia|repeat constructor; done].
Qed.

(** What the parser makes of the line of a record. *)
Definition event_of (r : RtLogRecord) : RTLogEvent + DoorAlarmStatus :=
  match kind r with
  | kDoorAlarmStatus => inr (mkDoorStatus (FormatC3Time (time_second r)) (pack_status (dss_status r)) (pack_status (alarm_status r)))
  | kEvent => inl (mkEvent (FormatC3Time (time_second r)) (num (pin r)) (num (card_no r)) (door_id r) (event_type r)
                     (in_out_state r) (verified r))
  end.

Lemma pack_range l : length l = 4%nat -> bytes_ok l -> 0 <= pack_status l < 2 ^ 32.
Proof.
  intros Hl Hb. destruct l as [|a [|b [|c [|d [|]]]]]; try done.
  repeat (apply Forall_cons in Hb as [? Hb]). rewrite pack_four by done. unfold byte_ok in *. lia.
Qed.

Lemma record_fields_plain r : record_ok r -> Forall plain (rtlog_fields r).
Proof.
  unfold record_ok, rtlog_fields, u32_field, byte_ok. intros (Hv & Ht & H).
  destruct (FormatC3Time_plain (time_second r)) as [Hplain _]; [lia|]. destruct (kind r).
  - destruct H as (? & ? & _ & _ & ? & ? & ? & _). rewrite !num_decimal by lia.
    repeat (apply Forall_cons; split; [first [done|apply decimal_plain; lia]|]). by apply Forall_nil.
  - destruct H as (_ & _ & Ha & Hd & Hba & Hbd & _).
    pose proof (pack_range _ Ha Hba). pose proof (pack_range _ Hd Hbd). rewrite !num_decimal by lia.
    change (b! "0") with (decimal 0). change (b! "255") with (decimal 255).
    repeat (apply Forall_cons; split; [first [done|apply decimal_plain; lia]|]). by apply Forall_nil.
Qed.

Lemma parse_rtlog_line r : record_ok r -> parse_line (join_commas (rtlog_fields r)) = Some (event_of r).
Proof.
  intros Hr. pose proof (record_fields_plain r Hr) as Hp. unfold parse_line.
  rewrite split_join; [|done|unfold rtlog_fields; by destruct (kind r)].
  unfold record_ok, u32_field, byte_ok in Hr. destruct Hr as (Hv & Ht & H).
  unfold rtlog_fields, event_of. destruct (kind r).
  - destruct H as (Hc & Hpn & _ & _ & Hdr & Hst & Hev & Hne).
    rewrite !num_decimal, !Trim_decimal by lia. rewrite bool_decide_false.
    + by rewrite !atoi_decimal by lia.
    + change (b! "255") with (decimal 255). intros E. apply decimal_inj in E; lia.
  - destruct H as (_ & _ & Ha & Hd & Hba & Hbd & _).
    pose proof (pack_range _ Ha Hba). pose proof (pack_range _ Hd Hbd). rewrite !num_decimal, !Trim_decimal by lia.
    rewrite bool_decide_true by reflexivity. rewrite !strtoul_decimal by lia.
    unfold to_u32. by rewrite !Z.mod_small by lia.
Qed.

Definition lefts {A B} (l : list (A + B)) : list A := omap (fun x => match x with inl a => Some a | inr _ => None end) l.
Definition rights {A B} (l : list (A + B)) : list B := omap (fun x => match x with inr b => Some b | inl _ => None end) l.

Lemma add_lines rs : forall result, Forall record_ok rs ->
  foldl add_line result (map (fun r => join_commas (rtlog_fields r)) rs) =
  mkParsed (events result ++ lefts (map event_of rs)) (statuses result ++ rights (map event_of rs)).
Proof.
  induction rs as [|r rs IH]; intros result H; cbn [map foldl].
  { unfold lefts, rights. simpl. rewrite !app_nil_r. by destruct result. }
  apply Forall_cons in H as [Hr Hrs]. rewrite IH by done. unfold add_line. rewrite parse_rtlog_line by done.
  unfold lefts, rights. cbn [omap list_omap]. destruct (event_of r); cbn [events statuses]; by rewrite <- app_assoc.
Qed.

Lemma join_plain fields : Forall plain fields -> Forall (fun b => b <> 13 /\ b <> 0) (join_commas fields).
Proof.
  induction 1 as [|f rest Hf Hrest IH]; [constructor|].
  assert (Forall (fun b => b <> 13 /\ b <> 0) f) as Hf' by (eapply Forall_impl; [exact Hf|]; simpl; tauto).
  destruct rest; [done|]. cbn [join_on]. apply Forall_app. split; [done|]. constructor; [lia|done].
Qed.

Lemma rtlog_line_shape r : record_ok r -> join_commas (rtlog_fields r) <> [] /\
  Forall (fun b => b <> 13 /\ b <> 0) (join_commas (rtlog_fields r)).
Proof.
  intros Hr. split; [|by apply join_plain, record_fields_plain]. unfold rtlog_fields, record_ok, u32_field in *.
  destruct Hr as (_ & Ht & _). destruct (FormatC3Time_plain (time_second r)) as [_ Hne]; [lia|].
  destruct (kind r); cbn [join_on]; by destruct (FormatC3Time (time_second r)).
Qed.

Lemma parse_rtlog_csv rs : Forall record_ok rs ->
  ParseRTLogBuffer (concat (map rtlog_line rs)) = mkParsed (lefts (map event_of rs)) (rights (map event_of rs)).
Proof.
  intros Hrs. unfold ParseRTLogBuffer. rewrite until_no_nul.
  - replace (map rtlog_line rs) with (map (fun l => l ++ crlf) (map (fun r => join_commas (rtlog_fields r)) rs))
      by (by rewrite map_map).
    rewrite SplitLines_lines; [by apply (add_lines rs (mkParsed [] []))|].
    apply Forall_map. eapply Forall_impl; [exact Hrs|]. intros r Hr. simpl.
    destruct (rtlog_line_shape r Hr) as [Hne Hf]. split; [done|]. eapply Forall_impl; [exact Hf|]. simpl. tauto.
  - induction Hrs as [|r rs Hr _ IH]; [constructor|]. cbn [map concat]. unfold rtlog_line at 1.
    destruct (rtlog_line_shape r Hr) as [_ Hf]. repeat (apply Forall_app; split); try done.
    + eapply Forall_impl; [exact Hf|]. simpl. tauto.
    + repeat constructor; lia.
Qed.

(** ** Properties *)

(** The client can be used in any order, with any bytes from the panel at
    any time: every operation answers (no read outside a reply, and the read
    loop ends, its fuel being enough), the buffer stays under 1 MB, the request
    number in 16 bits, a session-less connection has no session id, and the
    time-out is at least half a second. *)
Theorem c3_client_sound c : rtc c3_step new_c3 c ->
  client_ok c /\
  (forall connectionString dial dial2, exists r, Connect c connectionString dial dial2 = Ok r) /\
  (forall items, exists r, GetDeviceParam c items = Ok r) /\
  (forall op p1 p2 p3, exists r, ControlDevice c op p1 p2 p3 = Ok r) /\
  (exists r, GetRTLog c = Ok r).
Proof.
  intros H. split.
  - assert (client_ok new_c3) as H0 by (constructor; simpl; try done; lia).
    induction H as [|x y z Hxy _ IH]; [done|]. by apply IH, (c3_step_ok x y Hxy).
  - split_and!; intros; [apply Connect_total|apply GetDeviceParam_total|apply ControlDevice_total|apply GetRTLog_total].
Qed.

(** Connecting follows the panel: one that opens a session is connected
    with that session's id; one that refuses sessions is connected without, on
    a second socket; one that refuses both (a wrong password) leaves the client
    disconnected with that reason.  In each case exactly one request went out
    on each socket, and the reply may arrive in any pieces. *)
Theorem c3_connects c connectionString s s2 sid nr payload rest rest2 :
  host_of connectionString <> [] -> bytes_ok payload -> Z.of_nat (length payload) < 65528 -> word_ok sid ->
  let password := password_of connectionString in
  (forall dial2, panel s (EncodeFrame kReplyOk sid nr payload true) rest ->
   exists c', Connect c connectionString (Some s) dial2 = Ok (true, c') /\ IsConnected c' = true /\
     sessionLess_ c' = false /\ sessionId_ c' = sid /\ sent (socket_ c') = [EncodeConnectSession password]) /\
  (panel s (EncodeFrame kReplyError sid nr payload true) rest ->
   panel s2 (EncodeFrame kReplyOk 0 0 payload false) rest2 ->
   exists c', Connect c connectionString (Some s) (Some s2) = Ok (true, c') /\ IsConnected c' = true /\
     sessionLess_ c' = true /\ sessionId_ c' = 0 /\ sent (socket_ c') = [EncodeConnectSessionLess password]) /\
  (panel s (EncodeFrame kReplyError sid nr payload true) rest ->
   panel s2 (EncodeFrame kReplyError 0 0 payload false) rest2 ->
   exists c', Connect c connectionString (Some s) (Some s2) = Ok (false, c') /\ IsConnected c' = false /\
     lastError_ c' = b! "the panel rejected the connection (wrong password?)").
Proof.
  intros Hh Hp Hl Hsid password.
  assert (forall command inc, framed (EncodeFrame command sid nr payload inc)) as Hframed by (intros; apply framed_encoded; lia).
  assert (forall command, framed (EncodeFrame command 0 0 payload false)) as Hframed2 by (intros; apply framed_encoded; lia).
  assert (forall command, command = kReplyOk \/ command = kReplyError ->
    DecodeConnectSession (EncodeFrame command sid nr payload true) =
    Ok (if command =? kReplyOk then (kOk, sid) else (kRejected, 0))) as Hdec.
  { intros command Hc. rewrite <- (app_nil_r (EncodeFrame _ _ _ _ _)). by apply DecodeConnectSession_encoded; [|lia|..]. }
  split_and!.
  - intros dial2 Hpanel.
    destruct (connect_first c connectionString s dial2 _ _ Hh Hpanel (Hframed _ _)) as (c1 & stream & -> & Hd & _ & Hsent & _).
    rewrite Hdec by auto. cbn [mbind res_bind Z.eqb]. eexists. split_and!; [done| |done|done|done].
    unfold IsConnected, IsOpen. simpl. by destruct Hd.
  - intros Hpanel Hpanel2.
    destruct (connect_first c connectionString s (Some s2) _ _ Hh Hpanel (Hframed _ _))
      as (c1 & stream & -> & _ & _ & _ & Hpw & _).
    rewrite Hdec by auto. cbn [mbind res_bind Z.eqb].
    destruct (connect_second c1 s2 _ _ Hpanel2 (Hframed2 _)) as (s' & carry' & stream' & -> & Hd & _ & Hsent).
    rewrite generic_encoded by auto. eexists. split_and!; [done| |done|done|by rewrite <- Hpw in Hsent || (rewrite Hpw in Hsent)].
    unfold IsConnected, IsOpen. simpl. by destruct Hd.
  - intros Hpanel Hpanel2.
    destruct (connect_first c connectionString s (Some s2) _ _ Hh Hpanel (Hframed _ _))
      as (c1 & stream & -> & _ & _ & _ & Hpw & _).
    rewrite Hdec by auto. cbn [mbind res_bind Z.eqb].
    destruct (connect_second c1 s2 _ _ Hpanel2 (Hframed2 _)) as (s' & carry' & stream' & -> & _ & _ & _).
    rewrite generic_encoded by auto. eexists. split_and!; [done| |done].
    unfold IsConnected, IsOpen. simpl. by rewrite andb_false_r.
Qed.

(** A door is commanded only on purpose: whatever the panel does, a control
    call sends nothing, or exactly one control frame, of a known operation, on
    a connected client, with the session of the connection; it reports success
    only when that frame went out, and then exactly when the reply it takes is
    an acceptance: a panel that accepts makes it return 0, one that refuses
    makes it return -1 with that reason. *)
Theorem c3_control_exact c op p1 p2 p3 r c' :
  ControlDevice c op p1 p2 p3 = Ok (r, c') ->
  (r = 0 \/ r = -1) /\
  ((sent (socket_ c') = sent (socket_ c) /\ r = -1) \/
   exists operation n, operation_of op = Some operation /\ IsConnected c = true /\
     sent (socket_ c') = sent (socket_ c) ++
       [EncodeControl operation (to_u8 p1) (to_u8 p2) (to_u8 p3) (negb (sessionLess_ c)) (sessionId_ c) n]) /\
  (forall operation command sid nr payload inc rest, operation_of op = Some operation -> connected_ c = true ->
     bytes_ok payload -> Z.of_nat (length payload) < 65528 -> command = kReplyOk \/ command = kReplyError ->
     answers c (EncodeFrame command sid nr payload inc) rest ->
     r = (if command =? kReplyOk then 0 else -1) /\
     (command = kReplyError -> lastError_ c' = b! "the panel rejected the control command")).
Proof.
  intros H. split_and!.
  - unfold ControlDevice in H. destruct (negb _); [injection H as <- _; by right|].
    destruct (operation_of op); [|injection H as <- _; by right]. destruct (NextRequestNr c).
    inv_bind H. destruct v as [[frame|] c2]; [|injection H as <- _; by right].
    inv_bind H. destruct v; injection H as <- _; auto.
  - unfold ControlDevice in H. destruct (negb (IsConnected c)) eqn:Hc; [injection H as <- <-; by left|].
    destruct (operation_of op) as [operation|]; [|injection H as <- <-; by left].
    destruct (NextRequestNr c) as [n c1] eqn:E. unfold NextRequestNr in E. injection E as _ <-.
    inv_bind H. destruct v as [reply c2]. apply Transact_sent in Hm as [[Hs ->]|Hs]; cbn [with_session socket_] in Hs.
    + injection H as <- <-. by left.
    + right. exists operation, n. apply negb_false_iff in Hc. split_and!; [done|done|].
      destruct reply as [frame|]; [|by injection H as _ <-]. inv_bind H. by destruct v; injection H as _ <-.
  - intros operation command sid nr payload inc rest Hop Hconn Hp Hl Hcmd Hans. unfold ControlDevice in H.
    pose proof Hans as (_ & stream & (Hopen & _) & _).
    unfold IsConnected, IsOpen in H. rewrite Hconn, Hopen, Hop in H. cbn [andb negb] in H.
    destruct (NextRequestNr c) as [n c1] eqn:E. unfold NextRequestNr in E. injection E as _ <-.
    match type of H with context [Transact ?c ?r] =>
      destruct (Transact_replies c r _ rest (framed_encoded command sid nr payload inc ltac:(lia)) Hans)
        as (s' & carry' & stream' & Ht & _) end.
    rewrite Ht in H. cbn [mbind res_bind] in H. rewrite generic_encoded in H by done.
    cbn [mbind res_bind] in H. destruct (command =? kReplyOk) eqn:Ec; injection H as <- <-; split; try done.
    intros ->. done.
Qed.

(** The event log survives its detour through text: the lines the client
    writes for the records of a panel are read back by the parser as exactly
    those events and door states, in order, with their numbers, times and card
    numbers, door states with their four status bytes. *)
Theorem c3_rtlog_text_roundtrip spare rs sid nr inc rest c : Forall record_ok rs -> byte_ok spare ->
  16 * Z.of_nat (length rs) < 65532 -> connected_ c = true -> sessionLess_ c = negb inc ->
  rtlogKeyValueMode_ c = false ->
  answers c (EncodeFrame kReplyOk sid nr (concat (map (record_bytes spare) rs)) inc) rest ->
  exists csv ret c', GetRTLog c = Ok ((csv, ret), c') /\ ret = to_int32 (Z.of_nat (length csv)) /\
    ParseRTLogBuffer csv = mkParsed (lefts (map event_of rs)) (rights (map event_of rs)).
Proof.
  intros Hrs Hsp Hl Hconn Hless Hmode Hans. unfold GetRTLog.
  pose proof Hans as (_ & stream & (Hopen & _) & _).
  unfold IsConnected, IsOpen. rewrite Hconn, Hopen, Hmode. cbn [andb negb].
  destruct (NextRequestNr c) as [n c1] eqn:E. unfold NextRequestNr in E. injection E as _ <-.
  assert (Z.of_nat (length (concat (map (record_bytes spare) rs))) < 65532) as Hlen
    by (rewrite length_records by done; lia).
  match goal with |- context [Transact ?c ?r] =>
    destruct (Transact_replies c r _ rest (framed_encoded kReplyOk sid nr _ inc Hlen) Hans)
      as (s' & carry' & stream' & Ht & _) end.
  rewrite Ht. cbn [mbind res_bind reading with_carry with_socket with_session sessionLess_]. rewrite Hless, negb_involutive.
  rewrite <- (app_nil_r (EncodeFrame _ _ _ _ _)), DecodeRtlogBinary_encoded by done.
  cbn [mbind res_bind]. do 3 eexists. split_and!; [done|done|]. by apply parse_rtlog_csv.
Qed.

(** ** Examples *)

Definition demo_connection : list Z := b! "protocol=TCP,ipaddress=10.0.0.5,port=4370,timeout=2000,passwd=abc".

(** A socket on which the given runs of bytes arrive. *)
Definition demo_socket (runs : list (list Z)) : TcpSocket := mkSocket true (map Data runs) [] [].

Definition session_reply : list Z := EncodeFrame kReplyOk 77 0 [] true.
Definition ok_reply : list Z := EncodeFrame kReplyOk 77 1 [] true.
Definition refusal : list Z := EncodeFrame kReplyError 77 1 [9] true.

(** A connected client with the given runs still to come. *)
Definition demo_client (runs : list (list Z)) : C3Client :=
  mkC3 (demo_socket runs) (b! "10.0.0.5") 4370 2000 (b! "abc") true false 77 0 [] [] false.

Lemma c3_client_sound_witness :
  let c := (SetDeviceParam (Disconnect new_c3)).2 in client_ok c /\ exists r, GetRTLog c = Ok r.
Proof.
  intros c. destruct (c3_client_sound c) as (H & _ & _ & _ & Hr).
  - eapply rtc_l; [apply step_disconnect|]. apply rtc_once, step_set_param.
  - exact (conj H Hr).
Defined.

Lemma c3_connects_witness :
  let s := demo_socket [take 3 session_reply; drop 3 session_reply] in
  exists c', Connect new_c3 demo_connection (Some s) None = Ok (true, c') /\ IsConnected c' = true /\
    sessionLess_ c' = false /\ sessionId_ c' = 77 /\ sent (socket_ c') = [EncodeConnectSession (b! "abc")].
Proof.
  intros s. refine (proj1 (c3_connects new_c3 demo_connection s s 77 0 [] [] [] _ _ _ _) None _).
  - discriminate.
  - constructor.
  - reflexivity.
  - unfold word_ok. lia.
  - split; [exact I|]. split; [reflexivity|]. split; [reflexivity|]. split; [|reflexivity].
    repeat constructor; eexists _, _; reflexivity.
Defined.

Lemma c3_control_exact_witness :
  exists c', ControlDevice (demo_client [refusal]) 1 2 1 5 = Ok (-1, c') /\
    lastError_ c' = b! "the panel rejected the control command".
Proof.
  destruct (ControlDevice (demo_client [refusal]) 1 2 1 5) as [[r c']| |] eqn:E; [|vm_compute in E; discriminate E..].
  destruct (c3_control_exact _ _ _ _ _ _ _ E) as (_ & _ & H).
  destruct (H kOutput kReplyError 77 1 [9] true []) as [H1 H2]; [reflexivity|reflexivity|repeat constructor; discriminate
    |reflexivity|right; reflexivity| |].
  - split; [exact I|]. exists refusal. split; [|reflexivity].
    split; [reflexivity|]. split; [repeat constructor; eexists _, _; reflexivity|reflexivity].
  - exists c'. subst r. split; [reflexivity|apply H2; reflexivity].
Defined.

Definition demo_event : RtLogRecord := mkRtLog kEvent 3735928559 7 [] [] 4 1 0 2 762390000.
Definition demo_state : RtLogRecord := mkRtLog kDoorAlarmStatus 0 0 [1; 0; 0; 0] [2; 1; 0; 0] 0 0 255 0 762390001.

Lemma c3_rtlog_text_roundtrip_witness :
  let frame := EncodeFrame kReplyOk 77 1 (concat (map (record_bytes 0) [demo_event; demo_state])) true in
  exists csv ret c', GetRTLog (demo_client [take 10 frame; drop 10 frame]) = Ok ((csv, ret), c') /\
    ret = to_int32 (Z.of_nat (length csv)) /\
    ParseRTLogBuffer csv = mkParsed [mkEvent (b! "2023-09-20 23:00:00") (b! "7") (b! "3735928559") 1 0 2 4]
      [mkDoorStatus (b! "2023-09-20 23:00:01") 258 1].
Proof.
  intros frame.
  refine (c3_rtlog_text_roundtrip 0 [demo_event; demo_state] 77 1 true [] (demo_client [take 10 frame; drop 10 frame])
    _ _ _ _ _ _ _).
  - repeat constructor; unfold u32_field; simpl; lia || done.
  - unfold byte_ok. lia.
  - reflexivity.
  - reflexivity.
  - reflexivity.
  - reflexivity.
  - split; [exact I|]. exists frame. split; [|reflexivity]. split; [reflexivity|].
    split; [repeat constructor; eexists _, _; reflexivity|reflexivity].
Defined.

(** Replies are not matched to requests: after a time-out the late answer to
    the first command is taken for the answer to the second, so a command the
    panel refuses is reported as done. *)
Example stale_reply_accepted :
  let c := with_socket (demo_client []) (mkSocket true [NotReady; Data ok_reply; Data refusal] [] []) in
  match ControlDevice c 1 1 1 5 with
  | Ok (r1, c1) =>
      match ControlDevice c1 1 2 1 5 with
      | Ok (r2, c2) => r1 = -1 /\ r2 = 0 /\ incoming (socket_ c2) = [Data refusal]
      | _ => False
      end
  | _ => False
  end.
Proof. vm_compute. split_and!; reflexivity. Qed.

(** Only the operation is checked: the door number is cut to a byte, so door
    257 opens door 1. *)
Example door_number_truncated :
  match ControlDevice (demo_client [ok_reply]) 1 257 1 5, ControlDevice (demo_client [ok_reply]) 1 1 1 5 with
  | Ok (r, c), Ok (_, c') => r = 0 /\ sent (socket_ c) = sent (socket_ c')
  | _, _ => False
  end.
Proof. vm_compute. split; reflexivity. Qed.

(** Having met one panel without the binary log, the client never asks another
    one for it: the mode outlives the connection. *)
Example key_value_mode_sticks :
  let c := with_mode (demo_client []) true in
  match Connect c demo_connection (Some (demo_socket [session_reply])) None with
  | Ok (ok, c') => ok = true /\ rtlogKeyValueMode_ c' = true
  | _ => False
  end.
Proof. vm_compute. split; reflexivity. Qed.

(** An error text is only cleared by [Connect]: a later time-out is reported
    with the text of an earlier failure. *)
Example stale_error_text :
  let c := with_error (demo_client []) (b! "the panel rejected the control command") in
  match ControlDevice c 1 1 1 5 with
  | Ok (r, c') => r = -1 /\ lastError_ c' = b! "the panel rejected the control command"
  | _ => False
  end.
Proof. vm_compute. split; reflexivity. Qed.
