(* ===== verification/ZkController.v ===== *)
(** * The access-control controller (src/zk_controller/ZkController.cpp)

    One background thread that keeps a panel connected (heartbeat, reconnect),
    polls its event log and reports what it says, and the calls that scripts
    and web requests make meanwhile, over either of two backends.  A backend is
    an interface: [C3Client] implements it, and so does the vendor SDK, which
    is not part of the sources.  Methods are programs of [Threads]: an action
    is one critical section or one atomic access.  Sleeping is no action. *)

From stdpp Require Import relations.
From S2P Require Import Prelude Words Text TcpSocket C3Codec C3Replies RtLog C3Client Threads.

(** ** Text helpers *)

Definition BuildTcpConnectionString (ip : list Z) (port timeoutMs : Z) (password : list Z) : list Z :=
  b! "protocol=TCP,ipaddress=" ++ ip ++ b! ",port=" ++ num port ++ b! ",timeout=" ++ num timeoutMs
  ++ b! ",passwd=" ++ password.

(** [std::mktime] of year - 1900, month - 1, day, hour, minute and second in
    the time zone of the host; -1 when there is no such time. *)
Class LocalTime := { mktime : Z -> Z -> Z -> Z -> Z -> Z -> Z }.

(** [sscanf] with [%d] separated by the given literals, where a space takes any
    white space. *)
Fixpoint scan_ints (separators : list Z) (text : list Z) : option (list Z) :=
  match scan_int text with
  | None => None
  | Some (v, rest) =>
      match separators with
      | [] => Some [to_int32 v]
      | sep :: separators' =>
          if sep =? 32 then option_map (cons (to_int32 v)) (scan_ints separators' (skip_spaces rest))
          else match rest with
               | b :: rest' =>
                   if b =? sep then option_map (cons (to_int32 v)) (scan_ints separators' rest') else None
               | [] => None
               end
      end
  end.

Definition ParseRTLogTime `{LocalTime} (text : list Z) : Z :=
  match scan_ints [45; 45; 32; 58; 58] (until 0 text).1 with
  | Some [year; month; day; hour; minute; second] =>
      let t := mktime (year - 1900) (month - 1) day hour minute second in
      if t =? -1 then 0 else t
  | _ => 0
  end.

(** Carriage return, newline, space. *)
Definition padding : list Z := [13; 10; 32].
Definition drop_front (text : list Z) : list Z := skip_set padding text.
Definition drop_back (text : list Z) : list Z := rev (skip_set padding (rev text)).

Definition add_param (out : gmap (list Z) (list Z)) (pair : list Z) : gmap (list Z) (list Z) :=
  match until 61 pair with
  | (_, []) => out
  | (key, _ :: value) =>
      match drop_front key with
      | [] => out
      | key' => <[key' := drop_back value]> out
      end
  end.

Definition ParseDeviceParams (buffer : list Z) : gmap (list Z) (list Z) :=
  foldl add_param ∅ (split_on 44 (until 0 buffer).1).

Definition ParamInt (params : gmap (list Z) (list Z)) (key : list Z) : Z :=
  match params !! key with
  | None => 0
  | Some text => default 0 (stoi text)
  end.

Definition UnpackDoorBytes (packed : Z) : list Z :=
  map (fun i => Z.land (Z.shiftr packed (8 * i)) 0xFF) [0; 1; 2; 3].

(** ** Backends *)

(** What the controller asks of a backend: results as the methods return them,
    and the backend after the call.  [BackendErrorText] is the text of its last
    failure. *)
Class Backend (B : Type) := {
  SetBackendPreference : list Z -> B -> B;
  BackendConnect : list Z -> B -> res (bool * B);
  BackendDisconnect : B -> B;
  BackendControlDevice : Z -> Z -> Z -> Z -> Z -> list Z -> B -> res (Z * B);
  BackendGetDeviceParam : list Z -> Z -> B -> res ((list Z * Z) * B);
  BackendSetDeviceParam : list Z -> B -> res (Z * B);
  BackendGetRTLog : Z -> B -> res ((list Z * Z) * B);
  BackendErrorText : B -> list Z
}.

(** It promises to answer. *)
Class BackendAnswers (B : Type) `{Backend B} : Prop := {
  BackendConnect_answers s b : exists r, BackendConnect s b = Ok r;
  BackendControlDevice_answers op p1 p2 p3 p4 o b : exists r, BackendControlDevice op p1 p2 p3 p4 o b = Ok r;
  BackendGetDeviceParam_answers i n b : exists r, BackendGetDeviceParam i n b = Ok r;
  BackendSetDeviceParam_answers v b : exists r, BackendSetDeviceParam v b = Ok r;
  BackendGetRTLog_answers n b : exists r, BackendGetRTLog n b = Ok r
}.

(** The methods of PullSdkClient; [pull_error] is the code of its last error. *)
Class PullSdk (P : Type) := {
  pull_connect : list Z -> P -> bool * P;
  pull_disconnect : P -> P;
  pull_control : Z -> Z -> Z -> Z -> Z -> list Z -> P -> Z * P;
  pull_get_param : list Z -> Z -> P -> (list Z * Z) * P;
  pull_set_param : list Z -> P -> Z * P;
  pull_get_rtlog : Z -> P -> (list Z * Z) * P;
  pull_error : P -> Z;
  HSF_ENABLE_ZK : bool
}.

(** Where the SDK is not built in. *)
#[global] Instance PullSdkClient_stub : PullSdk unit := {|
  pull_connect _ p := (false, p);
  pull_disconnect p := p;
  pull_control _ _ _ _ _ _ p := (-1, p);
  pull_get_param _ _ p := (([], -1), p);
  pull_set_param _ p := (-1, p);
  pull_get_rtlog _ p := (([], -1), p);
  pull_error _ := -1000;
  HSF_ENABLE_ZK := false
|}.

Definition pull_errors : list (Z * string) :=
  [(0, "Ok"); (-1, "CommandSendFailed"); (-2, "NoResponse"); (-3, "BufferTooSmall"); (-4, "DecompressFailed");
   (-5, "InvalidDataLength"); (-6, "DecompressedLengthMismatch"); (-7, "DuplicateCommand"); (-8, "NotAuthorized");
   (-9, "CrcError"); (-10, "DataParseFailed"); (-11, "InvalidDataParameter"); (-12, "CommandExecutionFailed");
   (-13, "CommandUnavailable"); (-14, "WrongCommPassword"); (-15, "FileWriteFailed"); (-16, "FileReadFailed");
   (-17, "FileNotFound"); (-99, "UnknownError"); (-100, "TableStructureNotFound");
   (-101, "ConditionFieldNotFound"); (-102, "FieldCountMismatch"); (-103, "FieldOrderMismatch");
   (-104, "RealtimeEventDataError"); (-105, "DataParseInternalError"); (-106, "DataOverflow");
   (-107, "GetTableStructureFailed"); (-108, "InvalidOptions"); (-201, "LoadLibraryFailed");
   (-202, "InterfaceCallFailed"); (-203, "CommInitFailed"); (-206, "SerialAgentStartFailed");
   (-301, "WrongTcpIpVersionRequest"); (-302, "WrongVersionNumber"); (-303, "GetProtocolTypeFailed");
   (-304, "InvalidSocket"); (-305, "SocketError"); (-306, "HostError"); (-307, "ConnectionFailed");
   (-1000, "NotSupportedOnThisPlatform")]%string.

Definition PullErrorToString (err : Z) : list Z :=
  match List.find (fun e => e.1 =? err) pull_errors with
  | Some (_, name) => bytes_of name
  | None => b! "UnknownError"
  end.

(** Both backends, and how the next connections of the C3 client's socket will
    come out. *)
Record Backends (P : Type) := mkBackends {
  client_ : P; c3Client_ : C3Client; useC3_ : bool; backendPreference_ : list Z; dials : list (option TcpSocket)
}.
Arguments mkBackends {P} _ _ _ _ _.
Arguments client_ {P} _. Arguments c3Client_ {P} _. Arguments useC3_ {P} _.
Arguments backendPreference_ {P} _. Arguments dials {P} _.

Section BothBackends.
Context {P : Type} `{PullSdk P}.
Implicit Types b : Backends P.

Definition set_client b (p : P) := mkBackends p (c3Client_ b) (useC3_ b) (backendPreference_ b) (dials b).
Definition set_c3 b (c : C3Client) := mkBackends (client_ b) c (useC3_ b) (backendPreference_ b) (dials b).

Definition SetBackend (backend : list Z) b : Backends P :=
  mkBackends (client_ b) (c3Client_ b) (useC3_ b) (first_text backend (b! "auto")) (dials b).

Definition BackendName b : list Z := if useC3_ b then b! "c3" else b! "pullsdk".

Definition select_backend b : bool :=
  if bool_decide (backendPreference_ b = b! "c3") then true
  else if bool_decide (backendPreference_ b = b! "pullsdk") then false
  else negb HSF_ENABLE_ZK.

Definition backend_connect (connectionString : list Z) b : res (bool * Backends P) :=
  let b := mkBackends (client_ b) (c3Client_ b) (select_backend b) (backendPreference_ b) (dials b) in
  if useC3_ b then
    '(ok, c) ← C3Client.Connect (c3Client_ b) connectionString (default None (dials b !! 0%nat)) (default None (dials b !! 1%nat));
    Ok (ok, mkBackends (client_ b) c (useC3_ b) (backendPreference_ b) (drop 2 (dials b)))
  else let '(ok, p) := pull_connect connectionString (client_ b) in Ok (ok, set_client b p).

Definition backend_disconnect b : Backends P :=
  if useC3_ b then set_c3 b (C3Client.Disconnect (c3Client_ b)) else set_client b (pull_disconnect (client_ b)).

Definition backend_control (op p1 p2 p3 p4 : Z) (options : list Z) b : res (Z * Backends P) :=
  if useC3_ b then '(ret, c) ← C3Client.ControlDevice (c3Client_ b) op p1 p2 p3; Ok (ret, set_c3 b c)
  else let '(ret, p) := pull_control op p1 p2 p3 p4 options (client_ b) in Ok (ret, set_client b p).

Definition backend_get_param (items : list Z) (bufferSize : Z) b : res ((list Z * Z) * Backends P) :=
  if useC3_ b then '(r, c) ← C3Client.GetDeviceParam (c3Client_ b) items; Ok (r, set_c3 b c)
  else let '(r, p) := pull_get_param items bufferSize (client_ b) in Ok (r, set_client b p).

Definition backend_set_param (itemValues : list Z) b : res (Z * Backends P) :=
  if useC3_ b then let '(ret, c) := C3Client.SetDeviceParam (c3Client_ b) in Ok (ret, set_c3 b c)
  else let '(ret, p) := pull_set_param itemValues (client_ b) in Ok (ret, set_client b p).

Definition backend_get_rtlog (bufferSize : Z) b : res ((list Z * Z) * Backends P) :=
  if useC3_ b then '(r, c) ← C3Client.GetRTLog (c3Client_ b); Ok (r, set_c3 b c)
  else let '(r, p) := pull_get_rtlog bufferSize (client_ b) in Ok (r, set_client b p).

Definition backend_error_text b : list Z :=
  if useC3_ b then first_text (C3Client.lastError_ (c3Client_ b)) (b! "the C3 backend gave no reason")
  else b! "PullSDK error " ++ num (pull_error (client_ b)) ++ b! " ("
       ++ PullErrorToString (pull_error (client_ b)) ++ b! ")".

#[global] Instance both_backends : Backend (Backends P) := {|
  SetBackendPreference := SetBackend;
  BackendConnect := backend_connect;
  BackendDisconnect := backend_disconnect;
  BackendControlDevice := backend_control;
  BackendGetDeviceParam := backend_get_param;
  BackendSetDeviceParam := backend_set_param;
  BackendGetRTLog := backend_get_rtlog;
  BackendErrorText := backend_error_text
|}.
End BothBackends.

(** A backend that also keeps the calls that reach the panel: the connection
    strings dialled, and the control commands with what they returned. *)
Inductive Command :=
| Dial (connectionString : list Z)
| Control (operation p1 p2 p3 p4 : Z) (ret : Z).

#[global] Instance recording {B} `{Backend B} : Backend (B * list Command) := {|
  SetBackendPreference p b := (SetBackendPreference p b.1, b.2);
  BackendConnect s b := '(ok, b') ← BackendConnect s b.1; Ok (ok, (b', b.2 ++ [Dial s]));
  BackendDisconnect b := (BackendDisconnect b.1, b.2);
  BackendControlDevice op p1 p2 p3 p4 o b :=
    '(ret, b') ← BackendControlDevice op p1 p2 p3 p4 o b.1; Ok (ret, (b', b.2 ++ [Control op p1 p2 p3 p4 ret]));
  BackendGetDeviceParam i n b := '(r, b') ← BackendGetDeviceParam i n b.1; Ok (r, (b', b.2));
  BackendSetDeviceParam v b := '(r, b') ← BackendSetDeviceParam v b.1; Ok (r, (b', b.2));
  BackendGetRTLog n b := '(r, b') ← BackendGetRTLog n b.1; Ok (r, (b', b.2));
  BackendErrorText b := BackendErrorText b.1
|}.

(** ** State *)

Record ZkIoState := mkIo {
  doors : list Z; alarms : list Z; status_time : list Z; status_seen : bool;
  aux_inputs : gmap Z bool; aux_input_at : gmap Z Z; aux_input_seen : bool;
  lock_count : Z; aux_out_count : Z; aux_in_count : Z; reader_count : Z
}.
Definition new_io : ZkIoState := mkIo [] [] [] false ∅ ∅ false 0 0 0 0.

Record ZkCardEvent := mkCard {
  cardData : list Z; doorId : Z; inOutStatus : Z; verifyMode : Z; eventType : Z; timestamp : Z
}.

(** Which callbacks are set, and the calls made of them. *)
Record Callbacks := mkCallbacks {
  connectionCallback_ : bool; cardCallback_ : bool; rawCallback_ : bool; auxInputCallback_ : bool; eventCallback_ : bool
}.
Inductive ZkCall :=
| OnConnection (connected : bool)
| OnCard (event : ZkCardEvent)
| OnRaw (buffer : list Z)
| OnAuxInput (input : Z) (shorted : bool)
| OnEvent (event : RTLogEvent).

(** [clientBusy_] is clientMutex_ held from one action to the next; [calls] are
    the callbacks that were called, in order. *)
Record ZkController (B : Type) := mkZk {
  backend : B;
  clientBusy_ : bool;
  lastConnectionString_ : list Z;
  lastError_ : list Z;
  threadRunning_ : bool;
  enabled_ : bool;
  connected_ : bool;
  reconnecting_ : bool;
  reconnectingSince_ : Z;
  autoReconnect_ : bool;
  rtlogRunning_ : bool;
  countsPending_ : bool;
  io_ : ZkIoState;
  callbacks_ : Callbacks;
  connectionEvents_ : list bool;
  calls : list ZkCall
}.
Arguments mkZk {B} _ _ _ _ _ _ _ _ _ _ _ _ _ _ _ _.
Arguments backend {B} _.
Arguments clientBusy_ {B} _.
Arguments lastConnectionString_ {B} _.
Arguments lastError_ {B} _.
Arguments threadRunning_ {B} _.
Arguments enabled_ {B} _.
Arguments connected_ {B} _.
Arguments reconnecting_ {B} _.
Arguments reconnectingSince_ {B} _.
Arguments autoReconnect_ {B} _.
Arguments rtlogRunning_ {B} _.
Arguments countsPending_ {B} _.
Arguments io_ {B} _.
Arguments callbacks_ {B} _.
Arguments connectionEvents_ {B} _.
Arguments calls {B} _.

Section Controller.
Context {B : Type} `{Backend B} `{LocalTime}.
Implicit Types s : ZkController B.

Definition new_controller (b : B) : ZkController B :=
  mkZk b false [] [] false true false false 0 true false false new_io (mkCallbacks false false false false false) [] [].

Definition set_backend (v : B) s : ZkController B :=
  mkZk v (clientBusy_ s) (lastConnectionString_ s) (lastError_ s) (threadRunning_ s) (enabled_ s) (connected_ s)
    (reconnecting_ s) (reconnectingSince_ s) (autoReconnect_ s) (rtlogRunning_ s) (countsPending_ s) (io_ s)
    (callbacks_ s) (connectionEvents_ s) (calls s).
Definition set_clientBusy (v : bool) s : ZkController B :=
  mkZk (backend s) v (lastConnectionString_ s) (lastError_ s) (threadRunning_ s) (enabled_ s) (connected_ s)
    (reconnecting_ s) (reconnectingSince_ s) (autoReconnect_ s) (rtlogRunning_ s) (countsPending_ s) (io_ s)
    (callbacks_ s) (connectionEvents_ s) (calls s).
Definition set_lastConnectionString (v : list Z) s : ZkController B :=
  mkZk (backend s) (clientBusy_ s) v (lastError_ s) (threadRunning_ s) (enabled_ s) (connected_ s)
    (reconnecting_ s) (reconnectingSince_ s) (autoReconnect_ s) (rtlogRunning_ s) (countsPending_ s) (io_ s)
    (callbacks_ s) (connectionEvents_ s) (calls s).
Definition set_lastError (v : list Z) s : ZkController B :=
  mkZk (backend s) (clientBusy_ s) (lastConnectionString_ s) v (threadRunning_ s) (enabled_ s) (connected_ s)
    (reconnecting_ s) (reconnectingSince_ s) (autoReconnect_ s) (rtlogRunning_ s) (countsPending_ s) (io_ s)
    (callbacks_ s) (connectionEvents_ s) (calls s).
Definition set_threadRunning (v : bool) s : ZkController B :=
  mkZk (backend s) (clientBusy_ s) (lastConnectionString_ s) (lastError_ s) v (enabled_ s) (connected_ s)
    (reconnecting_ s) (reconnectingSince_ s) (autoReconnect_ s) (rtlogRunning_ s) (countsPending_ s) (io_ s)
    (callbacks_ s) (connectionEvents_ s) (calls s).
Definition set_enabled (v : bool) s : ZkController B :=
  mkZk (backend s) (clientBusy_ s) (lastConnectionString_ s) (lastError_ s) (threadRunning_ s) v (connected_ s)
    (reconnecting_ s) (reconnectingSince_ s) (autoReconnect_ s) (rtlogRunning_ s) (countsPending_ s) (io_ s)
    (callbacks_ s) (connectionEvents_ s) (calls s).
Definition set_connected (v : bool) s : ZkController B :=
  mkZk (backend s) (clientBusy_ s) (lastConnectionString_ s) (lastError_ s) (threadRunning_ s) (enabled_ s) v
    (reconnecting_ s) (reconnectingSince_ s) (autoReconnect_ s) (rtlogRunning_ s) (countsPending_ s) (io_ s)
    (callbacks_ s) (connectionEvents_ s) (calls s).
Definition set_reconnecting (v : bool) s : ZkController B :=
  mkZk (backend s) (clientBusy_ s) (lastConnectionString_ s) (lastError_ s) (threadRunning_ s) (enabled_ s)
    (connected_ s) v (reconnectingSince_ s) (autoReconnect_ s) (rtlogRunning_ s) (countsPending_ s) (io_ s)
    (callbacks_ s) (connectionEvents_ s) (calls s).
Definition set_reconnectingSince (v : Z) s : ZkController B :=
  mkZk (backend s) (clientBusy_ s) (lastConnectionString_ s) (lastError_ s) (threadRunning_ s) (enabled_ s)
    (connected_ s) (reconnecting_ s) v (autoReconnect_ s) (rtlogRunning_ s) (countsPending_ s) (io_ s)
    (callbacks_ s) (connectionEvents_ s) (calls s).
Definition set_autoReconnect (v : bool) s : ZkController B :=
  mkZk (backend s) (clientBusy_ s) (lastConnectionString_ s) (lastError_ s) (threadRunning_ s) (enabled_ s)
    (connected_ s) (reconnecting_ s) (reconnectingSince_ s) v (rtlogRunning_ s) (countsPending_ s) (io_ s)
    (callbacks_ s) (connectionEvents_ s) (calls s).
Definition set_rtlogRunning (v : bool) s : ZkController B :=
  mkZk (backend s) (clientBusy_ s) (lastConnectionString_ s) (lastError_ s) (threadRunning_ s) (enabled_ s)
    (connected_ s) (reconnecting_ s) (reconnectingSince_ s) (autoReconnect_ s) v (countsPending_ s) (io_ s)
    (callbacks_ s) (connectionEvents_ s) (calls s).
Definition set_countsPending (v : bool) s : ZkController B :=
  mkZk (backend s) (clientBusy_ s) (lastConnectionString_ s) (lastError_ s) (threadRunning_ s) (enabled_ s)
    (connected_ s) (reconnecting_ s) (reconnectingSince_ s) (autoReconnect_ s) (rtlogRunning_ s) v (io_ s)
    (callbacks_ s) (connectionEvents_ s) (calls s).
Definition set_io (v : ZkIoState) s : ZkController B :=
  mkZk (backend s) (clientBusy_ s) (lastConnectionString_ s) (lastError_ s) (threadRunning_ s) (enabled_ s)
    (connected_ s) (reconnecting_ s) (reconnectingSince_ s) (autoReconnect_ s) (rtlogRunning_ s)
    (countsPending_ s) v (callbacks_ s) (connectionEvents_ s) (calls s).
Definition set_callbacks (v : Callbacks) s : ZkController B :=
  mkZk (backend s) (clientBusy_ s) (lastConnectionString_ s) (lastError_ s) (threadRunning_ s) (enabled_ s)
    (connected_ s) (reconnecting_ s) (reconnectingSince_ s) (autoReconnect_ s) (rtlogRunning_ s)
    (countsPending_ s) (io_ s) v (connectionEvents_ s) (calls s).
Definition set_connectionEvents (v : list bool) s : ZkController B :=
  mkZk (backend s) (clientBusy_ s) (lastConnectionString_ s) (lastError_ s) (threadRunning_ s) (enabled_ s)
    (connected_ s) (reconnecting_ s) (reconnectingSince_ s) (autoReconnect_ s) (rtlogRunning_ s)
    (countsPending_ s) (io_ s) (callbacks_ s) v (calls s).
Definition set_calls (v : list ZkCall) s : ZkController B :=
  mkZk (backend s) (clientBusy_ s) (lastConnectionString_ s) (lastError_ s) (threadRunning_ s) (enabled_ s)
    (connected_ s) (reconnecting_ s) (reconnectingSince_ s) (autoReconnect_ s) (rtlogRunning_ s)
    (countsPending_ s) (io_ s) (callbacks_ s) (connectionEvents_ s) v.

Abbreviation method := (prog (ZkController B)).

(** A critical section of clientMutex_. *)
Definition client_free s : bool := negb (clientBusy_ s).
Definition with_client {R} (f : ZkController B -> res (R * ZkController B)) : method R := Act client_free f Ret.

Definition call (c : ZkCall) : method unit := put (fun s => set_calls (calls s ++ [c]) s).
Definition skip : method unit := Ret tt.

(** ** Connection state *)

Definition SetLastError (context detail : list Z) : method unit :=
  put (set_lastError (context ++ b! " failed: " ++ detail)).

Definition SetConnected (connected : bool) : method unit :=
  changed ← act (fun s => if eqb (connected_ s) connected then (false, s) else (true, set_connected connected s));
  if negb changed then skip
  else
    (if connected then put (set_countsPending true) else skip) ≫= fun _ =>
    put (fun s => set_connectionEvents (connectionEvents_ s ++ [connected]) s).

(** [turns] bounds the turns of the loop that are looked at; a thread that has
    used them up stays there. *)
Fixpoint DeliverConnectionEvents (turns : nat) : method unit :=
  match turns with
  | O => Act (fun _ => false) (fun s => Ok (tt, s)) Ret
  | S turns' =>
      event ← act (fun s => match connectionEvents_ s with
                            | [] => (None, s)
                            | e :: rest => (Some e, set_connectionEvents rest s)
                            end);
      match event with
      | None => skip
      | Some connected =>
          callback ← get (fun s => connectionCallback_ (callbacks_ s));
          (if (callback : bool) then call (OnConnection connected) else skip) ≫= fun _ =>
          DeliverConnectionEvents turns'
      end
  end.

Definition Connect (ip : list Z) (port timeoutMs : Z) (password : list Z) : method bool :=
  put (set_reconnecting false) ≫= fun _ =>
  let connStr := BuildTcpConnectionString ip port timeoutMs password in
  outcome ← with_client (fun s =>
    if negb (enabled_ s)
    then Ok (None, set_lastError (b! "connect failed: built-in ZK protocol driver is disabled") s)
    else
      '(ok, b) ← BackendConnect connStr (backend s);
      Ok (Some (ok, if (ok : bool) then [] else BackendErrorText b), set_backend b s));
  match outcome with
  | None => mret false
  | Some (ok, failure) =>
      (if (ok : bool) then skip else SetLastError (b! "connect") failure) ≫= fun _ =>
      put (set_lastConnectionString connStr) ≫= fun _ =>
      SetConnected ok ≫= fun _ =>
      mret ok
  end.

Definition Disconnect : method unit :=
  put (set_reconnecting false) ≫= fun _ =>
  put_ready client_free (fun s => set_clientBusy true (set_backend (BackendDisconnect (backend s)) s)) ≫= fun _ =>
  SetConnected false ≫= fun _ =>
  put (set_clientBusy false).

Definition SetEnabled (enabled : bool) : method unit :=
  wasEnabled ← act (fun s => (enabled_ s, set_enabled enabled s));
  if wasEnabled && negb enabled then Disconnect else skip.

Definition SetBackendChoice (backend_ : list Z) : method unit :=
  with_client (fun s => Ok (tt, set_backend (SetBackendPreference backend_ (backend s)) s)).
Definition SetAutoReconnect (enable : bool) : method unit := put (set_autoReconnect enable).
Definition StartRTLog : method unit := put (set_rtlogRunning true).
Definition StopRTLog : method unit := put (set_rtlogRunning false).
Definition SetCallbacks (c : Callbacks) : method unit := put (set_callbacks c).

(** The new thread runs [RunLoop]. *)
Definition Start : method unit :=
  running ← get threadRunning_;
  if (running : bool) then skip else put (set_threadRunning true).

(** Joining the thread waits for its [RunLoop] to end. *)
Definition Stop : method unit :=
  running ← get threadRunning_;
  if negb running then skip
  else put (set_threadRunning false) ≫= fun _ => Disconnect.

(** ** Outputs *)

Definition ControlDevice (operationId param1 param2 param3 param4 : Z) (options : list Z) : method bool :=
  connected ← get connected_;
  if negb connected then
    put (set_lastError (b! "ControlDevice: the controller is not connected")) ≫= fun _ => mret false
  else
    '(ret, failure) ← with_client (fun s =>
      '(ret, b) ← BackendControlDevice operationId param1 param2 param3 param4 options (backend s);
      Ok ((ret, if ret <? 0 then BackendErrorText b else []), set_backend b s));
    if ret <? 0
    then SetLastError (b! "ControlDevice(" ++ num operationId ++ b! ")") failure ≫= fun _ => mret false
    else mret true.

Definition OpenDoor (door seconds : Z) : method bool := ControlDevice 1 door 1 seconds 0 [].
Definition SetAuxOutput (auxOutput seconds : Z) : method bool := ControlDevice 1 auxOutput 2 seconds 0 [].
Definition CancelAlarm : method bool := ControlDevice 2 0 0 0 0 [].
Definition RestartDevice : method bool := ControlDevice 3 0 0 0 0 [].
Definition SetNormallyOpen (door : Z) (enable : bool) : method bool :=
  ControlDevice 4 door (if enable then 1 else 0) 0 0 [].

Definition address_type (auxiliary : bool) : Z := if auxiliary then 2 else 1.

Definition ReleaseOutput (number : Z) (auxiliary : bool) : method bool :=
  if auxiliary then ControlDevice 1 number 2 0 0 []
  else
    zeroDuration ← ControlDevice 1 number 1 0 0 [];
    cancelLatch ← ControlDevice 4 number 0 0 0 [];
    mret (zeroDuration || cancelLatch).

Definition PulseOutput (number : Z) (auxiliary : bool) : method bool :=
  latched ← ControlDevice 1 number (address_type auxiliary) 255 0 [];
  if negb latched then mret false else ReleaseOutput number auxiliary.

Definition SetOutput (number : Z) (auxiliary on : bool) : method bool :=
  if on then ControlDevice 1 number (address_type auxiliary) 255 0 [] else ReleaseOutput number auxiliary.

Fixpoint beeps (count : nat) (number : Z) (auxiliary : bool) : method bool :=
  match count with
  | O => mret true
  | S count' =>
      ok ← PulseOutput number auxiliary;
      if negb ok then mret false else beeps count' number auxiliary
  end.
Definition Beep (number : Z) (auxiliary : bool) (count : Z) : method bool := beeps (Z.to_nat count) number auxiliary.

(** ** Parameters *)

Definition kBufferSize : Z := 256.

Definition GetParams (items : list Z) : method (gmap (list Z) (list Z)) :=
  '(buffer, ret) ← with_client (fun s =>
    '(r, b) ← BackendGetDeviceParam items kBufferSize (backend s);
    Ok (r, set_backend b s));
  mret (if ret <? 0 then ∅ else ParseDeviceParams buffer).

Definition SetParams (itemValues : list Z) : method bool :=
  connected ← get connected_;
  if negb connected then
    put (set_lastError (b! "SetDeviceParam: the controller is not connected")) ≫= fun _ => mret false
  else
    '(ret, failure) ← with_client (fun s =>
      '(ret, b) ← BackendSetDeviceParam itemValues (backend s);
      Ok ((ret, if ret <? 0 then BackendErrorText b else []), set_backend b s));
    if ret <? 0 then SetLastError (b! "SetDeviceParam") failure ≫= fun _ => mret false else mret true.

Definition on_io (f : ZkIoState -> ZkIoState) : method unit := put (fun s => set_io (f (io_ s)) s).

Definition RefreshCounts : method unit :=
  params ← GetParams (b! "LockCount,AuxOutCount,AuxInCount,ReaderCount");
  if decide (params = ∅) then skip
  else on_io (fun io => mkIo (doors io) (alarms io) (status_time io) (status_seen io) (aux_inputs io)
    (aux_input_at io) (aux_input_seen io) (ParamInt params (b! "LockCount")) (ParamInt params (b! "AuxOutCount"))
    (ParamInt params (b! "AuxInCount")) (ParamInt params (b! "ReaderCount"))).

(** ** The background thread *)

(** [later] is the clock after the failed call. *)
Definition DoHeartbeat (later : Z) : method unit :=
  '(ret, failure) ← with_client (fun s =>
    '((_, ret), b) ← BackendGetDeviceParam (b! "~SerialNumber") kBufferSize (backend s);
    Ok ((ret, if ret <? 0 then BackendErrorText b else []), set_backend b s));
  if ret <? 0 then
    SetLastError (b! "heartbeat") failure ≫= fun _ =>
    SetConnected false ≫= fun _ =>
    autoReconnect ← get autoReconnect_;
    if (autoReconnect : bool) then put (set_reconnectingSince later) ≫= fun _ => put (set_reconnecting true) else skip
  else skip.

Definition DoReconnectAttempt : method unit :=
  connStr ← get lastConnectionString_;
  '(ok, failure) ← with_client (fun s =>
    '(ok, b) ← BackendConnect connStr (BackendDisconnect (backend s));
    Ok ((ok, if (ok : bool) then [] else BackendErrorText b), set_backend b s));
  if (ok : bool) then put (set_reconnecting false) ≫= fun _ => SetConnected true
  else SetLastError (b! "reconnect") failure.

Definition door_status (status : DoorAlarmStatus) (io : ZkIoState) : ZkIoState :=
  mkIo (UnpackDoorBytes (dss_packed status)) (UnpackDoorBytes (alarm_packed status)) (d_time status) true
    (aux_inputs io) (aux_input_at io) (aux_input_seen io) (lock_count io) (aux_out_count io) (aux_in_count io)
    (reader_count io).

Definition aux_edge (event : RTLogEvent) (io : ZkIoState) : ZkIoState :=
  mkIo (doors io) (alarms io) (status_time io) (status_seen io)
    (<[e_door event := (e_type event =? 221)]> (aux_inputs io))
    (<[e_door event := ParseRTLogTime (e_time event)]> (aux_input_at io)) true
    (lock_count io) (aux_out_count io) (aux_in_count io) (reader_count io).

Definition card_event (event : RTLogEvent) : ZkCardEvent :=
  mkCard (e_card event) (e_door event) (e_in_out event) (e_verify event) (e_type event) (ParseRTLogTime (e_time event)).

Definition on_aux_event (auxCallback : bool) (event : RTLogEvent) : method unit :=
  if negb (e_type event =? 220) && negb (e_type event =? 221) then skip
  else
    on_io (aux_edge event) ≫= fun _ =>
    if auxCallback then call (OnAuxInput (e_door event) (e_type event =? 221)) else skip.

Definition on_card_event (cardCallback : bool) (event : RTLogEvent) : method unit :=
  if bool_decide (e_card event = b! "0") then skip
  else if cardCallback then call (OnCard (card_event event)) else skip.

Definition DoPoll : method unit :=
  '(buffer, ret) ← with_client (fun s =>
    '(r, b) ← BackendGetRTLog kBufferSize (backend s);
    Ok (r, set_backend b s));
  if ret <=? 0 then skip
  else
    cb ← get callbacks_;
    (if rawCallback_ cb then call (OnRaw (until 0 buffer).1) else skip) ≫= fun _ =>
    let parsed := ParseRTLogBuffer buffer in
    (if eventCallback_ cb then each (fun event => call (OnEvent event)) (events parsed) else skip) ≫= fun _ =>
    each (fun status => on_io (door_status status)) (statuses parsed) ≫= fun _ =>
    each (on_aux_event (auxInputCallback_ cb)) (events parsed) ≫= fun _ =>
    each (on_card_event (cardCallback_ cb)) (events parsed).

(** When the thread wakes, the clock after a failed heartbeat of that turn,
    and how many events it may find to deliver. *)
Record Tick := mkTick { t_now : Z; t_later : Z; t_turns : nat }.

Definition loop_connected (tick : Tick) (lastHeartbeat lastPoll : Z) : method (Z * Z) :=
  pending ← act (fun s => (countsPending_ s, set_countsPending false s));
  (if (pending : bool) then RefreshCounts else skip) ≫= fun _ =>
  let beat := 5000 <=? t_now tick - lastHeartbeat in
  (if beat then DoHeartbeat (t_later tick) else skip) ≫= fun _ =>
  running ← get rtlogRunning_;
  let poll := running && (500 <=? t_now tick - lastPoll) in
  (if poll then DoPoll else skip) ≫= fun _ =>
  mret (if beat then t_now tick else lastHeartbeat, if poll then t_now tick else lastPoll).

Definition loop_disconnected (tick : Tick) : method unit :=
  reconnecting ← get reconnecting_;
  if negb reconnecting then skip
  else
    since ← get reconnectingSince_;
    if 5000 <=? t_now tick - since
    then put (set_reconnectingSince (t_now tick)) ≫= fun _ => DoReconnectAttempt
    else skip.

(** The thread over the given wake-ups. *)
Fixpoint RunLoop (ticks : list Tick) (lastHeartbeat lastPoll : Z) : method unit :=
  match ticks with
  | [] => skip
  | tick :: ticks' =>
      running ← get threadRunning_;
      if negb running then skip
      else
        DeliverConnectionEvents (t_turns tick) ≫= fun _ =>
        enabled ← get enabled_;
        if negb enabled then RunLoop ticks' lastHeartbeat lastPoll
        else
          connected ← get connected_;
          if (connected : bool) then
            times ← loop_connected tick lastHeartbeat lastPoll;
            RunLoop ticks' times.1 times.2
          else loop_disconnected tick ≫= fun _ => RunLoop ticks' lastHeartbeat lastPoll
  end.
End Controller.

(** ** The backends answer *)

#[global] Instance both_answer {P} `{PullSdk P} : BackendAnswers (Backends P).
Proof.
  split.
  - intros s b. cbn. unfold backend_connect. destruct (useC3_ _).
    + destruct (Connect_total (c3Client_ b) s (default None (dials b !! 0%nat)) (default None (dials b !! 1%nat)))
        as [[ok c] E]. cbn. rewrite E. by eexists.
    + destruct (pull_connect _ _). by eexists.
  - intros op p1 p2 p3 p4 o b. cbn. unfold backend_control. destruct (useC3_ _); [|destruct (pull_control _ _ _ _ _ _ _); by eexists].
    destruct (ControlDevice_total (c3Client_ b) op p1 p2 p3) as [[ret c] ->]. by eexists.
  - intros i n b. cbn. unfold backend_get_param. destruct (useC3_ _); [|destruct (pull_get_param _ _ _); by eexists].
    destruct (GetDeviceParam_total (c3Client_ b) i) as [[r c] ->]. by eexists.
  - intros v b. cbn. unfold backend_set_param. destruct (useC3_ _); [by eexists|]. destruct (pull_set_param _ _). by eexists.
  - intros n b. cbn. unfold backend_get_rtlog. destruct (useC3_ _); [|destruct (pull_get_rtlog _ _); by eexists].
    destruct (GetRTLog_total (c3Client_ b)) as [[r c] ->]. by eexists.
Qed.

#[global] Instance recording_answers {B} `{BackendAnswers B} : BackendAnswers (B * list Command).
Proof.
  split.
  - intros s b. cbn. destruct (BackendConnect_answers s b.1) as [[ok b'] ->]. by eexists.
  - intros op p1 p2 p3 p4 o b. cbn. destruct (BackendControlDevice_answers op p1 p2 p3 p4 o b.1) as [[ok b'] ->]. by eexists.
  - intros i n b. cbn. destruct (BackendGetDeviceParam_answers i n b.1) as [[ok b'] ->]. by eexists.
  - intros v b. cbn. destruct (BackendSetDeviceParam_answers v b.1) as [[ok b'] ->]. by eexists.
  - intros n b. cbn. destruct (BackendGetRTLog_answers n b.1) as [[ok b'] ->]. by eexists.
Qed.

(** ** What is dialled *)

Section Dialling.
Context {B : Type} `{BackendAnswers B} `{LocalTime}.
Context (asked : list Z -> Z -> Z -> list Z -> Prop).
Abbreviation controller := (ZkController (B * list Command)).

(** A connection string for a panel that was asked for. *)
Definition asked_string (s : list Z) : Prop :=
  exists ip port timeoutMs password, asked ip port timeoutMs password /\
    s = BuildTcpConnectionString ip port timeoutMs password.

Definition dial_ok (c : Command) : Prop := match c with Dial s => asked_string s | Control _ _ _ _ _ _ => True end.

Definition dial_inv (s : controller) : Prop :=
  Forall dial_ok (backend s).2 /\ (connected_ s || reconnecting_ s = true -> asked_string (lastConnectionString_ s)).

(** There is a string to fall back on, and there stays one. *)
Definition has_string (s : controller) : Prop := asked_string (lastConnectionString_ s).
Definition dial_later (s s' : controller) : Prop := has_string s -> has_string s'.

#[global] Instance dial_later_preorder : PreOrder dial_later.
Proof. split; [by intros s ?|]. intros a b c Hab Hbc Ha. auto. Qed.

(** The methods, their results ignored. *)
Definition void {A} (p : prog controller A) : prog controller unit := p ≫= fun _ => Ret tt.

Inductive zk_method : prog controller unit -> Prop :=
| zk_connect ip port timeoutMs password : asked ip port timeoutMs password ->
    zk_method (void (Connect ip port timeoutMs password))
| zk_disconnect : zk_method Disconnect
| zk_set_enabled enabled : zk_method (SetEnabled enabled)
| zk_start : zk_method Start
| zk_stop : zk_method Stop
| zk_set_backend choice : zk_method (SetBackendChoice choice)
| zk_auto enable : zk_method (SetAutoReconnect enable)
| zk_start_log : zk_method StartRTLog
| zk_stop_log : zk_method StopRTLog
| zk_callbacks c : zk_method (SetCallbacks c)
| zk_control op p1 p2 p3 p4 options : zk_method (void (ControlDevice op p1 p2 p3 p4 options))
| zk_release number auxiliary : zk_method (void (ReleaseOutput number auxiliary))
| zk_pulse number auxiliary : zk_method (void (PulseOutput number auxiliary))
| zk_beep number auxiliary count : zk_method (void (Beep number auxiliary count))
| zk_get_params items : zk_method (void (GetParams items))
| zk_set_params values : zk_method (void (SetParams values))
| zk_run_loop ticks lastHeartbeat lastPoll : zk_method (RunLoop ticks lastHeartbeat lastPoll).

(** An action that leaves alone what [dial_inv] looks at, or lowers its flags. *)
Definition harmless (s s' : controller) : Prop :=
  (exists l, (backend s').2 = (backend s).2 ++ l /\ Forall dial_ok l) /\
  lastConnectionString_ s' = lastConnectionString_ s /\
  (connected_ s' || reconnecting_ s' = true -> connected_ s || reconnecting_ s = true).

Lemma harmless_inv s s' : harmless s s' -> dial_inv s -> dial_inv s' /\ dial_later s s'.
Proof.
  intros ((l & E & Hl) & E2 & E3) [E4 E5]. unfold dial_inv, dial_later, has_string. rewrite E, E2.
  split; [split; [by apply Forall_app|auto]|done].
Qed.

Lemma harmless_quiet s s' : (backend s').2 = (backend s).2 -> lastConnectionString_ s' = lastConnectionString_ s ->
  (connected_ s' || reconnecting_ s' = true -> connected_ s || reconnecting_ s = true) -> harmless s s'.
Proof. intros E1 E2 E3. split; [|done]. exists []. by rewrite app_nil_r. Qed.

(** Methods made of harmless actions only. *)
Definition quiet {A} (p : prog controller A) : Prop := forall K : controller -> Prop,
  (forall s s', dial_later s s' -> K s -> K s') -> keeps dial_later (fun s => dial_inv s /\ K s) p.

Lemma quiet_bind {A A'} (p : prog controller A) (k : A -> prog controller A') :
  quiet p -> (forall a, quiet (k a)) -> quiet (p ≫= k).
Proof. intros Hp Hk K HK. apply keeps_bind; [by apply Hp|intros a; by apply Hk]. Qed.

Lemma quiet_ret {A} (a : A) : quiet (Ret a).
Proof. done. Qed.

Lemma quiet_act {R} ready (f : controller -> res (R * controller)) :
  (forall s, ready s = true -> exists r s', f s = Ok (r, s') /\ harmless s s') -> quiet (Act ready f Ret).
Proof.
  intros Hf K HK s [Hi Hs] Hr. destruct (Hf s Hr) as (r & s' & -> & Hh).
  destruct (harmless_inv s s' Hh Hi) as [Hi' HG]. split_and!; [done|by eapply HK|done|done].
Qed.

Lemma quiet_get {R} (f : controller -> R) : quiet (get f).
Proof. apply quiet_act. intros s _. exists (f s), s. split; [done|]. by apply harmless_quiet. Qed.

Lemma quiet_put (f : controller -> controller) : (forall s, harmless s (f s)) -> quiet (put f).
Proof. intros Hf. apply quiet_act. intros s _. by exists tt, (f s). Qed.

Lemma quiet_each {A} (body : A -> prog controller unit) l : (forall a, quiet (body a)) -> quiet (each body l).
Proof. intros Hb. induction l as [|a l IH]; [by apply quiet_ret|]. apply quiet_bind; auto. Qed.

Lemma quiet_safe {A} (p : prog controller A) s : quiet p -> safe dial_inv dial_later p (fun _ _ => True) s.
Proof.
  intros Hp. apply (keeps_safe dial_inv dial_later (fun _ => True)); [done| |done]. apply Hp. done.
Qed.

(** A critical section that calls the panel without dialling. *)
Lemma quiet_client {R} (f : controller -> res (R * controller)) :
  (forall s, exists r s', f s = Ok (r, s') /\ harmless s s') -> quiet (with_client f).
Proof. intros Hf. apply quiet_act. intros s _. apply Hf. Qed.

Ltac quiet_tac := repeat match goal with
  | |- quiet (_ ≫= _) => apply quiet_bind; [|intros ?]
  | |- quiet (Ret _) => apply quiet_ret
  | |- quiet (mret _) => apply quiet_ret
  | |- quiet (get _) => apply quiet_get
  | |- quiet (each _ _) => apply quiet_each; intros ?
  | |- quiet (put _) => apply quiet_put; intros ?; apply harmless_quiet;
      solve [done|cbn; match goal with |- context [connected_ ?c] => by destruct (connected_ c), (reconnecting_ c) end]
  | |- quiet (if ?b then _ else _) => destruct b
  | |- quiet (match ?x with _ => _ end) => destruct x
  end.

(** Lowering the connected flag. *)
Lemma quiet_disconnected : quiet (SetConnected false).
Proof.
  unfold SetConnected, skip. quiet_tac. apply quiet_act. intros s _. destruct (eqb _ _); do 2 eexists; (split; [done|]).
  - by apply harmless_quiet.
  - apply harmless_quiet; [done|done|]. cbn. intros ->. apply orb_true_r.
Qed.

Lemma quiet_Disconnect : quiet Disconnect.
Proof.
  unfold Disconnect. quiet_tac.
  - apply quiet_act. intros s _. do 2 eexists. split; [done|]. by apply harmless_quiet.
  - apply quiet_disconnected.
Qed.

Lemma quiet_ControlDevice op p1 p2 p3 p4 options : quiet (ControlDevice op p1 p2 p3 p4 options).
Proof.
  unfold ControlDevice, SetLastError. quiet_tac. apply quiet_client. intros s.
  destruct (BackendControlDevice_answers op p1 p2 p3 p4 options (backend s).1) as [[ret b] E].
  cbn. rewrite E. do 2 eexists. split; [done|]. split; [|done]. eexists. split; [done|]. by repeat constructor.
Qed.

Lemma quiet_ReleaseOutput number auxiliary : quiet (ReleaseOutput number auxiliary).
Proof. unfold ReleaseOutput. quiet_tac; apply quiet_ControlDevice. Qed.

Lemma quiet_PulseOutput number auxiliary : quiet (PulseOutput number auxiliary).
Proof. unfold PulseOutput. quiet_tac; [apply quiet_ControlDevice|apply quiet_ReleaseOutput]. Qed.

Lemma quiet_beeps count number auxiliary : quiet (beeps count number auxiliary).
Proof. induction count as [|count IH]; cbn [beeps]; quiet_tac; [apply quiet_PulseOutput|done]. Qed.

Lemma quiet_GetParams items : quiet (GetParams items).
Proof.
  unfold GetParams. quiet_tac. apply quiet_client. intros s.
  destruct (BackendGetDeviceParam_answers items kBufferSize (backend s).1) as [[r b] E].
  cbn. rewrite E. do 2 eexists. split; [done|]. by apply harmless_quiet.
Qed.

Lemma quiet_SetParams values : quiet (SetParams values).
Proof.
  unfold SetParams, SetLastError. quiet_tac. apply quiet_client. intros s.
  destruct (BackendSetDeviceParam_answers values (backend s).1) as [[r b] E].
  cbn. rewrite E. do 2 eexists. split; [done|]. by apply harmless_quiet.
Qed.

Lemma quiet_deliver turns : quiet (DeliverConnectionEvents turns).
Proof.
  induction turns as [|turns IH]; cbn [DeliverConnectionEvents].
  - apply quiet_act. done.
  - unfold call, skip. quiet_tac; [|done]. apply quiet_act. intros s _. destruct (connectionEvents_ s); do 2 eexists;
      (split; [done|]); by apply harmless_quiet.
Qed.

Lemma quiet_RefreshCounts : quiet RefreshCounts.
Proof. unfold RefreshCounts, on_io, skip. quiet_tac. apply quiet_GetParams. Qed.

Lemma quiet_DoPoll : quiet DoPoll.
Proof.
  unfold DoPoll, on_aux_event, on_card_event, on_io, call, skip. quiet_tac. apply quiet_client. intros s.
  destruct (BackendGetRTLog_answers kBufferSize (backend s).1) as [[r b] E].
  cbn. rewrite E. do 2 eexists. split; [done|]. by apply harmless_quiet.
Qed.

Lemma has_string_stable s s' : dial_later s s' -> has_string s -> has_string s'.
Proof. auto. Qed.

(** With a string to fall back on, the flags may be raised. *)
Definition grounded {A} (p : prog controller A) : Prop := keeps dial_later (fun s => dial_inv s /\ has_string s) p.

Lemma quiet_grounded {A} (p : prog controller A) : quiet p -> grounded p.
Proof. intros Hp. apply Hp, has_string_stable. Qed.

Lemma grounded_safe {A} (p : prog controller A) s : grounded p -> has_string s ->
  safe dial_inv dial_later p (fun _ _ => True) s.
Proof.
  intros Hp Hs. eapply safe_weaken; [apply (keeps_safe _ _ has_string); [apply has_string_stable|done|done]|done].
Qed.

Lemma grounded_raise (f : controller -> controller) :
  (forall s, (backend (f s)).2 = (backend s).2 /\ lastConnectionString_ (f s) = lastConnectionString_ s) -> grounded (put f).
Proof.
  intros Hf. apply keeps_put. intros s [[Hd _] Hs]. destruct (Hf s) as [E1 E2].
  unfold dial_inv, dial_later, has_string in *. rewrite E1, E2. auto.
Qed.

Lemma grounded_SetConnected connected : grounded (SetConnected connected).
Proof.
  destruct connected; [|apply quiet_grounded, quiet_disconnected]. unfold SetConnected. apply keeps_bind.
  - apply keeps_act. intros s [[Hd Hf] Hs]. destruct (eqb _ _); [by split_and!|].
    unfold dial_inv, dial_later, has_string in *. cbn. auto.
  - intros changed. apply quiet_grounded. unfold skip. quiet_tac.
Qed.

Lemma grounded_DoHeartbeat later : grounded (DoHeartbeat later).
Proof.
  unfold DoHeartbeat. apply keeps_bind.
  - apply quiet_grounded, quiet_client. intros s.
    destruct (BackendGetDeviceParam_answers (b! "~SerialNumber") kBufferSize (backend s).1) as [[[t ret] b] E].
    cbn -[bytes_of]. rewrite E. do 2 eexists. split; [done|]. by apply harmless_quiet.
  - intros [ret failure]. destruct (ret <? 0); [|done]. unfold SetLastError.
    apply keeps_bind; [apply quiet_grounded; quiet_tac|]. intros _.
    apply keeps_bind; [apply grounded_SetConnected|]. intros _.
    apply keeps_bind; [apply quiet_grounded, quiet_get|]. intros [|]; [|done].
    apply keeps_bind; [apply quiet_grounded; quiet_tac|]. intros _. by apply grounded_raise.
Qed.

Lemma grounded_DoReconnectAttempt : grounded DoReconnectAttempt.
Proof.
  unfold DoReconnectAttempt. intros s [Hi Hs] _. split_and!; [done|done|done|].
  change (grounded (with_client (fun s0 : controller =>
    '(ok, b) ← BackendConnect (lastConnectionString_ s) (BackendDisconnect (backend s0));
    Ok ((ok, if (ok : bool) then [] else BackendErrorText b), set_backend b s0)) ≫= fun '(ok, failure) =>
    if (ok : bool) then put (set_reconnecting false) ≫= fun _ => SetConnected true
    else SetLastError (b! "reconnect") failure)).
  apply keeps_bind.
  - apply quiet_grounded, quiet_client. intros s0. cbn.
    destruct (BackendConnect_answers (lastConnectionString_ s) (BackendDisconnect (backend s0).1)) as [[ok b] ->].
    do 2 eexists. split; [done|]. split; [|done]. eexists. split; [done|]. repeat constructor. exact Hs.
  - intros [ok failure]. destruct ok.
    + apply keeps_bind; [apply quiet_grounded; quiet_tac|intros _; apply grounded_SetConnected].
    + apply quiet_grounded. unfold SetLastError. quiet_tac.
Qed.

Lemma grounded_loop_connected tick lastHeartbeat lastPoll : grounded (loop_connected tick lastHeartbeat lastPoll).
Proof.
  unfold loop_connected. apply keeps_bind.
  { apply quiet_grounded, quiet_act. intros s _. do 2 eexists. split; [done|]. by apply harmless_quiet. }
  intros pending. apply keeps_bind; [apply quiet_grounded; destruct pending; [apply quiet_RefreshCounts|done]|]. intros _.
  apply keeps_bind; [destruct (5000 <=? _); [apply grounded_DoHeartbeat|done]|]. intros _.
  apply quiet_grounded. quiet_tac; [apply quiet_DoPoll|done].
Qed.

(** Whoever sees a raised flag knows that there is a string. *)
Lemma safe_raised {A} (f : controller -> bool) (k : bool -> prog controller A) s :
  (forall s, f s = true -> connected_ s || reconnecting_ s = true) ->
  (forall s', has_string s' -> safe dial_inv dial_later (k true) (fun _ _ => True) s') ->
  (forall s', safe dial_inv dial_later (k false) (fun _ _ => True) s') ->
  safe dial_inv dial_later (get f ≫= k) (fun _ _ => True) s.
Proof.
  intros Hf Ht Hk. apply safe_get; [apply _|]. intros s1 _ [_ Hraised]. destruct (f s1) eqn:E; [|done]. apply Ht, Hraised, Hf, E.
Qed.

Lemma RunLoop_safe ticks : forall lastHeartbeat lastPoll s,
  safe dial_inv dial_later (RunLoop ticks lastHeartbeat lastPoll) (fun _ _ => True) s.
Proof.
  induction ticks as [|tick ticks IH]; intros hb lp s; cbn [RunLoop]; [done|].
  apply safe_get; [apply _|]. intros s1 _ _. destruct (threadRunning_ s1); [|done]. cbn [negb].
  eapply safe_bind; [apply quiet_safe, quiet_deliver|]. intros _ s2 _.
  apply safe_get; [apply _|]. intros s3 _ _. destruct (enabled_ s3); cbn [negb]; [|apply IH].
  apply safe_raised; [by intros s' ->|intros s4 Hs4|intros s4].
  - eapply safe_bind; [apply grounded_safe; [apply grounded_loop_connected|done]|]. intros times s5 _. apply IH.
  - eapply safe_bind; [|intros _ s5 _; apply IH]. unfold loop_disconnected.
    apply safe_raised; [intros s' ->; apply orb_true_r|intros s5 Hs5|done]. cbn [negb].
    apply grounded_safe; [|done]. apply keeps_bind; [apply quiet_grounded, quiet_get|]. intros since.
    destruct (5000 <=? _); [|done]. apply keeps_bind; [apply quiet_grounded; quiet_tac|].
    intros _. apply grounded_DoReconnectAttempt.
Qed.

Lemma Connect_safe ip port timeoutMs password s : asked ip port timeoutMs password ->
  safe dial_inv dial_later (Connect ip port timeoutMs password) (fun _ _ => True) s.
Proof.
  intros Hasked. assert (asked_string (BuildTcpConnectionString ip port timeoutMs password)) as Hs by (by do 4 eexists).
  unfold Connect. eapply safe_bind; [apply quiet_safe; quiet_tac|]. intros _ s1 _.
  eapply safe_bind.
  - apply quiet_safe, quiet_client. intros s2. destruct (enabled_ s2); cbn [negb].
    + cbn -[BuildTcpConnectionString]. destruct (BackendConnect_answers (BuildTcpConnectionString ip port timeoutMs password) (backend s2).1)
        as [[ok b] ->]. do 2 eexists. split; [done|]. split; [|done]. eexists. split; [done|]. by repeat constructor.
    + do 2 eexists. split; [done|]. by apply harmless_quiet.
  - intros [[ok failure]|] s2 _; [|done].
    eapply safe_bind; [apply quiet_safe; unfold SetLastError, skip; quiet_tac|]. intros _ s3 _.
    apply safe_act. intros s4 _ [Hd _] _. do 2 eexists. split; [done|]. split; [split; [done|intros _; exact Hs]|split; [intros _; exact Hs|]].
    eapply safe_bind; [apply grounded_safe; [apply grounded_SetConnected|done]|done].
Qed.

Lemma zk_method_safe p s : zk_method p -> safe dial_inv dial_later p (fun _ _ => True) s.
Proof.
  intros Hp. destruct Hp; try (eapply safe_bind; [by apply Connect_safe|done]); try apply RunLoop_safe;
    apply quiet_safe; unfold void, SetEnabled, Start, Stop, SetBackendChoice, SetAutoReconnect, StartRTLog, StopRTLog,
      SetCallbacks, skip; quiet_tac;
    eauto using quiet_Disconnect, quiet_ControlDevice, quiet_ReleaseOutput, quiet_PulseOutput, quiet_beeps, quiet_GetParams,
      quiet_SetParams.
  - apply quiet_act. intros s0 _. do 2 eexists. split; [done|]. by apply harmless_quiet.
  - apply quiet_client. intros s0. do 2 eexists. split; [done|]. by apply harmless_quiet.
Qed.
End Dialling.

(** ** Outputs *)

Section Outputs.
Context {B : Type} `{BackendAnswers B} `{LocalTime}.
Abbreviation controller := (ZkController (B * list Command)).

(** Only the log of the panel's commands and the text of the last error change. *)
Definition after_commands (s s' : controller) (sent : list Command) : Prop :=
  (backend s').2 = (backend s).2 ++ sent /\ connected_ s' = connected_ s /\ clientBusy_ s' = clientBusy_ s.

Lemma after_commands_trans s1 s2 s3 sent sent' :
  after_commands s1 s2 sent -> after_commands s2 s3 sent' -> after_commands s1 s3 (sent ++ sent').
Proof.
  intros (E & Hc & Hb) (E' & Hc' & Hb'). split_and!; [by rewrite E', E, app_assoc|by rewrite Hc'|by rewrite Hb'].
Qed.

Lemma ControlDevice_run op p1 p2 p3 p4 options (s : controller) : clientBusy_ s = false ->
  exists ok s', run (ControlDevice op p1 p2 p3 p4 options) s = Ok (ok, s') /\
    if connected_ s then exists ret, ok = (0 <=? ret) /\ after_commands s s' [Control op p1 p2 p3 p4 ret]
    else ok = false /\ after_commands s s' [].
Proof.
  intros Hb. unfold ControlDevice. rewrite run_get. destruct (connected_ s) eqn:Hc; cbn [negb].
  - rewrite run_bind. unfold with_client, client_free. cbn [run]. rewrite Hb. cbn [negb].
    destruct (BackendControlDevice_answers op p1 p2 p3 p4 options (backend s).1) as [[ret b] E].
    cbn -[bytes_of]. rewrite E. cbn -[bytes_of]. rewrite Z.ltb_antisym.
    destruct (0 <=? ret) eqn:Hr; cbn -[bytes_of]; do 2 eexists; (split; [done|]); exists ret; rewrite ?Hr;
      (split; [done|]); by split_and!.
  - cbn -[bytes_of]. do 2 eexists. split; [done|]. split; [done|]. split_and!; [by rewrite app_nil_r|done|done].
Qed.

(** A latch and what releases it; a door takes two commands. *)
Definition latch (number : Z) (auxiliary : bool) (ret : Z) : Command :=
  Control 1 number (address_type auxiliary) 255 0 ret.
Definition release (number : Z) (auxiliary : bool) (r : Z * Z) : list Command :=
  Control 1 number (address_type auxiliary) 0 0 r.1 :: if auxiliary then [] else [Control 4 number 0 0 0 r.2].
Definition released (auxiliary : bool) (r : Z * Z) : bool := (0 <=? r.1) || (negb auxiliary && (0 <=? r.2)).
Definition pulse (number : Z) (auxiliary : bool) (p : Z * (Z * Z)) : list Command :=
  latch number auxiliary p.1 :: release number auxiliary p.2.

Lemma ReleaseOutput_run number auxiliary (s : controller) : clientBusy_ s = false -> connected_ s = true ->
  exists r s', run (ReleaseOutput number auxiliary) s = Ok (released auxiliary r, s') /\
    after_commands s s' (release number auxiliary r).
Proof.
  intros Hb Hc. unfold ReleaseOutput, released, release. destruct auxiliary; cbn [negb andb address_type].
  - destruct (ControlDevice_run 1 number 2 0 0 [] s Hb) as (ok & s1 & -> & Hok). rewrite Hc in Hok.
    destruct Hok as (ret & -> & Ha). exists (ret, 0), s1. by rewrite orb_false_r.
  - destruct (ControlDevice_run 1 number 1 0 0 [] s Hb) as (ok & s1 & Hr1 & Hok). rewrite Hc in Hok.
    destruct Hok as (r1 & -> & Ha1). pose proof Ha1 as (_ & Hc1 & Hb1). rewrite Hc in Hc1. rewrite Hb in Hb1.
    destruct (ControlDevice_run 4 number 0 0 0 [] s1 Hb1) as (ok & s2 & Hr2 & Hok). rewrite Hc1 in Hok.
    destruct Hok as (r2 & -> & Ha2). exists (r1, r2), s2. rewrite run_bind, Hr1. cbn [mbind res_bind].
    rewrite run_bind, Hr2. cbn [mbind res_bind]. split; [done|]. exact (after_commands_trans _ _ _ _ _ Ha1 Ha2).
Qed.

(** One pulse: nothing while disconnected, a refused latch, or a latch and its release. *)
Lemma PulseOutput_run number auxiliary (s : controller) : clientBusy_ s = false ->
  exists ok s' sent, run (PulseOutput number auxiliary) s = Ok (ok, s') /\ after_commands s s' sent /\
    ((connected_ s = false /\ ok = false /\ sent = []) \/
     (exists ret, ret < 0 /\ ok = false /\ sent = [latch number auxiliary ret]) \/
     (exists ret r, 0 <= ret /\ ok = released auxiliary r /\ sent = pulse number auxiliary (ret, r))).
Proof.
  intros Hb. unfold PulseOutput. rewrite run_bind.
  destruct (ControlDevice_run 1 number (address_type auxiliary) 255 0 [] s Hb) as (ok & s1 & -> & Hok).
  cbn [mbind res_bind]. destruct (connected_ s) eqn:Hc.
  - destruct Hok as (ret & -> & Ha). pose proof Ha as (_ & Hc1 & Hb1). rewrite Hc in Hc1. rewrite Hb in Hb1.
    destruct (0 <=? ret) eqn:Hr; cbn [negb].
    + destruct (ReleaseOutput_run number auxiliary s1 Hb1 Hc1) as (r & s2 & -> & Ha2). do 3 eexists. split; [done|].
      split; [exact (after_commands_trans _ _ _ _ _ Ha Ha2)|]. right; right. exists ret, r. split; [lia|done].
    + do 3 eexists. split; [done|]. split; [done|]. right; left. exists ret. split; [lia|done].
  - destruct Hok as [-> Ha]. do 3 eexists. split; [done|]. split; [done|]. by left.
Qed.

(** A pulse or a series of beeps never leaves an output latched by its own
    doing: whatever the panel answers, the commands it is sent are whole pulses
    (an accepted latch, directly followed by the commands that release that
    output), of which only the last may be cut short, by a latch that was
    refused; a failed release ends the series and is reported. It reports
    success exactly when all the pulses went through, each latch accepted and
    each release too; an auxiliary output never gets the door's operation 4;
    and it always ends. *)
Theorem outputs_are_released number auxiliary count (s : controller) : clientBusy_ s = false ->
  exists ok s' pulses tail, run (Beep number auxiliary count) s = Ok (ok, s') /\
    (backend s').2 = (backend s).2 ++ concat (map (pulse number auxiliary) pulses) ++ tail /\
    Forall (fun p => 0 <= p.1 /\ released auxiliary p.2 = true) pulses /\
    ((ok = true /\ tail = [] /\ length pulses = Z.to_nat count) \/
     (ok = false /\ (length pulses < Z.to_nat count)%nat /\
      ((connected_ s = false /\ tail = []) \/
       (exists ret, ret < 0 /\ tail = [latch number auxiliary ret]) \/
       (exists ret r, 0 <= ret /\ released auxiliary r = false /\ tail = pulse number auxiliary (ret, r))))).
Proof.
  unfold Beep. revert s. induction (Z.to_nat count) as [|n IH]; intros s Hb; cbn [beeps].
  { exists true, s, [], []. simpl. rewrite app_nil_r. split_and!; [done|done|constructor|by left]. }
  rewrite run_bind. destruct (PulseOutput_run number auxiliary s Hb) as (ok & s1 & sent & -> & Ha & Hcase).
  cbn [mbind res_bind]. pose proof Ha as (E1 & Hc1 & Hb1). rewrite Hb in Hb1.
  destruct ok; cbn [negb].
  - destruct Hcase as [(? & ? & ?)|[(? & ? & ? & ?)|(ret & r & Hret & Hr & ->)]]; [done|done|].
    destruct (IH s1 Hb1) as (ok & s2 & dn & tl & -> & E2 & Hd & Htl). exists ok, s2, ((ret, r) :: dn), tl.
    cbn [map concat length]. rewrite E2, E1, <- !app_assoc. split_and!; [done|done|by constructor|].
    destruct Htl as [(-> & -> & ->)|(-> & Hlt & Htl)]; [by left|right]. split_and!; [done|lia|]. by rewrite <- Hc1.
  - exists false, s1, [], sent. cbn [map concat length app]. split_and!; [done|done|constructor|]. right.
    split_and!; [done|lia|]. destruct Hcase as [(? & _ & ?)|[(ret & ? & _ & ?)|(ret & r & ? & Hr & ?)]].
    + by left.
    + right; left. by exists ret.
    + right; right. exists ret, r. by rewrite <- Hr.
Qed.
End Outputs.

(** ** What a poll reports *)

Section Polling.
Context {B : Type} `{BackendAnswers B} `{LocalTime}.
Implicit Types s : ZkController B.

Definition is_edge (e : RTLogEvent) : bool := (e_type e =? 220) || (e_type e =? 221).
Definition is_card (e : RTLogEvent) : bool := negb (bool_decide (e_card e = b! "0")).

(** The calls of one poll, by the callbacks that are set. *)
Definition poll_calls (cb : Callbacks) (buffer : list Z) (evs : list RTLogEvent) : list ZkCall :=
  (if rawCallback_ cb then [OnRaw (until 0 buffer).1] else []) ++
  (if eventCallback_ cb then map OnEvent evs else []) ++
  (if auxInputCallback_ cb then map (fun e => OnAuxInput (e_door e) (e_type e =? 221)) (List.filter is_edge evs) else []) ++
  (if cardCallback_ cb then map (fun e => OnCard (card_event e)) (List.filter is_card evs) else []).

(** The I/O state after it. *)
Definition aux_step (io : ZkIoState) (e : RTLogEvent) : ZkIoState := if is_edge e then aux_edge e io else io.
Definition poll_io (parsed : RTLogParseResult) (io : ZkIoState) : ZkIoState :=
  foldl aux_step (foldl (fun io st => door_status st io) io (statuses parsed)) (events parsed).

Definition add_calls (l : list ZkCall) s : ZkController B := set_calls (calls s ++ l) s.

Lemma add_calls_app l l' s : add_calls l' (add_calls l s) = add_calls (l ++ l') s.
Proof. unfold add_calls, set_calls. cbn. by rewrite app_assoc. Qed.

Lemma add_calls_nil s : add_calls [] s = s.
Proof. unfold add_calls, set_calls. rewrite app_nil_r. by destruct s. Qed.

Lemma add_calls_io io l s : set_io io (add_calls l s) = add_calls l (set_io io s).
Proof. done. Qed.

Lemma fold_calls {A} (f : A -> list ZkCall) l : forall s,
  foldl (fun s a => add_calls (f a) s) s l = add_calls (concat (map f l)) s.
Proof.
  induction l as [|a l IH]; intros s; cbn [foldl map concat]; [by rewrite add_calls_nil|].
  by rewrite IH, add_calls_app.
Qed.

Lemma concat_filter {A A'} (p : A -> bool) (f : A -> A') l :
  concat (map (fun a => if p a then [f a] else []) l) = map f (List.filter p l).
Proof. induction l as [|a l IH]; [done|]. cbn. rewrite IH. by destruct (p a). Qed.

Lemma map_concat {A A'} (f : A -> A') l : concat (map (fun a => [f a]) l) = map f l.
Proof. induction l as [|a l IH]; [done|]. cbn. by rewrite IH. Qed.

Lemma run_call c s : run (call c) s = Ok (tt, add_calls [c] s).
Proof. done. Qed.

Lemma run_aux_event b e s : run (on_aux_event b e) s =
  Ok (tt, add_calls (if is_edge e then if b then [OnAuxInput (e_door e) (e_type e =? 221)] else [] else [])
            (set_io (aux_step (io_ s) e) s)).
Proof.
  unfold on_aux_event, aux_step, is_edge. destruct (e_type e =? 220), (e_type e =? 221); cbn [negb orb andb];
    try (destruct b; [done|by rewrite add_calls_nil]).
  rewrite add_calls_nil. by destruct s.
Qed.

Lemma run_card_event b e s : run (on_card_event b e) s =
  Ok (tt, add_calls (if is_card e then if b then [OnCard (card_event e)] else [] else []) s).
Proof.
  unfold on_card_event, is_card. destruct (bool_decide _); cbn [negb]; [by rewrite add_calls_nil|].
  destruct b; [done|by rewrite add_calls_nil].
Qed.

(** The loop over the events touches the I/O state and the calls only. *)
Lemma fold_aux b evs : forall s,
  foldl (fun s e => add_calls (if is_edge e then if (b : bool) then [OnAuxInput (e_door e) (e_type e =? 221)] else [] else [])
                      (set_io (aux_step (io_ s) e) s)) s evs =
  add_calls (if b then map (fun e => OnAuxInput (e_door e) (e_type e =? 221)) (List.filter is_edge evs) else [])
    (set_io (foldl aux_step (io_ s) evs) s).
Proof.
  induction evs as [|e evs IH]; intros s; cbn [foldl List.filter].
  - destruct b; cbn [map]; rewrite add_calls_nil; by destruct s.
  - rewrite IH. unfold add_calls, set_calls, set_io. cbn. destruct (is_edge e), b; cbn; by rewrite <- ?app_assoc, ?app_nil_r.
Qed.

Lemma fold_cards b evs s :
  foldl (fun s e => add_calls (if is_card e then if (b : bool) then [OnCard (card_event e)] else [] else []) s) s evs =
  add_calls (if b then map (fun e => OnCard (card_event e)) (List.filter is_card evs) else []) s.
Proof.
  rewrite (fold_calls (fun e => if is_card e then if b then [OnCard (card_event e)] else [] else [])). f_equal.
  destruct b; [by rewrite (concat_filter is_card (fun e => OnCard (card_event e)))|].
  induction evs as [|e evs IH]; [done|]. cbn. by rewrite IH; destruct (is_card e).
Qed.

Lemma fold_status sts : forall s,
  foldl (fun s st => set_io (door_status st (io_ s)) s) s sts = set_io (foldl (fun io st => door_status st io) (io_ s) sts) s.
Proof. induction sts as [|st sts IH]; intros s; cbn [foldl]; [by destruct s|]. by rewrite IH. Qed.

Lemma DoPoll_run s buffer ret b : clientBusy_ s = false -> 0 < ret ->
  BackendGetRTLog kBufferSize (backend s) = Ok ((buffer, ret), b) ->
  run DoPoll s = Ok (tt, add_calls (poll_calls (callbacks_ s) buffer (events (ParseRTLogBuffer buffer)))
                           (set_io (poll_io (ParseRTLogBuffer buffer) (io_ s)) (set_backend b s))).
Proof.
  intros Hb Hr E. unfold DoPoll. rewrite run_bind. unfold with_client, client_free. cbn [run]. rewrite Hb, E.
  cbn [negb mbind res_bind run]. rewrite (proj2 (Z.leb_gt ret 0)) by lia. rewrite run_get.
  set (cb := callbacks_ _). set (parsed := ParseRTLogBuffer buffer). set (s1 := set_backend b s).
  assert (run (if rawCallback_ cb then call (OnRaw (until 0 buffer).1) else skip) s1 =
    Ok (tt, add_calls (if rawCallback_ cb then [OnRaw (until 0 buffer).1] else []) s1)) as E1
    by (destruct (rawCallback_ cb); [done|by rewrite add_calls_nil]).
  rewrite run_bind, E1. cbn [mbind res_bind]. rewrite run_bind.
  match goal with |- context [run (if _ then _ else skip) ?s0] =>
    assert (run (if eventCallback_ cb then each (fun event => call (OnEvent event)) (events parsed) else skip) s0 =
      Ok (tt, add_calls (if eventCallback_ cb then map OnEvent (events parsed) else []) s0)) as E2 end.
  { destruct (eventCallback_ cb); [|by rewrite add_calls_nil].
    rewrite (run_each _ (fun e => add_calls [OnEvent e])) by done. by rewrite fold_calls, map_concat. }
  rewrite E2. cbn [mbind res_bind]. rewrite run_bind,
    (run_each _ (fun st s0 => set_io (door_status st (io_ s0)) s0)), fold_status by done.
  cbn [mbind res_bind]. rewrite run_bind, (run_each _ _ _ (run_aux_event (auxInputCallback_ cb))), fold_aux.
  cbn [mbind res_bind]. rewrite (run_each _ _ _ (run_card_event (cardCallback_ cb))), fold_cards.
  unfold poll_calls, poll_io. fold cb parsed. do 2 f_equal. subst s1. clearbody cb parsed.
  generalize (if rawCallback_ cb then [OnRaw (until 0 buffer).1] else []) as raws. intros raws.
  generalize (if eventCallback_ cb then map OnEvent (events parsed) else []) as evs. intros evs.
  rewrite !add_calls_io, !add_calls_app. by rewrite <- ?app_assoc.
Qed.

Lemma last_of_map {A A'} (f : A -> A') l : last (map f l) = option_map f (last l).
Proof. exact (fmap_last f l). Qed.

(** Records of the C3 protocol and what is made of them. *)
Definition is_event (r : RtLogRecord) : bool := match kind r with kEvent => true | kDoorAlarmStatus => false end.
Definition is_status (r : RtLogRecord) : bool := negb (is_event r).
Definition record_edge (r : RtLogRecord) : bool := is_event r && ((event_type r =? 220) || (event_type r =? 221)).
Definition record_card (r : RtLogRecord) : bool := is_event r && negb (card_no r =? 0).

Definition record_event (r : RtLogRecord) : RTLogEvent :=
  mkEvent (FormatC3Time (time_second r)) (num (pin r)) (num (card_no r)) (door_id r) (event_type r) (in_out_state r) (verified r).
Definition record_door (r : RtLogRecord) : DoorAlarmStatus :=
  mkDoorStatus (FormatC3Time (time_second r)) (pack_status (dss_status r)) (pack_status (alarm_status r)).

Lemma events_of_records rs : lefts (map event_of rs) = map record_event (List.filter is_event rs).
Proof.
  unfold lefts, event_of, is_event. induction rs as [|r rs IH]; [done|]. cbn [map omap list_omap List.filter].
  destruct (kind r); cbn [map]; [by rewrite <- IH|done].
Qed.

Lemma doors_of_records rs : rights (map event_of rs) = map record_door (List.filter is_status rs).
Proof.
  unfold rights, event_of, is_status, is_event. induction rs as [|r rs IH]; [done|]. cbn [map omap list_omap List.filter].
  destruct (kind r); cbn [negb map]; [done|by rewrite <- IH].
Qed.

Lemma filter_records (p : RTLogEvent -> bool) (q : RtLogRecord -> bool) rs :
  Forall record_ok rs -> (forall r, record_ok r -> is_event r && p (record_event r) = q r) ->
  List.filter p (map record_event (List.filter is_event rs)) = map record_event (List.filter q rs).
Proof.
  intros Hrs Hq. induction Hrs as [|r rs Hr _ IH]; [done|]. cbn [List.filter]. rewrite <- (Hq r Hr).
  destruct (is_event r); [|done]. cbn [map List.filter andb]. destruct (p (record_event r)); [cbn [map]; by rewrite IH|done].
Qed.

Lemma record_card_event r : record_ok r -> is_event r && is_card (record_event r) = record_card r.
Proof.
  unfold record_ok, record_card, is_event, is_card, u32_field. intros (_ & _ & Hk). destruct (kind r); [|done].
  destruct Hk as (Hc & _). cbn [andb record_event e_card]. f_equal. rewrite num_decimal by lia.
  change (b! "0") with (decimal 0). apply eq_true_iff_eq. rewrite bool_decide_eq_true, Z.eqb_eq. split; [|by intros ->].
  intros E. apply decimal_inj in E; lia.
Qed.

Lemma unpack_pack l : length l = 4%nat -> bytes_ok l -> UnpackDoorBytes (pack_status l) = l.
Proof.
  intros Hl Hb. destruct l as [|a [|b [|c [|d [|]]]]]; try done.
  repeat (apply Forall_cons in Hb as [? Hb]). rewrite pack_four by done. unfold byte_ok in *.
  assert (forall v i, 0 <= i -> Z.land (Z.shiftr v (8 * i)) 0xFF = v / 2 ^ (8 * i) mod 256) as E.
  { intros v i Hi. rewrite Z.shiftr_div_pow2 by lia. change 0xFF with (Z.ones 8). by rewrite Z.land_ones by lia. }
  unfold UnpackDoorBytes. cbn [map]. rewrite !E by lia.
  change (2 ^ (8 * 0)) with 1. change (2 ^ (8 * 1)) with 256. change (2 ^ (8 * 2)) with 65536. change (2 ^ (8 * 3)) with 16777216.
  change (2 ^ 8) with 256. change (2 ^ 16) with 65536. change (2 ^ 24) with 16777216.
  clear E. do 3 (f_equal; [Z.to_euclidean_division_equations; lia|]). f_equal. Z.to_euclidean_division_equations; lia.
Qed.

(** The last status is the state of the doors, the last edge that of its input. *)
Lemma poll_doors parsed io st : last (statuses parsed) = Some st ->
  doors (poll_io parsed io) = UnpackDoorBytes (dss_packed st) /\
  alarms (poll_io parsed io) = UnpackDoorBytes (alarm_packed st) /\
  status_time (poll_io parsed io) = d_time st /\ status_seen (poll_io parsed io) = true.
Proof.
  unfold poll_io. intros (l & E)%last_Some. rewrite E, foldl_app. cbn [foldl].
  set (io1 := door_status _ _). assert (doors io1 = UnpackDoorBytes (dss_packed st) /\
    alarms io1 = UnpackDoorBytes (alarm_packed st) /\ status_time io1 = d_time st /\ status_seen io1 = true) as Hio by done.
  clearbody io1. revert io1 Hio. induction (events parsed) as [|e evs IH]; intros io1 Hio; [done|].
  cbn [foldl]. apply IH. unfold aux_step. by destruct (is_edge e).
Qed.

Definition edge_of (input : Z) (e : RTLogEvent) : bool := is_edge e && (e_door e =? input).

Lemma poll_inputs parsed io input :
  aux_inputs (poll_io parsed io) !! input =
  match last (List.filter (edge_of input) (events parsed)) with
  | Some e => Some (e_type e =? 221)
  | None => aux_inputs io !! input
  end.
Proof.
  unfold poll_io. set (io1 := foldl _ io _). assert (aux_inputs io1 = aux_inputs io) as <-.
  { unfold io1. clear io1. revert io. induction (statuses parsed) as [|st sts IH]; intros io; [done|]. cbn [foldl]. by rewrite IH. }
  clearbody io1. induction (events parsed) as [|e evs IH] using rev_ind; [done|].
  rewrite foldl_app, List.filter_app. cbn [foldl List.filter]. unfold aux_step in *.
  change (edge_of input e) with (is_edge e && (e_door e =? input)).
  destruct (is_edge e); cbn [andb]; [|by rewrite app_nil_r, IH].
  destruct (Z.eqb_spec (e_door e) input) as [Heq|Hne].
  - rewrite last_snoc. cbn [aux_edge aux_inputs]. by rewrite Heq, lookup_insert_eq.
  - rewrite app_nil_r. cbn [aux_edge aux_inputs]. by rewrite lookup_insert_ne.
Qed.

(** A poll reports what the panel recorded: from the text of any records,
    the last door status becomes the door and alarm bytes, door 1 first,
    exactly as the panel sent them; each auxiliary input is as its last edge
    left it, and inputs without one keep their state; and the callbacks are
    told the text, every event, every edge and every card read, in this order
    and in the order of the records, card number 0 being no card. *)
Theorem poll_reports_records s rs ret b : Forall record_ok rs -> clientBusy_ s = false -> 0 < ret ->
  BackendGetRTLog kBufferSize (backend s) = Ok ((concat (map rtlog_line rs), ret), b) ->
  exists s', run DoPoll s = Ok (tt, s') /\ backend s' = b /\
    (forall r, last (List.filter is_status rs) = Some r ->
       doors (io_ s') = dss_status r /\ alarms (io_ s') = alarm_status r /\
       status_time (io_ s') = FormatC3Time (time_second r) /\ status_seen (io_ s') = true) /\
    (forall input, aux_inputs (io_ s') !! input =
       match last (List.filter (fun r => record_edge r && (door_id r =? input)) rs) with
       | Some r => Some (event_type r =? 221)
       | None => aux_inputs (io_ s) !! input
       end) /\
    (callbacks_ s = mkCallbacks true true true true true ->
     calls s' = calls s ++ [OnRaw (until 0 (concat (map rtlog_line rs))).1]
       ++ map (fun r => OnEvent (record_event r)) (List.filter is_event rs)
       ++ map (fun r => OnAuxInput (door_id r) (event_type r =? 221)) (List.filter record_edge rs)
       ++ map (fun r => OnCard (mkCard (num (card_no r)) (door_id r) (in_out_state r) (verified r) (event_type r)
                                 (ParseRTLogTime (FormatC3Time (time_second r))))) (List.filter record_card rs)).
Proof.
  intros Hrs Hb Hr E. rewrite (DoPoll_run s _ _ _ Hb Hr E). eexists. split; [done|]. split; [done|].
  rewrite (parse_rtlog_csv rs Hrs), events_of_records, doors_of_records. split_and!.
  - intros r Hl. assert (record_ok r /\ is_status r = true) as [Hrok Hst].
    { apply last_Some in Hl as [l Hl]. assert (In r (List.filter is_status rs)) as Hin by (rewrite Hl; apply in_or_app; right; by left).
      apply filter_In in Hin as [Hin ?]. split; [|done]. apply (proj1 (Forall_forall _ _) Hrs). by apply list_elem_of_In. }
    cbn [add_calls set_calls io_ set_io].
    destruct (poll_doors (mkParsed (map record_event (List.filter is_event rs)) (map record_door (List.filter is_status rs)))
      (io_ s) (record_door r)) as (-> & -> & -> & ->).
    { cbn [statuses]. by rewrite last_of_map, Hl. }
    unfold record_ok, is_status, is_event in *. destruct Hrok as (_ & _ & Hk). destruct (kind r); [done|].
    destruct Hk as (_ & _ & Ha & Hd & Hba & Hbd & _). cbn [record_door dss_packed alarm_packed d_time]. by rewrite !unpack_pack.
  - intros input. cbn [add_calls set_calls io_ set_io]. rewrite poll_inputs. cbn [events].
    rewrite (filter_records _ (fun r => record_edge r && (door_id r =? input))) by
      (try done; intros r _; unfold edge_of, is_edge, record_edge; cbn [record_event e_type e_door]; by rewrite andb_assoc).
    rewrite last_of_map. by destruct (last _).
  - intros Hcb. cbn [add_calls set_calls calls set_io set_backend callbacks_]. unfold poll_calls. rewrite Hcb. cbn [rawCallback_ eventCallback_ auxInputCallback_ cardCallback_ events].
    rewrite (filter_records is_edge record_edge) by done.
    rewrite (filter_records is_card record_card) by (done || apply record_card_event).
    by rewrite !map_map.
Qed.
End Polling.

(** ** Connection strings *)

(** Tokens that differ from the key in their first letters. *)
Lemma token_differs m needle token : (m <= length needle)%nat ->
  map tolower (take m token) <> map tolower (take m needle) -> token_matches needle token = false.
Proof.
  intros Hm Hne. unfold token_matches. apply andb_false_iff. right. apply bool_decide_false. intros E. apply Hne.
  apply (f_equal (take m)) in E. by rewrite !firstn_map, take_take, Nat.min_l in E.
Qed.

Lemma token_found needle value : value <> [] -> token_matches needle (needle ++ value) = true.
Proof.
  intros Hne. unfold token_matches. rewrite take_app_length, bool_decide_true by done. rewrite length_app.
  apply andb_true_iff. split; [|done]. apply Nat.ltb_lt. destruct value; [done|cbn [length]; lia].
Qed.

Lemma token_empty needle : token_matches needle (needle ++ []) = false.
Proof. unfold token_matches. by rewrite app_nil_r, Nat.ltb_irrefl. Qed.

Lemma connection_tokens ip port timeoutMs password : 44 ∉ ip -> 44 ∉ password -> 0 <= port -> 0 <= timeoutMs ->
  split_on 44 (BuildTcpConnectionString ip port timeoutMs password) =
  [b! "protocol=TCP"; b! "ipaddress=" ++ ip; b! "port=" ++ decimal port; b! "timeout=" ++ decimal timeoutMs;
   b! "passwd=" ++ password].
Proof.
  intros Hip Hpw Hport Htimeout. unfold BuildTcpConnectionString. rewrite !num_decimal by done.
  rewrite <- (split_join_on 44 [_; _; _; _; _]).
  - by f_equal.
  - assert (forall (s t : list Z), 44 ∉ s -> 44 ∉ t -> 44 ∉ s ++ t) as Happ by (intros s t ? ? [?|?]%elem_of_app; done).
    assert (forall n, 0 <= n -> 44 ∉ decimal n) as Hdec by (intros n Hn Hin; pose proof (decimal_digit n 44 Hn Hin); lia).
    repeat constructor; try apply Happ; auto; by apply (bool_decide_unpack _).
  - done.
Qed.

(** Whom a client talks to. *)
Definition target (c : C3Client) : list Z * Z * Z * list Z := (host_ c, port_ c, timeoutMs_ c, password_ c).

Lemma read_frame_target fuel : forall c r c', read_frame fuel c = Ok (r, c') -> target c' = target c.
Proof.
  induction fuel as [|fuel IH]; intros c r c' E; cbn [read_frame] in E; inv_bind E;
    (destruct (_ && _)%bool; [by injection E as _ <-|]);
    destruct (Receive (socket_ c) 4096) as [[[|b bytes]|] s]; try (by injection E as _ <-);
    (destruct (1024 * 1024 <? _); [by injection E as _ <-|]); [done|]. by apply IH in E.
Qed.

Lemma Transact_target c request r c' : Transact c request = Ok (r, c') -> target c' = target c.
Proof.
  unfold Transact, ReadOneFrame. intros E. destruct (negb _); [by injection E as _ <-|].
  destruct (Send (socket_ c) request) as [[|] s]; cbn -[bytes_of read_frame] in E; [|by injection E as _ <-].
  inv_bind E. destruct v as [reply c2]. apply read_frame_target in Hm.
  destruct reply; [by injection E as _ <-|]. injection E as _ <-. by destruct (C3Client.lastError_ c2).
Qed.

Lemma connect_session_less_target c dial ok c' : connect_session_less c dial = Ok (ok, c') -> target c' = target c.
Proof.
  unfold connect_session_less. intros E. destruct dial as [s|]; [|by injection E as _ <-]. inv_bind E.
  destruct v as [reply c1]. apply Transact_target in Hm. destruct reply as [frame|]; [|by injection E as _ <-].
  inv_bind E. by destruct v; injection E as _ <-.
Qed.

Lemma Connect_target c connStr dial dial2 ok c' : host_of connStr <> [] ->
  C3Client.Connect c connStr dial dial2 = Ok (ok, c') ->
  target c' = (host_of connStr, match FieldFrom connStr (b! "port") with [] => 4370 | _ => atoi (FieldFrom connStr (b! "port")) end,
    Z.max 500 (match FieldFrom connStr (b! "timeout") with [] => 2000 | _ => atoi (FieldFrom connStr (b! "timeout")) end),
    password_of connStr).
Proof.
  unfold C3Client.Connect. fold (host_of connStr) (password_of connStr). intros Hh E.
  set (timeoutMs := match FieldFrom connStr (b! "timeout") with [] => 2000 | _ => _ end) in *.
  assert ((if timeoutMs <? 500 then 500 else timeoutMs) = Z.max 500 timeoutMs) as Et
    by (destruct (Z.ltb_spec timeoutMs 500); lia). clearbody timeoutMs.
  destruct (host_of connStr) as [|h host]; [done|]. cbv beta iota zeta in E. rewrite Et in E.
  destruct dial as [s|]; [|by injection E as _ <-]. inv_bind E. destruct v as [reply c1].
  apply Transact_target in Hm. destruct reply as [frame|].
  - inv_bind E. destruct v as [[] sid];
      first [by injection E as _ <-|by apply connect_session_less_target in E as ->].
  - by apply connect_session_less_target in E as ->.
Qed.

(** Connecting reaches the panel that was asked for: the connection string
    that is built from an address, a port, a time-out and a password is taken
    apart again into exactly these, as long as the address and the password
    hold no comma, and the client keeps them, whatever comes of the attempt (a
    time-out under half a second counts as that). *)
Theorem connection_string_roundtrip ip port timeoutMs password c dial dial2 ok c' :
  ip <> [] -> 44 ∉ ip -> 44 ∉ password -> 0 <= port < 2 ^ 31 -> 0 <= timeoutMs < 2 ^ 31 ->
  C3Client.Connect c (BuildTcpConnectionString ip port timeoutMs password) dial dial2 = Ok (ok, c') ->
  host_ c' = ip /\ port_ c' = port /\ timeoutMs_ c' = Z.max 500 timeoutMs /\ password_ c' = password.
Proof.
  intros Hne Hip Hpw Hport Htimeout E.
  assert (forall key value rest, split_on 44 (BuildTcpConnectionString ip port timeoutMs password) = rest ->
    List.find (token_matches (key ++ [61])) rest = value ->
    FieldFrom (BuildTcpConnectionString ip port timeoutMs password) key =
    match value with Some token => drop (length (key ++ [61])) token | None => [] end) as Hfield
    by (intros key value rest <- <-; done).
  pose proof (connection_tokens ip port timeoutMs password Hip Hpw (proj1 Hport) (proj1 Htimeout)) as Htok.
  assert (forall n, 0 <= n -> decimal n <> []) as Hdec by (intros n Hn; by destruct (decimal_spec n Hn) as (_ & ? & _)).
  assert (FieldFrom (BuildTcpConnectionString ip port timeoutMs password) (b! "ipaddress") = ip) as E1.
  { rewrite (Hfield _ (Some (b! "ipaddress=" ++ ip)) _ Htok); [done|]. cbn [List.find].
    rewrite (token_differs 1) by (cbn; lia || done). by rewrite (token_found (b! "ipaddress=")). }
  assert (FieldFrom (BuildTcpConnectionString ip port timeoutMs password) (b! "port") = decimal port) as E2.
  { rewrite (Hfield _ (Some (b! "port=" ++ decimal port)) _ Htok); [done|]. cbn [List.find].
    rewrite !(token_differs 2) by (cbn; lia || done). by rewrite (token_found (b! "port=")) by (apply Hdec; lia). }
  assert (FieldFrom (BuildTcpConnectionString ip port timeoutMs password) (b! "timeout") = decimal timeoutMs) as E3.
  { rewrite (Hfield _ (Some (b! "timeout=" ++ decimal timeoutMs)) _ Htok); [done|]. cbn [List.find].
    rewrite !(token_differs 1) by (cbn; lia || done). by rewrite (token_found (b! "timeout=")) by (apply Hdec; lia). }
  assert (FieldFrom (BuildTcpConnectionString ip port timeoutMs password) (b! "passwd") = password) as E4.
  { destruct (decide (password = [])) as [->|Hpne].
    - rewrite (Hfield _ None _ Htok); [done|]. cbn [List.find]. rewrite !(token_differs 2) by (cbn; lia || done).
      reflexivity.
    - rewrite (Hfield _ (Some (b! "passwd=" ++ password)) _ Htok); [done|]. cbn [List.find].
      rewrite !(token_differs 2) by (cbn; lia || done). by rewrite (token_found (b! "passwd=")). }
  assert (host_of (BuildTcpConnectionString ip port timeoutMs password) = ip) as Eh
    by (unfold host_of; rewrite E1; by destruct ip).
  apply Connect_target in E; [|by rewrite Eh]. rewrite Eh, E2, E3 in E. unfold password_of in E. rewrite E4 in E.
  unfold target in E. injection E as -> -> -> ->. rewrite !atoi_decimal by done.
  split_and!; [done| |f_equal|done].
  - pose proof (Hdec port (proj1 Hport)). by destruct (decimal port).
  - pose proof (Hdec timeoutMs (proj1 Htimeout)). by destruct (decimal timeoutMs).
Qed.

(** ** The background thread restores a lost panel *)

Section Reconnecting.
Context {B : Type} `{Backend B} `{LocalTime}.
Implicit Types s : ZkController B.

(** All queued events delivered. *)
Definition delivered s : ZkController B :=
  add_calls (if connectionCallback_ (callbacks_ s) then map OnConnection (connectionEvents_ s) else [])
    (set_connectionEvents [] s).

Lemma deliver_run turns : forall s, (length (connectionEvents_ s) < turns)%nat ->
  run (DeliverConnectionEvents turns) s = Ok (tt, delivered s).
Proof.
  induction turns as [|turns IH]; intros s Hl; [lia|]. cbn [DeliverConnectionEvents]. rewrite run_bind.
  unfold delivered. destruct (connectionEvents_ s) as [|e rest] eqn:E; cbn [length] in Hl.
  - cbn. rewrite E. cbn. f_equal. f_equal. destruct s. cbn in *. subst. unfold add_calls, set_calls, set_connectionEvents. cbn.
    by destruct (connectionCallback_ _); rewrite app_nil_r.
  - unfold act. cbn [run always]. rewrite E. cbn [mbind res_bind]. rewrite run_get. cbn [set_connectionEvents callbacks_].
    rewrite run_bind. destruct (connectionCallback_ (callbacks_ s)) eqn:Ecb.
    + rewrite run_call. cbn [mbind res_bind]. rewrite IH by (cbn; lia). unfold delivered. cbn. rewrite Ecb.
      unfold add_calls, set_calls, set_connectionEvents. cbn. by rewrite <- app_assoc.
    + cbn [run skip mbind res_bind]. rewrite IH by (cbn; lia). unfold delivered. cbn. by rewrite Ecb.
Qed.

Lemma delivered_idem s : delivered (delivered s) = delivered s.
Proof.
  unfold delivered, add_calls, set_calls, set_connectionEvents. cbn. by destruct (connectionCallback_ _); rewrite app_nil_r.
Qed.

(** A thread that waits for its next attempt. *)
Definition waiting s : Prop :=
  threadRunning_ s = true /\ enabled_ s = true /\ connected_ s = false /\ reconnecting_ s = true.

Lemma waiting_turn tick ticks hb lp s : waiting s -> (length (connectionEvents_ s) < t_turns tick)%nat ->
  run (RunLoop (tick :: ticks) hb lp) s =
  ('(_, s') ← (if 5000 <=? t_now tick - reconnectingSince_ s
               then run DoReconnectAttempt (set_reconnectingSince (t_now tick) (delivered s))
               else Ok (tt, delivered s));
   run (RunLoop ticks hb lp) s').
Proof.
  intros (Hr & He & Hc & Hrec) Hl. cbn [RunLoop]. rewrite run_get, Hr. cbn [negb]. rewrite run_bind, deliver_run by done.
  cbn [mbind res_bind]. rewrite run_get.
  assert (enabled_ (delivered s) = true) as -> by done. cbn [negb]. rewrite run_get.
  assert (connected_ (delivered s) = false) as -> by done. rewrite run_bind. unfold loop_disconnected.
  rewrite run_get. assert (reconnecting_ (delivered s) = true) as -> by done. cbn [negb]. rewrite run_get.
  assert (reconnectingSince_ (delivered s) = reconnectingSince_ s) as -> by done. by destruct (5000 <=? _).
Qed.

(** Turns before the time is up only deliver. *)
Lemma waiting_turns quiet : forall tick rest hb lp s, waiting s ->
  Forall (fun t => t_now t < reconnectingSince_ s + 5000 /\ (length (connectionEvents_ s) < t_turns t)%nat) quiet ->
  (length (connectionEvents_ s) < t_turns tick)%nat ->
  exists s', run (RunLoop (quiet ++ tick :: rest) hb lp) s = run (RunLoop (tick :: rest) hb lp) s' /\
    waiting s' /\ delivered s' = delivered s /\ backend s' = backend s /\ clientBusy_ s' = clientBusy_ s /\
    lastConnectionString_ s' = lastConnectionString_ s /\ reconnectingSince_ s' = reconnectingSince_ s /\
    (length (connectionEvents_ s') < t_turns tick)%nat.
Proof.
  induction quiet as [|t quiet IH]; intros tick rest hb lp s Hw Hq Ht; [by exists s|].
  apply Forall_cons in Hq as [[Hnow Hturns] Hq]. cbn [app]. rewrite waiting_turn by done.
  rewrite (proj2 (Z.leb_gt _ _)) by lia. cbn [mbind res_bind].
  destruct (IH tick rest hb lp (delivered s)) as (s' & -> & Hw' & Hd & Hb & Hbusy & Hl & Hs & Hn).
  - done.
  - eapply Forall_impl; [exact Hq|]. intros t' [? ?]. split; [done|]. cbn. lia.
  - cbn. lia.
  - exists s'. rewrite Hd, delivered_idem. by rewrite Hb, Hbusy, Hl, Hs.
Qed.

Lemma DoReconnectAttempt_run s ok b : clientBusy_ s = false -> connected_ s = false ->
  BackendConnect (lastConnectionString_ s) (BackendDisconnect (backend s)) = Ok (ok, b) ->
  run DoReconnectAttempt s = Ok (tt,
    if ok then set_connectionEvents (connectionEvents_ s ++ [true])
                 (set_countsPending true (set_connected true (set_reconnecting false (set_backend b s))))
    else set_lastError (b! "reconnect failed: " ++ BackendErrorText b) (set_backend b s)).
Proof.
  intros Hb Hc E. unfold DoReconnectAttempt. rewrite run_get, run_bind. unfold with_client, client_free. cbn [run].
  rewrite Hb. cbn [negb]. rewrite E. cbn [mbind res_bind run]. destruct ok.
  - rewrite run_put. unfold SetConnected, act. cbn. rewrite Hc. done.
  - done.
Qed.

(** C40: A lost panel comes back by itself.  Take the background thread while
    nobody calls the controller, which is enabled, connected and set to
    reconnect, with no counts asked for, no real-time log running and no report
    waiting.  When its heartbeat is due and fails, the connection is lost, which
    the next turn reports; the first turn that comes five seconds later dials the
    last connection again, whatever shorter turns lie between.  If the panel
    answers, it is connected again, and the report of that waits for the turn
    after; if not, the next five seconds begin. *)
Theorem lost_panel_is_redialled s hb lp tick0 quiet tick items ret b1 ok b2 :
  threadRunning_ s = true -> enabled_ s = true -> connected_ s = true -> autoReconnect_ s = true ->
  countsPending_ s = false -> rtlogRunning_ s = false -> clientBusy_ s = false -> connectionEvents_ s = [] ->
  5000 <= t_now tick0 - hb ->
  BackendGetDeviceParam (b! "~SerialNumber") kBufferSize (backend s) = Ok ((items, ret), b1) -> ret < 0 ->
  Forall (fun t => t_now t < t_later tick0 + 5000) quiet -> t_later tick0 + 5000 <= t_now tick ->
  Forall (fun t => (1 < t_turns t)%nat) (tick0 :: quiet ++ [tick]) ->
  BackendConnect (lastConnectionString_ s) (BackendDisconnect b1) = Ok (ok, b2) ->
  exists s', run (RunLoop (tick0 :: quiet ++ [tick]) hb lp) s = Ok (tt, s') /\ backend s' = b2 /\
    connected_ s' = ok /\ reconnecting_ s' = negb ok /\ reconnectingSince_ s' = t_now tick /\
    calls s' = calls s ++ (if connectionCallback_ (callbacks_ s) then [OnConnection false] else []) /\
    connectionEvents_ s' = (if ok then [true] else []).
Proof.
  intros Hrun Hen Hc Hauto Hp Hlog Hbusy Hev Hbeat Ehb Hret Hquiet Hlate Hturns Edial.
  apply Forall_cons in Hturns as [Ht0 Hturns]. apply Forall_app in Hturns as [Htq Htt]. rewrite Forall_singleton in Htt.
  cbn [RunLoop]. rewrite run_get, Hrun. cbn [negb]. rewrite run_bind, deliver_run by (rewrite Hev; cbn; lia).
  assert (delivered s = s) as ->.
  { unfold delivered. rewrite Hev. destruct s. cbn in *. subst. unfold add_calls, set_calls, set_connectionEvents. cbn.
    by destruct (connectionCallback_ _); rewrite app_nil_r. }
  cbn [mbind res_bind]. rewrite run_get, Hen. cbn [negb]. rewrite run_get, Hc. rewrite run_bind.
  set (s1 := set_reconnecting true (set_reconnectingSince (t_later tick0) (set_connectionEvents [false] (set_connected false
    (set_lastError (b! "heartbeat" ++ b! " failed: " ++ BackendErrorText b1) (set_backend b1 (set_countsPending false s))))))).
  assert (run (loop_connected tick0 hb lp) s = Ok ((t_now tick0, lp), s1)) as ->.
  { unfold loop_connected. rewrite run_bind. unfold act. cbn [run always]. rewrite Hp. cbn [mbind res_bind].
    rewrite run_bind. cbn [run skip mbind res_bind]. rewrite run_bind, (proj2 (Z.leb_le 5000 (t_now tick0 - hb))) by lia.
    assert (run (DoHeartbeat (t_later tick0)) (set_countsPending false s) = Ok (tt, s1)) as ->.
    { unfold DoHeartbeat. rewrite run_bind. unfold with_client, client_free. cbn [run].
      assert (clientBusy_ (set_countsPending false s) = false) as -> by done. cbn [negb].
      assert (backend (set_countsPending false s) = backend s) as -> by done. rewrite Ehb. cbn [mbind res_bind run].
      rewrite (proj2 (Z.ltb_lt _ _)) by lia. unfold SetLastError. rewrite run_put. unfold SetConnected, act.
      cbn -[bytes_of]. rewrite Hc. cbn -[bytes_of]. rewrite Hauto. cbn -[bytes_of]. unfold s1. by rewrite Hev. }
    cbn [mbind res_bind]. rewrite run_get. assert (rtlogRunning_ s1 = false) as -> by done. done. }
  cbn [mbind res_bind fst snd].
  destruct (waiting_turns quiet tick [] (t_now tick0) lp s1) as (s2 & -> & Hw & Hd & Hb & Hbusy2 & Hl & Hs & Hn); [done| |cbn; lia|].
  { apply Forall_forall. intros t Hin. rewrite Forall_forall in Hquiet, Htq. split; [by apply Hquiet|cbn; by apply Htq]. }
  rewrite waiting_turn by done. rewrite Hs, (proj2 (Z.leb_le 5000 (t_now tick - reconnectingSince_ s1))) by (cbn; lia). rewrite Hd.
  rewrite (DoReconnectAttempt_run _ ok b2) by done. cbn [mbind res_bind RunLoop skip run]. eexists. split; [done|].
  destruct ok; cbn; rewrite ?app_nil_r; by destruct (connectionCallback_ (callbacks_ s)).
Qed.
End Reconnecting.

(** ** The dialling property *)

(** C25: The controller only ever dials a panel somebody asked for: however
    calls of its methods and turns of its background thread interleave, and
    whatever the panel does, every connection string that is dialled, by a call
    or by a reconnect, was built from the arguments of some call of Connect;
    and no action of any thread is ever left without an answer. *)
Theorem only_asked_panels_are_dialled {B} `{BackendAnswers B} `{LocalTime} asked (b : B) ps s :
  rtc (pool_step (zk_method asked)) ([], new_controller (b, [])) (ps, s) ->
  (forall connStr, In (Dial connStr) (backend s).2 -> asked_string asked connStr) /\
  (forall i R ready (f : _ -> res (R * _)) k, ps !! i = Some (Act ready f k) -> ready s = true ->
     exists r s', f s = Ok (r, s')).
Proof.
  intros Hrun. destruct (pool_safe (dial_inv asked) (dial_later asked) (zk_method asked) [] (new_controller (b, [])) ps s)
    as ((Hd & Hf) & _ & Hps); [intros p s0 Hp _; by apply zk_method_safe|done|split; [constructor|done]|constructor|].
  split.
  - intros connStr Hin. rewrite Forall_forall in Hd. apply (Hd (Dial connStr)). by apply list_elem_of_In.
  - intros i R ready f k Hi Hr. rewrite Forall_lookup in Hps.
    apply (safe_answers (dial_inv asked) (dial_later asked) _ R ready f k s eq_refl (Hps i _ Hi)); done.
Qed.

(** ** Examples *)

#[local] Instance demo_time : LocalTime := {| mktime y m d h mi s := ((y * 372 + m * 31 + d) * 24 + h) * 3600 + mi * 60 + s |}.

(** A password with a comma is cut short. *)
Example comma_in_password :
  let connStr := BuildTcpConnectionString (b! "10.0.0.5") 4370 2000 (b! "pa,ss") in password_of connStr = b! "pa".
Proof. vm_compute. reflexivity. Qed.

(** A controller over the C3 client alone; [runs] for each connection it may open. *)
Definition demo_backends (runs : list (list (list Z))) : Backends unit :=
  mkBackends tt new_c3 false (b! "auto") (concat (map (fun r => [Some (demo_socket r); None]) runs)).
Definition demo_zk (runs : list (list (list Z))) : ZkController (Backends unit * list Command) :=
  set_threadRunning true (new_controller (demo_backends runs, [])).

Definition demo_connect : prog (ZkController (Backends unit * list Command)) bool :=
  Connect (b! "10.0.0.5") 4370 2000 [].
Definition demo_ticks : list Tick := [mkTick 5000 6000 5; mkTick 20000 21000 5].

(** Connected, with two more connections that would succeed. *)
Definition connected_zk : ZkController (Backends unit * list Command) :=
  match run demo_connect (demo_zk [[session_reply]; [session_reply]; [session_reply]]) with Ok (_, s) => s | _ => demo_zk [] end.

(** What a schedule leads to. *)
Definition outcome (order : list nat) (ps : list (prog (ZkController (Backends unit * list Command)) unit))
    (s : ZkController (Backends unit * list Command)) : option (bool * bool * list bool * list Command) :=
  match schedule order (ps, s) with
  | Some (_, s') => Some (connected_ s', enabled_ s', connectionEvents_ s', (backend s').2)
  | None => None
  end.

Definition demo_string : list Z := BuildTcpConnectionString (b! "10.0.0.5") 4370 2000 [].

(** Disconnecting while a heartbeat is about to be sent: the heartbeat fails on
    the closed connection, auto-reconnect takes it for a lost panel, and five
    seconds later the gateway is connected again, against the caller's wish. *)
Example disconnect_is_undone :
  outcome (replicate 6 0 ++ replicate 5 1 ++ replicate 24 0)%nat [RunLoop demo_ticks 0 0; Disconnect] connected_zk =
  Some (true, true, [true], [Dial demo_string; Dial demo_string]).
Proof. vm_compute. reflexivity. Qed.

(** Disabling the driver while the thread is past its check: it connects, and
    stays connected, disabled. *)
Example disabled_yet_connected :
  outcome (replicate 23 0 ++ replicate 5 1 ++ replicate 8 0)%nat [RunLoop demo_ticks 0 0; SetEnabled false] connected_zk =
  Some (true, false, [true], [Dial demo_string; Dial demo_string]).
Proof. vm_compute. reflexivity. Qed.

(** The flag and its event are two critical sections: the last event reported
    can be the opposite of the state. *)
Example last_event_is_wrong :
  outcome (replicate 4 0 ++ replicate 5 1 ++ replicate 2 0)%nat [void demo_connect; Disconnect] (demo_zk [[session_reply]]) =
  Some (false, true, [false; true], [Dial demo_string]).
Proof. vm_compute. reflexivity. Qed.

(** A connection lost between a latch and its release leaves the door latched. *)
Example latched_by_disconnect :
  let s := match run demo_connect (demo_zk [[session_reply; ok_reply; ok_reply; ok_reply]]) with
           | Ok (_, s) => s
           | _ => demo_zk []
           end in
  outcome (replicate 2 0 ++ replicate 5 1 ++ replicate 4 0)%nat [void (PulseOutput 1 false); Disconnect] s =
  Some (false, true, [true; false], [Dial demo_string; Control 1 1 1 255 0 0]).
Proof. vm_compute. reflexivity. Qed.

(** ** Witnesses *)

Definition demo_asked (ip : list Z) (port timeoutMs : Z) (password : list Z) : Prop :=
  ip = b! "10.0.0.5" /\ port = 4370 /\ timeoutMs = 2000 /\ password = [].

Lemma only_asked_panels_are_dialled_witness :
  exists ps s, rtc (pool_step (zk_method demo_asked)) ([], new_controller (demo_backends [[session_reply]], [])) (ps, s) /\
    (backend s).2 = [Dial demo_string] /\ asked_string demo_asked demo_string.
Proof.
  set (start := ([void demo_connect], new_controller (demo_backends [[session_reply]], @nil Command))).
  assert (option_map (fun c => (backend c.2).2) (schedule (replicate 6 0%nat) start) = Some [Dial demo_string]) as E
    by (vm_compute; reflexivity).
  destruct (schedule (replicate 6 0%nat) start) as [[ps s]|] eqn:Es; [|discriminate E]. injection E as E.
  assert (rtc (pool_step (zk_method demo_asked)) ([], new_controller (demo_backends [[session_reply]], [])) (ps, s)) as Hrun.
  { etrans; [apply (schedule_calls _ [void demo_connect]), Forall_singleton|by apply (schedule_sound _ _ _ _ Es)].
    apply (zk_connect demo_asked (b! "10.0.0.5") 4370 2000 []). unfold demo_asked. by split_and!. }
  exists ps, s. split; [exact Hrun|]. split; [exact E|].
  apply (proj1 (only_asked_panels_are_dialled demo_asked (demo_backends [[session_reply]]) ps s Hrun) demo_string).
  rewrite E. by left.
Defined.

Lemma outputs_are_released_witness :
  exists ok s' pulses tail,
    run (Beep 1 true 2) (set_connected true (demo_zk [])) = Ok (ok, s') /\
    (backend s').2 = concat (map (pulse 1 true) pulses) ++ tail /\ ok = false.
Proof.
  destruct (outputs_are_released 1 true 2 (set_connected true (demo_zk [])) eq_refl)
    as (ok & s' & pulses & tail & E & Hl & _ & _).
  exists ok, s', pulses, tail. split; [exact E|]. split; [exact Hl|]. vm_compute in E. by injection E as <- _.
Defined.

Definition demo_records : list RtLogRecord :=
  [mkRtLog kEvent 1234 7 [] [] 4 1 0 0 5000; mkRtLog kDoorAlarmStatus 0 0 [0; 0; 0; 0] [1; 2; 0; 1] 0 0 255 0 5001;
   mkRtLog kEvent 0 0 [] [] 4 3 221 0 5002].

(** A backend that answers every poll with the text of these records. *)
#[local] Instance demo_log : Backend unit := {|
  SetBackendPreference _ b := b;
  BackendConnect _ b := Ok (true, b);
  BackendDisconnect b := b;
  BackendControlDevice _ _ _ _ _ _ b := Ok (0, b);
  BackendGetDeviceParam _ _ b := Ok (([], -1), b);
  BackendSetDeviceParam _ b := Ok (-1, b);
  BackendGetRTLog _ b := Ok ((concat (map rtlog_line demo_records), 100), b);
  BackendErrorText _ := b! "gone"
|}.

Lemma poll_reports_records_witness :
  exists s', run (DoPoll (B := unit) (H := demo_log)) (new_controller tt) = Ok (tt, s') /\
    doors (io_ s') = [1; 2; 0; 1] /\ aux_inputs (io_ s') !! 3 = Some true /\ aux_inputs (io_ s') !! 4 = None.
Proof.
  destruct (poll_reports_records (B := unit) (H := demo_log) (new_controller tt) demo_records 100 tt)
    as (s' & E & _ & Hd & Ha & _); [|done|done|done|].
  - repeat constructor; unfold byte_ok, u32_field; cbn; lia || done.
  - exists s'. split; [exact E|]. split; [by apply (Hd (mkRtLog kDoorAlarmStatus 0 0 [0; 0; 0; 0] [1; 2; 0; 1] 0 0 255 0 5001))|].
    by rewrite !Ha.
Defined.

Lemma connection_string_roundtrip_witness :
  exists c', C3Client.Connect new_c3 (BuildTcpConnectionString (b! "10.0.0.5") 4370 100 (b! "x=y")) None None = Ok (false, c') /\
    host_ c' = b! "10.0.0.5" /\ timeoutMs_ c' = 500 /\ password_ c' = b! "x=y".
Proof.
  destruct (Connect_total new_c3 (BuildTcpConnectionString (b! "10.0.0.5") 4370 100 (b! "x=y")) None None) as [[ok c'] E].
  assert (ok = false) as -> by (vm_compute in E; by injection E as <- _).
  exists c'. split; [exact E|].
  destruct (connection_string_roundtrip (b! "10.0.0.5") 4370 100 (b! "x=y") new_c3 None None false c') as (? & _ & ? & ?);
    [done|by apply (bool_decide_unpack _)|by apply (bool_decide_unpack _)|lia|lia|exact E|]. done.
Defined.

Lemma lost_panel_is_redialled_witness :
  exists s', run (RunLoop (B := unit) (H := demo_log) [mkTick 5000 6000 5; mkTick 8000 8000 5; mkTick 11000 11000 5] 0 0)
      (set_threadRunning true (set_connected true (new_controller tt))) = Ok (tt, s') /\
    connected_ s' = true /\ connectionEvents_ s' = [true].
Proof.
  destruct (lost_panel_is_redialled (B := unit) (H := demo_log)
    (set_threadRunning true (set_connected true (new_controller tt))) 0 0 (mkTick 5000 6000 5) [mkTick 8000 8000 5]
    (mkTick 11000 11000 5) [] (-1) tt true tt) as (s' & E & _ & Hc & _ & _ & _ & He);
    try done; try (cbn; lia).
  - repeat constructor; cbn; lia.
  - repeat constructor; cbn; lia.
  - exists s'. split; [exact E|]. done.
Defined.
