(* ===== verification/MqEnvelope.v ===== *)
(** * The message envelope (src/MqCodec.cpp)

    The JSON object a message body travels in: an id, a UTC time stamp with
    milliseconds, a version and the body.  The clock, already broken down by
    [gmtime], and the two words of the random generator are arguments; the JSON
    library's text form is the interface [JsonText]. *)

From S2P Require Import Prelude Words Text Float Json C3Codec.

(** ** JSON as text *)

(** Scalars that compare equal. *)
Definition same_scalar {J : JsonLib} (a b : json) : Prop :=
  match view a, view b with
  | JString s, JString t => s = t
  | (JInt x | JUint x), (JInt y | JUint y) => x = y
  | JBool x, JBool y => x = y
  | _, _ => False
  end.

(** [dump] throws on text that is not UTF-8 ([None]); what it writes is parsed
    back to an equal value, stated here for objects of scalars; the empty text is
    no JSON. *)
Class JsonText {J : JsonLib} := {
  parse : string -> option json;
  dump : json -> option string;
  parse_dump l t : NoDup l.*1 -> Forall (fun e => scalar (view e.2) = true) l -> dump (inject (JObject l)) = Some t ->
    exists j l', parse t = Some j /\ view j = JObject l' /\
      forall key x, member l key = Some x -> exists y, member l' key = Some y /\ (same_scalar x x -> same_scalar x y);
  parse_empty : parse EmptyString = None
}.

(** ** Time stamps *)

Record Utc := mkUtc {
  u_year : Z; u_month : Z; u_day : Z; u_hour : Z; u_minute : Z; u_second : Z; u_millis : Z
}.

Definition IsoTimestampUtcMs (t : Utc) : list Z :=
  padded_decimal 4 (u_year t) ++ b! "-" ++ padded_decimal 2 (u_month t) ++ b! "-" ++ padded_decimal 2 (u_day t)
  ++ b! "T" ++ padded_decimal 2 (u_hour t) ++ b! ":" ++ padded_decimal 2 (u_minute t) ++ b! ":"
  ++ padded_decimal 2 (u_second t) ++ b! "." ++ padded_decimal 3 (u_millis t) ++ b! "Z".

(** At most [width] bytes that satisfy [p]. *)
Fixpoint span_upto (width : nat) (p : Z -> bool) (text : list Z) : list Z * list Z :=
  match width, text with
  | S width', b :: rest => if p b then let '(a, c) := span_upto width' p rest in (b :: a, c) else ([], text)
  | _, _ => ([], text)
  end.

(** A [%<width>d] of [sscanf]: white space, then at most [width] bytes of sign
    and digits. *)
Definition scan_width (width : nat) (text : list Z) : option (Z * list Z) :=
  let '(negative, width', rest) :=
    match skip_spaces text with
    | 45 :: rest => (true, pred width, rest)
    | 43 :: rest => (false, pred width, rest)
    | rest => (false, width, rest)
    end in
  match span_upto width' is_digit rest with
  | ([], _) => None
  | (digits, rest') => let v := dec_value 0 digits in Some (if negative then - v else v, rest')
  end.

(** Fields of the given widths, each followed by its literal. *)
Fixpoint scan_fields (format : list (nat * Z)) (text : list Z) : option (list Z * list Z) :=
  match format with
  | [] => Some ([], text)
  | (width, literal) :: format' =>
      match scan_width width text with
      | Some (v, b :: rest) =>
          if b =? literal then
            match scan_fields format' rest with Some (vs, rest') => Some (v :: vs, rest') | None => None end
          else None
      | _ => None
      end
  end.

Definition iso_format : list (nat * Z) := [(4%nat, 45); (2%nat, 45); (2%nat, 84); (2%nat, 58); (2%nat, 58); (2%nat, 46)].

(** The zone: [%7s], white space, then at most seven bytes that are none. *)
Definition scan_zone (text : list Z) : option (list Z) :=
  match (span_upto 7 (fun b => negb (isspace b)) (skip_spaces text)).1 with
  | [] => None
  | zone => Some zone
  end.

Definition is_utc_zone (zone : list Z) : bool :=
  bool_decide (zone = b! "Z") || bool_decide (zone = b! "z") || bool_decide (zone = b! "+00:00")
  || bool_decide (zone = b! "+0000").

Definition LooksLikeUtcIsoMs (text : list Z) : bool :=
  match scan_fields iso_format (until 0 text).1 with
  | Some ([year; month; day; hour; minute; second], rest) =>
      match scan_width 3 rest with
      | Some (millis, rest') =>
          match scan_zone rest' with
          | Some zone =>
              if (month <? 1) || (12 <? month) || (day <? 1) || (31 <? day) then false
              else if (23 <? hour) || (59 <? minute) || (60 <? second) then false
              else is_utc_zone zone
          | None => false
          end
      | None => false
      end
  | _ => false
  end.

(** ** Identifiers *)

Definition hex_digit (n : Z) : Z := if n <? 10 then 48 + n else 87 + n.

(** [%0<width>x] of a number that fits. *)
Definition hex_fixed (width : nat) (v : Z) : list Z :=
  map (fun i => hex_digit (Z.land (Z.shiftr v (4 * Z.of_nat i)) 15)) (rev (seq 0 width)).

Definition MakeUuid (draw_high draw_low : Z) : list Z :=
  let high := Z.lor (Z.land draw_high 0xFFFFFFFFFFFF0FFF) 0x4000 in
  let low := Z.lor (Z.land draw_low 0x3FFFFFFFFFFFFFFF) 0x8000000000000000 in
  hex_fixed 8 (Z.shiftr high 32) ++ b! "-" ++ hex_fixed 4 (Z.land (Z.shiftr high 16) 0xFFFF) ++ b! "-"
  ++ hex_fixed 4 (Z.land high 0xFFFF) ++ b! "-" ++ hex_fixed 4 (Z.land (Z.shiftr low 48) 0xFFFF) ++ b! "-"
  ++ hex_fixed 12 (Z.land low 0xFFFFFFFFFFFF).

(** ** Envelopes *)

Record MqMessage := mkMessage {
  m_body : string; m_raw : string; m_id : string; m_timestamp : string; m_version : Z;
  m_exchange : string; m_routing_key : string; m_redelivered : bool; m_delivery_tag : Z
}.

Section Envelope.
Context {J : JsonLib} {T : JsonText}.

Definition envelope (id ts body : string) : json :=
  inject (JObject [("id"%string, inject (JString id)); ("ts"%string, inject (JString ts));
                   ("v"%string, inject (JInt 1)); ("body"%string, inject (JString body))]).

Definition quoted (s : string) : string := String (char_of 34) (s ++ String (char_of 34) EmptyString).

(** [None] is the exception of [dump]. *)
Definition EncodeEnvelope (draw_high draw_low : Z) (now : Utc) (body : string) : option string :=
  dump (envelope (text_of (MakeUuid draw_high draw_low)) (text_of (IsoTimestampUtcMs now)) body).

Definition string_member (l : list (string * json)) (key : string) : option string :=
  match member l key with
  | Some x => match view x with JString s => Some s | _ => None end
  | None => None
  end.

Definition integer_member (l : list (string * json)) (key : string) : option Z :=
  match member l key with
  | Some x => match view x with JInt z | JUint z => Some z | _ => None end
  | None => None
  end.

(** [what] is the text of the parser's exception. *)
Definition DecodeEnvelope (what : string -> string) (payload : string) (out : MqMessage) : res MqMessage :=
  match parse payload with
  | None => Err ("not JSON: " ++ what payload)
  | Some doc =>
      match view doc with
      | JObject l =>
          match string_member l "id" with
          | None | Some EmptyString => Err ("missing or empty " ++ quoted "id")
          | Some id =>
              match string_member l "ts" with
              | None => Err (quoted "ts" ++ " is not an ISO-8601 UTC timestamp with milliseconds")
              | Some ts =>
                  if negb (LooksLikeUtcIsoMs (bytes_of ts)) then Err (quoted "ts" ++ " is not an ISO-8601 UTC timestamp with milliseconds")
                  else match integer_member l "v" with
                  | None => Err (quoted "v" ++ " is not 1")
                  | Some v =>
                      if negb (to_int32 v =? 1) then Err (quoted "v" ++ " is not 1")
                      else match string_member l "body" with
                      | None => Err (quoted "body" ++ " is not a string")
                      | Some body =>
                          Ok (mkMessage body (m_raw out) id ts (to_int32 v) (m_exchange out) (m_routing_key out)
                                (m_redelivered out) (m_delivery_tag out))
                      end
                  end
              end
          end
      | _ => Err "not a JSON object"
      end
  end.
End Envelope.

(** ** Printed stamps are read back *)

(** The printed fields, checked on every value they can take. *)
Lemma padded_digits width n : (0 < width <= 4)%nat -> 0 <= n < 10 ^ Z.of_nat width ->
  length (padded_decimal width n) = width /\ forallb is_digit (padded_decimal width n) = true /\
  dec_value 0 (padded_decimal width n) = n.
Proof.
  intros Hw Hn.
  assert (forallb (fun w => forallb (fun n =>
    (length (padded_decimal w (Z.of_nat n)) =? w)%nat && forallb is_digit (padded_decimal w (Z.of_nat n)) &&
    (dec_value 0 (padded_decimal w (Z.of_nat n)) =? Z.of_nat n)) (seq 0 (Z.to_nat (10 ^ Z.of_nat w)))) (seq 1 4) = true) as H
    by (vm_compute; reflexivity).
  destruct width as [|width]; [lia|].
  rewrite forallb_forall in H. specialize (H (S width)). rewrite forallb_forall in H.
  specialize (H ltac:(apply in_seq; lia) (Z.to_nat n)).
  assert (In (Z.to_nat n) (seq 0 (Z.to_nat (10 ^ Z.of_nat (S width))))) as Hin by (apply in_seq; split; [lia|]; apply Z2Nat.inj_lt; lia).
  apply H in Hin. rewrite Z2Nat.id in Hin by lia. reflect_bools. destruct_and?. reflect_bools. done.
Qed.

Lemma span_upto_digits p digits : forall rest, forallb p digits = true ->
  span_upto (length digits) p (digits ++ rest) = (digits, rest).
Proof.
  induction digits as [|d digits IH]; intros rest H; cbn [length span_upto app]; [by destruct rest|].
  cbn [forallb] in H. apply andb_true_iff in H as [-> H]. by rewrite IH.
Qed.

Lemma scan_padded width n rest : (0 < width <= 4)%nat -> 0 <= n < 10 ^ Z.of_nat width ->
  scan_width width (padded_decimal width n ++ rest) = Some (n, rest).
Proof.
  intros Hw Hn. destruct (padded_digits width n) as (Hl & Hd & Hv); [lia|done|].
  destruct (padded_decimal width n) as [|d digits] eqn:E; [cbn in Hl; lia|].
  assert (is_digit d = true) as Hdd by (cbn in Hd; by apply andb_true_iff in Hd as [-> _]).
  assert (scan_width width ((d :: digits) ++ rest) =
    match span_upto width is_digit ((d :: digits) ++ rest) with
    | ([], _) => None
    | (ds, rest') => Some (dec_value 0 ds, rest')
    end) as ->.
  { assert (In d [48; 49; 50; 51; 52; 53; 54; 55; 56; 57]) as Hin
      by (unfold is_digit in Hdd; reflect_bools; cbn; lia).
    repeat (destruct Hin as [<-|Hin]; [done|]). done. }
  rewrite <- Hl, span_upto_digits by done. by rewrite Hv.
Qed.

Definition utc_ok (t : Utc) : Prop :=
  0 <= u_year t <= 9999 /\ 1 <= u_month t <= 12 /\ 1 <= u_day t <= 31 /\ 0 <= u_hour t <= 23 /\
  0 <= u_minute t <= 59 /\ 0 <= u_second t <= 60 /\ 0 <= u_millis t <= 999.

Lemma padded_no_nul width n : (0 < width <= 4)%nat -> 0 <= n < 10 ^ Z.of_nat width ->
  Forall (fun b => b <> 0) (padded_decimal width n).
Proof.
  intros Hw Hn. destruct (padded_digits width n Hw Hn) as (_ & Hd & _). rewrite forallb_forall in Hd.
  apply Forall_forall. intros b Hb ->. apply list_elem_of_In, Hd in Hb. done.
Qed.

Lemma stamp_bytes t : utc_ok t -> bytes_ok (IsoTimestampUtcMs t).
Proof.
  intros (Hy & Hmo & Hd & Hh & Hmi & Hs & Hms).
  assert (forall width n, (0 < width <= 4)%nat -> 0 <= n < 10 ^ Z.of_nat width -> bytes_ok (padded_decimal width n)) as Hpad.
  { intros width n Hw Hn. destruct (padded_digits width n Hw Hn) as (_ & Hdig & _). rewrite forallb_forall in Hdig.
    apply Forall_forall. intros b Hb. apply list_elem_of_In, Hdig in Hb. unfold is_digit in Hb. reflect_bools.
    unfold byte_ok. lia. }
  unfold IsoTimestampUtcMs. repeat match goal with |- Forall _ (_ ++ _) => apply Forall_app; split end;
    first [apply Hpad; [lia|cbn; lia]|by apply bytes_of_ok].
Qed.

Lemma stamp_accepted t : utc_ok t -> LooksLikeUtcIsoMs (IsoTimestampUtcMs t) = true.
Proof.
  intros (Hy & Hmo & Hd & Hh & Hmi & Hs & Hms). unfold LooksLikeUtcIsoMs.
  assert ((until 0 (IsoTimestampUtcMs t)).1 = IsoTimestampUtcMs t) as ->.
  { assert (Forall (fun b => b <> 0) (IsoTimestampUtcMs t)) as Hno.
    { unfold IsoTimestampUtcMs.
      repeat match goal with |- Forall _ (_ ++ _) => apply Forall_app; split end;
        first [apply padded_no_nul; [lia|cbn; lia]|by apply (bool_decide_unpack _)]. }
    by destruct (until_none 0 _ Hno []) as [_ ->]. }
  unfold IsoTimestampUtcMs, iso_format. cbn [scan_fields].
  do 6 (rewrite scan_padded by (cbn; lia); cbn [bytes_of byte_of app]; cbn [scan_fields]).
  change (_ =? 45) with true. cbv beta iota.
  repeat match goal with |- context [byte_of ?c =? ?n] => change (byte_of c =? n) with true end. cbv beta iota.
  rewrite scan_padded by (cbn; lia).
  change (scan_zone [byte_of _]) with (Some (b! "Z")). cbv beta iota.
  repeat (rewrite (proj2 (Z.ltb_ge _ _)) by lia). done.
Qed.

(** ** Identifiers *)

Lemma hex_digit_range n : 0 <= n < 16 -> 48 <= hex_digit n <= 57 \/ 97 <= hex_digit n <= 102.
Proof. unfold hex_digit. intros H. destruct (Z.ltb_spec n 10); lia. Qed.

Lemma hex_fixed_shape width v : length (hex_fixed width v) = width /\
  Forall (fun b => 48 <= b <= 57 \/ 97 <= b <= 102) (hex_fixed width v).
Proof.
  unfold hex_fixed. split; [by rewrite length_map, length_rev, length_seq|].
  apply Forall_map, Forall_forall. intros i _. apply hex_digit_range. change 15 with (Z.ones 4).
  rewrite Z.land_ones by lia. apply Z.mod_pos_bound. lia.
Qed.

(** Four bits, one by one. *)
Lemma nibble_bits a b : (forall n, In n [0; 1; 2; 3] -> Z.testbit a n = Z.testbit b n) -> 0 <= a < 16 -> 0 <= b < 16 -> a = b.
Proof.
  intros H Ha Hb. rewrite <- (Z.mod_small a (2 ^ 4)), <- (Z.mod_small b (2 ^ 4)) by (cbn; lia).
  rewrite <- !Z.land_ones by lia. apply Z.bits_inj'. intros n Hn. rewrite !Z.land_spec.
  destruct (Z.ltb_spec n 4).
  - f_equal. apply H. cbn. lia.
  - by rewrite !Z.ones_spec_high, !andb_false_r by lia.
Qed.

Ltac nibble := intros n Hn; repeat (destruct Hn as [<-|Hn];
  [repeat first [rewrite Z.land_spec|rewrite Z.lor_spec|rewrite Z.shiftr_spec by lia]; cbn -[Z.testbit];
   repeat match goal with |- context [Z.testbit (Zpos ?p) ?k] =>
     let b := eval compute in (Z.testbit (Zpos p) k) in change (Z.testbit (Zpos p) k) with b end;
   rewrite ?andb_true_r, ?andb_false_r, ?orb_true_r, ?orb_false_r; done|]); done.

Lemma land_15 v : 0 <= Z.land v 15 < 16.
Proof. change 15 with (Z.ones 4). rewrite Z.land_ones by lia. apply Z.mod_pos_bound. lia. Qed.

(** Version 4, variant 1, at their places. *)
Lemma uuid_shape h l : length (MakeUuid h l) = 36%nat /\ MakeUuid h l !! 14%nat = Some 52 /\
  (exists b, MakeUuid h l !! 19%nat = Some b /\ In b (b! "89ab")) /\ bytes_ok (MakeUuid h l).
Proof.
  split; [|split; [|split]].
  - unfold MakeUuid. rewrite !length_app. by rewrite !(proj1 (hex_fixed_shape _ _)).
  - change (MakeUuid h l !! 14%nat) with (Some (hex_digit (Z.land (Z.shiftr (Z.land (Z.lor (Z.land h 0xFFFFFFFFFFFF0FFF) 0x4000) 0xFFFF) 12) 15))).
    rewrite (nibble_bits (Z.land _ 15) 4); [done| |apply land_15|lia]. nibble.
  - eexists. split; [reflexivity|].
    rewrite (nibble_bits (Z.land (Z.shiftr _ _) 15) (Z.lor 8 (Z.land (Z.shiftr l 60) 3))); [| |apply land_15|].
    + change 3 with (Z.ones 2) at 1. rewrite Z.land_ones by lia. pose proof (Z.mod_pos_bound (Z.shiftr l 60) (2 ^ 2) ltac:(lia)) as Hb.
      change (2 ^ 2) with 4 in *. set (x := Z.shiftr l 60 mod 4) in *.
      assert (x = 0 \/ x = 1 \/ x = 2 \/ x = 3) as Hx by lia. clearbody x. cbn. repeat destruct Hx as [->|Hx]; cbn; try subst; tauto.
    + nibble.
    + change 3 with (Z.ones 2). rewrite Z.land_ones by lia. pose proof (Z.mod_pos_bound (Z.shiftr l 60) (2 ^ 2) ltac:(lia)) as Hb.
      change (2 ^ 2) with 4 in *. set (x := Z.shiftr l 60 mod 4) in *.
      assert (x = 0 \/ x = 1 \/ x = 2 \/ x = 3) as Hx by lia. clearbody x. repeat destruct Hx as [->|Hx]; try subst; by vm_compute.
  - unfold MakeUuid.
    repeat match goal with |- Forall _ (_ ++ _) => apply Forall_app; split end;
      first [by apply bytes_of_ok|eapply Forall_impl; [apply hex_fixed_shape|]; unfold byte_ok; simpl; lia].
Qed.

(** ** Properties *)

Section Properties.
Context {J : JsonLib} {T : JsonText}.

Lemma string_member_of l l' key s :
  (forall x, member l key = Some x -> exists y, member l' key = Some y /\ (same_scalar x x -> same_scalar x y)) ->
  member l key = Some (inject (JString s)) -> string_member l' key = Some s.
Proof.
  intros H Hm. destruct (H _ Hm) as (y & Hy & Hs). unfold string_member. rewrite Hy.
  unfold same_scalar in Hs. rewrite view_inject in Hs by done. specialize (Hs eq_refl). by destruct (view y); subst.
Qed.

Lemma integer_member_of l l' key z :
  (forall x, member l key = Some x -> exists y, member l' key = Some y /\ (same_scalar x x -> same_scalar x y)) ->
  member l key = Some (inject (JInt z)) -> integer_member l' key = Some z.
Proof.
  intros H Hm. destruct (H _ Hm) as (y & Hy & Hs). unfold integer_member. rewrite Hy.
  unfold same_scalar in Hs. rewrite view_inject in Hs by done. specialize (Hs eq_refl). by destruct (view y); subst.
Qed.

(** A body survives its envelope: whatever the clock and the random
    generator say, an envelope that could be written is decoded to the same
    body, with version 1, the time stamp that was written and a 36-character
    version 4 identifier; nothing else of the message is touched. *)
Theorem envelope_roundtrip what high low now body payload out : utc_ok now ->
  EncodeEnvelope high low now body = Some payload ->
  let id := text_of (MakeUuid high low) in
  DecodeEnvelope what payload out =
    Ok (mkMessage body (m_raw out) id (text_of (IsoTimestampUtcMs now)) 1 (m_exchange out) (m_routing_key out)
          (m_redelivered out) (m_delivery_tag out)) /\
  length (bytes_of id) = 36%nat /\ bytes_of id !! 14%nat = Some 52 /\
  (exists b, bytes_of id !! 19%nat = Some b /\ In b (b! "89ab")).
Proof.
  intros Hnow E id. destruct (uuid_shape high low) as (Hl & H14 & H19 & Hok).
  assert (bytes_of id = MakeUuid high low) as Hid by (by apply bytes_of_text_of). rewrite Hid.
  split; [|done]. unfold EncodeEnvelope in E. fold id in E.
  set (ts := text_of (IsoTimestampUtcMs now)) in *.
  set (l := [("id"%string, inject (JString id)); ("ts"%string, inject (JString ts)); ("v"%string, inject (JInt 1));
             ("body"%string, inject (JString body))]).
  destruct (parse_dump l payload) as (doc & l' & Hp & Hv & Hmem).
  { by apply (bool_decide_unpack _). }
  { unfold l. rewrite !Forall_cons. cbn [snd]. rewrite !view_inject by done. by split_and!. }
  { done. }
  assert (string_member l' "id" = Some id) as E1 by (by apply (string_member_of l l' _ _ (Hmem "id"%string))).
  assert (string_member l' "ts" = Some ts) as E2 by (by apply (string_member_of l l' _ _ (Hmem "ts"%string))).
  assert (integer_member l' "v" = Some 1) as E3 by (by apply (integer_member_of l l' _ _ (Hmem "v"%string))).
  assert (string_member l' "body" = Some body) as E4 by (by apply (string_member_of l l' _ _ (Hmem "body"%string))).
  unfold DecodeEnvelope. rewrite Hp, Hv, E1, E2, E3, E4.
  destruct id as [|c id'] eqn:Eid; [by rewrite <- Hid in Hl|].
  unfold ts. rewrite bytes_of_text_of by (by apply stamp_bytes). by rewrite stamp_accepted.
Qed.

(** Only envelopes are accepted, and all of it or nothing: decoding yields
    a message exactly for a JSON object with a nonempty string id, a string ts
    that reads as a UTC stamp, an integer v that is 1 in 32 bits, and a string
    body; the message has these four, and the fields the caller had filled in
    are kept. *)
Theorem decode_exact what payload out m :
  DecodeEnvelope what payload out = Ok m <->
  exists doc l v, parse payload = Some doc /\ view doc = JObject l /\
    string_member l "id" = Some (m_id m) /\ m_id m <> EmptyString /\
    string_member l "ts" = Some (m_timestamp m) /\ LooksLikeUtcIsoMs (bytes_of (m_timestamp m)) = true /\
    integer_member l "v" = Some v /\ to_int32 v = 1 /\ m_version m = 1 /\ string_member l "body" = Some (m_body m) /\
    m_raw m = m_raw out /\ m_exchange m = m_exchange out /\ m_routing_key m = m_routing_key out /\
    m_redelivered m = m_redelivered out /\ m_delivery_tag m = m_delivery_tag out.
Proof.
  unfold DecodeEnvelope. split.
  - intros E. destruct (parse payload) as [doc|]; [|done]. destruct (view doc) as [| | | | | | |l] eqn:Hv; try done.
    destruct (string_member l "id") as [[|c id]|] eqn:E1; try done.
    destruct (string_member l "ts") as [ts|] eqn:E2; [|done].
    destruct (LooksLikeUtcIsoMs (bytes_of ts)) eqn:Ets; [|done]. cbn [negb] in E.
    destruct (integer_member l "v") as [v|] eqn:E3; [|done]. destruct (Z.eqb_spec (to_int32 v) 1) as [Ev|]; [|done].
    destruct (string_member l "body") as [body|] eqn:E4; [|done]. injection E as <-. exists doc, l, v. cbn. by rewrite Ev.
  - intros (doc & l & v & -> & -> & E1 & Hne & E2 & Ets & E3 & Ev & Hver & E4 & Hr & He & Hk & Hre & Ht).
    rewrite E1, E2, E3, E4, Ets, Ev. destruct (m_id m) eqn:Eid; [done|]. cbn. f_equal. destruct m. cbn in *. congruence.
Qed.
End Properties.

(** ** Examples *)

Definition demo_now : Utc := mkUtc 2026 8 12 9 15 3 123.

Example stamp_example : IsoTimestampUtcMs demo_now = b! "2026-08-12T09:15:03.123Z".
Proof. vm_compute. reflexivity. Qed.

Example uuid_example : MakeUuid 0x0123456789abcdef 0xfedcba9876543210 = b! "01234567-89ab-4def-bedc-ba9876543210".
Proof. vm_compute. reflexivity. Qed.

(** Signs are digits to [sscanf], and only the upper ends of the time are
    checked; one digit of a millisecond will do, and white space is skipped. *)
Example stamp_negative_time : LooksLikeUtcIsoMs (b! "2026-08-12T-9:-5:-3.123Z") = true.
Proof. vm_compute. reflexivity. Qed.
Example stamp_not_iso : LooksLikeUtcIsoMs (b! " +26- 8- 2T 9: 5: 3. 1  Z") = true.
Proof. vm_compute. reflexivity. Qed.
(** Anything may follow the zone, after white space. *)
Example stamp_with_tail : LooksLikeUtcIsoMs (b! "2026-08-12T09:15:03.123Z and more") = true.
Proof. vm_compute. reflexivity. Qed.
Example stamp_local : LooksLikeUtcIsoMs (b! "2026-08-12T09:15:03.123+07:00") = false.
Proof. vm_compute. reflexivity. Qed.

(** A toy text form: one envelope, and one with a version beyond 32 bits. *)
Definition demo_id : string := text_of (MakeUuid 1 2).
Definition demo_ts : string := text_of (IsoTimestampUtcMs demo_now).
Definition demo_doc (v : Z) : jtree :=
  TObject [("id"%string, TString demo_id); ("ts"%string, TString demo_ts); ("v"%string, TInt v); ("body"%string, TString "hello")].
Definition demo_parse (text : string) : option jtree :=
  if String.eqb text "envelope" then Some (demo_doc 1) else if String.eqb text "far" then Some (demo_doc (2 ^ 32 + 1)) else None.
Definition demo_dump (t : jtree) : option string :=
  match t with
  | TObject [("id"%string, TString a); ("ts"%string, TString b); ("v"%string, TInt 1); ("body"%string, TString c)] =>
      if String.eqb a demo_id && String.eqb b demo_ts && String.eqb c "hello" then Some "envelope"%string else None
  | _ => None
  end.

Lemma demo_dump_doc t text : demo_dump t = Some text -> t = demo_doc 1 /\ text = "envelope"%string.
Proof.
  unfold demo_dump. intros E.
  repeat (match type of E with context [match ?x with _ => _ end] => is_var x; destruct x; try discriminate E end).
  destruct (String.eqb _ demo_id) eqn:E1; [|discriminate E]. destruct (String.eqb _ demo_ts) eqn:E2; [|discriminate E].
  destruct (String.eqb _ "hello") eqn:E3; [|discriminate E]. injection E as <-.
  apply String.eqb_eq in E1, E2, E3. by subst.
Qed.

#[local] Instance demo_text : JsonText (J := jtree_json).
Proof.
  refine (@Build_JsonText jtree_json demo_parse demo_dump _ eq_refl). intros l t Hnd _ E.
  apply demo_dump_doc in E as [E ->]. cbn in E. injection E as ->. exists (demo_doc 1). eexists. split; [done|].
  split; [done|]. intros key x Hx. by exists x.
Defined.

(** The version is read into 32 bits. *)
Example far_version_accepted :
  match DecodeEnvelope (J := jtree_json) (T := demo_text) id "far" (mkMessage "" "far" "" "" 0 "x" "k" false 7) with
  | Ok m => (m_version m, m_body m) = (1, "hello"%string)
  | _ => False
  end.
Proof. vm_compute. reflexivity. Qed.

Lemma envelope_roundtrip_witness :
  EncodeEnvelope (J := jtree_json) (T := demo_text) 1 2 demo_now "hello" = Some "envelope"%string /\
  exists id, DecodeEnvelope (J := jtree_json) (T := demo_text) (fun s => s) "envelope" (mkMessage "" "raw" "" "" 0 "x" "k" false 7) =
    Ok (mkMessage "hello" "raw" id demo_ts 1 "x" "k" false 7) /\ length (bytes_of id) = 36%nat.
Proof.
  assert (EncodeEnvelope (J := jtree_json) (T := demo_text) 1 2 demo_now "hello" = Some "envelope"%string) as E
    by (vm_compute; reflexivity).
  split; [exact E|].
  destruct (envelope_roundtrip (J := jtree_json) (T := demo_text) (fun s => s) 1 2 demo_now "hello" "envelope"
    (mkMessage "" "raw" "" "" 0 "x" "k" false 7)) as (Hd & Hl & _); [unfold utc_ok; cbn; lia|exact E|].
  eexists. split; [exact Hd|exact Hl].
Defined.
