(* ===== verification/MqClient.v ===== *)
(** * The message client (src/MqClient.cpp)

    A RabbitMQ client around a third-party protocol library.  One thread owns
    the connection: it reads, lets the library parse, and reacts to what the
    library calls back ([LibEvent]); what it asks of the library is the list
    [calls].  Everybody else only queues and reads.  The critical sections of
    the public calls and each access of the thread to what is shared are the
    steps of [mq_step], where the thread's state ([IoPc]) says what it does next;
    [Stop] ends it and [Start] makes a new one.  What the socket and the library
    do is the environment. *)

From stdpp Require Import relations.
From S2P Require Import Prelude Words Text Float Json C3Codec MqEnvelope.

(** ** Configuration *)

Record MqConfig := mkMqConfig {
  mq_enabled : bool; mq_host : string; mq_port : Z; mq_vhost : string; mq_user : string; mq_password : string;
  mq_exchange : string; mq_exchange_type : string; mq_queue : string; mq_routing_key : string;
  mq_declare_topology : bool; mq_consume : bool; mq_prefetch : Z; mq_envelope : bool;
  mq_heartbeat_sec : Z; mq_reconnect_interval_ms : Z; mq_publish_queue_limit : Z; mq_inbox_limit : Z
}.

Definition kMaxBodyBytes : Z := 8 * 1024 * 1024.
Definition kMaxPerPass : nat := 64.

Inductive ExchangeType := direct | fanout | topic | headers.
Definition ExchangeTypeFromName (name : string) : ExchangeType :=
  if String.eqb name "fanout" then fanout else if String.eqb name "topic" then topic
  else if String.eqb name "headers" then headers else direct.

Definition EndpointLabel (config : MqConfig) : string :=
  (mq_user config ++ "@" ++ mq_host config ++ ":" ++ to_string (mq_port config) ++ mq_vhost config)%string.

(** Only what shapes the connection forces a new one. *)
Definition endpoint (c : MqConfig) :=
  (mq_host c, mq_port c, mq_vhost c, mq_user c, mq_password c, mq_exchange c, mq_exchange_type c, mq_queue c,
   mq_routing_key c, mq_declare_topology c, mq_prefetch c, mq_heartbeat_sec c, mq_enabled c).
Definition endpointChanged (old config : MqConfig) : bool := negb (bool_decide (endpoint old = endpoint config)).

(** A queue limit: at least one. *)
Definition limit_of (n : Z) : nat := if 0 <? n then Z.to_nat n else 1%nat.

(** ** State *)

Record Outgoing := mkOutgoing { o_exchange : string; o_routingKey : string; o_body : string; o_contentType : string }.

(** A delivery: the body with its size as the broker announces it. *)
Record Delivery := mkDelivery {
  d_body : string; d_exchange : string; d_routing_key : string; d_redelivered : bool; d_tag : Z
}.

(** What is asked of the library, and the message callback. *)
Inductive Call :=
| NewConnection (user password vhost : string)
| CloseConnection
| OpenChannel
| DeclareExchange (name : string) (type : ExchangeType)
| DeclareQueue (name : string)
| BindQueue (exchange queue routing_key : string)
| SetQos (prefetch : Z)
| Consume (queue : string)
| Cancel (tag : string)
| PublishCall (item : Outgoing)
| Ack (tag : Z)
| Reject (tag : Z)
| HeartbeatCall
| Callback (m : MqMessage).

Record Mq := mkMq {
  config : MqConfig; running : bool; reconfigured : bool;
  socket_open : bool; inputBuffer : list Z; connection : bool; channel : bool;
  ready : bool; channelPrepared : bool; consumerStarting : bool; consumerTag : string; failed : bool;
  negotiatedHeartbeat : Z; lastInbound : Z; lastHeartbeatSent : Z; endpointLabel : string;
  connectedFlag : bool; consumingFlag : bool; pauseRequested : bool;
  publishedCount : Z; receivedCount : Z; rejectedCount : Z; droppedCount : Z; overflowedCount : Z;
  lastError : string; outgoing : list Outgoing; inbox : list MqMessage; has_callback : bool; calls : list Call
}.

Section Setters.
Implicit Types s : Mq.
Definition set_config (v : MqConfig) s : Mq :=
  mkMq v (running s) (reconfigured s) (socket_open s) (inputBuffer s) (connection s) (channel s) (ready s)
    (channelPrepared s) (consumerStarting s) (consumerTag s) (failed s) (negotiatedHeartbeat s) (lastInbound s)
    (lastHeartbeatSent s) (endpointLabel s) (connectedFlag s) (consumingFlag s) (pauseRequested s) (publishedCount s)
    (receivedCount s) (rejectedCount s) (droppedCount s) (overflowedCount s) (lastError s) (outgoing s) (inbox s)
    (has_callback s) (calls s).
Definition set_running (v : bool) s : Mq :=
  mkMq (config s) v (reconfigured s) (socket_open s) (inputBuffer s) (connection s) (channel s) (ready s)
    (channelPrepared s) (consumerStarting s) (consumerTag s) (failed s) (negotiatedHeartbeat s) (lastInbound s)
    (lastHeartbeatSent s) (endpointLabel s) (connectedFlag s) (consumingFlag s) (pauseRequested s) (publishedCount s)
    (receivedCount s) (rejectedCount s) (droppedCount s) (overflowedCount s) (lastError s) (outgoing s) (inbox s)
    (has_callback s) (calls s).
Definition set_reconfigured (v : bool) s : Mq :=
  mkMq (config s) (running s) v (socket_open s) (inputBuffer s) (connection s) (channel s) (ready s)
    (channelPrepared s) (consumerStarting s) (consumerTag s) (failed s) (negotiatedHeartbeat s) (lastInbound s)
    (lastHeartbeatSent s) (endpointLabel s) (connectedFlag s) (consumingFlag s) (pauseRequested s) (publishedCount s)
    (receivedCount s) (rejectedCount s) (droppedCount s) (overflowedCount s) (lastError s) (outgoing s) (inbox s)
    (has_callback s) (calls s).
Definition set_socket_open (v : bool) s : Mq :=
  mkMq (config s) (running s) (reconfigured s) v (inputBuffer s) (connection s) (channel s) (ready s)
    (channelPrepared s) (consumerStarting s) (consumerTag s) (failed s) (negotiatedHeartbeat s) (lastInbound s)
    (lastHeartbeatSent s) (endpointLabel s) (connectedFlag s) (consumingFlag s) (pauseRequested s) (publishedCount s)
    (receivedCount s) (rejectedCount s) (droppedCount s) (overflowedCount s) (lastError s) (outgoing s) (inbox s)
    (has_callback s) (calls s).
Definition set_inputBuffer (v : list Z) s : Mq :=
  mkMq (config s) (running s) (reconfigured s) (socket_open s) v (connection s) (channel s) (ready s)
    (channelPrepared s) (consumerStarting s) (consumerTag s) (failed s) (negotiatedHeartbeat s) (lastInbound s)
    (lastHeartbeatSent s) (endpointLabel s) (connectedFlag s) (consumingFlag s) (pauseRequested s) (publishedCount s)
    (receivedCount s) (rejectedCount s) (droppedCount s) (overflowedCount s) (lastError s) (outgoing s) (inbox s)
    (has_callback s) (calls s).
Definition set_connection (v : bool) s : Mq :=
  mkMq (config s) (running s) (reconfigured s) (socket_open s) (inputBuffer s) v (channel s) (ready s)
    (channelPrepared s) (consumerStarting s) (consumerTag s) (failed s) (negotiatedHeartbeat s) (lastInbound s)
    (lastHeartbeatSent s) (endpointLabel s) (connectedFlag s) (consumingFlag s) (pauseRequested s) (publishedCount s)
    (receivedCount s) (rejectedCount s) (droppedCount s) (overflowedCount s) (lastError s) (outgoing s) (inbox s)
    (has_callback s) (calls s).
Definition set_channel (v : bool) s : Mq :=
  mkMq (config s) (running s) (reconfigured s) (socket_open s) (inputBuffer s) (connection s) v (ready s)
    (channelPrepared s) (consumerStarting s) (consumerTag s) (failed s) (negotiatedHeartbeat s) (lastInbound s)
    (lastHeartbeatSent s) (endpointLabel s) (connectedFlag s) (consumingFlag s) (pauseRequested s) (publishedCount s)
    (receivedCount s) (rejectedCount s) (droppedCount s) (overflowedCount s) (lastError s) (outgoing s) (inbox s)
    (has_callback s) (calls s).
Definition set_ready (v : bool) s : Mq :=
  mkMq (config s) (running s) (reconfigured s) (socket_open s) (inputBuffer s) (connection s) (channel s) v
    (channelPrepared s) (consumerStarting s) (consumerTag s) (failed s) (negotiatedHeartbeat s) (lastInbound s)
    (lastHeartbeatSent s) (endpointLabel s) (connectedFlag s) (consumingFlag s) (pauseRequested s) (publishedCount s)
    (receivedCount s) (rejectedCount s) (droppedCount s) (overflowedCount s) (lastError s) (outgoing s) (inbox s)
    (has_callback s) (calls s).
Definition set_channelPrepared (v : bool) s : Mq :=
  mkMq (config s) (running s) (reconfigured s) (socket_open s) (inputBuffer s) (connection s) (channel s) (ready s)
    v (consumerStarting s) (consumerTag s) (failed s) (negotiatedHeartbeat s) (lastInbound s) (lastHeartbeatSent s)
    (endpointLabel s) (connectedFlag s) (consumingFlag s) (pauseRequested s) (publishedCount s) (receivedCount s)
    (rejectedCount s) (droppedCount s) (overflowedCount s) (lastError s) (outgoing s) (inbox s) (has_callback s)
    (calls s).
Definition set_consumerStarting (v : bool) s : Mq :=
  mkMq (config s) (running s) (reconfigured s) (socket_open s) (inputBuffer s) (connection s) (channel s) (ready s)
    (channelPrepared s) v (consumerTag s) (failed s) (negotiatedHeartbeat s) (lastInbound s) (lastHeartbeatSent s)
    (endpointLabel s) (connectedFlag s) (consumingFlag s) (pauseRequested s) (publishedCount s) (receivedCount s)
    (rejectedCount s) (droppedCount s) (overflowedCount s) (lastError s) (outgoing s) (inbox s) (has_callback s)
    (calls s).
Definition set_consumerTag (v : string) s : Mq :=
  mkMq (config s) (running s) (reconfigured s) (socket_open s) (inputBuffer s) (connection s) (channel s) (ready s)
    (channelPrepared s) (consumerStarting s) v (failed s) (negotiatedHeartbeat s) (lastInbound s) (lastHeartbeatSent
    s) (endpointLabel s) (connectedFlag s) (consumingFlag s) (pauseRequested s) (publishedCount s) (receivedCount s)
    (rejectedCount s) (droppedCount s) (overflowedCount s) (lastError s) (outgoing s) (inbox s) (has_callback s)
    (calls s).
Definition set_failed (v : bool) s : Mq :=
  mkMq (config s) (running s) (reconfigured s) (socket_open s) (inputBuffer s) (connection s) (channel s) (ready s)
    (channelPrepared s) (consumerStarting s) (consumerTag s) v (negotiatedHeartbeat s) (lastInbound s)
    (lastHeartbeatSent s) (endpointLabel s) (connectedFlag s) (consumingFlag s) (pauseRequested s) (publishedCount s)
    (receivedCount s) (rejectedCount s) (droppedCount s) (overflowedCount s) (lastError s) (outgoing s) (inbox s)
    (has_callback s) (calls s).
Definition set_negotiatedHeartbeat (v : Z) s : Mq :=
  mkMq (config s) (running s) (reconfigured s) (socket_open s) (inputBuffer s) (connection s) (channel s) (ready s)
    (channelPrepared s) (consumerStarting s) (consumerTag s) (failed s) v (lastInbound s) (lastHeartbeatSent s)
    (endpointLabel s) (connectedFlag s) (consumingFlag s) (pauseRequested s) (publishedCount s) (receivedCount s)
    (rejectedCount s) (droppedCount s) (overflowedCount s) (lastError s) (outgoing s) (inbox s) (has_callback s)
    (calls s).
Definition set_lastInbound (v : Z) s : Mq :=
  mkMq (config s) (running s) (reconfigured s) (socket_open s) (inputBuffer s) (connection s) (channel s) (ready s)
    (channelPrepared s) (consumerStarting s) (consumerTag s) (failed s) (negotiatedHeartbeat s) v (lastHeartbeatSent
    s) (endpointLabel s) (connectedFlag s) (consumingFlag s) (pauseRequested s) (publishedCount s) (receivedCount s)
    (rejectedCount s) (droppedCount s) (overflowedCount s) (lastError s) (outgoing s) (inbox s) (has_callback s)
    (calls s).
Definition set_lastHeartbeatSent (v : Z) s : Mq :=
  mkMq (config s) (running s) (reconfigured s) (socket_open s) (inputBuffer s) (connection s) (channel s) (ready s)
    (channelPrepared s) (consumerStarting s) (consumerTag s) (failed s) (negotiatedHeartbeat s) (lastInbound s) v
    (endpointLabel s) (connectedFlag s) (consumingFlag s) (pauseRequested s) (publishedCount s) (receivedCount s)
    (rejectedCount s) (droppedCount s) (overflowedCount s) (lastError s) (outgoing s) (inbox s) (has_callback s)
    (calls s).
Definition set_endpointLabel (v : string) s : Mq :=
  mkMq (config s) (running s) (reconfigured s) (socket_open s) (inputBuffer s) (connection s) (channel s) (ready s)
    (channelPrepared s) (consumerStarting s) (consumerTag s) (failed s) (negotiatedHeartbeat s) (lastInbound s)
    (lastHeartbeatSent s) v (connectedFlag s) (consumingFlag s) (pauseRequested s) (publishedCount s) (receivedCount
    s) (rejectedCount s) (droppedCount s) (overflowedCount s) (lastError s) (outgoing s) (inbox s) (has_callback s)
    (calls s).
Definition set_connectedFlag (v : bool) s : Mq :=
  mkMq (config s) (running s) (reconfigured s) (socket_open s) (inputBuffer s) (connection s) (channel s) (ready s)
    (channelPrepared s) (consumerStarting s) (consumerTag s) (failed s) (negotiatedHeartbeat s) (lastInbound s)
    (lastHeartbeatSent s) (endpointLabel s) v (consumingFlag s) (pauseRequested s) (publishedCount s) (receivedCount
    s) (rejectedCount s) (droppedCount s) (overflowedCount s) (lastError s) (outgoing s) (inbox s) (has_callback s)
    (calls s).
Definition set_consumingFlag (v : bool) s : Mq :=
  mkMq (config s) (running s) (reconfigured s) (socket_open s) (inputBuffer s) (connection s) (channel s) (ready s)
    (channelPrepared s) (consumerStarting s) (consumerTag s) (failed s) (negotiatedHeartbeat s) (lastInbound s)
    (lastHeartbeatSent s) (endpointLabel s) (connectedFlag s) v (pauseRequested s) (publishedCount s) (receivedCount
    s) (rejectedCount s) (droppedCount s) (overflowedCount s) (lastError s) (outgoing s) (inbox s) (has_callback s)
    (calls s).
Definition set_pauseRequested (v : bool) s : Mq :=
  mkMq (config s) (running s) (reconfigured s) (socket_open s) (inputBuffer s) (connection s) (channel s) (ready s)
    (channelPrepared s) (consumerStarting s) (consumerTag s) (failed s) (negotiatedHeartbeat s) (lastInbound s)
    (lastHeartbeatSent s) (endpointLabel s) (connectedFlag s) (consumingFlag s) v (publishedCount s) (receivedCount s)
    (rejectedCount s) (droppedCount s) (overflowedCount s) (lastError s) (outgoing s) (inbox s) (has_callback s)
    (calls s).
Definition set_publishedCount (v : Z) s : Mq :=
  mkMq (config s) (running s) (reconfigured s) (socket_open s) (inputBuffer s) (connection s) (channel s) (ready s)
    (channelPrepared s) (consumerStarting s) (consumerTag s) (failed s) (negotiatedHeartbeat s) (lastInbound s)
    (lastHeartbeatSent s) (endpointLabel s) (connectedFlag s) (consumingFlag s) (pauseRequested s) v (receivedCount s)
    (rejectedCount s) (droppedCount s) (overflowedCount s) (lastError s) (outgoing s) (inbox s) (has_callback s)
    (calls s).
Definition set_receivedCount (v : Z) s : Mq :=
  mkMq (config s) (running s) (reconfigured s) (socket_open s) (inputBuffer s) (connection s) (channel s) (ready s)
    (channelPrepared s) (consumerStarting s) (consumerTag s) (failed s) (negotiatedHeartbeat s) (lastInbound s)
    (lastHeartbeatSent s) (endpointLabel s) (connectedFlag s) (consumingFlag s) (pauseRequested s) (publishedCount s)
    v (rejectedCount s) (droppedCount s) (overflowedCount s) (lastError s) (outgoing s) (inbox s) (has_callback s)
    (calls s).
Definition set_rejectedCount (v : Z) s : Mq :=
  mkMq (config s) (running s) (reconfigured s) (socket_open s) (inputBuffer s) (connection s) (channel s) (ready s)
    (channelPrepared s) (consumerStarting s) (consumerTag s) (failed s) (negotiatedHeartbeat s) (lastInbound s)
    (lastHeartbeatSent s) (endpointLabel s) (connectedFlag s) (consumingFlag s) (pauseRequested s) (publishedCount s)
    (receivedCount s) v (droppedCount s) (overflowedCount s) (lastError s) (outgoing s) (inbox s) (has_callback s)
    (calls s).
Definition set_droppedCount (v : Z) s : Mq :=
  mkMq (config s) (running s) (reconfigured s) (socket_open s) (inputBuffer s) (connection s) (channel s) (ready s)
    (channelPrepared s) (consumerStarting s) (consumerTag s) (failed s) (negotiatedHeartbeat s) (lastInbound s)
    (lastHeartbeatSent s) (endpointLabel s) (connectedFlag s) (consumingFlag s) (pauseRequested s) (publishedCount s)
    (receivedCount s) (rejectedCount s) v (overflowedCount s) (lastError s) (outgoing s) (inbox s) (has_callback s)
    (calls s).
Definition set_overflowedCount (v : Z) s : Mq :=
  mkMq (config s) (running s) (reconfigured s) (socket_open s) (inputBuffer s) (connection s) (channel s) (ready s)
    (channelPrepared s) (consumerStarting s) (consumerTag s) (failed s) (negotiatedHeartbeat s) (lastInbound s)
    (lastHeartbeatSent s) (endpointLabel s) (connectedFlag s) (consumingFlag s) (pauseRequested s) (publishedCount s)
    (receivedCount s) (rejectedCount s) (droppedCount s) v (lastError s) (outgoing s) (inbox s) (has_callback s)
    (calls s).
Definition set_lastError (v : string) s : Mq :=
  mkMq (config s) (running s) (reconfigured s) (socket_open s) (inputBuffer s) (connection s) (channel s) (ready s)
    (channelPrepared s) (consumerStarting s) (consumerTag s) (failed s) (negotiatedHeartbeat s) (lastInbound s)
    (lastHeartbeatSent s) (endpointLabel s) (connectedFlag s) (consumingFlag s) (pauseRequested s) (publishedCount s)
    (receivedCount s) (rejectedCount s) (droppedCount s) (overflowedCount s) v (outgoing s) (inbox s) (has_callback s)
    (calls s).
Definition set_outgoing (v : list Outgoing) s : Mq :=
  mkMq (config s) (running s) (reconfigured s) (socket_open s) (inputBuffer s) (connection s) (channel s) (ready s)
    (channelPrepared s) (consumerStarting s) (consumerTag s) (failed s) (negotiatedHeartbeat s) (lastInbound s)
    (lastHeartbeatSent s) (endpointLabel s) (connectedFlag s) (consumingFlag s) (pauseRequested s) (publishedCount s)
    (receivedCount s) (rejectedCount s) (droppedCount s) (overflowedCount s) (lastError s) v (inbox s) (has_callback
    s) (calls s).
Definition set_inbox (v : list MqMessage) s : Mq :=
  mkMq (config s) (running s) (reconfigured s) (socket_open s) (inputBuffer s) (connection s) (channel s) (ready s)
    (channelPrepared s) (consumerStarting s) (consumerTag s) (failed s) (negotiatedHeartbeat s) (lastInbound s)
    (lastHeartbeatSent s) (endpointLabel s) (connectedFlag s) (consumingFlag s) (pauseRequested s) (publishedCount s)
    (receivedCount s) (rejectedCount s) (droppedCount s) (overflowedCount s) (lastError s) (outgoing s) v
    (has_callback s) (calls s).
Definition set_has_callback (v : bool) s : Mq :=
  mkMq (config s) (running s) (reconfigured s) (socket_open s) (inputBuffer s) (connection s) (channel s) (ready s)
    (channelPrepared s) (consumerStarting s) (consumerTag s) (failed s) (negotiatedHeartbeat s) (lastInbound s)
    (lastHeartbeatSent s) (endpointLabel s) (connectedFlag s) (consumingFlag s) (pauseRequested s) (publishedCount s)
    (receivedCount s) (rejectedCount s) (droppedCount s) (overflowedCount s) (lastError s) (outgoing s) (inbox s) v
    (calls s).
Definition set_calls (v : list Call) s : Mq :=
  mkMq (config s) (running s) (reconfigured s) (socket_open s) (inputBuffer s) (connection s) (channel s) (ready s)
    (channelPrepared s) (consumerStarting s) (consumerTag s) (failed s) (negotiatedHeartbeat s) (lastInbound s)
    (lastHeartbeatSent s) (endpointLabel s) (connectedFlag s) (consumingFlag s) (pauseRequested s) (publishedCount s)
    (receivedCount s) (rejectedCount s) (droppedCount s) (overflowedCount s) (lastError s) (outgoing s) (inbox s)
    (has_callback s) v.
End Setters.

Definition add_call (c : Call) (s : Mq) : Mq := set_calls (calls s ++ [c]) s.

Definition new_mq (c : MqConfig) : Mq :=
  mkMq c false false false [] false false false false false "" false 0 0 0 "" false false false 0 0 0 0 0 "" [] [] false [].

(** ** What the library calls back *)

Definition Fail (message : string) (s : Mq) : Mq :=
  set_ready false (set_consumingFlag false (set_connectedFlag false (set_failed true (set_lastError message s)))).

Inductive LibEvent :=
| OnData (sent : bool)                 (** bytes for the broker, and whether the socket took them *)
| OnNegotiate (now : Z)
| OnReady
| OnError (message : string)
| OnClosed
| OnHeartbeat
| ChannelError (message : string)
| TopologyError (what message : string)
| ConsumeOk (tag : string)
| ConsumeError (message : string)
| CancelOk
| OnReceived (d : Delivery).

Section Client.
Context {J : JsonLib} {T : JsonText}.
Variable what : string -> string.

(** [while (inbox.size() >= limit) pop_front]: how many go, and what stays. *)
Definition evict (limit : nat) (l : list MqMessage) : nat * list MqMessage :=
  let excess := (S (length l) - limit)%nat in
  if (limit <=? length l)%nat then (excess, drop excess l) else (0%nat, l).

Definition blank_message (d : Delivery) : MqMessage :=
  mkMessage "" (d_body d) "" "" 0 (d_exchange d) (d_routing_key d) (d_redelivered d) (d_tag d).

(** The message of a delivery, or why it is none. *)
Definition accept (cfg : MqConfig) (d : Delivery) : res MqMessage :=
  if mq_envelope cfg then DecodeEnvelope what (d_body d) (blank_message d)
  else Ok (mkMessage (d_body d) (d_body d) "" "" 0 (d_exchange d) (d_routing_key d) (d_redelivered d) (d_tag d)).

(** What becomes of a delivery under a configuration: its message, or [None]
    when it is to be rejected. *)
Definition judge (cfg : MqConfig) (d : Delivery) : option MqMessage :=
  if kMaxBodyBytes <? Z.of_nat (String.length (d_body d)) then None
  else match accept cfg d with Ok m => Some m | _ => None end.

(** The parts of [OnDelivery], each one access to what others share. *)
Definition count_received (s : Mq) : Mq := set_receivedCount (receivedCount s + 1) s.
Definition reject_delivery (d : Delivery) (s : Mq) : Mq :=
  set_rejectedCount (rejectedCount s + 1) (add_call (Reject (d_tag d)) s).
Definition push_inbox (limit : nat) (m : MqMessage) (s : Mq) : Mq :=
  let '(gone, kept) := evict limit (inbox s) in
  set_inbox (kept ++ [m]) (set_overflowedCount (overflowedCount s + Z.of_nat gone) s).
Definition confirm (d : Delivery) (s : Mq) : Mq := add_call (Ack (d_tag d)) s.
Definition tell (m : MqMessage) (s : Mq) : Mq := if has_callback s then add_call (Callback m) s else s.

(** A delivery with nobody else about. *)
Definition OnDelivery (d : Delivery) (s : Mq) : Mq :=
  match judge (config s) d with
  | Some m => tell m (confirm d (push_inbox (limit_of (mq_inbox_limit (config s))) m (count_received s)))
  | None => reject_delivery d (count_received s)
  end.

Definition StopConsuming (s : Mq) : Mq :=
  match consumerTag s with EmptyString => s | tag => add_call (Cancel tag) s end.

Definition handle_event (e : LibEvent) (s : Mq) : Mq :=
  match e with
  | OnData sent => if sent then s else Fail "socket write failed" s
  | OnNegotiate now =>
      set_lastHeartbeatSent now (set_negotiatedHeartbeat
        (if 0 <? mq_heartbeat_sec (config s) then mq_heartbeat_sec (config s) else 0) s)
  | OnReady => set_lastError "" (set_connectedFlag true (set_ready true s))
  | OnError message => Fail ("connection error: " ++ message) s
  | OnClosed => set_ready false (set_connectedFlag false (set_failed true s))
  | OnHeartbeat => s
  | ChannelError message => Fail ("channel error: " ++ message) s
  | TopologyError w message => Fail (w ++ " failed: " ++ message) s
  | ConsumeOk tag =>
      let s := set_consumingFlag true (set_consumerStarting false (set_consumerTag tag s)) in
      if pauseRequested s then StopConsuming s else s
  | ConsumeError message => Fail ("consume failed: " ++ message) (set_consumingFlag false (set_consumerStarting false s))
  | CancelOk => set_consumerTag "" (set_consumingFlag false s)
  | OnReceived d => OnDelivery d s
  end.

(** ** The connection *)

(** [ip] is what the host resolves to, [tcp] whether the port answers.  The
    library starts the handshake as its connection is made. *)
Definition Establish (cfg : MqConfig) (ip : string) (tcp : bool) (now : Z) (s : Mq) : bool * Mq :=
  let s := set_endpointLabel (EndpointLabel cfg) s in
  match ip with
  | EmptyString => (false, set_lastError ("cannot resolve host " ++ quoted (mq_host cfg)) s)
  | _ =>
      if negb tcp
      then (false, set_lastError ("TCP connect to " ++ ip ++ ":" ++ to_string (mq_port cfg) ++ " failed") (set_socket_open false s))
      else
        let s := set_inputBuffer [] (set_ready false (set_channelPrepared false (set_consumerStarting false
          (set_consumerTag "" (set_failed false (set_negotiatedHeartbeat 0 (set_lastInbound now
          (set_lastHeartbeatSent now (set_socket_open true s))))))))) in
        (true, add_call (NewConnection (mq_user cfg) (mq_password cfg) (mq_vhost cfg)) (set_connection true s))
  end.

(** Tearing down: the channel goes; the library is told to close; the
    connection and the socket go; the flags others see are lowered last. *)
Definition drop_channel (s : Mq) : Mq := set_channel false s.
Definition drop_connection (s : Mq) : Mq :=
  set_failed false (set_consumerTag "" (set_consumerStarting false (set_channelPrepared false (set_ready false
    (set_inputBuffer [] (set_socket_open false (set_connection false s))))))).
Definition lower_flags (s : Mq) : Mq := set_consumingFlag false (set_connectedFlag false s).

Definition add_calls (cs : list Call) (s : Mq) : Mq := set_calls (calls s ++ cs) s.
Definition nonempty (t : string) : bool := negb (String.eqb t "").

Definition topology (cfg : MqConfig) : list Call :=
  (if nonempty (mq_exchange cfg) then [DeclareExchange (mq_exchange cfg) (ExchangeTypeFromName (mq_exchange_type cfg))] else []) ++
  (if nonempty (mq_queue cfg) then
     DeclareQueue (mq_queue cfg) ::
     (if nonempty (mq_exchange cfg) then [BindQueue (mq_exchange cfg) (mq_queue cfg) (mq_routing_key cfg)] else [])
   else []).

Definition DeclareTopology (cfg : MqConfig) (s : Mq) : Mq := add_calls (topology cfg) s.

Definition StartConsuming (cfg : MqConfig) (s : Mq) : Mq :=
  if negb (nonempty (mq_queue cfg)) then s
  else add_call (Consume (mq_queue cfg)) (set_consumerStarting true s).

(** ** The stages of a pass *)

(** What a pass meets: bytes or none, whether the socket is still open after a
    read without bytes, how many bytes each call of the library's parser takes
    with what it calls back, and the call-backs of the other stages. *)
Record Pass := mkPass {
  p_chunk : option (list Z); p_open : bool; p_inbound : Z; p_parse : list (nat * list LibEvent);
  p_setup : list LibEvent; p_consumer : list LibEvent; p_now : Z; p_heartbeat : list LibEvent
}.

Definition received_bytes (p : Pass) (chunk : list Z) (s : Mq) : Mq :=
  set_inputBuffer (inputBuffer s ++ chunk) (set_lastInbound (p_inbound p) s).

Definition consume_bytes (consumed : nat) (s : Mq) : Mq := set_inputBuffer (drop consumed (inputBuffer s)) s.

Definition open_channel_calls (cfg : MqConfig) (s : Mq) : Mq :=
  let s := add_call OpenChannel (set_channel true s) in
  let s := if mq_declare_topology cfg then DeclareTopology cfg s else s in
  add_call (SetQos (to_u16 (Z.max 1 (mq_prefetch cfg)))) s.

(** What the consumer stage asks of the library, if anything. *)
Definition consumer_request (cfg : MqConfig) (s : Mq) : option Mq :=
  if ready s && channelPrepared s && mq_consume cfg then
    let wantConsume := negb (pauseRequested s) in
    if wantConsume && negb (consumingFlag s) && negb (consumerStarting s) then Some (StartConsuming cfg s)
    else if negb wantConsume && consumingFlag s then Some (StopConsuming s)
    else None
  else None.

Definition heartbeat_due (p : Pass) (s : Mq) : bool := negotiatedHeartbeat s * 500 <=? p_now p - lastHeartbeatSent s.
Definition send_heartbeat (p : Pass) (s : Mq) : Mq := add_call HeartbeatCall (set_lastHeartbeatSent (p_now p) s).
Definition check_inbound (p : Pass) (s : Mq) : Mq :=
  if negotiatedHeartbeat s * 2 * 1000 <=? p_now p - lastInbound s
  then Fail ("no traffic or heartbeat from broker for " ++ to_string (negotiatedHeartbeat s * 2) ++ "s") s else s.

(** Popping an item and handing it to the library are two critical sections. *)
Definition pop_outgoing (s : Mq) : option (Outgoing * Mq) :=
  match outgoing s with
  | [] => None
  | item :: rest => Some (item, set_outgoing rest s)
  end.

Definition publish_refused (item : Outgoing) (s : Mq) : Mq :=
  Fail "publish failed" (set_outgoing (item :: outgoing s) s).

Definition count_published (s : Mq) : Mq := set_publishedCount (publishedCount s + 1) s.

(** ** The public calls *)

Record MqStatus := mkStatus {
  st_enabled : bool; st_connected : bool; st_consuming : bool; st_paused : bool; st_error : string;
  st_published : Z; st_received : Z; st_rejected : Z; st_dropped : Z; st_overflowed : Z; st_pending : nat; st_available : nat
}.
Definition Status (s : Mq) : MqStatus :=
  mkStatus (mq_enabled (config s)) (connectedFlag s) (consumingFlag s) (pauseRequested s) (lastError s) (publishedCount s)
    (receivedCount s) (rejectedCount s) (droppedCount s) (overflowedCount s) (length (outgoing s)) (length (inbox s)).

Definition Configure (c : MqConfig) (s : Mq) : Mq :=
  let s1 := set_config c s in
  if endpointChanged (config s) c then set_reconfigured true s1 else s1.

(** The item of a Publish, once the configuration has been read; [None] is the
    exception of an envelope that cannot be written. *)
Definition outgoing_item (cfg : MqConfig) (encode : string -> option string) (body routingKey exchange : string)
  (wrapEnvelope : bool) : option Outgoing :=
  let ex := if nonempty exchange then exchange else mq_exchange cfg in
  let key := if nonempty routingKey then routingKey else mq_routing_key cfg in
  if wrapEnvelope then
    match encode body with Some text => Some (mkOutgoing ex key text "application/json") | None => None end
  else Some (mkOutgoing ex key body "").

Definition enqueue (limit : nat) (item : Outgoing) (s : Mq) : bool * Mq :=
  if (limit <=? length (outgoing s))%nat then (false, set_droppedCount (droppedCount s + 1) s)
  else (true, set_outgoing (outgoing s ++ [item]) s).

Definition Publish (cfg : MqConfig) (encode : string -> option string) (body routingKey exchange : string)
  (wrapEnvelope : bool) (s : Mq) : res (bool * Mq) :=
  if negb (mq_enabled cfg) then Ok (false, s)
  else match outgoing_item cfg encode body routingKey exchange wrapEnvelope with
  | None => Err "type_error"
  | Some item => Ok (enqueue (limit_of (mq_publish_queue_limit cfg)) item s)
  end.

Definition Flushed (s : Mq) : bool := (length (outgoing s) =? 0)%nat.
Definition Pause (paused : bool) (s : Mq) : Mq := set_pauseRequested paused s.
Definition Available (s : Mq) : bool := negb (length (inbox s) =? 0)%nat.
Definition Get (s : Mq) : option MqMessage * Mq :=
  match inbox s with
  | [] => (None, s)
  | m :: rest => (Some m, set_inbox rest s)
  end.
Definition Clear (s : Mq) : Mq := set_inbox [] s.
Definition SetMessageCallback (b : bool) (s : Mq) : Mq := set_has_callback b s.
End Client.

(** ** Everything together *)

Section Steps.
Context {J : JsonLib} {T : JsonText}.
Variable what : string -> string.

(** Where the thread is in [Run], [Service] and [DrainOutgoing]. *)
Inductive Loc :=
| Top                                      (** at the top of the loop *)
| HaveConfig (cfg : MqConfig)              (** the configuration is read *)
| Dialling (cfg : MqConfig)                (** past the look at the reconfigured flag *)
| Connected (cfg : MqConfig)               (** the library's connection is made *)
| Serve (cfg : MqConfig)                   (** a pass begins *)
| Parse (cfg : MqConfig) (p : Pass) (turns : list (nat * list LibEvent))
| Parsed (cfg : MqConfig) (p : Pass) (consumed : nat) (turns : list (nat * list LibEvent))
| Setup (cfg : MqConfig) (p : Pass)
| Prepared (cfg : MqConfig) (p : Pass)
| Consumer (cfg : MqConfig) (p : Pass)
| Consuming (p : Pass)
| Draining (p : Pass) (left : nat)         (** so many items may still go in this pass *)
| Holding (p : Pass) (left : nat) (item : Outgoing)   (** popped, not yet handed over *)
| Offered (p : Pass) (left : nat)          (** the library took the item *)
| Refused (item : Outgoing)                (** the library did not *)
| Heart (p : Pass)
| Beat (p : Pass)
| PassOver                                 (** the pass is over *)
| Close (gone : bool)                      (** a teardown begins; [gone]: the thread then ends *)
| Closed (gone : bool)
| Lower (gone : bool)                      (** only the flags are still up *)
| Gone.                                    (** no thread *)

(** A delivery in hand, inside [OnDelivery]. *)
Inductive Doing :=
| Calm
| Settle (d : Delivery) (verdict : option MqMessage) (limit : nat)
| Confirm (d : Delivery) (m : MqMessage)
| Tell (m : MqMessage).

(** At a place of its own code, or in the library's call-backs, of which [es]
    are still to come before it goes on at [next]. *)
Inductive IoPc :=
| Io (here : Loc)
| React (doing : Doing) (es : list LibEvent) (next : Loc).

(** A failed call-back ends the pass, at the next look. *)
Definition unless_failed (s : Mq) (next : Loc) : IoPc := Io (if failed s then PassOver else next).

Definition after_teardown (gone : bool) : Loc := if gone then Gone else Top.

(** The thread, step by step; between any two of them others may act. *)
Inductive io_step : Mq -> IoPc -> Mq -> IoPc -> Prop :=
| io_stopped s : running s = false -> io_step s (Io Top) s (Io (Close true))
| io_config s : running s = true -> io_step s (Io Top) s (Io (HaveConfig (config s)))
| io_disabled cfg s : mq_enabled cfg = false ->
    io_step s (Io (HaveConfig cfg)) s (Io (if connection s || socket_open s then Close false else Top))
| io_flag cfg s : mq_enabled cfg = true ->
    io_step s (Io (HaveConfig cfg)) (set_reconfigured false s)
      (Io (if reconfigured s && (connection s || socket_open s) then Close false else Dialling cfg))
| io_dial cfg ip tcp now es s ok s' : connection s = false -> Establish cfg ip tcp now s = (ok, s') ->
    io_step s (Io (Dialling cfg)) s' (if ok then React Calm es (Connected cfg) else Io (Close false))
| io_connected cfg s : io_step s (Io (Connected cfg)) s (Io (if failed s then Close false else Serve cfg))
| io_up cfg s : connection s = true -> io_step s (Io (Dialling cfg)) s (Io (Serve cfg))
| io_read cfg p chunk s : p_chunk p = Some chunk ->
    io_step s (Io (Serve cfg)) (received_bytes p chunk s) (Io (Parse cfg p (p_parse p)))
| io_idle cfg p s : p_chunk p = None -> p_open p = true -> io_step s (Io (Serve cfg)) s (unless_failed s (Setup cfg p))
| io_eof cfg p s : p_chunk p = None -> p_open p = false ->
    io_step s (Io (Serve cfg)) (Fail "connection closed by broker" (set_socket_open false s)) (Io PassOver)
| io_parse cfg p consumed es turns s : inputBuffer s <> [] ->
    io_step s (Io (Parse cfg p ((consumed, es) :: turns))) s (React Calm es (Parsed cfg p consumed turns))
| io_parsed_all cfg p turns s : inputBuffer s = [] \/ turns = [] ->
    io_step s (Io (Parse cfg p turns)) s (unless_failed s (Setup cfg p))
| io_incomplete cfg p turns s : io_step s (Io (Parsed cfg p 0 turns)) s (unless_failed s (Setup cfg p))
| io_consumed cfg p n turns s :
    io_step s (Io (Parsed cfg p (S n) turns)) (consume_bytes (S n) s) (unless_failed s (Parse cfg p turns))
| io_setup cfg p s : ready s && negb (channelPrepared s) = true ->
    io_step s (Io (Setup cfg p)) (open_channel_calls cfg s) (React Calm (p_setup p) (Prepared cfg p))
| io_no_setup cfg p s : ready s && negb (channelPrepared s) = false ->
    io_step s (Io (Setup cfg p)) s (Io (Consumer cfg p))
| io_prepared cfg p s : io_step s (Io (Prepared cfg p)) (set_channelPrepared true s) (unless_failed s (Consumer cfg p))
| io_consumer cfg p s s' : consumer_request cfg s = Some s' ->
    io_step s (Io (Consumer cfg p)) s' (React Calm (p_consumer p) (Consuming p))
| io_no_consumer cfg p s : consumer_request cfg s = None -> io_step s (Io (Consumer cfg p)) s (Io (Consuming p))
| io_consuming p s :
    io_step s (Io (Consuming p)) s (unless_failed s (if ready s && channel s then Draining p kMaxPerPass else Heart p))
| io_pop p left item s s' : pop_outgoing s = Some (item, s') ->
    io_step s (Io (Draining p (S left))) s' (Io (Holding p left item))
| io_offer p left item es s :
    io_step s (Io (Holding p left item)) (add_call (PublishCall item) s) (React Calm es (Offered p left))
| io_offer_refused p left item es s : io_step s (Io (Holding p left item)) s (React Calm es (Refused item))
| io_offered p left s : io_step s (Io (Offered p left)) (count_published s) (unless_failed s (Draining p left))
| io_refused item s : io_step s (Io (Refused item)) (publish_refused item s) (Io PassOver)
| io_drained p left s : left = 0%nat \/ outgoing s = [] -> io_step s (Io (Draining p left)) s (Io (Heart p))
| io_heartbeat p s : (0 <? negotiatedHeartbeat s) && connection s = true -> heartbeat_due p s = true ->
    io_step s (Io (Heart p)) (send_heartbeat p s) (React Calm (p_heartbeat p) (Beat p))
| io_early p s : (0 <? negotiatedHeartbeat s) && connection s = true -> heartbeat_due p s = false ->
    io_step s (Io (Heart p)) s (Io (Beat p))
| io_no_heartbeat p s : (0 <? negotiatedHeartbeat s) && connection s = false -> io_step s (Io (Heart p)) s (Io PassOver)
| io_beat p s : io_step s (Io (Beat p)) (check_inbound p s) (Io PassOver)
| io_over s : io_step s (Io PassOver) s (Io (if failed s then Close false else Top))
| io_close gone es s : connection s && socket_open s = true ->
    io_step s (Io (Close gone)) (add_call CloseConnection (drop_channel s)) (React Calm es (Closed gone))
| io_close_silent gone s : connection s && socket_open s = false ->
    io_step s (Io (Close gone)) (drop_channel s) (Io (Closed gone))
| io_closed gone s : io_step s (Io (Closed gone)) (drop_connection s) (Io (Lower gone))
| io_lowered gone s : io_step s (Io (Lower gone)) (lower_flags s) (Io (after_teardown gone))
| io_event e es next s : (forall d, e <> OnReceived d) ->
    io_step s (React Calm (e :: es) next) (handle_event what e s) (React Calm es next)
| io_back next s : io_step s (React Calm [] next) s (Io next)
| io_reject d limit es next s :
    io_step s (React (Settle d None limit) es next) (reject_delivery d s) (React Calm es next)
| io_confirm d m es next s : io_step s (React (Confirm d m) es next) (confirm d s) (React (Tell m) es next)
| io_tell m es next s : io_step s (React (Tell m) es next) (tell m s) (React Calm es next).

(** How a message left the inbox. *)
Inductive Fate := Evicted | Taken.

(** The object, the thread, whether [Stop] waits for the thread, and histories:
    the items Publish has promised, the deliveries with what was made of each,
    and the messages that left the inbox. *)
Record World := mkWorld {
  w_mq : Mq; w_io : IoPc; w_joining : bool;
  w_promised : list Outgoing; w_deliveries : list (Delivery * option MqMessage); w_left : list (MqMessage * Fate)
}.

Inductive mq_step : World -> World -> Prop :=
| step_configure c s io jn pr dl lf : mq_step (mkWorld s io jn pr dl lf) (mkWorld (Configure c s) io jn pr dl lf)
| step_start s io pr dl lf : running s = false ->
    mq_step (mkWorld s io false pr dl lf) (mkWorld (set_running true s) (Io Top) false pr dl lf)
| step_stop s io pr dl lf : running s = true ->
    mq_step (mkWorld s io false pr dl lf) (mkWorld (set_running false s) io true pr dl lf)
| step_joined s pr dl lf : mq_step (mkWorld s (Io Gone) true pr dl lf) (mkWorld s (Io Gone) false pr dl lf)
| step_publish limit item s ok s' io jn pr dl lf : enqueue limit item s = (ok, s') ->
    mq_step (mkWorld s io jn pr dl lf) (mkWorld s' io jn (if ok then pr ++ [item] else pr) dl lf)
| step_pause paused s io jn pr dl lf : mq_step (mkWorld s io jn pr dl lf) (mkWorld (Pause paused s) io jn pr dl lf)
| step_get m s s' io jn pr dl lf : Get s = (m, s') ->
    mq_step (mkWorld s io jn pr dl lf)
      (mkWorld s' io jn pr dl (lf ++ match m with Some m => [(m, Taken)] | None => [] end))
| step_clear s io jn pr dl lf :
    mq_step (mkWorld s io jn pr dl lf) (mkWorld (Clear s) io jn pr dl (lf ++ map (fun m => (m, Taken)) (inbox s)))
| step_callback b s io jn pr dl lf : mq_step (mkWorld s io jn pr dl lf) (mkWorld (SetMessageCallback b s) io jn pr dl lf)
| step_delivery d es next s jn pr dl lf :
    mq_step (mkWorld s (React Calm (OnReceived d :: es) next) jn pr dl lf)
      (mkWorld (count_received s)
         (React (Settle d (judge what (config s) d) (limit_of (mq_inbox_limit (config s)))) es next) jn pr
         (dl ++ [(d, judge what (config s) d)]) lf)
| step_push d m limit es next s jn pr dl lf :
    mq_step (mkWorld s (React (Settle d (Some m) limit) es next) jn pr dl lf)
      (mkWorld (push_inbox limit m s) (React (Confirm d m) es next) jn pr dl
         (lf ++ map (fun m => (m, Evicted)) (take (evict limit (inbox s)).1 (inbox s))))
| step_io s io s' io' jn pr dl lf : io_step s io s' io' ->
    mq_step (mkWorld s io jn pr dl lf) (mkWorld s' io' jn pr dl lf).

Definition start_world (c : MqConfig) : World := mkWorld (new_mq c) (Io Gone) false [] [] [].

(** ** What the histories are made of *)

Definition published_items (cs : list Call) : list Outgoing :=
  omap (fun c => match c with PublishCall item => Some item | _ => None end) cs.
Definition settlements (cs : list Call) : list Call :=
  List.filter (fun c => match c with Ack _ | Reject _ => true | _ => false end) cs.

(** What a delivery is answered with. *)
Definition answer (v : Delivery * option MqMessage) : Call :=
  match v.2 with Some _ => Ack (d_tag v.1) | None => Reject (d_tag v.1) end.
Definition was_rejected (v : Delivery * option MqMessage) : bool := match v.2 with None => true | _ => false end.
Definition was_evicted (v : MqMessage * Fate) : bool := match v.2 with Evicted => true | Taken => false end.
Definition count_of {A} (f : A -> bool) (l : list A) : Z := Z.of_nat (length (List.filter f l)).

(** A verdict was made under some configuration, and a message keeps what the
    delivery brought. *)
Definition judged (v : Delivery * option MqMessage) : Prop := exists cfg, v.2 = judge what cfg v.1.

(** What the thread has in its hands. *)
Definition here (io : IoPc) : Loc := match io with Io loc | React _ _ loc => loc end.
Definition in_hand (io : IoPc) : list Outgoing :=
  match here io with Holding _ _ item | Refused item => [item] | _ => [] end.
Definition uncounted (io : IoPc) : Z := match here io with Offered _ _ => 1 | _ => 0 end.
Definition doing (io : IoPc) : Doing := match io with React d _ _ => d | _ => Calm end.
Definition due_answer (io : IoPc) : list Call :=
  match doing io with Settle d v _ => [answer (d, v)] | Confirm d m => [Ack (d_tag d)] | _ => [] end.
Definition due_message (io : IoPc) : list MqMessage := match doing io with Settle _ (Some m) _ => [m] | _ => [] end.
Definition due_reject (io : IoPc) : Z := match doing io with Settle _ None _ => 1 | _ => 0 end.

(** The books, with what is in the thread's hands. *)
Record Books := mkBooks {
  b_outbound : list Outgoing; b_published : Z; b_answers : list Call; b_messages : list MqMessage;
  b_received : Z; b_rejected : Z; b_overflowed : Z
}.
Definition books (s : Mq) (io : IoPc) : Books :=
  mkBooks (published_items (calls s) ++ in_hand io ++ outgoing s)
    (publishedCount s + uncounted io - Z.of_nat (length (published_items (calls s))))
    (settlements (calls s) ++ due_answer io) (inbox s ++ due_message io)
    (receivedCount s) (rejectedCount s + due_reject io) (overflowedCount s).

(** Calls that publish and settle nothing. *)
Definition plain_calls (cs : list Call) : Prop := published_items cs = [] /\ settlements cs = [].

Lemma published_items_app a b : published_items (a ++ b) = published_items a ++ published_items b.
Proof. apply omap_app. Qed.
Lemma settlements_app a b : settlements (a ++ b) = settlements a ++ settlements b.
Proof. apply List.filter_app. Qed.

Lemma books_call c s io : plain_calls [c] -> books (add_call c s) io = books s io.
Proof.
  intros [H1 H2]. unfold books, add_call. cbn. by rewrite published_items_app, settlements_app, H1, H2, !app_nil_r.
Qed.

Lemma books_calls cs s io : plain_calls cs -> books (add_calls cs s) io = books s io.
Proof.
  intros [H1 H2]. unfold books, add_calls. cbn. by rewrite published_items_app, settlements_app, H1, H2, !app_nil_r.
Qed.

(** Places and reactions with nothing in hand. *)
Definition empty_handed (io : IoPc) : Prop :=
  in_hand io = [] /\ uncounted io = 0 /\ due_answer io = [] /\ due_message io = [] /\ due_reject io = 0.

Lemma books_empty_handed s io io' : empty_handed io -> empty_handed io' -> books s io = books s io'.
Proof. intros (E1 & E2 & E3 & E4 & E5) (F1 & F2 & F3 & F4 & F5). unfold books. by rewrite E1, E2, E3, E4, E5, F1, F2, F3, F4, F5. Qed.

Lemma books_topology cfg s io : books (DeclareTopology cfg s) io = books s io.
Proof.
  apply books_calls. unfold topology. by destruct (nonempty (mq_exchange cfg)), (nonempty (mq_queue cfg)).
Qed.

Lemma books_setup cfg s io : books (open_channel_calls cfg s) io = books s io.
Proof.
  unfold open_channel_calls. rewrite books_call by done.
  destruct (mq_declare_topology cfg); [rewrite books_topology|]; by rewrite books_call.
Qed.

Lemma books_consumer cfg s s' io : consumer_request cfg s = Some s' -> books s' io = books s io.
Proof.
  unfold consumer_request, StartConsuming, StopConsuming. intros H.
  repeat case_match; simplify_eq; try done; by rewrite books_call.
Qed.

Lemma books_event e s io : (forall d, e <> OnReceived d) -> books (handle_event what e s) io = books s io.
Proof.
  intros He. destruct e; cbn [handle_event]; try done.
  - by destruct sent.
  - destruct (pauseRequested _); [|done]. unfold StopConsuming. case_match; [done|]. by rewrite books_call.
  - by destruct (He d).
Qed.

Ltac split_ifs := repeat match goal with |- context [if ?b then _ else _] => destruct b end.

(** The thread alone moves nothing into or out of the books. *)
Lemma io_step_books s io s' io' : io_step s io s' io' -> books s' io' = books s io.
Proof.
  intros H. destruct H; unfold unless_failed, after_teardown; try done; try (by split_ifs).
  - unfold Establish in *. repeat case_match; simplify_eq; try done. by rewrite books_call.
  - by rewrite books_setup.
  - by rewrite (books_consumer _ _ _ _ H).
  - unfold pop_outgoing in *. destruct (outgoing s) eqn:Eo; simplify_eq. unfold books. cbn. by rewrite Eo.
  - unfold books. cbn. rewrite published_items_app, settlements_app, length_app. cbn.
    rewrite <- app_assoc, !app_nil_r. f_equal. lia.
  - unfold books. split_ifs; cbn -[published_items settlements]; f_equal; lia.
  - unfold send_heartbeat. by rewrite books_call.
  - unfold check_inbound. by split_ifs.
  - by rewrite books_call.
  - by rewrite books_event.
  - unfold books. cbn. rewrite published_items_app, settlements_app. cbn. rewrite !app_nil_r. f_equal. lia.
  - unfold books. cbn. rewrite published_items_app, settlements_app. cbn. by rewrite !app_nil_r.
  - unfold tell. destruct (has_callback s); [by rewrite books_call|done].
Qed.

(** ** The flag others see *)

(** Places the thread comes to with a connection only. *)
Definition needs_connection (io : IoPc) : bool :=
  match io with
  | React _ _ _ => true
  | Io (Top | HaveConfig _ | Dialling _ | Close _ | Closed _ | Lower _ | Gone) => false
  | Io _ => true
  end.

Definition flags_ok (s : Mq) (io : IoPc) : Prop :=
  match io with
  | Io (Lower _) => ready s = false
  | React _ _ (Lower _) => False
  | _ => connectedFlag s = ready s
  end /\ (ready s = true -> connection s = true) /\ (needs_connection io = true -> connection s = true).

Lemma handle_event_flags e s : (forall d, e <> OnReceived d) ->
  connection (handle_event what e s) = connection s /\
  (connectedFlag s = ready s -> connectedFlag (handle_event what e s) = ready (handle_event what e s)).
Proof.
  intros He. destruct e; cbn [handle_event]; try done.
  - by destruct sent.
  - destruct (pauseRequested _); [|done]. unfold StopConsuming. by case_match.
  - by destruct (He d).
Qed.

Lemma io_step_flags s io s' io' : io_step s io s' io' -> flags_ok s io -> flags_ok s' io'.
Proof.
  intros H (Hf & Hr & Hc). unfold flags_ok in *.
  destruct H; unfold unless_failed, after_teardown; cbn [needs_connection] in *; try (specialize (Hc eq_refl)); try (split_ifs; by split_and!).
  - unfold Establish in *. rewrite H in Hr. destruct (ready s) eqn:E; [by discriminate Hr|].
    repeat case_match; simplify_eq; cbn; rewrite ?E; by split_and!.
  - unfold open_channel_calls. destruct (mq_declare_topology cfg); cbn; by split_and!.
  - unfold consumer_request, StartConsuming, StopConsuming in *. repeat case_match; simplify_eq; cbn; by split_and!.
  - unfold pop_outgoing in *. destruct (outgoing s); simplify_eq. by split_and!.
  - unfold check_inbound. split_ifs; cbn; by split_and!.
  - apply andb_prop in H as [H _]. cbn. rewrite H. by split_and!.
  - destruct (handle_event_flags e s H) as [E1 E2]. rewrite E1. split_and!; [destruct next; auto|auto..].
  - destruct next; by split_and!.
  - unfold tell. destruct (has_callback s); cbn; destruct next; by split_and!.
Qed.

Lemma io_step_running s io s' io' : io_step s io s' io' -> running s' = running s.
Proof.
  intros H. destruct H; try done.
  - unfold Establish in *. by repeat case_match; simplify_eq.
  - unfold open_channel_calls. by destruct (mq_declare_topology cfg).
  - unfold consumer_request, StartConsuming, StopConsuming in *. by repeat case_match; simplify_eq.
  - unfold pop_outgoing in *. by destruct (outgoing s); simplify_eq.
  - unfold check_inbound. by split_ifs.
  - destruct e; cbn [handle_event]; try done; [by destruct sent|unfold StopConsuming; by repeat case_match|by destruct (H d)].
  - unfold tell. by destruct (has_callback s).
Qed.

Lemma io_step_gone s s' io' : ~ io_step s (Io Gone) s' io'.
Proof. inversion 1. Qed.

(** What eviction drops and what it keeps. *)
Lemma evict_split limit l gone kept : evict limit l = (gone, kept) -> (0 < limit)%nat ->
  (gone <= length l)%nat /\ drop gone l = kept /\ (length kept < limit)%nat.
Proof.
  unfold evict. destruct (Nat.leb_spec limit (length l)); intros [= <- <-] Hl.
  - rewrite length_drop. split_and!; [lia|done|lia].
  - split_and!; [lia|by rewrite drop_0|lia].
Qed.

(** ** The invariant *)

(** A limit in hand lets a message in. *)
Definition limit_ok (io : IoPc) : Prop := match doing io with Settle _ _ limit => (0 < limit)%nat | _ => True end.

Lemma io_step_limit s io s' io' : io_step s io s' io' -> limit_ok io'.
Proof. intros H. destruct H; unfold unless_failed; try done. by destruct ok. Qed.

Lemma limit_positive n : (0 < limit_of n)%nat.
Proof. unfold limit_of. destruct (Z.ltb_spec 0 n); lia. Qed.

Record world_ok (w : World) : Prop := {
  ok_promised : w_promised w = b_outbound (books (w_mq w) (w_io w));
  ok_published : b_published (books (w_mq w) (w_io w)) = 0;
  ok_answers : b_answers (books (w_mq w) (w_io w)) = map answer (w_deliveries w);
  ok_messages : omap snd (w_deliveries w) = map fst (w_left w) ++ b_messages (books (w_mq w) (w_io w));
  ok_received : b_received (books (w_mq w) (w_io w)) = Z.of_nat (length (w_deliveries w));
  ok_rejected : b_rejected (books (w_mq w) (w_io w)) = count_of was_rejected (w_deliveries w);
  ok_overflowed : b_overflowed (books (w_mq w) (w_io w)) = count_of was_evicted (w_left w);
  ok_judged : Forall judged (w_deliveries w);
  ok_flags : flags_ok (w_mq w) (w_io w);
  ok_limit : limit_ok (w_io w);
  ok_thread : running (w_mq w) = false -> w_joining w = false -> w_io w = Io Gone
}.

(** The fields a caller's operation leaves alone. *)
Definition same_thread_state (s s' : Mq) : Prop :=
  calls s' = calls s /\ publishedCount s' = publishedCount s /\ receivedCount s' = receivedCount s /\
  rejectedCount s' = rejectedCount s /\ overflowedCount s' = overflowedCount s /\
  connectedFlag s' = connectedFlag s /\ ready s' = ready s /\ connection s' = connection s.

Lemma world_caller s s' io io' jn jn' pr new dl lf gone : world_ok (mkWorld s io jn pr dl lf) ->
  same_thread_state s s' -> outgoing s' = outgoing s ++ new -> inbox s = gone ++ inbox s' ->
  empty_handed io /\ empty_handed io' /\ flags_ok s' io' \/ io' = io ->
  (running s' = false -> jn' = false -> io' = Io Gone) ->
  world_ok (mkWorld s' io' jn' (pr ++ new) dl (lf ++ map (fun m => (m, Taken)) gone)).
Proof.
  intros Hw (E1 & E2 & E3 & E4 & E5 & E6 & E7 & E8) Eo Ei Hio Ht.
  assert (books s' io' = books s' io) as Eb.
  { destruct Hio as [(H1 & H2 & _)| ->]; [by apply books_empty_handed|done]. }
  destruct Hw; cbn [w_mq w_io w_joining w_promised w_deliveries w_left] in *.
  split; cbn [w_mq w_io w_joining w_promised w_deliveries w_left]; rewrite ?Eb; unfold books in *;
    cbn [b_outbound b_published b_answers b_messages b_received b_rejected b_overflowed] in *;
    rewrite ?E1, ?E2, ?E3, ?E4, ?E5, ?Eo; try done.
  - by rewrite ok_promised0, <- !app_assoc.
  - rewrite ok_messages0, Ei, map_app, map_map, <- !app_assoc. cbn. by rewrite map_id.
  - rewrite ok_overflowed0. unfold count_of. rewrite List.filter_app. f_equal.
    induction gone as [|m gone IH] in |- *; cbn; [by rewrite app_nil_r|done].
  - destruct Hio as [(_ & _ & Hf)| ->]; [done|]. unfold flags_ok in *. by rewrite E6, E7, E8.
  - destruct Hio as [(_ & (_ & _ & _ & Hd & Hr) & _)| ->]; [|done]. unfold limit_ok, due_message, due_reject in *.
    destruct (doing io') as [|? [] ?| |]; done.
Qed.

Lemma world_caller' s s' io jn jn' pr dl lf : world_ok (mkWorld s io jn pr dl lf) ->
  same_thread_state s s' -> outgoing s' = outgoing s -> inbox s' = inbox s ->
  (running s' = false -> jn' = false -> io = Io Gone) -> world_ok (mkWorld s' io jn' pr dl lf).
Proof.
  intros Hw E Eo Ei Ht. pose proof (world_caller s s' io io jn jn' pr [] dl lf [] Hw E) as H.
  cbn [map app] in H. rewrite !app_nil_r in H. by apply H; [| |right|].
Qed.

(** The thread's part in the life of one delivery. *)
Lemma delivery_ok d es next s jn pr dl lf : world_ok (mkWorld s (React Calm (OnReceived d :: es) next) jn pr dl lf) ->
  world_ok (mkWorld (count_received s)
    (React (Settle d (judge what (config s) d) (limit_of (mq_inbox_limit (config s)))) es next) jn pr
    (dl ++ [(d, judge what (config s) d)]) lf).
Proof.
  intros []. cbn [w_mq w_io w_joining w_promised w_deliveries w_left] in *. unfold books in *.
  cbn [b_outbound b_published b_answers b_messages b_received b_rejected b_overflowed] in *.
  split; cbn [w_mq w_io w_joining w_promised w_deliveries w_left]; unfold books;
    cbn [b_outbound b_published b_answers b_messages b_received b_rejected b_overflowed]; try done.
  - rewrite map_app, <- ok_answers0. unfold due_answer. cbn. by rewrite app_nil_r.
  - rewrite omap_app, ok_messages0. unfold due_message. cbn. rewrite app_nil_r, <- app_assoc.
    by destruct (judge what (config s) d).
  - rewrite length_app. cbn in *. lia.
  - unfold count_of in *. rewrite List.filter_app, length_app, Nat2Z.inj_add, <- ok_rejected0.
    unfold due_reject. cbn. destruct (judge what (config s) d); cbn; lia.
  - apply Forall_app. split; [done|]. apply Forall_singleton. by exists (config s).
  - apply limit_positive.
  - intros Hr Hj. by discriminate (ok_thread0 Hr Hj).
Qed.

Lemma push_ok d m limit es next s jn pr dl lf : world_ok (mkWorld s (React (Settle d (Some m) limit) es next) jn pr dl lf) ->
  world_ok (mkWorld (push_inbox limit m s) (React (Confirm d m) es next) jn pr dl
         (lf ++ map (fun m => (m, Evicted)) (take (evict limit (inbox s)).1 (inbox s)))).
Proof.
  intros []. cbn [w_mq w_io w_joining w_promised w_deliveries w_left] in *.
  unfold push_inbox. destruct (evict limit (inbox s)) as [gone kept] eqn:E. apply evict_split in E as (El & <- & _); [|done].
  unfold books in *. cbn [b_outbound b_published b_answers b_messages b_received b_rejected b_overflowed] in *.
  split; cbn [w_mq w_io w_joining w_promised w_deliveries w_left fst]; unfold books;
    cbn [b_outbound b_published b_answers b_messages b_received b_rejected b_overflowed]; try done.
  - rewrite ok_messages0. unfold due_message. cbn. rewrite map_app, map_map, map_id, <- !app_assoc. f_equal.
    by rewrite app_nil_r, app_assoc, take_drop.
  - cbn. rewrite ok_overflowed0. unfold count_of. rewrite List.filter_app, length_app.
    rewrite (filter_all was_evicted (map _ _)); [rewrite length_map, length_take; lia|]. by intros x (y & -> & _)%list_elem_of_fmap.
  - intros Hr Hj. by discriminate (ok_thread0 Hr Hj).
Qed.

Lemma mq_step_ok w w' : mq_step w w' -> world_ok w -> world_ok w'.
Proof.
  intros Hs Hw. pose proof Hw as Hw0. destruct Hw0 as [_ _ _ _ _ _ _ _ Hflags _ Ht].
  destruct Hs; cbn [w_mq w_io w_joining] in Hflags, Ht.
  - apply (world_caller' _ _ _ _ _ _ _ _ Hw); unfold Configure; by destruct (endpointChanged _ _).
  - pose proof (world_caller s (set_running true s) io (Io Top) false false pr [] dl lf [] Hw) as Hc.
    cbn [map app] in Hc. rewrite !app_nil_r in Hc. rewrite (Ht H eq_refl) in *. destruct Hflags as (? & ? & _).
    by apply Hc; [| | |left; split_and!|].
  - by apply (world_caller' _ _ _ _ _ _ _ _ Hw).
  - by apply (world_caller' _ _ _ _ _ _ _ _ Hw).
  - unfold enqueue in H. destruct (_ <=? _)%nat; injection H as <- <-; [by apply (world_caller' _ _ _ _ _ _ _ _ Hw)|].
    pose proof (world_caller s (set_outgoing (outgoing s ++ [item]) s) io io jn jn pr [item] dl lf [] Hw) as Hc.
    cbn [map app] in Hc. rewrite app_nil_r in Hc. by apply Hc; [| | |right|].
  - by apply (world_caller' _ _ _ _ _ _ _ _ Hw).
  - unfold Get in H. destruct (inbox s) as [|m0 rest] eqn:Ei; injection H as <- <-; [by rewrite app_nil_r|].
    pose proof (world_caller s (set_inbox rest s) io io jn jn pr [] dl lf [m0] Hw) as Hc.
    cbn [map] in Hc. rewrite !app_nil_r in Hc. apply Hc; [done|done|done|by right|done].
  - pose proof (world_caller s (Clear s) io io jn jn pr [] dl lf (inbox s) Hw) as Hc.
    rewrite !app_nil_r in Hc. apply Hc; [done|done|done|by right|done].
  - by apply (world_caller' _ _ _ _ _ _ _ _ Hw).
  - by apply delivery_ok.
  - by eapply push_ok.
  - destruct Hw. cbn [w_mq w_io w_joining w_promised w_deliveries w_left] in *.
    assert (running s' = running s) as Er by (by eapply io_step_running).
    split; cbn [w_mq w_io w_joining w_promised w_deliveries w_left]; rewrite ?(io_step_books _ _ _ _ H); try done.
    + by eapply io_step_flags.
    + by eapply io_step_limit.
    + rewrite Er. intros H1 H2. specialize (Ht H1 H2). subst io. by apply io_step_gone in H.
Qed.

(** C26: No message is lost, doubled or reordered inside the gateway: whatever
    calls of any threads, broker events and failures interleave with each other
    and with the client's own thread, whose every access to what is shared is a
    step of its own, and however often the client is stopped and started again
    (by one caller at a time).  Outbound, the messages Publish has promised are,
    in order, those handed to the protocol library, the one in hand, and those
    queued.  Inbound, every delivery the library made is settled once and in
    order, with its own tag: acknowledged when it is a message, rejected when it
    is too large or not an envelope where one is expected; and the messages of
    the deliveries are, in order and once each, those that left the inbox at its
    front, taken by a reader or evicted, those that wait in it, and the one in
    hand.  The counters count these, a message in hand apart.  Others see the
    client connected only while the connection is up and through its handshake,
    but for the moment in which a teardown lowers the flag. *)
Theorem mq_nothing_is_lost c w : rtc mq_step (start_world c) w ->
  let s := w_mq w in
  w_promised w = published_items (calls s) ++ in_hand (w_io w) ++ outgoing s /\
  settlements (calls s) ++ due_answer (w_io w) = map answer (w_deliveries w) /\
  Forall judged (w_deliveries w) /\
  omap snd (w_deliveries w) = map fst (w_left w) ++ inbox s ++ due_message (w_io w) /\
  publishedCount s + uncounted (w_io w) = Z.of_nat (length (published_items (calls s))) /\
  receivedCount s = Z.of_nat (length (w_deliveries w)) /\
  rejectedCount s + due_reject (w_io w) = count_of was_rejected (w_deliveries w) /\
  overflowedCount s = count_of was_evicted (w_left w) /\
  (connectedFlag s = true -> ready s = true /\ connection s = true \/ exists gone, w_io w = Io (Lower gone)).
Proof.
  intros H. assert (world_ok w) as [].
  { assert (world_ok (start_world c)) as H0 by (split; try done; constructor).
    induction H as [|x y z Hxy _ IH]; [done|]. by apply IH, (mq_step_ok x y). }
  cbn zeta. unfold books in *. cbn [b_outbound b_published b_answers b_messages b_received b_rejected b_overflowed] in *.
  split_and!; try done; [lia|]. intros Hc. destruct ok_flags0 as (Hf & Hr & _).
  destruct (w_io w) as [[]|? ? []]; try (left; rewrite Hc in Hf; split; [done|by apply Hr]); [right; by eexists|done].
Qed.

(** A delivery is settled by what it is: too large, or no envelope where one
    is expected, and it is rejected without requeueing and nothing else changes
    but the counts; otherwise it is acknowledged after it is in the inbox,
    which drops its oldest messages to stay within its limit, and before the
    script is told; the message carries the broker's fields and the raw body. *)
Theorem delivery_exact d s :
  let cfg := config s in
  let s' := OnDelivery what d s in
  let limit := limit_of (mq_inbox_limit cfg) in
  receivedCount s' = receivedCount s + 1 /\ outgoing s' = outgoing s /\ failed s' = failed s /\
  match (if kMaxBodyBytes <? Z.of_nat (String.length (d_body d)) then Err "" else accept what cfg d) with
  | Ok m =>
      calls s' = calls s ++ Ack (d_tag d) :: (if has_callback s then [Callback m] else []) /\
      inbox s' = drop (S (length (inbox s)) - limit) (inbox s) ++ [m] /\ (length (inbox s') <= limit)%nat /\
      rejectedCount s' = rejectedCount s /\
      m_raw m = d_body d /\ m_exchange m = d_exchange d /\ m_routing_key m = d_routing_key d /\
      m_redelivered m = d_redelivered d /\ m_delivery_tag m = d_tag d /\
      (mq_envelope cfg = false -> m_body m = d_body d)
  | _ => calls s' = calls s ++ [Reject (d_tag d)] /\ inbox s' = inbox s /\ rejectedCount s' = rejectedCount s + 1
  end.
Proof.
  cbn zeta. unfold OnDelivery, judge. destruct (kMaxBodyBytes <? _); [by split_and!|].
  destruct (accept what (config s) d) as [m| |] eqn:Ea; [|by split_and!|by split_and!].
  unfold push_inbox. change (inbox (count_received s)) with (inbox s).
  destruct (evict (limit_of (mq_inbox_limit (config s))) (inbox s)) as [gone kept] eqn:E.
  pose proof (evict_split _ _ _ _ E (limit_positive _)) as (El & _ & Hlt).
  assert (kept = drop (S (length (inbox s)) - limit_of (mq_inbox_limit (config s))) (inbox s)) as Ek.
  { unfold evict in E. destruct (Nat.leb_spec (limit_of (mq_inbox_limit (config s))) (length (inbox s))); injection E as <- <-; [done|].
    by replace (S (length (inbox s)) - _)%nat with 0%nat by lia. }
  assert (m_raw m = d_body d /\ m_exchange m = d_exchange d /\ m_routing_key m = d_routing_key d /\
    m_redelivered m = d_redelivered d /\ m_delivery_tag m = d_tag d /\ (mq_envelope (config s) = false -> m_body m = d_body d)) as Hm.
  { unfold accept in Ea. destruct (mq_envelope (config s)); [|injection Ea as <-; by split_and!].
    unfold DecodeEnvelope in Ea. repeat case_match; try done. injection Ea as <-. by split_and!. }
  unfold tell. change (has_callback (confirm d _)) with (has_callback s).
  destruct (has_callback s); cbn; (split_and!; [done|done|done|by rewrite <- ?app_assoc|by rewrite <- Ek|..]);
    try (rewrite length_app; cbn; lia); try done; by apply Hm.
Qed.
End Steps.

(** ** One-shot operations *)

Record AdHocOptions := mkOptions {
  opt_exchange : string; opt_exchange_type : string; opt_queue : string; opt_routing_key : string; opt_body : string;
  opt_durable : bool; opt_auto_delete : bool; opt_exclusive : bool; opt_ack : bool; opt_max_messages : Z
}.

Record Row := mkRow {
  r_body : string; r_exchange : string; r_routing_key : string; r_message_id : string; r_tag : Z; r_redelivered : bool
}.

Inductive AdHocEvent :=
| AData (sent : bool)
| AReady
| AError (message : string)
| AChannelError (message : string)
| AAnswer (success : bool) (message : string)   (** the operation's own outcome *)
| ARow (row : Row).

Inductive Flag := durable | autodelete | exclusive.

Inductive AdHocCall :=
| OpDeclareExchange (name : string) (type : ExchangeType) (flags : list Flag)
| OpDeclareQueue (name : string) (flags : list Flag)
| OpBindQueue (exchange queue routing_key : string)
| OpStartTransaction
| OpPublish (exchange routing_key body : string)
| OpCommitTransaction
| OpConsume (queue : string)
| RowAck (tag : Z)
| RowRequeue (tag : Z).

Definition ExchangeFlagsFor (o : AdHocOptions) : list Flag :=
  (if opt_durable o then [durable] else []) ++ (if opt_auto_delete o then [autodelete] else []).
Definition QueueFlagsFor (o : AdHocOptions) : list Flag :=
  (if opt_durable o then [durable] else []) ++ (if opt_auto_delete o then [autodelete] else []) ++
  (if opt_exclusive o then [exclusive] else []).

Record AdHoc := mkAdHoc {
  a_ready : bool; a_errored : bool; a_error : string; a_channel : bool;
  a_done : bool; a_ok : bool; a_opError : string; a_rows : list Row; a_calls : list AdHocCall
}.
Definition new_adhoc : AdHoc := mkAdHoc false false "" false false false "" [] [].

(** The first answer wins. *)
Definition finish (success : bool) (message : string) (a : AdHoc) : AdHoc :=
  if a_done a then a
  else mkAdHoc (a_ready a) (a_errored a) (a_error a) (a_channel a) true success message (a_rows a) (a_calls a).

Definition adhoc_errored (message : string) (a : AdHoc) : AdHoc :=
  mkAdHoc (a_ready a) true message (a_channel a) (a_done a) (a_ok a) (a_opError a) (a_rows a) (a_calls a).

(** [wanted] and [ack] are those of a consume. *)
Definition adhoc_event (ack : bool) (wanted : Z) (a : AdHoc) (e : AdHocEvent) : AdHoc :=
  match e with
  | AData true => a
  | AData false => adhoc_errored (if nonempty (a_error a) then a_error a else "socket write failed"%string) a
  | AReady => mkAdHoc true (a_errored a) (a_error a) (a_channel a) (a_done a) (a_ok a) (a_opError a) (a_rows a) (a_calls a)
  | AError message => adhoc_errored message a
  | AChannelError message => finish false ("channel error: " ++ message) a
  | AAnswer success message => finish success message a
  | ARow row =>
      let a := mkAdHoc (a_ready a) (a_errored a) (a_error a) (a_channel a) (a_done a) (a_ok a) (a_opError a)
                 (a_rows a ++ [row]) (a_calls a ++ [if ack then RowAck (r_tag row) else RowRequeue (r_tag row)]) in
      if wanted <=? Z.of_nat (length (a_rows a)) then finish true "" a else a
  end.

(** The channel opens, and the operation is started on it. *)
Definition open_channel (setup : list AdHocCall) (a : AdHoc) : AdHoc :=
  mkAdHoc (a_ready a) (a_errored a) (a_error a) true (a_done a) (a_ok a) (a_opError a) (a_rows a) (a_calls a ++ setup).

(** A turn of the pump: whether the deadline has passed before it, what the
    library calls back while the operation is started, and for the bytes read
    ([None] for no bytes), and whether the socket is still open then. *)
Record Turn := mkTurn { u_expired : bool; u_setup : list AdHocEvent; u_bytes : option (list AdHocEvent); u_open : bool }.

(** What a one-shot connection meets: the address the host resolves to, whether
    the port answers, what the library calls back at once, and the turns. *)
Record Line := mkLine { l_ip : string; l_tcp : bool; l_start : list AdHocEvent; l_turns : list Turn }.

Section Pump.
Variables (ack : bool) (wanted : Z) (setup : list AdHocCall).

(** The state at the end, and whether the broker closed the connection. *)
Fixpoint pump (turns : list Turn) (a : AdHoc) : bool * AdHoc :=
  match turns with
  | [] => (false, a)
  | t :: turns' =>
      if a_done a || a_errored a || u_expired t then (false, a)
      else
        let a := if a_ready a && negb (a_channel a)
                 then foldl (adhoc_event ack wanted) (open_channel setup a) (u_setup t) else a in
        match u_bytes t with
        | Some es => pump turns' (foldl (adhoc_event ack wanted) a es)
        | None => if u_open t then pump turns' a else (true, a)
        end
  end.

Definition kNoAnswer : string := "timed out waiting for the broker to answer".
Definition kNoHandshake : string := "timed out waiting for the AMQP handshake".

(** The connection of a one-shot operation, before anything is said on it. *)
Definition dial (cfg : MqConfig) (l : Line) : option string :=
  match l_ip l with
  | EmptyString => Some ("cannot resolve host " ++ quoted (mq_host cfg))%string
  | ip => if l_tcp l then None else Some ("TCP connect to " ++ ip ++ ":" ++ to_string (mq_port cfg) ++ " failed")%string
  end.

(** The result, the error text, the state. *)
Definition RunAdHoc (cfg : MqConfig) (l : Line) : bool * string * AdHoc :=
  match dial cfg l with
  | Some error => (false, error, new_adhoc)
  | None =>
      match pump (l_turns l) (foldl (adhoc_event ack wanted) new_adhoc (l_start l)) with
      | (true, a) => (false, if nonempty (a_error a) then a_error a else "broker closed the connection"%string, a)
      | (false, a) =>
          if a_errored a && negb (a_done a) then (false, a_error a, a)
          else if negb (a_done a) then (false, if a_ready a then kNoAnswer else kNoHandshake, a)
          else (a_ok a, a_opError a, a)
      end
  end.
End Pump.

(** The probe of the configuration page: until the handshake is through. *)
Fixpoint probe (turns : list Turn) (a : AdHoc) : bool * AdHoc :=
  match turns with
  | [] => (false, a)
  | t :: turns' =>
      if a_ready a || a_errored a || u_expired t then (false, a)
      else match u_bytes t with
      | Some es => probe turns' (foldl (adhoc_event false 1) a es)
      | None => if u_open t then probe turns' a else (true, a)
      end
  end.

Definition TestConnect (cfg : MqConfig) (l : Line) : bool * string :=
  match dial cfg l with
  | Some error => (false, error)
  | None =>
      match probe (l_turns l) (foldl (adhoc_event false 1) new_adhoc (l_start l)) with
      | (true, a) => (false, if nonempty (a_error a) then a_error a else "broker closed the connection"%string)
      | (false, a) =>
          if a_ready a then (true, ""%string) else (false, if a_errored a then a_error a else kNoHandshake)
      end
  end.

Definition DeclareExchangeOnce (cfg : MqConfig) (o : AdHocOptions) (l : Line) : bool * string :=
  if negb (nonempty (opt_exchange o)) then (false, "exchange name is required"%string)
  else
    let setup := [OpDeclareExchange (opt_exchange o) (ExchangeTypeFromName (opt_exchange_type o)) (ExchangeFlagsFor o)] in
    (RunAdHoc false 1 setup cfg l).1.

Definition DeclareQueueOnce (cfg : MqConfig) (o : AdHocOptions) (l : Line) : bool * string :=
  if negb (nonempty (opt_queue o)) then (false, "queue name is required"%string)
  else (RunAdHoc false 1 [OpDeclareQueue (opt_queue o) (QueueFlagsFor o)] cfg l).1.

Definition BindQueueOnce (cfg : MqConfig) (o : AdHocOptions) (l : Line) : bool * string :=
  if negb (nonempty (opt_queue o)) || negb (nonempty (opt_exchange o))
  then (false, "both an exchange and a queue are required to bind"%string)
  else (RunAdHoc false 1 [OpBindQueue (opt_exchange o) (opt_queue o) (opt_routing_key o)] cfg l).1.

Definition PublishOnce (cfg : MqConfig) (o : AdHocOptions) (l : Line) : bool * string :=
  (RunAdHoc false 1 [OpStartTransaction; OpPublish (opt_exchange o) (opt_routing_key o) (opt_body o); OpCommitTransaction]
    cfg l).1.

Definition ConsumeOnce (cfg : MqConfig) (o : AdHocOptions) (l : Line) : bool * string * list Row :=
  if negb (nonempty (opt_queue o)) then (false, "queue name is required"%string, [])
  else
    let '(ok, error, a) := RunAdHoc (opt_ack o) (Z.max 1 (opt_max_messages o)) [OpConsume (opt_queue o)] cfg l in
    if negb ok && match String.index 0 "timed out waiting for the broker" error with Some _ => true | None => false end
    then (true, ""%string, a_rows a) else (ok, error, a_rows a).

(** Each row that is returned was settled, in order, as the caller asked, on the
    channel the operation was started on. *)
Definition rows_settled (ack : bool) (setup : list AdHocCall) (a : AdHoc) : Prop :=
  a_calls a = (if a_channel a then setup else []) ++
              map (fun row => if ack then RowAck (r_tag row) else RowRequeue (r_tag row)) (a_rows a) /\
  (a_channel a = false -> a_rows a = []).

Lemma adhoc_event_settled ack wanted setup e a : a_channel a = true \/ (forall row, e <> ARow row) ->
  rows_settled ack setup a -> rows_settled ack setup (adhoc_event ack wanted a e).
Proof.
  unfold rows_settled. intros Hc [H H']. destruct e as [[|]| | | | |row]; cbn [adhoc_event]; try done;
    try (unfold finish; by destruct (a_done a)).
  destruct Hc as [Hc|Hc]; [|by destruct (Hc row)].
  destruct (_ <=? _); [unfold finish; destruct (a_done _)|]; cbn; by rewrite map_app, H, Hc, <- app_assoc.
Qed.

Lemma adhoc_event_channel ack wanted a e : a_channel (adhoc_event ack wanted a e) = a_channel a.
Proof.
  destruct e as [[|]| | | | |row]; cbn [adhoc_event]; try done; try (unfold finish; by destruct (a_done a)).
  destruct (_ <=? _); [|done]. unfold finish. by destruct (a_done _).
Qed.

(** A library delivers messages on a channel only. *)
Definition sound_events (a : AdHoc) (es : list AdHocEvent) : Prop :=
  a_channel a = true \/ Forall (fun e => forall row, e <> ARow row) es.

Lemma adhoc_events_settled ack wanted setup es : forall a, sound_events a es -> rows_settled ack setup a ->
  rows_settled ack setup (foldl (adhoc_event ack wanted) a es).
Proof.
  induction es as [|e es IH]; intros a Hs Hr; [done|]. cbn [foldl]. apply IH.
  - destruct Hs as [Hs|Hs]; [left; by rewrite adhoc_event_channel|right; by inversion Hs].
  - apply adhoc_event_settled; [|done]. destruct Hs as [Hs|Hs]; [by left|right; by inversion Hs].
Qed.

(** Once an answer is there, no later event changes it. *)
Lemma first_answer_wins ack wanted es : forall a, a_done a = true ->
  a_done (foldl (adhoc_event ack wanted) a es) = true /\ a_ok (foldl (adhoc_event ack wanted) a es) = a_ok a /\
  a_opError (foldl (adhoc_event ack wanted) a es) = a_opError a.
Proof.
  induction es as [|e es IH]; intros a Hd; [done|]. cbn [foldl].
  assert (a_done (adhoc_event ack wanted a e) = true /\ a_ok (adhoc_event ack wanted a e) = a_ok a /\
    a_opError (adhoc_event ack wanted a e) = a_opError a) as (Hd1 & <- & <-); [|by apply IH].
  destruct e as [[|]| | | | |row]; cbn [adhoc_event]; unfold finish; rewrite ?Hd; try done.
  destruct (_ <=? _); cbn; by rewrite ?Hd.
Qed.

(** ** Examples *)

Definition demo_config : MqConfig :=
  mkMqConfig true "broker" 5672 "/" "dev" "pw" "ex" "direct" "q" "key" true true 10 false 60 5000 2 2.
Definition other_config : MqConfig :=
  mkMqConfig true "elsewhere" 5672 "/" "dev" "pw" "ex" "direct" "q" "key" true true 10 false 60 5000 2 2.
Definition demo_item (n : string) : Outgoing := mkOutgoing "ex" "key" n "".
Definition row (n : string) (tag : Z) : Row := mkRow n "ex" "key" "" tag false.

(** The message text as JSON is of no matter here. *)
#[local] Instance demo_json : JsonText (J := jtree_json) := demo_text.

(** One message is asked for and two arrive in one read: both are taken from the
    queue, acknowledged, and returned. *)
Definition demo_line : Line :=
  mkLine "10.0.0.1" true [] [mkTurn false [] (Some [AReady]) true; mkTurn false [] (Some [ARow (row "a" 1); ARow (row "b" 2)]) true].
Definition demo_options : AdHocOptions := mkOptions "" "" "q" "" "" false false false true 1.

Example consume_takes_more_than_asked :
  ConsumeOnce demo_config demo_options demo_line = (true, ""%string, [row "a" 1; row "b" 2]) /\
  (RunAdHoc true 1 [OpConsume "q"] demo_config demo_line).2.(a_calls) = [OpConsume "q"; RowAck 1; RowAck 2].
Proof. vm_compute. done. Qed.

(** A refused item comes back to the head of a queue that was filled meanwhile:
    one more than the limit. *)
Example queue_over_its_limit :
  let s0 := set_outgoing [demo_item "a"] (new_mq demo_config) in
  match pop_outgoing s0 with
  | Some (item, s1) =>
      let s2 := (enqueue 1 (demo_item "b") s1).2 in length (outgoing (publish_refused item s2)) = 2%nat
  | None => False
  end.
Proof. vm_compute. reflexivity. Qed.

(** The queue counts as flushed while its last item is still in hand. *)
Example flushed_before_published :
  match pop_outgoing (set_outgoing [demo_item "a"] (new_mq demo_config)) with
  | Some (item, s1) => Flushed s1 = true /\ Flushed (publish_refused item s1) = false
  | None => False
  end.
Proof. vm_compute. done. Qed.

(** A body that is not UTF-8 makes Publish throw. *)
Example publish_throws :
  Publish demo_config (EncodeEnvelope (J := jtree_json) (T := demo_text) 1 2 demo_now) "not text" "" "" true (new_mq demo_config)
  = Err "type_error".
Proof. vm_compute. reflexivity. Qed.

Section DemoSteps.
Let what : string -> string := fun s => s.
Abbreviation step := (mq_step (J := jtree_json) (T := demo_text) what).

(** The state after a step of a concrete run is computed. *)
Ltac evaluated :=
  match goal with |- rtc _ ?w _ => let w' := eval vm_compute in w in
    replace w with w' by (vm_compute; reflexivity) end.
Ltac run_by c := eapply rtc_l; [eapply c; vm_compute; reflexivity|evaluated].
Ltac run_io c := eapply rtc_l; [apply step_io; eapply c; try (vm_compute; reflexivity)|evaluated].

(** A configuration that changes between the thread's read of it and its look at
    the flag, while there is no connection, is dropped: the thread dials the old
    broker, and the flag is down. *)
Lemma change_is_lost : exists w, rtc step (mkWorld (set_running true (new_mq demo_config)) (Io Top) false [] [] []) w /\
  connection (w_mq w) = true /\ endpointLabel (w_mq w) = EndpointLabel demo_config /\
  config (w_mq w) = other_config /\ reconfigured (w_mq w) = false /\ w_io w = React Calm [] (Connected demo_config).
Proof.
  eexists. split.
  - run_io (io_config (J := jtree_json) (T := demo_text) what).
    run_by (step_configure (J := jtree_json) (T := demo_text) what other_config).
    run_io (io_flag (J := jtree_json) (T := demo_text) what).
    run_io (io_dial (J := jtree_json) (T := demo_text) what demo_config "10.0.0.1" true 0 []). apply rtc_refl.
  - by vm_compute.
Qed.

Definition demo_delivery (body : string) (tag : Z) : Delivery := mkDelivery body "ex" "key" false tag.
Definition demo_message (body : string) (tag : Z) : MqMessage := mkMessage body body "" "" 0 "ex" "key" false tag.

(** Two publishes and a start; a pass that reads two deliveries, of which the
    first is taken by a reader while the second is in hand; and the publishing
    of the first item. *)
Lemma demo_trace : exists w, rtc step (start_world demo_config) w /\
  published_items (calls (w_mq w)) = [demo_item "a"] /\ in_hand (w_io w) = [demo_item "b"] /\
  outgoing (w_mq w) = [demo_item "c"] /\ settlements (calls (w_mq w)) = [Ack 1; Ack 2] /\
  w_left w = [(demo_message "x" 1, Taken)] /\ due_answer (w_io w) = [] /\ inbox (w_mq w) = [demo_message "y" 2] /\
  due_message (w_io w) = [].
Proof.
  set (p := mkPass (Some [1]) true 0
    [(1%nat, [OnReady; OnReceived (demo_delivery "x" 1); OnReceived (demo_delivery "y" 2)])] [] [] 0 []).
  eexists. split.
  - run_by (step_publish (J := jtree_json) (T := demo_text) what 2 (demo_item "a")).
    run_by (step_publish (J := jtree_json) (T := demo_text) what 2 (demo_item "b")).
    run_by (step_start (J := jtree_json) (T := demo_text) what).
    run_io (io_config (J := jtree_json) (T := demo_text) what).
    run_io (io_flag (J := jtree_json) (T := demo_text) what).
    run_io (io_dial (J := jtree_json) (T := demo_text) what demo_config "10.0.0.1" true 0 []).
    run_io (io_back (J := jtree_json) (T := demo_text) what).
    run_io (io_connected (J := jtree_json) (T := demo_text) what).
    run_io (io_read (J := jtree_json) (T := demo_text) what demo_config p).
    run_io (io_parse (J := jtree_json) (T := demo_text) what); [discriminate|].
    run_io (io_event (J := jtree_json) (T := demo_text) what); [discriminate|].
    run_by (step_delivery (J := jtree_json) (T := demo_text) what).
    run_by (step_push (J := jtree_json) (T := demo_text) what).
    run_io (io_confirm (J := jtree_json) (T := demo_text) what).
    run_io (io_tell (J := jtree_json) (T := demo_text) what).
    run_by (step_delivery (J := jtree_json) (T := demo_text) what).
    run_by (step_get (J := jtree_json) (T := demo_text) what).
    run_by (step_push (J := jtree_json) (T := demo_text) what).
    run_io (io_confirm (J := jtree_json) (T := demo_text) what).
    run_io (io_tell (J := jtree_json) (T := demo_text) what).
    run_io (io_back (J := jtree_json) (T := demo_text) what).
    run_io (io_consumed (J := jtree_json) (T := demo_text) what).
    run_io (io_parsed_all (J := jtree_json) (T := demo_text) what); [left; reflexivity|].
    run_io (io_setup (J := jtree_json) (T := demo_text) what).
    run_io (io_back (J := jtree_json) (T := demo_text) what).
    run_io (io_prepared (J := jtree_json) (T := demo_text) what).
    run_io (io_consumer (J := jtree_json) (T := demo_text) what).
    run_io (io_back (J := jtree_json) (T := demo_text) what).
    run_io (io_consuming (J := jtree_json) (T := demo_text) what).
    run_io (io_pop (J := jtree_json) (T := demo_text) what).
    run_io (io_offer (J := jtree_json) (T := demo_text) what p (pred kMaxPerPass) (demo_item "a") []).
    run_io (io_back (J := jtree_json) (T := demo_text) what).
    run_io (io_offered (J := jtree_json) (T := demo_text) what).
    run_io (io_pop (J := jtree_json) (T := demo_text) what).
    run_by (step_publish (J := jtree_json) (T := demo_text) what 2 (demo_item "c")). apply rtc_refl.
  - vm_compute. by split_and!.
Qed.

Lemma mq_nothing_is_lost_witness : exists w, rtc step (start_world demo_config) w /\
  published_items (calls (w_mq w)) = [demo_item "a"] /\ in_hand (w_io w) = [demo_item "b"] /\
  outgoing (w_mq w) = [demo_item "c"] /\ w_promised w = [demo_item "a"; demo_item "b"; demo_item "c"] /\
  map answer (w_deliveries w) = [Ack 1; Ack 2] /\ omap snd (w_deliveries w) = [demo_message "x" 1; demo_message "y" 2].
Proof.
  destruct demo_trace as (w & Hw & E1 & E2 & E3 & E4 & E5 & E6 & E7 & E8).
  exists w. split; [exact Hw|]. split; [exact E1|]. split; [exact E2|]. split; [exact E3|].
  destruct (mq_nothing_is_lost what demo_config w Hw) as (-> & <- & _ & -> & _).
  rewrite E1, E2, E3, E4, E5, E6, E7, E8. split; [reflexivity|]. split; reflexivity.
Defined.
End DemoSteps.
