(* ===== verification/Citizen.v ===== *)
(** * Citizen cards (src/CitizenIdParser.cpp)

    The text block a citizen-card reader sends, recognised by a regular
    expression.  The expression is data: a sequence of items, each a literal or
    a captured class; [match_items] is the backtracking matcher of the
    ECMAScript grammar on such a sequence, [matches] the language it stands
    for.  Text is its bytes. *)

From S2P Require Import Prelude Text Json.

(** ** Regular expressions that are sequences *)

Inductive item :=
| Lit (text : list Z)
| Group (p : Z -> bool) (n : nat)     (** [(p{n})] *)
| Plus (p : Z -> bool).               (** [(p+)], greedy *)

(** Longest first: [k] bytes down to one. *)
Fixpoint try_down {A} (f : nat -> option A) (k : nat) : option A :=
  match k with
  | O => None
  | S k' => match f k with Some a => Some a | None => try_down f k' end
  end.

(** The groups of a match of the whole text. *)
Fixpoint match_items (items : list item) (text : list Z) : option (list (list Z)) :=
  match items with
  | [] => match text with [] => Some [] | _ => None end
  | Lit l :: items' => if starts_with l text then match_items items' (drop (length l) text) else None
  | Group p n :: items' =>
      if (length (take n text) =? n)%nat && forallb p (take n text)
      then option_map (cons (take n text)) (match_items items' (drop n text)) else None
  | Plus p :: items' =>
      try_down (fun k => option_map (cons (take k text)) (match_items items' (drop k text)))
        (length (span_while p text).1)
  end.

Inductive matches : list item -> list Z -> list (list Z) -> Prop :=
| matches_end : matches [] [] []
| matches_lit l items text gs : matches items text gs -> matches (Lit l :: items) (l ++ text) gs
| matches_group p n g items text gs : length g = n -> Forall (fun b => p b = true) g -> matches items text gs ->
    matches (Group p n :: items) (g ++ text) (g :: gs)
| matches_plus p g items text gs : g <> [] -> Forall (fun b => p b = true) g -> matches items text gs ->
    matches (Plus p :: items) (g ++ text) (g :: gs).

(** No choice is left open: a run ends where the next literal, or the text,
    says. *)
Definition run_ends (p : Z -> bool) (items : list item) : bool :=
  match items with
  | [] => true
  | Lit (b :: _) :: _ => negb (p b)
  | _ => false
  end.
Fixpoint deterministic (items : list item) : bool :=
  match items with
  | [] => true
  | i :: items' => match i with Plus p => run_ends p items' | _ => true end && deterministic items'
  end.

(** ** The card *)

Definition is_upper (b : Z) : bool := (65 <=? b) && (b <=? 90).
(** [.] is no line terminator; [[A-Z<]]. *)
Definition is_dot (b : Z) : bool := negb ((b =? 10) || (b =? 13)).
Definition is_name (b : Z) : bool := is_upper b || (b =? 60).

Definition kPattern : list item :=
  [Lit (b! "IDVNM"); Group is_digit 10; Group is_digit 12; Lit (b! "<<"); Group is_dot 8; Group is_upper 1;
   Plus is_digit; Lit (b! "VNM<<<<<<<<<<<"); Group is_digit 1; Plus is_name].

Record CitizenIdData := mkCitizen {
  serial_number : list Z; citizen_id : list Z; birth_date : list Z; gender : list Z; country : list Z;
  last_name : list Z; middle_name : list Z; first_name : list Z; raw_text : list Z
}.

(** [current] is the token being read. *)
Fixpoint split_tokens (current text : list Z) : list (list Z) :=
  match text with
  | [] => match current with [] => [] | _ => [current] end
  | c :: rest =>
      if c =? 60 then match current with [] => split_tokens [] rest | _ => current :: split_tokens [] rest end
      else split_tokens (current ++ [c]) rest
  end.
Definition SplitNameTokens (text : list Z) : list (list Z) := split_tokens [] text.

(** Last, middle and first name. *)
Definition name_fields (tokens : list (list Z)) : list Z * list Z * list Z :=
  let l := match tokens with t :: _ => t | [] => [] end in
  match tokens with
  | [_; f] => (l, [], f)
  | _ :: m :: f :: _ => (l, m, f)
  | _ => (l, [], [])
  end.

Definition Parse (rawText : list Z) : option CitizenIdData :=
  match match_items kPattern rawText with
  | Some [serial; citizen; birthBlock; sex; _; _; names] =>
      let '(l, m, f) := name_fields (SplitNameTokens names) in
      Some (mkCitizen serial citizen (take 6 (drop 1 birthBlock)) sex (b! "VNM") l m f rawText)
  | _ => None
  end.

Definition ToJson {J : JsonLib} (data : CitizenIdData) : json :=
  let text := fun field => inject (JString (text_of field)) in
  inject (JObject [("serial_number"%string, text (serial_number data)); ("citizen_id"%string, text (citizen_id data));
    ("birth_date"%string, text (birth_date data)); ("gender"%string, text (gender data));
    ("country"%string, text (country data)); ("last_name"%string, text (last_name data));
    ("middle_name"%string, text (middle_name data)); ("first_name"%string, text (first_name data));
    ("raw_text"%string, text (raw_text data))]).

(** ** The matcher is the language *)

Lemma try_down_some {A} (f : nat -> option A) k a : try_down f k = Some a -> exists n, (1 <= n <= k)%nat /\ f n = Some a.
Proof.
  induction k as [|k IH]; [done|]. cbn [try_down]. destruct (f (S k)) as [a'|] eqn:E; intros H.
  - injection H as <-. exists (S k). split; [lia|done].
  - destruct (IH H) as (n & Hn & Hf). exists n. split; [lia|done].
Qed.

Lemma try_down_none {A} (f : nat -> option A) k n : try_down f k = None -> (1 <= n <= k)%nat -> f n = None.
Proof.
  induction k as [|k IH]; [lia|]. cbn [try_down]. destruct (f (S k)) eqn:E; [done|]. intros H Hn.
  destruct (decide (n = S k)) as [->|]; [done|]. apply IH; [done|lia].
Qed.

Lemma span_while_take p text k : (k <= length (span_while p text).1)%nat -> Forall (fun b => p b = true) (take k text).
Proof.
  destruct (span_while p text) as [a c] eqn:E. destruct (span_while_spec p text a c E) as (-> & Ha & _). cbn [fst].
  intros Hk. rewrite take_app_le by done. by apply Forall_take.
Qed.

Lemma span_while_prefix p g text : Forall (fun b => p b = true) g -> (length g <= length (span_while p (g ++ text)).1)%nat.
Proof.
  induction 1 as [|b g Hb _ IH]; [cbn; lia|]. cbn [app span_while]. rewrite Hb. destruct (span_while p (g ++ text)). cbn in *. lia.
Qed.

Lemma match_items_sound items : forall text gs, match_items items text = Some gs -> matches items text gs.
Proof.
  induction items as [|[l|p n|p] items IH]; cbn [match_items]; intros text gs.
  - destruct text; [|done]. intros [= <-]. constructor.
  - destruct (starts_with l text) eqn:E; [|done]. apply starts_with_iff in E as [rest ->]. rewrite drop_app_length.
    intros H. constructor. by apply IH.
  - destruct (_ && _) eqn:E; [|done]. apply andb_true_iff in E as [El Ep]. apply Nat.eqb_eq in El.
    destruct (match_items items (drop n text)) as [gs'|] eqn:Em; [|done]. intros [= <-].
    rewrite <- (take_drop n text) at 1. constructor; [done| |by apply IH]. apply Forall_forall. intros b Hb.
    rewrite forallb_forall in Ep. apply Ep. by apply list_elem_of_In.
  - intros H. apply try_down_some in H as (k & Hk & H).
    destruct (match_items items (drop k text)) as [gs'|] eqn:Em; [|done]. injection H as <-.
    rewrite <- (take_drop k text) at 1. constructor; [|apply span_while_take; lia|by apply IH].
    destruct (span_while p text) as [a c] eqn:E. destruct (span_while_spec p text a c E) as (-> & _ & _). cbn in Hk.
    destruct a as [|b a]; cbn in Hk; [lia|]. destruct k; [lia|]. done.
Qed.

Lemma match_items_complete items text gs : matches items text gs -> match_items items text <> None.
Proof.
  induction 1 as [|l items text gs _ IH|p n g items text gs Hn Hg _ IH|p g items text gs Hne Hg _ IH]; cbn [match_items].
  - done.
  - rewrite (proj2 (starts_with_iff l _)) by (by exists text). by rewrite drop_app_length.
  - subst n. rewrite take_app_length, drop_app_length, Nat.eqb_refl. rewrite (proj2 (forallb_forall _ _)).
    2: { intros b Hb. rewrite Forall_forall in Hg. apply Hg. by apply list_elem_of_In. }
    cbn. by destruct (match_items items text).
  - intros H. pose proof (try_down_none _ _ (length g) H) as Hf. cbn beta in Hf.
    rewrite take_app_length, drop_app_length in Hf. destruct (match_items items text); [|done].
    assert (1 <= length g)%nat by (destruct g; [done|cbn; lia]). pose proof (span_while_prefix p g text Hg).
    by discriminate Hf; lia.
Qed.

Lemma run_ends_matches p items text gs : run_ends p items = true -> matches items text gs ->
  forall b c, text = b :: c -> p b = false.
Proof.
  intros Hr Hm b c ->. destruct items as [|[[|b' l]|?|?] items]; try done; inversion Hm; subst.
  cbn in *. simplify_eq. by apply negb_true_iff.
Qed.

Lemma matches_unique items : forall text gs gs', deterministic items = true ->
  matches items text gs -> matches items text gs' -> gs = gs'.
Proof.
  induction items as [|i items IH]; intros text gs gs' Hd Hm Hm'; [by inversion Hm; inversion Hm'|].
  cbn [deterministic] in Hd. apply andb_true_iff in Hd as [Hi Hd].
  inversion Hm; subst; inversion Hm'; subst;
    match goal with E : _ ++ _ = _ ++ _ |- _ => rename E into E0 end.
  - apply app_inv_head in E0 as ->. by eapply IH.
  - apply app_inj_1 in E0 as [-> ->]; [|done]. f_equal. by eapply IH.
  - match goal with Hg : Forall _ ?g, Hm1 : matches items ?t ?x, Hg' : Forall _ ?g', Hm1' : matches items ?t' ?y |- ?g :: ?x = ?g' :: ?y =>
      pose proof (span_while_app p g t Hg (run_ends_matches _ _ _ _ Hi Hm1)) as Es;
      pose proof (span_while_app p g' t' Hg' (run_ends_matches _ _ _ _ Hi Hm1')) as Es' end.
    rewrite E0, Es in Es'. injection Es' as -> ->. f_equal. by eapply IH.
Qed.

(** The matcher finds exactly the groups of the language. *)
Lemma match_items_iff items text gs : deterministic items = true -> (match_items items text = Some gs <-> matches items text gs).
Proof.
  intros Hd. split; [apply match_items_sound|]. intros Hm. pose proof (match_items_complete _ _ _ Hm) as Hc.
  destruct (match_items items text) as [gs'|] eqn:E; [|done]. f_equal. eapply matches_unique; [done| |done]. by apply match_items_sound.
Qed.

(** ** Names *)

(** A name section: words between runs of fillers. *)
Inductive spaced : list Z -> list (list Z) -> Prop :=
| spaced_end : spaced [] []
| spaced_fill text words : spaced text words -> spaced (60 :: text) words
| spaced_last w : w <> [] -> 60 ∉ w -> spaced w [w]
| spaced_word w text words : w <> [] -> 60 ∉ w -> spaced text words -> spaced (w ++ 60 :: text) (w :: words).

Lemma split_tokens_word w : 60 ∉ w -> forall current rest, split_tokens current (w ++ rest) = split_tokens (current ++ w) rest.
Proof.
  induction w as [|c w IH]; intros Hw current rest; [by rewrite app_nil_r|]. cbn [app split_tokens].
  rewrite (proj2 (Z.eqb_neq c 60)) by set_solver. rewrite IH by set_solver. by rewrite <- app_assoc.
Qed.

Lemma SplitNameTokens_spaced text words : spaced text words -> SplitNameTokens text = words.
Proof.
  unfold SplitNameTokens. induction 1 as [| |w Hne Hw|w text words Hne Hw _ IH]; [done|done|..].
  - pose proof (split_tokens_word w Hw [] []) as H. rewrite app_nil_r in H. rewrite H. cbn. by destruct w.
  - rewrite (split_tokens_word w Hw). cbn. rewrite IH. by destruct w.
Qed.

Lemma spaced_tokens text : forall current, 60 ∉ current -> spaced (current ++ text) (split_tokens current text).
Proof.
  induction text as [|c text IH]; intros current Hc.
  - rewrite app_nil_r. cbn. destruct current; [constructor|by apply spaced_last].
  - cbn [split_tokens]. destruct (Z.eqb_spec c 60) as [->|Hne].
    + pose proof (IH [] (not_elem_of_nil _)) as H. destruct current as [|b current]; [by apply spaced_fill|by apply spaced_word].
    + replace (current ++ c :: text) with ((current ++ [c]) ++ text) by (by rewrite <- app_assoc). apply IH. set_solver.
Qed.

(** ** The parser *)

(** A card's text from its parts. *)
Definition card_text (serial citizen birth sex code check names : list Z) : list Z :=
  b! "IDVNM" ++ serial ++ citizen ++ b! "<<" ++ birth ++ sex ++ code ++ b! "VNM<<<<<<<<<<<" ++ check ++ names.

Definition all (p : Z -> bool) (l : list Z) : Prop := Forall (fun b => p b = true) l.

(** Parts of the right kinds and lengths. *)
Definition card_parts (serial citizen birth sex code check names : list Z) : Prop :=
  all is_digit serial /\ length serial = 10%nat /\ all is_digit citizen /\ length citizen = 12%nat /\
  all is_dot birth /\ length birth = 8%nat /\ all is_upper sex /\ length sex = 1%nat /\
  all is_digit code /\ code <> [] /\ all is_digit check /\ length check = 1%nat /\ all is_name names /\ names <> [].

Lemma kPattern_matches raw gs : matches kPattern raw gs <->
  exists serial citizen birth sex code check names, card_parts serial citizen birth sex code check names /\
    raw = card_text serial citizen birth sex code check names /\ gs = [serial; citizen; birth; sex; code; check; names].
Proof.
  unfold kPattern, card_text, card_parts, all. split.
  - intros H. repeat match goal with H : matches (_ :: _) _ _ |- _ => inversion H; clear H; subst | H : matches [] _ _ |- _ => inversion H; clear H; subst end.
    do 7 eexists. split; [|split; [|reflexivity]]; [by split_and!|]. by rewrite !app_nil_r.
  - intros (serial & citizen & birth & sex & code & check & names & H & -> & ->). destruct_and! H.
    replace (check ++ names) with (check ++ names ++ []) by (by rewrite app_nil_r).
    repeat first [assumption|constructor].
Qed.

(** A card text is accepted exactly when it is the concatenation of a
    serial number of ten digits, a citizen number of twelve, the birth block,
    the sex, the code, the check digit and the name section, between the fixed
    marks; and the record holds these parts, the date out of the birth block,
    and the words of the name section: the first is the last name, the second
    of two the first name, of three or more the second and the third are the
    middle and the first name. *)
Theorem citizen_parse_exact raw data : Parse raw = Some data <->
  exists serial citizen birth sex code check names words,
    card_parts serial citizen birth sex code check names /\
    raw = card_text serial citizen birth sex code check names /\ spaced names words /\
    data = mkCitizen serial citizen (take 6 (drop 1 birth)) sex (b! "VNM")
             (name_fields words).1.1 (name_fields words).1.2 (name_fields words).2 raw.
Proof.
  assert (deterministic kPattern = true) as Hd by reflexivity. unfold Parse. split.
  - destruct (match_items kPattern raw) as [gs|] eqn:E; [|done]. intros H.
    apply match_items_sound, kPattern_matches in E as (serial & citizen & birth & sex & code & check & names & Hp & Hr & ->).
    exists serial, citizen, birth, sex, code, check, names, (SplitNameTokens names). split_and!; [done|done|by apply (spaced_tokens names []), not_elem_of_nil|].
    destruct (name_fields _) as [[l m] f]. by injection H as <-.
  - intros (serial & citizen & birth & sex & code & check & names & words & Hp & Hr & Hs & ->).
    rewrite (proj2 (match_items_iff kPattern raw [serial; citizen; birth; sex; code; check; names] Hd)).
    2: { apply kPattern_matches. by do 7 eexists. }
    rewrite (SplitNameTokens_spaced names words Hs). by destruct (name_fields words) as [[l m] f].
Qed.

(** ** Examples *)

(** The sample of the header. *)
Example sample_card :
  option_map (fun d => (birth_date d, last_name d, middle_name d, first_name d))
    (Parse (b! "IDVNM0123456789012345678901<<59505041M01234567VNM<<<<<<<<<<<8NGUYEN<<VAN<SANG<<<<<<<<<<<<<<")) =
  Some (b! "950504", b! "NGUYEN", b! "VAN", b! "SANG").
Proof. vm_compute. reflexivity. Qed.

(** A name of four words loses its last, which is the given name. *)
Example fourth_word_is_dropped :
  option_map (fun d => (last_name d, middle_name d, first_name d))
    (Parse (b! "IDVNM0123456789012345678901<<59505041F01234567VNM<<<<<<<<<<<8NGUYEN<<THI<THU<HA<<<<<<<<<")) =
  Some (b! "NGUYEN", b! "THI", b! "THU").
Proof. vm_compute. reflexivity. Qed.
