(* ===== verification/Readers.v ===== *)
(** * The card reader front-end (src/RfidClient.cpp)

    One thread serves whichever source the configuration selects: a TCP server
    that pushes a JSON object per line, a panel driven by the ZK controller, or
    readers that push over HTTP, of which only the reachability is watched.
    The network, the controller's answers, the ping and the configuration read
    at the top of each turn are the environment of the turn. *)

From S2P Require Import Prelude Words Text Json.

(** ** State *)

Record RfidConfig := mkRfid { r_mode : list Z; r_ip : list Z; r_port : Z }.

Definition kDefaultZkPort : Z := 4370.

(** What the thread asks of the controller. *)
Inductive ZkRequest := ZkSetAutoReconnect (on : bool) | ZkConnect (ip : list Z) (port : Z) | ZkStartRTLog.

(** [peer]: whom the open socket was connected to.  The log of cards handed to
    the callback, and of what was asked of the controller, are histories. *)
Record Reader := mkReader {
  connected : bool; peer : option (list Z * Z); jsonBuffer : list Z; lastEndpoint : list Z;
  callback : bool; cards : list (list Z); zk_log : list ZkRequest
}.
Definition new_reader (cb : bool) : Reader := mkReader false None [] [] cb [] [].

Implicit Types s : Reader.
Definition set_connected (v : bool) s : Reader := mkReader v (peer s) (jsonBuffer s) (lastEndpoint s) (callback s) (cards s) (zk_log s).
Definition set_peer (v : option (list Z * Z)) s : Reader := mkReader (connected s) v (jsonBuffer s) (lastEndpoint s) (callback s) (cards s) (zk_log s).
Definition set_buffer (v : list Z) s : Reader := mkReader (connected s) (peer s) v (lastEndpoint s) (callback s) (cards s) (zk_log s).
Definition set_endpoint (v : list Z) s : Reader := mkReader (connected s) (peer s) (jsonBuffer s) v (callback s) (cards s) (zk_log s).
Definition add_card (v : list Z) s : Reader :=
  mkReader (connected s) (peer s) (jsonBuffer s) (lastEndpoint s) (callback s) (cards s ++ [v]) (zk_log s).
Definition add_zk (v : list ZkRequest) s : Reader :=
  mkReader (connected s) (peer s) (jsonBuffer s) (lastEndpoint s) (callback s) (cards s) (zk_log s ++ v).

(** What a turn meets: whether the port answers, what [Receive] brings ([None]:
    nothing) and whether the socket is still open then; the controller, absent
    or with what it answers; the ping. *)
Record Zk := mkZk { z_connected : bool; z_reconnecting : bool; z_dial : bool; z_after : bool }.
Record Turn := mkTurn {
  t_config : RfidConfig; t_dial : bool; t_recv : option (list Z); t_open : bool; t_zk : option Zk; t_ping : bool
}.

Section Reader.
Context {J : JsonLib}.
Variable json_parse : list Z -> option json.

(** ** One payload *)

Definition object_of (j : json) : option (list (string * json)) := match view j with JObject l => Some l | _ => None end.

(** The value under [Raw] as a card number; an unsigned number counts as an
    integer and is read as a signed one. *)
Definition raw_card (j : json) : option (list Z) :=
  match view j with
  | JString uid => Some (bytes_of uid)
  | JInt z => Some (bytes_of (to_string z))
  | JUint z => Some (bytes_of (to_string (to_signed 64 z)))
  | _ => None
  end.

Definition ExtractRawFromJson (payload : list Z) : option (list Z) :=
  match json_parse payload with
  | None => None
  | Some parsed =>
      match object_of parsed with
      | None => None
      | Some l =>
          let holder :=
            match member l "data" with
            | Some d => match object_of d with Some l' => Some l' | None => match member l "Raw" with Some _ => Some l | None => None end end
            | None => match member l "Raw" with Some _ => Some l | None => None end
            end in
          match holder with
          | None => None
          | Some h =>
              match member h "Raw" with
              | None => None
              | Some it => match raw_card it with Some (b :: uid) => Some (b :: uid) | _ => None end
              end
          end
      end
  end.

Definition EmitCard (uid : list Z) s : Reader :=
  match uid with [] => s | _ => if callback s then add_card uid s else s end.

(** ** Lines over TCP *)

Definition chomp (line : list Z) : list Z :=
  match last line with Some 13 => removelast line | _ => line end.

(** A line that is a card. *)
Definition card_of (line : list Z) : option (list Z) :=
  match chomp line with [] => None | l => ExtractRawFromJson l end.

Definition on_line (line : list Z) s : Reader :=
  match card_of line with Some uid => EmitCard uid s | None => s end.

(** [while ((newline = jsonBuffer_.find('\n')) != npos)]. *)
Fixpoint drain_lines (fuel : nat) s : Reader :=
  match fuel with
  | O => s
  | S fuel' =>
      match until 10 (jsonBuffer s) with
      | (line, _ :: rest) => drain_lines fuel' (on_line line (set_buffer rest s))
      | (_, []) => s
      end
  end.

Definition kMaxBuffer : nat := Z.to_nat (64 * 1024).

Definition RunTcpJsonIteration (t : Turn) s : Reader :=
  let dialled :=
    match peer s with
    | Some _ => Some s
    | None =>
        let s := set_buffer [] s in
        if t_dial t then Some (set_connected true (set_peer (Some (r_ip (t_config t), r_port (t_config t))) s)) else None
    end in
  match dialled with
  | None => set_connected false (set_buffer [] s)
  | Some s =>
      match t_recv t with
      | Some chunk =>
          let s := set_buffer (jsonBuffer s ++ chunk) s in
          let s := drain_lines (S (length (jsonBuffer s))) s in
          if (kMaxBuffer <? length (jsonBuffer s))%nat then set_buffer [] s else s
      | None => if t_open t then s else set_connected false (set_peer None s)
      end
  end.

(** ** The other modes *)

Definition RunZkIteration (t : Turn) s : Reader :=
  match t_zk t with
  | None => set_connected false s
  | Some z =>
      let s :=
        if negb (z_connected z) && negb (z_reconnecting z) then
          let port := if 0 <? r_port (t_config t) then r_port (t_config t) else kDefaultZkPort in
          add_zk ([ZkSetAutoReconnect true; ZkConnect (r_ip (t_config t)) port] ++ if z_dial z then [ZkStartRTLog] else []) s
        else s in
      set_connected (z_after z) s
  end.

Definition RunCardApiIteration (t : Turn) s : Reader := set_connected (t_ping t) s.

(** ** The thread *)

Definition endpoint_of (c : RfidConfig) : list Z :=
  r_mode c ++ b! "|" ++ r_ip c ++ b! "|" ++ bytes_of (to_string (r_port c)).

Definition follow_config (c : RfidConfig) s : Reader :=
  let endpoint := endpoint_of c in
  if bool_decide (endpoint = lastEndpoint s) then s
  else
    let s := match lastEndpoint s with [] => s | _ => set_buffer [] (set_connected false (set_peer None s)) end in
    set_endpoint endpoint s.

Definition run_turn s (t : Turn) : Reader :=
  let s := follow_config (t_config t) s in
  if bool_decide (r_mode (t_config t) = b! "zk") then RunZkIteration t s
  else if bool_decide (r_mode (t_config t) = b! "card_api") then RunCardApiIteration t s
  else RunTcpJsonIteration t s.

(** The turns until [running_] is down, and the end of the thread. *)
Definition RunLoop (turns : list Turn) s : Reader :=
  set_connected false (set_peer None (foldl run_turn s turns)).

(** [SendCommand]: whether the bytes were sent, given what the socket says. *)
Definition SendCommand (sent : bool) s : bool :=
  connected s && match peer s with Some _ => sent | None => false end.

(** ** Framing *)

(** The complete lines of a stream, and what follows the last of them. *)
Definition lines_of (stream : list Z) : list (list Z) := removelast (split_on 10 stream).
Definition tail_of (stream : list Z) : list Z := List.last (split_on 10 stream) [].

Lemma lines_tail_step stream : match until 10 stream with
  | (line, _ :: rest) => lines_of stream = line :: lines_of rest /\ tail_of stream = tail_of rest
  | (_, []) => lines_of stream = [] /\ tail_of stream = stream
  end.
Proof.
  unfold lines_of, tail_of. rewrite (split_on_until 10 stream). pose proof (until_shape 10 stream) as H.
  destruct (until 10 stream) as [line [|b rest]]; cbn [fst snd]; destruct H as (-> & _ & _).
  - by rewrite app_nil_r.
  - destruct (split_on_cons 10 rest) as (p & ps & ->). done.
Qed.

Lemma until_app sep a c : match until sep a with
  | (line, b :: rest) => until sep (a ++ c) = (line, b :: rest ++ c)
  | (line, []) => until sep (a ++ c) = (line ++ (until sep c).1, (until sep c).2)
  end.
Proof.
  induction a as [|x a IH]; cbn [until app]; [by destruct (until sep c)|]. destruct (x =? sep); [done|].
  destruct (until sep a) as [line [|b rest]]; rewrite IH; done.
Qed.

(** Reading on after the last complete line. *)
Lemma lines_tail_app stream : forall more,
  lines_of (stream ++ more) = lines_of stream ++ lines_of (tail_of stream ++ more) /\
  tail_of (stream ++ more) = tail_of (tail_of stream ++ more).
Proof.
  induction stream as [stream IH] using (induction_ltof1 _ (@length Z)). unfold ltof in IH. intros more.
  pose proof (lines_tail_step stream) as H. pose proof (until_app 10 stream more) as Ha.
  pose proof (until_shape 10 stream) as Hs. pose proof (lines_tail_step (stream ++ more)) as Hm.
  destruct (until 10 stream) as [line [|b rest]].
  - by destruct H as [-> ->].
  - rewrite Ha in Hm. destruct H as [-> ->], Hm as [-> ->], Hs as (Hs & _ & _).
    destruct (IH rest) with (more := more) as [E1 E2]; [rewrite Hs, length_app; cbn; lia|]. by rewrite E1, E2.
Qed.

(** What the callback was given for some lines. *)
Definition cards_of (lines : list (list Z)) : list (list Z) := omap card_of lines.

Lemma cards_of_cons line lines : cards_of (line :: lines) = cards_of [line] ++ cards_of lines.
Proof. unfold cards_of. cbn. by destruct (card_of line). Qed.

Lemma card_of_nonempty line uid : card_of line = Some uid -> uid <> [].
Proof. unfold card_of, ExtractRawFromJson. intros H ->. repeat case_match; simplify_eq. Qed.

Lemma on_line_eq line s : callback s = true ->
  on_line line s = mkReader (connected s) (peer s) (jsonBuffer s) (lastEndpoint s) true (cards s ++ cards_of [line]) (zk_log s).
Proof.
  intros Hc. unfold on_line, cards_of. cbn. destruct (card_of line) as [uid|] eqn:E.
  - apply card_of_nonempty in E. unfold EmitCard. destruct uid; [done|]. rewrite Hc. unfold add_card. by rewrite Hc.
  - rewrite app_nil_r, <- Hc. by destruct s.
Qed.

Lemma drain_lines_eq fuel : forall s, callback s = true -> (length (jsonBuffer s) < fuel)%nat ->
  drain_lines fuel s = mkReader (connected s) (peer s) (tail_of (jsonBuffer s)) (lastEndpoint s) true
    (cards s ++ cards_of (lines_of (jsonBuffer s))) (zk_log s).
Proof.
  induction fuel as [|fuel IH]; intros s Hc Hf; [lia|]. cbn [drain_lines].
  pose proof (lines_tail_step (jsonBuffer s)) as H. pose proof (until_shape 10 (jsonBuffer s)) as Hs.
  destruct (until 10 (jsonBuffer s)) as [line [|b rest]]; destruct H as [Hl Ht].
  - rewrite Hl, Ht, app_nil_r, <- Hc. by destruct s.
  - destruct Hs as (Hs & _ & _). rewrite on_line_eq by done. rewrite IH; [|done|rewrite Hs, length_app in Hf; cbn in *; lia].
    cbn [connected peer jsonBuffer lastEndpoint callback cards zk_log set_buffer].
    by rewrite Hl, Ht, (cards_of_cons line (lines_of rest)), <- app_assoc.
Qed.

(** However the network cuts the reader's byte stream into segments, as
    long as no line outgrows the buffer, the cards reported are those of the
    complete lines of the stream, in order, and what follows the last line
    waits in the buffer. *)
Theorem reader_framing (c : RfidConfig) (dial : bool) (zk : option Zk) (ping : bool) (chunks : list (list Z)) s :
  r_mode c <> b! "zk" -> r_mode c <> b! "card_api" -> lastEndpoint s = endpoint_of c ->
  callback s = true -> peer s <> None -> jsonBuffer s = [] ->
  (forall k, (length (tail_of (concat (take k chunks))) <= kMaxBuffer)%nat) ->
  foldl run_turn s (map (fun chunk => mkTurn c dial (Some chunk) true zk ping) chunks) =
    mkReader (connected s) (peer s) (tail_of (concat chunks)) (lastEndpoint s) true
      (cards s ++ cards_of (lines_of (concat chunks))) (zk_log s).
Proof.
  intros Hz Hk He Hc Hp Hb. revert chunks. induction chunks as [|chunk chunks IH] using rev_ind; intros Hsmall.
  - destruct s as [? ? ? ? ? ? ?]. cbn [callback jsonBuffer] in Hc, Hb. subst. unfold cards_of, lines_of, tail_of. cbn.
    by rewrite app_nil_r.
  - rewrite map_app, foldl_app, IH. 2: { intros k. destruct (decide (k <= length chunks)%nat).
      - rewrite <- (take_app_le chunks [chunk]) by done. apply Hsmall.
      - rewrite take_ge by lia. rewrite <- (take_app_length chunks [chunk]). apply Hsmall. }
    rewrite concat_app. cbn [concat]. rewrite app_nil_r. cbn [map foldl]. unfold run_turn, follow_config. cbn [t_config lastEndpoint].
    rewrite He, (bool_decide_true (endpoint_of c = endpoint_of c)) by done.
    rewrite (bool_decide_false (r_mode c = b! "zk")), (bool_decide_false (r_mode c = b! "card_api")) by done.
    unfold RunTcpJsonIteration. cbn [peer t_recv]. destruct (peer s) as [ep|] eqn:Ep; [|done]. cbn [jsonBuffer set_buffer].
    rewrite drain_lines_eq; [|done|cbn; lia]. cbn [connected peer jsonBuffer lastEndpoint callback cards zk_log set_buffer].
    destruct (lines_tail_app (concat chunks) chunk) as [E1 E2]. rewrite <- E2.
    pose proof (Hsmall (S (length chunks))) as Hs. rewrite take_ge in Hs by (rewrite length_app; cbn; lia).
    rewrite concat_app in Hs. cbn [concat] in Hs. rewrite app_nil_r in Hs.
    rewrite (proj2 (Nat.ltb_ge _ _)) by done. rewrite E1. unfold cards_of. by rewrite omap_app, app_assoc.
Qed.

(** ** The configured reader *)

Definition config_ok (c : RfidConfig) : Prop := (124 ∉ r_mode c) /\ (124 ∉ r_ip c) /\ 0 <= r_port c.
Definition tcp_mode (c : RfidConfig) : Prop := r_mode c <> b! "zk" /\ r_mode c <> b! "card_api".

Lemma endpoint_inj c c' : config_ok c -> config_ok c' -> endpoint_of c = endpoint_of c' -> c = c'.
Proof.
  intros (Hm & Hi & Hp) (Hm' & Hi' & Hp') E. unfold endpoint_of in E.
  change (b! "|") with [124] in E. rewrite !bytes_of_to_string in E by done.
  pose proof (until_unique 124 (r_mode c) ([124] ++ r_ip c ++ [124] ++ decimal (r_port c)) Hm (or_intror eq_refl)) as U.
  rewrite E, until_unique in U by (done || by right). injection U as U1 U2.
  pose proof (until_unique 124 (r_ip c) ([124] ++ decimal (r_port c)) Hi (or_intror eq_refl)) as U.
  cbn [app] in U2, U. rewrite <- U2, until_unique in U by (done || by right). injection U as U3 U4.
  destruct c, c'; cbn in *. f_equal; [done|done|by apply decimal_inj].
Qed.

(** After a turn with configuration [c]. *)
Record follows (c : RfidConfig) s : Prop := {
  f_endpoint : lastEndpoint s = endpoint_of c;
  f_buffer : (length (jsonBuffer s) <= kMaxBuffer)%nat;
  f_peer : forall e, peer s = Some e -> e = (r_ip c, r_port c) /\ tcp_mode c;
  f_connected : tcp_mode c -> connected s = match peer s with Some _ => true | None => false end
}.

(** What [follow_config] leaves to the iteration. *)
Record ready_for (c : RfidConfig) s : Prop := {
  g_endpoint : lastEndpoint s = endpoint_of c;
  g_buffer : (length (jsonBuffer s) <= kMaxBuffer)%nat;
  g_peer : forall e, peer s = Some e -> e = (r_ip c, r_port c) /\ tcp_mode c /\ connected s = true
}.

Lemma follow_config_ready c c' s : config_ok c -> config_ok c' -> follows c s -> ready_for c' (follow_config c' s).
Proof.
  intros Hc Hc' []. unfold follow_config. cbn zeta. destruct (bool_decide _) eqn:E.
  - apply bool_decide_eq_true in E. rewrite f_endpoint0 in E. apply endpoint_inj in E as ->; [|done|done].
    split; [done|done|]. intros e He. destruct (f_peer0 e He) as [-> Hm]. split_and!; [done|done|]. by rewrite f_connected0, He.
  - assert (lastEndpoint s <> []) as Hne.
    { rewrite f_endpoint0. unfold endpoint_of. intros H. apply app_eq_nil in H as [_ H]. done. }
    destruct (lastEndpoint s); [done|]. split; cbn; [done|lia|done].
Qed.

Lemma kept_line fuel : forall s, connected (drain_lines fuel s) = connected s /\ peer (drain_lines fuel s) = peer s /\
  lastEndpoint (drain_lines fuel s) = lastEndpoint s.
Proof.
  induction fuel as [|fuel IH]; intros s; [done|]. cbn [drain_lines]. destruct (until 10 (jsonBuffer s)) as [line [|b rest]]; [done|].
  destruct (IH (on_line line (set_buffer rest s))) as (-> & -> & ->). unfold on_line, EmitCard.
  destruct (card_of line) as [[|]|]; [done| |done]. by destruct (callback _).
Qed.

Lemma tcp_iteration_follows t s : tcp_mode (t_config t) -> ready_for (t_config t) s ->
  follows (t_config t) (RunTcpJsonIteration t s).
Proof.
  intros Hm []. unfold RunTcpJsonIteration. set (c := t_config t) in *.
  set (dialled := match peer s with Some _ => Some s | None => _ end).
  assert (match dialled with
    | Some s' => lastEndpoint s' = endpoint_of c /\ (length (jsonBuffer s') <= kMaxBuffer)%nat /\ connected s' = true /\
                 peer s' = Some (r_ip c, r_port c)
    | None => peer s = None end) as H.
  { unfold dialled. destruct (peer s) as [e|] eqn:Ep; [destruct (g_peer0 e eq_refl) as (-> & _ & ?); by split_and!|].
    destruct (t_dial t); [|done]. cbn. split_and!; [done|lia|done|done]. }
  clearbody dialled. destruct dialled as [s'|]; [|split; cbn; rewrite ?H; try done; lia].
  destruct H as (H1 & H2 & H3 & H4). destruct (t_recv t) as [chunk|].
  - set (s1 := set_buffer _ s'). destruct (kept_line (S (length (jsonBuffer s1))) s1) as (E1 & E2 & E3).
    destruct (Nat.ltb_spec kMaxBuffer (length (jsonBuffer (drain_lines (S (length (jsonBuffer s1))) s1))));
      split; cbn [set_buffer lastEndpoint jsonBuffer peer connected]; rewrite ?E1, ?E2, ?E3; unfold s1; cbn; rewrite ?H4; try done;
      try lia; by intros e [= <-].
  - destruct (t_open t); split; cbn; rewrite ?H4; try done. by intros e [= <-].
Qed.

Lemma other_iteration_follows t s s' : ~ tcp_mode (t_config t) -> ready_for (t_config t) s ->
  lastEndpoint s' = lastEndpoint s -> jsonBuffer s' = jsonBuffer s -> peer s' = peer s -> follows (t_config t) s'.
Proof.
  intros Hm [] E1 E2 E3. split; rewrite ?E1, ?E2, ?E3; try done. intros e He. by destruct (g_peer0 e He) as (-> & ? & _).
Qed.

Lemma run_turn_follows t s : ready_for (t_config t) (follow_config (t_config t) s) -> follows (t_config t) (run_turn s t).
Proof.
  intros H. unfold run_turn. destruct (bool_decide (_ = b! "zk")) eqn:Ez.
  { apply bool_decide_eq_true in Ez. apply (other_iteration_follows t _ _ ltac:(by intros [? _]) H);
      unfold RunZkIteration; destruct (t_zk t) as [z|]; try done; by destruct (_ && _). }
  destruct (bool_decide (_ = b! "card_api")) eqn:Ec.
  { apply bool_decide_eq_true in Ec. by apply (other_iteration_follows t _ _ ltac:(by intros [_ ?]) H). }
  apply bool_decide_eq_false in Ez, Ec. by apply tcp_iteration_follows.
Qed.

(** Whatever the configurations read and the network, the panel and the
    ping do: after a turn an open socket is one to the address and port of the
    configuration that turn read, which selects the TCP mode, the status of the
    TCP mode is that of the socket, and the buffer is within its bound. *)
Theorem reader_follows_configuration (cb : bool) (turns : list Turn) (t : Turn) :
  Forall (fun t => config_ok (t_config t)) (turns ++ [t]) ->
  let c := t_config t in
  let s := foldl run_turn (new_reader cb) (turns ++ [t]) in
  (forall e, peer s = Some e -> e = (r_ip c, r_port c) /\ tcp_mode c) /\
  (tcp_mode c -> connected s = match peer s with Some _ => true | None => false end) /\
  (length (jsonBuffer s) <= kMaxBuffer)%nat.
Proof.
  intros Hok. cbn zeta. assert (follows (t_config t) (foldl run_turn (new_reader cb) (turns ++ [t]))) as []; [|done].
  revert t Hok. induction turns as [|t0 turns IH] using rev_ind; intros t Hok; rewrite foldl_app; cbn [foldl]; apply run_turn_follows.
  - unfold follow_config. cbn zeta. destruct (bool_decide _) eqn:E; [apply bool_decide_eq_true in E|]; split; cbn; try done; lia.
  - apply Forall_app in Hok as [Hok Ht]. rewrite Forall_singleton in Ht. apply (follow_config_ready (t_config t0)); [|done|by apply IH].
    apply Forall_app in Hok as [_ Hok]. by rewrite Forall_singleton in Hok.
Qed.
End Reader.

(** ** Examples *)

(** A card number beyond 63 bits is reported as a negative number. *)
Definition demo_json (line : list Z) : option jtree :=
  if bool_decide (line = b! "A") then Some (TObject [("data"%string, TObject [("Raw"%string, TUint 18446744073709551615)])])
  else if bool_decide (line = b! "B") then Some (TObject [("Raw"%string, TString "0455")]) else None.

Example large_card_is_negative : ExtractRawFromJson (J := jtree_json) demo_json (b! "A") = Some (b! "-1").
Proof. vm_compute. reflexivity. Qed.

Definition demo_config : RfidConfig := mkRfid (b! "tcp_json") (b! "10.0.0.2") 5000.
Definition demo_turn (chunk : list Z) : Turn := mkTurn demo_config true (Some chunk) true None false.

Lemma reader_framing_witness :
  cards (foldl (run_turn (J := jtree_json) demo_json)
    (mkReader true (Some (b! "10.0.0.2", 5000)) [] (endpoint_of demo_config) true [] [])
    (map (fun chunk => mkTurn demo_config true (Some chunk) true None false) [[65; 13]; [10; 66]; [10; 66]])) =
    [b! "-1"; b! "0455"].
Proof.
  rewrite (reader_framing (J := jtree_json) demo_json demo_config true None false [[65; 13]; [10; 66]; [10; 66]]); try done.
  intros k. destruct k as [|[|[|k]]]; cbn; unfold kMaxBuffer; try lia. rewrite take_nil. cbn. lia.
Defined.

Lemma reader_follows_configuration_witness :
  config_ok demo_config /\
  (length (jsonBuffer (foldl (run_turn (J := jtree_json) demo_json) (new_reader true) ([] ++ [demo_turn (b! "B")]))) <= kMaxBuffer)%nat.
Proof.
  assert (config_ok demo_config) as H by (split_and!; [by apply (bool_decide_unpack _)..|done]). split; [exact H|].
  destruct (reader_follows_configuration (J := jtree_json) demo_json true [] (demo_turn (b! "B"))) as (_ & _ & Hb); [|exact Hb].
  by constructor.
Defined.
