(* ===== verification/CardClients.v ===== *)
(** * Card reader clients (src/CardClientManager.cpp, src/CardCache.cpp and the
    card routes of src/WebServer.cpp)

    Readers on the network post card numbers under an API key of their own.
    The table of clients is a list of rows in the order of their ids, each
    critical section one step; the last card is a single slot.  The multipart
    reader, the JSON parser and the random generator are arguments. *)

From S2P Require Import Prelude Words Text Json WebReply MqEnvelope.

(** ** The table *)

Record CardClient := mkClient {
  id : Z; name : list Z; api_key : list Z; enabled : bool; created_at : Z; last_access : Z; expires_at : Z
}.
(** [next]: the next [AUTOINCREMENT] value. *)
Record Table := mkTable { rows : list CardClient; next : Z }.
(** [db_]: null until a file was opened. *)
Definition CardClientManager : Type := option Table.

(** Four 64-bit words in hexadecimal. *)
Definition GenerateApiKey (draws : list Z) : list Z := concat (map (hex_fixed 16) (take 4 draws)).

(** [file]: the table found at the path, or nothing if it cannot be opened. *)
Definition Load (file : option Table) (m : CardClientManager) : bool * CardClientManager :=
  match file with
  | None => (false, m)
  | Some t => (true, Some t)
  end.

Definition row_with_key (t : Table) (key : list Z) : option CardClient :=
  List.find (fun c => bool_decide (api_key c = key)) (rows t).
Definition row_with_id (t : Table) (i : Z) : option CardClient := List.find (fun c => id c =? i) (rows t).

(** The client as created, with the name as it was given; the row's is cut. *)
Definition CreateClient (n : list Z) (expiresAt : Z) (draws : list Z) (now : Z) (m : CardClientManager)
  : option CardClient * CardClientManager :=
  match m with
  | None => (None, m)
  | Some t =>
      let key := GenerateApiKey draws in
      match row_with_key t key with
      | Some _ => (None, m)
      | None =>
          (Some (mkClient (next t) n key true now 0 expiresAt),
           Some (mkTable (rows t ++ [mkClient (next t) (c_str n) key true now 0 expiresAt]) (next t + 1)))
      end
  end.

Definition set_row_enabled (b : bool) (c : CardClient) : CardClient :=
  mkClient (id c) (name c) (api_key c) b (created_at c) (last_access c) (expires_at c).
Definition set_row_access (now : Z) (c : CardClient) : CardClient :=
  mkClient (id c) (name c) (api_key c) (enabled c) (created_at c) now (expires_at c).

(** [UPDATE ... WHERE id = ?]. *)
Definition update_rows (i : Z) (f : CardClient -> CardClient) (t : Table) : Table :=
  mkTable (map (fun c => if id c =? i then f c else c) (rows t)) (next t).

Definition SetEnabled (i : Z) (b : bool) (m : CardClientManager) : bool * CardClientManager :=
  match m with
  | None => (false, m)
  | Some t => (bool_decide (is_Some (row_with_id t i)), Some (update_rows i (set_row_enabled b) t))
  end.

Definition DeleteClient (i : Z) (m : CardClientManager) : bool * CardClientManager :=
  match m with
  | None => (false, m)
  | Some t =>
      (bool_decide (is_Some (row_with_id t i)), Some (mkTable (List.filter (fun c => negb (id c =? i)) (rows t)) (next t)))
  end.

Definition ListClients (m : CardClientManager) : list CardClient := match m with None => [] | Some t => rows t end.

(** Known, enabled, and not expired. *)
Definition valid_at (now : Z) (c : CardClient) : bool := enabled c && ((expires_at c =? 0) || (now <? expires_at c)).

Definition Authenticate (key : list Z) (now : Z) (m : CardClientManager) : option CardClient * CardClientManager :=
  match m, key with
  | None, _ | _, [] => (None, m)
  | Some t, _ =>
      match row_with_key t (c_str key) with
      | Some c =>
          if valid_at now c then (Some (set_row_access now c), Some (update_rows (id c) (set_row_access now) t)) else (None, m)
      | None => (None, m)
      end
  end.

(** ** The last card *)

Record CardEntry := mkEntry { uid : list Z; position : Z; timestamp : Z }.
Definition CardCache : Type := option CardEntry.
Definition Set_card (u : list Z) (p now : Z) (c : CardCache) : CardCache := Some (mkEntry u p now).
Definition Get (c : CardCache) : option CardEntry := c.
Definition Clear (c : CardCache) : CardCache := None.
Definition Available (c : CardCache) : bool := bool_decide (is_Some c).

(** ** The routes *)

(** [events]: what was queued for the Lua runtimes. *)
Record Cards := mkCards {
  card_api_enabled : bool; clients : CardClientManager; cache : CardCache; has_lua : bool; events : list (list Z)
}.
Definition set_clients (m : CardClientManager) (g : Cards) : Cards := mkCards (card_api_enabled g) m (cache g) (has_lua g) (events g).
Definition set_cache (c : CardCache) (g : Cards) : Cards := mkCards (card_api_enabled g) (clients g) c (has_lua g) (events g).

Section Routes.
Context {J : JsonLib}.
(** The text of an exception of [std::stoi]; the body as JSON, or why not. *)
Variable stoi_what : string.
Variable parse : list Z -> res json.

Definition entry_json (e : CardEntry) : json :=
  object [("uid"%string, jtext (uid e)); ("position"%string, jint (position e)); ("timestamp"%string, jint (timestamp e))].
Definition client_json (c : CardClient) : json :=
  object [("id"%string, jint (id c)); ("name"%string, jtext (name c)); ("api_key"%string, jtext (api_key c));
    ("enabled"%string, jbool (enabled c)); ("created_at"%string, jint (created_at c));
    ("last_access"%string, jint (last_access c)); ("expires_at"%string, jint (expires_at c))].

Definition TrimWhitespace (s : list Z) : list Z := trim [32; 9; 13; 10] s.

Definition card_refusal (status : Z) (message : string) : response :=
  mkResponse status (object [("success"%string, jbool false); ("code"%string, jint status); ("message"%string, jstring message)]).

(** The parts of a multipart body by name, empty for a part that is not there;
    or the exception of a body that has none. *)
Definition Multipart : Type := res (string -> list Z).

Definition card_payload (msg : Multipart) : res (list Z * Z) :=
  match msg with
  | Ok part =>
      match part "Position"%string with
      | [] => Err "Position is required"
      | p => match stoi p with Some position => Ok (part "CardData"%string, position) | None => Err stoi_what end
      end
  | Err what => Err what
  | Fault => Fault
  end.

(** [now1] is the clock of the key check, [now2] that of the cache. *)
Definition card_input (header : list Z) (msg : Multipart) (now1 now2 : Z) (g : Cards) : response * Cards :=
  if negb (card_api_enabled g) then (card_refusal 403 "Card Reader Client API is disabled", g)
  else
    match Authenticate (TrimWhitespace header) now1 (clients g) with
    | (None, m) => (card_refusal 401 "Invalid API-Key", set_clients m g)
    | (Some client, m) =>
        let g := set_clients m g in
        match card_payload msg with
        | Ok ([], _) => (card_refusal 400 "CardData is required", g)
        | Ok (cardData, position) =>
            let g := set_cache (Set_card cardData position now2 (cache g)) g in
            let g := if has_lua g then mkCards (card_api_enabled g) (clients g) (cache g) true (events g ++ [cardData]) else g in
            (success [("message"%string, jstring "Card Accepted")], g)
        | Err what => (card_refusal 400 ("Invalid payload: " ++ what), g)
        | Fault => (card_refusal 400 "Invalid payload: ", g)
        end
    end.

Definition error_body (status : Z) (message : string) : response :=
  mkResponse status (object [("error"%string, jstring message)]).

Definition clients_post (body : list Z) (draws : list Z) (now : Z) (g : Cards) : res (response * Cards) :=
  match parse body with
  | Ok j =>
      match value_string j "name" "" with
      | None => Ok (error_body 400 "type_error", g)
      | Some n =>
          if String.eqb n "" then Ok (error_body 400 "name is required", g)
          else
            match value_int 64 j "expires_at" 0 with
            | Ok None => Ok (error_body 400 "type_error", g)
            | Ok (Some expiresAt) =>
                match CreateClient (bytes_of n) expiresAt draws now (clients g) with
                | (None, m) => Ok (error_body 500 "failed to create client", set_clients m g)
                | (Some c, m) => Ok (mkResponse 200 (client_json c), set_clients m g)
                end
            | Err what => Ok (error_body 400 what, g)
            | Fault => Fault
            end
      end
  | Err what => Ok (error_body 400 what, g)
  | Fault => Fault
  end.

Definition clients_get (g : Cards) : response :=
  mkResponse 200 (object [("clients"%string, jlist (map client_json (ListClients (clients g))))]).

Definition ok_body (ok : bool) : response := mkResponse (if ok then 200 else 404) (object [("ok"%string, jbool ok)]).

Definition client_enable (i : Z) (b : bool) (g : Cards) : response * Cards :=
  let '(ok, m) := SetEnabled i b (clients g) in (ok_body ok, set_clients m g).
Definition client_delete (i : Z) (g : Cards) : response * Cards :=
  let '(ok, m) := DeleteClient i (clients g) in (ok_body ok, set_clients m g).
Definition cache_get (g : Cards) : response :=
  mkResponse 200 (match Get (cache g) with Some e => entry_json e | None => inject JNull end).
Definition cache_delete (g : Cards) : response * Cards := (ok_body true, set_cache (Clear (cache g)) g).

(** ** Requests in any order *)

Inductive Request :=
| RInput (header : list Z) (msg : Multipart) (now1 now2 : Z)
| RCreate (body : list Z) (draws : list Z) (now : Z)
| REnable (i : Z)
| RDisable (i : Z)
| RDelete (i : Z)
| RCacheDelete.

Definition serve (g : Cards) (r : Request) : Cards :=
  match r with
  | RInput header msg now1 now2 => (card_input header msg now1 now2 g).2
  | RCreate body draws now => match clients_post body draws now g with Ok (_, g') => g' | _ => g end
  | REnable i => (client_enable i true g).2
  | RDisable i => (client_enable i false g).2
  | RDelete i => (client_delete i g).2
  | RCacheDelete => (cache_delete g).2
  end.

(** ** The table's invariant *)

Definition row_list (m : CardClientManager) : list CardClient := match m with Some t => rows t | None => [] end.
Definition next_id (m : CardClientManager) : Z := match m with Some t => next t | None => 1 end.

(** Ids and keys are unique, and an id is never given twice. *)
Definition table_ok (m : CardClientManager) : Prop :=
  NoDup (map id (row_list m)) /\ NoDup (map api_key (row_list m)) /\ Forall (fun c => id c < next_id m) (row_list m).

(** How a request may change the rows: rows change in place, keeping id and
    key, rows disappear, and a row with a new id and key may come; only the
    request that enables a row turns it on. *)
Record evolves (on : option Z) (new : option (list Z)) (m m' : CardClientManager) : Prop := {
  e_ok : table_ok m -> table_ok m';
  e_next : next_id m <= next_id m';
  e_row : forall c', c' ∈ row_list m' -> (exists c, c ∈ row_list m /\ id c' = id c /\ api_key c' = api_key c /\
    (enabled c' = true -> enabled c = true \/ on = Some (id c))) \/ id c' = next_id m /\ new = Some (api_key c')
}.

Lemma evolves_refl on new m : evolves on new m m.
Proof. split; [done|lia|]. intros c Hc. left. exists c. auto. Qed.

Lemma map_update {B} (f : CardClient -> B) i g l : (forall c, f (g c) = f c) ->
  map f (map (fun c => if id c =? i then g c else c) l) = map f l.
Proof. intros H. rewrite map_map. apply map_ext. intros c. destruct (id c =? i); [apply H|done]. Qed.

Lemma evolves_update on new i f t : (forall c, id (f c) = id c) -> (forall c, api_key (f c) = api_key c) ->
  (forall c, id c = i -> enabled (f c) = true -> enabled c = true \/ on = Some i) ->
  evolves on new (Some t) (Some (update_rows i f t)).
Proof.
  intros Hi Hk He. unfold update_rows. split; cbn [next_id next]; [|lia|].
  - intros (H1 & H2 & H3). unfold table_ok. cbn [row_list rows next_id next] in *. rewrite !map_update by done. split_and!; [done|done|].
    apply Forall_map. apply (Forall_impl _ _ _ H3). intros c Hc. cbn. destruct (id c =? i); [by rewrite Hi|done].
  - intros c' Hc'. left. cbn [row_list rows] in *. apply list_elem_of_fmap in Hc' as (c & -> & Hc). exists c. split; [done|].
    destruct (Z.eqb_spec (id c) i) as [E|]; [|by split_and!; auto]. split_and!; [apply Hi|apply Hk|]. rewrite E. by apply He.
Qed.

Lemma elem_of_list_filter' (p : CardClient -> bool) l c : c ∈ List.filter p l <-> c ∈ l /\ p c = true.
Proof. rewrite !list_elem_of_In. apply filter_In. Qed.

Lemma evolves_delete on new i t : evolves on new (Some t) (DeleteClient i (Some t)).2.
Proof.
  cbn. split; cbn [next_id next]; [|lia|].
  - intros (H1 & H2 & H3). unfold table_ok. cbn [row_list rows next_id next] in *. split_and!; [by apply NoDup_map_filter..|].
    apply Forall_forall. intros c Hc. apply elem_of_list_filter' in Hc as [Hc _]. rewrite Forall_forall in H3. by apply H3.
  - intros c Hc. left. cbn in Hc. apply elem_of_list_filter' in Hc as [Hc _]. exists c. auto.
Qed.

Lemma evolves_create on n e draws now m : evolves on (Some (GenerateApiKey draws)) m (CreateClient n e draws now m).2.
Proof.
  unfold CreateClient. destruct m as [t|]; [|apply evolves_refl]. destruct (row_with_key t _) eqn:E; [apply evolves_refl|].
  split; cbn [snd next_id next]; [|lia|].
  - intros (H1 & H2 & H3). unfold table_ok. cbn [row_list rows next_id next] in *. rewrite !map_app. cbn [map id api_key]. split_and!.
    + apply NoDup_app. split_and!; [done| |apply NoDup_singleton]. intros x Hx Hin. apply list_elem_of_singleton in Hin as ->.
      apply list_elem_of_fmap in Hx as (c & Hid & Hc). rewrite Forall_forall in H3. pose proof (H3 c Hc). lia.
    + apply NoDup_app. split_and!; [done| |apply NoDup_singleton]. intros x Hx Hin. apply list_elem_of_singleton in Hin as ->.
      apply list_elem_of_fmap in Hx as (c & Hid & Hc). unfold row_with_key in E. apply list_elem_of_In in Hc.
      pose proof (find_none _ _ E c Hc) as Hf. cbn in Hf. by rewrite bool_decide_true in Hf.
    + apply Forall_app. split; [apply (Forall_impl _ _ _ H3); cbn; lia|]. apply Forall_singleton. cbn. lia.
  - intros c Hc. cbn in Hc. apply elem_of_app in Hc as [Hc|Hc]; [left; exists c; auto|right].
    apply list_elem_of_singleton in Hc as ->. by split.
Qed.

Lemma evolves_auth on new key now m : evolves on new m (Authenticate key now m).2.
Proof.
  unfold Authenticate. destruct m as [t|]; [|apply evolves_refl]. destruct key; [apply evolves_refl|].
  destruct (row_with_key t _) as [c|]; [|apply evolves_refl]. destruct (valid_at now c); [|apply evolves_refl].
  apply evolves_update; auto.
Qed.

Definition enables (r : Request) : option Z := match r with REnable i => Some i | _ => None end.

Definition creates (r : Request) : option (list Z) := match r with RCreate _ draws _ => Some (GenerateApiKey draws) | _ => None end.

Lemma card_input_clients header msg now1 now2 g :
  clients (card_input header msg now1 now2 g).2 = if card_api_enabled g then (Authenticate (TrimWhitespace header) now1 (clients g)).2 else clients g.
Proof.
  unfold card_input. destruct (card_api_enabled g); [|done]. cbn [negb].
  destruct (Authenticate _ now1 (clients g)) as [[c|] m]; [|done]. cbn zeta. cbn [snd].
  destruct (card_payload msg) as [[[|] ?]| |]; try done. cbn [has_lua set_cache set_clients]. by destruct (has_lua g).
Qed.

Lemma serve_evolves g r : evolves (enables r) (creates r) (clients g) (clients (serve g r)).
Proof.
  destruct r as [header msg now1 now2|body draws now|i|i|i|]; cbn [serve enables creates].
  - rewrite card_input_clients. destruct (card_api_enabled g); [apply evolves_auth|apply evolves_refl].
  - unfold clients_post. repeat (case_match; try apply evolves_refl); simplify_eq.
    all: first [apply evolves_refl|match goal with H : CreateClient ?n ?e ?d ?w ?m = _ |- _ =>
      pose proof (evolves_create None n e d w m) as Hc; by rewrite H in Hc end].
  - unfold client_enable, SetEnabled. destruct (clients g) as [t|] eqn:E; cbn; [|apply evolves_refl]. apply evolves_update; auto.
  - unfold client_enable, SetEnabled. destruct (clients g) as [t|] eqn:E; cbn; [|apply evolves_refl]. by apply evolves_update.
  - unfold client_delete. destruct (clients g) as [t|] eqn:E; [|cbn; apply evolves_refl]. apply evolves_delete.
  - apply evolves_refl.
Qed.

(** ** Who is let in *)

(** A client that the header's key names, in good standing. *)
Definition admitted (header : list Z) (now : Z) (m : CardClientManager) (c : CardClient) : Prop :=
  c ∈ row_list m /\ TrimWhitespace header <> [] /\ api_key c = c_str (TrimWhitespace header) /\
  enabled c = true /\ (expires_at c = 0 \/ now < expires_at c).

Lemma valid_at_iff now c : valid_at now c = true <-> enabled c = true /\ (expires_at c = 0 \/ now < expires_at c).
Proof. unfold valid_at. rewrite andb_true_iff, orb_true_iff, Z.eqb_eq, Z.ltb_lt. done. Qed.

Lemma row_with_key_iff t key c : NoDup (map api_key (rows t)) -> (row_with_key t key = Some c <-> c ∈ rows t /\ api_key c = key).
Proof.
  intros Hnd. unfold row_with_key. split.
  - intros E. apply find_some in E as [Hin E]. apply bool_decide_eq_true in E. by rewrite list_elem_of_In.
  - intros [Hin Hk]. apply (find_unique api_key); [done|done|by apply bool_decide_true|].
    intros y Hy. apply bool_decide_eq_true in Hy. congruence.
Qed.

Lemma Authenticate_iff key now m c : table_ok m ->
  (exists c', (Authenticate key now m).1 = Some c' /\ c' = set_row_access now c /\ c ∈ row_list m /\ key <> [] /\
     api_key c = c_str key /\ valid_at now c = true) <->
  (c ∈ row_list m /\ key <> [] /\ api_key c = c_str key /\ valid_at now c = true).
Proof.
  intros (_ & Hk & _). split; [by intros (c' & _ & _ & ?)|]. intros (Hin & Hne & Ha & Hv). exists (set_row_access now c).
  split; [|by split_and!]. unfold Authenticate. destruct m as [t|]; cbn in Hin; [|by apply elem_of_nil in Hin].
  destruct key; [done|]. by rewrite (proj2 (row_with_key_iff t _ c Hk)), Hv.
Qed.

Lemma Authenticate_none key now m : table_ok m -> (Authenticate key now m).1 = None ->
  (Authenticate key now m).2 = m /\ forall c, ~ (c ∈ row_list m /\ key <> [] /\ api_key c = c_str key /\ valid_at now c = true).
Proof.
  intros Hok H. split.
  - unfold Authenticate in *. destruct m as [t|], key as [|b key]; try done. destruct (row_with_key t _) as [c|]; [|done].
    by destruct (valid_at now c).
  - intros c Hc. apply (Authenticate_iff key now m c Hok) in Hc as (c' & E & _). congruence.
Qed.

Lemma authenticated_row key now m c' m' : table_ok m -> Authenticate key now m = (Some c', m') ->
  exists c, c ∈ row_list m /\ key <> [] /\ api_key c = c_str key /\ valid_at now c = true /\ c' = set_row_access now c /\
    exists t, m = Some t /\ m' = Some (update_rows (id c) (set_row_access now) t).
Proof.
  intros (_ & Hk & _). unfold Authenticate. destruct m as [t|], key as [|b key]; try done.
  destruct (row_with_key t _) as [c|] eqn:E; [|done]. apply row_with_key_iff in E as [Hin Ha]; [|done].
  destruct (valid_at now c) eqn:Hv; [|done]. intros [= <- <-]. exists c. split_and!; try done. by exists t.
Qed.

(** A part that is an [int] in decimal. *)
Definition int_text (text : list Z) (v : Z) : Prop := decimal_text text v /\ - 2 ^ 31 <= v < 2 ^ 31.

(** Why a body is refused, or what it posts. *)
Inductive posts : Multipart -> string + list Z * Z -> Prop :=
| posts_no_parts what : posts (Err what) (inl ("Invalid payload: " ++ what)%string)
| posts_no_position part : part "Position"%string = [] -> posts (Ok part) (inl "Invalid payload: Position is required"%string)
| posts_no_number part : part "Position"%string <> [] -> (forall v, ~ int_text (part "Position"%string) v) ->
    posts (Ok part) (inl ("Invalid payload: " ++ stoi_what)%string)
| posts_no_card part v : int_text (part "Position"%string) v -> part "CardData"%string = [] -> posts (Ok part) (inl "CardData is required"%string)
| posts_card part v : int_text (part "Position"%string) v -> part "CardData"%string <> [] ->
    posts (Ok part) (inr (part "CardData"%string, v)).

(** The body's Position is an integer, or nothing that starts with one. *)
Definition plain_position (msg : Multipart) : Prop :=
  msg <> Fault /\ forall part, msg = Ok part -> stoi (part "Position"%string) = None \/ exists v, int_text (part "Position"%string) v.

Lemma payload_posts msg : plain_position msg ->
  exists answer, posts msg answer /\
    match answer with
    | inl error => match card_payload msg with
                   | Ok ([], _) => error = "CardData is required"%string
                   | Err what => error = ("Invalid payload: " ++ what)%string
                   | _ => False
                   end
    | inr (u, p) => card_payload msg = Ok (u, p) /\ u <> []
    end.
Proof.
  intros [Hf Hp]. destruct msg as [part|what|]; [|eexists; by split; [apply posts_no_parts|]|done].
  specialize (Hp part eq_refl). unfold card_payload.
  destruct (part "Position"%string) as [|b l] eqn:Ep; [eexists; split; [by apply posts_no_position|done]|].
  destruct Hp as [Hp|[v Hv]].
  - rewrite Hp. eexists. split; [apply posts_no_number; [by rewrite Ep|]|done]. intros v [Hd Hv]. rewrite Ep in Hd.
    by rewrite (stoi_decimal _ _ Hd Hv) in Hp.
  - rewrite (stoi_decimal _ _ (proj1 Hv) (proj2 Hv)). destruct (part "CardData"%string) eqn:Ec.
    + eexists. split; [eapply posts_no_card; [by rewrite Ep|done]|done].
    + exists (inr (part "CardData"%string, v)). split; [apply posts_card; [by rewrite Ep|by rewrite Ec]|by rewrite Ec].
Qed.

(** C34: A posted card is answered for the first of these that applies: 403 when
    the interface is off; 401 when the header is not the key of an enabled client
    that has not expired; 400 when the body has no parts, when its Position is
    empty, when it is no integer, when its CardData is empty, each with its
    message; and else 200: the card then becomes the last card with its
    position, and is queued once for the scripts.  A refusal leaves the last card
    and the scripts alone, and of the clients only the one whose key was
    recognised changes, in its last access.  A Position of an integer followed
    by other text, or after blanks, is left out: [position_with_tail]. *)
Theorem card_input_exact header msg now1 now2 g : table_ok (clients g) -> plain_position msg ->
  let r := (card_input header msg now1 now2 g).1 in
  let g' := (card_input header msg now1 now2 g).2 in
  let known := admitted header now1 (clients g) in
  (code r <> 200 -> cache g' = cache g /\ events g' = events g) /\
  (card_api_enabled g = false -> r = card_refusal 403 "Card Reader Client API is disabled" /\ clients g' = clients g) /\
  (card_api_enabled g = true -> (forall c, ~ known c) -> r = card_refusal 401 "Invalid API-Key" /\ clients g' = clients g) /\
  (card_api_enabled g = true -> forall c, known c -> exists answer t, posts msg answer /\ clients g = Some t /\
     clients g' = Some (update_rows (id c) (set_row_access now1) t) /\
     match answer with
     | inl error => r = card_refusal 400 error
     | inr (u, p) => r = success [("message"%string, jstring "Card Accepted")] /\
         cache g' = Some (mkEntry u p now2) /\ events g' = events g ++ (if has_lua g then [u] else [])
     end).
Proof.
  intros Hok Hp. cbn zeta. unfold card_input. destruct (card_api_enabled g) eqn:Eapi; cbn [negb]; [|by cbn; split_and!].
  destruct (Authenticate (TrimWhitespace header) now1 (clients g)) as [[c'|] m] eqn:Ea.
  - apply authenticated_row in Ea as (c & Hin & Hne & Hk & Hv & -> & t & Et & ->); [|done].
    apply valid_at_iff in Hv as [Hen Hexp]. assert (admitted header now1 (clients g) c) as Hadm by (split_and!; done).
    assert (forall c1, admitted header now1 (clients g) c1 -> c1 = c) as Huniq.
    { intros c1 (Hin1 & _ & Hk1 & _). destruct Hok as (_ & Hkeys & _). rewrite Et in *. cbn in *.
      pose proof (proj2 (row_with_key_iff t _ c Hkeys) (conj Hin Hk)) as E.
      pose proof (proj2 (row_with_key_iff t _ c1 Hkeys) (conj Hin1 Hk1)) as E1. congruence. }
    destruct (payload_posts msg Hp) as (answer & Hposts & Ha). cbn zeta.
    destruct answer as [error|[u p]].
    + destruct (card_payload msg) as [[[|b u] p]|what|]; [subst error|done|subst error|done].
      all: cbn; split_and!; [done|done|by intros _ Hn; destruct (Hn c)|]; intros _ c1 H1; rewrite (Huniq c1 H1); by eexists _, t.
    + destruct Ha as [-> Hu]. destruct u as [|b u]; [done|]. cbn [has_lua set_cache set_clients].
      destruct (has_lua g) eqn:El; cbn; rewrite ?El; (split_and!; [done|done|by intros _ Hn; destruct (Hn c)|]);
        intros _ c1 H1; rewrite (Huniq c1 H1); exists (inr (b :: u, p)), t; rewrite ?app_nil_r; by split_and!.
  - destruct (Authenticate_none (TrimWhitespace header) now1 (clients g) Hok) as [Hm Hno]; [by rewrite Ea|].
    rewrite Ea in Hm. cbn in Hm. subst m. cbn. split_and!; [done|done|done|]. intros _ c (Hin & Hne & Hk & Hv).
    destruct (Hno c). split_and!; try done. by apply valid_at_iff.
Qed.

(** ** Revocation *)

Lemma serve_ok rs : forall g, table_ok (clients g) -> table_ok (clients (foldl serve g rs)).
Proof. induction rs as [|r rs IH]; intros g H; [done|]. cbn [foldl]. apply IH. by apply (e_ok _ _ _ _ (serve_evolves g r)). Qed.

(** No row has this id, nor will a new one get it. *)
Definition gone (i : Z) (m : CardClientManager) : Prop := i < next_id m /\ forall c, c ∈ row_list m -> id c <> i.

Lemma gone_stays i rs : forall g, gone i (clients g) -> gone i (clients (foldl serve g rs)).
Proof.
  induction rs as [|r rs IH]; intros g H; [done|]. cbn [foldl]. apply IH. destruct H as [Hn Hs].
  destruct (serve_evolves g r) as [_ H2 H3]. split; [lia|]. intros c Hc Hi. destruct (H3 c Hc) as [(c0 & Hc0 & Hid & _)|[Hnew _]]; [|lia].
  apply (Hs c0 Hc0). congruence.
Qed.

(** No enabled row has this key, nor will a request that is neither the row's
    enabling nor a creation under the same key make one. *)
Definition barred (i : Z) (key : list Z) (m : CardClientManager) : Prop :=
  forall c, c ∈ row_list m -> api_key c = key -> id c = i /\ enabled c = false.

Lemma barred_stays i key rs : Forall (fun r => enables r <> Some i /\ creates r <> Some key) rs ->
  forall g, barred i key (clients g) -> barred i key (clients (foldl serve g rs)).
Proof.
  induction 1 as [|r rs [Hr Hc] _ IH]; intros g H; [done|]. cbn [foldl]. apply IH. intros c Hin Hk.
  destruct (e_row _ _ _ _ (serve_evolves g r) c Hin) as [(c0 & Hc0 & Hid & Hk0 & He)|[_ Hnew]]; [|congruence].
  destruct (H c0 Hc0 ltac:(congruence)) as [Hi0 He0]. split; [congruence|].
  destruct (enabled c); [|done]. destruct (He eq_refl); [congruence|]. by rewrite Hi0 in *.
Qed.

(** No row has this key, nor will a request make one that is not a creation
    under the same key. *)
Lemma forgotten_stays key rs : Forall (fun r => creates r <> Some key) rs ->
  forall g, (forall c, c ∈ row_list (clients g) -> api_key c <> key) -> forall c, c ∈ row_list (clients (foldl serve g rs)) -> api_key c <> key.
Proof.
  induction 1 as [|r rs Hc _ IH]; intros g H; [done|]. cbn [foldl]. apply IH. intros c Hin.
  destruct (e_row _ _ _ _ (serve_evolves g r) c Hin) as [(c0 & Hc0 & _ & -> & _)|[_ Hnew]]; [by apply H|congruence].
Qed.

Definition turned_away (answer : response * Cards) (g : Cards) : Prop :=
  (code answer.1 = 401 \/ code answer.1 = 403) /\ cache answer.2 = cache g /\ events answer.2 = events g.

(** A key of no enabled row is turned away. *)
Lemma key_turned_away header msg now1 now2 g : (forall c, c ∈ row_list (clients g) -> api_key c = c_str (TrimWhitespace header) -> enabled c = false) ->
  turned_away (card_input header msg now1 now2 g) g.
Proof.
  intros H. unfold turned_away, card_input. destruct (card_api_enabled g); cbn [negb]; [|by split_and!; [right|..]].
  assert ((Authenticate (TrimWhitespace header) now1 (clients g)).1 = None) as Ea.
  { unfold Authenticate. destruct (clients g) as [t|]; [|done]. destruct (TrimWhitespace header) as [|b k] eqn:Et; [done|].
    destruct (row_with_key t (c_str (b :: k))) as [c|] eqn:E; [|done]. apply find_some in E as [Hin Hk%bool_decide_eq_true].
    unfold valid_at. rewrite (H c); [done|by apply list_elem_of_In|done]. }
  destruct (Authenticate _ _ _) as [[c|] m]; [done|]. by split_and!; [left|..].
Qed.

(** C35: The key of a client that was disabled or deleted posts no card.  After
    a client is disabled, whatever requests follow as long as none enables it
    again or creates a client under the same key, every post with its key is
    answered 401 - 403 when the interface is off - and leaves the last card and
    the scripts alone; after it is deleted the same holds even if requests to
    enable it follow, and its id is not given to another. *)
Theorem revoked_clients_stay_out g c0 rs header msg now1 now2 :
  table_ok (clients g) -> c0 ∈ row_list (clients g) -> c_str (TrimWhitespace header) = api_key c0 ->
  Forall (fun r => creates r <> Some (api_key c0)) rs ->
  (let g' := foldl serve g (RDisable (id c0) :: rs) in
   Forall (fun r => enables r <> Some (id c0)) rs -> turned_away (card_input header msg now1 now2 g') g') /\
  (let g' := foldl serve g (RDelete (id c0) :: rs) in
   turned_away (card_input header msg now1 now2 g') g' /\ forall c, c ∈ row_list (clients g') -> id c <> id c0).
Proof.
  intros (Hids & Hkeys & Hnext) Hc0 Hk Hrs. destruct (clients g) as [t|] eqn:E; cbn in Hc0; [|by apply elem_of_nil in Hc0].
  assert (id c0 < next t) as Hlt by (rewrite Forall_forall in Hnext; by apply Hnext).
  cbn [row_list] in Hids, Hkeys.
  assert (forall c, c ∈ rows t -> api_key c = api_key c0 -> c = c0) as Hone.
  { intros c Hin Hc. pose proof (proj2 (row_with_key_iff t _ c Hkeys) (conj Hin Hc)). 
    pose proof (proj2 (row_with_key_iff t _ c0 Hkeys) (conj Hc0 eq_refl)). congruence. }
  cbn zeta. cbn [foldl serve]. unfold client_enable, client_delete. rewrite E. cbn [SetEnabled DeleteClient snd fst]. split.
  - intros Hen. apply key_turned_away. intros c Hin Hc. rewrite Hk in Hc. set (g1 := set_clients _ g) in *.
    refine (proj2 (barred_stays (id c0) (api_key c0) rs _ g1 _ c Hin Hc)).
    + rewrite Forall_forall in *. by auto.
    + intros c1 Hc1 Hk1. cbn in Hc1. apply list_elem_of_fmap in Hc1 as (c2 & -> & Hc2).
      assert (c2 = c0) as ->; [|by rewrite Z.eqb_refl]. apply Hone; [done|]. by destruct (id c2 =? id c0).
  - set (g1 := set_clients _ g) in *. split.
    + apply key_turned_away. intros c Hin Hc. rewrite Hk in Hc. exfalso. revert Hc. apply (forgotten_stays (api_key c0) rs Hrs g1); [|done].
      intros c1 Hc1 Hk1. cbn in Hc1. apply elem_of_list_filter' in Hc1 as [Hc1 Hn]. rewrite (Hone c1 Hc1 Hk1), Z.eqb_refl in Hn. done.
    + apply (gone_stays (id c0) rs g1). split; [done|]. cbn. intros c1 Hc1. apply elem_of_list_filter' in Hc1 as [_ Hc1].
      by destruct (Z.eqb_spec (id c1) (id c0)).
Qed.
End Routes.

(** ** Examples *)

Definition demo_key : list Z := GenerateApiKey [1; 2; 3; 2 ^ 63].
Definition demo_clients : CardClientManager := (CreateClient (b! "gate") 0 [1; 2; 3; 2 ^ 63] 100 (Some (mkTable [] 1))).2.
Definition demo_cards : Cards := mkCards true demo_clients None true [].
Definition card_parts (position : list Z) : Multipart :=
  Ok (fun part => if String.eqb part "CardData" then b! "0455" else if String.eqb part "Position" then position else []).
Definition demo_post (position : list Z) : response * Cards :=
  card_input (J := jtree_json) "stoi" (b! " " ++ demo_key) (card_parts position) 101 102 demo_cards.
Definition no_json : list Z -> res jtree := fun _ => Err "parse error".

Lemma demo_table : table_ok demo_clients.
Proof. split_and!; by apply (bool_decide_unpack _); vm_compute. Qed.

Lemma demo_position : plain_position (card_parts (b! "-2")).
Proof.
  split; [done|]. intros part [= <-]. right. exists (- 2). split; [|lia]. exists [45], [50]. split_and!; [done|done|by repeat constructor|by right].
Qed.

Lemma demo_admitted : admitted (b! " " ++ demo_key) 101 (clients demo_cards) (mkClient 1 (b! "gate") demo_key true 100 0 0).
Proof. split_and!; [by left|by vm_compute|vm_compute; reflexivity|done|by left]. Qed.

Lemma card_input_exact_witness : exists answer, posts "stoi" (card_parts (b! "-2")) answer /\
  code (demo_post (b! "-2")).1 = 200 /\ cache (demo_post (b! "-2")).2 = Some (mkEntry (b! "0455") (- 2) 102).
Proof.
  destruct (card_input_exact (J := jtree_json) "stoi" (b! " " ++ demo_key) (card_parts (b! "-2")) 101 102 demo_cards demo_table demo_position)
    as (_ & _ & _ & H).
  destruct (H eq_refl _ demo_admitted) as (answer & t & Hp & _ & _ & _). exists answer. split; [exact Hp|]. split; vm_compute; reflexivity.
Defined.

Lemma revoked_clients_stay_out_witness :
  let g := foldl (serve (J := jtree_json) "stoi" no_json) demo_cards [RDelete 1; REnable 1; RCreate [] [7; 7; 7; 7] 150] in
  turned_away (card_input (J := jtree_json) "stoi" demo_key (card_parts (b! "2")) 200 201 g) g.
Proof.
  set (c0 := mkClient 1 (b! "gate") demo_key true 100 0 0). assert (c0 ∈ row_list (clients demo_cards)) as Hin by (by left).
  refine (proj1 (proj2 (revoked_clients_stay_out (J := jtree_json) "stoi" no_json demo_cards c0 [REnable 1; RCreate [] [7; 7; 7; 7] 150]
    demo_key (card_parts (b! "2")) 200 201 demo_table Hin _ _))).
  - vm_compute. reflexivity.
  - repeat constructor; vm_compute; discriminate.
Defined.

(** ** What modelling showed *)

(** The position is read as [std::stoi] reads it: what follows the digits, and
    blanks before them, pass. *)
Example position_with_tail :
  (fun p => (code p.1, position <$> cache p.2)) (demo_post (b! " 2nd")) = (200, Some 2).
Proof. vm_compute. reflexivity. Qed.
