(* ===== verification/LogStore.v ===== *)
(** * Structured logs (src/LogStore.cpp)

    Log types and entries in tables of SQLite.  The connection has the
    committed database and, inside a transaction, a working copy; whether a
    statement succeeds is the environment's.  Texts are bytes, bound as C
    strings; the columns are compared as SQLite compares them, a DATETIME with the number a
    bound reads as.  The clock's
    text is an argument. *)

From stdpp Require Import sorting.
From S2P Require Import Prelude Words Text Json JsonFile WebReply CardClients.

(** ** Values and their declared types *)

Definition IsKnownFieldType (type : string) : bool :=
  String.eqb type "string" || String.eqb type "integer" || String.eqb type "number" || String.eqb type "boolean".

(** What [strtoll] and [strtod] leave of a C string; the whole of it when they
    convert nothing. *)
Definition strtoll_rest (text : list Z) : list Z :=
  let t := skip_spaces text in
  let t := match t with c :: rest => if (c =? 43) || (c =? 45) then rest else t | [] => [] end in
  match span_while is_digit t with
  | ([], _) => text
  | (_, rest) => rest
  end.

Definition is_xdigit (b : Z) : bool := is_digit b || ((97 <=? b) && (b <=? 102)) || ((65 <=? b) && (b <=? 70)).

(** Digits with a point somewhere: what follows them, when there is a digit. *)
Definition mantissa_rest (digit : Z -> bool) (text : list Z) : option (list Z) :=
  let '(whole, rest) := span_while digit text in
  match rest with
  | 46 :: after =>
      let '(fraction, rest') := span_while digit after in
      match whole, fraction with [], [] => None | _, _ => Some rest' end
  | _ => match whole with [] => None | _ => Some rest end
  end.

(** An exponent is taken when it has a digit. *)
Definition exponent_rest (mark : Z) (text : list Z) : list Z :=
  match text with
  | c :: rest =>
      if tolower c =? mark then
        let after := match rest with s :: rest' => if (s =? 43) || (s =? 45) then rest' else rest | [] => [] end in
        match span_while is_digit after with
        | ([], _) => text
        | (_, rest') => rest'
        end
      else text
  | [] => []
  end.

Definition starts_with_any_case (word text : list Z) : bool := starts_with word (map tolower text).

Definition strtod_rest (text : list Z) : list Z :=
  let t := skip_spaces text in
  let t := match t with c :: rest => if (c =? 43) || (c =? 45) then rest else t | [] => [] end in
  if starts_with_any_case (b! "infinity") t then drop 8 t
  else if starts_with_any_case (b! "inf") t then drop 3 t
  else if starts_with_any_case (b! "nan") t then
    match drop 3 t with
    | 40 :: after =>
        let '(_, rest) := span_while (fun c => is_alnum c || (c =? 95)) after in
        match rest with 41 :: rest' => rest' | _ => drop 3 t end
    | rest => rest
    end
  else if starts_with_any_case (b! "0x") t then
    match mantissa_rest is_xdigit (drop 2 t) with
    | Some rest => exponent_rest 112 rest
    | None => drop 1 t
    end
  else match mantissa_rest is_digit t with
  | Some rest => exponent_rest 101 rest
  | None => text
  end.

(** The error, or that the value is of its type. *)
Definition ValueMatchesType (type : string) (value : list Z) : res unit :=
  if String.eqb type "string" then Ok tt
  else if String.eqb type "boolean" then
    let v := map toupper value in
    if bool_decide (v = b! "TRUE") || bool_decide (v = b! "FALSE") || bool_decide (v = b! "1") || bool_decide (v = b! "0")
    then Ok tt else Err ("expected a boolean, got " ++ text_of (34 :: value ++ [34]))
  else match value with
  | [] => Err ("expected " ++ type ++ ", got an empty value")
  | _ =>
      match (if String.eqb type "integer" then strtoll_rest (c_str value) else strtod_rest (c_str value)) with
      | [] => Ok tt
      | _ => Err ("expected " ++ type ++ ", got " ++ text_of (34 :: value ++ [34]))
      end
  end.

Example numbers_that_pass :
  map (fun v => ValueMatchesType "number" v) [b! "12"; b! " -1.5e3"; b! "nan"; b! "0x1F"; b! ".5"; b! "INFINITY"] = replicate 6 (Ok tt) /\
  ValueMatchesType "integer" (b! "12abc") <> Ok tt /\ ValueMatchesType "number" (b! "1e") <> Ok tt.
Proof. by split_and!; vm_compute. Qed.

(** ** Searching *)

Definition EscapeLike (term : list Z) : list Z :=
  concat (map (fun c => if (c =? 37) || (c =? 95) || (c =? 92) then [92; c] else [c]) term).

(** A pattern of LIKE with the escape character [92]. *)
Inductive like_item := LikeByte (b : Z) | LikeOne | LikeMany.

Fixpoint like_items (pattern : list Z) : list like_item :=
  match pattern with
  | [] => []
  | c :: rest =>
      if c =? 92 then match rest with e :: rest' => LikeByte e :: like_items rest' | [] => [LikeByte c] end
      else (if c =? 37 then LikeMany else if c =? 95 then LikeOne else LikeByte c) :: like_items rest
  end.

(** [many]: the rest of the pattern at every suffix of the text. *)
Fixpoint at_some_suffix (p : list Z -> bool) (text : list Z) : bool :=
  p text || match text with [] => false | _ :: rest => at_some_suffix p rest end.

Fixpoint like_match (items : list like_item) (text : list Z) : bool :=
  match items with
  | [] => match text with [] => true | _ => false end
  | LikeByte b :: items' => match text with c :: rest => (tolower b =? tolower c) && like_match items' rest | [] => false end
  | LikeOne :: items' => match text with _ :: rest => like_match items' rest | [] => false end
  | LikeMany :: items' => at_some_suffix (like_match items') text
  end.

(** Of UTF-8 texts: SQLite compares characters, and two of them are the same
    exactly when their bytes are. *)
Definition like (pattern text : list Z) : bool := like_match (like_items pattern) text.

(** The text is a literal of an integer or a real number, with spaces around
    it: a column of NUMERIC affinity compares it as that number. *)
Definition sqlite_number (text : list Z) : bool :=
  let t := skip_spaces text in
  let t := match t with c :: rest => if (c =? 43) || (c =? 45) then rest else t | [] => [] end in
  match mantissa_rest is_digit t with
  | Some rest => bool_decide (skip_spaces (exponent_rest 101 rest) = [])
  | None => false
  end.

(** [timestamp] is declared DATETIME, which has that affinity.  The times of the
    entries are texts - the clock's have dashes - and a number is below every
    text; texts are compared by their bytes. *)
Definition bound_leb (bound time : list Z) : bool := sqlite_number bound || lex_leb bound time.
Definition time_leb (time bound : list Z) : bool := negb (sqlite_number bound) && lex_leb time bound.

(** ** Tables *)

Record LogFieldDef := mkField { f_name : string; f_type : string; f_required : bool }.
Record LogTypeDef := mkType { t_type : string; t_description : string; t_fields : list LogFieldDef }.

Definition Find (name : list Z) (def : LogTypeDef) : option LogFieldDef :=
  List.find (fun f => bool_decide (bytes_of (f_name f) = name)) (t_fields def).

Record DefinitionRow := mkDefinition { d_type : list Z; d_description : list Z; d_json : list Z }.
Record EntryRow := mkEntry { e_id : Z; e_type : list Z; e_script : list Z; e_level : list Z; e_time : list Z }.
Record ValueRow := mkValue { v_log : Z; v_name : list Z; v_value : list Z }.

(** [next]: the AUTOINCREMENT sequence of the entries. *)
Record LogDb := mkDb { def_rows : list DefinitionRow; entries : list EntryRow; values : list ValueRow; next : Z }.
Definition empty_db : LogDb := mkDb [] [] [] 1.

(** The connection; [working] inside a transaction. *)
Record Connection := mkConnection { committed : LogDb; working : option LogDb }.
Definition visible (c : Connection) : LogDb := match working c with Some db => db | None => committed c end.
Definition change (f : LogDb -> LogDb) (c : Connection) : Connection :=
  match working c with
  | Some db => mkConnection (committed c) (Some (f db))
  | None => mkConnection (f (committed c)) None
  end.

(** [definitions_] is a [std::map]: its values in the order of their keys. *)
Record LogStore := mkStore { db_ : option Connection; definitions_ : list LogTypeDef }.
Definition closed_store : LogStore := mkStore None [].

Fixpoint put_definition (def : LogTypeDef) (l : list LogTypeDef) : list LogTypeDef :=
  match l with
  | [] => [def]
  | d :: rest =>
      if String.eqb (t_type d) (t_type def) then def :: rest
      else if lex_leb (bytes_of (t_type def)) (bytes_of (t_type d)) then def :: l
      else d :: put_definition def rest
  end.

Definition find_definition (type : list Z) (l : list LogTypeDef) : option LogTypeDef :=
  List.find (fun d => bool_decide (bytes_of (t_type d) = type)) l.

Section LogStore.
Context {J : JsonLib} {F : JsonFiles}.

(** ** Definitions *)

(** [None]: a member of another type, or a value that is no object, throws. *)
Definition field_def (field : json) : option LogFieldDef :=
  match value_string field "name" "", value_string field "type" "string" with
  | Some name, Some type =>
      match view field with
      | JObject l => match field_bool l "required" false with Some required => Some (mkField name type required) | None => None end
      | _ => None
      end
  | _, _ => None
  end.

(** The items of an array, or nothing. *)
Definition items_of (j : json) : list json := match view j with JArray l => l | _ => [] end.

Fixpoint stored_fields (fields : list json) : option (list LogFieldDef) :=
  match fields with
  | [] => Some []
  | field :: rest =>
      match field_def field, stored_fields rest with
      | Some f, Some fs => Some (if String.eqb (f_name f) "" then fs else f :: fs)
      | _, _ => None
      end
  end.

(** The definition in a row, [None] when its JSON is not what it should be. *)
Definition stored_definition (row : DefinitionRow) : option LogTypeDef :=
  match parse_text (d_json row) with
  | None => None
  | Some j => match stored_fields (items_of j) with
              | Some fields => Some (mkType (text_of (d_type row)) (text_of (d_description row)) fields)
              | None => None
              end
  end.

Definition LoadDefinitionsFromDbUnlocked (rows : list DefinitionRow) : list LogTypeDef :=
  foldl (fun l row => match stored_definition row with Some def => put_definition def l | None => l end) [] rows.

(** [file]: the database on disk, [None] when it cannot be opened; [schema]:
    whether the schema statement succeeded. *)
Definition Load (st : LogStore) (file : option LogDb) (schema : bool) : bool * LogStore :=
  match file with
  | None => (false, st)
  | Some db =>
      let st := mkStore (Some (mkConnection db None)) (definitions_ st) in
      if negb schema then (false, st)
      else (true, mkStore (db_ st) (LoadDefinitionsFromDbUnlocked (def_rows db)))
  end.

Definition StoreOpen (st : LogStore) : bool := match db_ st with Some _ => true | None => false end.

Definition fields_json (fields : list LogFieldDef) : json :=
  jlist (map (fun f => object [("name"%string, jstring (f_name f)); ("type"%string, jstring (f_type f));
                               ("required"%string, jbool (f_required f))]) fields).

(** INSERT ... ON CONFLICT(log_type) DO UPDATE. *)
Fixpoint upsert_row (row : DefinitionRow) (rows : list DefinitionRow) : list DefinitionRow :=
  match rows with
  | [] => [row]
  | r :: rest => if bool_decide (d_type r = d_type row) then row :: rest else r :: upsert_row row rest
  end.

(** [ok]: whether the statement succeeded. *)
Definition UpsertDefinitionUnlocked (def : LogTypeDef) (ok : bool) (c : Connection) (defs : list LogTypeDef)
  : res (bool * (Connection * list LogTypeDef)) :=
  match dump_text (fields_json (t_fields def)) with
  | None => Err "type_error"
  | Some text =>
      let row := mkDefinition (c_str (bytes_of (t_type def))) (c_str (bytes_of (t_description def))) (c_str text) in
      if ok then Ok (true, (change (fun db => mkDb (upsert_row row (def_rows db)) (entries db) (values db) (next db)) c, put_definition def defs))
      else Ok (false, (c, defs))
  end.

Definition DefineType (def : LogTypeDef) (ok : bool) (st : LogStore) : res (bool * LogStore) :=
  match db_ st with
  | None => Ok (false, st)
  | Some c =>
      '(done, (c', defs)) ← UpsertDefinitionUnlocked def ok c (definitions_ st);
      Ok (done, mkStore (Some c') defs)
  end.

(** A definition of the file: [None] throws, [Some None] is skipped. *)
Fixpoint file_fields (fields : list json) : option (option (list LogFieldDef)) :=
  match fields with
  | [] => Some (Some [])
  | field :: rest =>
      match field_def field with
      | None => None
      | Some f =>
          if String.eqb (f_name f) "" || negb (IsKnownFieldType (f_type f)) then Some None
          else match file_fields rest with
               | Some (Some fs) => Some (Some (f :: fs))
               | other => other
               end
      end
  end.

Definition file_definition (item : json) : option (option LogTypeDef) :=
  match view item with
  | JObject l =>
      match field_string l "type" "", field_string l "description" "" with
      | Some type, Some description =>
          if String.eqb type "" then Some None
          else match file_fields (match Json.member l "fields" with Some x => items_of x | None => [] end) with
               | None => None
               | Some None => Some None
               | Some (Some fields) => Some (Some (mkType type description fields))
               end
      | _, _ => None
      end
  | _ => Some None
  end.

(** The definitions are stored one by one: those before an exception stay.
    The second result is whether the call returned. *)
Fixpoint load_items (items : list json) (oks : list bool) (c : Connection) (defs : list LogTypeDef) : bool * (Connection * list LogTypeDef) :=
  match items with
  | [] => (true, (c, defs))
  | item :: rest =>
      match file_definition item with
      | None => (false, (c, defs))
      | Some None => load_items rest oks c defs
      | Some (Some def) =>
          match UpsertDefinitionUnlocked def (hd true oks) c defs with
          | Ok (_, (c', defs')) => load_items rest (tl oks) c' defs'
          | _ => (false, (c, defs))
          end
      end
  end.

Definition log_items (root : json) : option (list json) :=
  match view root with
  | JObject l => match Json.member l "logs" with
                 | Some x => match view x with JArray items => Some items | _ => None end
                 | None => None
                 end
  | JArray items => Some items
  | _ => None
  end.

(** [file]: the contents, when it opens.  [Err]: an exception left the call. *)
Definition LoadDefinitions (file : option (list Z)) (oks : list bool) (st : LogStore) : res bool * LogStore :=
  match file with
  | None => (Ok false, st)
  | Some bytes =>
      match read_json bytes with
      | None => (Ok false, st)
      | Some root =>
          match log_items root with
          | None => (Ok false, st)
          | Some items =>
              match db_ st with
              | None => (Ok false, st)
              | Some c =>
                  let '(returned, (c', defs)) := load_items items oks c (definitions_ st) in
                  (if returned then Ok true else Err "type_error", mkStore (Some c') defs)
              end
          end
      end
  end.

Definition Definitions (st : LogStore) : list LogTypeDef := definitions_ st.
Definition FindDefinition (type : list Z) (st : LogStore) : option LogTypeDef := find_definition type (definitions_ st).

(** ** Writing *)

(** The fields are a [std::map]: sorted, no name twice. *)
Fixpoint check_fields (logType : list Z) (def : LogTypeDef) (fields : list (list Z * list Z)) : res unit :=
  match fields with
  | [] => Ok tt
  | (name, value) :: rest =>
      match Find name def with
      | None => Err ("log type " ++ text_of (34 :: logType ++ [34]) ++ " has no field " ++ text_of (34 :: name ++ [34]))
      | Some f =>
          match ValueMatchesType (f_type f) value with
          | Ok _ => check_fields logType def rest
          | Err e => Err ("field " ++ text_of (34 :: name ++ [34]) ++ ": " ++ e)
          | Fault => Fault
          end
      end
  end.

Definition field_value (fields : list (list Z * list Z)) (name : list Z) : list Z :=
  match List.find (fun f => bool_decide (f.1 = name)) fields with Some (_, value) => value | None => [] end.

Fixpoint check_required (logType : list Z) (required : list LogFieldDef) (fields : list (list Z * list Z)) : res unit :=
  match required with
  | [] => Ok tt
  | f :: rest =>
      if f_required f then
        match field_value fields (bytes_of (f_name f)) with
        | [] => Err ("log type " ++ text_of (34 :: logType ++ [34]) ++ " requires field " ++ text_of (34 :: bytes_of (f_name f) ++ [34]))
        | _ => check_required logType rest fields
        end
      else check_required logType rest fields
  end.

Inductive commit_outcome := Committed | RolledBack | StillOpen.
Record log_outcome := mkOutcome { begins : bool; entry_inserted : bool; values_inserted : list bool; commits : commit_outcome }.

Definition insert_entry (logType script level now : list Z) (db : LogDb) : LogDb :=
  mkDb (def_rows db) (entries db ++ [mkEntry (next db) (c_str logType) (c_str script) (c_str level) now]) (values db) (next db + 1).

Definition insert_value (logId : Z) (f : list Z * list Z) (db : LogDb) : LogDb :=
  mkDb (def_rows db) (entries db) (values db ++ [mkValue logId (c_str f.1) (c_str f.2)]) (next db).

(** The values that were inserted, and whether all were. *)
Fixpoint insert_values (logId : Z) (fields : list (list Z * list Z)) (oks : list bool) (db : LogDb) : bool * LogDb :=
  match fields with
  | [] => (true, db)
  | f :: rest => if hd true oks then insert_values logId rest (tl oks) (insert_value logId f db) else (false, db)
  end.

Definition stored_level (level : list Z) : list Z := match level with [] => b! "INFO" | _ => map toupper level end.

Definition Write (o : log_outcome) (now logType script level : list Z) (fields : list (list Z * list Z)) (st : LogStore) : res unit * LogStore :=
  match db_ st with
  | None => (Err "log store is not open", st)
  | Some c =>
      match find_definition logType (definitions_ st) with
      | None => (Err ("unknown log type " ++ text_of (34 :: logType ++ [34])), st)
      | Some def =>
          match check_fields logType def fields with
          | Ok _ =>
              match check_required logType (t_fields def) fields with
              | Ok _ =>
                  match working c with
                  | Some _ => (Err "failed to begin transaction", st)
                  | None =>
                      if negb (begins o) then (Err "failed to begin transaction", st)
                      else if negb (entry_inserted o) then (Err "insert failed", st)
                      else
                        let db := insert_entry logType script (stored_level level) now (committed c) in
                        let '(ok, db) := insert_values (next (committed c)) fields (values_inserted o) db in
                        if negb ok then (Err "insert failed", st)
                        else (Ok tt, mkStore (Some match commits o with
                                                   | Committed => mkConnection db None
                                                   | RolledBack => c
                                                   | StillOpen => mkConnection (committed c) (Some db)
                                                   end) (definitions_ st))
                  end
              | e => (e, st)
              end
          | e => (e, st)
          end
      end
  end.

(** ** Reading *)

Record LogQuery := mkQuery {
  q_types : list (list Z); q_level : list Z; q_script : list Z; q_keyword : list Z; q_from : list Z; q_to : list Z; q_limit : Z; q_offset : Z
}.

Definition upper_bound (to : list Z) : list Z := if (length to =? 16)%nat then to ++ b! ":59" else to.

(** The WHERE clause. *)
Definition selects (q : LogQuery) (db : LogDb) (e : EntryRow) : bool :=
  (match q_types q with [] => true | _ => existsb (fun t => bool_decide (c_str t = e_type e)) (q_types q) end) &&
  (match q_level q with
   | [] => true
   | _ => bool_decide (q_level q = b! "all") || bool_decide (e_level e = c_str (map toupper (q_level q)))
   end) &&
  (match q_script q with [] => true | _ => bool_decide (e_script e = c_str (q_script q)) end) &&
  (match q_from q with [] => true | _ => bound_leb (c_str (q_from q)) (e_time e) end) &&
  (match q_to q with [] => true | _ => time_leb (e_time e) (c_str (upper_bound (q_to q))) end) &&
  (match q_keyword q with
   | [] => true
   | _ =>
       let pattern := c_str (37 :: EscapeLike (q_keyword q) ++ [37]) in
       like pattern (e_script e) || like pattern (e_type e) ||
       existsb (fun v => (v_log v =? e_id e) && like pattern (v_value v)) (values db)
   end).

(** ORDER BY id DESC: the rows are in the order of their ids. *)
Definition selected (q : LogQuery) (db : LogDb) : list EntryRow := rev (List.filter (selects q db) (entries db)).

Definition page_limit (limit : Z) : Z := let l := if 0 <? limit then limit else 50 in if 500 <? l then 500 else l.
Definition page_offset (offset : Z) : Z := if 0 <? offset then offset else 0.

Definition page (q : LogQuery) (db : LogDb) : list EntryRow :=
  take (Z.to_nat (page_limit (q_limit q))) (drop (Z.to_nat (page_offset (q_offset q))) (selected q db)).

(** [object[name] = value]. *)
Fixpoint assign (name : string) (x : json) (l : list (string * json)) : list (string * json) :=
  match l with
  | [] => [(name, x)]
  | (k, y) :: rest => if String.eqb k name then (k, x) :: rest else (k, y) :: assign name x rest
  end.

Definition fields_of (db : LogDb) (id : Z) : list (string * json) :=
  foldl (fun l v => assign (text_of (v_name v)) (jtext (v_value v)) l) [] (List.filter (fun v => v_log v =? id) (values db)).

Definition log_entry_json (db : LogDb) (e : EntryRow) : list (string * json) :=
  [("id"%string, jint (e_id e)); ("timestamp"%string, jtext (e_time e)); ("log_type"%string, jtext (e_type e));
   ("script_name"%string, jtext (e_script e)); ("level"%string, jtext (e_level e)); ("fields"%string, object (fields_of db (e_id e)))].

(** Total, limit, offset and the rows of the page. *)
Record QueryResult := mkResult { total : Z; r_limit : Z; r_offset : Z; rows : list EntryRow }.

Definition Query (q : LogQuery) (st : LogStore) : QueryResult :=
  match db_ st with
  | None => mkResult 0 (q_limit q) (q_offset q) []
  | Some c =>
      let db := visible c in
      mkResult (Z.of_nat (length (List.filter (selects q db) (entries db)))) (page_limit (q_limit q)) (page_offset (q_offset q)) (page q db)
  end.

Definition result_json (st : LogStore) (r : QueryResult) : json :=
  object [("total"%string, jint (total r)); ("limit"%string, jint (r_limit r)); ("offset"%string, jint (r_offset r));
          ("entries"%string, jlist (match db_ st with Some c => map (fun e => object (log_entry_json (visible c) e)) (rows r) | None => [] end))].

Definition Entry (id : Z) (st : LogStore) : option json :=
  match db_ st with
  | None => None
  | Some c =>
      match List.find (fun e => e_id e =? id) (entries (visible c)) with
      | None => None
      | Some e =>
          Some (object (log_entry_json (visible c) e ++
            [("field_order"%string, jlist (match find_definition (e_type e) (definitions_ st) with
                                           | Some def => map (fun f => jstring (f_name f)) (t_fields def)
                                           | None => []
                                           end))]))
      end
  end.

(** SELECT DISTINCT ... ORDER BY. *)
Definition Scripts (st : LogStore) : list (list Z) :=
  match db_ st with
  | None => []
  | Some c => sort_by lex_leb (remove_dups
                (List.filter (fun s => negb (bool_decide (s = []))) (map e_script (entries (visible c)))))
  end.

(** [cutoff]: the text of the time so many days ago; the duration is in
    nanoseconds of 64 bits.  [del_values], [del_entries]: whether the two DELETE
    statements succeed; deleting an entry deletes its values (foreign keys are on). *)
Definition duration_overflows (days : Z) : bool := 2 ^ 63 - 1 <? 24 * days * 3600 * 1000000000.

Definition older (cutoff : list Z) (e : EntryRow) : bool := negb (bound_leb cutoff (e_time e)).

Definition delete_values (gone : list EntryRow) (db : LogDb) : LogDb :=
  mkDb (def_rows db) (entries db) (List.filter (fun v => negb (existsb (fun e => e_id e =? v_log v) gone)) (values db)) (next db).

Definition delete_entries (cutoff : list Z) (db : LogDb) : LogDb :=
  mkDb (def_rows db) (List.filter (fun e => negb (older cutoff e)) (entries db))
    (values (delete_values (List.filter (older cutoff) (entries db)) db)) (next db).

Definition PruneOlderThan (cutoff : Z -> list Z) (days : Z) (del_values del_entries : bool) (st : LogStore) : res (Z * LogStore) :=
  if days <=? 0 then Ok (0, st)
  else match db_ st with
  | None => Ok (0, st)
  | Some c =>
      if duration_overflows days then Fault
      else
        let gone := List.filter (older (cutoff days)) (entries (visible c)) in
        let c := if del_values then change (delete_values gone) c else c in
        let '(removed, c) := if del_entries then (Z.of_nat (length gone), change (delete_entries (cutoff days)) c) else (0, c) in
        Ok (removed, mkStore (Some c) (definitions_ st))
  end.

Definition Count (st : LogStore) : Z := match db_ st with Some c => Z.of_nat (length (entries (visible c))) | None => 0 end.
End LogStore.

(** ** The log routes of the web server (src/WebServer.cpp) *)

(** The parameters of a search: every value of [type], and the others, [None]
    when they are not given. *)
Record LogParams := mkParams {
  p_types : list (list Z); p_level : option (list Z); p_script : option (list Z); p_keyword : option (list Z);
  p_from : option (list Z); p_to : option (list Z); p_limit : option (list Z); p_offset : option (list Z)
}.

Definition query_types (values : list (list Z)) : list (list Z) :=
  List.filter (fun t => negb (bool_decide (t = [])) && negb (bool_decide (t = b! "all")))
    (map TrimWhitespace (concat (map (split_on 44) values))).

(** The first T becomes a space. *)
Definition normalise (value : list Z) : list Z :=
  match until 84 value with
  | (front, _ :: rest) => front ++ 32 :: rest
  | (front, []) => front
  end.

Definition structured_query (p : LogParams) : LogQuery :=
  let param := fun x => match x with Some v => TrimWhitespace v | None => [] end in
  mkQuery (query_types (p_types p)) (param (p_level p)) (param (p_script p)) (param (p_keyword p))
    (normalise (param (p_from p))) (normalise (param (p_to p)))
    (match p_limit p with Some v => atoi v | None => 50 end) (match p_offset p with Some v => atoi v | None => 0 end).

Section LogRoutes.
Context {J : JsonLib} {F : JsonFiles}.

Definition logs_definitions (st : LogStore) : response :=
  mkResponse 200 (object [
    ("types"%string, jlist (map (fun d => object [("type"%string, jstring (t_type d)); ("description"%string, jstring (t_description d));
                                                  ("fields"%string, fields_json (t_fields d))]) (Definitions st)));
    ("scripts"%string, jlist (map jtext (Scripts st))); ("total_entries"%string, jint (Count st)); ("available"%string, jbool (StoreOpen st))]).

Definition logs_structured (p : LogParams) (st : LogStore) : response := mkResponse 200 (result_json st (Query (structured_query p) st)).

Definition logs_entry (id : Z) (st : LogStore) : response :=
  match Entry id st with
  | None => mkResponse 404 (object [("error"%string, jstring "no such log entry")])
  | Some entry => mkResponse 200 entry
  end.
End LogRoutes.

(** ** A keyword is searched for as it is *)

Definition no_nul (text : list Z) : Prop := 0 ∉ text.

(** Found in the text, whatever the case of its ASCII letters. *)
Definition found_in (keyword text : list Z) : Prop := exists a b, map tolower text = a ++ map tolower keyword ++ b.

Lemma c_str_id text : no_nul text -> c_str text = text.
Proof.
  intros H. unfold c_str. pose proof (until_unique 0 text [] H ltac:(by left)) as Hu. rewrite app_nil_r in Hu. by rewrite Hu.
Qed.

Lemma EscapeLike_no_nul keyword : no_nul keyword -> no_nul (EscapeLike keyword).
Proof.
  unfold no_nul, EscapeLike. induction keyword as [|c keyword IH]; intros H; [done|]. cbn [map concat].
  rewrite not_elem_of_cons in H. destruct H as [Hc H]. rewrite elem_of_app. intros [Hin|Hin]; [|by apply IH].
  destruct (_ || _); set_solver.
Qed.

Lemma like_items_escaped keyword rest : like_items (EscapeLike keyword ++ rest) = map LikeByte keyword ++ like_items rest.
Proof.
  unfold EscapeLike. induction keyword as [|c keyword IH]; [done|]. cbn [map concat]. rewrite <- app_assoc.
  destruct ((c =? 37) || (c =? 95) || (c =? 92)) eqn:E; [cbn [app like_items Z.eqb Pos.eqb]; by rewrite IH|].
  apply orb_false_iff in E as [E E3]. apply orb_false_iff in E as [E1 E2]. cbn [app like_items]. rewrite E3, E1, E2. by rewrite IH.
Qed.

Lemma at_some_suffix_iff p text : at_some_suffix p text = true <-> exists a b, text = a ++ b /\ p b = true.
Proof.
  induction text as [|c text IH]; cbn [at_some_suffix].
  - rewrite orb_false_r. split; [intros H; by exists [], []|]. intros (a & b & E & H). destruct a, b; by try done.
  - rewrite orb_true_iff, IH. split.
    + intros [H|(a & b & -> & H)]; [by exists [], (c :: text)|by exists (c :: a), b].
    + intros ([|c' a] & b & E & H); [left; cbn in E; by subst|right]. injection E as <- ->. by exists a, b.
Qed.

Lemma like_bytes keyword items text : like_match (map LikeByte keyword ++ items) text = true <->
  exists front b, text = front ++ b /\ map tolower front = map tolower keyword /\ like_match items b = true.
Proof.
  revert text. induction keyword as [|c keyword IH]; intros text; cbn [map app like_match].
  - split; [intros H; by exists [], text|]. intros (front & b & -> & E & H). by destruct front.
  - destruct text as [|d text]; [split; [done|]; intros (front & b & E & E' & _); by destruct front|].
    rewrite andb_true_iff, Z.eqb_eq, IH. split.
    + intros (E & front & b & -> & E' & H). exists (d :: front), b. cbn. by rewrite E, E'.
    + intros ([|d' front] & b & E & E' & H); [done|]. injection E as <- ->. injection E' as E1 E2. split; [done|by exists front, b].
Qed.

Lemma like_keyword keyword text : like (37 :: EscapeLike keyword ++ [37]) text = true <-> found_in keyword text.
Proof.
  unfold like. change (like_items (37 :: EscapeLike keyword ++ [37])) with (LikeMany :: like_items (EscapeLike keyword ++ [37])).
  rewrite like_items_escaped. cbn [like_match]. rewrite at_some_suffix_iff. unfold found_in. split.
  - intros (a & b & -> & H). apply like_bytes in H as (front & b' & -> & E & _). exists (map tolower a), (map tolower b').
    by rewrite !map_app, E.
  - intros (a & b & E). destruct (map_eq_app _ _ _ _ E) as (l1 & l2 & -> & <- & E2).
    destruct (map_eq_app _ _ _ _ E2) as (l3 & l4 & -> & E3 & <-). exists l1, (l3 ++ l4). split; [done|].
    apply like_bytes. exists l3, l4. split_and!; [done|done|]. change (like_items [37]) with [LikeMany]. cbn [like_match].
    apply at_some_suffix_iff. exists l4, []. by rewrite app_nil_r.
Qed.

(** ** What a search gives *)

(** Ids grow, and are below the sequence; a value belongs to an entry. *)
Definition db_ok (db : LogDb) : Prop :=
  StronglySorted (fun a b => e_id a < e_id b) (entries db) /\ Forall (fun e => e_id e < next db) (entries db) /\
  Forall (fun v => exists e, e ∈ entries db /\ e_id e = v_log v) (values db).

(** [a] is not after [b] in the order of the bytes. *)
Definition not_after (a b : list Z) : Prop := lex_leb a b = true.

(** Filters without NUL bytes, and within SQLite's limits on the length of a
    pattern and the number of parameters. *)
Definition query_ok (q : LogQuery) : Prop :=
  Z.of_nat (length (EscapeLike (q_keyword q))) + 2 <= 50000 /\ Z.of_nat (length (q_types q)) <= 900 /\
  Forall no_nul (q_types q) /\ no_nul (q_level q) /\ no_nul (q_script q) /\ no_nul (q_keyword q) /\ no_nul (q_from q) /\ no_nul (q_to q).

(** What the filters mean. *)
Definition wanted (q : LogQuery) (db : LogDb) (e : EntryRow) : Prop :=
  (q_types q = [] \/ e_type e ∈ q_types q) /\
  (q_level q = [] \/ q_level q = b! "all" \/ e_level e = map toupper (q_level q)) /\
  (q_script q = [] \/ e_script e = q_script q) /\
  (q_from q = [] \/ sqlite_number (q_from q) = true \/ not_after (q_from q) (e_time e)) /\
  (q_to q = [] \/ sqlite_number (upper_bound (q_to q)) = false /\ not_after (e_time e) (upper_bound (q_to q))) /\
  (q_keyword q = [] \/ found_in (q_keyword q) (e_script e) \/ found_in (q_keyword q) (e_type e) \/
   exists v, v ∈ values db /\ v_log v = e_id e /\ found_in (q_keyword q) (v_value v)).

Lemma no_nul_toupper text : no_nul text -> no_nul (map toupper text).
Proof.
  unfold no_nul. intros H (c & E & Hc)%list_elem_of_fmap. apply H. assert (c = 0) as <- by (unfold toupper in E; destruct (_ && _) eqn:Eb; lia). done.
Qed.

Lemma no_nul_upper to : no_nul to -> no_nul (upper_bound to).
Proof.
  unfold no_nul, upper_bound. destruct (_ =? _)%nat; [|done]. intros H. rewrite elem_of_app. intros [?|Hin]; [done|].
  revert Hin. by apply (bool_decide_unpack (0 ∉ b! ":59")).
Qed.

Lemma no_nul_app a b : no_nul a -> no_nul b -> no_nul (a ++ b).
Proof. unfold no_nul. rewrite elem_of_app. tauto. Qed.

(** An empty filter lets everything through. *)
Lemma filter_or {A} (l : list A) (b : bool) (P : Prop) : (b = true <-> P) ->
  match l with [] => true | _ => b end = true <-> (l = [] \/ P).
Proof. destruct l; intros H; [by split; [left|]|]. rewrite H. split; [by right|by intros [|]]. Qed.

Lemma selects_iff q db e : query_ok q -> selects q db e = true <-> wanted q db e.
Proof.
  intros (_ & _ & Ht & Hl & Hs & Hk & Hf & Hto). unfold selects, wanted. rewrite !andb_true_iff.
  assert (no_nul (37 :: EscapeLike (q_keyword q) ++ [37])) as Hp.
  { apply (no_nul_app [37]); [by apply (bool_decide_unpack (0 ∉ [37]))|]. apply no_nul_app; [by apply EscapeLike_no_nul|].
    by apply (bool_decide_unpack (0 ∉ [37])). }
  rewrite (filter_or (q_types q) _ (e_type e ∈ q_types q)).
  2:{ rewrite existsb_exists. rewrite Forall_forall in Ht. split.
      - intros (t & Hin%list_elem_of_In & Hb%bool_decide_eq_true). rewrite c_str_id in Hb by auto. by rewrite <- Hb.
      - intros Hin. exists (e_type e). split; [by apply list_elem_of_In|]. apply bool_decide_eq_true, c_str_id. auto. }
  rewrite (filter_or (q_level q) _ (q_level q = b! "all" \/ e_level e = map toupper (q_level q))).
  2:{ by rewrite orb_true_iff, !bool_decide_eq_true, (c_str_id _ (no_nul_toupper _ Hl)). }
  rewrite !c_str_id by (done || by apply no_nul_upper).
  rewrite (filter_or (q_script q) _ (e_script e = q_script q)) by apply bool_decide_eq_true.
  rewrite (filter_or (q_from q) _ (sqlite_number (q_from q) = true \/ not_after (q_from q) (e_time e))) by (unfold bound_leb; by rewrite orb_true_iff).
  rewrite (filter_or (q_to q) _ (sqlite_number (upper_bound (q_to q)) = false /\ not_after (e_time e) (upper_bound (q_to q))))
    by (unfold time_leb; by rewrite andb_true_iff, negb_true_iff).
  rewrite (filter_or (q_keyword q) _ (found_in (q_keyword q) (e_script e) \/ found_in (q_keyword q) (e_type e) \/
    exists v, v ∈ values db /\ v_log v = e_id e /\ found_in (q_keyword q) (v_value v))); [tauto|].
  rewrite !orb_true_iff, !like_keyword, existsb_exists. setoid_rewrite andb_true_iff. setoid_rewrite Z.eqb_eq. setoid_rewrite like_keyword.
  setoid_rewrite list_elem_of_In. tauto.
Qed.

Lemma StronglySorted_rev {A} (R : A -> A -> Prop) l : StronglySorted R l -> StronglySorted (fun a b => R b a) (rev l).
Proof.
  induction 1 as [|x l Hl IH Hx]; [constructor|]. cbn [rev]. clear Hl.
  assert (Forall (fun a => R x a) (rev l)) as Hx' by (rewrite Forall_forall in *; intros a Ha; apply Hx; by apply list_elem_of_In, in_rev, list_elem_of_In).
  revert IH Hx'. generalize (rev l). induction l0 as [|y l0 IHl]; intros Hs Hf; cbn; [by repeat constructor|].
  apply StronglySorted_inv in Hs as [Hs Hy]. apply Forall_cons in Hf as [Hxy Hf]. constructor; [by apply IHl|].
  apply Forall_app. by split; [|apply Forall_singleton].
Qed.

Lemma StronglySorted_filter' {A} (R : A -> A -> Prop) (p : A -> bool) l : StronglySorted R l -> StronglySorted R (List.filter p l).
Proof. induction 1 as [|x l Hl IH Hx]; [constructor|]. cbn. destruct (p x); [|done]. constructor; [done|by apply Forall_filter_bool]. Qed.

(** C32: A search whose filters hold no NUL byte and keep within SQLite's limits
    gives the entries that pass every filter that is set - type, level whatever
    its case, script, a time between the bounds, a bound to the minute taken to
    its end and a bound that reads as a number, as a year alone does, below every
    time, and a keyword that occurs in the script, the type or a value of the
    entry, its wildcards as they are and whatever the case of its ASCII letters -
    newest first, the part from the offset on, never more than 500, with the
    number of all of them. *)
Theorem log_query_exact st c q : db_ st = Some c -> db_ok (visible c) -> query_ok q ->
  exists all,
    (forall e, e ∈ all <-> e ∈ entries (visible c) /\ wanted q (visible c) e) /\
    StronglySorted (fun a b => e_id b < e_id a) all /\
    let r := Query q st in
    total r = Z.of_nat (length all) /\ rows r = take (Z.to_nat (r_limit r)) (drop (Z.to_nat (r_offset r)) all) /\
    0 < r_limit r <= 500 /\ (0 < q_limit q <= 500 -> r_limit r = q_limit q) /\ r_offset r = Z.max 0 (q_offset q).
Proof.
  intros Hc (Hs & _) Hq. exists (selected q (visible c)). unfold Query. rewrite Hc. cbn [total rows r_limit r_offset]. split; [|split].
  - intros e. unfold selected. rewrite list_elem_of_In, <- in_rev, <- list_elem_of_In, elem_of_filter_bool, (selects_iff q _ e Hq). tauto.
  - unfold selected. by apply StronglySorted_rev, StronglySorted_filter'.
  - unfold selected, page, page_limit, page_offset. rewrite length_rev. split_and!; try done.
    1-2: destruct (Z.ltb_spec 0 (q_limit q)); cbn zeta; destruct (_ <? _) eqn:E; lia.
    + intros H. rewrite (proj2 (Z.ltb_lt 0 (q_limit q))) by lia. cbn zeta. by rewrite (proj2 (Z.ltb_ge 500 (q_limit q))) by lia.
    + destruct (Z.ltb_spec 0 (q_offset q)); lia.
Qed.

(** ** What a write does *)




(** The database after a whole write. *)
Definition with_entry (now logType script level : list Z) (fields : list (list Z * list Z)) (db : LogDb) : LogDb :=
  mkDb (def_rows db) (entries db ++ [mkEntry (next db) (c_str logType) (c_str script) (c_str (stored_level level)) now])
    (values db ++ map (fun f => mkValue (next db) (c_str f.1) (c_str f.2)) fields) (next db + 1).









Lemma insert_values_db logId fields : forall oks db, (insert_values logId fields oks db).1 = true ->
  (insert_values logId fields oks db).2 =
    mkDb (def_rows db) (entries db) (values db ++ map (fun f => mkValue logId (c_str f.1) (c_str f.2)) fields) (next db).
Proof.
  induction fields as [|f fields IH]; intros oks db H; cbn in *; [rewrite app_nil_r; by destruct db|].
  destruct (hd true oks); [|done]. rewrite IH by done. cbn. by rewrite <- app_assoc.
Qed.


(** ** The tables stay consistent *)

Lemma db_ok_entry now logType script level fields db : db_ok db -> db_ok (with_entry now logType script level fields db).
Proof.
  intros (Hs & Hn & Hv). rewrite Forall_forall in Hn. rewrite Forall_forall in Hv. unfold with_entry. split_and!; cbn [entries next values].
  - apply StronglySorted_app_2; [|done|by repeat constructor]. intros a b Ha ->%list_elem_of_singleton. cbn. by apply Hn.
  - apply Forall_app. split; [|apply Forall_singleton; cbn; lia]. apply Forall_forall. intros e He. specialize (Hn e He). cbn in Hn. lia.
  - apply Forall_app. split; apply Forall_forall.
    + intros v (e & He & E)%Hv. exists e. rewrite elem_of_app. auto.
    + intros v (f & -> & _)%list_elem_of_fmap. eexists. rewrite elem_of_app, list_elem_of_singleton. split; [by right|done].
Qed.

Lemma db_ok_definitions rows db : db_ok db -> db_ok (mkDb rows (entries db) (values db) (next db)).
Proof. done. Qed.

Lemma db_ok_delete_values gone db : db_ok db -> db_ok (delete_values gone db).
Proof. intros (Hs & Hn & Hv). split_and!; [done|done|]. by apply Forall_filter_bool. Qed.

Lemma db_ok_delete_entries cutoff db : db_ok db -> db_ok (delete_entries cutoff db).
Proof.
  intros (Hs & Hn & Hv). split_and!; cbn [entries next values delete_entries]; [by apply StronglySorted_filter'|by apply Forall_filter_bool|].
  rewrite Forall_forall in Hv. apply Forall_forall. intros v [Hk Hin]%elem_of_filter_bool. destruct (Hv v Hin) as (e & He & E).
  exists e. split; [|done]. apply elem_of_filter_bool. split; [|done]. apply negb_true_iff. destruct (older cutoff e) eqn:Ho; [|done].
  exfalso. apply negb_true_iff in Hk. apply not_true_iff_false in Hk. apply Hk. apply existsb_exists. exists e.
  rewrite <- list_elem_of_In, elem_of_filter_bool, Z.eqb_eq. done.
Qed.

Definition log_ok (st : LogStore) : Prop :=
  match db_ st with
  | Some c => db_ok (committed c) /\ db_ok (visible c)
  | None => True
  end.

Lemma change_ok f c : (forall db, db_ok db -> db_ok (f db)) -> db_ok (committed c) /\ db_ok (visible c) ->
  db_ok (committed (change f c)) /\ db_ok (visible (change f c)).
Proof. unfold change, visible. destruct (working c); cbn; naive_solver. Qed.

Section Invariant.
Context {J : JsonLib} {F : JsonFiles}.

(** What can happen to the store. *)
Inductive log_step (st st' : LogStore) : Prop :=
| log_write o now logType script level fields r : Write o now logType script level fields st = (r, st') -> log_step st st'
| log_define def ok defined : DefineType def ok st = Ok (defined, st') -> log_step st st'
| log_file file oks r : LoadDefinitions file oks st = (r, st') -> log_step st st'
| log_prune cutoff days b1 b2 n : PruneOlderThan cutoff days b1 b2 st = Ok (n, st') -> log_step st st'
| log_reopen schema r : Load st (match db_ st with Some c => Some (committed c) | None => Some empty_db end) schema = (r, st') -> log_step st st'.

Lemma Upsert_ok def ok c defs r c' defs' : UpsertDefinitionUnlocked def ok c defs = Ok (r, (c', defs')) ->
  db_ok (committed c) /\ db_ok (visible c) -> db_ok (committed c') /\ db_ok (visible c').
Proof.
  unfold UpsertDefinitionUnlocked. destruct (dump_text _); [|done]. destruct ok; intros [= <- <- <-] H; [|done].
  apply change_ok; [|done]. intros db. apply db_ok_definitions.
Qed.

Lemma load_items_ok items : forall oks c defs r c' defs', load_items items oks c defs = (r, (c', defs')) ->
  db_ok (committed c) /\ db_ok (visible c) -> db_ok (committed c') /\ db_ok (visible c').
Proof.
  induction items as [|item items IH]; intros oks c defs r c' defs'; cbn; [by intros [= <- <- <-]|].
  destruct (file_definition item) as [[def|]|]; [|by apply IH|by intros [= <- <- <-]].
  destruct (UpsertDefinitionUnlocked def (hd true oks) c defs) as [[b [c1 defs1]]| |] eqn:E; try by intros [= <- <- <-].
  intros H H0. eapply IH; [done|]. by eapply Upsert_ok.
Qed.

Lemma Write_ok o now logType script level fields st : log_ok st -> log_ok (Write o now logType script level fields st).2.
Proof.
  intros H. pose proof (insert_values_db (match db_ st with Some c => next (committed c) | None => 0 end) fields (values_inserted o)
    (match db_ st with Some c => insert_entry logType script (stored_level level) now (committed c) | None => empty_db end)) as Hdb.
  unfold Write. destruct (db_ st) as [c|] eqn:Hc; [|done]. destruct (find_definition _ _); [|done].
  destruct (check_fields _ _ _); [|done..]. destruct (check_required _ _ _); [|done..]. destruct (working c) eqn:Hw; [done|].
  destruct (begins o); [cbn [negb]|done]. destruct (entry_inserted o); [cbn [negb]|done].
  destruct (insert_values _ _ _ _) as [ok db] eqn:Hi. destruct ok; [cbn [negb]|done]. cbn [fst snd] in Hdb. specialize (Hdb eq_refl).
  unfold log_ok in *. rewrite Hc in H. destruct H as [H1 H2]. cbn [db_ snd].
  pose proof (db_ok_entry now logType script level fields _ H1) as H3. unfold with_entry in H3. subst db. cbn in *.
  by destruct (commits o).
Qed.

Lemma log_step_ok st st' : log_step st st' -> log_ok st -> log_ok st'.
Proof.
  intros [o now logType script level fields r E|def ok defined E|file oks r E|cutoff days b1 b2 n E|schema r E] H.
  - change st' with (r, st').2. rewrite <- E. by apply Write_ok.
  - unfold DefineType in E. unfold log_ok in *. destruct (db_ st) as [c|] eqn:Hc; [|injection E as _ <-; by rewrite Hc].
    destruct (UpsertDefinitionUnlocked def ok c (definitions_ st)) as [[b [c' defs']]| |] eqn:Eu; [|done..].
    injection E as _ <-. cbn. by eapply Upsert_ok.
  - unfold LoadDefinitions in E. unfold log_ok in *.
    destruct file as [bytes|]; [|injection E as _ <-; done]. destruct (read_json bytes) as [root|]; [|injection E as _ <-; done].
    destruct (log_items root) as [items|]; [|injection E as _ <-; done].
    destruct (db_ st) as [c|] eqn:Hc; [|injection E as _ <-; by rewrite Hc].
    destruct (load_items items oks c (definitions_ st)) as [returned [c' defs']] eqn:El. injection E as _ <-. cbn. by eapply load_items_ok.
  - unfold PruneOlderThan in E. unfold log_ok in *. destruct (days <=? 0); [by injection E as _ <-|].
    destruct (db_ st) as [c|] eqn:Hc; [|injection E as _ <-; by rewrite Hc]. destruct (duration_overflows days); [done|].
    cbn zeta in E. destruct b1, b2; cbn in E; injection E as _ <-; cbn; repeat apply change_ok; try done;
      try apply db_ok_delete_values; apply db_ok_delete_entries.
  - unfold Load, log_ok in *. destruct (db_ st) as [c|]; [destruct H as [H _]|].
    + destruct schema; cbn in E; injection E as _ <-; by cbn.
    + assert (db_ok empty_db) as H0 by (repeat split; constructor). destruct schema; cbn in E; injection E as _ <-; by cbn.
Qed.

(** The tables stay consistent.  After any sequence of writes, definitions,
    definition files, prunings and restarts - whatever statements fail, and at
    whatever point a file throws - no two entries have the same number, the
    next number is above them all, and every value belongs to an entry; on disk,
    and in a transaction that was left open. *)
Theorem log_store_invariant st : rtc log_step closed_store st ->
  match db_ st with Some c => db_ok (committed c) /\ db_ok (visible c) | None => True end.
Proof.
  change (rtc log_step closed_store st -> log_ok st). assert (log_ok closed_store) as H by done. revert H.
  induction 2; [done|]. eauto using log_step_ok.
Qed.
End Invariant.

(** ** Definitions outlive the program *)

(** The definition kept under a type. *)
Definition stored_in (type : list Z) (rows : list DefinitionRow) : option DefinitionRow :=
  List.find (fun r => bool_decide (d_type r = type)) rows.

Lemma find_put_definition type def l : find_definition type (put_definition def l) =
  if bool_decide (bytes_of (t_type def) = type) then Some def else find_definition type l.
Proof.
  unfold find_definition. induction l as [|d l IH]; cbn; [done|].
  destruct (String.eqb_spec (t_type d) (t_type def)) as [E|E]; cbn; [rewrite E; by case_bool_decide|].
  destruct (lex_leb _ _); cbn; [by case_bool_decide|]. rewrite IH.
  destruct (bool_decide (bytes_of (t_type d) = type)) eqn:E1; [|done].
  apply bool_decide_eq_true in E1 as <-. rewrite bool_decide_eq_false_2; [done|]. intros E2%bytes_of_inj. congruence.
Qed.

Lemma stored_in_upsert type row rows : stored_in type (upsert_row row rows) =
  if bool_decide (d_type row = type) then Some row else stored_in type rows.
Proof.
  unfold stored_in. induction rows as [|r rows IH]; cbn; [done|].
  destruct (bool_decide (d_type r = d_type row)) eqn:E; cbn; [apply bool_decide_eq_true in E; rewrite E; by case_bool_decide|].
  apply bool_decide_eq_false in E. rewrite IH. destruct (bool_decide (d_type r = type)) eqn:E1; [|done]. apply bool_decide_eq_true in E1 as <-.
  by rewrite bool_decide_eq_false_2 by congruence.
Qed.

Lemma upsert_row_types row rows x : x ∈ map d_type (upsert_row row rows) <-> x = d_type row \/ x ∈ map d_type rows.
Proof.
  induction rows as [|r rows IH]; cbn; [by rewrite list_elem_of_singleton, elem_of_nil; tauto|].
  case_bool_decide as E; cbn; rewrite !elem_of_cons, ?IH, ?E; tauto.
Qed.

Definition rows_ok (rows : list DefinitionRow) : Prop := NoDup (map d_type rows) /\ Forall (fun r => bytes_ok (d_type r)) rows.

Lemma upsert_row_ok row rows : bytes_ok (d_type row) -> rows_ok rows -> rows_ok (upsert_row row rows).
Proof.
  intros Hb [Hn Hf]. split.
  - clear Hf. induction rows as [|r rows IH]; cbn in *; [apply NoDup_singleton|].
    apply NoDup_cons in Hn as [Hr Hn]. case_bool_decide as E; cbn; [by rewrite <- E; constructor|].
    constructor; [|by apply IH]. rewrite upsert_row_types. by intros [|].
  - clear Hn. induction Hf as [|r rows Hr Hf IH]; cbn; [by repeat constructor|]. by case_bool_decide; constructor.
Qed.

Section Restart.
#[local] Arguments find_definition : simpl never.
#[local] Arguments stored_in : simpl never.
Context {J : JsonLib} {F : JsonFiles}.
(** What is loaded at a start is what the rows hold. *)
Lemma loaded_definitions type rows : rows_ok rows ->
  find_definition type (LoadDefinitionsFromDbUnlocked rows) = (r ← stored_in type rows; stored_definition r).
Proof.
  unfold LoadDefinitionsFromDbUnlocked. intros [Hn Hf].
  induction rows as [|r rows IH] using rev_ind; [done|]. rewrite foldl_app. cbn [foldl].
  rewrite map_app in Hn. apply NoDup_app in Hn as (Hn & Hr & _). apply Forall_app in Hf as [Hf Hb]. rewrite Forall_singleton in Hb.
  specialize (IH Hn Hf). unfold stored_in in *. rewrite find_app.
  assert (forall x, List.find (fun r => bool_decide (d_type r = type)) rows = Some x -> d_type r <> type) as Hother.
  { intros x [Hx E%bool_decide_eq_true]%List.find_some. intros E'. apply (Hr type); [|by apply list_elem_of_singleton].
    apply list_elem_of_fmap. exists x. by rewrite list_elem_of_In. }
  destruct (stored_definition r) as [def|] eqn:Ed.
  - rewrite find_put_definition.
    assert (bytes_of (t_type def) = d_type r) as ->.
    { unfold stored_definition in Ed. destruct (parse_text _); [|done]. destruct (stored_fields _); [|done].
      injection Ed as <-. cbn. by apply bytes_of_text_of. }
    rewrite IH. destruct (List.find _ rows) as [x|] eqn:Ex; cbn.
    + specialize (Hother x eq_refl). by rewrite bool_decide_eq_false_2.
    + by case_bool_decide; cbn.
  - rewrite IH. destruct (List.find _ rows) as [x|] eqn:Ex; cbn; [done|]. by case_bool_decide; cbn.
Qed.

(** A definition as scripts and files have them: texts without NUL, and every
    field has a name. *)
Definition clean_definition (def : LogTypeDef) : Prop :=
  no_nul (bytes_of (t_type def)) /\ no_nul (bytes_of (t_description def)) /\ Forall (fun f => f_name f <> ""%string) (t_fields def).

Definition field_json (f : LogFieldDef) : json :=
  object [("name"%string, jstring (f_name f)); ("type"%string, jstring (f_type f)); ("required"%string, jbool (f_required f))].

Lemma field_def_json f : field_def (field_json f) = Some f.
Proof.
  assert (NoDup (fst <$> [("name"%string, jstring (f_name f)); ("type"%string, jstring (f_type f)); ("required"%string, jbool (f_required f))])) as Hn
    by by apply (bool_decide_unpack _).
  destruct (view_object _ Hn) as (l & Hv & Hp). unfold field_def, field_json, value_string, object. rewrite Hv.
  unfold field_string, field_bool. rewrite !(member_perm l _ _ ltac:(by rewrite Hp) Hp).
  cbn. unfold jstring, jbool. rewrite !view_inject by done. by destruct f.
Qed.

Lemma stored_fields_json fields : Forall (fun f => f_name f <> ""%string) fields -> stored_fields (map field_json fields) = Some fields.
Proof.
  induction 1 as [|f fields Hf _ IH]; [done|]. cbn [map stored_fields]. rewrite field_def_json, IH.
  by destruct (String.eqb_spec (f_name f) "").
Qed.

Lemma plain_fields fields : plain (fields_json fields).
Proof.
  unfold fields_json, jlist. apply plain_array, Forall_map, Forall_true. intros f. apply plain_object; [by apply (bool_decide_unpack _)|].
  rewrite !Forall_cons. split_and!; cbn; [apply plain_string|apply plain_string| |constructor].
  apply plain_leaf. unfold jbool. by rewrite view_inject.
Qed.

Definition definition_row (def : LogTypeDef) (text : list Z) : DefinitionRow :=
  mkDefinition (c_str (bytes_of (t_type def))) (c_str (bytes_of (t_description def))) (c_str text).

#[local] Arguments definition_row : simpl never.

Lemma stored_clean def text : clean_definition def -> dump_text (fields_json (t_fields def)) = Some text ->
  stored_definition (definition_row def text) = Some def.
Proof.
  intros (Ht & Hd & Hf) E. unfold stored_definition, definition_row. cbn [d_json d_type d_description].
  rewrite !c_str_id by (done || exact (dump_text_no_nul _ _ E)). rewrite (parse_dump_text _ _ (plain_fields _) E).
  unfold items_of, fields_json, jlist. rewrite view_array. change (map _ _) with (map field_json (t_fields def)).
  rewrite stored_fields_json by done. rewrite !text_of_bytes_of. by destruct def.
Qed.

(** Memory and disk agree: every type has the definition its row holds. *)
Definition in_step (st : LogStore) : Prop :=
  match db_ st with
  | Some c => rows_ok (def_rows (committed c)) /\ rows_ok (def_rows (visible c)) /\
      forall type, find_definition type (definitions_ st) = (r ← stored_in type (def_rows (visible c)); stored_definition r)
  | None => True
  end.

(** A definition file - missing, malformed or whole - gives clean definitions
    only. *)
Definition clean_contents (file : option (list Z)) : Prop :=
  forall bytes (root : @json J) items, file = Some bytes -> read_json bytes = Some root -> log_items root = Some items ->
    Forall (fun item => match file_definition item with Some (Some def) => clean_definition def | _ => True end) items.

(** What can happen to the store, as long as definitions are clean and every
    start that opens the database finds its schema. *)
Inductive clean_step (st st' : LogStore) : Prop :=
| clean_unopened schema r : Load st None schema = (r, st') -> clean_step st st'
| clean_write o now logType script level fields r : Write o now logType script level fields st = (r, st') -> clean_step st st'
| clean_define def ok defined : clean_definition def -> DefineType def ok st = Ok (defined, st') -> clean_step st st'
| clean_file file oks r : clean_contents file -> LoadDefinitions file oks st = (r, st') -> clean_step st st'
| clean_prune cutoff days b1 b2 n : PruneOlderThan cutoff days b1 b2 st = Ok (n, st') -> clean_step st st'
| clean_restart r : Load st (match db_ st with Some c => Some (committed c) | None => Some empty_db end) true = (r, st') -> clean_step st st'.

Lemma change_rows f c : (forall db, def_rows (f db) = def_rows db) ->
  def_rows (committed (change f c)) = def_rows (committed c) /\ def_rows (visible (change f c)) = def_rows (visible c).
Proof. intros H. unfold change, visible. by destruct (working c); cbn; rewrite ?H. Qed.

Lemma in_step_upsert def ok c defs r c' defs' : clean_definition def -> UpsertDefinitionUnlocked def ok c defs = Ok (r, (c', defs')) ->
  in_step (mkStore (Some c) defs) -> in_step (mkStore (Some c') defs').
Proof.
  intros Hc E (H1 & H2 & H3). unfold UpsertDefinitionUnlocked in E. cbn in H1, H2, H3.
  destruct (dump_text _) as [text|] eqn:Ed; [|done]. change (mkDefinition _ _ _) with (definition_row def text) in E.
  destruct ok; injection E as <- <- <-; [|done].
  assert (d_type (definition_row def text) = bytes_of (t_type def)) as Et by (destruct Hc as [? _]; by apply c_str_id).
  assert (bytes_ok (d_type (definition_row def text))) as Hb by (rewrite Et; apply bytes_of_ok).
  unfold in_step. cbn. unfold change, visible in *. destruct (working c) as [w|] eqn:Hw; cbn in *.
  all: split_and!; [by try apply upsert_row_ok|by apply upsert_row_ok|].
  all: intros type; rewrite find_put_definition, stored_in_upsert, Et; case_bool_decide; [|done]; cbn; by rewrite (stored_clean def text).
Qed.

Lemma in_step_items items : forall oks c defs r c' defs',
  Forall (fun item => match file_definition item with Some (Some def) => clean_definition def | _ => True end) items ->
  load_items items oks c defs = (r, (c', defs')) -> in_step (mkStore (Some c) defs) -> in_step (mkStore (Some c') defs').
Proof.
  induction items as [|item items IH]; intros oks c defs r c' defs' Hf; cbn; [by intros [= <- <- <-]|].
  apply Forall_cons in Hf as [Hd Hf]. destruct (file_definition item) as [[def|]|]; [|by apply IH|by intros [= <- <- <-]].
  destruct (UpsertDefinitionUnlocked def (hd true oks) c defs) as [[b [c1 defs1]]| |] eqn:E; try by intros [= <- <- <-].
  intros H H0. eapply IH; [done|done|]. by eapply in_step_upsert.
Qed.

Lemma rows_ok_nil : rows_ok [].
Proof. split; constructor. Qed.

Lemma in_step_Write o now logType script level fields st : in_step st -> in_step (Write o now logType script level fields st).2.
Proof.
  unfold Write. intros H. destruct (db_ st) as [c|] eqn:Hc; [|done]. destruct (find_definition _ _); [|done].
  destruct (check_fields _ _ _); [|done..]. destruct (check_required _ _ _); [|done..]. destruct (working c) eqn:Hw; [done|].
  destruct (begins o); [cbn [negb]|done]. destruct (entry_inserted o); [cbn [negb]|done].
  destruct (insert_values _ _ _ _) as [ok db] eqn:Hi. destruct ok; [cbn [negb]|done].
  pose proof (insert_values_db (next (committed c)) fields (values_inserted o)
    (insert_entry logType script (stored_level level) now (committed c))) as Hdb. rewrite Hi in Hdb. specialize (Hdb eq_refl).
  unfold in_step in *. rewrite Hc in H. cbn [db_ snd definitions_]. unfold visible in *. rewrite Hw in H. cbn in Hdb. subst db.
  by destruct (commits o); cbn; rewrite ?Hw.
Qed.

Lemma in_step_loaded st db r st' : rows_ok (def_rows db) -> Load st (Some db) true = (r, st') ->
  db_ st' = Some (mkConnection db None) /\ in_step st' /\
  forall type, find_definition type (definitions_ st') = (r ← stored_in type (def_rows db); stored_definition r).
Proof.
  intros H [= <- <-]. pose proof (fun type => loaded_definitions type _ H). by split_and!.
Qed.

Lemma clean_step_ok st st' : clean_step st st' -> in_step st -> in_step st'.
Proof.
  intros [schema r E|o now logType script level fields r E|def ok defined Hd E|file oks r Hf E|cutoff days b1 b2 n E|r E] H.
  - by injection E as _ <-.
  - change st' with (r, st').2. rewrite <- E. by apply in_step_Write.
  - unfold DefineType in E. destruct (db_ st) as [c|] eqn:Hc; [|injection E as _ <-; by unfold in_step; rewrite Hc].
    destruct (UpsertDefinitionUnlocked def ok c (definitions_ st)) as [[b [c' defs']]| |] eqn:Eu; [|done..].
    injection E as _ <-. eapply in_step_upsert; [done|done|]. unfold in_step in *. by rewrite Hc in H.
  - unfold LoadDefinitions in E. destruct file as [bytes|]; [|injection E as _ <-; done].
    destruct (read_json bytes) as [root|] eqn:Er; [|injection E as _ <-; done].
    destruct (log_items root) as [items|] eqn:Ei; [|injection E as _ <-; done]. specialize (Hf _ _ _ eq_refl Er Ei).
    destruct (db_ st) as [c|] eqn:Hc; [|injection E as _ <-; by unfold in_step; rewrite Hc].
    destruct (load_items items oks c (definitions_ st)) as [returned [c' defs']] eqn:El. injection E as _ <-.
    eapply in_step_items; [done|done|]. unfold in_step in *. by rewrite Hc in H.
  - unfold PruneOlderThan in E. unfold in_step in *. destruct (days <=? 0); [by injection E as _ <-|].
    destruct (db_ st) as [c|] eqn:Hc; [|injection E as _ <-; by rewrite Hc]. destruct (duration_overflows days); [done|].
    assert (forall f c1, (forall db, def_rows (f db) = def_rows db) ->
      def_rows (committed c1) = def_rows (committed c) /\ def_rows (visible c1) = def_rows (visible c) ->
      def_rows (committed (change f c1)) = def_rows (committed c) /\ def_rows (visible (change f c1)) = def_rows (visible c)) as Hch.
    { intros f c1 Hf [E1 E2]. destruct (change_rows f c1 Hf) as [-> ->]. done. }
    cbn zeta in E. destruct b1, b2; cbn in E; injection E as _ <-; cbn [db_ definitions_]; try done;
      match goal with |- rows_ok (def_rows (committed ?x)) /\ _ =>
        assert (def_rows (committed x) = def_rows (committed c) /\ def_rows (visible x) = def_rows (visible c)) as [-> ->]
          by (repeat apply Hch; done)
      end; done.
  - unfold in_step in H. destruct (db_ st) as [c|]; refine (proj1 (proj2 (in_step_loaded st _ r st' _ E))); [by destruct H|exact rows_ok_nil].
Qed.

(** C33: Definitions outlive the program.  Take any sequence of writes, prunings,
    definitions and definition files, and restarts, in which no definition has a
    NUL byte or a field without a name, and the schema statement of a start
    succeeds - whatever other statements fail, and wherever a file throws.  When
    no transaction is open, a restart that reads its database finds every log
    type defined exactly as before. *)
Theorem definitions_survive st c st' : rtc clean_step closed_store st -> db_ st = Some c -> working c = None ->
  Load st (Some (committed c)) true = (true, st') -> forall type, FindDefinition type st' = FindDefinition type st.
Proof.
  intros H Hc Hw E. assert (in_step closed_store -> in_step st) as Hs by (clear Hc Hw E; induction H; eauto using clean_step_ok). specialize (Hs I).
  unfold in_step in Hs. rewrite Hc in Hs. destruct Hs as (H1 & _ & H3). unfold visible in H3. rewrite Hw in H3.
  destruct (in_step_loaded _ _ _ _ H1 E) as (_ & _ & H4). intros type. unfold FindDefinition. by rewrite H3, H4.
Qed.
End Restart.

(** ** The theorems at work *)

Definition toy_type : LogTypeDef := mkType "door" "Door events" [mkField "card" "string" true; mkField "count" "integer" false].
Definition opened : LogStore := mkStore (Some (mkConnection empty_db None)) [].
Definition toy_defined : LogStore := match DefineType (J := jtree_json) toy_type true opened with Ok (_, st) => st | _ => opened end.
Definition fine : log_outcome := mkOutcome true true [] Committed.
Definition toy_fields : list (list Z * list Z) := [(b! "card", b! "04A1 50%"); (b! "count", b! "-3")].
Definition toy_now : list Z := b! "2026-08-11 23:59:30".
Definition toy_written : LogStore := (Write fine toy_now (b! "door") (b! "main") (b! "warning") toy_fields toy_defined).2.
Definition toy_search : LogQuery :=
  mkQuery [b! "door"] (b! "Warning") [] (b! "0%") (b! "2026-08-11 00:00") (b! "2026-08-11 23:59") 10 0.

Lemma toy_steps : rtc (clean_step (J := jtree_json)) closed_store toy_written /\ rtc (log_step (J := jtree_json)) closed_store toy_written.
Proof.
  assert (DefineType (J := jtree_json) toy_type true opened = Ok (true, toy_defined)) as E by (vm_compute; reflexivity).
  assert (clean_definition toy_type) as Hc.
  { split_and!; [by apply (bool_decide_unpack _)..|]. by repeat constructor. }
  split; (eapply rtc_l; [|eapply rtc_l; [|eapply rtc_l; [|apply rtc_refl]]]).
  - exact (clean_restart closed_store opened true eq_refl).
  - exact (clean_define opened toy_defined toy_type true true Hc E).
  - exact (clean_write toy_defined toy_written fine toy_now (b! "door") (b! "main") (b! "warning") toy_fields _ (surjective_pairing _)).
  - exact (log_reopen closed_store opened true true eq_refl).
  - exact (log_define opened toy_defined toy_type true true E).
  - exact (log_write toy_defined toy_written fine toy_now (b! "door") (b! "main") (b! "warning") toy_fields _ (surjective_pairing _)).
Qed.

Definition toy_connection : Connection := default (mkConnection empty_db None) (db_ toy_written).
Lemma toy_connected : db_ toy_written = Some toy_connection.
Proof. vm_compute. reflexivity. Qed.

Lemma log_query_exact_witness :
  rows (Query toy_search toy_written) = [mkEntry 1 (b! "door") (b! "main") (b! "WARNING") toy_now] /\
  exists all, (forall e, e ∈ all <-> e ∈ entries (visible toy_connection) /\ wanted toy_search (visible toy_connection) e) /\
    total (Query toy_search toy_written) = Z.of_nat (length all).
Proof.
  split; [vm_compute; reflexivity|].
  destruct (log_query_exact toy_written toy_connection toy_search toy_connected) as (all & H1 & _ & H2 & _).
  - split_and!; vm_compute; repeat constructor. eexists. split; [by left|done].
    eexists. split; [by left|done].
  - unfold query_ok. split; [vm_compute; discriminate|]. split; [vm_compute; discriminate|].
    split_and!; [repeat constructor|..]; by apply (bool_decide_unpack _).
  - exists all. exact (conj H1 H2).
Defined.


Lemma log_store_invariant_witness : db_ok (committed toy_connection) /\ length (values (committed toy_connection)) = 2%nat.
Proof.
  split; [|vm_compute; reflexivity]. pose proof (log_store_invariant (J := jtree_json) toy_written (proj2 toy_steps)) as H.
  rewrite toy_connected in H. exact (proj1 H).
Defined.

Lemma definitions_survive_witness :
  FindDefinition (b! "door") (Load (J := jtree_json) toy_written (Some (committed toy_connection)) true).2 = Some toy_type.
Proof.
  rewrite (definitions_survive (J := jtree_json) toy_written toy_connection
    (Load (J := jtree_json) toy_written (Some (committed toy_connection)) true).2 (proj1 toy_steps) toy_connected); vm_compute; reflexivity.
Defined.

(** ** What modelling showed *)

(** A commit that fails is reported as a success: the entry is not on disk, and
    every later write is refused because a transaction is already open. *)
Example commit_failure_is_success :
  let '(r, st) := Write (mkOutcome true true [] StillOpen) toy_now (b! "door") [] [] toy_fields toy_defined in
  r = Ok tt /\ match db_ st with Some c => entries (committed c) = [] | None => False end /\
  (Write fine toy_now (b! "door") [] [] toy_fields st).1 = Err "failed to begin transaction".
Proof. vm_compute. done. Qed.

(** A bound that is a year alone is a number to the column, and a number is below
    every time: nothing is before 2027, or after it. *)
Definition between (from to : list Z) : LogQuery := mkQuery [] [] [] [] from to 10 0.
Example year_bound_is_a_number :
  map (fun q => total (Query q toy_written)) [between [] (b! "2027"); between (b! "2027") []; between [] (b! "2027-01")] = [0; 1; 1].
Proof. vm_compute. reflexivity. Qed.

(** A definition file with a member of another type throws out of the call, and
    what came before it stays defined. *)
Definition mistyped_file : jtree :=
  TArray [TObject [("type"%string, TString "door")]; TObject [("type"%string, TUint 5)]; TObject [("type"%string, TString "panel")]].
Example mistyped_definition_throws :
  match dump_text (JsonFileOps := coded_ops) mistyped_file with
  | Some bytes =>
      let '(r, st) := LoadDefinitions (J := jtree_json) (Some bytes) [] opened in
      r = Err "type_error" /\ map t_type (definitions_ st) = ["door"%string]
  | None => False
  end.
Proof. vm_compute. done. Qed.

(** A retention of more than 292 years overflows the clock's nanoseconds. *)
Example long_retention_overflows : PruneOlderThan (fun _ => []) 106752 true true opened = Fault /\
  PruneOlderThan (fun _ => []) 106751 true true opened = Ok (0, opened).
Proof. split; vm_compute; reflexivity. Qed.
