(* ===== verification/PluginManifest.v ===== *)
(** * Plugin manifests (src/plugin_manager/PluginManifest.cpp)

    A manifest is a JSON object in a file beside the plugin's shared object; it
    is validated when the plugin is found.  The files and the resolution of
    paths ([weakly_canonical]) are a record of functions, the platform triple of
    the build is an argument; a text of the manifest is a [string], a path and a
    text under analysis are bytes. *)

From S2P Require Import Prelude Words Text Json JsonFile.

(** ** Versions of the plugin interface *)

Definition HSF_API_VERSION_MAJOR_OF (v : Z) : Z := Z.shiftr v 16.
Definition HSF_API_VERSION_MINOR_OF (v : Z) : Z := Z.land v 0xFFFF.
Definition HSF_API_VERSION_COMPATIBLE (host plugin : Z) : bool :=
  (HSF_API_VERSION_MAJOR_OF host =? HSF_API_VERSION_MAJOR_OF plugin) &&
  (HSF_API_VERSION_MINOR_OF plugin <=? HSF_API_VERSION_MINOR_OF host).

(** At most five characters, all digits. *)
Definition version_part (part : list Z) : bool := (length part <=? 5)%nat && forallb is_digit part.

Definition ParseApiVersion (text : list Z) : option Z :=
  match until 46 text with
  | (major, _ :: minor) =>
      if bool_decide (major = []) || bool_decide (minor = []) || existsb (Z.eqb 46) minor then None
      else if negb (version_part major && version_part minor) then None
      else
        let ma := dec_value 0 major in
        let mi := dec_value 0 minor in
        if (0xFFFF <? ma) || (0xFFFF <? mi) then None else Some (Z.lor (Z.shiftl ma 16) mi)
  | _ => None
  end.

(** ** Identifiers and versions of plugins *)

Definition islower (c : Z) : bool := (97 <=? c) && (c <=? 122).
Definition id_char (c : Z) : bool := islower c || is_digit c || (c =? 45) || (c =? 95).

Fixpoint valid_id_loop (has_dot prev_dot : bool) (id : list Z) : bool :=
  match id with
  | [] => has_dot
  | c :: rest =>
      if c =? 46 then if prev_dot then false else valid_id_loop true true rest
      else if id_char c then valid_id_loop has_dot false rest else false
  end.

Definition ValidId (id : list Z) : bool :=
  if bool_decide (id = []) || (128 <? length id)%nat then false
  else if bool_decide (head id = Some 46) || bool_decide (last id = Some 46) then false
  else valid_id_loop false true id.

Definition version_char (c : Z) : bool := is_alnum c || (c =? 46) || (c =? 45) || (c =? 43) || (c =? 95).

Definition PlausibleVersion (v : list Z) : bool :=
  negb (bool_decide (v = []) || (64 <? length v)%nat) && existsb is_digit v && forallb version_char v.

(** ** The manifest *)

Definition kPermissions : list (string * Z) :=
  [("serial", 0x01); ("network", 0x02); ("filesystem", 0x04); ("gpio", 0x08); ("exec", 0x10); ("lua", 0x20); ("db", 0x40)]%string.
Definition kTransports : list string := ["serial"; "tcp"; "udp"; "can"; "spi"; "gpio"; "mock"]%string.

Record PluginManifest := mkManifest {
  m_id : string; m_name : string; m_version : string; m_api_version : string; m_description : string; m_author : string;
  m_entry : string; m_execution : string; m_platforms : list string; m_transports : list string; m_permissions : list string;
  m_directory : list Z; m_path : list Z
}.
Definition blank_manifest : PluginManifest := mkManifest "" "" "" "" "" "" "" "" [] [] [] [] [].

Definition set_execution (execution : string) (m : PluginManifest) : PluginManifest :=
  mkManifest (m_id m) (m_name m) (m_version m) (m_api_version m) (m_description m) (m_author m) (m_entry m) execution
    (m_platforms m) (m_transports m) (m_permissions m) (m_directory m) (m_path m).
Definition set_id (id : string) (m : PluginManifest) : PluginManifest :=
  mkManifest id (m_name m) (m_version m) (m_api_version m) (m_description m) (m_author m) (m_entry m) (m_execution m)
    (m_platforms m) (m_transports m) (m_permissions m) (m_directory m) (m_path m).

Definition ApiVersionPacked (m : PluginManifest) : Z :=
  match ParseApiVersion (bytes_of (m_api_version m)) with Some v => v | None => 0 end.

Definition permission_bit (p : string) : Z := foldl (fun bits n => if String.eqb p (fst n) then Z.lor bits (snd n) else bits) 0 kPermissions.

Definition PermissionBits (m : PluginManifest) : Z :=
  foldl (fun bits p => Z.lor bits (permission_bit p)) 0 (m_permissions m).

Inductive ManifestError :=
  kNone | kUnreadable | kMalformedJson | kMissingField | kBadId | kBadVersion | kBadApiVersion | kIncompatibleApi
| kUnsupportedPlatform | kBadExecution | kUnknownPermission | kUnknownTransport | kEntryMissing.
#[global] Instance ManifestError_eq : EqDecision ManifestError.
Proof. solve_decision. Defined.

Definition ManifestErrorName (e : ManifestError) : string :=
  match e with
  | kNone => "NONE" | kUnreadable => "UNREADABLE" | kMalformedJson => "MALFORMED_JSON" | kMissingField => "MISSING_FIELD"
  | kBadId => "BAD_ID" | kBadVersion => "BAD_VERSION" | kBadApiVersion => "BAD_API_VERSION" | kIncompatibleApi => "INCOMPATIBLE_API"
  | kUnsupportedPlatform => "UNSUPPORTED_PLATFORM" | kBadExecution => "BAD_EXECUTION" | kUnknownPermission => "UNKNOWN_PERMISSION"
  | kUnknownTransport => "UNKNOWN_TRANSPORT" | kEntryMissing => "ENTRY_MISSING"
  end.

Record ManifestResult := mkManifestResult { r_ok : bool; r_error : ManifestError; r_message : string; r_manifest : PluginManifest }.

Definition quote (text : string) : string := text_of (34 :: bytes_of text ++ [34]).
Definition reject (m : PluginManifest) (e : ManifestError) (message : string) : ManifestResult := mkManifestResult false e message m.

(** [Fail]: a blank manifest. *)
Definition fail_manifest (e : ManifestError) (message : string) : ManifestResult := reject blank_manifest e message.

Fixpoint Join (v : list string) : string :=
  match v with [] => "" | [x] => x | x :: rest => x ++ ", " ++ Join rest end.

(** ** Validation *)

Definition required (m : PluginManifest) : list (string * string) :=
  [("id", m_id m); ("name", m_name m); ("version", m_version m); ("api_version", m_api_version m); ("entry", m_entry m)]%string.

Definition is_member (x : string) (l : list string) : bool := existsb (String.eqb x) l.

Definition version_text (v : Z) : string := to_string (HSF_API_VERSION_MAJOR_OF v) ++ "." ++ to_string (HSF_API_VERSION_MINOR_OF v).

Definition incompatible_text (m : PluginManifest) (plugin host : Z) : string :=
  "plugin " ++ quote (m_id m) ++ " needs Plugin API " ++ version_text plugin ++ ", this gateway provides " ++ version_text host ++
  (if HSF_API_VERSION_MAJOR_OF plugin =? HSF_API_VERSION_MAJOR_OF host
   then " (the gateway is older than the plugin; upgrade the gateway)"
   else " (major versions differ; the plugin must be rebuilt against this gateway's SDK)").

Section Manifest.
(** HSF_PLATFORM_TRIPLE. *)
Variable here : string.

Definition ValidateManifest (m : PluginManifest) (host : Z) : ManifestResult :=
  match List.find (fun r => String.eqb (snd r) "") (required m) with
  | Some r => reject m kMissingField ("manifest is missing the required field " ++ quote (fst r))
  | None =>
  if negb (ValidId (bytes_of (m_id m))) then reject m kBadId ("plugin id " ++ quote (m_id m) ++ " is not a valid reverse-DNS identifier (lowercase letters, digits, dot, dash and underscore only, with at least one dot)")
  else if negb (PlausibleVersion (bytes_of (m_version m))) then reject m kBadVersion ("plugin version " ++ quote (m_version m) ++ " is not a version")
  else match ParseApiVersion (bytes_of (m_api_version m)) with
  | None => reject m kBadApiVersion ("api_version " ++ quote (m_api_version m) ++ " is not MAJOR.MINOR")
  | Some plugin =>
  if negb (HSF_API_VERSION_COMPATIBLE host plugin) then reject m kIncompatibleApi (incompatible_text m plugin host)
  else if negb (bool_decide (m_platforms m = [])) && negb (is_member here (m_platforms m)) then
    reject m kUnsupportedPlatform ("plugin " ++ quote (m_id m) ++ " is built for [" ++ Join (m_platforms m) ++ "], this gateway is " ++ here)
  else
    let m := if String.eqb (m_execution m) "" then set_execution "in_process" m else m in
    if negb (String.eqb (m_execution m) "in_process" || String.eqb (m_execution m) "isolated") then
      reject m kBadExecution ("execution must be " ++ quote "in_process" ++ " or " ++ quote "isolated" ++ ", not " ++ quote (m_execution m))
    else match List.find (fun p => negb (is_member p (map fst kPermissions))) (m_permissions m) with
    | Some p => reject m kUnknownPermission ("plugin " ++ quote (m_id m) ++ " declares the unknown permission " ++ quote p ++
        "; this gateway would not be able to enforce it")
    | None =>
    match List.find (fun t => negb (is_member t kTransports)) (m_transports m) with
    | Some t => reject m kUnknownTransport ("plugin " ++ quote (m_id m) ++ " asks for the unknown transport " ++ quote t)
    | None => mkManifestResult true kNone "" m
    end end
  end end.

(** ** Reading *)

(** [file_size]: [None] when it cannot be told.  [canonical]: [weakly_canonical]. *)
Record Files := mkFiles {
  is_regular_file : list Z -> bool; opens : list Z -> bool; file_size : list Z -> option Z; contents : list Z -> list Z;
  canonical : list Z -> list Z
}.

Definition parent_directory (path : list Z) : list Z :=
  match (until 47 (rev path)).2 with
  | [] => []
  | rest => match rev (skip_set [47] rest) with [] => [47] | dir => dir end
  end.

Section Load.
Context {J : JsonLib} {O : JsonFileOps}.

Definition manifest_string (l : list (string * json)) (key : string) : string :=
  match Json.member l key with
  | Some x => match view x with JString s => s | _ => "" end
  | None => ""
  end.

Definition StringArray (l : list (string * json)) (key : string) : list string :=
  match Json.member l key with
  | Some x => match view x with
              | JArray items => omap (fun e => match view e with JString s => Some s | _ => None end) items
              | _ => []
              end
  | None => []
  end.

Definition manifest_of (path : list Z) (l : list (string * json)) : PluginManifest :=
  mkManifest (manifest_string l "id") (manifest_string l "name") (manifest_string l "version") (manifest_string l "api_version")
    (manifest_string l "description") (manifest_string l "author") (manifest_string l "entry") (manifest_string l "execution")
    (StringArray l "platforms") (StringArray l "transports") (StringArray l "permissions") (parent_directory path) path.

(** The entry's resolved path has the directory's as a proper prefix. *)
Definition contained (dir entry : list Z) : bool :=
  negb (length entry <=? length dir)%nat && starts_with dir entry.

Definition LoadManifest (fs : Files) (path : list Z) (host : Z) : ManifestResult :=
  if negb (is_regular_file fs path) then fail_manifest kUnreadable ("no manifest at " ++ text_of path)
  else if negb (opens fs path) then fail_manifest kUnreadable ("cannot read " ++ text_of path)
  else if 256 * 1024 <? default 0 (file_size fs path) then
    fail_manifest kMalformedJson ("manifest at " ++ text_of path ++ " is implausibly large (" ++ to_string (default 0 (file_size fs path)) ++ " bytes)")
  else match read_json (contents fs path) with
  | None => fail_manifest kMalformedJson ("manifest at " ++ text_of path ++ " is not valid JSON")
  | Some j =>
  match view j with
  | JObject l =>
      let r := ValidateManifest (manifest_of path l) host in
      if negb (r_ok r) then r
      else
        let dir := m_directory (r_manifest r) in
        let entry := canonical fs (path_append dir (bytes_of (m_entry (r_manifest r)))) in
        if negb (contained (canonical fs dir) entry) then
          fail_manifest kEntryMissing ("entry " ++ quote (m_entry (r_manifest r)) ++ " escapes the plugin directory " ++ text_of (canonical fs dir))
        else if negb (is_regular_file fs entry) then
          fail_manifest kEntryMissing ("plugin " ++ quote (m_id (r_manifest r)) ++ " declares entry " ++ quote (m_entry (r_manifest r)) ++
            " but there is no such file in " ++ text_of dir)
        else r
  | _ => fail_manifest kMalformedJson ("manifest at " ++ text_of path ++ " is not a JSON object")
  end end.
End Load.
End Manifest.

(** ** The interface version *)

Lemma dec_value_nonneg digits : Forall (fun b => is_digit b = true) digits -> forall v, 0 <= v -> 0 <= dec_value v digits.
Proof.
  unfold dec_value, is_digit. induction 1 as [|b digits Hb _ IH]; intros v Hv; cbn; [done|]. apply IH. lia.
Qed.

Lemma version_part_iff part : version_part part = true <-> (length part <= 5)%nat /\ Forall (fun b => is_digit b = true) part.
Proof. unfold version_part. by rewrite andb_true_iff, Nat.leb_le, forallb_forall, List.Forall_forall. Qed.

Lemma no_dot_in_digits part : Forall (fun b => is_digit b = true) part -> 46 ∉ part.
Proof. intros H Hin. rewrite Forall_forall in H. by specialize (H 46 Hin). Qed.

(** The texts of the form digits, dot, digits, each at most 65535 in at most
    five digits. *)
Definition version_of (text : list Z) (v : Z) : Prop :=
  exists major minor, text = major ++ 46 :: minor /\ major <> [] /\ minor <> [] /\
    version_part major = true /\ version_part minor = true /\
    dec_value 0 major <= 0xFFFF /\ dec_value 0 minor <= 0xFFFF /\ v = dec_value 0 major * 65536 + dec_value 0 minor.

Lemma packed_version ma mi : 0 <= ma -> 0 <= mi <= 0xFFFF -> Z.lor (Z.shiftl ma 16) mi = ma * 65536 + mi.
Proof. intros H1 H2. rewrite lor_shiftl_add by lia. lia. Qed.

Lemma ParseApiVersion_iff text v : ParseApiVersion text = Some v <-> version_of text v.
Proof.
  unfold ParseApiVersion, version_of. pose proof (until_shape 46 text) as Hs. destruct (until 46 text) as [major [|d minor]] eqn:Eu.
  - split; [done|]. destruct Hs as (-> & Hn & _). intros (ma & mi & E & _). exfalso. apply Hn. rewrite app_nil_r in E. rewrite E.
    apply elem_of_app. right. by left.
  - destruct Hs as (-> & Hn & [|Hd]); [done|]. injection Hd as ->. split.
    + destruct (bool_decide (major = [])) eqn:E1; [done|]. destruct (bool_decide (minor = [])) eqn:E2; [done|].
      apply bool_decide_eq_false in E1, E2. destruct (existsb (Z.eqb 46) minor); [done|].
      destruct (version_part major && version_part minor) eqn:E3; [|done]. apply andb_true_iff in E3 as [E3 E4]. cbn [orb negb]. cbn zeta.
      destruct ((_ <? _) || _) eqn:E5; [done|]. apply orb_false_iff in E5 as [E5%Z.ltb_ge E6%Z.ltb_ge]. intros [= <-].
      pose proof (proj1 (version_part_iff _) E3) as [_ D1]. pose proof (proj1 (version_part_iff _) E4) as [_ D2].
      exists major, minor. split_and!; try done.
      apply packed_version; [by apply dec_value_nonneg|]. split; [by apply dec_value_nonneg|done].
    + intros (ma & mi & E & H1 & H2 & H3 & H4 & H5 & H6 & ->).
      pose proof (proj1 (version_part_iff _) H3) as [_ D1]. pose proof (proj1 (version_part_iff _) H4) as [_ D2].
      pose proof (until_unique 46 ma (46 :: mi) (no_dot_in_digits _ D1) (or_intror eq_refl)) as Eu'. rewrite <- E in Eu'.
      rewrite Eu in Eu'. injection Eu' as -> ->. rewrite !bool_decide_eq_false_2 by done. cbn [orb].
      assert (existsb (Z.eqb 46) mi = false) as ->.
      { apply not_true_iff_false. intros (x & Hx & Ex%Z.eqb_eq)%existsb_exists. subst x. by apply (no_dot_in_digits _ D2), list_elem_of_In. }
      rewrite H3, H4. cbn [andb negb]. cbn zeta. rewrite (proj2 (Z.ltb_ge _ _) H5), (proj2 (Z.ltb_ge _ _) H6). cbn [orb]. f_equal.
      apply packed_version; [by apply dec_value_nonneg|]. split; [by apply dec_value_nonneg|done].
Qed.

(** ** Identifiers *)

(** Every part between dots is there but perhaps the last. *)
Fixpoint parts_there (first : bool) (parts : list (list Z)) : Prop :=
  match parts with
  | [] | [_] => True
  | part :: rest => (first = true -> part <> []) /\ parts_there true rest
  end.

Lemma valid_id_loop_iff id : forall has prev, valid_id_loop has prev id = true <->
  Forall (Forall (fun c => id_char c = true)) (split_on 46 id) /\ parts_there prev (split_on 46 id) /\
  (has = true \/ (2 <= length (split_on 46 id))%nat).
Proof.
  induction id as [|c id IH]; intros has prev; cbn [valid_id_loop split_on].
  - cbn. split; [intros ->; split_and!; [by repeat constructor|done|by left]|]. intros (_ & _ & [|]); [done|lia].
  - destruct (split_on_cons 46 id) as (part & parts & E). destruct (c =? 46) eqn:Ec.
    + destruct prev.
      * split; [done|]. rewrite E. cbn. intros (_ & [H _] & _). by destruct H.
      * rewrite IH, E. cbn [length parts_there]. rewrite !Forall_cons. split.
        { intros (? & ? & _). split_and!; try done; tauto || (right; cbn; lia). }
        { intros ((_ & ?) & (_ & ?) & _). split_and!; try done; tauto. }
    + rewrite E. destruct (id_char c) eqn:Ei.
      * rewrite IH, E. cbn [length]. rewrite !Forall_cons. destruct parts as [|p parts]; cbn [parts_there].
        { split; intros (? & ? & ?); split_and!; tauto || done. }
        { split; intros (? & (? & ?) & ?); split_and!; tauto || done. }
      * split; [done|]. rewrite !Forall_cons, Ei. intros (((? & _) & _) & _). done.
Qed.

Lemma parts_there_all parts : parts_there true parts -> parts <> [] -> last parts <> Some [] -> Forall (fun part => part <> []) parts.
Proof.
  induction parts as [|p [|q parts] IH]; intros H Hn Hl; [done|..].
  - constructor; [|constructor]. intros ->. by apply Hl.
  - destruct H as [Hp H]. constructor; [auto|]. by apply IH.
Qed.

Lemma all_parts_there first parts : Forall (fun part => part <> []) parts -> parts_there first parts.
Proof. intros H. revert first. induction H as [|p [|q parts] Hp H IH]; intros first; cbn; [done..|]. split; [done|apply IH]. Qed.

Lemma split_on_last sep text : last (split_on sep text) = Some [] <-> text = [] \/ last text = Some sep.
Proof.
  induction text as [|c text IH]; [cbn; tauto|]. cbn [split_on]. destruct (split_on_cons sep text) as (part & parts & E).
  destruct (c =? sep) eqn:Ec.
  - apply Z.eqb_eq in Ec as ->. rewrite E in *. change (last ([] :: part :: parts)) with (last (part :: parts)). rewrite IH.
    destruct text as [|d text]; [by split; [right|left]|]. change (last (sep :: d :: text)) with (last (d :: text)).
    split; (intros [|]; [done|by right]).
  - apply Z.eqb_neq in Ec. rewrite E in *. destruct parts as [|p parts].
    + cbn in IH |- *. assert (text = [] \/ last text <> Some sep) as Ht.
      { destruct text as [|d text]; [by left|right]. intros Hl. pose proof (proj2 IH (or_intror Hl)) as [= ->].
        cbn in E. destruct (split_on_cons sep text) as (? & ? & E'). rewrite E' in E. by destruct (d =? sep). }
      split; [done|]. intros [|Hl]; [done|]. destruct Ht as [->|Ht]; [cbn in Hl; congruence|]. destruct text; [cbn in Hl; congruence|done].
    + change (last ((c :: part) :: p :: parts)) with (last (part :: p :: parts)). rewrite IH.
      destruct text as [|d text]; [by cbn in E|]. change (last (c :: d :: text)) with (last (d :: text)).
      split; (intros [|]; [done|by right]).
Qed.

(** Two or more parts between dots, none empty, of lower-case letters, digits,
    dashes and underscores. *)
Definition reverse_dns (id : list Z) : Prop :=
  (length id <= 128)%nat /\ (2 <= length (split_on 46 id))%nat /\
  Forall (fun part => part <> [] /\ Forall (fun c => id_char c = true) part) (split_on 46 id).

Lemma ValidId_iff id : ValidId id = true <-> reverse_dns id.
Proof.
  unfold ValidId, reverse_dns. destruct (bool_decide (id = [])) eqn:E0; cbn [orb].
  { apply bool_decide_eq_true in E0 as ->. split; [done|]. cbn. intros (_ & H & _). lia. }
  apply bool_decide_eq_false in E0. destruct (Nat.ltb_spec 128 (length id)) as [Hl|Hl]; [split; [done|intros (? & _); lia]|].
  rewrite Forall_and. destruct (bool_decide (last id = Some 46)) eqn:E1; cbn [orb].
  { rewrite orb_true_r. split; [done|]. intros (_ & _ & Hn & _). apply bool_decide_eq_true in E1.
    pose proof (proj2 (split_on_last 46 id) (or_intror E1)) as Hlast. apply last_Some_elem_of in Hlast.
    rewrite Forall_forall in Hn. by destruct (Hn [] Hlast). }
  apply bool_decide_eq_false in E1. rewrite orb_false_r. destruct (bool_decide (head id = Some 46)) eqn:E2.
  { split; [done|]. intros (_ & _ & Hn & _). apply bool_decide_eq_true in E2. destruct id as [|c id]; [done|]. injection E2 as ->.
    cbn in Hn. apply Forall_cons in Hn as [Hn _]. done. }
  rewrite valid_id_loop_iff. split.
  - intros (H1 & H2 & [|H3]); [done|]. split_and!; [done|done| |done]. apply parts_there_all; [done|..].
    + intros E. by rewrite E in H3; cbn in H3; lia.
    + intros H%split_on_last. naive_solver.
  - intros (_ & H2 & Hn & H1). split_and!; [done|by apply all_parts_there|by right].
Qed.

(** ** What is accepted *)

Definition compatible (host plugin : Z) : Prop := plugin / 65536 = host / 65536 /\ plugin mod 65536 <= host mod 65536.

Lemma compatible_iff host plugin : HSF_API_VERSION_COMPATIBLE host plugin = true <-> compatible host plugin.
Proof.
  unfold HSF_API_VERSION_COMPATIBLE, compatible, HSF_API_VERSION_MAJOR_OF, HSF_API_VERSION_MINOR_OF.
  change 0xFFFF with (Z.ones 16). rewrite !Z.land_ones, !Z.shiftr_div_pow2 by lia. change (2 ^ 16) with 65536. lia.
Qed.

Definition acceptable_manifest (here : string) (host : Z) (m : PluginManifest) : Prop :=
  Forall (fun r => snd r <> ""%string) (required m) /\ reverse_dns (bytes_of (m_id m)) /\ PlausibleVersion (bytes_of (m_version m)) = true /\
  (exists v, version_of (bytes_of (m_api_version m)) v /\ compatible host v) /\
  (m_platforms m = [] \/ here ∈ m_platforms m) /\ (m_execution m ∈ [EmptyString; "in_process"; "isolated"]%string) /\
  Forall (fun p => p ∈ map fst kPermissions) (m_permissions m) /\ Forall (fun t => t ∈ kTransports) (m_transports m).

(** The manifest with the default mode of execution. *)
Definition with_default_mode (m : PluginManifest) : PluginManifest :=
  if String.eqb (m_execution m) "" then set_execution "in_process" m else m.

Lemma is_member_iff x l : is_member x l = true <-> x ∈ l.
Proof.
  unfold is_member. rewrite existsb_exists. setoid_rewrite String.eqb_eq. setoid_rewrite <- list_elem_of_In. naive_solver.
Qed.

Lemma find_none_forall {A} (p : A -> bool) (P : A -> Prop) l : (forall x, p x = false <-> P x) -> List.find p l = None <-> Forall P l.
Proof.
  intros H. induction l as [|x l IH]; cbn; [by split|]. rewrite Forall_cons, <- IH, <- H. destruct (p x); [|tauto]. by split; [|intros [? _]].
Qed.

(** What a result says of the manifest [m]. *)
Definition says (r : ManifestResult) (m : PluginManifest) (accepted : Prop) : Prop :=
  (r_ok r = true <-> accepted) /\ (r_ok r = true -> r_error r = kNone /\ r_manifest r = with_default_mode m) /\
  (r_ok r = false -> r_error r <> kNone /\ (r_manifest r = m \/ r_manifest r = with_default_mode m)).

Lemma says_reject m e message (P : Prop) : e <> kNone -> ~ P -> says (reject m e message) m P.
Proof. intros He HP. split_and!; [by split|done|]. intros _. split; [done|by left]. Qed.

Lemma validate_exact here m host : says (ValidateManifest here m host) m (acceptable_manifest here host m).
Proof.
  unfold ValidateManifest, acceptable_manifest.
  pose proof (find_none_forall (fun r : string * string => String.eqb (snd r) "") (fun r => snd r <> ""%string) (required m)
    ltac:(intros x; apply String.eqb_neq)) as H1.
  destruct (List.find _ (required m)) as [r|]; [apply says_reject; [done|]; intros (H & _); by apply H1 in H|].
  pose proof (ValidId_iff (bytes_of (m_id m))) as H2. destruct (ValidId _); cbn [negb]; [|apply says_reject; [done|]; intros (_ & H & _); by apply H2 in H].
  destruct (PlausibleVersion _) eqn:H3; cbn [negb]; [|apply says_reject; [done|]; by intros (_ & _ & H & _)].
  pose proof (ParseApiVersion_iff (bytes_of (m_api_version m))) as H4. destruct (ParseApiVersion _) as [v|];
    [|apply says_reject; [done|]; intros (_ & _ & _ & (v & Hv & _) & _); by apply H4 in Hv].
  pose proof (compatible_iff host v) as H5. destruct (HSF_API_VERSION_COMPATIBLE host v); cbn [negb];
    [|apply says_reject; [done|]; intros (_ & _ & _ & (v' & Hv & Hc) & _); apply H4 in Hv; injection Hv as <-; by apply H5 in Hc].
  destruct (negb (bool_decide (m_platforms m = [])) && negb (is_member here (m_platforms m))) eqn:H6.
  { apply says_reject; [done|]. intros (_ & _ & _ & _ & H & _). apply andb_true_iff in H6 as [H6 H7].
    apply negb_true_iff in H6, H7. apply bool_decide_eq_false in H6. destruct H as [|H]; [done|]. apply is_member_iff in H. congruence. }
  assert (m_platforms m = [] \/ here ∈ m_platforms m) as H6'.
  { apply andb_false_iff in H6 as [H6|H6]; apply negb_false_iff in H6; [left; by apply bool_decide_eq_true in H6|right; by apply is_member_iff]. }
  fold (with_default_mode m). assert (m_permissions (with_default_mode m) = m_permissions m /\ m_transports (with_default_mode m) = m_transports m) as [Ep Et]
    by (unfold with_default_mode; by destruct (String.eqb _ _)).
  cbn zeta. rewrite Ep, Et.
  assert ((String.eqb (m_execution (with_default_mode m)) "in_process" || String.eqb (m_execution (with_default_mode m)) "isolated" = true)
    <-> (m_execution m ∈ [EmptyString; "in_process"; "isolated"]%string)) as H7.
  { rewrite orb_true_iff, !String.eqb_eq, !elem_of_cons. unfold with_default_mode.
    destruct (String.eqb_spec (m_execution m) "") as [->|E]; cbn; [by split; [left|left]|]. rewrite elem_of_nil. tauto. }
  assert (forall e message (P : Prop), e <> kNone -> ~ P -> says (reject (with_default_mode m) e message) m P) as Hrej.
  { intros e message P He HP. split_and!; [by split|done|]. intros _. split; [done|by right]. }
  destruct (String.eqb _ "in_process" || _); cbn [negb]; [|apply Hrej; [done|]; intros (_ & _ & _ & _ & _ & H & _); by apply H7 in H].
  pose proof (find_none_forall (fun p => negb (is_member p (map fst kPermissions))) (fun p => p ∈ map fst kPermissions) (m_permissions m)
    ltac:(intros x; rewrite negb_false_iff; apply is_member_iff)) as H8.
  destruct (List.find _ (m_permissions m)); [apply Hrej; [done|]; intros (_ & _ & _ & _ & _ & _ & H & _); by apply H8 in H|].
  pose proof (find_none_forall (fun t => negb (is_member t kTransports)) (fun t => t ∈ kTransports) (m_transports m)
    ltac:(intros x; rewrite negb_false_iff; apply is_member_iff)) as H9.
  destruct (List.find _ (m_transports m)); [apply Hrej; [done|]; intros (_ & _ & _ & _ & _ & _ & _ & H); by apply H9 in H|].
  split_and!; [split; [intros _|done]|done|done]. split_and!; [by apply H1|by apply H2|done|..].
  - exists v. by split; [apply H4|apply H5].
  - done.
  - by apply H7.
  - by apply H8.
  - by apply H9.
Qed.

Section Accepted.
Context {J : JsonLib} {O : JsonFileOps}.

(** The directory's path resolved, and the entry's. *)
Definition resolved_directory (fs : Files) (path : list Z) : list Z := canonical fs (parent_directory path).
Definition resolved_entry (fs : Files) (path : list Z) (m : PluginManifest) : list Z :=
  canonical fs (path_append (parent_directory path) (bytes_of (m_entry m))).

Lemma contained_iff dir entry : contained dir entry = true <-> exists rest, rest <> [] /\ entry = dir ++ rest.
Proof.
  unfold contained. rewrite andb_true_iff, negb_true_iff, Nat.leb_gt, starts_with_iff. split.
  - intros [Hl (rest & ->)]. exists rest. split; [|done]. intros ->. rewrite app_nil_r in Hl. lia.
  - intros (rest & Hr & ->). split; [|by exists rest]. rewrite length_app. destruct rest; [done|]. cbn. lia.
Qed.

Lemma accepted_valid here (fs : Files) path host : r_ok (LoadManifest here fs path host) = true ->
  exists m, acceptable_manifest here host m /\ r_manifest (LoadManifest here fs path host) = with_default_mode m.
Proof.
  unfold LoadManifest. destruct (is_regular_file fs path); [|done]. destruct (opens fs path); [|done].
  cbn [negb]. destruct (_ <? _); [done|]. destruct (read_json _) as [j|]; [|done]. destruct (view j) as [| | | | | | |l]; try done.
  destruct (validate_exact here (manifest_of path l) host) as (H1 & H2 & _). destruct (r_ok (ValidateManifest _ _ _)) eqn:Eok; cbn [negb]; [|congruence].
  destruct (contained _ _); [|done]. cbn [negb]. destruct (is_regular_file _ _); [|done]. cbn [negb]. intros _. destruct (H2 eq_refl) as [_ Hm].
  exists (manifest_of path l). split; [by apply H1|done].
Qed.

(** A path inside a directory, and one whose text only continues the
    directory's: in a directory beside it, with a longer name. *)
Definition inside (dir entry : list Z) : Prop :=
  exists rest, rest <> [] /\ entry = dir ++ rest /\ (last dir = Some 47 \/ head rest = Some 47).
Definition beside (dir entry : list Z) : Prop :=
  exists rest, rest <> [] /\ entry = dir ++ rest /\ last dir <> Some 47 /\ head rest <> Some 47.

Lemma contained_inside dir entry : ~ beside dir entry -> contained dir entry = true <-> inside dir entry.
Proof.
  intros Hn. rewrite contained_iff. split.
  - intros (rest & Hr & E). exists rest. split_and!; [done|done|].
    destruct (decide (last dir = Some 47)); [by left|]. destruct (decide (head rest = Some 47)); [by right|].
    contradict Hn. by exists rest.
  - intros (rest & Hr & E & _). by exists rest.
Qed.

(** C30: Take a manifest file whose entry does not resolve into a directory
    beside the plugin's with a longer name, [modbus-evil] for [modbus] - such an
    entry is accepted too ([sibling_directory_is_inside]).  It is accepted
    exactly when the file can be read, is not larger than 256 KiB and holds a
    JSON object in which, a member of another type counting as absent and an
    item of a list that is not a text as left out, every required text is there,
    the identifier is reverse-DNS of lower-case parts, the version plausible, the
    interface version MAJOR.MINOR with the gateway's major and no later minor,
    this platform or none named, the mode of execution known or absent, the
    permissions and transports known - and its entry resolves to a file inside
    the plugin's directory.  What is accepted is what the file says, with the
    default mode, and a refusal names its kind. *)
Theorem manifest_accepted_exactly here (fs : Files) path host :
  (forall (j : json) l, read_json (contents fs path) = Some j -> view j = JObject l ->
     ~ beside (resolved_directory fs path) (resolved_entry fs path (manifest_of path l))) ->
  let r := LoadManifest here fs path host in
  (r_ok r = true <->
    is_regular_file fs path = true /\ opens fs path = true /\ default 0 (file_size fs path) <= 256 * 1024 /\
    exists (j : json) l, read_json (contents fs path) = Some j /\ view j = JObject l /\
      acceptable_manifest here host (manifest_of path l) /\
      inside (resolved_directory fs path) (resolved_entry fs path (manifest_of path l)) /\
      is_regular_file fs (resolved_entry fs path (manifest_of path l)) = true) /\
  (r_ok r = true -> r_error r = kNone /\ forall (j : json) l, read_json (contents fs path) = Some j -> view j = JObject l ->
     r_manifest r = with_default_mode (manifest_of path l)) /\
  (r_ok r = false -> r_error r <> kNone).
Proof.
  intros Hb. unfold LoadManifest. cbn zeta.
  destruct (is_regular_file fs path); cbn [negb]; [|by split_and!; [split; [|intros (? & _)]|..]].
  destruct (opens fs path); cbn [negb]; [|by split_and!; [split; [|intros (_ & ? & _)]|..]].
  destruct (Z.ltb_spec (256 * 1024) (default 0 (file_size fs path))); [split_and!; [split; [done|intros (_ & _ & ? & _); lia]|done..]|].
  destruct (read_json (contents fs path)) as [j|]; [|by split_and!; [split; [|intros (_ & _ & _ & j & l & ? & _)]|..]].
  destruct (view j) as [| | | | | | |l] eqn:Ev.
  1-7: split_and!; [split; [done|intros (_ & _ & _ & j' & l' & [= <-] & E & _); congruence]|done..].
  destruct (validate_exact here (manifest_of path l) host) as (H1 & H2 & H3).
  destruct (r_ok (ValidateManifest here (manifest_of path l) host)) eqn:Eok; cbn [negb].
  2:{ split_and!; [split; [congruence|]|congruence|by intros _; apply H3].
      intros (_ & _ & _ & j' & l' & [= <-] & E & Ha & _). rewrite Ev in E. injection E as <-. by apply H1 in Ha. }
  destruct (H2 eq_refl) as [He Hm]. rewrite Hm.
  assert (m_directory (with_default_mode (manifest_of path l)) = parent_directory path /\ m_entry (with_default_mode (manifest_of path l)) = m_entry (manifest_of path l)) as [-> ->]
    by (unfold with_default_mode; by destruct (String.eqb _ _)).
  change (canonical fs (parent_directory path)) with (resolved_directory fs path).
  change (canonical fs (path_append (parent_directory path) (bytes_of (m_entry (manifest_of path l))))) with (resolved_entry fs path (manifest_of path l)).
  pose proof (contained_inside _ _ (Hb _ l eq_refl Ev)) as H4.
  destruct (contained _ _); cbn [negb].
  2:{ split_and!; [split; [done|]|done..]. intros (_ & _ & _ & j' & l' & [= <-] & E & _ & Hc & _). rewrite Ev in E. injection E as <-. by apply H4 in Hc. }
  destruct (is_regular_file fs (resolved_entry fs path (manifest_of path l))) eqn:H5; cbn [negb].
  2:{ split_and!; [split; [done|]|done..]. intros (_ & _ & _ & j' & l' & [= <-] & E & _ & _ & Hf). rewrite Ev in E. injection E as <-. congruence. }
  rewrite Eok, He. split_and!; [split; [intros _|done]|intros _|done].
  - split_and!; [done|done|lia|]. exists j, l. split_and!; [done|done|by apply H1|by apply H4|done].
  - split; [done|]. intros j' l' [= <-] E. rewrite Ev in E. by injection E as <-.
Qed.
End Accepted.

(** ** Files without symbolic links *)

(** Resolution of a path: the parts of a text, [.] and [..] taken out. *)
Fixpoint resolve (done : list (list Z)) (parts : list (list Z)) : list (list Z) :=
  match parts with
  | [] => rev done
  | part :: rest =>
      if bool_decide (part = []) || bool_decide (part = b! ".") then resolve done rest
      else if bool_decide (part = b! "..") then resolve (tl done) rest
      else resolve (part :: done) rest
  end.
Definition lexical (path : list Z) : list Z := concat (map (cons 47) (resolve [] (split_on 47 path))).

(** A tree of files, with their contents. *)
Definition tree_files (tree : list (list Z * list Z)) : Files :=
  let found := fun path => List.find (fun f => bool_decide (f.1 = lexical path)) tree in
  mkFiles (fun path => match found path with Some _ => true | None => false end) (fun _ => true)
    (fun path => (fun f => Z.of_nat (length f.2)) <$> found path) (fun path => match found path with Some f => f.2 | None => [] end) lexical.

(** ** What modelling showed *)

Definition toy_manifest (entry : string) : jtree :=
  TObject [("id", TString "hsf.driver.modbus"); ("name", TString "Modbus"); ("version", TString "1.0.0");
           ("api_version", TString "1.0"); ("entry", TString entry); ("permissions", TArray [TString "serial"])]%string.

(** The text [dump] gives is one of an instance. *)
Definition toy_text (t : jtree) : list Z := match dump_text (JsonFileOps := coded_ops) t with Some bs => bs | None => [] end.
Definition toy_tree (entry : string) : Files :=
  tree_files [
    (b! "/plugins/modbus/manifest.json", toy_text (toy_manifest entry)); (b! "/plugins/modbus/plugin.so", []);
    (b! "/plugins/modbus-evil/plugin.so", []); (b! "/bin/gateway", [])].
Definition toy_load (entry : string) : ManifestResult :=
  LoadManifest (J := jtree_json) "linux-x86_64" (toy_tree entry) (b! "/plugins/modbus/manifest.json") 0x10000.

(** The entry is compared as text: a directory whose name begins with the
    plugin's is taken for the plugin's own. *)
Example sibling_directory_is_inside :
  r_ok (toy_load "plugin.so") = true /\ r_error (toy_load "../../bin/gateway") = kEntryMissing /\
  r_ok (toy_load "../modbus-evil/plugin.so") = true.
Proof. by split_and!; vm_compute. Qed.

(** A manifest whose entry is missing loses the identifier it was read with,
    although the validation keeps it. *)
Example missing_entry_is_nameless : r_manifest (toy_load "other.so") = blank_manifest.
Proof. vm_compute. reflexivity. Qed.

Lemma toy_beside (j : jtree) l : let fs := toy_tree "plugin.so" in let path := b! "/plugins/modbus/manifest.json" in
  read_json (J := jtree_json) (contents fs path) = Some j -> view (JsonLib := jtree_json) j = JObject l ->
  ~ beside (resolved_directory fs path) (resolved_entry fs path (manifest_of (J := jtree_json) path l)).
Proof.
  intros fs path Ej El. vm_compute in Ej. injection Ej as <-. vm_compute in El. injection El as <-.
  intros (rest & _ & E & _ & Hn). vm_compute in E. injection E as <-. by apply Hn.
Qed.

Lemma manifest_accepted_exactly_witness :
  let fs := toy_tree "plugin.so" in let path := b! "/plugins/modbus/manifest.json" in
  r_ok (toy_load "plugin.so") = true /\ exists j l, read_json (J := jtree_json) (contents fs path) = Some j /\ view (JsonLib := jtree_json) j = JObject l /\
    acceptable_manifest "linux-x86_64" 0x10000 (manifest_of (J := jtree_json) path l) /\
    inside (resolved_directory fs path) (resolved_entry fs path (manifest_of (J := jtree_json) path l)).
Proof.
  intros fs path. assert (r_ok (toy_load "plugin.so") = true) as Hr by (vm_compute; reflexivity). split; [exact Hr|].
  destruct (proj1 (proj1 (manifest_accepted_exactly (J := jtree_json) "linux-x86_64" fs path 0x10000 toy_beside)) Hr) as (_ & _ & _ & j & l & H1 & H2 & H3 & H4 & _).
  exists j, l. exact (conj H1 (conj H2 (conj H3 H4))).
Defined.
