(* ===== verification/PluginManager.v ===== *)
(** * The plugin manager (src/plugin_manager/PluginManager.cpp)

    Each method is a program of atomic actions on the manager and on what lives
    outside it: the libraries that are mapped, the instances their code runs and
    the transports.  A load takes the next number, which names its library, its
    instance and its transport.  Calling into a library that is not mapped, an
    instance that is gone, or a driver whose transport was freed is a [Fault].
    What a shared object answers, what the transport factory and the drivers
    return, is the environment. *)

From S2P Require Import Prelude Words Text Json JsonFile Threads PluginManifest.

Inductive PluginState := kDiscovered | kValidated | kInstalled | kDisabled | kEnabled | kRunning | kFailed.
#[global] Instance PluginState_eq : EqDecision PluginState.
Proof. solve_decision. Defined.

Definition PluginStateName (s : PluginState) : string :=
  match s with
  | kDiscovered => "DISCOVERED" | kValidated => "VALIDATED" | kInstalled => "INSTALLED" | kDisabled => "DISABLED"
  | kEnabled => "ENABLED" | kRunning => "RUNNING" | kFailed => "FAILED"
  end.

(** A driver: the instance it belongs to, whether it has [stop] and [health],
    and the kinds of transport it supports (any, when it names none). *)
Record Driver := mkDriver { d_self : nat; d_stop : bool; d_health : bool; d_supported : list Z }.

Record Entry := mkEntry {
  e_manifest : PluginManifest; e_state : PluginState; e_error : string; e_enabled : bool;
  e_library : option nat; e_instance : option nat; e_driver : option Driver; e_transport : option nat
}.
Definition new_entry : Entry := mkEntry blank_manifest kDiscovered "" false None None None None.

(** [i_holds]: the transport the driver was initialised with. *)
Record PluginInstance := mkInstance { i_holds : option nat; i_started : bool }.

Record PluginManager {J : JsonLib} := mkPlugins {
  plugins_ : gmap string Entry; root_ : list Z; config_ : list (string * json);
  fresh : nat; libraries : gset nat; instances : gmap nat PluginInstance; transports : gset nat
}.
Arguments mkPlugins {J}.

(** ** The shared object *)

Record PluginInfo := mkInfo { i_id : list Z; i_permissions : Z; i_is_driver : bool }.

(** [b_create]: the status, and whether an instance and its table came back;
    [b_driver]: the driver of the instance, when it has one. *)
Record Binary := mkBinary {
  b_abi : Z; b_info : option PluginInfo; b_create : Z * bool * bool; b_driver : option (bool * bool * list Z)
}.

(** What happens during one load: the library or the loader's message, and the
    kind of transport the factory makes or its message. *)
Record load_env := mkLoadEnv { l_binary : Binary + string; l_transport : Z + string }.

(** The statuses of [initialize] and [start], [None] when the driver has none. *)
Record start_env := mkStartEnv { s_initialize : option Z; s_start : option Z }.

Section PluginManager.
Context {J : JsonLib}.
Abbreviation PM := (PluginManager (J := J)).

(** [hsf_status_name] and [hsf_transport_kind_name] of the SDK, the platform
    and the gateway's version of the interface. *)
Context (hsf_status_name kind_name : Z -> string) (host : Z).

Definition new_manager : PM := mkPlugins ∅ [] [] 0 ∅ ∅ ∅.

Definition set_plugins (plugins : gmap string Entry) (s : PM) : PM :=
  mkPlugins plugins (root_ s) (config_ s) (fresh s) (libraries s) (instances s) (transports s).
Definition set_libraries (l : gset nat) (s : PM) : PM := mkPlugins (plugins_ s) (root_ s) (config_ s) (fresh s) l (instances s) (transports s).
Definition set_instances (l : gmap nat PluginInstance) (s : PM) : PM :=
  mkPlugins (plugins_ s) (root_ s) (config_ s) (fresh s) (libraries s) l (transports s).
Definition set_transports (l : gset nat) (s : PM) : PM := mkPlugins (plugins_ s) (root_ s) (config_ s) (fresh s) (libraries s) (instances s) l.

Definition SetPluginRoot (root : list Z) (s : PM) : PM :=
  mkPlugins (plugins_ s) root (config_ s) (fresh s) (libraries s) (instances s) (transports s).
Definition SetConfiguration (all : json) (s : PM) : PM :=
  mkPlugins (plugins_ s) (root_ s) (match view all with JObject l => l | _ => [] end) (fresh s) (libraries s) (instances s) (transports s).

Definition set_entry (id : string) (f : Entry -> Entry) (s : PM) : PM :=
  match plugins_ s !! id with Some e => set_plugins (<[id := f e]> (plugins_ s)) s | None => s end.

Definition set_state (state : PluginState) (error : string) (e : Entry) : Entry :=
  mkEntry (e_manifest e) state error (e_enabled e) (e_library e) (e_instance e) (e_driver e) (e_transport e).
Definition set_error (error : string) (e : Entry) : Entry := set_state (e_state e) error e.
Definition set_intent (enabled : bool) (e : Entry) : Entry :=
  mkEntry (e_manifest e) (e_state e) (e_error e) enabled (e_library e) (e_instance e) (e_driver e) (e_transport e).
Definition set_manifest (m : PluginManifest) (e : Entry) : Entry :=
  mkEntry m (e_state e) (e_error e) (e_enabled e) (e_library e) (e_instance e) (e_driver e) (e_transport e).

(** ** Actions on what lives outside *)

Definition OpenLibrary : prog PM nat :=
  act (fun s : PM => (fresh s, mkPlugins (plugins_ s) (root_ s) (config_ s) (S (fresh s)) ({[fresh s]} ∪ libraries s) (instances s) (transports s))).

Definition CloseLibrary (g : nat) : prog PM unit := put (fun s : PM => set_libraries (libraries s ∖ {[g]}) s).

Definition mapped (g : nat) (s : PM) : bool := bool_decide (g ∈ libraries s).

(** The library's own entry points. *)
Definition CallLibrary (g : nat) : prog PM unit :=
  Act always (fun s : PM => if mapped g s then Ok (tt, s) else Fault) Ret.

Definition Create (g : nat) (made : bool) : prog PM unit :=
  Act always (fun s : PM =>
    if mapped g s then Ok (tt, if made then set_instances (<[g := mkInstance None false]> (instances s)) s else s) else Fault) Ret.

(** The code of an instance may run: it is there, its library is mapped, and
    the transport it was given is. *)
Definition callable (g : nat) (s : PM) : bool :=
  mapped g s && match instances s !! g with
                | Some i => match i_holds i with Some t => bool_decide (t ∈ transports s) | None => true end
                | None => false
                end.

Definition CallInstance (g : nat) (f : PluginInstance -> PluginInstance) : prog PM unit :=
  Act always (fun s : PM => if callable g s then Ok (tt, set_instances (alter f g (instances s)) s) else Fault) Ret.

Definition DestroyInstance (g : nat) : prog PM unit :=
  Act always (fun s : PM => if callable g s then Ok (tt, set_instances (delete g (instances s)) s) else Fault) Ret.

Definition CreateTransport (g : nat) : prog PM unit := put (fun s : PM => set_transports ({[g]} ∪ transports s) s).

Definition DestroyTransport (g : nat) : prog PM unit :=
  Act always (fun s : PM => if bool_decide (g ∈ transports s) then Ok (tt, set_transports (transports s ∖ {[g]}) s) else Fault) Ret.

(** [initialize] hands the driver its transport, which must be there. *)
Definition Initialize (g : nat) (transport : option nat) : prog PM unit :=
  Act always (fun s : PM =>
    if callable g s && match transport with Some t => bool_decide (t ∈ transports s) | None => true end
    then Ok (tt, set_instances (alter (fun i => mkInstance transport (i_started i)) g (instances s)) s) else Fault) Ret.

Definition started (b : bool) (i : PluginInstance) : PluginInstance := mkInstance (i_holds i) b.

(** ** ReleaseEntry: stop the driver, destroy the instance, then close the library *)

Definition StopDriver (d : option Driver) : prog PM unit :=
  match d with
  | Some d => if d_stop d then CallInstance (d_self d) (started false) else Ret tt
  | None => Ret tt
  end.

Definition ReleaseEntry (e : Entry) : prog PM unit :=
  StopDriver (e_driver e) ≫= fun _ =>
  match e_instance e, e_library e with Some g, Some _ => DestroyInstance g | _, _ => Ret tt end ≫= fun _ =>
  match e_transport e with Some g => DestroyTransport g | None => Ret tt end ≫= fun _ =>
  match e_library e with Some g => CloseLibrary g | None => Ret tt end.

(** The destructor. *)
Definition Destruct : prog PM unit :=
  get plugins_ ≫= fun plugins => each (fun kv => ReleaseEntry kv.2) (map_to_list plugins) ≫= fun _ => put (set_plugins ∅).

(** ** Discover *)

(** One scanned manifest goes into the table. *)
Definition record_manifest (plugins : gmap string Entry) (r : ManifestResult) : gmap string Entry :=
  if negb (r_ok r) then
    let id := if String.eqb (m_id (r_manifest r)) "" then text_of (m_path (r_manifest r)) else m_id (r_manifest r) in
    let slot := default new_entry (plugins !! id) in
    if bool_decide (e_state slot = kRunning) then <[id := slot]> plugins
    else
      let m := if String.eqb (m_id (r_manifest r)) "" then set_id id (r_manifest r) else r_manifest r in
      <[id := set_state kFailed (ManifestErrorName (r_error r) ++ ": " ++ r_message r) (set_manifest m slot)]> plugins
  else
    let id := m_id (r_manifest r) in
    let slot := default new_entry (plugins !! id) in
    if bool_decide (e_state slot = kRunning) || bool_decide (e_state slot = kEnabled) then <[id := slot]> plugins
    else <[id := set_state kValidated "" (set_manifest (r_manifest r) slot)]> plugins.

(** [directories]: those of the root in the order of the iterator, or [None]
    when the root is not a directory. *)
Definition scan {O : JsonFileOps} (here : string) (fs : Files) (directories : list (list Z)) : list ManifestResult :=
  map (fun path => LoadManifest here fs path host)
    (List.filter (is_regular_file fs) (map (fun dir => path_append dir (b! "manifest.json")) directories)).

Definition Discover {O : JsonFileOps} (here : string) (fs : Files) (directories : option (list (list Z))) : prog PM Z :=
  get root_ ≫= fun root =>
  match root, directories with
  | [], _ | _, None => Ret 0
  | _, Some directories =>
      let found := scan here fs directories in
      act (fun s : PM => let plugins := foldl record_manifest (plugins_ s) found in (Z.of_nat (size plugins), set_plugins plugins s))
  end.

(** ** Load *)

(** What the first critical section of a method decides. *)
Inductive checked (A : Type) := Finished (r : res unit) | Continue (a : A).
Arguments Finished {A}.
Arguments Continue {A}.

(** The plugin's own section of the configuration. *)
Definition section_of (id : string) (config : list (string * json)) : list (string * json) :=
  match Json.member config id with
  | Some x => match view x with JObject l => l | _ => [] end
  | None => []
  end.

Definition load_check (id : string) (s : PM) : checked (PluginManifest * list (string * json)) :=
  match plugins_ s !! id with
  | None => Finished (Err ("no such plugin: " ++ id))
  | Some e =>
      if bool_decide (is_Some (e_instance e)) then Finished (Ok tt)
      else if bool_decide (e_state e = kFailed) && bool_decide (e_library e = None) && String.eqb (m_entry (e_manifest e)) "" then
        Finished (Err (if String.eqb (e_error e) "" then "plugin failed validation" else e_error e))
      else Continue (e_manifest e, section_of id (config_ s))
  end.

(** A load that fails: the record says why, then the library is closed. *)
Definition fail_entry (id error : string) : prog PM unit := put (set_entry id (set_state kFailed error)).
Definition fail_load (id error : string) (g : nat) : prog PM (res unit) :=
  fail_entry id error ≫= fun _ => CloseLibrary g ≫= fun _ => Ret (Err error).

Definition undeclared (requested declared : Z) : bool := negb (Z.land requested (Z.lxor declared (2 ^ 32 - 1)) =? 0).

(** The transport of the driver, from the "transport" block of its section. *)
Definition has_block (section : list (string * json)) : bool :=
  match Json.member section "transport" with
  | Some x => match view x with JObject _ => true | _ => false end
  | None => false
  end.

Definition load_transport (id : string) (g : nat) (supported : list Z) (made : Z + string) : prog PM (option nat) :=
  match made with
  | inr error => put (set_entry id (set_error error)) ≫= fun _ => Ret None
  | inl kind =>
      CreateTransport g ≫= fun _ =>
      if bool_decide (supported = []) || existsb (Z.eqb kind) supported then Ret (Some g)
      else DestroyTransport g ≫= fun _ =>
           put (set_entry id (set_error ("plugin " ++ id ++ " does not support a " ++ kind_name kind ++ " transport"))) ≫= fun _ => Ret None
  end.

(** The last critical section; what the entry had is replaced, and a library
    it still had is closed by the assignment. *)
Definition load_commit (id : string) (g : nat) (driver : option Driver) (transport : option nat) (s : PM) : PM :=
  match plugins_ s !! id with
  | None => s
  | Some e =>
      let s := match e_library e with Some old => set_libraries (libraries s ∖ {[old]}) s | None => s end in
      set_plugins (<[id := mkEntry (e_manifest e) kInstalled "" (e_enabled e) (Some g) (Some g) driver transport]> (plugins_ s)) s
  end.

Definition declared_text (id : string) (m : PluginManifest) (abi : Z) : string :=
  "plugin " ++ id ++ " was built against Plugin API " ++ version_text abi ++ ", this gateway provides " ++ version_text host.

Definition load_opened (id : string) (m : PluginManifest) (section : list (string * json)) (b : Binary) (made : Z + string) (g : nat) : prog PM (res unit) :=
  CallLibrary g ≫= fun _ =>
  if negb (HSF_API_VERSION_COMPATIBLE host (b_abi b)) then fail_load id (declared_text id m (b_abi b)) g
  else
    CallLibrary g ≫= fun _ =>
    match b_info b with
    | None => fail_load id ("plugin " ++ id ++ " returned no HSFPluginInfo") g
    | Some info =>
        if negb (bool_decide (i_id info = bytes_of (m_id m))) then
          fail_load id ("manifest declares id " ++ quote (m_id m) ++ " but the binary reports " ++ quote (text_of (i_id info)) ++
            "; the manifest and plugin.so do not belong together") g
        else if undeclared (i_permissions info) (PermissionBits m) then
          fail_load id ("plugin " ++ id ++ " requests permissions its manifest does not declare") g
        else
          let '(status, instance, table) := b_create b in
          let made_one := (0 <=? status) && instance && table in
          Create g made_one ≫= fun _ =>
          if negb made_one then fail_load id ("plugin " ++ id ++ " failed to create: " ++ hsf_status_name status) g
          else
            (if i_is_driver info then
               match b_driver b with
               | Some (stop, health, supported) =>
                   CallInstance g (fun i => i) ≫= fun _ => Ret (Some (mkDriver g stop health supported))
               | None => Ret None
               end
             else Ret None) ≫= fun driver =>
            match driver with
            | Some d => if has_block section then load_transport id g (d_supported d) made else Ret None
            | None => Ret None
            end ≫= fun transport =>
            put (load_commit id g driver transport) ≫= fun _ => Ret (Ok tt)
    end.

Definition Load (id : string) (env : load_env) : prog PM (res unit) :=
  get (load_check id) ≫= fun c =>
  match c with
  | Finished r => Ret r
  | Continue (m, section) =>
      match l_binary env with
      | inr error => fail_entry id error ≫= fun _ => Ret (Err error)
      | inl b => OpenLibrary ≫= load_opened id m section b (l_transport env)
      end
  end.

(** ** Unload *)

(** The entry is moved out, and a fresh one with its manifest stays. *)
Definition detach (id : string) (s : PM) : checked Entry * PM :=
  match plugins_ s !! id with
  | None => (Finished (Err ("no such plugin: " ++ id)), s)
  | Some e =>
      if bool_decide (e_instance e = None) && bool_decide (e_library e = None) then
        (Finished (Ok tt), set_entry id (fun e => set_state kValidated (e_error e) e) s)
      else
        (Continue e, set_entry id (fun e => mkEntry (e_manifest e) kValidated "" (e_enabled e) None None None None) s)
  end.

Definition Unload (id : string) : prog PM (res unit) :=
  act (detach id) ≫= fun c =>
  match c with
  | Finished r => Ret r
  | Continue e => ReleaseEntry e ≫= fun _ => Ret (Ok tt)
  end.

(** ** Enable and disable *)

Definition enable_mark (id : string) (s : PM) : checked (option Driver) * PM :=
  match plugins_ s !! id with
  | None => (Finished (Err ("no such plugin: " ++ id)), s)
  | Some e =>
      if bool_decide (e_state e = kRunning) then (Finished (Ok tt), set_entry id (set_intent true) s)
      else (Continue (e_driver e), set_entry id (fun e => set_state kEnabled (e_error e) (set_intent true e)) s)
  end.

Definition initialize_driver (d : Driver) (env : start_env) (transport : option nat) : prog PM Z :=
  match s_initialize env with
  | Some st => Initialize (d_self d) transport ≫= fun _ => Ret st
  | None => Ret 0
  end.

Definition transport_of (id : string) (s : PM) : option nat :=
  match plugins_ s !! id with Some e => e_transport e | None => None end.

Definition call_start (d : Driver) (env : start_env) (st : Z) : prog PM Z :=
  match s_start env with
  | Some st' =>
      if 0 <=? st then CallInstance (d_self d) (if 0 <=? st' then started true else fun i => i) ≫= fun _ => Ret st' else Ret st
  | None => Ret st
  end.

(** [initialize] then [start]; the status. *)
Definition start_driver (id : string) (d : Driver) (env : start_env) : prog PM Z :=
  get (transport_of id) ≫= fun transport => initialize_driver d env transport ≫= call_start d env.

Definition enable_finish (id : string) (st : Z) (s : PM) : res unit * PM :=
  match plugins_ s !! id with
  | None => (Err ("plugin " ++ id ++ " disappeared while starting"), s)
  | Some _ =>
      if st <? 0 then
        let error := ("start failed: " ++ hsf_status_name st)%string in
        (Err error, set_entry id (set_state kEnabled error) s)
      else (Ok tt, set_entry id (set_state kRunning "") s)
  end.

Definition Enable (id : string) (load : load_env) (start : start_env) : prog PM (res unit) :=
  Load id load ≫= fun r =>
  match r with
  | Ok _ =>
      act (enable_mark id) ≫= fun c =>
      match c with
      | Finished r => Ret r
      | Continue None => put (set_entry id (fun e => set_state kRunning (e_error e) e)) ≫= fun _ => Ret (Ok tt)
      | Continue (Some d) => start_driver id d start ≫= fun st => act (enable_finish id st)
      end
  | r => Ret r
  end.

Definition disable_mark (id : string) (s : PM) : checked (option Driver) * PM :=
  match plugins_ s !! id with
  | None => (Finished (Err ("no such plugin: " ++ id)), s)
  | Some e => (Continue (e_driver e), set_entry id (set_intent false) s)
  end.

Definition Disable (id : string) : prog PM (res unit) :=
  act (disable_mark id) ≫= fun c =>
  match c with
  | Finished r => Ret r
  | Continue d => StopDriver d ≫= fun _ => put (set_entry id (set_state kDisabled "")) ≫= fun _ => Ret (Ok tt)
  end.

(** ** The other calls *)

Definition health_check (id : string) (s : PM) : checked (option Driver) :=
  match plugins_ s !! id with
  | None => Finished (Err ("no such plugin: " ++ id))
  | Some e =>
      if bool_decide (e_state e = kRunning) then Continue (e_driver e)
      else Finished (Err ("plugin " ++ id ++ " is " ++ PluginStateName (e_state e) ++ ", not RUNNING"))
  end.

Definition HealthCheck (id : string) (status : Z) : prog PM (res unit) :=
  get (health_check id) ≫= fun c =>
  let none := Ret (Err ("plugin " ++ id ++ " does not implement a health check")) in
  match c with
  | Finished r => Ret r
  | Continue None => none
  | Continue (Some d) =>
      if negb (d_health d) then none
      else
        CallInstance (d_self d) (fun i => i) ≫= fun _ =>
        if status <? 0 then
          let error := ("health check failed: " ++ hsf_status_name status)%string in
          put (set_entry id (set_error error)) ≫= fun _ => Ret (Err error)
        else put (set_entry id (set_error "")) ≫= fun _ => Ret (Ok tt)
  end.

(** [List], in the order of the ids. *)
Definition ListPlugins (s : PM) : list (string * Entry) :=
  sort_by (fun a b => lex_leb (bytes_of a.1) (bytes_of b.1)) (map_to_list (plugins_ s)).
Definition GetPlugin (id : string) (s : PM) : option Entry := plugins_ s !! id.
Definition DriverOf (id : string) (s : PM) : option Driver := match plugins_ s !! id with Some e => e_driver e | None => None end.
End PluginManager.

(** ** Ownership *)

Section Ownership.
Context {J : JsonLib} (hsf_status_name kind_name : Z -> string) (host : Z).
Abbreviation PM := (PluginManager (J := J)).

(** An entry has a library, an instance, a driver and a transport of one load,
    or none; what runs is loaded. *)
Record entry_ok (e : Entry) : Prop := {
  eo_instance : e_instance e = e_library e;
  eo_driver : forall d, e_driver e = Some d -> e_library e = Some (d_self d);
  eo_transport : forall g, e_transport e = Some g -> e_library e = Some g;
  eo_running : e_state e = kRunning -> is_Some (e_library e)
}.

(** The table [plugins] owns exactly what lives outside, each thing once, and
    a driver holds no other transport than its entry's. *)
Record owns (plugins : gmap string Entry) (s : PM) : Prop := {
  ow_entry : forall id e, plugins !! id = Some e -> entry_ok e;
  ow_library : forall id e g, plugins !! id = Some e -> e_library e = Some g -> g ∈ libraries s;
  ow_instance : forall id e g, plugins !! id = Some e -> e_library e = Some g ->
    exists i, instances s !! g = Some i /\ (i_holds i = None \/ i_holds i = e_transport e);
  ow_transport : forall id e g, plugins !! id = Some e -> e_transport e = Some g -> g ∈ transports s;
  ow_once : forall id1 id2 e1 e2 g, plugins !! id1 = Some e1 -> plugins !! id2 = Some e2 ->
    e_library e1 = Some g -> e_library e2 = Some g -> id1 = id2;
  ow_no_library : forall g, g ∈ libraries s -> exists id e, plugins !! id = Some e /\ e_library e = Some g;
  ow_no_instance : forall g i, instances s !! g = Some i -> exists id e, plugins !! id = Some e /\ e_library e = Some g;
  ow_no_transport : forall g, g ∈ transports s -> exists id e, plugins !! id = Some e /\ e_transport e = Some g;
  ow_fresh : forall g, g ∈ libraries s -> (g < fresh s)%nat
}.

Definition plugins_ok (s : PM) : Prop := owns (plugins_ s) s.

Lemma new_manager_ok : plugins_ok new_manager.
Proof. split; cbn; intros; simplify_map_eq; set_solver. Qed.

(** Two states with the same things outside. *)
Lemma owns_same plugins s s' : libraries s' = libraries s -> instances s' = instances s -> transports s' = transports s ->
  (fresh s <= fresh s')%nat -> owns plugins s -> owns plugins s'.
Proof. intros E1 E2 E3 E4 []. split; rewrite ?E1, ?E2, ?E3; try done. intros g Hg. specialize (ow_fresh0 g Hg). lia. Qed.

Definition same_handles (e' e : Entry) : Prop :=
  e_library e' = e_library e /\ e_instance e' = e_instance e /\ e_driver e' = e_driver e /\ e_transport e' = e_transport e.

Lemma entry_ok_same e e' : same_handles e' e -> (e_state e' = kRunning -> is_Some (e_library e')) ->
  entry_ok e -> entry_ok e'.
Proof. intros (E1 & E2 & E3 & E4) Hr []. split; rewrite ?E1, ?E2, ?E3, ?E4 in *; done. Qed.

(** An entry is rewritten, or a new one without anything comes in. *)
Lemma owns_update plugins s id e' : owns plugins s -> same_handles e' (default new_entry (plugins !! id)) ->
  (e_state e' = kRunning -> is_Some (e_library e')) -> owns (<[id := e']> plugins) s.
Proof.
  intros H Hs Hr. pose proof Hs as (E1 & E2 & E3 & E4).
  assert (forall id0 e, <[id := e']> plugins !! id0 = Some e -> exists e0, same_handles e e0 /\
    (plugins !! id0 = Some e0 \/ (plugins !! id0 = None /\ e0 = new_entry))) as Hold.
  { intros id0 e Hl. destruct (decide (id0 = id)) as [->|Hn].
    - rewrite lookup_insert_eq in Hl. injection Hl as <-. exists (default new_entry (plugins !! id)).
      split; [done|]. destruct (plugins !! id); [by left|by right].
    - rewrite lookup_insert_ne in Hl by done. exists e. split; [done|by left]. }
  assert (forall id0 e g, <[id := e']> plugins !! id0 = Some e -> e_library e = Some g ->
    exists e0, plugins !! id0 = Some e0 /\ same_handles e e0 /\ e_library e0 = Some g) as Hlib.
  { intros id0 e g Hl Hg. destruct (Hold id0 e Hl) as (e0 & Hh & [?|[_ ->]]); destruct Hh as (L & Rest); [|by rewrite L in Hg].
    exists e0. by rewrite <- L. }
  assert (forall id0 e0, plugins !! id0 = Some e0 -> exists e, <[id := e']> plugins !! id0 = Some e /\ same_handles e e0) as Hnew.
  { intros id0 e0 Hl. destruct (decide (id0 = id)) as [->|Hn].
    - exists e'. rewrite lookup_insert_eq. by rewrite Hl in Hs.
    - exists e0. by rewrite lookup_insert_ne. }
  split; try apply H.
  - intros id0 e Hl. destruct (decide (id0 = id)) as [->|Hn].
    + rewrite lookup_insert_eq in Hl. injection Hl as <-. eapply entry_ok_same; [done|done|].
      destruct (plugins !! id) eqn:E; [by eapply ow_entry|]. by split.
    + rewrite lookup_insert_ne in Hl by done. by eapply ow_entry.
  - intros id0 e g Hl Hg. destruct (Hlib id0 e g Hl Hg) as (e0 & H1 & _ & H2). by eapply ow_library.
  - intros id0 e g Hl Hg. destruct (Hlib id0 e g Hl Hg) as (e0 & H1 & (_ & _ & _ & ->) & H2). by eapply ow_instance.
  - intros id0 e g Hl Hg. destruct (Hold id0 e Hl) as (e0 & (_ & _ & _ & T) & [?|[_ ->]]); rewrite T in Hg; [by eapply ow_transport|done].
  - intros id1 id2 e1 e2 g H1 H2 G1 G2. destruct (Hlib _ _ _ H1 G1) as (? & ? & _ & ?). destruct (Hlib _ _ _ H2 G2) as (? & ? & _ & ?).
    by eapply (ow_once _ _ H).
  - intros g Hg. destruct (ow_no_library _ _ H g Hg) as (id0 & e0 & Hl & Hg'). destruct (Hnew id0 e0 Hl) as (e & ? & (L & _)).
    exists id0, e. by rewrite L.
  - intros g i Hg. destruct (ow_no_instance _ _ H g i Hg) as (id0 & e0 & Hl & Hg'). destruct (Hnew id0 e0 Hl) as (e & ? & (L & _)).
    exists id0, e. by rewrite L.
  - intros g Hg. destruct (ow_no_transport _ _ H g Hg) as (id0 & e0 & Hl & Hg'). destruct (Hnew id0 e0 Hl) as (e & ? & (_ & _ & _ & T)).
    exists id0, e. by rewrite T.
Qed.

Lemma ok_set_entry s id f : plugins_ok s -> (forall e, same_handles (f e) e) ->
  (forall e, plugins_ s !! id = Some e -> entry_ok e -> e_state (f e) = kRunning -> is_Some (e_library (f e))) ->
  plugins_ok (set_entry id f s).
Proof.
  intros H Hf Hr. unfold set_entry. destruct (plugins_ s !! id) as [e|] eqn:E; [|done]. unfold plugins_ok in *. cbn.
  eapply owns_same; [..|apply (owns_update _ _ id (f e) H)]; try done; [by rewrite E|]. apply Hr; [done|]. by eapply ow_entry.
Qed.

(** ** ReleaseEntry *)

(** What is outside without what a load made. *)
Definition without (g : nat) (s : PM) : PM :=
  mkPlugins (plugins_ s) (root_ s) (config_ s) (fresh s) (libraries s ∖ {[g]}) (delete g (instances s)) (transports s ∖ {[g]}).

Lemma run_call_instance {A} g f (k : unit -> prog PM A) s : callable g s = true ->
  run (CallInstance g f ≫= k) s = run (k tt) (set_instances (alter f g (instances s)) s).
Proof. intros H. cbn. by rewrite H. Qed.

Lemma callable_intro g i s : g ∈ libraries s -> instances s !! g = Some i -> (forall t, i_holds i = Some t -> t ∈ transports s) -> callable g s = true.
Proof.
  intros H1 H2 H3. unfold callable, mapped. rewrite bool_decide_eq_true_2, H2 by done. cbn.
  destruct (i_holds i); [|done]. apply bool_decide_eq_true. auto.
Qed.

(** An entry's own instance may be called. *)
Lemma owned_callable plugins id e g s : owns plugins s -> plugins !! id = Some e -> e_library e = Some g -> callable g s = true.
Proof.
  intros H Hl Hg. destruct (ow_instance _ _ H id e g Hl Hg) as (i & Hi & Hh).
  apply (callable_intro g i); [by eapply ow_library|done|]. intros t Ht. destruct Hh as [Hh|Hh]; [congruence|].
  eapply ow_transport; [done|done|congruence].
Qed.

Lemma release_runs plugins id e s : owns plugins s -> plugins !! id = Some e ->
  run (ReleaseEntry e) s = Ok (tt, match e_library e with Some g => without g s | None => s end).
Proof.
  clear hsf_status_name kind_name host.
  intros H Hl. pose proof (ow_entry _ _ H id e Hl) as [E1 E2 E3 _]. unfold ReleaseEntry.
  destruct (e_library e) as [g|] eqn:Eg.
  2:{ rewrite E1. destruct (e_driver e) as [d|]; [by specialize (E2 d eq_refl)|]. destruct (e_transport e) as [t|]; [by specialize (E3 t eq_refl)|]. done. }
  rewrite E1. pose proof (owned_callable _ _ _ _ _ H Hl Eg) as Hc.
  destruct (ow_instance _ _ H id e g Hl Eg) as (i & Hi & Hh).
  assert (forall s', libraries s' = libraries s -> transports s' = transports s -> instances s' = instances s \/ instances s' = alter (started false) g (instances s) ->
    plugins_ s' = plugins_ s -> root_ s' = root_ s -> config_ s' = config_ s -> fresh s' = fresh s ->
    run (DestroyInstance g ≫= fun _ => (match e_transport e with Some g => DestroyTransport g | None => Ret tt end ≫= fun _ => CloseLibrary g)) s' = Ok (tt, without g s)) as Hrest.
  { intros s' L T I P R C F.
    assert (callable g s' = true) as Hc'.
    { destruct I as [I|I]; [apply (callable_intro g i)|apply (callable_intro g (started false i))]; rewrite ?L, ?I, ?T.
      1,4: by eapply ow_library.
      1: done. 2: by rewrite lookup_alter_eq, Hi.
      all: intros t Ht; cbn in Ht; destruct Hh as [Hh|Hh]; [congruence|]; eapply ow_transport; [done|done|congruence]. }
    assert (delete g (instances s') = delete g (instances s)) as I' by (destruct I as [->| ->]; [done|by rewrite delete_alter_eq]).
    cbn. rewrite Hc'. cbn. unfold without. destruct (e_transport e) as [t|] eqn:Et.
    - specialize (E3 t eq_refl) as [= ->]. cbn. rewrite T. rewrite bool_decide_eq_true_2 by (by eapply ow_transport). cbn. unfold set_libraries. cbn.
      by rewrite I', L, P, R, C, F.
    - cbn. unfold set_libraries. cbn. rewrite I', L, P, R, C, F, T. do 3 f_equal.
      apply leibniz_equiv. intros x. rewrite elem_of_difference, elem_of_singleton. split; [|tauto]. intros Hx. split; [done|]. intros ->.
      destruct (ow_no_transport _ _ H g Hx) as (id' & e' & Hl' & Ht').
      pose proof (eo_transport _ (ow_entry _ _ H id' e' Hl') g Ht') as Hg'. assert (id' = id) as -> by (by eapply (ow_once _ _ H)).
      rewrite Hl in Hl'. injection Hl' as <-. congruence. }
  unfold StopDriver. destruct (e_driver e) as [d|] eqn:Ed.
  - specialize (E2 d eq_refl) as [= ->]. destruct (d_stop d); [|by apply Hrest; try done; left].
    rewrite run_call_instance by done. apply Hrest; try done. by right.
  - apply Hrest; try done. by left.
Qed.

Lemma owns_delete plugins id e s : owns plugins s -> plugins !! id = Some e ->
  owns (delete id plugins) (match e_library e with Some g => without g s | None => s end).
Proof.
  clear hsf_status_name kind_name host.
  intros H Hl. pose proof (ow_entry _ _ H id e Hl) as [E1 E2 E3 _].
  assert (forall id' e', delete id plugins !! id' = Some e' -> id <> id' /\ plugins !! id' = Some e') as Hd
    by (intros id' e' ?%lookup_delete_Some; done).
  assert (forall id' e' g, delete id plugins !! id' = Some e' -> e_library e' = Some g -> e_library e <> Some g) as Hne.
  { intros id' e' g [Hn Hl']%Hd Hg Hg'. apply Hn. by eapply (ow_once _ _ H). }
  split.
  - intros id' e' [_ Hl']%Hd. by eapply ow_entry.
  - intros id' e' g Hl' Hg. pose proof (Hne _ _ _ Hl' Hg) as Hn. apply Hd in Hl' as [_ Hl'].
    pose proof (ow_library _ _ H _ _ _ Hl' Hg). destruct (e_library e); cbn; [|done]. set_solver.
  - intros id' e' g Hl' Hg. pose proof (Hne _ _ _ Hl' Hg) as Hn. apply Hd in Hl' as [_ Hl'].
    destruct (ow_instance _ _ H _ _ _ Hl' Hg) as (i & Hi & Hh). exists i. split; [|done]. destruct (e_library e); cbn; [|done].
    rewrite lookup_delete_ne; [done|congruence].
  - intros id' e' g Hl' Ht. assert (e_library e' = Some g) as Hg by (apply Hd in Hl' as [_ Hl']; by eapply eo_transport; [eapply ow_entry|]).
    pose proof (Hne _ _ _ Hl' Hg) as Hn. apply Hd in Hl' as [_ Hl']. pose proof (ow_transport _ _ H _ _ _ Hl' Ht).
    destruct (e_library e); cbn; [|done]. set_solver.
  - intros id1 id2 e1 e2 g [_ H1]%Hd [_ H2]%Hd. by eapply (ow_once _ _ H).
  - intros g Hg. assert (g ∈ libraries s /\ e_library e <> Some g) as [Hg1 Hg2].
    { destruct (e_library e); cbn in Hg; [|done]. apply elem_of_difference in Hg as [? Hx]. split; [done|]. set_solver. }
    destruct (ow_no_library _ _ H g Hg1) as (id' & e' & Hl' & Hg'). exists id', e'. split; [|done]. apply lookup_delete_Some.
    split; [|done]. intros ->. congruence.
  - intros g i Hg. assert (instances s !! g = Some i /\ e_library e <> Some g) as [Hg1 Hg2].
    { destruct (e_library e); cbn in Hg; [|done]. apply lookup_delete_Some in Hg as [? ?]. split; [done|]. congruence. }
    destruct (ow_no_instance _ _ H g i Hg1) as (id' & e' & Hl' & Hg'). exists id', e'. split; [|done]. apply lookup_delete_Some.
    split; [|done]. intros ->. congruence.
  - intros g Hg. assert (g ∈ transports s /\ e_library e <> Some g) as [Hg1 Hg2].
    { destruct (e_library e); cbn in Hg; [|done]. apply elem_of_difference in Hg as [? Hx]. split; [done|]. set_solver. }
    destruct (ow_no_transport _ _ H g Hg1) as (id' & e' & Hl' & Hg'). exists id', e'. split; [|done]. apply lookup_delete_Some.
    split; [|done]. intros ->. rewrite Hl in Hl'. injection Hl' as <-. by apply E3 in Hg'.
  - intros g Hg. assert (g ∈ libraries s) as Hg1 by (destruct (e_library e); cbn in Hg; set_solver).
    pose proof (ow_fresh _ _ H g Hg1). by destruct (e_library e).
Qed.

Lemma owns_fresh plugins s : owns plugins s -> (fresh s ∉ libraries s) /\ instances s !! fresh s = None /\ (fresh s ∉ transports s).
Proof.
  intros H. assert (fresh s ∉ libraries s) as Hl by (intros Hin; pose proof (ow_fresh _ _ H _ Hin); lia). split_and!; [done|..].
  - destruct (instances s !! fresh s) as [i|] eqn:E; [|done]. exfalso. destruct (ow_no_instance _ _ H _ _ E) as (id & e & H1 & H2).
    apply Hl. by eapply ow_library.
  - intros Hin. destruct (ow_no_transport _ _ H _ Hin) as (id & e & H1 & H2). apply Hl. eapply ow_library; [done|done|].
    by eapply eo_transport; [eapply ow_entry|].
Qed.

(** ** What a load does *)

(** Why the shared object is refused, when it is. *)
Definition refused (id : string) (m : PluginManifest) (b : Binary) : option string :=
  if negb (HSF_API_VERSION_COMPATIBLE host (b_abi b)) then Some (declared_text host id m (b_abi b))
  else match b_info b with
  | None => Some ("plugin " ++ id ++ " returned no HSFPluginInfo")%string
  | Some info =>
      if negb (bool_decide (i_id info = bytes_of (m_id m))) then
        Some ("manifest declares id " ++ quote (m_id m) ++ " but the binary reports " ++ quote (text_of (i_id info)) ++
          "; the manifest and plugin.so do not belong together")%string
      else if undeclared (i_permissions info) (PermissionBits m) then
        Some ("plugin " ++ id ++ " requests permissions its manifest does not declare")%string
      else
        let '(status, instance, table) := b_create b in
        if (0 <=? status) && instance && table then None
        else Some ("plugin " ++ id ++ " failed to create: " ++ hsf_status_name status)%string
  end.

(** The driver and the transport an accepted object gets. *)
Definition driver_of (b : Binary) (g : nat) : option Driver :=
  match b_info b, b_driver b with
  | Some info, Some (stop, health, supported) => if i_is_driver info then Some (mkDriver g stop health supported) else None
  | _, _ => None
  end.

Definition gets_transport (section : list (string * json)) (made : Z + string) (d : option Driver) : bool :=
  match d, made with
  | Some d, inl kind => has_block section && (bool_decide (d_supported d = []) || existsb (Z.eqb kind) (d_supported d))
  | _, _ => false
  end.

Definition with_next (s : PM) : PM :=
  mkPlugins (plugins_ s) (root_ s) (config_ s) (S (fresh s)) (libraries s) (instances s) (transports s).

Definition loaded_entry (g : nat) (driver : option Driver) (transport : bool) (e : Entry) : Entry :=
  mkEntry (e_manifest e) kInstalled "" (e_enabled e) (Some g) (Some g) driver (if transport then Some g else None).

Definition loaded (id : string) (e : Entry) (driver : option Driver) (transport : bool) (s : PM) : PM :=
  let g := fresh s in
  mkPlugins (<[id := loaded_entry g driver transport e]> (plugins_ s)) (root_ s) (config_ s) (S g) ({[g]} ∪ libraries s)
    (<[g := mkInstance None false]> (instances s)) (if transport then {[g]} ∪ transports s else transports s).

(** The state once the library is open. *)
Definition opened_state (s : PM) : PM :=
  mkPlugins (plugins_ s) (root_ s) (config_ s) (S (fresh s)) ({[fresh s]} ∪ libraries s) (instances s) (transports s).

Lemma closed_again (g : nat) (l : gset nat) : g ∉ l -> ({[g]} ∪ l) ∖ {[g]} = l.
Proof. intros H. apply leibniz_equiv. set_solver. Qed.

Lemma run_fail_load id error s : fresh s ∉ libraries s ->
  run (fail_load id error (fresh s)) (opened_state s) = Ok (Err error, with_next (set_entry id (set_state kFailed error) s)).
Proof.
  intros H. cbn. unfold set_entry, opened_state, with_next, set_plugins, set_libraries. cbn.
  destruct (plugins_ s !! id); cbn; by rewrite closed_again.
Qed.

Lemma opened_mapped s : mapped (fresh s) (opened_state s) = true.
Proof. unfold mapped. apply bool_decide_eq_true. cbn. set_solver. Qed.

(** The state once the instance is made. *)
Definition made_state (s : PM) : PM := set_instances (<[fresh s := mkInstance None false]> (instances s)) (opened_state s).

Lemma made_callable s : callable (fresh s) (made_state s) = true.
Proof. apply (callable_intro _ (mkInstance None false)); [cbn; set_solver|by cbn; rewrite lookup_insert_eq|done]. Qed.

(** The end of a load: its transport, then the last critical section. *)
Lemma run_load_end section made id e d s : plugins_ s !! id = Some e -> e_library e = None -> owns (plugins_ s) s ->
  run (match d with
       | Some d => if has_block section then load_transport kind_name id (fresh s) (d_supported d) made else Ret None
       | None => Ret None
       end ≫= fun transport => put (load_commit id (fresh s) d transport) ≫= fun _ => Ret (Ok tt)) (made_state s)
  = Ok (Ok tt, loaded id e d (gets_transport section made d) s).
Proof.
  intros Hl He H. destruct (owns_fresh _ _ H) as (_ & _ & Ht).
  assert (forall s1 t, plugins_ s1 = plugins_ s \/ (exists error, plugins_ s1 = <[id := set_error error e]> (plugins_ s)) -> transports s1 = (if t : bool then {[fresh s]} ∪ transports s else transports s) ->
    root_ s1 = root_ s -> config_ s1 = config_ s -> fresh s1 = S (fresh s) -> libraries s1 = {[fresh s]} ∪ libraries s ->
    instances s1 = <[fresh s := mkInstance None false]> (instances s) ->
    run (put (load_commit id (fresh s) d (if t then Some (fresh s) else None)) ≫= fun _ => Ret (Ok tt)) s1 = Ok (Ok tt, loaded id e d t s)) as Hend.
  { intros s1 t P T R C F L I. cbn. unfold load_commit, loaded, loaded_entry, set_plugins.
    destruct P as [P|[error P]]; rewrite P.
    - rewrite Hl, He. cbn. by rewrite P, R, C, F, L, I, T.
    - rewrite lookup_insert_eq. cbn. rewrite He. cbn. rewrite P, R, C, F, L, I, T. by rewrite insert_insert_eq. }
  destruct d as [d|]; [|by apply (Hend _ false); [left|..]].
  destruct (has_block section) eqn:Hb; [|destruct made; cbn [gets_transport]; rewrite ?Hb; by apply (Hend _ false); [left|..]].
  unfold load_transport. destruct made as [kind|error]; cbn [gets_transport]; rewrite ?Hb; cbn [andb].
  - destruct (bool_decide (d_supported d = []) || existsb (Z.eqb kind) (d_supported d)); [by apply (Hend _ true); [left|..]|].
    cbn. rewrite bool_decide_eq_true_2 by set_solver. cbn. apply (Hend _ false); cbn; unfold set_entry; cbn; rewrite Hl; cbn; try done.
    + right. by eexists.
    + by rewrite closed_again.
  - cbn. apply (Hend _ false); unfold set_entry; cbn; rewrite Hl; cbn; try done. right. by eexists.
Qed.

Lemma load_runs id m section b made e s : plugins_ s !! id = Some e -> e_library e = None -> owns (plugins_ s) s ->
  run (load_opened hsf_status_name kind_name host id m section b made (fresh s)) (opened_state s) =
  Ok (match refused id m b with
      | Some error => (Err error, with_next (set_entry id (set_state kFailed error) s))
      | None => (Ok tt, loaded id e (driver_of b (fresh s)) (gets_transport section made (driver_of b (fresh s))) s)
      end).
Proof.
  intros Hl He H. destruct (owns_fresh _ _ H) as (Hf & _ & _). unfold load_opened, refused.
  change (CallLibrary (fresh s)) with (Act always (fun s0 : PM => if mapped (fresh s) s0 then Ok (tt, s0) else Fault) Ret).
  cbn. rewrite opened_mapped. cbn.
  destruct (HSF_API_VERSION_COMPATIBLE host (b_abi b)); cbn [negb]; [|by apply run_fail_load]. cbn. rewrite opened_mapped. cbn.
  destruct (b_info b) as [info|] eqn:Ei; [|by apply run_fail_load].
  destruct (bool_decide (i_id info = bytes_of (m_id m))); cbn [negb]; [|by apply run_fail_load].
  destruct (undeclared _ _); [by apply run_fail_load|].
  destruct (b_create b) as [[status instance] table]. cbn. rewrite opened_mapped.
  destruct ((0 <=? status) && instance && table); cbn [negb]; [|by apply run_fail_load]. cbn.
  unfold driver_of. rewrite Ei. destruct (i_is_driver info); [destruct (b_driver b) as [[[stop health] supported]|]|destruct (b_driver b) as [[[stop health] supported]|]].
  - cbn. change (set_instances _ (opened_state s)) with (made_state s). rewrite made_callable. cbn.
    replace (set_instances (alter (fun i => i) (fresh s) _) _) with (made_state s); [exact (run_load_end section made id e (Some (mkDriver (fresh s) stop health supported)) s Hl He H)|].
    unfold made_state, set_instances. cbn. f_equal. by rewrite alter_id by done.
  - exact (run_load_end section made id e None s Hl He H).
  - exact (run_load_end section made id e None s Hl He H).
  - exact (run_load_end section made id e None s Hl He H).
Qed.

Lemma loaded_ok id e d t s : plugins_ok s -> plugins_ s !! id = Some e -> e_library e = None ->
  (forall d', d = Some d' -> d_self d' = fresh s) -> plugins_ok (loaded id e d t s).
Proof.
  intros H Hl He Hd. destruct (owns_fresh _ _ H) as (Hf1 & Hf2 & Hf3). unfold plugins_ok, loaded. cbn zeta.
  set (e' := loaded_entry (fresh s) d t e).
  assert (forall id' e0, <[id := e']> (plugins_ s) !! id' = Some e0 -> (id' = id /\ e0 = e') \/ (id' <> id /\ plugins_ s !! id' = Some e0)) as Hc.
  { intros id' e0 Hx. destruct (decide (id' = id)) as [->|Hn]; [left|right; by rewrite lookup_insert_ne in Hx].
    rewrite lookup_insert_eq in Hx. by injection Hx as <-. }
  assert (forall id0 e0, plugins_ s !! id0 = Some e0 -> (e_library e0 <> None \/ e_transport e0 <> None) -> <[id := e']> (plugins_ s) !! id0 = Some e0) as Hn.
  { intros id0 e0 Hx Hy. rewrite lookup_insert_ne; [done|]. intros ->. rewrite Hl in Hx. injection Hx as <-. destruct Hy as [|Hy]; [done|].
    destruct (e_transport e) as [g|] eqn:Et; [|done]. pose proof (eo_transport _ (ow_entry _ _ H _ _ Hl) g Et). congruence. }
  split; cbn [plugins_ libraries instances transports fresh].
  - intros id' e0 [[-> ->]|[_ Hx]]%Hc; [|by eapply ow_entry]. split; cbn; [done|intros d' ->; by rewrite Hd|by destruct t|done].
  - intros id' e0 g [[-> ->]|[_ Hx]]%Hc Hg; [cbn in Hg; injection Hg as <-; set_solver|].
    pose proof (ow_library _ _ H _ _ _ Hx Hg). set_solver.
  - intros id' e0 g [[-> ->]|[_ Hx]]%Hc Hg.
    + cbn in Hg. injection Hg as <-. rewrite lookup_insert_eq. eexists. split; [done|by left].
    + pose proof (ow_library _ _ H _ _ _ Hx Hg). rewrite lookup_insert_ne by (intros E; rewrite <- E in *; done). by eapply ow_instance.
  - intros id' e0 g [[-> ->]|[_ Hx]]%Hc Hg; [cbn in Hg; destruct t; [injection Hg as <-; set_solver|done]|].
    pose proof (ow_transport _ _ H _ _ _ Hx Hg). destruct t; set_solver.
  - intros id1 id2 e1 e2 g [[-> ->]|[N1 H1]]%Hc [[-> ->]|[N2 H2]]%Hc G1 G2; [done|..|by eapply (ow_once _ _ H)].
    + cbn in G1. injection G1 as <-. by pose proof (ow_library _ _ H _ _ _ H2 G2).
    + cbn in G2. injection G2 as <-. by pose proof (ow_library _ _ H _ _ _ H1 G1).
  - intros g [->%elem_of_singleton|Hg]%elem_of_union; [exists id, e'; by rewrite lookup_insert_eq|].
    destruct (ow_no_library _ _ H g Hg) as (id0 & e0 & Hx & Hy). exists id0, e0. split; [|done]. apply Hn; [done|left; congruence].
  - intros g i Hg. destruct (decide (g = fresh s)) as [->|Hne]; [exists id, e'; by rewrite lookup_insert_eq|].
    rewrite lookup_insert_ne in Hg by done. destruct (ow_no_instance _ _ H g i Hg) as (id0 & e0 & Hx & Hy). exists id0, e0.
    split; [|done]. apply Hn; [done|left; congruence].
  - intros g Hg. assert (g ∈ transports s \/ (t = true /\ g = fresh s)) as [Hg'|[-> ->]] by (destruct t; set_solver).
    + destruct (ow_no_transport _ _ H g Hg') as (id0 & e0 & Hx & Hy). exists id0, e0. split; [|done]. apply Hn; [done|right; congruence].
    + exists id, e'. by rewrite lookup_insert_eq.
  - intros g [->%elem_of_singleton|Hg]%elem_of_union; [lia|]. pose proof (ow_fresh _ _ H g Hg). lia.
Qed.

(** ** Every call, alone *)

(** A method that returns, in a state where the table owns what is outside. *)
Definition sound {A} (p : prog PM A) (Q : A -> PM -> Prop) (s : PM) : Prop :=
  exists a s', run p s = Ok (a, s') /\ plugins_ok s' /\ Q a s'.

Lemma sound_bind {A B} (p : prog PM A) (k : A -> prog PM B) Q Q' s :
  sound p Q s -> (forall a s', plugins_ok s' -> Q a s' -> sound (k a) Q' s') -> sound (p ≫= k) Q' s.
Proof. intros (a & s' & E & H1 & H2) Hk. unfold sound. rewrite run_bind, E. cbn. by apply Hk. Qed.

Lemma sound_ret {A} (a : A) (Q : A -> PM -> Prop) s : plugins_ok s -> Q a s -> sound (Ret a) Q s.
Proof. intros H HQ. by exists a, s. Qed.
Lemma sound_get {A} (f : PM -> A) (Q : A -> PM -> Prop) s : plugins_ok s -> Q (f s) s -> sound (get f) Q s.
Proof. intros H HQ. by exists (f s), s. Qed.
Lemma sound_put f (Q : unit -> PM -> Prop) s : plugins_ok (f s) -> Q tt (f s) -> sound (put f) Q s.
Proof. intros H HQ. by exists tt, (f s). Qed.
Lemma sound_act {A} (f : PM -> A * PM) (Q : A -> PM -> Prop) s : plugins_ok (f s).2 -> Q (f s).1 (f s).2 -> sound (act f) Q s.
Proof. intros H HQ. exists (f s).1, (f s).2. cbn. by destruct (f s). Qed.

Lemma same_handles_refl e : same_handles e e.
Proof. done. Qed.

Lemma ok_state s id state error : state <> kRunning -> plugins_ok s -> plugins_ok (set_entry id (set_state state error) s).
Proof. intros Hs H. by apply ok_set_entry. Qed.

Lemma ok_error s id error : plugins_ok s -> plugins_ok (set_entry id (set_error error) s).
Proof. intros H. apply ok_set_entry; [done|done|]. intros e _ He Hr. by apply (eo_running _ He). Qed.

(** A record that is loaded keeps its number; one that is not has none. *)
Lemma Load_sound id env s : plugins_ok s -> sound (Load hsf_status_name kind_name host id env)
  (fun r s' => r = Ok tt -> exists e g, plugins_ s' !! id = Some e /\ e_library e = Some g) s.
Proof.
  intros H. unfold Load. eapply sound_bind; [by apply (sound_get _ (fun c s' => c = load_check id s /\ s' = s))|].
  intros c s' _ [-> ->]. unfold load_check. destruct (plugins_ s !! id) as [e|] eqn:Hl; [|by apply sound_ret].
  pose proof (ow_entry _ _ H _ _ Hl) as He. destruct (bool_decide (is_Some (e_instance e))) eqn:Ei.
  { apply bool_decide_eq_true in Ei as [g Eg]. apply sound_ret; [done|]. intros _. exists e, g. by rewrite <- (eo_instance _ He). }
  apply bool_decide_eq_false in Ei. assert (e_library e = None) as Hn by (rewrite <- (eo_instance _ He); destruct (e_instance e); [by destruct Ei|done]).
  destruct (_ && _); [by apply sound_ret|]. destruct (l_binary env) as [b|error].
  - unfold sound. rewrite run_bind. change (run OpenLibrary s) with (Ok (fresh s, opened_state s)). cbn [mbind res_bind].
    rewrite (load_runs id (e_manifest e) _ b (l_transport env) e s Hl Hn H).
    destruct (refused id (e_manifest e) b) as [error|].
    + eexists _, _. split; [done|]. split; [|done]. eapply owns_same; [..|by apply (ok_state s id kFailed error)]; try done. cbn. lia.
    + eexists _, _. split; [done|]. split; [|intros _; exists (loaded_entry (fresh s) (driver_of b (fresh s)) (gets_transport (section_of id (config_ s)) (l_transport env) (driver_of b (fresh s))) e), (fresh s); by cbn; rewrite lookup_insert_eq].
      apply loaded_ok; try done. intros d Hd. unfold driver_of in Hd. destruct (b_info b) as [info|]; [|done]. destruct (b_driver b) as [[[? ?] ?]|]; [|done].
      destruct (i_is_driver info); [|done]. by injection Hd as <-.
  - eapply (sound_bind _ _ (fun _ _ => True)); [by apply sound_put; [apply ok_state|]|]. intros _ s' H' _. by apply sound_ret.
Qed.

(** The library of a loaded entry does not move while its method runs alone. *)
Definition has (id : string) (g : nat) (s : PM) : Prop := exists e, plugins_ s !! id = Some e /\ e_library e = Some g.

Lemma has_set_entry id g f s : (forall e, e_library (f e) = e_library e) -> has id g s -> has id g (set_entry id f s).
Proof. intros Hf (e & Hl & Hg). exists (f e). unfold set_entry. rewrite Hl. cbn. rewrite lookup_insert_eq, Hf. done. Qed.

Lemma owns_instances plugins s g f : owns plugins s ->
  (forall i id e, plugins !! id = Some e -> e_library e = Some g -> instances s !! g = Some i -> (i_holds i = None \/ i_holds i = e_transport e) ->
     i_holds (f i) = None \/ i_holds (f i) = e_transport e) ->
  owns plugins (set_instances (alter f g (instances s)) s).
Proof.
  intros H Hf. split; try apply H; cbn.
  - intros id e g' Hl Hg. destruct (ow_instance _ _ H id e g' Hl Hg) as (i & Hi & Hh). destruct (decide (g' = g)) as [->|Hn].
    + exists (f i). rewrite lookup_alter_eq, Hi. split; [done|]. by eapply Hf.
    + exists i. by rewrite lookup_alter_ne.
  - intros g' i Hi. apply lookup_alter_Some in Hi as [(-> & i' & Hi & _)|(_ & Hi)]; by eapply ow_no_instance.
Qed.

Lemma call_sound id g f s : plugins_ok s -> has id g s -> (forall i, i_holds (f i) = i_holds i) ->
  sound (CallInstance g f) (fun _ s' => plugins_ s' = plugins_ s) s.
Proof.
  intros H (e & Hl & Hg) Hf. unfold sound. cbn. rewrite (owned_callable _ _ _ _ _ H Hl Hg). cbn. eexists _, _. split; [done|]. split; [|done].
  apply owns_instances; [done|]. intros i id' e' _ _ _. by rewrite Hf.
Qed.

Lemma initialize_sound id g e s : plugins_ok s -> plugins_ s !! id = Some e -> e_library e = Some g ->
  sound (Initialize g (e_transport e)) (fun _ s' => plugins_ s' = plugins_ s) s.
Proof.
  intros H Hl Hg. unfold sound. cbn. rewrite (owned_callable _ _ _ _ _ H Hl Hg). cbn.
  assert (match e_transport e with Some t => bool_decide (t ∈ transports s) | None => true end = true) as ->.
  { destruct (e_transport e) as [t|] eqn:Et; [|done]. apply bool_decide_eq_true. by eapply ow_transport. }
  eexists _, _. split; [done|]. split; [|done]. apply owns_instances; [done|]. intros i id' e' Hl' Hg' _ _. cbn. right.
  assert (id' = id) as -> by (by eapply (ow_once _ _ H)). change (plugins_ s !! id = Some e') in Hl'. rewrite Hl in Hl'. by injection Hl' as <-.
Qed.

Lemma stop_sound id d s : plugins_ok s -> (forall d', d = Some d' -> has id (d_self d') s) ->
  sound (StopDriver d) (fun _ s' => plugins_ s' = plugins_ s) s.
Proof.
  intros H Hd. destruct d as [d|]; [|by apply sound_ret]. cbn. destruct (d_stop d); [|by apply sound_ret]. eapply call_sound; auto.
Qed.

(** An entry's fields but its handles are rewritten. *)
Lemma ok_entry s id f : plugins_ok s -> (forall e, same_handles (f e) e) ->
  (forall e, e_state (f e) = kRunning -> e_state e = kRunning \/ is_Some (e_library e)) -> plugins_ok (set_entry id f s).
Proof.
  intros H Hf Hr. apply ok_set_entry; [done|done|]. intros e _ He Hs. pose proof (Hf e) as (-> & _).
  destruct (Hr e Hs) as [Hs'|]; [by apply (eo_running _ He)|done].
Qed.

Lemma driver_has id e d s : plugins_ok s -> plugins_ s !! id = Some e -> e_driver e = Some d -> has id (d_self d) s.
Proof. intros H Hl Hd. exists e. split; [done|]. by eapply eo_driver; [eapply ow_entry|]. Qed.

Lemma Disable_sound id s : plugins_ok s -> sound (Disable id) (fun _ _ => True) s.
Proof.
  intros H. unfold Disable. set (s1 := set_entry id (set_intent false) s).
  assert (plugins_ok s1) as H1 by (apply ok_entry; [done|done|by left]).
  eapply (sound_bind _ _ (fun c s' => s' = (disable_mark id s).2 /\ c = (disable_mark id s).1)).
  { apply sound_act; [|done]. unfold disable_mark. by destruct (plugins_ s !! id). }
  intros c s' Hok [-> ->]. unfold disable_mark in *. destruct (plugins_ s !! id) as [e|] eqn:Hl; cbn [fst snd] in *; [|by apply sound_ret].
  eapply sound_bind; [apply (stop_sound id); [done|]|].
  - intros d Hd. apply has_set_entry; [done|]. by eapply driver_has.
  - intros _ s2 H2 _. eapply (sound_bind _ _ (fun _ _ => True)); [by apply sound_put; [apply ok_state|]|]. intros _ s3 H3 _. by apply sound_ret.
Qed.

Lemma HealthCheck_sound id status s : plugins_ok s -> sound (HealthCheck hsf_status_name id status) (fun _ _ => True) s.
Proof.
  intros H. unfold HealthCheck. eapply sound_bind; [by apply (sound_get _ (fun c s' => c = health_check id s /\ s' = s))|].
  intros c s' _ [-> ->]. unfold health_check. destruct (plugins_ s !! id) as [e|] eqn:Hl; [|by apply sound_ret].
  destruct (bool_decide _); [|by apply sound_ret]. destruct (e_driver e) as [d|] eqn:Hd; [|by apply sound_ret].
  destruct (d_health d); cbn [negb]; [|by apply sound_ret].
  eapply sound_bind; [apply (call_sound id); [done|by eapply driver_has|done]|]. intros _ s1 H1 _. cbn zeta.
  destruct (_ <? _); (eapply (sound_bind _ _ (fun _ _ => True)); [by apply sound_put; [apply ok_error|]|]; intros _ s2 H2 _; by apply sound_ret).
Qed.

Lemma Unload_sound id s : plugins_ok s -> sound (Unload id) (fun _ _ => True) s.
Proof.
  clear hsf_status_name kind_name host.
  intros H. unfold Unload, sound. rewrite run_bind. change (run (act (detach id)) s) with (Ok (detach id s) ≫= fun '(r, s') => Ok (r, s')).
  unfold detach. destruct (plugins_ s !! id) as [e|] eqn:Hl; [|by eexists _, _].
  pose proof (ow_entry _ _ H _ _ Hl) as He. destruct (bool_decide _ && _).
  { cbn. eexists _, _. split; [done|]. split; [|done]. by apply ok_entry. }
  cbn -[ReleaseEntry]. rewrite run_bind. set (e' := mkEntry (e_manifest e) kValidated "" (e_enabled e) None None None None).
  unfold set_entry. rewrite Hl. change (mkEntry _ kValidated _ _ _ _ _ _) with e'. set (s1 := set_plugins (<[id := e']> (plugins_ s)) s).
  assert (owns (plugins_ s) s1) as H1 by (by eapply owns_same; [..|exact H]).
  rewrite (release_runs (plugins_ s) id e s1 H1 Hl). cbn. eexists _, _. split; [done|]. split; [|done].
  pose proof (owns_delete _ _ _ _ H1 Hl) as H2.
  pose proof (owns_update _ _ id e' H2) as H3. rewrite lookup_delete_eq, insert_delete_eq in H3. specialize (H3 (same_handles_refl _) ltac:(done)).
  unfold plugins_ok. by destruct (e_library e).
Qed.

Lemma start_sound id e d start s : plugins_ok s -> plugins_ s !! id = Some e -> e_driver e = Some d ->
  sound (start_driver id d start) (fun _ s' => plugins_ s' = plugins_ s) s.
Proof.
  intros H Hl Hd. pose proof (eo_driver _ (ow_entry _ _ H _ _ Hl) d Hd) as Hg. unfold start_driver.
  eapply sound_bind; [by apply (sound_get _ (fun t s' => t = e_transport e /\ s' = s)); [|unfold transport_of; rewrite Hl]|].
  intros t s' _ [-> ->]. eapply (sound_bind _ _ (fun _ s' => plugins_ s' = plugins_ s)).
  { unfold initialize_driver. destruct (s_initialize start) as [st|]; [|by apply sound_ret].
    eapply sound_bind; [by apply (initialize_sound id _ e)|]. intros x s1 H1 E. by apply sound_ret. }
  intros st s1 H1 E. unfold call_start. destruct (s_start start) as [st'|]; [|by apply sound_ret]. destruct (0 <=? st); [|by apply sound_ret].
  eapply sound_bind; [apply (call_sound id); [done|exists e; by rewrite E|by destruct (0 <=? st')]|].
  intros x s2 H2 E2. apply sound_ret; [done|congruence].
Qed.

Lemma ok_running id f g s : plugins_ok s -> has id g s -> (forall e, same_handles (f e) e) -> plugins_ok (set_entry id f s).
Proof.
  intros H (e & Hl & Hg) Hf. apply ok_set_entry; [done|done|]. intros e' Hl' _ _. rewrite Hl in Hl'. injection Hl' as <-.
  pose proof (Hf e) as (-> & _). by rewrite Hg.
Qed.

Lemma Enable_sound id load start s : plugins_ok s -> sound (Enable hsf_status_name kind_name host id load start) (fun _ _ => True) s.
Proof.
  intros H. unfold Enable. eapply sound_bind; [by apply Load_sound|]. intros r s1 H1 Hr. destruct r as [[]|error|]; [|by apply sound_ret..].
  destruct (Hr eq_refl) as (e & g & Hl & Hg).
  eapply (sound_bind _ _ (fun c s' => s' = (enable_mark id s1).2 /\ c = (enable_mark id s1).1)).
  { apply sound_act; [|done]. unfold enable_mark. rewrite Hl. by destruct (bool_decide _); cbn; apply ok_entry; try done; left. }
  intros c s2 Hok [-> ->]. unfold enable_mark in *. rewrite Hl in *. destruct (bool_decide (e_state e = kRunning)); [by apply sound_ret|]. cbn [fst snd] in *.
  set (e2 := set_state kEnabled (e_error e) (set_intent true e)) in *.
  assert (plugins_ (set_entry id (fun e => set_state kEnabled (e_error e) (set_intent true e)) s1) !! id = Some e2) as Hl2
    by (unfold set_entry; rewrite Hl; cbn; by rewrite lookup_insert_eq).
  destruct (e_driver e) as [d|] eqn:Hd.
  - eapply sound_bind; [by apply (start_sound id e2)|]. intros st s3 H3 E3. apply sound_act; [|done].
    unfold enable_finish. destruct (plugins_ s3 !! id) as [e3|] eqn:Hl3; [|done]. cbn zeta. destruct (st <? 0); cbn [snd]; [by apply ok_state|].
    apply (ok_running id _ g); [done|exists e2; by rewrite E3|done].
  - eapply (sound_bind _ _ (fun _ _ => True)); [|intros x s3 H3 _; by apply sound_ret]. apply sound_put; [|done].
    apply (ok_running id _ g); [done|by exists e2|done].
Qed.

Lemma record_manifest_owns plugins r s : owns plugins s -> owns (record_manifest plugins r) s.
Proof.
  intros H. unfold record_manifest.
  assert (forall id, e_state (default new_entry (plugins !! id)) = kRunning -> is_Some (e_library (default new_entry (plugins !! id)))) as Hr.
  { intros id. destruct (plugins !! id) as [e|] eqn:E; [|done]. apply (eo_running _ (ow_entry _ _ H _ _ E)). }
  destruct (r_ok r); cbn [negb]; cbn zeta; match goal with |- owns (if ?b then _ else _) _ => destruct b end; apply owns_update; try done; apply Hr.
Qed.

Lemma Discover_sound {O : JsonFileOps} here fs directories s : plugins_ok s -> sound (Discover host here fs directories) (fun _ _ => True) s.
Proof.
  intros H. unfold Discover. eapply sound_bind; [by apply (sound_get _ (fun _ s' => s' = s))|]. intros root s' _ ->.
  destruct root; [by apply sound_ret|]. destruct directories as [directories|]; [|by apply sound_ret]. cbn zeta. apply sound_act; [|done].
  cbn [snd]. unfold plugins_ok. cbn. apply (owns_same _ s); [done|done|done|reflexivity|].
  generalize (scan host here fs directories). intros found. revert H. unfold plugins_ok. generalize (plugins_ s).
  induction found as [|r found IH]; intros plugins H; [done|]. cbn. apply IH. by apply record_manifest_owns.
Qed.

(** The destructor gives everything back. *)
Lemma Destruct_runs s : plugins_ok s -> exists s', run Destruct s = Ok (tt, s') /\
  libraries s' = ∅ /\ instances s' = ∅ /\ transports s' = ∅ /\ plugins_ s' = ∅.
Proof.
  intros H. unfold Destruct. rewrite run_get.
  assert (forall l s1, NoDup l.*1 -> owns (list_to_map l) s1 -> exists s2, run (each (fun kv : string * Entry => ReleaseEntry kv.2) l) s1 = Ok (tt, s2) /\ owns ∅ s2) as Hl.
  { induction l as [|[id e] l IH]; intros s1 Hn Ho; [by exists s1|]. cbn [each fst snd]. rewrite run_bind.
    assert ((list_to_map ((id, e) :: l) : gmap string Entry) !! id = Some e) as Hid by (cbn; by rewrite lookup_insert_eq).
    rewrite (release_runs _ id e s1 Ho Hid). cbn [mbind res_bind].
    pose proof (owns_delete _ id e s1 Ho Hid) as Hd. cbn in Hn. apply NoDup_cons in Hn as [Hn1 Hn2].
    cbn in Hd. rewrite delete_insert_id in Hd by (by apply not_elem_of_list_to_map). by apply IH. }
  destruct (Hl (map_to_list (plugins_ s)) s) as (s2 & E & Ho); [apply NoDup_fst_map_to_list|by rewrite list_to_map_to_list|].
  rewrite run_bind, E. cbn. eexists. split; [done|]. cbn. split_and!; [..|done].
  - apply leibniz_equiv. intros g. split; [|done]. intros Hg. by destruct (ow_no_library _ _ Ho g Hg) as (? & ? & ? & _).
  - apply map_empty. intros g. destruct (instances s2 !! g) as [i|] eqn:Ei; [|done]. by destruct (ow_no_instance _ _ Ho g i Ei) as (? & ? & ? & _).
  - apply leibniz_equiv. intros g. split; [|done]. intros Hg. by destruct (ow_no_transport _ _ Ho g Hg) as (? & ? & ? & _).
Qed.

(** ** The calls of the manager *)

(** A call with its environment. *)
Inductive plugin_call :=
| CRoot (root : list Z) | CConfiguration (all : json)
| CDiscover (F : JsonFileOps (J := J)) (here : string) (fs : Files) (directories : option (list (list Z)))
| CLoad (id : string) (env : load_env) | CUnload (id : string)
| CEnable (id : string) (env : load_env) (start : start_env) | CDisable (id : string) | CHealth (id : string) (status : Z).

Definition plugin_method (c : plugin_call) : prog PM unit :=
  match c with
  | CRoot root => put (SetPluginRoot root)
  | CConfiguration all => put (SetConfiguration all)
  | CDiscover F here fs directories => Discover (O := F) host here fs directories ≫= fun _ => Ret tt
  | CLoad id env => Load hsf_status_name kind_name host id env ≫= fun _ => Ret tt
  | CUnload id => Unload id ≫= fun _ => Ret tt
  | CEnable id env start => Enable hsf_status_name kind_name host id env start ≫= fun _ => Ret tt
  | CDisable id => Disable id ≫= fun _ => Ret tt
  | CHealth id status => HealthCheck hsf_status_name id status ≫= fun _ => Ret tt
  end.

Lemma method_sound c s : plugins_ok s -> sound (plugin_method c) (fun _ _ => True) s.
Proof.
  intros H. assert (forall A (p : prog PM A), (exists Q, sound p Q s) -> sound (p ≫= fun _ => Ret tt) (fun _ _ => True) s) as Hp.
  { intros A p (Q & Hp). eapply sound_bind; [exact Hp|]. intros a s' H' _. by apply sound_ret. }
  destruct c; cbn [plugin_method].
  1-2: by apply sound_put; [eapply owns_same; [..|exact H]|].
  all: apply Hp; eexists; eauto using Discover_sound, Load_sound, Unload_sound, Enable_sound, Disable_sound, HealthCheck_sound.
Qed.

(** The calls follow one another. *)
Definition plugin_turn (s s' : PM) : Prop := exists c, run (plugin_method c) s = Ok (tt, s').

(** C27: While calls follow one another, no plugin's code ever runs that is not
    mapped.  Whatever shared objects, drivers and manifests do, in every state
    that any sequence of calls reaches, every further call returns - never
    calling into a library that was closed, an instance that was destroyed or a
    driver whose transport was freed - each library, instance and transport
    belongs to exactly one entry and every loaded entry has its library and its
    instance, a plugin that is RUNNING is loaded, and the destructor gives
    everything back. *)
Theorem plugins_never_dangle s : rtc plugin_turn new_manager s ->
  owns (plugins_ s) s /\ (forall c, exists s', run (plugin_method c) s = Ok (tt, s')) /\
  exists s', run Destruct s = Ok (tt, s') /\ libraries s' = ∅ /\ instances s' = ∅ /\ transports s' = ∅.
Proof.
  intros H. assert (plugins_ok s) as Hs.
  { assert (plugins_ok new_manager) as H0 by apply new_manager_ok. revert H0. induction H as [|s1 s2 s3 [c E] _ IH]; [done|].
    intros H1. apply IH. destruct (method_sound c s1 H1) as ([] & s' & E' & H2 & _). rewrite E in E'. by injection E' as ->. }
  split_and!; [done|..].
  - intros c. destruct (method_sound c s Hs) as ([] & s' & E & _). by exists s'.
  - destruct (Destruct_runs s Hs) as (s' & E & ? & ? & ? & _). by exists s'.
Qed.

(** ** What is let in *)

Lemma foldl_lor_testbit {A} (f : A -> Z) l i : forall v, Z.testbit (foldl (fun bits x => Z.lor bits (f x)) v l) i = true <->
  Z.testbit v i = true \/ exists x, x ∈ l /\ Z.testbit (f x) i = true.
Proof.
  induction l as [|x l IH]; intros v; cbn [foldl].
  - split; [by left|]. intros [|(x & Hx & _)]; [done|by apply elem_of_nil in Hx].
  - rewrite IH, Z.lor_spec, orb_true_iff. setoid_rewrite elem_of_cons. naive_solver.
Qed.

Lemma PermissionBits_testbit m i : Z.testbit (PermissionBits m) i = true <-> exists p, p ∈ m_permissions m /\ Z.testbit (permission_bit p) i = true.
Proof.
  unfold PermissionBits. rewrite (foldl_lor_testbit permission_bit). rewrite Z.testbit_0_l. split; [intros [|]; [done|done]|by right].
Qed.

Lemma undeclared_iff requested declared : 0 <= requested < 2 ^ 32 ->
  undeclared requested declared = false <-> forall i, Z.testbit requested i = true -> Z.testbit declared i = true.
Proof.
  intros Hr. unfold undeclared. rewrite negb_false_iff, Z.eqb_eq. change (2 ^ 32 - 1) with (Z.ones 32).
  assert (forall i, 0 <= i -> Z.testbit (Z.land requested (Z.lxor declared (Z.ones 32))) i = (Z.testbit requested i && negb (Z.testbit declared i))) as Hb.
  { intros i Hi. rewrite Z.land_spec, Z.lxor_spec. destruct (Z.ltb_spec i 32) as [Hl|Hl].
    - rewrite Z.ones_spec_low by lia. by destruct (Z.testbit declared i).
    - assert (Z.testbit requested i = false) as ->; [|done]. rewrite Z.testbit_eqb, Z.div_small; [done| |lia].
      split; [lia|]. apply Z.lt_le_trans with (2 ^ 32); [lia|]. by apply Z.pow_le_mono_r. }
  split.
  - intros E i Hi. destruct (Z.ltb_spec i 0) as [Hn|Hn]; [by rewrite Z.testbit_neg_r in Hi|].
    specialize (Hb i Hn). rewrite E, Z.testbit_0_l, Hi in Hb. by destruct (Z.testbit declared i).
  - intros H. apply Z.bits_inj'. intros i Hi. rewrite Hb, Z.testbit_0_l by done.
    destruct (Z.testbit requested i) eqn:Ei; [|done]. by rewrite (H i Ei).
Qed.

(** The shared object belongs to the manifest, asks for nothing the manifest
    does not declare, and makes an instance. *)
Definition belongs (m : PluginManifest) (b : Binary) : Prop :=
  compatible host (b_abi b) /\
  (exists info, b_info b = Some info /\ i_id info = bytes_of (m_id m) /\
     forall i, Z.testbit (i_permissions info) i = true -> exists p, p ∈ m_permissions m /\ Z.testbit (permission_bit p) i = true) /\
  let '(status, instance, table) := b_create b in 0 <= status /\ instance = true /\ table = true.

Lemma refused_iff id m b : (forall info, b_info b = Some info -> 0 <= i_permissions info < 2 ^ 32) ->
  refused id m b = None <-> belongs m b.
Proof.
  intros Hp. unfold refused, belongs. pose proof (compatible_iff host (b_abi b)) as Hc.
  destruct (HSF_API_VERSION_COMPATIBLE host (b_abi b)); cbn [negb]; [|split; [done|intros [H _]; by apply Hc in H]].
  destruct (b_info b) as [info|]; [|split; [done|by intros (_ & (info & ? & _) & _)]]. specialize (Hp info eq_refl).
  destruct (bool_decide (i_id info = bytes_of (m_id m))) eqn:Ei; cbn [negb].
  2:{ apply bool_decide_eq_false in Ei. split; [done|]. by intros (_ & (info' & [= <-] & ? & _) & _). }
  apply bool_decide_eq_true in Ei. pose proof (undeclared_iff (i_permissions info) (PermissionBits m) Hp) as Hu.
  setoid_rewrite PermissionBits_testbit in Hu. destruct (undeclared _ _).
  { split; [done|]. intros (_ & (info' & [= <-] & _ & H) & _). by apply Hu in H. }
  destruct (b_create b) as [[status instance] table]. destruct (Z.leb_spec 0 status); cbn [andb]; [|by split; [|intros (_ & _ & ? & _); lia]].
  destruct instance, table; cbn [andb]; try by split; [|intros (_ & _ & _ & ? & ?)].
  split; [intros _|done]. split_and!; [by apply Hc|exists info; split_and!; [done|done|by apply Hu]|done|done|done].
Qed.

(** The manifest is one that [LoadManifest] accepted. *)
Definition accepted_by {O : JsonFileOps} (m : PluginManifest) : Prop :=
  exists here fs path, r_ok (LoadManifest here fs path host) = true /\ m = r_manifest (LoadManifest here fs path host).

Lemma accepted_entry {O : JsonFileOps} here fs path : r_ok (LoadManifest here fs path host) = true ->
  m_entry (r_manifest (LoadManifest here fs path host)) <> ""%string.
Proof.
  intros Hm. destruct (accepted_valid _ _ _ _ Hm) as (m & (Hr & _) & ->). unfold required in Hr. rewrite !Forall_cons in Hr.
  unfold with_default_mode. destruct (String.eqb _ _); cbn in *; tauto.
Qed.

(** C28: A plugin whose manifest was accepted and that is not loaded is loaded
    exactly when its library opens, was built for this gateway's interface,
    reports the manifest's identifier, asks for no permission the manifest does
    not declare, and makes an instance; then its record is installed with one new
    library and instance, and with a transport only for a driver that supports
    its kind.  Otherwise nothing stays open and the record is FAILED with the
    reason.  Nobody else calls the manager meanwhile.  A rejected manifest is
    left out - [rejected_plugin_is_loaded] - and so is what an installed record
    says when its driver got no transport ([transport_error_is_lost]). *)
Theorem load_admits_exactly {O : JsonFileOps} id env s e : plugins_ok s -> plugins_ s !! id = Some e -> e_library e = None ->
  accepted_by (e_manifest e) ->
  (forall b info, l_binary env = inl b -> b_info b = Some info -> 0 <= i_permissions info < 2 ^ 32) ->
  exists r s', run (Load hsf_status_name kind_name host id env) s = Ok (r, s') /\
    (r = Ok tt <-> exists b, l_binary env = inl b /\ belongs (e_manifest e) b) /\
    (r = Ok tt -> exists g b, l_binary env = inl b /\ libraries s' = {[g]} ∪ libraries s /\ (g ∉ libraries s) /\
       instances s' = <[g := mkInstance None false]> (instances s) /\
       let driver := driver_of b g in let made := gets_transport (section_of id (config_ s)) (l_transport env) driver in
       exists note, plugins_ s' !! id = Some (set_error note (loaded_entry g driver made e)) /\
         (driver = None \/ made = true -> note = ""%string)) /\
    (r <> Ok tt -> libraries s' = libraries s /\ instances s' = instances s /\ transports s' = transports s /\
       exists error, r = Err error /\ plugins_ s' !! id = Some (set_state kFailed error e)) /\
    (forall id', id' <> id -> plugins_ s' !! id' = plugins_ s !! id').
Proof.
  intros H Hl He (here & fs & path & Hm & Em) Hp. apply accepted_entry in Hm. rewrite <- Em in Hm.
  unfold Load. rewrite run_get. unfold load_check. rewrite Hl.
  pose proof (ow_entry _ _ H _ _ Hl) as Hok. rewrite (eo_instance _ Hok), He. rewrite bool_decide_eq_false_2 by (by intros []).
  rewrite (proj2 (String.eqb_neq _ _) Hm), andb_false_r.
  assert (forall error, plugins_ (set_entry id (set_state kFailed error) s) !! id = Some (set_state kFailed error e) /\
    libraries (set_entry id (set_state kFailed error) s) = libraries s /\ instances (set_entry id (set_state kFailed error) s) = instances s /\
    transports (set_entry id (set_state kFailed error) s) = transports s /\
    forall id', id' <> id -> plugins_ (set_entry id (set_state kFailed error) s) !! id' = plugins_ s !! id') as Hfail.
  { intros error. unfold set_entry. rewrite Hl. cbn. rewrite lookup_insert_eq. split_and!; try done. intros id' Hn. by rewrite lookup_insert_ne. }
  destruct (l_binary env) as [b|error] eqn:Eb.
  - rewrite run_bind. change (run OpenLibrary s) with (Ok (fresh s, opened_state s)). cbn [mbind res_bind].
    rewrite (load_runs id (e_manifest e) _ b (l_transport env) e s Hl He H).
    pose proof (refused_iff id (e_manifest e) b (fun info => Hp b info eq_refl)) as Hr.
    destruct (refused id (e_manifest e) b) as [error|]; eexists _, _; (split; [done|]).
    + destruct (Hfail error) as (F1 & F2 & F3 & F4 & F5). split_and!; [|done|intros _; split_and!; [done|done|done|by exists error]|done].
      split; [done|]. intros (b' & [= <-] & Hb). by apply Hr in Hb.
    + split_and!; [split; [intros _; exists b; by split; [|apply Hr]|done]| |done|].
      * intros _. exists (fresh s), b. cbn. rewrite lookup_insert_eq. destruct (owns_fresh _ _ H) as (? & _). split_and!; try done.
        by exists ""%string.
      * intros id' Hn. cbn. by rewrite lookup_insert_ne.
  - cbn. destruct (Hfail error) as (F1 & F2 & F3 & F4 & F5). eexists _, _. split; [done|].
    split_and!; [split; [done|by intros (b & ? & _)]|done|intros _; split_and!; [done|done|done|by exists error]|done].
Qed.

(** ** The operator's switch *)

(** [f] is what a call makes of the entry, the libraries stay. *)
Definition makes (id : string) (e' : Entry) (s : PM) (s' : PM) : Prop :=
  plugins_ok s' /\ plugins_ s' !! id = Some e' /\ libraries s' = libraries s.

Lemma Disable_runs id e s : plugins_ok s -> plugins_ s !! id = Some e ->
  exists s', run (Disable id) s = Ok (Ok tt, s') /\ makes id (set_state kDisabled "" (set_intent false e)) s s'.
Proof.
  intros H Hl. destruct (Disable_sound id s H) as (r & s' & E & Hok & _). exists s'.
  unfold Disable in E |- *. rewrite run_bind in E |- *.
  change (run (act (disable_mark id)) s) with (Ok (disable_mark id s) ≫= fun '(r, s') => Ok (r, s')) in E |- *.
  unfold disable_mark in E |- *. rewrite Hl in E |- *. cbn -[StopDriver] in E |- *. rewrite run_bind in E |- *.
  set (s1 := set_entry id (set_intent false) s) in *.
  assert (plugins_ s1 !! id = Some (set_intent false e)) as H1 by (unfold s1, set_entry; rewrite Hl; cbn; by rewrite lookup_insert_eq).
  assert (libraries s1 = libraries s) as L1 by (unfold s1, set_entry; by rewrite Hl).
  assert (exists s2, run (StopDriver (e_driver e)) s1 = Ok (tt, s2) /\ plugins_ s2 = plugins_ s1 /\ libraries s2 = libraries s1) as (s2 & E2 & P2 & L2).
  { destruct (run (StopDriver (e_driver e)) s1) as [[[] s2]| |] eqn:Es; [|done..]. exists s2. split; [done|].
    unfold StopDriver in Es. destruct (e_driver e) as [d|]; [|by injection Es as <-]. destruct (d_stop d); [|by injection Es as <-].
    cbn in Es. destruct (callable _ _); [|done]. by injection Es as <-. }
  rewrite E2 in E |- *. cbn in E |- *. injection E as _ <-. split; [done|]. split; [done|].
  unfold set_entry. rewrite P2, H1. cbn. rewrite lookup_insert_eq. split; [done|congruence].
Qed.

(** The driver, when the entry has one, starts. *)
Definition starts (start : start_env) : Prop :=
  (forall st, s_initialize start = Some st -> 0 <= st) /\ (forall st, s_start start = Some st -> 0 <= st).

Lemma start_runs id e d start s : plugins_ok s -> plugins_ s !! id = Some e -> e_driver e = Some d -> starts start ->
  exists st s', run (start_driver id d start) s = Ok (st, s') /\ 0 <= st /\ plugins_ s' = plugins_ s /\ libraries s' = libraries s /\ plugins_ok s'.
Proof.
  intros H Hl Hd [Hi Hs]. destruct (start_sound id e d start s H Hl Hd) as (st & s' & E & Hok & P). exists st, s'.
  unfold start_driver in E |- *. rewrite run_get in E |- *. rewrite run_bind in E |- *. unfold initialize_driver in E |- *.
  assert (forall st1 s1, 0 <= st1 -> libraries s1 = libraries s -> run (call_start d start st1) s1 = Ok (st, s') ->
    0 <= st /\ libraries s' = libraries s) as Hcall.
  { intros st1 s1 H1 L1 Ec. unfold call_start in Ec. destruct (s_start start) as [st'|]; [|by injection Ec as <- <-].
    rewrite (proj2 (Z.leb_le _ _) H1) in Ec. cbn in Ec. destruct (callable _ _); [|done]. injection Ec as <- <-. split; [auto|done]. }
  destruct (s_initialize start) as [st1|].
  - cbn in E |- *. destruct (callable _ _ && _); [|done]. cbn in E |- *.
    match type of E with run _ ?s1 = _ => destruct (Hcall st1 s1 (Hi st1 eq_refl) eq_refl E) end. by split_and!.
  - cbn in E |- *. destruct (Hcall 0 s ltac:(lia) eq_refl E). by split_and!.
Qed.

(** The switch is an operator's.  Switching off stops the driver and keeps
    the library mapped; switching on again starts it, whatever has become of the
    file in the meantime, with the library and the instance it had. *)
Theorem disabled_plugin_starts_again id e load start s : plugins_ok s -> plugins_ s !! id = Some e -> is_Some (e_library e) -> starts start ->
  exists s1 s2, run (Disable id) s = Ok (Ok tt, s1) /\ run (Enable hsf_status_name kind_name host id load start) s1 = Ok (Ok tt, s2) /\
    makes id (set_state kDisabled "" (set_intent false e)) s s1 /\ makes id (set_state kRunning "" (set_intent true e)) s s2.
Proof.
  intros H Hl [g Hg] Hst. destruct (Disable_runs id e s H Hl) as (s1 & E1 & Hok1 & Hl1 & L1). exists s1.
  set (e1 := set_state kDisabled "" (set_intent false e)) in *.
  unfold Enable. rewrite run_bind. unfold Load at 1. rewrite run_get. unfold load_check. rewrite Hl1.
  pose proof (ow_entry _ _ Hok1 _ _ Hl1) as He1. rewrite (eo_instance _ He1). change (e_library e1) with (e_library e). rewrite Hg.
  rewrite bool_decide_eq_true_2 by done. cbn [run mbind res_bind]. rewrite run_bind.
  change (run (act (enable_mark id)) s1) with (Ok (enable_mark id s1) ≫= fun '(r, s') => Ok (r, s')). unfold enable_mark at 1.
  rewrite Hl1. change (e_state e1) with kDisabled. rewrite bool_decide_eq_false_2 by done. cbn [mbind res_bind fst snd].
  set (s2 := set_entry id (fun e => set_state kEnabled (e_error e) (set_intent true e)) s1).
  assert (plugins_ok s2) as Hok2 by (apply ok_entry; done).
  assert (plugins_ s2 !! id = Some (set_state kEnabled "" (set_intent true e))) as Hl2
    by (unfold s2, set_entry; rewrite Hl1; cbn; by rewrite lookup_insert_eq).
  assert (libraries s2 = libraries s) as L2 by (unfold s2, set_entry; rewrite Hl1; done).
  change (e_driver e1) with (e_driver e).
  assert (forall s3 f, plugins_ok s3 -> plugins_ s3 = plugins_ s2 -> libraries s3 = libraries s -> (forall e, same_handles (f e) e) ->
    f (set_state kEnabled "" (set_intent true e)) = set_state kRunning "" (set_intent true e) ->
    makes id (set_state kRunning "" (set_intent true e)) s (set_entry id f s3)) as Hend.
  { intros s3 f Hok3 P3 L3 Hf Ef. split; [apply (ok_running id f g); [done|eexists; rewrite P3; split; [done|done]|done]|].
    unfold set_entry. rewrite P3, Hl2. cbn. by rewrite lookup_insert_eq, Ef. }
  destruct (e_driver e) as [d|] eqn:Ed.
  - destruct (start_runs id _ d start s2 Hok2 Hl2 Ed Hst) as (st & s3 & E3 & Hst3 & P3 & L3 & Hok3).
    rewrite run_bind, E3. cbn [mbind res_bind].
    change (run (act (enable_finish hsf_status_name id st)) s3) with (Ok (enable_finish hsf_status_name id st s3) ≫= fun '(r, s') => Ok (r, s')).
    unfold enable_finish. rewrite P3, Hl2, (proj2 (Z.ltb_ge st 0)) by done. cbn [mbind res_bind].
    eexists. split_and!; [done|done|done|]. apply Hend; try done. congruence.
  - eexists. split; [done|]. split; [reflexivity|]. split; [done|]. by apply Hend.
Qed.
End Ownership.

(** ** The theorems at work *)

Definition toy_id : string := "hsf.driver.modbus".
Definition plugin_manifest : PluginManifest :=
  mkManifest toy_id "Modbus" "1.0.0" "1.0" "" "" "plugin.so" "in_process" [] [] ["serial"%string] (b! "/plugins/modbus") (b! "/plugins/modbus/manifest.json").
Definition toy_status (st : Z) : string := if st <? 0 then "HSF_ERR" else "HSF_OK".
Definition toy_kind (k : Z) : string := "serial".
Definition toy_api : Z := 0x10000.
Definition good_binary : Binary := mkBinary toy_api (Some (mkInfo (b! "hsf.driver.modbus") 1 true)) (0, true, true) (Some (true, true, [])).
Definition good_load : load_env := mkLoadEnv (inl good_binary) (inr "cannot open /dev/ttyUSB0"%string).
Definition good_start : start_env := mkStartEnv (Some 0) (Some 0).
Definition discovered : PluginManager (J := jtree_json) :=
  set_plugins (record_manifest ∅ (mkManifestResult true kNone "" plugin_manifest))
    (SetConfiguration (J := jtree_json) (TObject [(toy_id, TObject [("transport"%string, TObject [])])]) new_manager).
Definition toy_entry : Entry := set_state kValidated "" (set_manifest plugin_manifest new_entry).
Definition after {A} (p : prog (PluginManager (J := jtree_json)) A) (s : PluginManager) : PluginManager :=
  match run p s with Ok (_, s') => s' | _ => s end.
Definition loaded_plugin : PluginManager (J := jtree_json) := after (Load toy_status toy_kind toy_api toy_id good_load) discovered.

Lemma discovered_ok : plugins_ok discovered.
Proof. unfold plugins_ok. apply record_manifest_owns. by apply (owns_same _ new_manager); try apply new_manager_ok. Qed.

Lemma loaded_plugin_ok : plugins_ok loaded_plugin.
Proof.
  destruct (Load_sound toy_status toy_kind toy_api toy_id good_load discovered discovered_ok) as (r & s' & E & H & _).
  unfold loaded_plugin, after. by rewrite E.
Qed.

Fixpoint turns (cs : list (plugin_call (J := jtree_json))) (s : PluginManager) : option PluginManager :=
  match cs with
  | [] => Some s
  | c :: cs => match run (plugin_method toy_status toy_kind toy_api c) s with Ok (_, s') => turns cs s' | _ => None end
  end.

Lemma turns_rtc cs : forall s s', turns cs s = Some s' -> rtc (plugin_turn toy_status toy_kind toy_api) s s'.
Proof.
  induction cs as [|c cs IH]; intros s s' H; cbn in H; [by injection H as ->|].
  destruct (run _ s) as [[[] s1]| |] eqn:E; [|done..]. eapply rtc_l; [by exists c|by apply IH].
Qed.

Definition toy_files : Files := tree_files [
  (b! "/plugins/modbus/manifest.json", toy_text (toy_manifest "plugin.so")); (b! "/plugins/modbus/plugin.so", [])].
Definition toy_calls : list (plugin_call (J := jtree_json)) :=
  [CRoot (b! "/plugins"); CDiscover coded_ops "linux-x86_64" toy_files (Some [b! "/plugins/modbus"]);
   CEnable toy_id good_load good_start; CDisable toy_id; CEnable toy_id good_load good_start].

Lemma plugins_never_dangle_witness : exists s, turns toy_calls new_manager = Some s /\
  (e_state <$> plugins_ s !! toy_id) = Some kRunning /\ libraries s = {[0%nat]} /\ owns (plugins_ s) s.
Proof.
  destruct (turns toy_calls new_manager) as [s|] eqn:E; [|vm_compute in E; discriminate]. exists s.
  pose proof (proj1 (plugins_never_dangle toy_status toy_kind toy_api s (turns_rtc _ _ _ E))) as H.
  split; [reflexivity|]. split; [|split; [|exact H]]; clear H; vm_compute in E; injection E as <-; vm_compute; reflexivity.
Defined.

Lemma load_admits_exactly_witness : exists s', run (Load toy_status toy_kind toy_api toy_id good_load) discovered = Ok (Ok tt, s') /\
  libraries s' = {[0%nat]}.
Proof.
  destruct (load_admits_exactly toy_status toy_kind toy_api toy_id good_load discovered toy_entry discovered_ok (O := coded_ops)) as (r & s' & E & H & _).
  - vm_compute. reflexivity.
  - reflexivity.
  - exists "linux-x86_64"%string, toy_files, (b! "/plugins/modbus/manifest.json"). split; vm_compute; reflexivity.
  - intros b info [= <-] [= <-]. cbn. lia.
  - assert (r = Ok tt) as ->.
    { apply H. exists good_binary. split; [reflexivity|]. split; [split; vm_compute; [reflexivity|discriminate]|]. split; [|cbn; split_and!; [lia|reflexivity|reflexivity]].
      eexists. split_and!; [reflexivity|vm_compute; reflexivity|]. cbn. intros i Hi. exists "serial"%string. split; [by left|exact Hi]. }
    exists s'. split; [exact E|]. vm_compute in E. injection E as <-. vm_compute. reflexivity.
Defined.

Lemma disabled_plugin_starts_again_witness : exists s1 s2, run (Disable toy_id) loaded_plugin = Ok (Ok tt, s1) /\
  run (Enable toy_status toy_kind toy_api toy_id (mkLoadEnv (inr "no such file"%string) (inr ""%string)) good_start) s1 = Ok (Ok tt, s2).
Proof.
  destruct (plugins_ loaded_plugin !! toy_id) as [e|] eqn:E; [|vm_compute in E; discriminate].
  destruct (disabled_plugin_starts_again toy_status toy_kind toy_api toy_id e (mkLoadEnv (inr "no such file"%string) (inr ""%string)) good_start
    loaded_plugin loaded_plugin_ok E) as (s1 & s2 & H1 & H2 & _).
  - vm_compute in E. injection E as <-. by exists 0%nat.
  - split; intros st [= <-]; lia.
  - exists s1, s2. exact (conj H1 H2).
Defined.

(** ** What modelling showed *)

(** What a thread would do next is undefined. *)
Definition faults {S} (i : nat) (c : option (list (prog S unit) * S)) : bool :=
  match c with
  | Some (ps, s) => match ps !! i with
                    | Some (Act ready f k) => match f s with Fault => true | _ => false end
                    | _ => false
                    end
  | None => false
  end.

(** The driver is called outside the lock: an Unload between marking the entry
    and starting the driver closes the library the driver's code is in. *)
Definition enable_method : prog (PluginManager (J := jtree_json)) unit :=
  plugin_method toy_status toy_kind toy_api (CEnable toy_id good_load good_start).
Definition unload_method : prog (PluginManager (J := jtree_json)) unit := plugin_method toy_status toy_kind toy_api (CUnload toy_id).

Example unload_during_enable : faults 0 (schedule [0; 0; 0; 1; 1; 1; 1]%nat ([enable_method; unload_method], loaded_plugin)) = true.
Proof. vm_compute. reflexivity. Qed.

(** Two requests to enable a plugin that is not loaded both load it: the second
    one's library takes the first one's place, which is closed while its driver
    runs in it. *)
Example enabled_twice_at_once :
  match schedule ([0; 1] ++ replicate 12 0 ++ replicate 7 1)%nat ([enable_method; enable_method], discovered) with
  | Some (_, s) => instances s !! 0%nat = Some (mkInstance None true) /\ libraries s = {[1%nat]}
  | None => False
  end.
Proof. vm_compute. split; reflexivity. Qed.

(** The reason a transport could not be made is gone when the load ends. *)
Example transport_error_is_lost :
  match run (Load toy_status toy_kind toy_api toy_id good_load) discovered with
  | Ok (r, s') => r = Ok tt /\ (e_error <$> plugins_ s' !! toy_id) = Some ""%string /\ (e_transport <$> plugins_ s' !! toy_id) = Some None
  | _ => False
  end.
Proof. vm_compute. split_and!; reflexivity. Qed.

(** Two plugins whose entries are missing share one record, under no name. *)
Example nameless_rejections_collide :
  let found := [toy_load "other.so"; fail_manifest kMalformedJson "manifest at /plugins/b/manifest.json is not valid JSON"] in
  map fst (map_to_list (foldl record_manifest ∅ found)) = [""%string].
Proof. vm_compute. reflexivity. Qed.

(** A plugin whose manifest is refused, here for a permission nobody can
    enforce, is loaded when it is enabled, and from an entry outside its
    directory. *)
Definition rejected_manifest : PluginManifest :=
  mkManifest toy_id "Modbus" "1.0.0" "1.0" "" "" "../../tmp/evil.so" "" [] [] ["serial"; "rawdisk"]%string (b! "/plugins/modbus") [].
Example rejected_plugin_is_loaded :
  let r := ValidateManifest "linux-x86_64" rejected_manifest toy_api in
  let s := set_plugins (record_manifest ∅ r) (new_manager (J := jtree_json)) in
  r_error r = kUnknownPermission /\ (e_state <$> plugins_ s !! toy_id) = Some kFailed /\
  match run (Enable toy_status toy_kind toy_api toy_id good_load good_start) s with
  | Ok (answer, s') => answer = Ok tt /\ (e_state <$> plugins_ s' !! toy_id) = Some kRunning
  | _ => False
  end.
Proof. vm_compute. split_and!; reflexivity. Qed.
