(* ===== verification/PluginInstall.v ===== *)
(** * Installing plugins (src/plugin_manager/PluginManager.cpp)

    Install, upload, rollback and removal of plugin directories, on a disk that
    is a list of files under resolved paths: a directory is its files, an empty
    one is as none, and there are no symbolic links.  Whether an operation on
    the file system succeeds is the environment; one that fails leaves what was
    there, except a copy, which leaves part of what it copied. *)

From S2P Require Import Prelude Words Text Json JsonFile Threads PluginManifest PluginManager.

(** ** The disk *)

(** A resolved path: its parts from the root. *)
Definition Path : Type := list (list Z).
Definition FileDisk : Type := list (Path * list Z).

Definition text_of_path (p : Path) : list Z := concat (map (cons 47) p).
Definition resolved (text : list Z) : Path := resolve [] (split_on 47 text).

(** [p / name], resolved. *)
Definition child (p : Path) (name : list Z) : Path :=
  if bool_decide (head name = Some 47) then resolved name else resolve (rev p) (split_on 47 name).

Definition under (p q : Path) : bool := bool_decide (take (length p) q = p).

(** What is below [p], relative to it. *)
Definition relative (p : Path) (f : Path * list Z) : option (Path * list Z) :=
  if under p f.1 then Some (drop (length p) f.1, f.2) else None.
Definition below (p : Path) (d : FileDisk) : FileDisk := omap (relative p) d.

Definition exists_path (p : Path) (d : FileDisk) : bool := negb (bool_decide (below p d = [])).
Definition is_directory (p : Path) (d : FileDisk) : bool := existsb (fun f => negb (bool_decide (f.1 = []))) (below p d).
Definition remove_all (p : Path) (d : FileDisk) : FileDisk := List.filter (fun f => negb (under p f.1)) d.

Definition moved (a b : Path) (f : Path * list Z) : Path * list Z :=
  if under a f.1 then (b ++ drop (length a) f.1, f.2) else f.

(** [rename] onto something that is there fails. *)
Definition rename (ok : bool) (a b : Path) (d : FileDisk) : option FileDisk :=
  if ok && exists_path a d && negb (exists_path b d) then Some (map (moved a b) d) else None.

(** A recursive copy of the files [kept]. *)
Definition copy_files (kept : Path * list Z -> bool) (a b : Path) (d : FileDisk) : FileDisk :=
  d ++ map (fun f => (b ++ f.1, f.2)) (List.filter kept (below a d)).

(** A file is written, when its directory is there and it is none itself. *)
Definition write_file (p : Path) (bytes : list Z) (d : FileDisk) : FileDisk :=
  if is_directory p d || negb (is_directory (removelast p) d) then d
  else (p, bytes) :: List.filter (fun f => negb (bool_decide (f.1 = p))) d.

Definition disk_files (d : FileDisk) : Files := tree_files (map (fun f => (text_of_path f.1, f.2)) d).

(** The directories in a directory. *)
Definition subdirectories (p : Path) (d : FileDisk) : list Path :=
  remove_dups (omap (fun f : Path * list Z => match f.1 with name :: _ :: _ => Some (p ++ [name]) | _ => None end) (below p d)).

Section PluginInstall.
Context {J : JsonLib} {O : JsonFileOps}.
Abbreviation PM := (PluginManager (J := J)).

(** The gateway's interface version and platform, and the order in which a
    directory is listed. *)
Context (host : Z) (here : string) (order : list Path -> list Path).

(** Where the packages of a plugin are. *)
Definition target_of (root : Path) (id : list Z) : Path := child root id.
Definition rollback_of (root : Path) (id : list Z) : Path := child (child root (b! ".rollback")) id.
Definition staging_of (root : Path) (id : list Z) : Path := child root (b! "." ++ id ++ b! ".installing").
Definition uploading_of (root : Path) (id : list Z) : Path := child root (b! "." ++ id ++ b! ".uploading").
Definition temporary_of (root : Path) (id : list Z) : Path := child root (b! "." ++ id ++ b! ".rollback").

Definition DiscoverOn (s : PM) (d : FileDisk) : res (Z * PM) :=
  let root := resolved (root_ s) in
  run (Discover host here (disk_files d)
    (if is_directory root d then Some (map text_of_path (order (subdirectories root d))) else None)) s.

(** The outcomes of the operations of an installation. *)
Record install_io := mkInstallIo {
  staging_cleared : bool; rollback_made : bool; rollback_cleared : bool; old_moved : bool;
  copied : Path * list Z -> bool; copy_done : bool; activated : bool; restored : bool
}.

(** The previous package back in its place, when that succeeds. *)
Definition put_back (io : install_io) (target rollback : Path) (d : FileDisk) : FileDisk :=
  default d (rename (restored io) rollback target d).

(** From the saving of the current package on; the disk, and whether the new
    package is in place. *)
Definition replace_package (io : install_io) (src target rollback staging : Path) (d : FileDisk) : res unit * FileDisk :=
  let d1 := if staging_cleared io then remove_all staging d else d in
  if negb (rollback_made io) then (Err "cannot create plugin rollback directory", d1)
  else
    let d2 := if rollback_cleared io then remove_all rollback d1 else d1 in
    match (if exists_path target d2 then rename (old_moved io) target rollback d2 else Some d2) with
    | None => (Err "cannot save the current plugin for rollback", d2)
    | Some d3 =>
        if copy_done io && is_directory src d3 && negb (exists_path staging d3) then
          let d4 := copy_files (fun _ => true) src staging d3 in
          match rename (activated io) staging target d4 with
          | Some d5 => (Ok tt, d5)
          | None => (Err "cannot activate plugin package", put_back io target rollback (remove_all staging d4))
          end
        else (Err "cannot copy plugin package", put_back io target rollback (copy_files (copied io) src staging d3))
    end.

Definition InstallPlugin (io : install_io) (source : list Z) (st : PM * FileDisk) : res (res string * (PM * FileDisk)) :=
  let '(s, d) := st in
  let src := resolved source in
  if negb (is_directory src d) then Ok (Err "plugin package directory does not exist", st)
  else
    let checked := LoadManifest here (disk_files d) (path_append (text_of_path src) (b! "manifest.json")) host in
    if negb (r_ok checked) then Ok (Err (ManifestErrorName (r_error checked) ++ ": " ++ r_message checked), st)
    else
      let root := resolved (root_ s) in
      let id := bytes_of (m_id (r_manifest checked)) in
      if bool_decide (root_ s = []) then Ok (Err "plugin root is not configured", st)
      else if bool_decide (src = target_of root id) then Ok (Err "source directory is already the installed plugin", st)
      else
        '(_, s1) ← run (Unload (m_id (r_manifest checked))) s;
        match replace_package io src (target_of root id) (rollback_of root id) (staging_of root id) d with
        | (Ok _, d') => '(_, s2) ← DiscoverOn s1 d'; Ok (Ok (m_id (r_manifest checked)), (s2, d'))
        | (Err error, d') => Ok (Err error, (s1, d'))
        | (Fault, d') => Fault
        end.

(** [made]: whether the staging directory could be created. *)
Definition ImportUploaded (io : install_io) (made : bool) (manifest binary : list Z) (st : PM * FileDisk) : res (res string * (PM * FileDisk)) :=
  let '(s, d) := st in
  match parse_text manifest with
  | None => Ok (Err "invalid manifest", st)
  | Some j =>
      match value_string j "id" "", value_string j "entry" "" with
      | Some id, Some entry =>
          if String.eqb id "" || String.eqb entry "" || bool_decide (binary = []) then Ok (Err "manifest id, entry and plugin binary are required", st)
          else if bool_decide (root_ s = []) then Ok (Err "plugin root is not configured", st)
          else if negb made then Ok (Err "cannot create plugin upload staging directory", (s, remove_all (uploading_of (resolved (root_ s)) (bytes_of id)) d))
          else
            match dump_json j with
            | None => Ok (Err "type_error", st)
            | Some text =>
                let staging := uploading_of (resolved (root_ s)) (bytes_of id) in
                let d1 := (child staging (b! "manifest.json"), text) :: remove_all staging d in
                let d2 := write_file (child staging (bytes_of entry)) binary d1 in
                '(r, (s', d')) ← InstallPlugin io (text_of_path staging) (s, d2);
                Ok (r, (s', remove_all staging d'))
            end
      | _, _ => Ok (Err "type_error", st)
      end
  end.

Record rollback_io := mkRollbackIo { current_moved : bool; previous_moved : bool; current_restored : bool }.

Definition swap_packages (io : rollback_io) (current previous temporary : Path) (d : FileDisk) : res unit * FileDisk :=
  let d1 := remove_all temporary d in
  match (if exists_path current d1 then rename (current_moved io) current temporary d1 else Some d1) with
  | None => (Err "cannot prepare plugin rollback", d1)
  | Some d2 =>
      match rename (previous_moved io) previous current d2 with
      | Some d3 => (Ok tt, remove_all temporary d3)
      | None => (Err "cannot activate rollback", default d2 (rename (current_restored io) temporary current d2))
      end
  end.

Definition RollbackPlugin (io : rollback_io) (id : string) (st : PM * FileDisk) : res (res unit * (PM * FileDisk)) :=
  let '(s, d) := st in
  let root := resolved (root_ s) in
  if negb (is_directory (rollback_of root (bytes_of id)) d) then Ok (Err "no rollback package is available", st)
  else
    '(_, s1) ← run (Unload id) s;
    match swap_packages io (target_of root (bytes_of id)) (rollback_of root (bytes_of id)) (temporary_of root (bytes_of id)) d with
    | (Ok _, d') => '(_, s2) ← DiscoverOn s1 d'; Ok (Ok tt, (s2, d'))
    | (Err error, d') => Ok (Err error, (s1, d'))
    | (Fault, d') => Fault
    end.

Definition RemovePlugin (deleted : bool) (id : string) (st : PM * FileDisk) : res (res unit * (PM * FileDisk)) :=
  let '(s, d) := st in
  let target := target_of (resolved (root_ s)) (bytes_of id) in
  '(_, s1) ← run (Unload id) s;
  if negb (is_directory target d) then Ok (Err "plugin is not installed", (s1, d))
  else if negb deleted then Ok (Err "cannot delete plugin", (s1, d))
  else '(_, s2) ← DiscoverOn s1 (remove_all target d); Ok (Ok tt, (s2, remove_all target d)).
End PluginInstall.

(** ** Paths that do not overlap *)

Definition apart (p q : Path) : Prop := ~ p `prefix_of` q /\ ~ q `prefix_of` p.

Lemma under_iff p q : under p q = true <-> p `prefix_of` q.
Proof.
  unfold under. rewrite bool_decide_eq_true. split.
  - intros E. exists (drop (length p) q). by rewrite <- E at 1; rewrite take_drop.
  - intros [r ->]. by rewrite take_app_length.
Qed.

Lemma under_app p r : under p (p ++ r) = true.
Proof. apply under_iff. by exists r. Qed.

Lemma apart_app p q r : apart p q -> under p (q ++ r) = false.
Proof.
  intros [H1 H2]. apply not_true_iff_false. intros H%under_iff. destruct (prefix_weak_total p q (q ++ r)); [done|by exists r|done|done].
Qed.

Lemma apart_sym p q : apart p q -> apart q p.
Proof. intros [? ?]. by split. Qed.

Lemma apart_under p q f : apart p q -> under q f = true -> under p f = false.
Proof. intros H [r ->]%under_iff. by apply apart_app. Qed.

Lemma relative_some p f r : relative p f = Some r -> f.1 = p ++ r.1 /\ f.2 = r.2.
Proof.
  unfold relative. destruct (under p f.1) eqn:E; [|done]. intros [= <-]. cbn. apply under_iff in E as [q E]. rewrite E. by rewrite drop_app_length.
Qed.

Lemma relative_none p f : under p f.1 = false -> relative p f = None.
Proof. unfold relative. by intros ->. Qed.
Lemma relative_app p r c : relative p (p ++ r, c) = Some (r, c).
Proof. unfold relative. cbn. by rewrite under_app, drop_app_length. Qed.
Lemma relative_under p f : under p f.1 = true -> relative p f = Some (drop (length p) f.1, f.2).
Proof. unfold relative. by intros ->. Qed.

(** ** What the operations do below a path *)

#[local] Arguments relative : simpl never.
#[local] Arguments under : simpl never.
#[local] Arguments moved : simpl never.

Lemma below_nil p d : exists_path p d = false <-> below p d = [].
Proof. unfold exists_path. by rewrite negb_false_iff, bool_decide_eq_true. Qed.

Lemma below_app p d1 d2 : below p (d1 ++ d2) = below p d1 ++ below p d2.
Proof. apply omap_app. Qed.

Lemma below_remove_same p d : below p (remove_all p d) = [].
Proof. induction d as [|f d IH]; [done|]. cbn. destruct (under p f.1) eqn:E; cbn; [done|]. by rewrite relative_none. Qed.

Lemma below_remove_other p q d : apart p q -> below p (remove_all q d) = below p d.
Proof.
  intros H. induction d as [|f d IH]; [done|]. cbn. destruct (under q f.1) eqn:E; cbn.
  - by rewrite (relative_none p f (apart_under p q _ H E)).
  - unfold below, remove_all in IH. by rewrite IH.
Qed.

Lemma moved_under a b f : under a f.1 = true -> moved a b f = (b ++ drop (length a) f.1, f.2).
Proof. unfold moved. by intros ->. Qed.
Lemma moved_other a b f : under a f.1 = false -> moved a b f = f.
Proof. unfold moved. by intros ->. Qed.

Lemma below_moved_target a b d : below b d = [] -> below b (map (moved a b) d) = below a d.
Proof.
  induction d as [|f d IH]; [done|]. intros Hb. cbn in Hb |- *. destruct (relative b f) eqn:Er; [done|]. specialize (IH Hb). unfold below in IH.
  destruct (under a f.1) eqn:E.
  - by rewrite (moved_under _ _ _ E), relative_app, (relative_under a f E), IH.
  - by rewrite (moved_other _ _ _ E), Er, (relative_none a f E).
Qed.

Lemma below_moved_source a b d : apart a b -> below a (map (moved a b) d) = [].
Proof.
  intros H. induction d as [|f d IH]; [done|]. cbn. destruct (under a f.1) eqn:E.
  - rewrite (moved_under _ _ _ E), relative_none; [done|]. by apply apart_app.
  - by rewrite (moved_other _ _ _ E), relative_none.
Qed.

Lemma below_moved_other p a b d : apart p a -> apart p b -> below p (map (moved a b) d) = below p d.
Proof.
  intros Ha Hb. induction d as [|f d IH]; [done|]. cbn. unfold below in IH. destruct (under a f.1) eqn:E.
  - rewrite (moved_under _ _ _ E), relative_none by (by apply apart_app). by rewrite (relative_none p f (apart_under p a _ Ha E)).
  - by rewrite (moved_other _ _ _ E), IH.
Qed.

Lemma below_placed b l : below b (map (fun f : Path * list Z => (b ++ f.1, f.2)) l) = l.
Proof. induction l as [|[q c] l IH]; [done|]. cbn. rewrite relative_app. unfold below in IH. by rewrite IH. Qed.

Lemma below_copy_target kept a b d : below b d = [] -> below b (copy_files kept a b d) = List.filter kept (below a d).
Proof. intros H. unfold copy_files. by rewrite below_app, H, below_placed. Qed.

Lemma below_copy_other kept p a b d : apart p b -> below p (copy_files kept a b d) = below p d.
Proof.
  intros H. unfold copy_files. rewrite below_app. assert (forall l, below p (map (fun f : Path * list Z => (b ++ f.1, f.2)) l) = []) as ->; [|by rewrite app_nil_r].
  induction l as [|f l IH]; [done|]. cbn. rewrite relative_none; [done|]. by apply apart_app.
Qed.

Lemma is_directory_below p d d' : below p d = below p d' -> is_directory p d = is_directory p d'.
Proof. unfold is_directory. by intros ->. Qed.

Lemma exists_below p d d' : below p d = below p d' -> exists_path p d = exists_path p d'.
Proof. unfold exists_path. by intros ->. Qed.

Lemma rename_some ok a b d d' : rename ok a b d = Some d' -> ok = true /\ below b d = [] /\ d' = map (moved a b) d.
Proof.
  unfold rename. destruct ok; [|done]. destruct (exists_path a d); [|done]. destruct (exists_path b d) eqn:E; [done|]. intros [= <-].
  by apply below_nil in E.
Qed.

Lemma filter_everything {A} (l : list A) : List.filter (fun _ => true) l = l.
Proof. induction l as [|x l IH]; [done|]. cbn. by rewrite IH. Qed.

Lemma put_back_spec io target rollback d : apart target rollback -> below target d = [] ->
  below target (put_back io target rollback d) = (if restored io then below rollback d else []) /\
  (restored io = false -> below rollback (put_back io target rollback d) = below rollback d) /\
  (forall p, apart p target -> apart p rollback -> below p (put_back io target rollback d) = below p d).
Proof.
  intros Ha Ht. unfold put_back, rename. destruct (restored io); cbn [andb]; [|done]. rewrite (proj2 (below_nil target d) Ht), andb_true_r.
  destruct (exists_path rollback d) eqn:E; cbn [default from_option id].
  - split_and!; [by apply below_moved_target|done|]. intros p H1 H2. by apply below_moved_other.
  - apply below_nil in E. by rewrite Ht, E.
Qed.

(** The package at [target] is moved to [rollback], when there is one. *)
Lemma save_spec ok target rollback d d3 : apart target rollback ->
  (if exists_path target d then rename ok target rollback d else Some d) = Some d3 ->
  below target d3 = [] /\ below rollback d3 = (if exists_path target d then below target d else below rollback d) /\ forall p, apart p target -> apart p rollback -> below p d3 = below p d.
Proof.
  intros Ha E. destruct (exists_path target d) eqn:Et.
  - apply rename_some in E as (_ & Hb & ->). split_and!; [by apply below_moved_source|by apply below_moved_target|]. intros p H1 H2. by apply below_moved_other.
  - injection E as <-. by apply below_nil in Et.
Qed.

Section Replace.
Context (io : install_io) (src target rollback staging : Path).
Context (Hst : apart src target) (Hsr : apart src rollback) (Hss : apart src staging).
Context (Htr : apart target rollback) (Hts : apart target staging) (Hrs : apart rollback staging).

(** What the plugin's place may hold after a failure: what it held; nothing,
    with what it held in the rollback place, when putting it back failed; or,
    when it held nothing, an old rollback that could not be deleted. *)
Definition kept_after_failure (d d' : FileDisk) : Prop :=
  below target d' = below target d \/
  (restored io = false /\ below target d' = [] /\ below rollback d' = below target d) \/
  (exists_path target d = false /\ rollback_cleared io = false /\ below target d' = below rollback d).

Lemma replace_package_spec d :
  let '(r, d') := replace_package io src target rollback staging d in
  r <> Fault /\
  (r = Ok tt -> below target d' = below src d /\ (exists_path target d = true -> below rollback d' = below target d)) /\
  (r <> Ok tt -> kept_after_failure d d') /\
  (forall p, apart p target -> apart p rollback -> apart p staging -> below p d' = below p d).
Proof.
  unfold replace_package. cbn zeta. set (d1 := if staging_cleared io then remove_all staging d else d).
  assert (forall p, apart p staging -> below p d1 = below p d) as H1 by (intros p Hp; unfold d1; destruct (staging_cleared io); [by apply below_remove_other|done]).
  destruct (rollback_made io); cbn [negb]; [|split_and!; [done|done|intros _; left; auto|auto]].
  set (d2 := if rollback_cleared io then remove_all rollback d1 else d1).
  assert (forall p, apart p rollback -> apart p staging -> below p d2 = below p d) as H2.
  { intros p Hp Hp'. unfold d2. destruct (rollback_cleared io); [rewrite below_remove_other by done|]; auto. }
  assert (exists_path target d2 = exists_path target d) as Et by (by apply exists_below, H2).
  destruct (if exists_path target d2 then _ else _) as [d3|] eqn:E3.
  2:{ split_and!; [done|done|intros _; left; auto|auto]. }
  destruct (save_spec _ target rollback d2 d3 Htr E3) as (T3 & R3 & P3). rewrite Et in R3.
  assert (forall p, apart p target -> apart p rollback -> apart p staging -> below p d3 = below p d) as P3' by (intros p ???; rewrite P3 by done; auto).
  (* after a failure from here on, what is in the rollback place goes back *)
  assert (forall d', below target d' = [] -> below rollback d' = below rollback d3 ->
    (forall p, apart p target -> apart p rollback -> apart p staging -> below p d' = below p d) -> forall error : string,
    let '(r, d'') := (Err (A := unit) error, put_back io target rollback d') in
    r <> Fault /\ (r = Ok tt -> below target d'' = below src d /\ (exists_path target d = true -> below rollback d'' = below target d)) /\
    (r <> Ok tt -> kept_after_failure d d'') /\
    (forall p, apart p target -> apart p rollback -> apart p staging -> below p d'' = below p d)) as Hback.
  { intros d' T R P error. destruct (put_back_spec io target rollback d' Htr T) as (B1 & B2 & B3). split_and!; [done|done| |].
    - intros _. rewrite R, R3 in B1, B2. unfold kept_after_failure. destruct (exists_path target d) eqn:Ed.
      + rewrite (H2 target) in B1, B2 by done. destruct (restored io); [by left|right; left; auto].
      + apply below_nil in Ed. rewrite Ed. destruct (restored io); [|by left]. unfold d2 in B1.
        destruct (rollback_cleared io); [left; by rewrite B1, below_remove_same|right; right]. split_and!; [done|done|by rewrite B1, H1].
    - intros p ???. rewrite B3 by done. auto. }
  destruct (copy_done io && is_directory src d3 && negb (exists_path staging d3)) eqn:Ec.
  - apply andb_true_iff in Ec as [_ Ec]. apply negb_true_iff, below_nil in Ec.
    destruct (rename (activated io) staging target _) as [d5|] eqn:E5.
    + apply rename_some in E5 as (_ & T4 & ->). split_and!; [done| |done|].
      * intros _. rewrite below_moved_target by done. rewrite below_copy_target by done.
        split; [rewrite filter_everything; by apply P3'|]. intros Ed. rewrite below_moved_other by (done || by apply apart_sym).
        rewrite below_copy_other by done. rewrite R3, Ed. auto.
      * intros p ???. rewrite below_moved_other by done. rewrite below_copy_other by done. auto.
    + apply Hback.
      * rewrite below_remove_other by done. by rewrite below_copy_other.
      * rewrite below_remove_other by done. by rewrite below_copy_other.
      * intros p ???. rewrite below_remove_other by done. rewrite below_copy_other by done. auto.
  - apply Hback; [by rewrite below_copy_other|by rewrite below_copy_other|]. intros p ???. rewrite below_copy_other by done. auto.
Qed.
End Replace.

(** ** The places of a plugin *)

(** One part of a path, not hidden. *)
Definition plain_name (name : list Z) : Prop := name <> [] /\ (47 ∉ name) /\ head name <> Some 46.

Lemma valid_id_chars id : forall has prev, valid_id_loop has prev id = true -> Forall (fun c => c = 46 \/ id_char c = true) id.
Proof.
  induction id as [|c id IH]; intros has prev H; [constructor|]. cbn in H. destruct (c =? 46) eqn:Ec.
  - apply Z.eqb_eq in Ec. destruct prev; [done|]. constructor; [by left|by eapply IH].
  - destruct (id_char c) eqn:Ei; [|done]. constructor; [by right|by eapply IH].
Qed.

Lemma valid_plain id : ValidId id = true -> plain_name id.
Proof.
  unfold ValidId. destruct (bool_decide (id = [])) eqn:E0; [done|]. apply bool_decide_eq_false in E0. cbn [orb].
  destruct (_ <? _)%nat; [done|]. destruct (bool_decide (head id = Some 46)) eqn:E1; [done|]. apply bool_decide_eq_false in E1.
  cbn [orb]. destruct (bool_decide _); [done|]. intros H%valid_id_chars. split_and!; [done| |done].
  intros Hin. rewrite Forall_forall in H. by destruct (H 47 Hin).
Qed.

Lemma split_on_one name : 47 ∉ name -> split_on 47 name = [name].
Proof.
  intros H. rewrite split_on_until. pose proof (until_unique 47 name [] H (or_introl eq_refl)) as E. rewrite app_nil_r in E. by rewrite E.
Qed.

(** A part that is not [.] or [..] is one step down. *)
Lemma child_part p name : 47 ∉ name -> name <> [] -> name <> b! "." -> name <> b! ".." -> child p name = p ++ [name].
Proof.
  intros H1 H2 H3 H4. unfold child. rewrite bool_decide_eq_false_2.
  - rewrite split_on_one by done. cbn [resolve]. rewrite !bool_decide_eq_false_2 by done. cbn. by rewrite rev_involutive.
  - destruct name as [|c name]; [done|]. intros [= ->]. apply H1. by left.
Qed.

Lemma hidden_part p name : 47 ∉ name -> (2 <= length name)%nat -> child p (46 :: name) = p ++ [46 :: name].
Proof.
  intros H Hl. apply child_part; [rewrite not_elem_of_cons; by split|done|..]; intros [= E]; subst name; cbn in Hl; lia.
Qed.

Section Places.
Context (root : Path) (id : list Z) (Hid : plain_name id).

Lemma target_place : target_of root id = root ++ [id].
Proof. destruct Hid as (H1 & H2 & H3). apply child_part; [done|done|intros ->; by apply H3..]. Qed.

Lemma rollback_place : rollback_of root id = root ++ [b! ".rollback"; id].
Proof.
  destruct Hid as (H1 & H2 & H3). unfold rollback_of. change (b! ".rollback") with (46 :: b! "rollback"). rewrite (hidden_part root (b! "rollback")).
  - rewrite child_part; [by rewrite <- app_assoc|done|done|intros ->; by apply H3..].
  - by apply (bool_decide_unpack (47 ∉ b! "rollback")).
  - cbn. lia.
Qed.

Lemma hidden_place suffix : (47 ∉ suffix) -> suffix <> [] -> child root (b! "." ++ id ++ suffix) = root ++ [46 :: id ++ suffix].
Proof.
  destruct Hid as (H1 & H2 & H3). intros Hs Hn. apply (hidden_part root (id ++ suffix)); [by rewrite not_elem_of_app|].
  rewrite length_app. destruct id, suffix; try done. cbn. lia.
Qed.

Lemma staging_place : staging_of root id = root ++ [46 :: id ++ b! ".installing"].
Proof. apply hidden_place; [by apply (bool_decide_unpack (47 ∉ b! ".installing"))|done]. Qed.
Lemma temporary_place : temporary_of root id = root ++ [46 :: id ++ b! ".rollback"].
Proof. apply hidden_place; [by apply (bool_decide_unpack (47 ∉ b! ".rollback"))|done]. Qed.
End Places.

(** Two places that part after the root. *)
Lemma apart_parts root a b p q : a <> b -> apart (root ++ a :: p) (root ++ b :: q).
Proof. intros H. split; intros E%prefix_app_inv; apply prefix_cons_inv_1 in E; congruence. Qed.

Lemma plain_hidden root id id' p q : plain_name id -> apart (root ++ id :: p) (root ++ (46 :: id') :: q).
Proof. intros (_ & _ & H). apply apart_parts. intros ->. by apply H. Qed.

Lemma places_apart root id : plain_name id ->
  apart (target_of root id) (rollback_of root id) /\ apart (target_of root id) (staging_of root id) /\ apart (rollback_of root id) (staging_of root id) /\
  apart (target_of root id) (temporary_of root id) /\ apart (rollback_of root id) (temporary_of root id).
Proof.
  intros H. rewrite target_place, rollback_place, staging_place, temporary_place by done.
  split_and!; try by apply plain_hidden. all: apply apart_parts; intros [= E]; apply (f_equal length) in E; rewrite length_app in E; cbn in E;
    destruct H as (Hn & _ & _); destruct id; [done|]; cbn in E; lia.
Qed.


(** ** Installing *)

Section Installing.
Context {J : JsonLib} {O : JsonFileOps} (host : Z) (here : string) (order : list Path -> list Path).
Abbreviation PM := (PluginManager (J := J)).

Lemma accepted_id fs path : r_ok (LoadManifest here fs path host) = true ->
  plain_name (bytes_of (m_id (r_manifest (LoadManifest here fs path host)))).
Proof.
  intros H. apply valid_plain. destruct (accepted_valid _ _ _ _ H) as (m & (_ & Hi & _) & ->). apply ValidId_iff.
  unfold with_default_mode. by destruct (String.eqb _ _).
Qed.

Lemma Unload_runs id (s : PM) : plugins_ok s -> exists r s', run (Unload id) s = Ok (r, s') /\ plugins_ok s' /\ root_ s' = root_ s.
Proof.
  intros H. destruct (Unload_sound id s H) as (r & s' & E & Hok & _). exists r, s'. split_and!; [done|done|].
  unfold Unload in E. rewrite run_bind in E.
  change (run (act (detach id)) s) with (Ok (detach id s) ≫= fun '(r, s') => Ok (r, s')) in E. unfold detach in E.
  assert (forall f, root_ (set_entry id f s) = root_ s) as Hr by (intros f; unfold set_entry; by destruct (plugins_ s !! id)).
  destruct (plugins_ s !! id) as [e|] eqn:Hl; [|by injection E as <- <-].
  destruct (bool_decide _ && _); [by injection E as <- <-; rewrite Hr|]. cbn -[ReleaseEntry] in E. rewrite run_bind in E.
  set (s1 := set_entry id _ s) in E. assert (owns (plugins_ s) s1) as H1 by (unfold s1, set_entry; rewrite Hl; by apply (owns_same _ s)).
  rewrite (release_runs (plugins_ s) id e s1 H1 Hl) in E. cbn in E. injection E as <- <-. unfold s1. by destruct (e_library e); cbn; rewrite Hr.
Qed.

Lemma DiscoverOn_runs (s : PM) d : plugins_ok s -> exists n s', DiscoverOn host here order s d = Ok (n, s') /\ plugins_ok s' /\ root_ s' = root_ s.
Proof.
  intros H. unfold DiscoverOn. cbn zeta. match goal with |- context [Discover _ _ _ ?ds] => destruct (Discover_sound host here (disk_files d) ds s H) as (n & s' & E & Hok & _) end.
  exists n, s'. split_and!; [done|done|]. revert E. unfold Discover. rewrite run_get.
  destruct (root_ s) as [|c root] eqn:Er; [by intros [= _ <-]|]. destruct (if is_directory _ _ then _ else _); by intros [= _ <-].
Qed.

(** The source is in none of the places an installation uses. *)
Definition elsewhere (root src : Path) : Prop := forall id, plain_name id ->
  apart src (target_of root id) /\ apart src (rollback_of root id) /\ apart src (staging_of root id).

End Installing.

(** ** Rolling back *)

Lemma swap_spec io current previous temporary d : apart current previous -> apart current temporary -> apart previous temporary ->
  is_directory previous d = true ->
  let '(r, d') := swap_packages io current previous temporary d in
  r <> Fault /\
  (r = Ok tt -> below current d' = below previous d /\ below previous d' = []) /\
  (r <> Ok tt -> below previous d' = below previous d /\
     (below current d' = below current d \/ (current_restored io = false /\ below temporary d' = below current d))) /\
  (current_moved io = true -> previous_moved io = true -> r = Ok tt) /\
  (forall p, apart p current -> apart p previous -> apart p temporary -> below p d' = below p d).
Proof.
  intros A1 A2 A3 Hp. unfold swap_packages. cbn zeta. set (d1 := remove_all temporary d).
  assert (forall p, apart p temporary -> below p d1 = below p d) as H1 by (intros p; apply below_remove_other).
  assert (below temporary d1 = []) as T1 by apply below_remove_same.
  assert (exists_path current d1 = exists_path current d) as Ec by (by apply exists_below, H1).
  assert (below previous d <> []) as Hpn by (intros E; unfold is_directory in Hp; by rewrite E in Hp).
  destruct (if exists_path current d1 then _ else _) as [d2|] eqn:E2.
  2:{ split_and!; [done|done|intros _; split; [auto|left; auto]| |auto]. intros Hm. exfalso.
      destruct (exists_path current d1) eqn:E; [|done]. unfold rename in E2. rewrite Hm, E in E2. cbn in E2. by rewrite (proj2 (below_nil _ _) T1) in E2. }
  assert (below current d2 = [] /\ below temporary d2 = below current d /\ below previous d2 = below previous d /\
    forall p, apart p current -> apart p temporary -> below p d2 = below p d) as (C2 & T2 & P2 & O2).
  { destruct (save_spec _ current temporary d1 d2 A2 E2) as (S1 & S2 & S3). split_and!.
    - done.
    - rewrite S2, T1. destruct (exists_path current d1) eqn:E; [by apply H1|]. symmetry. apply below_nil. congruence.
    - rewrite S3 by (done || by apply apart_sym). by apply H1.
    - intros p ??. rewrite S3 by done. auto. }
  destruct (rename (previous_moved io) previous current d2) as [d3|] eqn:E3.
  - apply rename_some in E3 as (_ & _ & ->). split_and!; [done| |done|done|].
    + intros _. rewrite !below_remove_other by done. rewrite below_moved_target by done. by rewrite below_moved_source by (by apply apart_sym).
    + intros p ???. rewrite below_remove_other by done. rewrite below_moved_other by done. auto.
  - assert (previous_moved io = false) as Hm.
    { unfold rename in E3. destruct (previous_moved io); [|done]. rewrite (proj2 (below_nil _ _) C2) in E3.
      destruct (exists_path previous d2) eqn:E; [done|]. apply below_nil in E. congruence. }
    split_and!; [done|done| |congruence|].
    + intros _. unfold rename. destruct (current_restored io); cbn [andb]; [|by split; [|right]].
      rewrite (proj2 (below_nil _ _) C2), andb_true_r. destruct (exists_path temporary d2) eqn:E; cbn [default from_option id].
      * rewrite below_moved_other by (done || by apply apart_sym). rewrite below_moved_target by done. split; [done|left; congruence].
      * apply below_nil in E. split; [done|left; congruence].
    + intros p ???. unfold rename. destruct (current_restored io && _ && _); cbn [default from_option id]; [rewrite below_moved_other by done|]; auto.
Qed.

Section RollingBack.
Context {J : JsonLib} {O : JsonFileOps} (host : Z) (here : string) (order : list Path -> list Path).
Abbreviation PM := (PluginManager (J := J)).

Lemma installed_over io source (s s1 : PM) d d1 id : plugins_ok s ->
  elsewhere (resolved (root_ s)) (resolved source) -> InstallPlugin host here order io source (s, d) = Ok (Ok id, (s1, d1)) ->
  let root := resolved (root_ s) in
  plugins_ok s1 /\ root_ s1 = root_ s /\ plain_name (bytes_of id) /\
  (exists_path (target_of root (bytes_of id)) d = true -> below (rollback_of root (bytes_of id)) d1 = below (target_of root (bytes_of id)) d) /\
  forall p, apart p (target_of root (bytes_of id)) -> apart p (rollback_of root (bytes_of id)) -> apart p (staging_of root (bytes_of id)) -> below p d1 = below p d.
Proof.
  intros Hok Helse Hi root. revert Hi. unfold InstallPlugin. destruct (is_directory (resolved source) d); cbn [negb]; [|done].
  set (checked := LoadManifest here (disk_files d) _ host). destruct (r_ok checked) eqn:Eok; cbn [negb]; [|done].
  pose proof (accepted_id host here _ _ Eok) as Hid. fold checked in Hid.
  destruct (bool_decide (root_ s = [])); [done|]. destruct (bool_decide (resolved source = _)); [done|].
  destruct (Unload_runs (m_id (r_manifest checked)) s Hok) as (r1 & s' & E1 & Hok' & Hr'). rewrite E1. cbn [mbind res_bind].
  destruct (Helse _ Hid) as (A1 & A2 & A3). destruct (places_apart root _ Hid) as (A4 & A5 & A6 & _).
  pose proof (replace_package_spec io _ _ _ _ A1 A2 A3 A4 A5 A6 d) as Hs. fold root in Hs |- *.
  destruct (replace_package _ _ _ _ _ d) as [r d']. destruct Hs as (S1 & S2 & S3 & S4). destruct r as [[]|error|]; [|done..].
  destruct (DiscoverOn_runs host here order s' d' Hok') as (n & s2 & E2 & Hok2 & Hr2). rewrite E2. cbn. intros [= <- <- <-].
  destruct (S2 eq_refl) as [_ S6]. split_and!; [done|congruence|done|done|done].
Qed.

(** A rollback undoes an update.  When an installation has replaced a
    plugin, a rollback whose renames succeed answers success, and the plugin's
    directory holds again exactly what it held before; no other plugin is
    touched by the two. *)
Theorem rollback_undoes_update io rio source (s s1 : PM) d d1 id : plugins_ok s ->
  elsewhere (resolved (root_ s)) (resolved source) ->
  let root := resolved (root_ s) in
  InstallPlugin host here order io source (s, d) = Ok (Ok id, (s1, d1)) ->
  is_directory (target_of root (bytes_of id)) d = true ->
  current_moved rio = true -> previous_moved rio = true ->
  exists s2 d2, RollbackPlugin host here order rio id (s1, d1) = Ok (Ok tt, (s2, d2)) /\ plugins_ok s2 /\
    below (target_of root (bytes_of id)) d2 = below (target_of root (bytes_of id)) d /\
    (forall p, apart p (target_of root (bytes_of id)) -> apart p (rollback_of root (bytes_of id)) -> apart p (temporary_of root (bytes_of id)) ->
       apart p (staging_of root (bytes_of id)) -> below p d2 = below p d).
Proof.
  intros Hok Helse root Hi Hdir Hm1 Hm2.
  destruct (installed_over io source s s1 d d1 id Hok Helse Hi) as (Hok1 & Hroot & Hid & Hback & Hothers). fold root in Hback, Hothers.
  destruct (places_apart root _ Hid) as (A4 & A5 & A6 & A7 & A8).
  assert (below (rollback_of root (bytes_of id)) d1 = below (target_of root (bytes_of id)) d) as Hb.
  { apply Hback. unfold exists_path. apply negb_true_iff, bool_decide_eq_false. intros E. unfold is_directory in Hdir. by rewrite E in Hdir. }
  assert (is_directory (rollback_of root (bytes_of id)) d1 = true) as Hr by (unfold is_directory in *; by rewrite Hb).
  unfold RollbackPlugin. rewrite Hroot. fold root. cbn zeta. rewrite Hr. cbn [negb].
  destruct (Unload_runs id s1 Hok1) as (r1 & s' & E1 & Hok' & _). rewrite E1. cbn [mbind res_bind].
  pose proof (swap_spec rio _ _ _ d1 A4 A7 A8 Hr) as Hs. destruct (swap_packages _ _ _ _ d1) as [r d2].
  destruct Hs as (S1 & S2 & _ & S4 & S5). rewrite (S4 Hm1 Hm2) in *. destruct (S2 eq_refl) as [S6 _].
  destruct (DiscoverOn_runs host here order s' d2 Hok') as (n & s2 & E2 & Hok2 & _). rewrite E2. exists s2, d2. split_and!; [done|done|congruence|].
  intros p ????. rewrite S5 by done. by apply Hothers.
Qed.
End RollingBack.

(** ** The theorems at work *)

(** A source that does not overlap the plugin root is elsewhere. *)
Lemma apart_elsewhere root src : apart src root -> elsewhere root src.
Proof.
  intros [H1 H2] id Hid. rewrite target_place, rollback_place, staging_place by done.
  assert (forall q, apart src (root ++ q)) as H; [|done]. intros q. split; intros H.
  - destruct (prefix_weak_total src root (root ++ q)) as [?|?]; [done|by exists q|done|done].
  - apply H2. by eapply prefix_app_l.
Qed.

Definition package (version : string) : list (Path * list Z) :=
  [([b! "manifest.json"], toy_text (TObject [("id", TString toy_id); ("name", TString "Modbus"); ("version", TString version);
      ("api_version", TString "1.0"); ("entry", TString "plugin.so"); ("permissions", TArray [TString "serial"])]%string));
   ([b! "plugin.so"], bytes_of version)].
Definition package_at (p : list Z) (version : string) : FileDisk := map (fun f => (resolved p ++ f.1, f.2)) (package version).
Definition toy_disk : FileDisk := package_at (b! "/opt/plugins/hsf.driver.modbus") "1.0.0" ++ package_at (b! "/tmp/new") "2.0.0".
Definition toy_manager : PluginManager (J := jtree_json) := SetPluginRoot (b! "/opt/plugins") new_manager.
Definition all_well : install_io := mkInstallIo true true true true (fun _ => true) true true true.
Definition toy_install (io : install_io) (source : list Z) (st : PluginManager (J := jtree_json) * FileDisk) :=
  InstallPlugin toy_api "linux-x86_64" (fun l => l) io source st.

Lemma toy_manager_ok : plugins_ok toy_manager.
Proof. apply (owns_same _ new_manager); [done|done|done|done|apply new_manager_ok]. Qed.
Lemma toy_elsewhere : elsewhere (resolved (root_ toy_manager)) (resolved (b! "/tmp/new")).
Proof. apply apart_elsewhere. split; intros [x H]; vm_compute in H; congruence. Qed.

Definition toy_target : Path := target_of (resolved (b! "/opt/plugins")) (b! "hsf.driver.modbus").


Definition toy_updated : PluginManager (J := jtree_json) * FileDisk :=
  match toy_install all_well (b! "/tmp/new") (toy_manager, toy_disk) with Ok (_, st) => st | _ => (toy_manager, toy_disk) end.

Lemma rollback_undoes_update_witness : exists s2 d2,
  RollbackPlugin toy_api "linux-x86_64" (fun l => l) (mkRollbackIo true true true) toy_id toy_updated = Ok (Ok tt, (s2, d2)) /\ below toy_target d2 = package "1.0.0".
Proof.
  assert (toy_install all_well (b! "/tmp/new") (toy_manager, toy_disk) = Ok (Ok toy_id, (toy_updated.1, toy_updated.2))) as E by (vm_compute; reflexivity).
  destruct (rollback_undoes_update toy_api "linux-x86_64" (fun l => l) all_well (mkRollbackIo true true true) (b! "/tmp/new") toy_manager toy_updated.1
    toy_disk toy_updated.2 toy_id toy_manager_ok toy_elsewhere E) as (s2 & d2 & E2 & _ & H & _); [vm_compute; reflexivity|reflexivity|reflexivity|].
  exists s2, d2. split; [exact E2|]. etrans; [exact H|]. vm_compute. reflexivity.
Defined.

(** ** What modelling showed *)

(** Install rescans the root while the upload still lies in it: when the
    directory is listed so, the record points at the upload, which is deleted. *)
Definition upload (order : list Path -> list Path) :=
  ImportUploaded (O := coded_ops) toy_api "linux-x86_64" order all_well true
    (match dump_text (JsonFileOps := coded_ops) (toy_manifest "plugin.so") with Some bs => bs | None => [] end) (b! "ELF") (toy_manager, []).
Example uploaded_plugin_points_at_nothing :
  match upload (fun l => rev l), upload (fun l => l) with
  | Ok (Ok _, (s1, d1)), Ok (Ok _, (s2, d2)) =>
      (fun e => text_of (m_directory (e_manifest e))) <$> plugins_ s1 !! toy_id = Some "/opt/plugins/.hsf.driver.modbus.uploading"%string /\
      (fun e => text_of (m_directory (e_manifest e))) <$> plugins_ s2 !! toy_id = Some "/opt/plugins/hsf.driver.modbus"%string /\
      is_directory (resolved (b! "/opt/plugins/.hsf.driver.modbus.uploading")) d1 = false
  | _, _ => False
  end.
Proof. vm_compute. split_and?; reflexivity. Qed.

(** The entry and the identifier of an upload are used before they are checked:
    an absolute entry overwrites a file anywhere. *)
Example upload_writes_anywhere :
  match ImportUploaded (O := coded_ops) toy_api "linux-x86_64" (fun l => l) all_well true
    (match dump_text (JsonFileOps := coded_ops) (toy_manifest "/etc/passwd") with Some bs => bs | None => [] end) (b! "root::0:0")
    (toy_manager, [(resolved (b! "/etc/passwd"), b! "root:x:0:0")]) with
  | Ok (Err _, (_, d)) => below (resolved (b! "/etc/passwd")) d = [([], b! "root::0:0")]
  | _ => False
  end.
Proof. vm_compute. split_and?; reflexivity. Qed.

(** Remove takes the identifier as it comes from the address: two dots delete
    the directory around the plugins. *)
Example remove_takes_any_name :
  match RemovePlugin (O := coded_ops) toy_api "linux-x86_64" (fun l => l) true ".." (toy_manager, toy_disk ++ [(resolved (b! "/opt/hsf/gateway"), [])]) with
  | Ok (Ok _, (_, d)) => below (resolved (b! "/opt")) d = []
  | _ => False
  end.
Proof. vm_compute. split_and?; reflexivity. Qed.

(** A plugin that was deleted stays in the list, as validated. *)
Example removed_plugin_is_listed :
  match RemovePlugin (O := coded_ops) toy_api "linux-x86_64" (fun l => l) true toy_id toy_updated with
  | Ok (Ok _, (s, d)) => is_directory toy_target d = false /\ e_state <$> plugins_ s !! toy_id = Some kValidated
  | _ => False
  end.
Proof. vm_compute. split_and?; reflexivity. Qed.
