(* ===== verification/PasswordHash.v ===== *)
(** * Password hashing and random tokens (src/security/PasswordHash.cpp)

    Argon2id and the random generator are libsodium's, which is not part of
    the repository: [Sodium] is what the gateway uses of it.  What is random is
    an argument, so every theorem holds for any outcome. *)

From S2P Require Import Prelude Words Text Sha256.

Class Sodium := {
  sodium_ok : bool;                              (** [sodium_init() >= 0] *)
  pw_verify : list Z -> list Z -> bool;          (** [crypto_pwhash_str_verify(...) == 0] *)
  pw_needs_rehash : list Z -> Z                  (** [crypto_pwhash_str_needs_rehash] *)
}.

Section PasswordHash.
Context {L : Sodium}.

(** [crypto_pwhash_STRBYTES] *)
Definition kStrBytes : nat := 128.

(** [encoded] is what [crypto_pwhash_str] wrote, [None] when it ran out of memory. *)
Definition Hash (encoded : option (list Z)) : list Z :=
  if negb sodium_ok then [] else match encoded with Some e => (until 0 e).1 | None => [] end.

Definition Verify (storedHash password : list Z) : bool :=
  if negb sodium_ok then false
  else if (length storedHash =? 0)%nat || (kStrBytes <=? length storedHash)%nat then false
  else pw_verify storedHash password.

Definition NeedsRehash (storedHash : list Z) : bool :=
  if negb sodium_ok then false
  else if (length storedHash =? 0)%nat || (kStrBytes <=? length storedHash)%nat then false
  else pw_needs_rehash storedHash =? 1.

(** [buffer] is what [randombytes_buf] filled in. *)
Definition RandomHex (buffer : list Z) : list Z :=
  if negb sodium_ok || (length buffer =? 0)%nat then []
  else concat (map hex_byte buffer).

Definition kAlphabet : list Z :=
  Eval compute in bytes_of "23456789ABCDEFGHJKLMNPQRSTUVWXYZabcdefghijkmnopqrstuvwxyz".

(** [draws] are the results of [randombytes_uniform(57)]. *)
Definition RandomToken (draws : list nat) : list Z :=
  if negb sodium_ok || (length draws =? 0)%nat then [] else map (at_ kAlphabet) draws.

Definition ConstantTimeEquals (a b : list Z) : bool :=
  if negb (length a =? length b)%nat then false
  else if (length a =? 0)%nat then true
  else bool_decide (a = b).

Lemma ConstantTimeEquals_iff a b : ConstantTimeEquals a b = true <-> a = b.
Proof.
  unfold ConstantTimeEquals. destruct (length a =? length b)%nat eqn:E; simpl.
  - apply Nat.eqb_eq in E. destruct (length a =? 0)%nat eqn:Z0; [|apply bool_decide_eq_true].
    apply Nat.eqb_eq in Z0. destruct a; [|done]. destruct b; [done|]. done.
  - split; [done|]. intros ->. by rewrite Nat.eqb_refl in E.
Qed.

(** An empty hash, which is what a failed [Hash] stores, matches no password. *)
Lemma Verify_empty password : Verify [] password = false.
Proof. unfold Verify. by destruct sodium_ok. Qed.

End PasswordHash.

(** The two hexadecimal digits of a byte determine it, so a token of [n] random
    bytes keeps all of their entropy. *)
Lemma hex_byte_inj a b : byte_ok a -> byte_ok b -> hex_byte a = hex_byte b -> a = b.
Proof.
  intros Ha Hb H. pose proof (nibble_hex a Ha) as H1. pose proof (nibble_hex b Hb) as H2.
  rewrite H in H1. unfold hex_byte in *. congruence.
Qed.

Lemma RandomHex_inj {L : Sodium} a b : bytes_ok a -> bytes_ok b -> length a = length b ->
  sodium_ok = true -> RandomHex a = RandomHex b -> a = b.
Proof.
  intros Ha Hb Hl Hok. unfold RandomHex. rewrite Hok, Hl. simpl.
  destruct (length b =? 0)%nat eqn:E.
  { intros _. apply Nat.eqb_eq in E. destruct a, b; done. }
  clear E. revert b Hb Hl. induction Ha as [|x a Hx Ha IH]; intros [|y b] Hb Hl; try done.
  inversion Hb; subst. simpl. intros H. injection H as E1 E2 E3.
  f_equal; [apply hex_byte_inj; [done..|]; unfold hex_byte; congruence|]. apply IH; auto.
Qed.
