(* ===== verification/LuaBundle.v ===== *)
(** * Lua bundles (src/lua_package/LuaBundle.cpp)

    The plaintext of a Lua package: compiled modules under the names
    [require] uses, and the name of the entry.  The first part is the
    little-endian reading and writing that src/lua_package/LuaPackage.cpp
    repeats. *)

From S2P Require Import Prelude Words Text.

(** ** Little-endian numbers *)

(** [out.push_back((value >> (i * 8)) & 0xFF)] for [i < n]. *)
Fixpoint AppendLE (n : nat) (value : Z) : list Z :=
  match n with
  | O => []
  | S n' => Z.land value 255 :: AppendLE n' (Z.shiftr value 8)
  end.

(** [out |= in[offset + i] << (i * 8)] for [i < n]. *)
Fixpoint read_le (data : list Z) (offset n : nat) (shift acc : Z) : res Z :=
  match n with
  | O => Ok acc
  | S n' =>
      b ← read_at data offset;
      read_le data (S offset) n' (shift + 8) (Z.lor acc (Z.shiftl b shift))
  end.

(** The value and the new offset, or [false]. *)
Definition ReadLE (n : nat) (data : list Z) (offset : nat) : res (Z * nat) :=
  if (length data <? offset + n)%nat then Err ""
  else v ← read_le data offset n 0 0; Ok (v, (offset + n)%nat).

Definition ReadBytes (data : list Z) (offset count : nat) : res (list Z * nat) :=
  if (length data <? count)%nat || (length data <? offset + count)%nat then Err ""
  else bytes ← slice data offset count; Ok (bytes, (offset + count)%nat).

(** A failed read becomes the caller's message. *)
Definition or_error {A} (message : string) (r : res A) : res A :=
  match r with Err _ => Err message | r => r end.

(** ** The bundle *)

Record LuaModule := mkModule { m_name : list Z; m_source : list Z; m_code : list Z }.
Record LuaBundle := mkBundle { modules : list LuaModule; entry_ : list Z }.
Definition empty_bundle : LuaBundle := mkBundle [] [].

Definition kMaxModules : Z := 4096.
Definition kMaxModuleBytes : Z := 16 * 1024 * 1024.

(** The first module of that name is replaced. *)
Fixpoint replace_module (name sourcePath code : list Z) (ms : list LuaModule) : option (list LuaModule) :=
  match ms with
  | [] => None
  | m :: ms' =>
      if bool_decide (m_name m = name) then Some (mkModule (m_name m) sourcePath code :: ms')
      else option_map (cons m) (replace_module name sourcePath code ms')
  end.

Definition AddModule (name sourcePath code : list Z) (b : LuaBundle) : LuaBundle :=
  match replace_module name sourcePath code (modules b) with
  | Some ms => mkBundle ms (entry_ b)
  | None => mkBundle (modules b ++ [mkModule name sourcePath code]) (entry_ b)
  end.

Definition SetEntry (name : list Z) (b : LuaBundle) : LuaBundle := mkBundle (modules b) name.

Definition EntryBytecode (b : LuaBundle) : option (list Z) :=
  option_map m_code (List.find (fun m => bool_decide (m_name m = entry_ b)) (modules b)).

Definition module_bytes (m : LuaModule) : list Z :=
  AppendLE 2 (to_u16 (Z.of_nat (length (m_name m)))) ++ m_name m ++
  AppendLE 4 (to_u32 (Z.of_nat (length (m_code m)))) ++ m_code m.

Definition Serialise (b : LuaBundle) : list Z :=
  AppendLE 4 (to_u32 (Z.of_nat (length (modules b)))) ++ concat (map module_bytes (modules b)) ++
  AppendLE 2 (to_u16 (Z.of_nat (length (entry_ b)))) ++ entry_ b.

(** The four bytes a compiled chunk begins with. *)
Definition lua_signature : list Z := [27; 76; 117; 97].

Definition parse_module (data : list Z) (offset : nat) : res (LuaModule * nat) :=
  '(nameLength, offset) ← or_error "bundle is truncated (module name length)" (ReadLE 2 data offset);
  if nameLength =? 0 then Err "bundle is truncated (module name length)"
  else
    '(name, offset) ← or_error "bundle is truncated (module name)" (ReadBytes data offset (Z.to_nat nameLength));
    '(codeLength, offset) ← or_error "bundle is truncated (module length)" (ReadLE 4 data offset);
    if (codeLength =? 0) || (kMaxModuleBytes <? codeLength) then Err "bundle module has an implausible length"
    else
      '(code, offset) ← or_error "bundle is truncated (module body)" (ReadBytes data offset (Z.to_nat codeLength));
      if (length code <? 4)%nat || negb (bool_decide (take 4 code = lua_signature))
      then Err ("bundle module " ++ text_of name ++ " is not compiled Lua bytecode")%string
      else Ok (mkModule name [] code, offset).

Fixpoint parse_modules (count : nat) (data : list Z) (offset : nat) : res (list LuaModule * nat) :=
  match count with
  | O => Ok ([], offset)
  | S count' =>
      '(m, offset) ← parse_module data offset;
      '(ms, offset) ← parse_modules count' data offset;
      Ok (m :: ms, offset)
  end.

Definition Parse (data : list Z) : res LuaBundle :=
  '(count, offset) ← or_error "bundle is truncated (no module count)" (ReadLE 4 data 0);
  if (count =? 0) || (kMaxModules <? count) then Err "bundle declares an implausible module count"
  else
    '(ms, offset) ← parse_modules (Z.to_nat count) data offset;
    '(entryLength, offset) ← or_error "bundle is truncated (entry name)" (ReadLE 2 data offset);
    if entryLength =? 0 then Err "bundle is truncated (entry name)"
    else
      '(entry, offset) ← or_error "bundle is truncated (entry name)" (ReadBytes data offset (Z.to_nat entryLength));
      let out := mkBundle ms entry in
      if negb (offset =? length data)%nat
      then Err ("bundle has " ++ to_string (Z.of_nat (length data - offset)) ++ " unexpected trailing bytes")%string
      else match EntryBytecode out with
      | None => Err ("bundle entry " ++ text_of entry ++ " is not one of its modules")%string
      | Some _ => Ok out
      end.

(** ** Module names *)

Definition replace_byte (a b : Z) (text : list Z) : list Z := map (fun c => if c =? a then b else c) text.

(** 47 is the slash, 92 the backslash, 46 the dot. *)
Definition ModuleNameForPath (relativePath : list Z) : list Z :=
  let name := replace_byte 92 47 relativePath in
  let name := if ends_with (b! ".lua") name then take (length name - 4) name else name in
  if (5 <? length name)%nat && ends_with (b! "/init") name then replace_byte 47 46 (take (length name - 5) name)
  else if bool_decide (name = b! "init") then b! "init"
  else replace_byte 47 46 name.

(** ** Little-endian lemmas *)

Lemma to_u32_id v : 0 <= v < 4294967296 -> to_u32 v = v.
Proof. apply Z.mod_small. Qed.

Lemma length_AppendLE n : forall v, length (AppendLE n v) = n.
Proof. induction n; intros v; cbn; [done|]. by rewrite IHn. Qed.

Lemma AppendLE_ok n : forall v, bytes_ok (AppendLE n v).
Proof.
  induction n as [|n IH]; intros v; cbn [AppendLE]; constructor; [|apply IH].
  change 255 with (Z.ones 8). rewrite Z.land_ones by lia. unfold byte_ok. apply Z.mod_pos_bound. lia.
Qed.

Lemma AppendLE_step n v : 0 <= v -> v = to_u8 v + Z.shiftr v 8 * 256 /\ AppendLE (S n) v = to_u8 v :: AppendLE n (Z.shiftr v 8).
Proof.
  intros Hv. cbn [AppendLE]. rewrite land_255. split; [|done]. rewrite Z.shiftr_div_pow2 by lia. unfold to_u8.
  change (2 ^ 8) with 256. pose proof (Z.div_mod v 256). lia.
Qed.

(** Reading what was written, after [acc]. *)
Lemma read_le_spec n : forall pre v post shift acc, 0 <= shift -> 0 <= v < 2 ^ (8 * Z.of_nat n) -> 0 <= acc < 2 ^ shift ->
  read_le (pre ++ AppendLE n v ++ post) (length pre) n shift acc = Ok (acc + v * 2 ^ shift).
Proof.
  induction n as [|n IH]; intros pre v post shift acc Hs Hv Ha.
  - cbn. f_equal. rewrite Nat2Z.inj_0, Z.mul_0_r in Hv. change (2 ^ 0) with 1 in Hv. lia.
  - destruct (AppendLE_step n v) as [Ev El]; [lia|]. rewrite El. cbn [read_le app].
    rewrite (read_at_lookup _ _ (to_u8 v)) by (rewrite lookup_app_r, Nat.sub_diag by lia; done). cbn [mbind res_bind].
    assert (0 <= to_u8 v < 256) as Hb by (unfold to_u8; apply Z.mod_pos_bound; lia).
    rewrite lor_add_shifted by done.
    change (pre ++ to_u8 v :: AppendLE n (Z.shiftr v 8) ++ post) with (pre ++ [to_u8 v] ++ (AppendLE n (Z.shiftr v 8) ++ post)).
    rewrite app_assoc. replace (S (length pre)) with (length (pre ++ [to_u8 v])) by (rewrite length_app; cbn; lia).
    assert (2 ^ (shift + 8) = 2 ^ shift * 256) as E2 by (rewrite Z.pow_add_r by lia; done).
    rewrite IH; [| lia | | rewrite E2; nia ].
    + f_equal. rewrite E2. transitivity (acc + (to_u8 v + Z.shiftr v 8 * 256) * 2 ^ shift); [ring|by rewrite <- Ev].
    + rewrite Z.shiftr_div_pow2 by lia. split; [apply Z.div_pos; lia|]. apply Z.div_lt_upper_bound; [lia|].
      rewrite <- Z.pow_add_r by lia. replace (8 + 8 * Z.of_nat n) with (8 * Z.of_nat (S n)) by lia. lia.
Qed.

(** Any run of bytes is the writing of a number. *)
Lemma AppendLE_surj bs : bytes_ok bs -> exists v, 0 <= v < 2 ^ (8 * Z.of_nat (length bs)) /\ bs = AppendLE (length bs) v.
Proof.
  induction 1 as [|b bs Hb Hbs (v & Hv & IH)]; [by exists 0|]. exists (b + v * 256).
  replace (8 * Z.of_nat (length (b :: bs))) with (8 * Z.of_nat (length bs) + 8) by (cbn [length]; lia).
  rewrite Z.pow_add_r by lia. unfold byte_ok in Hb. change (2 ^ 8) with 256. split; [nia|]. cbn [length AppendLE].
  rewrite land_255. unfold to_u8. rewrite Z.mod_add, Z.mod_small by lia.
  rewrite Z.shiftr_div_pow2 by lia. change (2 ^ 8) with 256. rewrite Z.div_add, Z.div_small by lia. rewrite Z.add_0_l. by rewrite <- IH.
Qed.

Lemma ReadLE_write n data offset v rest : drop offset data = AppendLE n v ++ rest -> (offset <= length data)%nat ->
  0 <= v < 2 ^ (8 * Z.of_nat n) ->
  ReadLE n data offset = Ok (v, (offset + n)%nat) /\ drop (offset + n) data = rest /\ (offset + n <= length data)%nat.
Proof.
  intros Hd Ho Hv. assert (data = take offset data ++ AppendLE n v ++ rest) as E by (by rewrite <- Hd, take_drop).
  assert (length (take offset data) = offset) as Hl by (rewrite length_take; lia).
  assert (length data = offset + n + length rest)%nat as Hlen by (rewrite E, !length_app, length_AppendLE, Hl; lia).
  unfold ReadLE. rewrite (proj2 (Nat.ltb_ge _ _)) by lia. split_and!; [|rewrite <- drop_drop, Hd; by rewrite drop_app_length'; rewrite ?length_AppendLE|lia].
  rewrite E at 1. rewrite <- Hl at 2. rewrite read_le_spec by (done || lia). cbn. do 2 f_equal. lia.
Qed.

Lemma ReadLE_inv n data offset v offset' : bytes_ok data -> ReadLE n data offset = Ok (v, offset') ->
  drop offset data = AppendLE n v ++ drop offset' data /\ offset' = (offset + n)%nat /\ (offset' <= length data)%nat /\
  0 <= v < 2 ^ (8 * Z.of_nat n).
Proof.
  intros Hb H. unfold ReadLE in H. destruct (Nat.ltb_spec (length data) (offset + n)) as [|Hl]; [done|].
  assert (offset' = offset + n)%nat as -> by (destruct (read_le data offset n 0 0); cbn in H; by simplify_eq).
  destruct (AppendLE_surj (take n (drop offset data))) as (v' & Hv' & E); [by apply Forall_take, Forall_drop|].
  rewrite length_take, length_drop, Nat.min_l in Hv', E by lia.
  assert (drop offset data = AppendLE n v' ++ drop (offset + n) data) as Hd.
  { rewrite <- E, <- drop_drop. symmetry. apply take_drop. }
  destruct (ReadLE_write n data offset v' _ Hd ltac:(lia) Hv') as (HR & _). unfold ReadLE in HR.
  rewrite (proj2 (Nat.ltb_ge _ _)) in HR by lia. rewrite HR in H. injection H as <-. split_and!; [done|done|lia|lia|lia].
Qed.

Lemma ReadBytes_write data offset bytes rest : drop offset data = bytes ++ rest -> (offset <= length data)%nat ->
  ReadBytes data offset (length bytes) = Ok (bytes, (offset + length bytes)%nat) /\
  drop (offset + length bytes) data = rest /\ (offset + length bytes <= length data)%nat.
Proof.
  intros Hd Ho. pose proof (f_equal length Hd) as Hlen. rewrite length_drop, length_app in Hlen.
  unfold ReadBytes. rewrite !(proj2 (Nat.ltb_ge _ _)) by lia. cbn [orb]. rewrite slice_ok by lia. cbn [mbind res_bind].
  rewrite Hd, take_app_length. split_and!; [done|rewrite <- drop_drop, Hd; by rewrite drop_app_length|lia].
Qed.

Lemma ReadBytes_inv data offset count bytes offset' : ReadBytes data offset count = Ok (bytes, offset') ->
  drop offset data = bytes ++ drop offset' data /\ length bytes = count /\ offset' = (offset + count)%nat /\ (offset' <= length data)%nat.
Proof.
  unfold ReadBytes. destruct (_ || _) eqn:E; [done|]. apply orb_false_iff in E as [_ E]. apply Nat.ltb_ge in E.
  rewrite slice_ok by lia. cbn. intros [= <- <-]. split_and!; [|rewrite length_take, length_drop; lia|done|lia].
  rewrite <- drop_drop. symmetry. apply take_drop.
Qed.

(** ** The format *)

(** What [Parse] accepts as a module: its path is not in the bundle. *)
Definition module_ok (m : LuaModule) : Prop :=
  m_source m = [] /\ 0 < Z.of_nat (length (m_name m)) < 2 ^ 16 /\ 0 < Z.of_nat (length (m_code m)) <= kMaxModuleBytes /\
  exists body, m_code m = lua_signature ++ body.

Definition bundle_ok (b : LuaBundle) : Prop :=
  Forall module_ok (modules b) /\ 0 < Z.of_nat (length (modules b)) <= kMaxModules /\
  0 < Z.of_nat (length (entry_ b)) < 2 ^ 16 /\ entry_ b ∈ map m_name (modules b).

Lemma take4_iff (code : list Z) : (length code <? 4)%nat || negb (bool_decide (take 4 code = lua_signature)) = false <->
  exists body, code = lua_signature ++ body.
Proof.
  rewrite orb_false_iff, Nat.ltb_ge, negb_false_iff, bool_decide_eq_true. split.
  - intros [_ H]. exists (drop 4 code). by rewrite <- H, take_drop.
  - intros [body ->]. split; [cbn; lia|done].
Qed.

Lemma parse_module_write data offset m rest : drop offset data = module_bytes m ++ rest -> (offset <= length data)%nat ->
  module_ok m -> exists offset', parse_module data offset = Ok (m, offset') /\ drop offset' data = rest /\ (offset' <= length data)%nat.
Proof.
  intros Hd Ho (Hs & Hn & Hc & Hsig). destruct m as [name source code]. cbn [m_name m_source m_code] in *. subst source.
  unfold module_bytes in Hd. cbn [m_name m_code] in Hd. rewrite <- !app_assoc in Hd. unfold kMaxModuleBytes in Hc.
  rewrite to_u16_id, to_u32_id in Hd by lia.
  destruct (ReadLE_write 2 _ _ _ _ Hd Ho ltac:(cbn; lia)) as (R1 & D1 & O1).
  destruct (ReadBytes_write _ _ _ _ D1 O1) as (R2 & D2 & O2).
  destruct (ReadLE_write 4 _ _ _ _ D2 O2 ltac:(cbn; lia)) as (R3 & D3 & O3).
  destruct (ReadBytes_write _ _ _ _ D3 O3) as (R4 & D4 & O4).
  eexists. split; [|split; [exact D4|exact O4]]. unfold parse_module. rewrite R1. cbn [or_error mbind res_bind].
  rewrite (proj2 (Z.eqb_neq _ _)), Nat2Z.id, R2 by lia. cbn [or_error mbind res_bind]. rewrite R3. cbn [or_error mbind res_bind].
  rewrite (proj2 (Z.eqb_neq _ _)), (proj2 (Z.ltb_ge _ _)), Nat2Z.id, R4 by (unfold kMaxModuleBytes; lia). cbn [orb or_error mbind res_bind].
  by rewrite (proj2 (take4_iff code) Hsig).
Qed.

Lemma or_error_ok {A} message (r : res A) a : or_error message r = Ok a -> r = Ok a.
Proof. by destruct r. Qed.

(** Step through a successful sequence of reads. *)
Ltac take_read H x o E :=
  match type of H with (mbind _ ?r) = Ok _ => destruct r as [[x o]| |] eqn:E; cbn [mbind res_bind] in H; try discriminate H; apply or_error_ok in E end.

Lemma parse_module_inv data offset m offset' : bytes_ok data -> parse_module data offset = Ok (m, offset') ->
  drop offset data = module_bytes m ++ drop offset' data /\ module_ok m /\ (offset' <= length data)%nat.
Proof.
  intros Hb H. unfold parse_module in H. take_read H nl o1 E1. destruct (Z.eqb_spec nl 0); [done|]. take_read H name o2 E2.
  take_read H cl o3 E3. destruct (_ || _) eqn:Ec; [done|]. take_read H code o4 E4. destruct (_ || _) eqn:Esig in H; [done|].
  injection H as <- <-. apply orb_false_iff in Ec as [Ec1 Ec2]. apply Z.eqb_neq in Ec1. apply Z.ltb_ge in Ec2.
  apply take4_iff in Esig.
  destruct (ReadLE_inv _ _ _ _ _ Hb E1) as (D1 & -> & O1 & V1). destruct (ReadBytes_inv _ _ _ _ _ E2) as (D2 & L2 & -> & O2).
  destruct (ReadLE_inv _ _ _ _ _ Hb E3) as (D3 & -> & O3 & V3). destruct (ReadBytes_inv _ _ _ _ _ E4) as (D4 & L4 & -> & O4).
  cbn in V1, V3. split; [|split; [|done]].
  - unfold module_bytes. cbn [m_name m_code]. rewrite L2, L4, !Z2Nat.id, to_u16_id, to_u32_id by lia.
    by rewrite D1, D2, D3, D4, <- !app_assoc.
  - unfold module_ok. cbn [m_name m_code m_source]. rewrite L2, L4, !Z2Nat.id by lia. split_and!; [done|lia|lia|lia|lia|done].
Qed.

Lemma parse_modules_write ms : Forall module_ok ms -> forall data offset rest,
  drop offset data = concat (map module_bytes ms) ++ rest -> (offset <= length data)%nat ->
  exists offset', parse_modules (length ms) data offset = Ok (ms, offset') /\ drop offset' data = rest /\ (offset' <= length data)%nat.
Proof.
  induction 1 as [|m ms Hm _ IH]; intros data offset rest Hd Ho; [by exists offset|]. cbn [map concat] in Hd. rewrite <- app_assoc in Hd.
  destruct (parse_module_write _ _ _ _ Hd Ho Hm) as (o1 & R1 & D1 & O1). destruct (IH _ _ _ D1 O1) as (o2 & R2 & D2 & O2).
  exists o2. split; [|done]. cbn [length parse_modules]. rewrite R1. cbn [mbind res_bind]. by rewrite R2.
Qed.

Lemma parse_modules_inv count : forall data offset ms offset', bytes_ok data -> (offset <= length data)%nat ->
  parse_modules count data offset = Ok (ms, offset') ->
  drop offset data = concat (map module_bytes ms) ++ drop offset' data /\ Forall module_ok ms /\ length ms = count /\ (offset' <= length data)%nat.
Proof.
  induction count as [|count IH]; intros data offset ms offset' Hb Ho H; cbn [parse_modules] in H; [by injection H as <- <-|].
  destruct (parse_module data offset) as [[m o1]| |] eqn:E1; cbn [mbind res_bind] in H; try done.
  destruct (parse_modules count data o1) as [[ms' o2]| |] eqn:E2; cbn [mbind res_bind] in H; try done. injection H as <- <-.
  destruct (parse_module_inv _ _ _ _ Hb E1) as (D1 & M1 & O1). destruct (IH _ _ _ _ Hb O1 E2) as (D2 & M2 & L2 & O2).
  cbn [map concat length]. split_and!; [by rewrite D1, D2, app_assoc|by constructor|by rewrite L2|done].
Qed.

Lemma entry_found b : (exists code, EntryBytecode b = Some code) <-> entry_ b ∈ map m_name (modules b).
Proof.
  unfold EntryBytecode. destruct (List.find _ (modules b)) as [m|] eqn:E; cbn.
  - apply find_some in E as [Hin E]. apply bool_decide_eq_true in E. split; [intros _|by eexists].
    rewrite <- E. apply list_elem_of_fmap. exists m. split; [done|]. by apply list_elem_of_In.
  - split; [by intros []|]. intros Hin. apply list_elem_of_fmap in Hin as (m & Em & Hin).
    apply list_elem_of_In in Hin. pose proof (find_none _ _ E m Hin) as Hf. cbn in Hf. by rewrite bool_decide_true in Hf.
Qed.

Lemma Parse_inv data b : bytes_ok data -> Parse data = Ok b -> bundle_ok b /\ data = Serialise b.
Proof.
  intros Hb.
  unfold Parse. intros H. take_read H count o1 E1. destruct (_ || _) eqn:Ec; [done|].
  apply orb_false_iff in Ec as [Ec1 Ec2]. apply Z.eqb_neq in Ec1. apply Z.ltb_ge in Ec2.
  destruct (parse_modules _ data o1) as [[ms o2]| |] eqn:E2; cbn [mbind res_bind] in H; try done.
  take_read H el o3 E3. destruct (Z.eqb_spec el 0); [done|]. take_read H entry o4 E4.
  destruct (Nat.eqb_spec o4 (length data)); cbn [negb] in H; [|done].
  destruct (EntryBytecode (mkBundle ms entry)) eqn:Ee; [|done]. injection H as <-.
  destruct (ReadLE_inv _ _ _ _ _ Hb E1) as (D1 & -> & O1 & V1). destruct (parse_modules_inv _ _ _ _ _ Hb O1 E2) as (D2 & M2 & L2 & O2).
  destruct (ReadLE_inv _ _ _ _ _ Hb E3) as (D3 & -> & O3 & V3). destruct (ReadBytes_inv _ _ _ _ _ E4) as (D4 & L4 & -> & O4).
  cbn in V1, V3. unfold kMaxModules in Ec2. split.
  - unfold bundle_ok. cbn [modules entry_]. rewrite L2, L4, !Z2Nat.id by lia. unfold kMaxModules. split_and!; try done; try lia.
    apply (entry_found (mkBundle ms entry)). by eexists.
  - unfold Serialise. cbn [modules entry_]. rewrite L2, L4, !Z2Nat.id, to_u16_id, to_u32_id by lia.
    rewrite <- (drop_0 data), D1, D2, D3, D4. by rewrite e, drop_all, app_nil_r.
Qed.

Lemma Parse_Serialise b : bundle_ok b -> Parse (Serialise b) = Ok b.
Proof.
  intros (Hm & Hn & He & Hin). unfold kMaxModules in Hn. unfold Parse.
  set (data := Serialise b) in *. assert (drop 0 data = Serialise b) as D0 by apply drop_0. unfold Serialise in D0.
  rewrite to_u16_id, to_u32_id in D0 by lia.
  destruct (ReadLE_write 4 _ _ _ _ D0 ltac:(lia) ltac:(cbn; lia)) as (R1 & D1 & O1).
  destruct (parse_modules_write _ Hm _ _ _ D1 O1) as (o2 & R2 & D2 & O2).
  destruct (ReadLE_write 2 _ _ _ _ D2 O2 ltac:(cbn; lia)) as (R3 & D3 & O3).
  rewrite <- (app_nil_r (entry_ b)) in D3. destruct (ReadBytes_write _ _ _ _ D3 O3) as (R4 & D4 & O4).
  rewrite R1. cbn [or_error mbind res_bind]. rewrite (proj2 (Z.eqb_neq _ _)), (proj2 (Z.ltb_ge _ _)) by (unfold kMaxModules; lia).
  cbn [orb]. rewrite Nat2Z.id, R2. cbn [mbind res_bind]. rewrite R3. cbn [or_error mbind res_bind].
  rewrite (proj2 (Z.eqb_neq _ _)), Nat2Z.id, R4 by lia. cbn [or_error mbind res_bind].
  pose proof (f_equal length D4) as L4. rewrite length_drop in L4. cbn [length] in L4.
  rewrite (proj2 (Nat.eqb_eq _ _)) by lia. cbn [negb].
  apply entry_found in Hin as [code Hcode]. destruct b as [ms entry]. cbn [modules entry_] in *. by rewrite Hcode.
Qed.

(** A payload is accepted exactly when it is the serialisation of a bundle
    with a module or more and no more than 4096, each with a name and a
    compiled chunk of a plausible size, whose entry is one of them; and it is
    that bundle: nothing else is read out of it, nothing is left over, and no
    byte outside the payload is touched. *)
Theorem bundle_format_exact data b : bytes_ok data -> (Parse data = Ok b <-> bundle_ok b /\ data = Serialise b).
Proof.
  intros Hb. split; [by apply Parse_inv|]. intros [Hok ->]. by apply Parse_Serialise.
Qed.

(** Nothing is read outside the payload, whatever it is. *)
Lemma ReadLE_safe n data offset : ReadLE n data offset <> Fault.
Proof.
  unfold ReadLE. destruct (Nat.ltb_spec (length data) (offset + n)) as [|H]; [done|].
  assert (forall k off shift acc, (off + k <= length data)%nat -> exists v, read_le data off k shift acc = Ok v) as Hr.
  { induction k as [|k IH]; intros off shift acc Hk; [by eexists|]. cbn [read_le].
    destruct (read_at_in data off ltac:(lia)) as (x & -> & _). cbn [mbind res_bind]. apply IH. lia. }
  by destruct (Hr n offset 0 0 H) as [v ->].
Qed.

Lemma ReadBytes_safe data offset count : ReadBytes data offset count <> Fault.
Proof.
  unfold ReadBytes. destruct (_ || _) eqn:E; [done|]. apply orb_false_iff in E as [_ E]. apply Nat.ltb_ge in E.
  by rewrite slice_ok by lia.
Qed.

(** ** Examples *)

Definition demo_chunk (n : Z) : list Z := lua_signature ++ [n].
Definition demo_bundle : LuaBundle :=
  SetEntry (b! "app") (AddModule (b! "app") [] (demo_chunk 2) (AddModule (b! "lib") [] (demo_chunk 1) empty_bundle)).

(** Two files of one application can have one module name: the later one is
    kept, whichever that is. *)
Example module_names_collide :
  ModuleNameForPath (b! "app/locker.lua") = ModuleNameForPath (b! "app/locker/init.lua") /\
  ModuleNameForPath (b! "app/locker.lua") = ModuleNameForPath (b! "app.locker.lua").
Proof. vm_compute. done. Qed.

(** A payload may name one module twice. *)
Example duplicate_modules_accepted :
  is_ok (Parse (Serialise (mkBundle [mkModule (b! "app") [] (demo_chunk 1); mkModule (b! "app") [] (demo_chunk 2)] (b! "app")))) = true.
Proof. vm_compute. reflexivity. Qed.

Lemma bundle_format_exact_witness : bytes_ok (Serialise demo_bundle) /\ bundle_ok demo_bundle /\ Parse (Serialise demo_bundle) = Ok demo_bundle.
Proof.
  assert (bytes_ok (Serialise demo_bundle)) as Hb by (unfold byte_ok; apply (bool_decide_unpack _); vm_compute; exact I).
  split; [exact Hb|]. assert (bundle_ok demo_bundle) as Hok.
  { split_and!; [|by vm_compute|by vm_compute|by vm_compute|by vm_compute|by right; left].
    repeat (apply Forall_cons; split; [split_and!; [done|by vm_compute|by vm_compute|by vm_compute|by vm_compute|by eexists]|]).
    by apply Forall_nil. }
  split; [exact Hok|]. apply (bundle_format_exact (Serialise demo_bundle) demo_bundle Hb). split; [exact Hok|reflexivity].
Defined.
