(* ===== verification/LuaPackage.v ===== *)
(** * Lua packages (src/lua_package/LuaPackage.cpp)

    A compiled application as it leaves the build machine: a plaintext JSON
    header, the encrypted bundle, and a signature over both.  The two
    primitives of libsodium are the interface [PackageCrypto], the JSON
    library's text form is [JsonText]; the runtime tag of the Lua interpreter
    is an argument.  A C++ exception is [Err], a returned failure a result
    whose flag is down. *)

From S2P Require Import Prelude Words Text Float Json Sha256 PasswordHash C3Codec MqEnvelope LuaBundle.

(** ** The primitives *)

Definition kKeyBytes : nat := 32.
Definition kNonceBytes : nat := 24.
Definition kSignatureBytes : nat := 64.
Definition kPublicKeyBytes : nat := 32.
Definition kSecretKeyBytes : nat := 64.
Definition kAeadBytes : nat := 16.

Class PackageCrypto := {
  sign : list Z -> list Z -> option (list Z);                       (** secret key, message *)
  verify : list Z -> list Z -> list Z -> bool;                      (** public key, message, signature *)
  public_of : list Z -> list Z;
  encrypt : list Z -> list Z -> list Z -> list Z -> list Z;         (** key, nonce, additional data, plaintext *)
  decrypt : list Z -> list Z -> list Z -> list Z -> option (list Z);
  public_of_shape sk : length sk = kSecretKeyBytes -> bytes_ok sk -> length (public_of sk) = kPublicKeyBytes /\ bytes_ok (public_of sk);
  sign_verify sk m s : sign sk m = Some s -> verify (public_of sk) m s = true;
  sign_shape sk m s : sign sk m = Some s -> length s = kSignatureBytes /\ bytes_ok s;
  encrypt_decrypt k n ad p : bytes_ok p -> decrypt k n ad (encrypt k n ad p) = Some p;
  encrypt_shape k n ad p : length (encrypt k n ad p) = (length p + kAeadBytes)%nat /\ bytes_ok (encrypt k n ad p);
  decrypt_length k n ad c p : decrypt k n ad c = Some p -> length c = (length p + kAeadBytes)%nat
}.

(** ** Metadata *)

Record Metadata := mkMetadata {
  app_id : string; version : string; entry : string; runtime_tag : string; built_at : string; built_by : string;
  source_sha256 : string; bytecode_sha256 : string; bytecode_bytes : Z; algorithm : string; notes : string
}.
Definition no_metadata : Metadata := mkMetadata "" "" "" "" "" "" "" "" 0 "xchacha20poly1305-ietf" "".

Definition kMagic : list Z := Eval compute in bytes_of "HSFLUAP".
Definition kFormatVersion : Z := 1.
Definition kMagicBytes : nat := 8.
Definition kMaxHeaderBytes : Z := 64 * 1024.
Definition kMaxPayloadBytes : Z := 64 * 1024 * 1024.
Definition kAlgorithm : string := "xchacha20poly1305-ietf".

(** Pairs of hexadecimal digits. *)
Definition hex_nibble (c : Z) : option Z :=
  if (48 <=? c) && (c <=? 57) then Some (c - 48)
  else if (97 <=? c) && (c <=? 102) then Some (c - 97 + 10)
  else if (65 <=? c) && (c <=? 70) then Some (c - 65 + 10)
  else None.

Fixpoint hex_pairs (hex : list Z) : option (list Z) :=
  match hex with
  | [] => Some []
  | [_] => None
  | h :: l :: rest =>
      match hex_nibble h, hex_nibble l, hex_pairs rest with
      | Some high, Some low, Some out => Some (to_u8 (Z.lor (Z.shiftl high 4) low) :: out)
      | _, _, _ => None
      end
  end.

Section LuaPackage.
Context {J : JsonLib} {T : JsonText} {L : Sodium} {K : PackageCrypto}.
(** [LuaCompiler::RuntimeTag()]. *)
Variable RuntimeTag : string.

Definition meta_fields (m : Metadata) : list (string * json) :=
  let text := fun s => inject (JString s) in
  [("app_id"%string, text (app_id m)); ("version"%string, text (version m)); ("entry"%string, text (entry m));
   ("runtime_tag"%string, text (runtime_tag m)); ("built_at"%string, text (built_at m)); ("built_by"%string, text (built_by m));
   ("source_sha256"%string, text (source_sha256 m)); ("bytecode_sha256"%string, text (bytecode_sha256 m));
   ("bytecode_bytes"%string, inject (JInt (bytecode_bytes m))); ("algorithm"%string, text (algorithm m));
   ("notes"%string, text (notes m))].
Definition ToJson (m : Metadata) : json := inject (JObject (meta_fields m)).

(** ** Building *)

Record BuildResult := mkBuild { b_ok : bool; b_package : list Z; b_error : string }.
Definition build_failed (error : string) : res BuildResult := Ok (mkBuild false [] error).

Definition key_error (what : string) (n : nat) : string := "the " ++ what ++ " key must be " ++ to_string (Z.of_nat n) ++ " bytes".

(** The metadata as the header holds it. *)
Definition complete (metadata : Metadata) (bytecode : list Z) (hash : list Z) : Metadata :=
  mkMetadata (app_id metadata) (version metadata) (entry metadata)
    (match runtime_tag metadata with EmptyString => RuntimeTag | tag => tag end)
    (built_at metadata) (built_by metadata) (source_sha256 metadata) (text_of hash) (Z.of_nat (length bytecode))
    kAlgorithm (notes metadata).

Definition header_fields (m : Metadata) (nonce : list Z) : list (string * json) :=
  meta_fields m ++ [("format"%string, inject (JInt kFormatVersion));
                    ("nonce"%string, inject (JString (text_of (concat (map hex_byte nonce)))))].

Definition signed_part (header ciphertext : list Z) : list Z :=
  kMagic ++ [0] ++ AppendLE 2 kFormatVersion ++ AppendLE 4 (to_u32 (Z.of_nat (length header))) ++ header ++
  AppendLE 8 (Z.of_nat (length ciphertext)) ++ ciphertext.

(** [nonce]: what the random generator draws. *)
Definition Build (bytecode : list Z) (metadata : Metadata) (encryptionKey secretKey nonce : list Z) : res BuildResult :=
  if negb sodium_ok then build_failed "libsodium is not initialised"
  else match bytecode with
  | [] => build_failed "there is no bytecode to package"
  | _ =>
      if negb (length encryptionKey =? kKeyBytes)%nat then build_failed (key_error "encryption" kKeyBytes)
      else if negb (length secretKey =? kSecretKeyBytes)%nat then build_failed (key_error "signing" kSecretKeyBytes)
      else
        hash ← HexOf bytecode;
        let meta := complete metadata bytecode hash in
        match dump (inject (JObject (header_fields meta nonce))) with
        | None => Err "type_error"
        | Some headerText =>
            let header := bytes_of headerText in
            if kMaxHeaderBytes <? Z.of_nat (length header) then build_failed "package metadata is too large"
            else
              let out := signed_part header (encrypt encryptionKey nonce header bytecode) in
              match sign secretKey out with
              | None => build_failed "signing failed"
              | Some signature => Ok (mkBuild true (out ++ signature) "")
              end
        end
  end.

(** ** Opening *)

Record Envelope := mkEnvelope {
  e_headerText : list Z; e_payloadOffset : nat; e_payloadLength : nat; e_signedLength : nat; e_header : json
}.

Definition is_object (j : json) : bool := match view j with JObject _ => true | _ => false end.

Definition ParseEnvelope (package : list Z) : res Envelope :=
  let size := length package in
  if (size <? kMagicBytes + 2 + 4 + 8 + kSignatureBytes)%nat then Err "not a gateway Lua package (too short)"
  else
    magic ← slice package 0 7;
    nul ← read_at package 7;
    if negb (bool_decide (magic = kMagic)) || negb (nul =? 0) then Err "not a gateway Lua package (bad magic)"
    else
      '(format, offset) ← or_error "truncated package" (ReadLE 2 package kMagicBytes);
      if negb (format =? kFormatVersion)
      then Err ("package format version " ++ to_string format ++ " is not supported by this gateway")
      else
        '(headerLength, offset) ← or_error "truncated package" (ReadLE 4 package offset);
        if (headerLength =? 0) || (kMaxHeaderBytes <? headerLength) || (Z.of_nat size <? Z.of_nat offset + headerLength)
        then Err "package header length is implausible"
        else
          headerText ← slice package offset (Z.to_nat headerLength);
          '(payloadLength, offset) ← or_error "truncated package" (ReadLE 8 package (offset + Z.to_nat headerLength));
          if (payloadLength =? 0) || (kMaxPayloadBytes <? payloadLength) then Err "package payload length is implausible"
          else if (size <? offset + kSignatureBytes)%nat || negb (Z.of_nat (size - offset - kSignatureBytes) =? payloadLength)
          then Err "package payload length does not match the file"
          else match parse (text_of headerText) with
          | None => Err "package header is not valid JSON"
          | Some header =>
              if negb (is_object header) then Err "package header is not a JSON object"
              else Ok (mkEnvelope headerText offset (Z.to_nat payloadLength) (offset + Z.to_nat payloadLength) header)
          end.

(** [None]: a member of another type throws. *)
Definition MetadataFrom (header : json) : res (option Metadata) :=
  let text := fun key => value_string header key "" in
  match text "app_id"%string, text "version"%string, text "entry"%string, text "runtime_tag"%string,
        text "built_at"%string, text "built_by"%string, text "source_sha256"%string, text "bytecode_sha256"%string with
  | Some a, Some v, Some e, Some r, Some at_, Some by_, Some s, Some b =>
      n ← value_int 64 header "bytecode_bytes" 0;
      Ok (match n, text "algorithm"%string, text "notes"%string with
          | Some n, Some alg, Some t => Some (mkMetadata a v e r at_ by_ s b n alg t)
          | _, _, _ => None
          end)
  | _, _, _, _, _, _, _, _ => Ok None
  end.

(** The error it returns, or the metadata. *)
Definition PeekMetadata (package : list Z) : res (string + Metadata) :=
  match ParseEnvelope package with
  | Err error => Ok (inl error)
  | Fault => Fault
  | Ok envelope =>
      m ← MetadataFrom (e_header envelope);
      match m with Some m => Ok (inr m) | None => Err "type_error" end
  end.

Record OpenResult := mkOpen {
  o_ok : bool; o_bytecode : list Z; o_metadata : Metadata; o_error : string; o_signature_failed : bool; o_runtime_mismatch : bool
}.
Definition open_failed (m : Metadata) (error : string) : res OpenResult := Ok (mkOpen false [] m error false false).

(** After the envelope and the metadata. *)
Definition open_payload (package encryptionKey : list Z) (envelope : Envelope) (meta : Metadata) : res OpenResult :=
  match value_string (e_header envelope) "nonce" "" with
  | None => Err "type_error"
  | Some hex =>
      match hex_pairs (bytes_of hex) with
      | None => open_failed meta "package header has no usable nonce"
      | Some nonce =>
          if negb (length nonce =? kNonceBytes)%nat then open_failed meta "package header has no usable nonce"
          else if negb (String.eqb (algorithm meta) kAlgorithm)
          then open_failed meta ("unsupported payload algorithm " ++ quoted (algorithm meta))
          else
            payload ← slice package (e_payloadOffset envelope) (e_payloadLength envelope);
            match decrypt encryptionKey nonce (e_headerText envelope) payload with
            | None => open_failed meta "could not decrypt the package: wrong encryption key for this installation"
            | Some plaintext =>
                actual ← HexOf plaintext;
                if negb (String.eqb (bytecode_sha256 meta) "") && negb (HexEquals actual (bytes_of (bytecode_sha256 meta)))
                then open_failed meta "decrypted payload does not match its recorded hash"
                else Ok (mkOpen true plaintext meta "" false false)
            end
      end
  end.

Definition Open (package encryptionKey publicKey : list Z) : res OpenResult :=
  if negb sodium_ok then open_failed no_metadata "libsodium is not initialised"
  else if negb (length encryptionKey =? kKeyBytes)%nat then open_failed no_metadata (key_error "encryption" kKeyBytes)
  else if negb (length publicKey =? kPublicKeyBytes)%nat then open_failed no_metadata (key_error "verification" kPublicKeyBytes)
  else match ParseEnvelope package with
  | Err error => open_failed no_metadata error
  | Fault => Fault
  | Ok envelope =>
      m ← MetadataFrom (e_header envelope);
      match m with
      | None => Err "type_error"
      | Some meta =>
          if negb (String.eqb (runtime_tag meta) "") && negb (String.eqb (runtime_tag meta) RuntimeTag)
          then Ok (mkOpen false [] meta ("package was built for " ++ runtime_tag meta ++ ", this gateway runs " ++ RuntimeTag) false true)
          else
            signature ← slice package (e_signedLength envelope) kSignatureBytes;
            message ← slice package 0 (e_signedLength envelope);
            if negb (verify publicKey message signature)
            then Ok (mkOpen false [] meta "signature does not verify -- this package was not built by this installation, or has been modified" true false)
            else open_payload package encryptionKey envelope meta
      end
  end.

(** ** The envelope *)

Definition envelope_of (header ciphertext : list Z) (j : json) : Envelope :=
  mkEnvelope header (22 + length header) (length ciphertext) (length (signed_part header ciphertext)) j.

Lemma length_signed_part header ciphertext : length (signed_part header ciphertext) = (22 + length header + length ciphertext)%nat.
Proof. unfold signed_part. rewrite !length_app, !length_AppendLE. cbn. lia. Qed.

(** The parts of a file in the format. *)
Definition parts_ok (header ciphertext signature : list Z) : Prop :=
  0 < Z.of_nat (length header) <= kMaxHeaderBytes /\ 0 < Z.of_nat (length ciphertext) <= kMaxPayloadBytes /\
  length signature = kSignatureBytes.

Lemma ParseEnvelope_write header ciphertext signature j : parts_ok header ciphertext signature ->
  parse (text_of header) = Some j -> is_object j = true ->
  ParseEnvelope (signed_part header ciphertext ++ signature) = Ok (envelope_of header ciphertext j).
Proof.
  intros (Hh & Hc & Hs) Hj Ho. unfold kMaxHeaderBytes in Hh. unfold kMaxPayloadBytes in Hc.
  set (package := signed_part header ciphertext ++ signature).
  assert (length package = 22 + length header + length ciphertext + 64)%nat as Hl
    by (unfold package; rewrite length_app, length_signed_part, Hs; unfold kSignatureBytes; lia).
  assert (drop 8 package = AppendLE 2 1 ++ (AppendLE 4 (Z.of_nat (length header)) ++ (header ++
    (AppendLE 8 (Z.of_nat (length ciphertext)) ++ (ciphertext ++ signature))))) as D0.
  { unfold package, signed_part. rewrite to_u32_id by lia. rewrite <- !app_assoc. reflexivity. }
  destruct (ReadLE_write 2 _ _ _ _ D0 ltac:(lia) ltac:(cbn; lia)) as (R1 & D1 & O1).
  destruct (ReadLE_write 4 _ _ _ _ D1 O1 ltac:(cbn; lia)) as (R2 & D2 & O2).
  destruct (ReadBytes_write _ _ _ _ D2 O2) as (_ & D3 & O3).
  destruct (ReadLE_write 8 _ _ _ _ D3 O3 ltac:(cbn; lia)) as (R4 & D4 & O4).
  unfold ParseEnvelope. unfold kMagicBytes, kSignatureBytes in *. rewrite (proj2 (Nat.ltb_ge _ _)) by lia.
  change (slice package 0 7) with (Ok kMagic : res (list Z)) || rewrite (slice_ok package 0 7) by lia. cbn [mbind res_bind].
  change (take 7 (drop 0 package)) with kMagic. rewrite (read_at_lookup package 7 0) by reflexivity. cbn [mbind res_bind].
  rewrite bool_decide_true by done. cbn [negb orb Z.eqb]. rewrite R1. cbn [or_error mbind res_bind]. cbn [negb Z.eqb Pos.eqb].
  rewrite R2. cbn [or_error mbind res_bind].
  rewrite (proj2 (Z.eqb_neq _ _)), (proj2 (Z.ltb_ge _ _)), (proj2 (Z.ltb_ge _ _)) by (unfold kMaxHeaderBytes; lia). cbn [orb].
  rewrite Nat2Z.id, slice_ok, D2, take_app_length by lia. cbn [mbind res_bind]. rewrite R4. cbn [or_error mbind res_bind].
  rewrite (proj2 (Z.eqb_neq _ _)), (proj2 (Z.ltb_ge _ _)) by (unfold kMaxPayloadBytes; lia). cbn [orb].
  rewrite (proj2 (Nat.ltb_ge _ _)), (proj2 (Z.eqb_eq _ _)) by lia. cbn [orb negb]. rewrite Hj, Ho. cbn [negb].
  unfold envelope_of. rewrite Nat2Z.id, length_signed_part. f_equal. f_equal; lia.
Qed.

Lemma ParseEnvelope_inv package envelope : bytes_ok package -> ParseEnvelope package = Ok envelope ->
  exists header ciphertext signature j, package = signed_part header ciphertext ++ signature /\
    parts_ok header ciphertext signature /\ parse (text_of header) = Some j /\ is_object j = true /\
    envelope = envelope_of header ciphertext j.
Proof.
  intros Hb H. unfold ParseEnvelope in H. destruct (Nat.ltb_spec (length package) (kMagicBytes + 2 + 4 + 8 + kSignatureBytes)) as [|Hl]; [done|].
  unfold kMagicBytes, kSignatureBytes in Hl.
  rewrite slice_ok in H by lia. cbn [mbind res_bind] in H. rewrite drop_0 in H.
  destruct (read_at_in package 7 ltac:(lia)) as (nul & Hnul & Hlk). rewrite Hnul in H. cbn [mbind res_bind] in H.
  destruct (_ || _) eqn:Em in H; [done|]. apply orb_false_iff in Em as [Em1 Em2]. apply negb_false_iff, bool_decide_eq_true in Em1.
  apply negb_false_iff, Z.eqb_eq in Em2. subst nul.
  take_read H fmt o1 E1. destruct (Z.eqb_spec fmt kFormatVersion) as [->|]; cbn [negb] in H; [|done].
  take_read H hl o2 E2. destruct (_ || _ || _) eqn:Eh in H; [done|]. apply orb_false_iff in Eh as [Eh Eh3].
  apply orb_false_iff in Eh as [Eh1 Eh2]. apply Z.eqb_neq in Eh1. apply Z.ltb_ge in Eh2, Eh3.
  destruct (ReadLE_inv _ _ _ _ _ Hb E1) as (D1 & -> & O1 & V1). destruct (ReadLE_inv _ _ _ _ _ Hb E2) as (D2 & -> & O2 & V2).
  cbn in V2. unfold kMagicBytes in *. rewrite slice_ok in H by lia. cbn [mbind res_bind] in H.
  set (header := take (Z.to_nat hl) (drop (8 + 2 + 4) package)) in *.
  assert (length header = Z.to_nat hl) as Hlh by (unfold header; rewrite length_take, length_drop; lia).
  take_read H plen o4 E4. destruct (ReadLE_inv _ _ _ _ _ Hb E4) as (D4 & -> & O4 & V4).
  destruct (_ || _) eqn:Ep in H; [done|]. apply orb_false_iff in Ep as [Ep1 Ep2]. apply Z.eqb_neq in Ep1. apply Z.ltb_ge in Ep2.
  destruct (_ || _) eqn:Es in H; [done|]. apply orb_false_iff in Es as [Es1 Es2]. apply Nat.ltb_ge in Es1.
  apply negb_false_iff, Z.eqb_eq in Es2. unfold kSignatureBytes in *.
  destruct (parse (text_of header)) as [j|] eqn:Ej; [|done]. destruct (is_object j) eqn:Eo; cbn [negb] in H; [|done].
  injection H as <-. set (rest := drop (8 + 2 + 4 + Z.to_nat hl + 8) package) in *.
  assert (length rest = Z.to_nat plen + 64)%nat as Hlr by (unfold rest; rewrite length_drop; lia).
  exists header, (take (Z.to_nat plen) rest), (drop (Z.to_nat plen) rest), j.
  assert (length (take (Z.to_nat plen) rest) = Z.to_nat plen) as Hlt by (rewrite length_take; lia).
  split_and!; [|unfold parts_ok; rewrite Hlt, Hlh, length_drop, Hlr; unfold kSignatureBytes; split_and!; lia|done|done|].
  - unfold signed_part. rewrite Hlt, Hlh, !Z2Nat.id, to_u32_id by lia. rewrite <- !app_assoc, take_drop, <- D4.
    unfold header. rewrite <- (drop_drop _ (Z.to_nat hl)), take_drop, <- D2, <- D1.
    rewrite <- (take_drop 8 package) at 1. rewrite (app_assoc kMagic). f_equal.
    rewrite (take_S_r package 7 0) by done. by rewrite Em1.
  - unfold envelope_of. rewrite length_signed_part, Hlh, Hlt. f_equal; lia.
Qed.
(** ** Hexadecimal *)

Lemma hex_pairs_hex bs : bytes_ok bs -> hex_pairs (concat (map hex_byte bs)) = Some bs.
Proof.
  induction 1 as [|b bs Hb _ IH]; [done|]. cbn [map concat].
  assert (forall rest, hex_pairs rest = Some bs -> hex_pairs (hex_byte b ++ rest) = Some (b :: bs)) as H; [|by apply H].
  intros rest Hr. unfold byte_ok in Hb. rewrite <- (Z2Nat.id b) by lia. assert (Z.to_nat b < 256)%nat as Hn by lia.
  assert (forallb (fun n => match hex_byte (Z.of_nat n) with
    | [h; l] => match hex_nibble h, hex_nibble l with
                | Some high, Some low => to_u8 (Z.lor (Z.shiftl high 4) low) =? Z.of_nat n
                | _, _ => false end
    | _ => false end) (seq 0 256) = true) as Hall by (vm_compute; reflexivity).
  rewrite forallb_forall in Hall. specialize (Hall (Z.to_nat b) ltac:(apply in_seq; lia)).
  destruct (hex_byte (Z.of_nat (Z.to_nat b))) as [|h [|l [|? ?]]]; try done. cbn [app hex_pairs].
  destruct (hex_nibble h); [|done]. destruct (hex_nibble l); [|done]. rewrite Hr. apply Z.eqb_eq in Hall. by rewrite Hall.
Qed.

Lemma hex_bytes_ok bs : bytes_ok bs -> bytes_ok (concat (map hex_byte bs)).
Proof.
  induction 1 as [|b bs Hb _ IH]; [constructor|]. cbn [map concat]. apply Forall_app. split; [|done].
  unfold byte_ok in Hb. rewrite <- (Z2Nat.id b) by lia. assert (Z.to_nat b < 256)%nat as Hn by lia.
  assert (forallb (fun n => forallb (fun x => (0 <=? x) && (x <? 256)) (hex_byte (Z.of_nat n))) (seq 0 256) = true) as Hall by (vm_compute; reflexivity).
  rewrite forallb_forall in Hall. specialize (Hall (Z.to_nat b) ltac:(apply in_seq; lia)).
  apply Forall_forall. intros x Hx. rewrite forallb_forall in Hall. specialize (Hall x). rewrite <- list_elem_of_In in Hall. specialize (Hall Hx).
  unfold byte_ok. reflect_bools. lia.
Qed.

(** ** What opens *)

Definition hash_ok (m : Metadata) (bytecode : list Z) : Prop :=
  bytecode_sha256 m = EmptyString \/
  map tolower (digest_hex bytecode) = map tolower (bytes_of (bytecode_sha256 m)).

(** A package that this gateway may run, and what is in it. *)
Definition opens (package encryptionKey publicKey bytecode : list Z) (m : Metadata) : Prop :=
  sodium_ok = true /\ length encryptionKey = kKeyBytes /\ length publicKey = kPublicKeyBytes /\
  exists header ciphertext signature j hex nonce,
    package = signed_part header ciphertext ++ signature /\ parts_ok header ciphertext signature /\
    parse (text_of header) = Some j /\ is_object j = true /\ MetadataFrom j = Ok (Some m) /\
    (runtime_tag m = EmptyString \/ runtime_tag m = RuntimeTag) /\
    verify publicKey (signed_part header ciphertext) signature = true /\
    value_string j "nonce" "" = Some hex /\ hex_pairs (bytes_of hex) = Some nonce /\ length nonce = kNonceBytes /\
    algorithm m = kAlgorithm /\ decrypt encryptionKey nonce header ciphertext = Some bytecode /\ hash_ok m bytecode.

Lemma plaintext_small k n ad c p : decrypt k n ad c = Some p -> Z.of_nat (length c) <= kMaxPayloadBytes -> Z.of_nat (length p) * 8 < 2 ^ 64.
Proof. intros H Hc. apply decrypt_length in H. unfold kMaxPayloadBytes in Hc. unfold kAeadBytes in H. lia. Qed.

Lemma hash_check m bytecode :
  negb (String.eqb (bytecode_sha256 m) "") && negb (HexEquals (digest_hex bytecode) (bytes_of (bytecode_sha256 m))) = false <-> hash_ok m bytecode.
Proof.
  unfold hash_ok. rewrite <- HexEquals_iff. destruct (String.eqb_spec (bytecode_sha256 m) ""); cbn [negb andb]; [by split; auto|].
  rewrite negb_false_iff. split; [by right|]. by intros [?|].
Qed.

Lemma tag_check m : negb (String.eqb (runtime_tag m) "") && negb (String.eqb (runtime_tag m) RuntimeTag) = false <->
  (runtime_tag m = EmptyString \/ runtime_tag m = RuntimeTag).
Proof.
  rewrite andb_false_iff, !negb_false_iff, !String.eqb_eq. done.
Qed.

Lemma slices header ciphertext signature : length signature = kSignatureBytes ->
  let package := signed_part header ciphertext ++ signature in
  slice package (length (signed_part header ciphertext)) kSignatureBytes = Ok signature /\
  slice package 0 (length (signed_part header ciphertext)) = Ok (signed_part header ciphertext) /\
  slice package (22 + length header) (length ciphertext) = Ok ciphertext.
Proof.
  intros Hs. cbn zeta. rewrite !slice_ok by (rewrite length_app, length_signed_part; lia). split_and!; f_equal.
  - rewrite drop_app_length. rewrite <- Hs. apply firstn_all.
  - by rewrite drop_0, take_app_length.
  - unfold signed_part. rewrite <- !app_assoc. rewrite !app_assoc.
    set (pre := ((((kMagic ++ [0]) ++ AppendLE 2 kFormatVersion) ++ AppendLE 4 (to_u32 (Z.of_nat (length header)))) ++ header) ++ _).
    assert (length pre = 22 + length header)%nat as <- by (unfold pre; rewrite !length_app, !length_AppendLE; cbn; lia).
    rewrite <- app_assoc, drop_app_length. by rewrite take_app_length.
Qed.

Lemma Open_flags package encryptionKey publicKey o : Open package encryptionKey publicKey = Ok o -> o_ok o = true ->
  o = mkOpen true (o_bytecode o) (o_metadata o) "" false false.
Proof.
  unfold Open, open_payload, open_failed. intros H Ho.
  repeat match type of H with
  | context [match ?x with _ => _ end] => destruct x; cbn [mbind res_bind] in H; try discriminate H
  | (mbind _ ?x) = _ => destruct x; cbn [mbind res_bind] in H; try discriminate H
  end; injection H as <-; by try discriminate Ho.
Qed.

Lemma Open_inv package encryptionKey publicKey bytecode m : bytes_ok package ->
  Open package encryptionKey publicKey = Ok (mkOpen true bytecode m EmptyString false false) -> opens package encryptionKey publicKey bytecode m.
Proof.
  intros Hb. unfold opens, Open.
  intros H. destruct sodium_ok; cbn [negb] in H; [|done]. destruct (Nat.eqb_spec (length encryptionKey) kKeyBytes) as [Hk|]; cbn [negb] in H; [|done].
  destruct (Nat.eqb_spec (length publicKey) kPublicKeyBytes) as [Hpk|]; cbn [negb] in H; [|done].
  split_and!; [done|done|done|]. destruct (ParseEnvelope package) as [envelope| |] eqn:Ee; [|done|done].
  destruct (ParseEnvelope_inv _ _ Hb Ee) as (header & ciphertext & signature & j & -> & Hp & Hj & Ho & ->).
  cbn [e_header envelope_of] in H. destruct (MetadataFrom j) as [[meta|]| |] eqn:Em; cbn [mbind res_bind] in H; try done.
  destruct (_ && _) eqn:Et in H; [done|]. apply tag_check in Et. cbn [e_signedLength envelope_of] in H.
  destruct (slices header ciphertext signature) as (S1 & S2 & S3); [apply Hp|]. cbn zeta in S1, S2, S3. rewrite S1, S2 in H. cbn [mbind res_bind] in H.
  destruct (verify publicKey (signed_part header ciphertext) signature) eqn:Ev; cbn [negb] in H; [|done].
  unfold open_payload in H. cbn [e_header e_payloadOffset e_payloadLength e_headerText envelope_of] in H.
  destruct (value_string j "nonce" "") as [hex|] eqn:En; [|done]. destruct (hex_pairs (bytes_of hex)) as [nonce|] eqn:Ehex; [|done].
  destruct (Nat.eqb_spec (length nonce) kNonceBytes) as [Hn|]; cbn [negb] in H; [|done].
  destruct (String.eqb_spec (algorithm meta) kAlgorithm) as [Ha|]; cbn [negb] in H; [|done].
  rewrite S3 in H. cbn [mbind res_bind] in H. destruct (decrypt encryptionKey nonce header ciphertext) as [plain|] eqn:Ed; [|done].
  rewrite HexOf_digest in H by (apply (plaintext_small _ _ _ _ _ Ed); apply Hp). cbn [mbind res_bind] in H.
  destruct (_ && _) eqn:Eh in H; [done|]. apply hash_check in Eh. injection H as <- <-.
  exists header, ciphertext, signature, j, hex, nonce. by split_and!.
Qed.

Lemma Open_opens package encryptionKey publicKey bytecode m : opens package encryptionKey publicKey bytecode m ->
  Open package encryptionKey publicKey = Ok (mkOpen true bytecode m EmptyString false false).
Proof.
  unfold opens, Open.
  intros (-> & -> & -> & header & ciphertext & signature & j & hex & nonce & -> & Hp & Hj & Ho & Em & Et & Ev & En & Ehex & Hn & Ha & Ed & Eh).
  cbn [negb]. rewrite !Nat.eqb_refl. cbn [negb]. rewrite (ParseEnvelope_write header ciphertext signature j) by done. cbn [e_header envelope_of].
  rewrite Em. cbn [mbind res_bind]. apply tag_check in Et. rewrite Et. cbn [e_signedLength envelope_of].
  destruct (slices header ciphertext signature) as (S1 & S2 & S3); [apply Hp|]. cbn zeta in S1, S2, S3. rewrite S1, S2. cbn [mbind res_bind].
  rewrite Ev. cbn [negb]. unfold open_payload. cbn [e_header e_payloadOffset e_payloadLength e_headerText envelope_of].
  rewrite En, Ehex, Hn, Nat.eqb_refl, Ha, String.eqb_refl. cbn [negb]. rewrite S3. cbn [mbind res_bind]. rewrite Ed.
  rewrite HexOf_digest by (apply (plaintext_small _ _ _ _ _ Ed); apply Hp). cbn [mbind res_bind]. apply hash_check in Eh. by rewrite Eh.
Qed.

(** C16: A package opens exactly when libsodium is up and the two keys have
    their sizes, it is, byte for byte, a header and an encrypted payload in the
    format followed by a signature of the two that verifies under this gateway's
    public key, the header names the cipher and a nonce of its size, names no
    other Lua runtime than this one (it may name none), and the payload decrypts
    under this gateway's key with the header as associated data to bytecode that
    has the hash the header records, if it records one; what is returned is that
    bytecode and the metadata of that header. *)
Theorem package_opens_exactly package encryptionKey publicKey bytecode m : bytes_ok package ->
  (Open package encryptionKey publicKey = Ok (mkOpen true bytecode m "" false false) <->
   opens package encryptionKey publicKey bytecode m).
Proof. intros Hb. split; [by apply Open_inv|apply Open_opens]. Qed.

(** ** A package that was built opens *)

Section Roundtrip.
Variables (l : list (string * json)) (j : json) (l' : list (string * json)).
Hypothesis Hview : view j = JObject l'.
Hypothesis Hmem : forall key x, member l key = Some x -> exists y, member l' key = Some y /\ (same_scalar x x -> same_scalar x y).

Lemma value_string_read key s : member l key = Some (inject (JString s)) -> value_string j key "" = Some s.
Proof.
  intros Hm. pose proof (string_member_of l l' key s (Hmem key) Hm) as H. unfold value_string, field_string. rewrite Hview.
  unfold string_member in H. destruct (member l' key); [|done]. by destruct (view j0).
Qed.

Lemma value_int_read key z : - 2 ^ 63 <= z < 2 ^ 63 -> member l key = Some (inject (JInt z)) -> value_int 64 j key 0 = Ok (Some z).
Proof.
  intros Hz Hm. pose proof (integer_member_of l l' key z (Hmem key) Hm) as H. unfold value_int, field_int. rewrite Hview.
  unfold integer_member in H. destruct (member l' key) as [x|]; [|done].
  destruct (view x); try done; injection H as ->; by rewrite to_signed_id by (cbn; lia).
Qed.
End Roundtrip.

(** What is built opens: a package that could be built from some bytecode,
    of less than 64 megabytes with its seal, is opened under the public half of
    the signing key and the encryption key to the same bytecode and the same
    metadata, completed with the tag of the runtime, the length, the digest and
    the cipher. *)
Theorem package_roundtrip bytecode metadata encryptionKey secretKey nonce package :
  bytes_ok bytecode -> bytes_ok nonce -> length nonce = kNonceBytes ->
  Z.of_nat (length bytecode + kAeadBytes) <= kMaxPayloadBytes -> length (public_of secretKey) = kPublicKeyBytes ->
  (runtime_tag metadata = EmptyString \/ runtime_tag metadata = RuntimeTag) ->
  Build bytecode metadata encryptionKey secretKey nonce = Ok (mkBuild true package "") ->
  bytes_ok package /\
  Open package encryptionKey (public_of secretKey) =
    Ok (mkOpen true bytecode (complete metadata bytecode (digest_hex bytecode)) "" false false).
Proof.
  intros Hbc Hbn Hn Hsize Hpk Htag H. unfold kMaxPayloadBytes, kAeadBytes in Hsize. unfold Build in H.
  destruct sodium_ok eqn:Esod; cbn [negb] in H; [|done]. destruct bytecode as [|b0 rest] eqn:Ebc; [done|]. rewrite <- Ebc in *. clear b0 rest Ebc.
  destruct (Nat.eqb_spec (length encryptionKey) kKeyBytes) as [Hk|]; cbn [negb] in H; [|done].
  destruct (Nat.eqb_spec (length secretKey) kSecretKeyBytes); cbn [negb] in H; [|done].
  rewrite HexOf_digest in H by lia. cbn [mbind res_bind] in H.
  set (meta := complete metadata bytecode (digest_hex bytecode)) in *.
  destruct (dump _) as [headerText|] eqn:Ed; [|done]. set (header := bytes_of headerText) in *.
  destruct (Z.ltb_spec kMaxHeaderBytes (Z.of_nat (length header))) as [|Hh]; [done|].
  set (ciphertext := encrypt encryptionKey nonce header bytecode) in *.
  destruct (sign secretKey (signed_part header ciphertext)) as [signature|] eqn:Es; [|done]. injection H as <-.
  destruct (encrypt_shape encryptionKey nonce header bytecode) as [Hlc Hbct]. fold ciphertext in Hlc, Hbct.
  destruct (sign_shape _ _ _ Es) as [Hls Hbs]. unfold kAeadBytes in Hlc.
  assert (bytes_ok (signed_part header ciphertext ++ signature)) as Hb.
  { unfold signed_part. rewrite !Forall_app. split_and!; try done; try apply AppendLE_ok; try apply bytes_of_ok;
      unfold byte_ok; by apply (bool_decide_unpack _). }
  split; [exact Hb|]. apply Open_opens.
  set (l := header_fields meta nonce) in *.
  assert (NoDup l.*1) as Hnd by (cbn; by apply (bool_decide_unpack _)).
  assert (Forall (fun f => scalar (view f.2) = true) l) as Hsc.
  { unfold l, header_fields, meta_fields. cbn [app]. repeat (apply Forall_cons; split; [cbn [snd]; by rewrite view_inject|]). by apply Forall_nil. }
  destruct (parse_dump l headerText Hnd Hsc Ed) as (j & l' & Hj & Hv & Hmem).
  assert (bytes_of (text_of (digest_hex bytecode)) = digest_hex bytecode) as Hhex.
  { apply bytes_of_text_of. rewrite digest_hex_bytes. apply hex_bytes_ok, digest_shape. }
  unfold opens. rewrite Hk, Hpk. split_and!; [done|done|done|].
  exists header, ciphertext, signature, j, (text_of (concat (map hex_byte nonce))), nonce. split_and!; try done.
  - unfold parts_ok. rewrite Hlc. unfold kMaxPayloadBytes. split_and!; try lia; try done.
    unfold header. destruct headerText; [by rewrite parse_empty in Hj|cbn; lia].
  - unfold header. by rewrite text_of_bytes_of.
  - unfold is_object. by rewrite Hv.
  - pose proof (value_string_read l j l' Hv Hmem) as HS.
    unfold MetadataFrom. rewrite (HS "app_id" (app_id meta) eq_refl), (HS "version" (version meta) eq_refl),
      (HS "entry" (entry meta) eq_refl), (HS "runtime_tag" (runtime_tag meta) eq_refl), (HS "built_at" (built_at meta) eq_refl),
      (HS "built_by" (built_by meta) eq_refl), (HS "source_sha256" (source_sha256 meta) eq_refl),
      (HS "bytecode_sha256" (bytecode_sha256 meta) eq_refl), (HS "algorithm" (algorithm meta) eq_refl),
      (HS "notes" (notes meta) eq_refl).
    rewrite (value_int_read l j l' Hv Hmem "bytecode_bytes" (bytecode_bytes meta)) by (done || (cbn; lia)).
    done.
  - unfold meta. cbn. destruct (runtime_tag metadata); [by right|]. right. by destruct Htag.
  - by apply sign_verify.
  - by apply (value_string_read l j l' Hv Hmem).
  - rewrite bytes_of_text_of by (by apply hex_bytes_ok). by apply hex_pairs_hex.
  - by apply encrypt_decrypt.
  - right. unfold meta. cbn [bytecode_sha256 complete]. by rewrite Hhex.
Qed.
End LuaPackage.

(** ** A concrete installation *)

(** A toy cipher and a toy signature. *)
Definition toy_tag (m : list Z) : list Z := replicate kSignatureBytes (to_u8 (foldr Z.add 0 m)).
#[local] Instance toy_crypto : PackageCrypto.
Proof.
  refine {| sign := fun _ m => Some (toy_tag m); verify := fun _ m s => bool_decide (s = toy_tag m);
            public_of := take kPublicKeyBytes;
            encrypt := fun _ _ _ p => map to_u8 p ++ replicate kAeadBytes 0;
            decrypt := fun _ _ _ c => if (kAeadBytes <=? length c)%nat then Some (take (length c - kAeadBytes) c) else None |}.
  - intros sk Hl Hb. split; [by rewrite length_take, Hl|by apply Forall_take].
  - intros _ m s [= <-]. by apply bool_decide_true.
  - intros _ m s [= <-]. unfold toy_tag. split; [by rewrite length_replicate|]. apply Forall_replicate, to_u8_range.
  - intros _ _ _ p Hp. rewrite length_app, length_map, length_replicate. rewrite (proj2 (Nat.leb_le _ _)) by lia.
    rewrite Nat.add_sub, <- (length_map to_u8 p), take_app_length. f_equal.
    induction Hp as [|b p Hb _ IH]; [done|]. cbn [map]. by rewrite (to_u8_id b Hb), IH.
  - intros _ _ _ p. rewrite length_app, length_map, length_replicate. split; [done|]. apply Forall_app. split.
    + apply Forall_map, Forall_true. intros x. apply to_u8_range.
    + apply Forall_replicate. unfold byte_ok; lia.
  - intros _ _ _ c p H. destruct (Nat.leb_spec kAeadBytes (length c)); [|done]. injection H as <-. rewrite length_take. lia.
Defined.

#[local] Instance toy_sodium : Sodium := {| sodium_ok := true; pw_verify := fun _ _ => true; pw_needs_rehash := fun _ => 0 |}.

Definition toy_bytecode : list Z := Eval vm_compute in Serialise demo_bundle.
Definition toy_nonce : list Z := replicate kNonceBytes 7.
Definition toy_secret : list Z := replicate kSecretKeyBytes 9.
Definition toy_key : list Z := replicate kKeyBytes 5.
Definition toy_metadata : Metadata := mkMetadata "line1" "1.2.0" "main" "" "now" "dev" "" "" 0 "" "".
Definition toy_tag_of_runtime : string := "Lua 5.4".

(** A text form that knows one header, and two that are not well formed. *)
Definition table_parse (fields : list (string * jtree)) (text : string) : option jtree :=
  if String.eqb text "header" then Some (TObject fields)
  else if String.eqb text "mistyped" then Some (TObject [("app_id"%string, TInt 1)])
  else if String.eqb text "vast" then Some (TObject [("bytecode_bytes"%string, TFloat (126 * 2 ^ 56))])
  else None.

Definition scalar_eqb (a b : jtree) : bool :=
  match a, b with
  | TInt x, TInt y => x =? y
  | TString x, TString y => String.eqb x y
  | _, _ => false
  end.
Fixpoint fields_eqb (a b : list (string * jtree)) : bool :=
  match a, b with
  | [], [] => true
  | (k, x) :: a, (k', y) :: b => String.eqb k k' && scalar_eqb x y && fields_eqb a b
  | _, _ => false
  end.
Definition table_dump (fields : list (string * jtree)) (t : jtree) : option string :=
  match t with
  | TObject a => if fields_eqb a fields then Some "header"%string else None
  | _ => None
  end.

Lemma fields_eqb_eq a b : fields_eqb a b = true -> a = b.
Proof.
  revert b. induction a as [|[k x] a IH]; intros [|[k' y] b] H; try done. cbn in H.
  apply andb_true_iff in H as [H H2]. apply andb_true_iff in H as [H1 H3]. apply String.eqb_eq in H1 as ->. rewrite (IH b H2).
  destruct x, y; try done; cbn in H3; [apply Z.eqb_eq in H3|apply String.eqb_eq in H3]; by subst.
Qed.

Definition table_text (fields : list (string * jtree)) : JsonText (J := jtree_json).
Proof.
  refine (@Build_JsonText jtree_json (table_parse fields) (table_dump fields) _ eq_refl). intros l t _ _ E.
  cbn in E. destruct (fields_eqb l fields) eqn:El; [|done]. injection E as <-. apply fields_eqb_eq in El as ->.
  exists (TObject fields), fields. split; [done|]. split; [done|]. intros key x Hx. by exists x.
Defined.

Definition toy_header : list (string * jtree) := Eval vm_compute in
  header_fields (J := jtree_json) (complete toy_tag_of_runtime toy_metadata toy_bytecode (digest_hex toy_bytecode)) toy_nonce.
#[local] Instance toy_text : JsonText (J := jtree_json) := table_text toy_header.

Definition toy_build : res BuildResult :=
  Build (J := jtree_json) (T := toy_text) toy_tag_of_runtime toy_bytecode toy_metadata toy_key toy_secret toy_nonce.
Definition toy_package : list Z := Eval vm_compute in match toy_build with Ok r => b_package r | _ => [] end.
Definition toy_meta : Metadata := Eval vm_compute in complete toy_tag_of_runtime toy_metadata toy_bytecode (digest_hex toy_bytecode).

Lemma package_opens_exactly_witness :
  bytes_ok toy_package /\
  opens (J := jtree_json) (T := toy_text) toy_tag_of_runtime toy_package toy_key (take kPublicKeyBytes toy_secret) toy_bytecode toy_meta.
Proof.
  assert (bytes_ok toy_package) as Hb by (unfold byte_ok, toy_package; repeat constructor; lia). split; [exact Hb|].
  apply (package_opens_exactly (J := jtree_json) (T := toy_text) toy_tag_of_runtime toy_package toy_key (take kPublicKeyBytes toy_secret)
    toy_bytecode toy_meta Hb).
  vm_compute. reflexivity.
Defined.

Lemma package_roundtrip_witness :
  toy_build = Ok (mkBuild true toy_package "") /\
  Open (J := jtree_json) (T := toy_text) toy_tag_of_runtime toy_package toy_key (take kPublicKeyBytes toy_secret) =
    Ok (mkOpen true toy_bytecode toy_meta "" false false).
Proof.
  assert (toy_build = Ok (mkBuild true toy_package "")) as E by (vm_compute; reflexivity). split; [exact E|].
  assert (bytes_ok toy_bytecode /\ bytes_ok toy_nonce) as [H1 H2] by (unfold byte_ok; split; by apply (bool_decide_unpack _)).
  exact (proj2 (package_roundtrip (J := jtree_json) (T := toy_text) toy_tag_of_runtime toy_bytecode toy_metadata toy_key toy_secret toy_nonce
    toy_package H1 H2 eq_refl ltac:(by vm_compute) eq_refl (or_introl eq_refl) E)).
Defined.

(** A file anyone can write: the header is read before the signature is
    looked at. *)
Definition unsigned (header : string) : list Z := signed_part (bytes_of header) (replicate 20 0) ++ replicate kSignatureBytes 0.

(** A member of another type leaves [Open] and [PeekMetadata] as an exception
    that neither documents. *)
Example mistyped_header_throws :
  Open (J := jtree_json) (T := toy_text) toy_tag_of_runtime (unsigned "mistyped") toy_key (take kPublicKeyBytes toy_secret) = Err "type_error" /\
  PeekMetadata (J := jtree_json) (T := toy_text) (unsigned "mistyped") = Err "type_error".
Proof. split; vm_compute; reflexivity. Qed.

(** A length beyond 64 bits is converted, which is undefined. *)
Example vast_length_undefined :
  Open (J := jtree_json) (T := toy_text) toy_tag_of_runtime (unsigned "vast") toy_key (take kPublicKeyBytes toy_secret) = Fault.
Proof. vm_compute. reflexivity. Qed.
