(* ===== verification/PackageKeys.v ===== *)
(** * The keys of an installation (src/lua_package/PackageKeys.cpp)

    Three files of hexadecimal text: the encryption key, the public and the
    secret half of the signing key.  What becomes of a write is decided by the
    file system: the file may not open, or hold only the first bytes. *)

From S2P Require Import Prelude Words Text Sha256 PasswordHash LuaBundle LuaPackage.

Definition ToHex (bytes : list Z) : list Z := concat (map hex_byte bytes).

Definition hex_layout (c : Z) : bool := (c =? 10) || (c =? 13) || (c =? 32) || (c =? 9).

Definition FromHex (text : list Z) : option (list Z) :=
  let hex := List.filter (fun c => negb (hex_layout c)) text in
  match hex with
  | [] => None
  | _ => if negb (length hex mod 2 =? 0)%nat then None else hex_pairs hex
  end.

(** The contents of the three files, [None] where there is none. *)
Record KeyFiles := mkKeys { encryption_file : option (list Z); public_file : option (list Z); secret_file : option (list Z) }.

Inductive write_outcome := Written | NotOpened | CutShort (n : nat).

(** The error, and the file afterwards. *)
Definition WriteKeyFile (path : string) (outcome : write_outcome) (key : list Z) (file : option (list Z)) : option string * option (list Z) :=
  let text := ToHex key ++ [10] in
  match outcome with
  | NotOpened => (Some ("cannot write " ++ path)%string, file)
  | CutShort n => (Some ("failed while writing " ++ path)%string, Some (take n text))
  | Written => (None, Some text)
  end.

Definition ReadKeyFile (path : string) (file : option (list Z)) (expectedBytes : nat) : string + list Z :=
  match file with
  | None => inl ("key file not found: " ++ path)%string
  | Some text =>
      match FromHex text with
      | None => inl ("key file " ++ path ++ " is not valid hex")%string
      | Some out =>
          if negb (length out =? expectedBytes)%nat
          then inl ("key file " ++ path ++ " holds " ++ to_string (Z.of_nat (length out)) ++ " bytes, expected " ++
                    to_string (Z.of_nat expectedBytes))%string
          else inr out
      end
  end.

Definition exists_file (file : option (list Z)) : bool := match file with Some _ => true | None => false end.

Section PackageKeys.
Context {L : Sodium} {K : PackageCrypto}.
(** The three paths. *)
Variables encryptionKeyPath publicKeyPath secretKeyPath : string.

(** What the random generator draws, and what becomes of the writes. *)
Record KeyDraws := mkKeyDraws {
  drawn_key : list Z; drawn_pair : option (list Z * list Z);       (** public, secret *)
  encryption_write : write_outcome; secret_write : write_outcome; public_write : write_outcome; derived_write : write_outcome
}.

(** The public half from the secret one. *)
Definition derive_public (d : KeyDraws) (k : KeyFiles) : KeyFiles :=
  if negb (exists_file (public_file k)) && exists_file (secret_file k) then
    match ReadKeyFile secretKeyPath (secret_file k) kSecretKeyBytes with
    | inr secret => mkKeys (encryption_file k) (WriteKeyFile publicKeyPath (derived_write d) (public_of secret) (public_file k)).2 (secret_file k)
    | inl _ => k
    end
  else k.

(** The error or whether a signing key was generated; the files. *)
Definition EnsureExists (wantSigningKey : bool) (d : KeyDraws) (k : KeyFiles) : (string + bool) * KeyFiles :=
  if negb sodium_ok then (inl "libsodium is not initialised"%string, k)
  else
    let '(error, k) :=
      if negb (exists_file (encryption_file k)) then
        let '(e, file) := WriteKeyFile encryptionKeyPath (encryption_write d) (drawn_key d) (encryption_file k) in
        (e, mkKeys file (public_file k) (secret_file k))
      else (None, k) in
    match error with
    | Some e => (inl e, k)
    | None =>
        if wantSigningKey && negb (exists_file (secret_file k)) then
          match drawn_pair d with
          | None => (inl "could not generate a signing keypair"%string, k)
          | Some (pub, secret) =>
              let '(e, file) := WriteKeyFile secretKeyPath (secret_write d) secret (secret_file k) in
              let k := mkKeys (encryption_file k) (public_file k) file in
              match e with
              | Some e => (inl e, k)
              | None =>
                  let '(e, file) := WriteKeyFile publicKeyPath (public_write d) pub (public_file k) in
                  let k := mkKeys (encryption_file k) file (secret_file k) in
                  match e with
                  | Some e => (inl e, k)
                  | None => (inr true, derive_public d k)
                  end
              end
          end
        else (inr false, derive_public d k)
    end.

Definition LoadEncryptionKey (k : KeyFiles) : string + list Z := ReadKeyFile encryptionKeyPath (encryption_file k) kKeyBytes.
Definition LoadPublicKey (k : KeyFiles) : string + list Z := ReadKeyFile publicKeyPath (public_file k) kPublicKeyBytes.
Definition LoadSecretKey (k : KeyFiles) : string + list Z := ReadKeyFile secretKeyPath (secret_file k) kSecretKeyBytes.
Definition HasSigningKey (k : KeyFiles) : bool := exists_file (secret_file k).
Definition HasEncryptionKey (k : KeyFiles) : bool := exists_file (encryption_file k).

Definition PublicKeyFingerprint (k : KeyFiles) : res (list Z) :=
  match LoadPublicKey k with
  | inl _ => Ok []
  | inr pub => hex ← HexOf pub; Ok (take 16 hex)
  end.

(** ** Reading back what was written *)

Lemma hex_digits bs : bytes_ok bs -> forallb (fun c => negb (hex_layout c)) (ToHex bs) = true /\ length (ToHex bs) = (2 * length bs)%nat.
Proof.
  unfold ToHex. induction 1 as [|b bs Hb _ [IH1 IH2]]; [by split|]. cbn [map concat]. rewrite forallb_app, length_app, IH1, IH2.
  assert (forallb (fun n => match hex_byte (Z.of_nat n) with [h; l] => negb (hex_layout h) && negb (hex_layout l) | _ => false end) (seq 0 256) = true)
    as Hall by (vm_compute; reflexivity).
  rewrite forallb_forall in Hall. unfold byte_ok in Hb. rewrite <- (Z2Nat.id b) by lia. specialize (Hall (Z.to_nat b) ltac:(apply in_seq; lia)).
  destruct (hex_byte _) as [|h [|l [|? ?]]]; try done. apply andb_true_iff in Hall as [H1 H2].
  cbn [forallb]. rewrite H1, H2. split; [done|cbn; lia].
Qed.

Lemma FromHex_ToHex bs : bytes_ok bs -> bs <> [] -> FromHex (ToHex bs ++ [10]) = Some bs.
Proof.
  intros Hb Hn. destruct (hex_digits bs Hb) as [Hd Hl]. unfold FromHex. rewrite List.filter_app, forallb_filter_id by done.
  cbn [List.filter hex_layout Z.eqb Pos.eqb orb negb]. rewrite app_nil_r, Hl, Nat.mul_comm, Nat.Div0.mod_mul. cbn [Nat.eqb negb].
  unfold ToHex in *. rewrite (hex_pairs_hex bs Hb). destruct (concat _) eqn:E; [|done]. by destruct bs.
Qed.

Lemma hex_pairs_ok hex : forall bs, hex_pairs hex = Some bs -> bytes_ok bs.
Proof.
  induction hex as [hex IH] using (induction_ltof1 _ (@length Z)). unfold ltof in IH. intros bs H.
  destruct hex as [|h [|l rest]]; [injection H as <-; constructor|done|]. cbn in H.
  destruct (hex_nibble h), (hex_nibble l), (hex_pairs rest) as [out|] eqn:E; try done. injection H as <-.
  constructor; [apply to_u8_range|]. apply (IH rest); [cbn; lia|done].
Qed.

Lemma ReadKeyFile_ok path file n key : ReadKeyFile path file n = inr key -> length key = n /\ bytes_ok key /\ file <> None.
Proof.
  unfold ReadKeyFile. destruct file as [text|]; [|done]. unfold FromHex. destruct (List.filter _ text); [done|].
  destruct (negb _); [done|]. destruct (hex_pairs _) as [out|] eqn:E; [|done].
  destruct (Nat.eqb_spec (length out) n); [|done]. intros [= <-]. split_and!; [done|by eapply hex_pairs_ok|done].
Qed.

Lemma ReadKeyFile_write path key n : bytes_ok key -> length key = n -> n <> 0%nat ->
  ReadKeyFile path (Some (ToHex key ++ [10])) n = inr key.
Proof.
  intros Hb Hl Hn. unfold ReadKeyFile. rewrite FromHex_ToHex by (done || (intros ->; by subst)). by rewrite Hl, Nat.eqb_refl.
Qed.

(** ** The keys of a machine that builds packages *)

(** What the generator draws, and writes that reach the disk. *)
Definition draws_ok (d : KeyDraws) : Prop :=
  bytes_ok (drawn_key d) /\ length (drawn_key d) = kKeyBytes /\
  match drawn_pair d with
  | Some (pub, secret) => pub = public_of secret /\ bytes_ok secret /\ length secret = kSecretKeyBytes
  | None => False
  end.
Definition writes_ok (d : KeyDraws) : Prop :=
  encryption_write d = Written /\ secret_write d = Written /\ public_write d = Written /\ derived_write d = Written.

(** The files that are there hold a key, and a public key belongs to the
    secret one. *)
Definition keys_ok (k : KeyFiles) : Prop :=
  (encryption_file k = None \/ exists key, LoadEncryptionKey k = inr key) /\
  (secret_file k = None \/ exists secret, LoadSecretKey k = inr secret /\ (public_file k = None \/ LoadPublicKey k = inr (public_of secret))).

Lemma derive_public_keeps d k : encryption_file (derive_public d k) = encryption_file k /\
  secret_file (derive_public d k) = secret_file k /\
  (public_file k <> None -> public_file (derive_public d k) = public_file k).
Proof.
  unfold derive_public. destruct (public_file k) eqn:E; cbn [exists_file negb andb]; [done|].
  destruct (exists_file _); [|by rewrite E]. destruct (ReadKeyFile _ _ _); [by rewrite E|done].
Qed.

(** The files after the two generating steps. *)
Lemma EnsureExists_cases want d k :
  let '(r, k') := EnsureExists want d k in
  exists k1, (k' = k1 \/ k' = derive_public d k1) /\
    (encryption_file k <> None -> encryption_file k1 = encryption_file k) /\
    (secret_file k <> None -> secret_file k1 = secret_file k) /\
    (want = false \/ secret_file k <> None -> public_file k1 = public_file k).
Proof.
  unfold EnsureExists. destruct sodium_ok; cbn [negb]; [|exists k; by auto].
  destruct (encryption_file k) as [ek|] eqn:Ee; cbn [exists_file negb].
  - destruct want, (secret_file k) as [sk|] eqn:Es; cbn [exists_file negb andb]; try (exists k; by auto).
    destruct (drawn_pair d) as [[pub secret]|]; [|exists k; by auto].
    destruct (WriteKeyFile secretKeyPath _ _ _) as [[e|] f]; [by eexists; split; [by left|]; split_and!; [..|intros [?|?]]|].
    destruct (WriteKeyFile publicKeyPath _ _ _) as [[e|] f'];
      (eexists; split; [by auto|]; by split_and!; [..|intros [?|?]]).
  - destruct (WriteKeyFile encryptionKeyPath _ _ _) as [[e|] f]; cbn iota beta; [by eexists; split; [by left|]|].
    destruct want, (secret_file k) as [sk|] eqn:Es; cbn [secret_file exists_file negb andb];
      try (eexists; split; [by right|]; by auto).
    destruct (drawn_pair d) as [[pub secret]|]; [|by eexists; split; [by left|]; split_and!; [..|intros [?|?]]].
    destruct (WriteKeyFile secretKeyPath _ _ _) as [[e|] f1]; [by eexists; split; [by left|]; split_and!; [..|intros [?|?]]|].
    destruct (WriteKeyFile publicKeyPath _ _ _) as [[e|] f'];
      (eexists; split; [by auto|]; by split_and!; [..|intros [?|?]]).
Qed.

(** [derive_public] completes a pair. *)
Lemma derive_public_pairs d k secret : derived_write d = Written -> LoadSecretKey k = inr secret ->
  public_file k = None \/ LoadPublicKey k = inr (public_of secret) ->
  LoadPublicKey (derive_public d k) = inr (public_of secret).
Proof.
  intros Hw Hs Hp. pose proof (ReadKeyFile_ok _ _ _ _ Hs) as (Hl & Hb & Hf).
  unfold derive_public. destruct (public_file k) eqn:E; cbn [exists_file negb andb]; [by destruct Hp|].
  destruct (secret_file k) eqn:Es; [cbn [exists_file]|done]. unfold LoadSecretKey in Hs. rewrite Es in Hs. rewrite Hs, Hw.
  destruct (public_of_shape secret Hl Hb) as [Hl' Hb']. by apply ReadKeyFile_write.
Qed.

Lemma EnsureExists_ready want d k : sodium_ok = true -> draws_ok d -> writes_ok d -> keys_ok k ->
  let '(r, k') := EnsureExists want d k in
  (exists generated, r = inr generated) /\ (exists key, LoadEncryptionKey k' = inr key) /\
  (want = true -> exists secret, LoadSecretKey k' = inr secret /\ LoadPublicKey k' = inr (public_of secret)).
Proof.
  intros Hso (Hbk & Hlk & Hpair) (W1 & W2 & W3 & W4) [He Hs]. unfold EnsureExists. rewrite Hso, W1, W2, W3. cbn [negb].
  assert (exists k0, (if negb (exists_file (encryption_file k)) then
      let '(e, file) := WriteKeyFile encryptionKeyPath Written (drawn_key d) (encryption_file k) in (e, mkKeys file (public_file k) (secret_file k))
    else (None, k)) = (None, k0) /\ (exists key, LoadEncryptionKey k0 = inr key) /\ public_file k0 = public_file k /\ secret_file k0 = secret_file k)
    as (k0 & -> & Hek & Hp0 & Hs0).
  { unfold LoadEncryptionKey in *. destruct (encryption_file k) as [f|] eqn:E; cbn [exists_file negb].
    - exists k. split_and!; try done. rewrite E. by destruct He.
    - eexists. split; [reflexivity|]. cbn [encryption_file public_file secret_file WriteKeyFile snd]. split_and!; try done.
      exists (drawn_key d). by apply ReadKeyFile_write. }
  unfold LoadSecretKey, LoadPublicKey in Hs. rewrite <- Hp0, <- Hs0 in Hs.
  unfold LoadEncryptionKey. destruct (secret_file k0) as [f|] eqn:Ef; cbn [exists_file negb]; [rewrite andb_false_r|destruct want; cbn [andb]].
  - destruct Hs as [?|(secret & Hsk & Hpk)]; [done|]. rewrite <- Ef in Hsk. destruct (derive_public_keeps d k0) as (D1 & D2 & _).
    rewrite D1. split_and!; [by eexists|done|]. intros _. exists secret. split; [unfold LoadSecretKey; by rewrite D2|].
    by apply derive_public_pairs.
  - destruct (drawn_pair d) as [[pub secret]|]; [|done]. destruct Hpair as (-> & Hbs & Hls). cbn [WriteKeyFile].
    set (k1 := mkKeys _ _ _). destruct (derive_public_keeps d k1) as (D1 & D2 & _). destruct (public_of_shape secret Hls Hbs) as [Hl' Hb'].
    assert (LoadSecretKey k1 = inr secret) as Hsk by (by apply ReadKeyFile_write).
    rewrite D1. split_and!; [by eexists|done|]. intros _. exists secret. split; [unfold LoadSecretKey; by rewrite D2|].
    apply derive_public_pairs; [done..|]. right. by apply ReadKeyFile_write.
  - destruct (derive_public_keeps d k0) as (D1 & _). rewrite D1. by split_and!; [eexists|..].
Qed.

(** Whatever is drawn and whatever becomes of the writes, the key files of
    an installation are made once: an encryption key and a secret key that are
    there are not touched, the public key only together with a new secret one.
    When the writes reach the disk the call succeeds: the encryption key then
    loads, and on a machine that builds packages the two halves of the signing
    key load and belong together, also after a start that was cut short between
    the two files. *)
Theorem keys_are_made_once want d k :
  let '(r, k') := EnsureExists want d k in
  (encryption_file k <> None -> encryption_file k' = encryption_file k) /\
  (secret_file k <> None -> secret_file k' = secret_file k) /\
  (public_file k <> None -> want = false \/ secret_file k <> None -> public_file k' = public_file k) /\
  (sodium_ok = true -> draws_ok d -> writes_ok d -> keys_ok k ->
   (exists generated, r = inr generated) /\ (exists key, LoadEncryptionKey k' = inr key) /\
   (want = true -> exists secret, LoadSecretKey k' = inr secret /\ LoadPublicKey k' = inr (public_of secret))).
Proof.
  pose proof (EnsureExists_cases want d k) as H. destruct (EnsureExists want d k) as [r k'] eqn:E.
  destruct H as (k1 & Hk & H1 & H2 & H3). destruct (derive_public_keeps d k1) as (D1 & D2 & D3).
  split; [destruct Hk as [-> | ->]; intros; rewrite ?D1; auto|].
  split; [destruct Hk as [-> | ->]; intros; rewrite ?D2; auto|].
  split; [intros Hp Hw; destruct Hk as [-> | ->]; rewrite ?D3; rewrite (H3 Hw); auto|].
  intros. pose proof (EnsureExists_ready want d k) as HR. rewrite E in HR. by apply HR.
Qed.
End PackageKeys.

(** ** Concrete installations *)

#[local] Existing Instance toy_crypto.
#[local] Existing Instance toy_sodium.

Definition fresh_draws : KeyDraws :=
  mkKeyDraws (replicate kKeyBytes 5) (Some (replicate kPublicKeyBytes 9, replicate kSecretKeyBytes 9)) Written Written Written Written.

Lemma keys_are_made_once_witness :
  exists k', EnsureExists "e" "p" "s" true fresh_draws (mkKeys None None None) = (inr true, k') /\
    exists secret, LoadSecretKey "s" k' = inr secret /\ LoadPublicKey "p" k' = inr (public_of secret).
Proof.
  destruct (EnsureExists "e" "p" "s" true fresh_draws (mkKeys None None None)) as [r k'] eqn:E.
  pose proof (keys_are_made_once "e" "p" "s" true fresh_draws (mkKeys None None None)) as H. rewrite E in H.
  destruct H as (_ & _ & _ & H). exists k'.
  assert (r = inr true) as Hr by (change r with (r, k').1; rewrite <- E; vm_compute; reflexivity). split; [by rewrite Hr|].
  refine (proj2 (proj2 (H _ _ _ _)) _); [done| |done|by split; left|done].
  split; [|split]; [|done|split; [done|split; [|done]]]; unfold byte_ok; by apply Forall_replicate.
Defined.

(** A gateway that was given only the public half of a key, and is then told to
    make a signing key, loses the public key it was given. *)
Example provisioned_public_key_replaced :
  let k := mkKeys (Some (ToHex (replicate kKeyBytes 5))) (Some (ToHex (replicate kPublicKeyBytes 1))) None in
  let k' := (EnsureExists "e" "p" "s" true fresh_draws k).2 in
  (LoadPublicKey "p" k, LoadPublicKey "p" k') = (inr (replicate kPublicKeyBytes 1), inr (replicate kPublicKeyBytes 9)).
Proof. vm_compute. reflexivity. Qed.

(** A public key that reached the disk in part is never written again. *)
Example cut_public_key_stays :
  let cut := mkKeyDraws (replicate kKeyBytes 5) (Some (replicate kPublicKeyBytes 9, replicate kSecretKeyBytes 9)) Written Written (CutShort 10) Written in
  let k := (EnsureExists "e" "p" "s" true cut (mkKeys None None None)).2 in
  let '(r, k') := EnsureExists "e" "p" "s" true fresh_draws k in
  (r, LoadPublicKey "p" k') = (inr false, inl "key file p holds 5 bytes, expected 32"%string).
Proof. vm_compute. reflexivity. Qed.
