(* ===== verification/PackageManager.v ===== *)
(** * Deployed packages (src/lua_package/PackageManager.cpp)

    The package directory, the state file in it that names the deployed
    package, the one to roll back to and those that start at boot, and the
    operations on them.  A method is a program over the disk ([Threads]): what
    it does under the manager's mutex is one action, and so is each look at
    the files it takes without it.  A path text that is not a plain name is
    resolved by the operating system ([outside]); directories and temporary
    files are not modelled, nor is the order of the listing.  [inl] is a
    returned error, [Err] an exception. *)

From stdpp Require Import relations.
From S2P Require Import Prelude Threads Words Text Json JsonFile WebReply Version Sha256 Validation PasswordHash LuaBundle LuaPackage PackageKeys.

Abbreviation reply A := (string + A)%type.

(** ** File names *)

(** [fs::path::filename], [stem] and [extension]. *)
Definition filename (path : list Z) : list Z := rev (until 47 (rev path)).1.

Definition split_extension (name : list Z) : list Z * list Z :=
  if bool_decide (name = b! ".") || bool_decide (name = b! "..") then (name, [])
  else match until 46 (rev name) with
       | (_, []) => (name, [])
       | (_, [_]) => (name, [])
       | (ext, _ :: front) => (rev front, 46 :: rev ext)
       end.
Definition stem (path : list Z) : list Z := (split_extension (filename path)).1.
Definition extension (path : list Z) : list Z := (split_extension (filename path)).2.

Definition SafeComponent (text : list Z) : bool :=
  match text with
  | [] => false
  | front :: _ =>
      (length text <=? 64)%nat && forallb (fun c => is_alnum c || (c =? 46) || (c =? 45) || (c =? 95)) text &&
      negb (bool_decide (text = b! ".")) && negb (bool_decide (text = b! "..")) && negb (front =? 45) && negb (front =? 46)
  end.

Definition package_name (file : string) : bool :=
  SafeComponent (stem (bytes_of file)) && bool_decide (extension (bytes_of file) = b! ".pkg").

(** A name without a separator. *)
Definition simple_name (file : string) : bool := bool_decide (filename (bytes_of file) = bytes_of file) && negb (String.eqb file "").

(** ** The disk *)

Inductive place := Managed (name : string) | Elsewhere (path : string).

Record Disk := mkDisk { managed : gmap string (list Z); elsewhere : gmap string (list Z); keys : KeyFiles }.

Definition state_name : string := "state.json".

(** ** The state file *)

Record State {J : JsonLib} := mkState { active : string; previous : string; running : list string; history : list json }.
Arguments mkState {J} _ _ _ _.

Record Entry := mkEntry {
  e_file : string; e_metadata : Metadata; size_bytes : Z; is_active : bool; is_previous : bool; run_on_startup : bool
}.

(** [std::find], and the erasures of all and of the first. *)
Definition listed (file : string) (l : list string) : bool := existsb (String.eqb file) l.
Definition erase_all (file : string) (l : list string) : list string := List.filter (fun x => negb (String.eqb x file)) l.
Fixpoint erase_first (file : string) (l : list string) : list string :=
  match l with
  | [] => []
  | x :: l => if String.eqb x file then l else x :: erase_first file l
  end.

(** [push_back] unless it is there. *)
Definition push (f : string) (l : list string) : list string := if listed f l then l else l ++ [f].

Section PackageManager.
Context {J : JsonLib} {T : MqEnvelope.JsonText} {F : JsonFiles} {L : Sodium} {K : PackageCrypto}.
Variable RuntimeTag : string.
(** The key files' paths, for messages. *)
Variables encryptionKeyPath publicKeyPath : string.
(** Where a path text with separators leads, from the package directory. *)
Variable outside : string -> option place.

Definition PackagePath (file : string) : option place := if simple_name file then Some (Managed file) else outside file.

Definition ReadWholeFile (file : string) (d : Disk) : option (list Z) :=
  match PackagePath file with
  | Some (Managed name) => managed d !! name
  | Some (Elsewhere path) => elsewhere d !! path
  | None => None
  end.

(** Written to a temporary file that is renamed: all or nothing. *)
Definition WriteWholeFile (file : string) (wrote : bool) (data : list Z) (d : Disk) : bool * Disk :=
  match PackagePath file with
  | Some (Managed name) => if wrote then (true, mkDisk (<[name := data]> (managed d)) (elsewhere d) (keys d)) else (false, d)
  | Some (Elsewhere path) => if wrote then (true, mkDisk (managed d) (<[path := data]> (elsewhere d)) (keys d)) else (false, d)
  | None => (false, d)
  end.

Definition remove_file (file : string) (d : Disk) : bool * Disk :=
  match PackagePath file with
  | Some (Managed name) =>
      match managed d !! name with Some _ => (true, mkDisk (delete name (managed d)) (elsewhere d) (keys d)) | None => (false, d) end
  | Some (Elsewhere path) =>
      match elsewhere d !! path with Some _ => (true, mkDisk (managed d) (delete path (elsewhere d)) (keys d)) | None => (false, d) end
  | None => (false, d)
  end.

Definition empty_state : State := mkState "" "" [] [].

(** The fields that were read before an exception stay. *)
Definition state_of (root : json) : State :=
  match value_string root "active" "" with
  | None => empty_state
  | Some active =>
      match value_string root "previous" "" with
      | None => mkState active "" [] []
      | Some previous =>
          let array := fun key : string => match view root with
            | JObject l => match Json.member l key with
                           | Some x => match view x with JArray items => Some items | _ => None end
                           | None => None
                           end
            | _ => None
            end in
          mkState active previous
            (match array "running"%string with
             | Some items => omap (fun item => match view item with JString s => Some s | _ => None end) items
             | None => if String.eqb active "" then [] else [active]
             end)
            (match array "history"%string with Some items => items | None => [] end)
      end
  end.

Definition ReadState (d : Disk) : State :=
  match managed d !! state_name with
  | None => empty_state
  | Some bs => match read_json bs with Some root => state_of root | None => empty_state end
  end.

Definition state_document (s : State) : json :=
  object [("active"%string, jstring (active s)); ("previous"%string, jstring (previous s));
          ("running"%string, jlist (map jstring (running s))); ("history"%string, jlist (history s))].

Definition WriteState (outcome : write_outcome) (s : State) (d : Disk) : res (bool * Disk) :=
  match outcome with
  | NotOpened => Ok (false, d)
  | _ =>
      match dump_json (state_document s) with
      | None => Err "type_error"
      | Some bs => Ok (match outcome with
                       | Written => (true, mkDisk (<[state_name := bs]> (managed d)) (elsewhere d) (keys d))
                       | _ => (false, d)
                       end)
      end
  end.

Definition kHistory : nat := 100.

Definition RecordHistory (now : string) (s : State) (action file byUser : string) : State :=
  let history' := history s ++ [object [("at"%string, jstring now); ("action"%string, jstring action); ("package"%string, jstring file);
                                        ("by"%string, jtext (SanitiseForLog (bytes_of byUser) 64))]] in
  mkState (active s) (previous s) (running s) (drop (length history' - kHistory) history').

(** ** Reading packages *)

Definition load_keys (k : KeyFiles) : reply (list Z * list Z) :=
  match LoadEncryptionKey encryptionKeyPath k with
  | inl e => inl e
  | inr encryptionKey =>
      match LoadPublicKey publicKeyPath k with
      | inl e => inl e
      | inr publicKey => inr (encryptionKey, publicKey)
      end
  end.

Definition open_with (k : KeyFiles) (bytes : list Z) : res (reply OpenResult) :=
  match load_keys k with
  | inl e => Ok (inl e)
  | inr (encryptionKey, publicKey) =>
      opened ← Open RuntimeTag bytes encryptionKey publicKey;
      Ok (if o_ok opened then inr opened else inl (o_error opened))
  end.

Definition OpenBundle (file : string) (d : Disk) : res (reply (LuaBundle * Metadata)) :=
  if String.eqb file "" then Ok (inl "no package specified"%string)
  else if negb (bool_decide (filename (bytes_of file) = bytes_of file)) then Ok (inl "not a package filename"%string)
  else match ReadWholeFile file d with
  | None => Ok (inl ("cannot read " ++ file)%string)
  | Some bytes =>
      opened ← open_with (keys d) bytes;
      match opened with
      | inl e => Ok (inl e)
      | inr opened =>
          match LuaBundle.Parse (o_bytecode opened) with
          | Ok bundle => Ok (inr (bundle, o_metadata opened))
          | Err e => Ok (inl e)
          | Fault => Fault
          end
      end
  end.

Definition entry_of (s : State) (name : string) (bytes : list Z) : res Entry :=
  peeked ← PeekMetadata bytes;
  Ok (mkEntry name (match peeked with inr m => m | inl _ => no_metadata end) (Z.of_nat (length bytes))
        (String.eqb name (active s)) (String.eqb name (previous s)) (listed name (running s))).

(** The packages of the directory, in some order. *)
Definition List_ (d : Disk) : res (list Entry) :=
  let s := ReadState d in
  mapM (fun f => entry_of s f.1 f.2)
    (List.filter (fun f => bool_decide (extension (bytes_of f.1) = b! ".pkg")) (map_to_list (managed d))).

(** ** The methods *)

Abbreviation method A := (prog Disk (reply A)).

(** A look at the disk, and a critical section. *)
Definition look {R} (f : Disk -> res R) : prog Disk R := Act always (fun d => r ← f d; Ok (r, d)) Ret.
Definition locked {R} (f : Disk -> res (R * Disk)) : prog Disk R := Act always f Ret.
Definition fails {A} (error : string) : method A := mret (inl error).

Definition Import (file : string) (bytes : list Z) (wrote : bool) : method unit :=
  if negb (package_name file) then fails "not a package filename"
  else
    opened ← look (fun d => open_with (keys d) bytes);
    match opened with
    | inl e => fails e
    | inr _ =>
        saved ← locked (fun d => Ok (WriteWholeFile file wrote bytes d));
        mret (if (saved : bool) then inr tt else inl "could not save imported package"%string)
    end.

(** What the file system says of the path: [None] when it is not a regular
    file; the canonical name, the size, and the contents when they could be
    opened, [None] inside for a read error. *)
Definition kMaxPackageBytes : Z := 64 * 1024 * 1024.
Definition ImportFromPath (source : option (string * option Z * option (option (list Z)))) (wrote : bool) : method string :=
  match source with
  | None => fails "package path does not point to a regular file"
  | Some (name, size, contents) =>
      if negb (package_name name) then fails "package path must name a safe .pkg file"
      else match size with
      | None => fails "package is missing or larger than 64 MB"
      | Some size =>
          if kMaxPackageBytes <? size then fails "package is missing or larger than 64 MB"
          else match contents with
          | None => fails "cannot read package path"
          | Some None => fails "could not read package path"
          | Some (Some contents) =>
              let n := Z.to_nat size in
              r ← Import name (take n contents ++ replicate (n - length contents) 0) wrote;
              mret (match r with inl e => inl e | inr _ => inr name end)
          end
      end
  end.

Definition Remove (file : string) : method unit :=
  locked (fun d => Ok (
    if negb (package_name file) then (inl "not a package filename"%string, d)
    else
      let s := ReadState d in
      if String.eqb file (active s) then (inl "that package is currently deployed"%string, d)
      else if String.eqb file (previous s) then (inl "that package is the rollback target"%string, d)
      else if listed file (running s) then (inl "that package is configured to run on startup; stop it first"%string, d)
      else let '(removed, d') := remove_file file d in
           (if removed then inr tt else inl "could not delete the package"%string, d'))).

Definition ActiveFile : prog Disk string := locked (fun d => Ok (active (ReadState d), d)).
Definition PreviousFile : prog Disk string := locked (fun d => Ok (previous (ReadState d), d)).
Definition RunningFiles : prog Disk (list string) := locked (fun d => Ok (running (ReadState d), d)).
Definition HasActive : prog Disk bool := file ← ActiveFile; mret (negb (String.eqb file "")).

(** The state after a deployment, before it is recorded. *)
Definition deployed (s : State) (file outgoingAppId appId : string) : State :=
  let outgoing := active s in
  let sameApplication := negb (String.eqb outgoing "") && String.eqb outgoingAppId appId in
  let replaceRunning := sameApplication && listed outgoing (running s) in
  let kept := if sameApplication then erase_all outgoing (running s) else running s in
  mkState file
    (if String.eqb outgoing file then previous s else if sameApplication then outgoing else EmptyString)
    (if String.eqb outgoing "" || negb sameApplication || replaceRunning
     then push file kept
     else running s)
    (history s).

Definition Deploy (file byUser now : string) (w : write_outcome) : method unit :=
  opened ← look (OpenBundle file);
  match opened with
  | inl e => fails e
  | inr (_, metadata) =>
      currentActive ← ActiveFile;
      outgoingAppId ←
        (if negb (String.eqb currentActive "") && negb (String.eqb currentActive file) then
           outgoing ← look (OpenBundle currentActive);
           mret (match outgoing with inr (_, m) => app_id m | inl _ => EmptyString end)
         else mret EmptyString);
      locked (fun d =>
        let s := RecordHistory now (deployed (ReadState d) file outgoingAppId (app_id metadata)) "deploy" file byUser in
        '(saved, d') ← WriteState w s d;
        Ok (if (saved : bool) then inr tt else inl "could not record the deployment"%string, d'))
  end.

Definition rolled_back (s : State) : State :=
  let outgoing := active s in
  let kept := erase_all outgoing (running s) in
  mkState (previous s) outgoing
    (if listed outgoing (running s) then push (previous s) kept else running s)
    (history s).

Definition Rollback (byUser now : string) (w : write_outcome) : method string :=
  target ← locked (fun d => Ok (previous (ReadState d), d));
  if String.eqb target "" then fails "there is no previous package to roll back to"
  else
    opened ← look (OpenBundle target);
    match opened with
    | inl e => fails ("the previous package cannot be opened: " ++ e)
    | inr _ =>
        locked (fun d =>
          if negb (String.eqb (previous (ReadState d)) target)
          then Ok (inl "the rollback target changed while it was being verified; try again"%string, d)
          else
            let s := rolled_back (ReadState d) in
            '(saved, d') ← WriteState w (RecordHistory now s "rollback" (active s) byUser) d;
            Ok (if (saved : bool) then inr (active s) else inl "could not record the rollback"%string, d'))
    end.

(** The other versions of the application are taken out of [running]. *)
Definition exclusive (file appId : string) (known : list Entry) (l : list string) : list string :=
  foldl (fun l e => if negb (String.eqb (e_file e) file) && String.eqb (app_id (e_metadata e)) appId
                    then erase_all (e_file e) l else l) l known.

Definition with_running (s : State) (file : string) (enabled : bool) (appId : string) (known : list Entry) : State :=
  let l := if enabled then exclusive file appId known (running s) else running s in
  mkState (active s) (previous s)
    (if enabled then push file l else erase_first file l) (history s).

Definition SetRunOnStartup (file : string) (enabled : bool) (byUser now : string) (w : write_outcome) : method unit :=
  found ← (if enabled then
             opened ← look (OpenBundle file);
             match opened with
             | inl e => mret (inl e)
             | inr (_, metadata) => known ← look List_; mret (inr (app_id metadata, known))
             end
           else mret (inr (EmptyString, [])) : method (string * list Entry));
  match found with
  | inl e => fails e
  | inr (appId, known) =>
      locked (fun d =>
        let s := RecordHistory now (with_running (ReadState d) file enabled appId known) (if enabled then "run" else "stop") file byUser in
        '(saved, d') ← WriteState w s d;
        Ok (if (saved : bool) then inr tt else inl "could not save package startup state"%string, d'))
  end.

Definition ClearActive (byUser now : string) (w : write_outcome) : method unit :=
  locked (fun d =>
    let s := ReadState d in
    if String.eqb (active s) "" then Ok (inl "nothing is deployed"%string, d)
    else
      let s' := RecordHistory now (mkState EmptyString (active s) (running s) (history s)) "undeploy" (active s) byUser in
      '(saved, d') ← WriteState w s' d;
      Ok (if (saved : bool) then inr tt else inl "could not record the change"%string, d')).

(** ** Starting what is deployed (src/main.cpp, src/WebServer.cpp) *)

(** [start] is [LuaRuntimeManager::StartPackage]: whether it started. *)
Definition start_bundle (start : string -> list (list Z * list Z) -> list Z -> bool) (file : string) (bundle : LuaBundle) : bool :=
  match EntryBytecode bundle with
  | Some entry => start file (map (fun m => (m_name m, m_code m)) (modules bundle)) entry
  | None => false
  end.

(** The packages of [running], each with whether it was started. *)
Fixpoint boot_packages (start : string -> list (list Z * list Z) -> list Z -> bool) (d : Disk) (files : list string) : res (list (string * bool)) :=
  match files with
  | [] => Ok []
  | file :: files =>
      opened ← OpenBundle file d;
      rest ← boot_packages start d files;
      Ok ((file, match opened with inr (bundle, _) => start_bundle start file bundle | inl _ => false end) :: rest)
  end.

(** What boot starts, and the script it falls back to. *)
Definition boot (start : string -> list (list Z * list Z) -> list Z -> bool) (script_path : string) (d : Disk)
  : res (list (string * bool) * option string) :=
  started ← boot_packages start d (running (ReadState d));
  Ok (started, if negb (existsb snd started) && String.eqb (active (ReadState d)) "" && negb (String.eqb script_path "")
               then Some script_path else None).

(** The runtimes that are stopped, and whether the package started. *)
Definition StartPackageFile (start : string -> list (list Z * list Z) -> list Z -> bool) (statuses : list string) (file : string) (d : Disk)
  : res (reply (list string * bool)) :=
  if String.eqb file "" then Ok (inl "package file is required"%string)
  else
    opened ← OpenBundle file d;
    match opened with
    | inl e => Ok (inl e)
    | inr (bundle, metadata) =>
        match EntryBytecode bundle with
        | None => Ok (inl "the package has no entry module"%string)
        | Some _ =>
            known ← List_ d;
            let same := fun name => existsb (fun e => String.eqb (e_file e) name && String.eqb (app_id (e_metadata e)) (app_id metadata)) known in
            Ok (inr (List.filter same statuses, start_bundle start file bundle))
        end
    end.

Definition StatusJson (package_dir : string) (d : Disk) : res json :=
  entries ← List_ d;
  let s := ReadState d in
  fingerprint ← PublicKeyFingerprint publicKeyPath (keys d);
  Ok (object [("packages"%string, jlist (map (fun e => object (meta_fields (e_metadata e) ++
                [("file"%string, jstring (e_file e)); ("size_bytes"%string, jint (size_bytes e)); ("active"%string, jbool (is_active e));
                 ("previous"%string, jbool (is_previous e)); ("run_on_startup"%string, jbool (run_on_startup e))])) entries));
              ("active"%string, jstring (active s)); ("previous"%string, jstring (previous s));
              ("running"%string, jlist (map jstring (running s))); ("history"%string, jlist (history s));
              ("runtime_tag"%string, jstring RuntimeTag); ("can_build"%string, jbool (HasSigningKey (keys d)));
              ("signing_key"%string, jtext fingerprint); ("package_dir"%string, jstring package_dir)]).

(** ** The state file is read back as written *)

Definition plain_history (s : State) : Prop := Forall plain (history s).

Lemma plain_document s : plain_history s -> plain (state_document s).
Proof.
  intros H. apply plain_object; [cbn; by apply (bool_decide_unpack _)|].
  repeat (apply Forall_cons; split; [cbn [snd]|]); [apply plain_string..|apply plain_strings|by apply plain_array|constructor].
Qed.

Lemma strings_read r : omap (fun item => match view item with JString s => Some s | _ => None end) (map jstring r) = r.
Proof. induction r as [|x r IH]; [done|]. cbn. unfold jstring at 1. rewrite view_inject by done. by rewrite IH. Qed.

Lemma state_of_document s : state_of (state_document s) = s.
Proof.
  unfold state_of, state_document, object. set (l := [_; _; _; _]).
  assert (NoDup l.*1) as Hnd by (cbn; by apply (bool_decide_unpack _)).
  rewrite (value_string_object l "active" "" (active s)), (value_string_object l "previous" "" (previous s)) by done.
  destruct (view_object l Hnd) as (l' & Hv & Hp). rewrite Hv.
  rewrite <- !(member_perm l l') by (done || by rewrite Hp). cbn [Json.member l List.find fst snd String.eqb Ascii.eqb Bool.eqb fmap option_fmap option_map].
  unfold Json.member. cbn -[jlist omap]. unfold jlist. rewrite !view_array. destruct s as [a p r h]. cbn. f_equal.
  apply strings_read.
Qed.

Lemma WriteState_cases w s d b d' : plain_history s -> WriteState w s d = Ok (b, d') ->
  (b = false /\ d' = d) \/
  (b = true /\ w = Written /\ ReadState d' = s /\ keys d' = keys d /\ elsewhere d' = elsewhere d /\
   forall f, f <> state_name -> managed d' !! f = managed d !! f).
Proof.
  intros Hp H. unfold WriteState in H. destruct w as [| |n]; [|injection H as <- <-; by left|].
  - destruct (dump_json _) as [bs|] eqn:E; [|done]. injection H as <- <-. right. split_and!; try done.
    + unfold ReadState. cbn [managed]. rewrite lookup_insert_eq, (read_dump _ _ (plain_document s Hp) E). apply state_of_document.
    + intros f Hf. cbn [managed]. by rewrite lookup_insert_ne.
  - destruct (dump_json _); [|done]. injection H as <- <-. by left.
Qed.

(** ** What the manager keeps true *)

(** Bytes that open under the installation's keys. *)
Definition genuine (k : KeyFiles) (bytes : list Z) : Prop := exists o, open_with k bytes = Ok (inr o).

(** A file of the package directory that may be run. *)
Definition available (d : Disk) (f : string) : Prop :=
  simple_name f = true /\ package_name f = true /\ exists bytes, managed d !! f = Some bytes /\ genuine (keys d) bytes.

Definition state_ok (d : Disk) (s : State) : Prop :=
  (active s = EmptyString \/ available d (active s)) /\ (previous s = EmptyString \/ available d (previous s)) /\
  Forall (available d) (running s) /\ NoDup (running s) /\ plain_history s.

Definition site_ok (d : Disk) : Prop := state_ok d (ReadState d) /\ (length (history (ReadState d)) <= kHistory)%nat.

Lemma available_keep d d' f : keys d' = keys d -> (forall f, f <> state_name -> managed d' !! f = managed d !! f) ->
  available d f -> available d' f.
Proof.
  intros Hk Hm (H1 & H2 & bytes & H3 & H4). split_and!; [done|done|]. exists bytes. rewrite Hk, Hm; [done|].
  intros ->. by vm_compute in H2.
Qed.

Lemma available_insert d d' name bytes f : keys d' = keys d -> managed d' = <[name := bytes]> (managed d) ->
  genuine (keys d) bytes -> available d f -> available d' f.
Proof.
  intros Hk Hm Hg (H1 & H2 & bytes' & H3 & H4). split_and!; [done|done|]. rewrite Hk, Hm.
  destruct (decide (f = name)) as [->|]; [exists bytes; by rewrite lookup_insert_eq|exists bytes'; by rewrite lookup_insert_ne].
Qed.

Lemma available_delete d d' name f : keys d' = keys d -> managed d' = delete name (managed d) -> f <> name ->
  available d f -> available d' f.
Proof.
  intros Hk Hm Hn (H1 & H2 & bytes' & H3 & H4). split_and!; [done|done|]. exists bytes'. by rewrite Hk, Hm, lookup_delete_ne.
Qed.

Lemma available_nonempty d f : available d f -> f <> EmptyString.
Proof. by intros (H & _) ->. Qed.

Lemma state_ok_mono d d' s : (forall f, f ∈ active s :: previous s :: running s -> available d f -> available d' f) ->
  state_ok d s -> state_ok d' s.
Proof.
  intros Hm (Ha & Hp & Hr & Hn & Hh). split_and!; [destruct Ha; [by left|right]; apply Hm; set_solver| |
    |done|done].
  - destruct Hp; [by left|right]. apply Hm; set_solver.
  - rewrite Forall_forall in *. intros f Hf. apply Hm; [set_solver|by apply Hr].
Qed.

Lemma RecordHistory_ok now d s action f user : state_ok d s ->
  state_ok d (RecordHistory now s action f user) /\ (length (history (RecordHistory now s action f user)) <= kHistory)%nat.
Proof.
  intros (Ha & Hp & Hr & Hn & Hh). unfold RecordHistory. cbn zeta. split.
  - split_and!; try done. unfold plain_history. cbn [history]. apply Forall_drop, Forall_app. split; [done|].
    apply Forall_singleton, plain_object; [cbn; by apply (bool_decide_unpack _)|].
    repeat (apply Forall_cons; split; [apply plain_string|]). constructor.
  - cbn [history]. rewrite length_drop. lia.
Qed.

(** Recording a state in which everything is available. *)
Lemma recorded now w s action f user d b d' : site_ok d -> state_ok d s ->
  WriteState w (RecordHistory now s action f user) d = Ok (b, d') -> site_ok d'.
Proof.
  intros Hl Hs H. destruct (RecordHistory_ok now d s action f user Hs) as [Hs' Hlen].
  destruct (WriteState_cases _ _ _ _ _ ltac:(apply Hs') H) as [[_ ->]|(_ & _ & Hr & Hk & _ & Hm)]; [done|].
  split; rewrite Hr; [|done]. apply (state_ok_mono d); [|done]. intros g _. by apply available_keep.
Qed.

Lemma OpenBundle_available d f r : package_name f = true -> OpenBundle f d = Ok (inr r) -> available d f.
Proof.
  intros Hn H. unfold OpenBundle in H. destruct (String.eqb_spec f ""); [done|]. destruct (bool_decide_reflect (filename (bytes_of f) = bytes_of f)) as [Hs|]; [|done].
  cbn [negb] in H. assert (simple_name f = true) as Hsn.
  { unfold simple_name. rewrite bool_decide_true by done. by destruct (String.eqb_spec f ""). }
  unfold ReadWholeFile, PackagePath in H. rewrite Hsn in H. destruct (managed d !! f) as [bytes|] eqn:E; [|done].
  destruct (open_with (keys d) bytes) as [[e|o]| |] eqn:Eo; cbn [mbind res_bind] in H; try done.
  split_and!; [done|done|]. exists bytes. split; [done|by exists o].
Qed.

(** ** Lists of names *)

Lemma listed_iff f l : listed f l = true <-> f ∈ l.
Proof.
  unfold listed. rewrite existsb_exists. split; [intros (x & Hx & E); apply String.eqb_eq in E as ->; by apply list_elem_of_In|].
  intros H. exists f. split; [by apply list_elem_of_In|apply String.eqb_refl].
Qed.
Lemma elem_of_erase x f l : x ∈ erase_all f l <-> x ∈ l /\ x <> f.
Proof. unfold erase_all. rewrite elem_of_filter_bool, negb_true_iff, String.eqb_neq. tauto. Qed.
Lemma NoDup_erase f l : NoDup l -> NoDup (erase_all f l).
Proof. intros H. pose proof (NoDup_map_filter (fun x => x) (fun x => negb (String.eqb x f)) l) as HN. rewrite !map_id in HN. by apply HN. Qed.
Lemma erase_first_Forall (P : string -> Prop) f l : Forall P l -> Forall P (erase_first f l).
Proof. induction 1 as [|x l Hx Hl IH]; [constructor|]. cbn. destruct (String.eqb x f); [done|by constructor]. Qed.
Lemma erase_first_NoDup f l : NoDup l -> NoDup (erase_first f l).
Proof.
  induction 1 as [|x l Hx Hl IH]; [constructor|]. cbn. destruct (String.eqb x f); [done|]. constructor; [|done].
  intros Hin. apply Hx. clear -Hin. induction l as [|y l IH]; [done|]. cbn in Hin.
  destruct (String.eqb y f); set_solver.
Qed.

(** A list with the name at its end, unless it is there. *)
Lemma push_Forall (P : string -> Prop) f l : P f -> Forall P l -> Forall P (push f l).
Proof. intros Hf Hl. unfold push. destruct (listed f l); [done|]. apply Forall_app. by split; [|apply Forall_singleton]. Qed.
Lemma push_NoDup f l : NoDup l -> NoDup (push f l).
Proof.
  intros Hn. unfold push. destruct (listed f l) eqn:E; [done|]. apply NoDup_app. split_and!; [done| |apply NoDup_singleton].
  intros x Hx ->%list_elem_of_singleton. apply not_true_iff_false in E. by rewrite listed_iff in E.
Qed.

Lemma Forall_erase (P : string -> Prop) f l : Forall P l -> Forall P (erase_all f l).
Proof. apply Forall_filter_bool. Qed.

Lemma exclusive_ok (P : string -> Prop) f appId known : forall l, Forall P l -> NoDup l ->
  Forall P (exclusive f appId known l) /\ NoDup (exclusive f appId known l).
Proof.
  unfold exclusive. induction known as [|e known IH]; intros l HP Hn; cbn [foldl]; [done|].
  apply IH; destruct (_ && _); try done; [by apply Forall_erase|by apply NoDup_erase].
Qed.

(** ** Every operation keeps it *)

(** A path text that leads into the package directory names a file of it by
    its last component: there are no symbolic links. *)
Hypothesis outside_name : forall f n, outside f = Some (Managed n) -> bytes_of n = filename (bytes_of f).

Lemma filename_idem p : filename (filename p) = filename p.
Proof.
  unfold filename. rewrite rev_involutive. f_equal. pose proof (until_shape 47 (rev p)) as H.
  destruct (until 47 (rev p)) as [a c]. destruct H as (_ & Ha & _). cbn [fst].
  pose proof (until_unique 47 a [] Ha ltac:(by left)) as Hu. rewrite app_nil_r in Hu. by rewrite Hu.
Qed.

Lemma package_name_place f n : package_name f = true -> PackagePath f = Some (Managed n) -> package_name n = true.
Proof.
  unfold PackagePath. destruct (simple_name f); [by intros H [= <-]|]. intros H Hn%outside_name.
  unfold package_name, stem, extension in *. by rewrite Hn, filename_idem.
Qed.

Lemma same_state d d' : managed d' !! state_name = managed d !! state_name -> ReadState d' = ReadState d.
Proof. unfold ReadState. by intros ->. Qed.

Lemma live_change d d' : ReadState d' = ReadState d ->
  (forall f, f ∈ active (ReadState d) :: previous (ReadState d) :: running (ReadState d) -> available d f -> available d' f) ->
  site_ok d -> site_ok d'.
Proof. intros Hr Hm [H1 H2]. split; rewrite Hr; [|done]. by apply (state_ok_mono d). Qed.

Lemma not_state f : package_name f = true -> f <> state_name.
Proof. intros H ->. by vm_compute in H. Qed.

Lemma Import_keeps d f bytes wrote r d' : site_ok d -> run (Import f bytes wrote) d = Ok (r, d') -> site_ok d'.
Proof.
  intros Hl H. unfold Import in H. destruct (package_name f) eqn:Hn; cbn [negb] in H; [|by injection H as _ <-].
  rewrite run_bind in H. cbn in H. destruct (open_with (keys d) bytes) as [[e|o]| |] eqn:Eo; cbn in H; try done; [by injection H as _ <-|].
  unfold WriteWholeFile in H. destruct (PackagePath f) as [[n|path]|] eqn:Ep; [| |by injection H as _ <-].
  - pose proof (package_name_place f n Hn Ep) as Hn'. destruct wrote; [|by injection H as _ <-]. injection H as _ <-.
    apply (live_change d); [apply same_state; cbn; apply lookup_insert_ne; by apply not_state| |done].
    intros g _. apply (available_insert d _ n bytes); [done..|]. by exists o.
  - destruct wrote; [|by injection H as _ <-]. injection H as _ <-. by apply (live_change d).
Qed.

Lemma Remove_keeps d f r d' : simple_name f = true -> site_ok d -> run (Remove f) d = Ok (r, d') -> site_ok d'.
Proof.
  intros Hs Hl H. unfold Remove in H. cbn in H. destruct (package_name f) eqn:Hn; cbn in H; [|by injection H as _ <-].
  destruct (String.eqb_spec f (active (ReadState d))) as [|H1]; [by injection H as _ <-|].
  destruct (String.eqb_spec f (previous (ReadState d))) as [|H2]; [by injection H as _ <-|].
  destruct (listed f (running (ReadState d))) eqn:H3; [by injection H as _ <-|]. apply not_true_iff_false in H3. rewrite listed_iff in H3.
  unfold remove_file, PackagePath in H. rewrite Hs in H. destruct (managed d !! f); [|by injection H as _ <-]. injection H as _ <-.
  apply (live_change d); [apply same_state; cbn; apply lookup_delete_ne; by apply not_state| |done].
  intros g Hg. apply (available_delete d _ f); [done..|]. set_solver.
Qed.

(** What a method that records a state does to the disk. *)
Ltac record_step H :=
  match type of H with context [WriteState ?w ?s ?d] =>
    destruct (WriteState w s d) as [[? ?]| |] eqn:?Ew; cbn in H; try discriminate H; injection H as _ <- end.

Lemma deployed_ok d f outgoingAppId appId : available d f -> site_ok d -> state_ok d (deployed (ReadState d) f outgoingAppId appId).
Proof.
  intros Hf [(Ha & Hp & Hr & Hn & Hh) _]. unfold deployed. cbn zeta. split_and!; cbn [active previous running history]; try done; [by right| | |].
  - destruct (String.eqb _ f); [done|]. destruct (_ && _); [|by left]. done.
  - destruct (_ || _ || _); [|done]. apply push_Forall; [done|]. destruct (_ && _); [by apply Forall_erase|done].
  - destruct (_ || _ || _); [|done]. apply push_NoDup. destruct (_ && _); [by apply NoDup_erase|done].
Qed.

Lemma rolled_back_ok d : previous (ReadState d) <> EmptyString -> site_ok d -> state_ok d (rolled_back (ReadState d)).
Proof.
  intros Hne [(Ha & Hp & Hr & Hn & Hh) _]. destruct Hp as [|Hp]; [done|]. unfold rolled_back. cbn zeta.
  split_and!; cbn [active previous running history]; try done; [by right| |];
    (destruct (listed (active _) _); [|done]); [apply push_Forall; [done|by apply Forall_erase]|by apply push_NoDup, NoDup_erase].
Qed.

Lemma set_running_ok d f enabled appId known : (enabled = true -> available d f) -> site_ok d ->
  state_ok d (with_running (ReadState d) f enabled appId known).
Proof.
  intros Hf [(Ha & Hp & Hr & Hn & Hh) _]. unfold with_running. split_and!; cbn [active previous running history]; try done.
  - destruct enabled; [|by apply erase_first_Forall]. destruct (exclusive_ok (available d) f appId known _ Hr Hn). by apply push_Forall; [apply Hf|].
  - destruct enabled; [|by apply erase_first_NoDup]. destruct (exclusive_ok (available d) f appId known _ Hr Hn). by apply push_NoDup.
Qed.

Lemma run_look {A R} (f : Disk -> res R) (k : R -> prog Disk A) d : run (look f ≫= k) d = (r ← f d; run (k r) d).
Proof. cbn. by destruct (f d). Qed.
Lemma run_locked {A R} (f : Disk -> res (R * Disk)) (k : R -> prog Disk A) d : run (locked f ≫= k) d = ('(r, d') ← f d; run (k r) d').
Proof. done. Qed.
Lemma run_locked_end {R} (f : Disk -> res (R * Disk)) d : run (locked f) d = f d.
Proof. cbn. by destruct (f d) as [[r d']| |]. Qed.

(** The last action of a method that records a state. *)
Lemma record_keeps {A} now w s action f user (answer : bool -> reply A) d r d' : site_ok d -> state_ok d s ->
  ('(saved, d') ← WriteState w (RecordHistory now s action f user) d; Ok (answer saved, d')) = Ok (r, d') -> site_ok d'.
Proof.
  intros Hl Hs H. destruct (WriteState _ _ _) as [[b d1]| |] eqn:E; cbn [mbind res_bind] in H; try done. injection H as _ <-.
  by apply (recorded now w s action f user d b).
Qed.

(** A look whose failure ends the method. *)
Ltac look_at H := rewrite run_look in H; match type of H with (mbind _ ?x) = Ok _ =>
  let o := fresh "o" in let E := fresh "Eo" in destruct x as [o| |] eqn:E; cbn [mbind res_bind] in H; try discriminate H end.

Lemma Deploy_keeps d f user now w r d' : package_name f = true -> site_ok d -> run (Deploy f user now w) d = Ok (r, d') -> site_ok d'.
Proof.
  intros Hn Hl H. unfold Deploy in H. look_at H. destruct o as [e|[b m]]; [by injection H as _ <-|].
  pose proof (OpenBundle_available d f _ Hn Eo) as Hf. unfold ActiveFile in H. rewrite run_locked in H. cbn [mbind res_bind] in H.
  assert (forall id, run (locked (fun d0 : Disk =>
    let s := RecordHistory now (deployed (ReadState d0) f id (app_id m)) "deploy" f user in
    '(saved, d'0) ← WriteState w s d0; Ok (if saved : bool then inr tt else inl "could not record the deployment"%string, d'0))) d = Ok (r, d') -> site_ok d') as Hend.
  { intros id Hd. rewrite run_locked_end in Hd. refine (record_keeps now w _ _ f user _ d r d' Hl _ Hd). by apply deployed_ok. }
  destruct (_ && _) in H; [|by apply (Hend EmptyString)]. rewrite run_bind, run_look in H. destruct (OpenBundle (active _) d); cbn [mbind res_bind mret prog_ret run] in H; [exact (Hend _ H)|done..].
Qed.

Lemma Rollback_keeps d user now w r d' : site_ok d -> run (Rollback user now w) d = Ok (r, d') -> site_ok d'.
Proof.
  intros Hl H. unfold Rollback in H. rewrite run_locked in H. cbn [mbind res_bind] in H.
  destruct (String.eqb_spec (previous (ReadState d)) ""); [by injection H as _ <-|]. look_at H. destruct o as [e|b]; [by injection H as _ <-|].
  rewrite run_locked_end, String.eqb_refl in H. cbn [negb] in H. cbn zeta in H.
  refine (record_keeps now w _ _ _ user _ d r d' Hl _ H). by apply rolled_back_ok.
Qed.

Lemma SetRunOnStartup_keeps d f enabled user now w r d' : (enabled = true -> package_name f = true) -> site_ok d ->
  run (SetRunOnStartup f enabled user now w) d = Ok (r, d') -> site_ok d'.
Proof.
  intros Hn Hl H. unfold SetRunOnStartup in H. rewrite run_bind in H.
  assert (forall id known, (enabled = true -> available d f) -> run (locked (fun d0 : Disk =>
    let s := RecordHistory now (with_running (ReadState d0) f enabled id known) (if enabled then "run" else "stop") f user in
    '(saved, d'0) ← WriteState w s d0; Ok (if saved : bool then inr tt else inl "could not save package startup state"%string, d'0))) d = Ok (r, d') -> site_ok d') as Hend.
  { intros id known Hf Hd. rewrite run_locked_end in Hd. refine (record_keeps now w _ _ f user _ d r d' Hl _ Hd). by apply set_running_ok. }
  destruct enabled; [|by apply (Hend EmptyString [])]. rewrite run_look in H.
  destruct (OpenBundle f d) as [[e|[b m]]| |] eqn:Eo; cbn [mbind res_bind] in H; try done; [by injection H as _ <-|].
  cbn in H. destruct (List_ d) as [known| |]; cbn in H; try done. apply (Hend (app_id m) known); [|done].
  intros _. by apply (OpenBundle_available d f (b, m)); [apply Hn|].
Qed.

Lemma ClearActive_keeps d user now w r d' : site_ok d -> run (ClearActive user now w) d = Ok (r, d') -> site_ok d'.
Proof.
  intros Hl H. unfold ClearActive in H. rewrite run_locked_end in H. cbn zeta in H.
  destruct (String.eqb_spec (active (ReadState d)) ""); [by injection H as _ <-|].
  refine (record_keeps now w _ _ _ user _ d r d' Hl _ H). destruct Hl as [([|Ha] & Hp & Hr & Hn & Hh) _]; [done|]. split_and!; try done; [by left|by right].
Qed.

(** One operation, run alone.  What is deployed or run has the name of a
    package; what is removed is named without a separator. *)
Inductive package_step (d d' : Disk) : Prop :=
| step_import f bytes wrote r : run (Import f bytes wrote) d = Ok (r, d') -> package_step d d'
| step_import_path source wrote r : run (ImportFromPath source wrote) d = Ok (r, d') -> package_step d d'
| step_remove f r : simple_name f = true -> run (Remove f) d = Ok (r, d') -> package_step d d'
| step_deploy f user now w r : package_name f = true -> run (Deploy f user now w) d = Ok (r, d') -> package_step d d'
| step_rollback user now w r : run (Rollback user now w) d = Ok (r, d') -> package_step d d'
| step_run f enabled user now w r : (enabled = true -> package_name f = true) ->
    run (SetRunOnStartup f enabled user now w) d = Ok (r, d') -> package_step d d'
| step_clear user now w r : run (ClearActive user now w) d = Ok (r, d') -> package_step d d'.

Lemma ImportFromPath_keeps d source wrote r d' : site_ok d -> run (ImportFromPath source wrote) d = Ok (r, d') -> site_ok d'.
Proof.
  intros Hl H. unfold ImportFromPath in H. destruct source as [[[name size] contents]|]; [|by injection H as _ <-].
  destruct (negb _); [by injection H as _ <-|]. destruct size as [size|]; [|by injection H as _ <-].
  destruct (_ <? _); [by injection H as _ <-|]. destruct contents as [[contents|]|]; [|by injection H as _ <-..].
  rewrite run_bind in H. destruct (run (Import _ _ _) d) as [[r0 d0]| |] eqn:E; cbn in H; try done. injection H as _ <-.
  by apply (Import_keeps _ _ _ _ _ _ Hl E).
Qed.

Lemma step_keeps d d' : site_ok d -> package_step d d' -> site_ok d'.
Proof.
  intros Hl [].
  - by eapply Import_keeps.
  - by eapply ImportFromPath_keeps.
  - by eapply Remove_keeps.
  - by eapply Deploy_keeps.
  - by eapply Rollback_keeps.
  - by eapply SetRunOnStartup_keeps.
  - by eapply ClearActive_keeps.
Qed.

(** ** A rollback undoes a deployment *)

Lemma OpenBundle_keep d d' f : f <> state_name -> keys d' = keys d -> elsewhere d' = elsewhere d ->
  (forall f, f <> state_name -> managed d' !! f = managed d !! f) -> simple_name f = true -> OpenBundle f d' = OpenBundle f d.
Proof. intros Hf Hk He Hm Hs. unfold OpenBundle, ReadWholeFile, PackagePath. by rewrite Hs, Hm, Hk. Qed.

(** A state that is recorded, when its names are texts the file can hold. *)
Lemma recorded_as now s action f user d bs : state_ok d s ->
  dump_json (state_document (RecordHistory now s action f user)) = Some bs ->
  exists d', WriteState Written (RecordHistory now s action f user) d = Ok (true, d') /\
    ReadState d' = RecordHistory now s action f user /\ keys d' = keys d /\ elsewhere d' = elsewhere d /\
    forall f, f <> state_name -> managed d' !! f = managed d !! f.
Proof.
  intros Hs Hd. destruct (RecordHistory_ok now d s action f user Hs) as [Hs' _].
  destruct (WriteState Written (RecordHistory now s action f user) d) as [[b d']| |] eqn:E; [|by unfold WriteState in E; rewrite Hd in E..].
  destruct (WriteState_cases _ _ _ _ _ ltac:(apply Hs') E) as [[-> ->]|(-> & _ & Hr & Hk & He & Hm)].
  - unfold WriteState in E. by rewrite Hd in E.
  - by exists d'.
Qed.

Lemma erase_not_in f l : f ∉ l -> erase_all f l = l.
Proof.
  induction l as [|x l IH]; intros H; [done|]. cbn. destruct (String.eqb_spec x f) as [->|]; [set_solver|]. cbn. f_equal. apply IH. set_solver.
Qed.
Lemma erase_perm f l : NoDup l -> f ∈ l -> erase_all f l ++ [f] ≡ₚ l.
Proof.
  intros Hn Hf. apply list_elem_of_split in Hf as (l1 & l2 & ->). apply NoDup_app in Hn as (_ & H1 & H2). apply NoDup_cons in H2 as [H2 _].
  unfold erase_all. rewrite List.filter_app. cbn. rewrite String.eqb_refl. cbn. fold (erase_all f l1) (erase_all f l2).
  rewrite !erase_not_in by set_solver. rewrite <- app_assoc. by rewrite (Permutation_app_comm l2 [f]).
Qed.
Lemma listed_false f l : f ∉ l -> listed f l = false.
Proof. intros H. apply not_true_iff_false. by rewrite listed_iff. Qed.

Lemma deploy_roll_back_running s f id : NoDup (running s) -> active s <> EmptyString -> f <> active s -> f ∉ running s ->
  let s1 := deployed s f id id in
  active s1 = f /\ previous s1 = active s /\ active (rolled_back s1) = active s /\ previous (rolled_back s1) = f /\
  running (rolled_back s1) ≡ₚ running s.
Proof.
  intros Hn Ha Hf Hr. cbn zeta. unfold rolled_back, deployed. cbn zeta.
  rewrite (proj2 (String.eqb_neq (active s) "")), String.eqb_refl, (proj2 (String.eqb_neq (active s) f)) by done. cbn [negb andb orb].
  cbn [active previous running]. split_and!; [done..|]. destruct (listed (active s) (running s)) eqn:El; cbn [orb].
  - apply listed_iff in El. assert (f ∉ erase_all (active s) (running s)) as Hk by (rewrite elem_of_erase; tauto).
    assert (push f (erase_all (active s) (running s)) = erase_all (active s) (running s) ++ [f]) as -> by (unfold push; by rewrite listed_false).
    rewrite (proj2 (listed_iff f _)) by set_solver.
    assert (erase_all f (erase_all (active s) (running s) ++ [f]) = erase_all (active s) (running s)) as ->.
    { unfold erase_all at 1. rewrite List.filter_app. cbn. rewrite String.eqb_refl. cbn. fold (erase_all f (erase_all (active s) (running s))).
      rewrite app_nil_r. by apply erase_not_in. }
    unfold push. rewrite listed_false by (rewrite elem_of_erase; tauto). by apply erase_perm.
  - by rewrite listed_false.
Qed.

(** Deploying another version of the deployed application and rolling back
    gives the state before: the same package is active again, the newer one is
    the one to go back to, and the same packages start at boot.  Both succeed
    when both packages open and the state can be written as JSON. *)
Theorem rollback_undoes_deploy d f user now user' now' bundle metadata bundle' metadata' :
  (forall s, dump_json (state_document s) <> None) ->
  site_ok d -> package_name f = true -> active (ReadState d) <> EmptyString -> f <> active (ReadState d) -> f ∉ running (ReadState d) ->
  OpenBundle f d = Ok (inr (bundle, metadata)) -> OpenBundle (active (ReadState d)) d = Ok (inr (bundle', metadata')) ->
  app_id metadata' = app_id metadata ->
  exists d1 d2, run (Deploy f user now Written) d = Ok (inr tt, d1) /\ active (ReadState d1) = f /\
    run (Rollback user' now' Written) d1 = Ok (inr (active (ReadState d)), d2) /\
    active (ReadState d2) = active (ReadState d) /\ previous (ReadState d2) = f /\
    running (ReadState d2) ≡ₚ running (ReadState d).
Proof.
  intros Hdump Hl Hn Ha Hf Hr Ho Ho' Hid. pose proof (OpenBundle_available d f _ Hn Ho) as Hav.
  pose proof Hl as [(Hact & _ & _ & Hnd & _) _]. destruct Hact as [|Hact]; [done|].
  set (s := ReadState d) in *. set (s1 := deployed s f (app_id metadata) (app_id metadata)).
  destruct (deploy_roll_back_running s f (app_id metadata) Hnd Ha Hf Hr) as (E1 & E2 & E3 & E4 & E5).
  pose proof (deployed_ok d f (app_id metadata) (app_id metadata) Hav Hl) as Hs1. fold s s1 in Hs1.
  destruct (dump_json (state_document (RecordHistory now s1 "deploy" f user))) as [bs1|] eqn:D1; [|by apply Hdump in D1].
  destruct (recorded_as now s1 "deploy" f user d bs1 Hs1 D1) as (d1 & W1 & R1 & K1 & X1 & M1).
  assert (run (Deploy f user now Written) d = Ok (inr tt, d1)) as Hdep.
  { unfold Deploy. rewrite run_look, Ho. cbn [mbind res_bind]. unfold ActiveFile. rewrite run_locked. cbn [mbind res_bind]. fold s.
    rewrite (proj2 (String.eqb_neq (active s) "")), (proj2 (String.eqb_neq (active s) f)) by done. cbn [negb andb].
    rewrite run_bind, run_look, Ho'. cbn [mbind res_bind mret prog_ret run]. rewrite Hid. rewrite run_locked_end. fold s s1. by rewrite W1. }
  assert (site_ok d1) as Hl1 by (by apply (Deploy_keeps d f user now Written (inr tt) d1 Hn Hl)).
  assert (active (ReadState d1) = f /\ previous (ReadState d1) = active s) as [A1 P1] by (by rewrite R1).
  pose proof (rolled_back_ok d1 ltac:(by rewrite P1) Hl1) as Hs2.
  set (s2 := rolled_back (ReadState d1)) in *.
  destruct (dump_json (state_document (RecordHistory now' s2 "rollback" (active s2) user'))) as [bs2|] eqn:D2; [|by apply Hdump in D2].
  destruct (recorded_as now' s2 "rollback" (active s2) user' d1 bs2 Hs2 D2) as (d2 & W2 & R2 & K2 & X2 & M2).
  assert (rolled_back (ReadState d1) = mkState (active s) f (running s2) (history s2)) as E.
  { unfold s2, rolled_back. cbn zeta. by rewrite A1, P1. }
  assert (active s2 = active s) as A2 by (unfold s2; by rewrite E).
  exists d1, d2. split_and!; try done.
  - unfold Rollback. rewrite run_locked. cbn [mbind res_bind]. rewrite P1, (proj2 (String.eqb_neq _ _)) by done.
    rewrite run_look, (OpenBundle_keep d d1), Ho' by (done || apply Hact || by apply not_state, Hact). cbn [mbind res_bind].
    rewrite run_locked_end, P1, String.eqb_refl. cbn [negb]. cbn zeta. fold s2. by rewrite W2, A2.
  - by rewrite R2.
  - rewrite R2. cbn [previous RecordHistory]. unfold s2. by rewrite E.
  - rewrite R2. cbn [running RecordHistory]. unfold s2. rewrite R1.
    change (running (rolled_back (RecordHistory now s1 "deploy" f user))) with (running (rolled_back s1)). exact E5.
Qed.
End PackageManager.

(** ** A concrete installation *)

#[local] Existing Instance toy_crypto.
#[local] Existing Instance toy_sodium.
#[local] Existing Instance toy_text.

Definition toy_keys : KeyFiles :=
  mkKeys (Some (ToHex toy_key)) (Some (ToHex (take kPublicKeyBytes toy_secret))) None.
Definition toy_outside (path : string) : option place :=
  if String.eqb path "../door-1.0.0.pkg" then Some (Elsewhere "door-1.0.0.pkg")
  else if String.eqb path "./line1-1.pkg" then Some (Managed "line1-1.pkg") else None.

Abbreviation line1 := ("line1-1.pkg"%string).
Abbreviation line2 := ("line1-2.pkg"%string).

(** Two packages, the first of them deployed. *)
Definition toy_state : State := mkState (J := jtree_json) line1 "" [line1] [].
Definition toy_disk : Disk := Eval vm_compute in
  mkDisk (<[line1 := toy_package]> (<[line2 := toy_package]>
            (<[state_name := match dump_json (JsonFileOps := coded_ops) (state_document toy_state) with Some bs => bs | None => [] end]> ∅)))
    ∅ toy_keys.

Lemma toy_outside_name f n : toy_outside f = Some (Managed n) -> bytes_of n = filename (bytes_of f).
Proof. unfold toy_outside. destruct (String.eqb f "../door-1.0.0.pkg"); [done|]. destruct (String.eqb_spec f "./line1-1.pkg") as [->|]; [|done]. by intros [= <-]. Qed.

Lemma toy_genuine : genuine (J := jtree_json) toy_tag_of_runtime "e" "p" toy_keys toy_package.
Proof. eexists. vm_compute. reflexivity. Qed.

Lemma toy_site_ok : site_ok (J := jtree_json) toy_tag_of_runtime "e" "p" toy_disk.
Proof.
  assert (ReadState (J := jtree_json) toy_disk = toy_state) as E by (vm_compute; reflexivity).
  assert (available (J := jtree_json) toy_tag_of_runtime "e" "p" toy_disk line1) as Ha.
  { split_and!; [by vm_compute..|]. exists toy_package. split; [by vm_compute|exact toy_genuine]. }
  split; rewrite E; [|cbn; lia]. split_and!; [by right|by left|by apply Forall_singleton|apply NoDup_singleton|constructor].
Qed.

Abbreviation toy_step := (package_step (J := jtree_json) toy_tag_of_runtime "e" "p" toy_outside).
Abbreviation toy_deploy := (Deploy (J := jtree_json) toy_tag_of_runtime "e" "p" toy_outside).
Abbreviation toy_rollback := (Rollback (J := jtree_json) toy_tag_of_runtime "e" "p" toy_outside).
Abbreviation toy_import := (Import (J := jtree_json) toy_tag_of_runtime "e" "p" toy_outside).
Abbreviation toy_remove := (Remove (J := jtree_json) toy_outside).
Abbreviation toy_read := (ReadState (J := jtree_json)).

(** The disk after a method that succeeds. *)
Definition after {A} (p : prog Disk (reply A)) (d : Disk) : Disk := match run p d with Ok (inr _, d') => d' | _ => d end.

Lemma rollback_undoes_deploy_witness :
  exists d1 d2, run (toy_deploy line2 "dev" "now" Written) toy_disk = Ok (inr tt, d1) /\
    run (toy_rollback "dev" "later" Written) d1 = Ok (inr line1, d2) /\ running (toy_read d2) ≡ₚ [line1].
Proof.
  assert (exists bundle metadata, OpenBundle (J := jtree_json) toy_tag_of_runtime "e" "p" toy_outside line2 toy_disk = Ok (inr (bundle, metadata)) /\
    OpenBundle (J := jtree_json) toy_tag_of_runtime "e" "p" toy_outside line1 toy_disk = Ok (inr (bundle, metadata))) as (b & m & H2 & H1).
  { do 2 eexists. split; vm_compute; reflexivity. }
  assert (toy_read toy_disk = toy_state) as E by (vm_compute; reflexivity).
  pose proof (rollback_undoes_deploy (J := jtree_json) toy_tag_of_runtime "e" "p" toy_outside toy_outside_name toy_disk line2 "dev" "now" "dev" "later" b m b m) as H.
  rewrite E in H. cbn [active previous running toy_state] in H.
  specialize (H ltac:(intros s Hs; discriminate Hs) toy_site_ok eq_refl).
  specialize (H ltac:(discriminate)).
  specialize (H ltac:(discriminate)).
  specialize (H ltac:(intros Hin; apply list_elem_of_singleton in Hin; discriminate Hin)).
  destruct (H H2 H1 eq_refl) as (d1 & d2 & R1 & _ & R2 & _ & _ & R3).
  exists d1, d2. exact (conj R1 (conj R2 R3)).
Defined.

(** A deployment opens the package before it takes the mutex: a removal in
    between leaves a deployed package that is not there. *)
Example deploy_remove_race :
  exists d, Threads.schedule [0; 1; 0; 0; 0]%nat ([(toy_deploy line2 "dev" "now" Written ≫= fun _ => mret tt); (toy_remove line2 ≫= fun _ => mret tt)], toy_disk)
      = Some ([mret tt; mret tt], d) /\
    active (toy_read d) = line2 /\ managed d !! line2 = None.
Proof. eexists. split; [vm_compute; reflexivity|]. by split; vm_compute. Qed.

(** Only the last component of an imported name is looked at. *)
Example import_outside_the_directory :
  package_name "../door-1.0.0.pkg" = true /\
  elsewhere (after (toy_import "../door-1.0.0.pkg" toy_package true) toy_disk) !! "door-1.0.0.pkg"%string = Some toy_package.
Proof. by split; vm_compute. Qed.

(** Another spelling of the deployed package's name is removed. *)
Example remove_deployed_by_another_name :
  match run (toy_remove "./line1-1.pkg") toy_disk with
  | Ok (inr _, d) => (active (toy_read d), managed d !! line1) = (line1, None)
  | _ => False
  end.
Proof. vm_compute. reflexivity. Qed.

(** What is undeployed still starts at boot. *)
Example cleared_package_starts_at_boot :
  let d := after (ClearActive (J := jtree_json) "dev" "now" Written) toy_disk in
  active (toy_read d) = EmptyString /\
  boot (J := jtree_json) toy_tag_of_runtime "e" "p" toy_outside (fun _ _ _ => true) "main.lua" d = Ok ([(line1, true)], None).
Proof. by split; vm_compute. Qed.
