(* ===== verification/PackageBuild.v ===== *)
(** * Building a package (src/lua_package/LuaCompiler.cpp, PackageManager.cpp)

    The Lua interpreter's loader and its dump are parameters; what is done with
    their answers, and the five stages from a directory of sources to a package
    file, are modelled.  A source file is given with its path relative to the
    application and to the module root, and its contents, [None] when it cannot
    be opened; the time stamp and the nonce are arguments. *)

From stdpp Require Import relations.
From S2P Require Import Prelude Threads Words Text Json JsonFile WebReply Sha256 Validation PasswordHash MqEnvelope LuaBundle LuaPackage PackageKeys PackageManager Version.

(** ** The compiler *)

Definition NormaliseChunkName (chunkName : list Z) : list Z :=
  match chunkName with
  | [] => b! "=[buffer]"
  | c :: _ => if (c =? 64) || (c =? 61) then chunkName else 64 :: chunkName
  end.

(** The digits, the line while it is not absurd, and whether there was one. *)
Fixpoint line_digits (text : list Z) (line : Z) (any : bool) : Z :=
  match text with
  | c :: rest => if is_digit c then let line := line * 10 + (c - 48) in if 10000000 <? line then 0 else line_digits rest line true
                 else if any then line else 0
  | [] => if any then line else 0
  end.

Definition ParseErrorLine (message chunkName : list Z) : Z :=
  let bare := match chunkName with c :: rest => if (c =? 64) || (c =? 61) then rest else chunkName | [] => [] end in
  let start := match bare with [] => 0%nat | _ => if starts_with bare message then length bare else 0%nat end in
  match drop start message with
  | 58 :: rest => line_digits rest 0 false
  | _ => 0
  end.

Record CompileResult := mkCompile { c_ok : bool; c_bytecode : list Z; c_error : list Z; c_error_line : Z; c_source_bytes : Z }.

(** [loadbuffer] is [luaL_loadbuffer] on a new state: a state cannot be had, the
    message, or what [lua_dump] writes of the chunk ([None]: it fails). *)
Inductive load_result := NoState | LoadError (message : list Z) | Loaded (dump : option (list Z)).

Section Compiler.
Variable loadbuffer : list Z -> list Z -> load_result.
(** LUA_SIGNATURE. *)
Definition Compile (source chunkName : list Z) : CompileResult :=
  let failed := fun error line => mkCompile false [] error line (Z.of_nat (length source)) in
  let name := NormaliseChunkName chunkName in
  if (4 <=? length source)%nat && bool_decide (take 4 source = lua_signature)
  then failed (b! "this file is already compiled bytecode, not Lua source") 0
  else match loadbuffer source name with
  | NoState => failed (b! "out of memory creating a Lua state") 0
  | LoadError message => failed message (ParseErrorLine message name)
  | Loaded None => failed (b! "failed to serialise the compiled chunk") 0
  | Loaded (Some []) => failed (b! "the compiler produced no output") 0
  | Loaded (Some bytecode) => mkCompile true bytecode [] 0 (Z.of_nat (length source))
  end.

Definition Validate (source chunkName : list Z) : CompileResult :=
  let failed := fun error line => mkCompile false [] error line (Z.of_nat (length source)) in
  let name := NormaliseChunkName chunkName in
  match loadbuffer source name with
  | NoState => failed (b! "out of memory creating a Lua state") 0
  | LoadError message => failed message (ParseErrorLine message name)
  | Loaded _ => mkCompile true [] [] 0 (Z.of_nat (length source))
  end.

Definition LooksLikeBytecode (data : list Z) : bool := (4 <=? length data)%nat && bool_decide (take 4 data = lua_signature).

(** A message of the interpreter names the line it is about. *)
Lemma line_digits_decimal digits rest line any : Forall (fun c => is_digit c = true) digits -> (any = true \/ digits <> []) ->
  match rest with c :: _ => is_digit c = false | [] => True end -> 0 <= line -> dec_value line digits <= 10000000 ->
  line_digits (digits ++ rest) line any = dec_value line digits.
Proof.
  intros Hd. revert line any. induction Hd as [|c digits Hc Hd IH]; intros line any Ha Hr Hl Hv.
  - destruct Ha as [->|]; [|done]. cbn. destruct rest as [|c rest]; [done|]. cbn. by rewrite Hr.
  - cbn [app line_digits]. rewrite Hc. assert (48 <= c <= 57) as Hcr by (unfold is_digit in Hc; lia).
    assert (forall ds v, Forall (fun c => is_digit c = true) ds -> 0 <= v -> v <= dec_value v ds) as Hmono.
    { clear. intros ds v Hds. revert v. induction Hds as [|c ds Hc _ IH]; intros v Hv; [cbn; lia|]. unfold is_digit in Hc.
      change (dec_value v (c :: ds)) with (dec_value (v * 10 + (c - 48)) ds). specialize (IH (v * 10 + (c - 48))). lia. }
    change (dec_value line (c :: digits)) with (dec_value (line * 10 + (c - 48)) digits) in *.
    pose proof (Hmono digits (line * 10 + (c - 48)) Hd ltac:(lia)). rewrite (proj2 (Z.ltb_ge _ _)) by lia.
    apply IH; [by left|done|lia|done].
Qed.

Lemma error_line_found name n message : (name <> []) -> 0 <= n <= 10000000 ->
  ParseErrorLine (name ++ b! ":" ++ decimal n ++ b! ":" ++ message) (64 :: name) = n.
Proof.
  intros Hname Hn. unfold ParseErrorLine. cbn [Z.eqb Pos.eqb orb]. destruct name as [|c name0]; [done|]. set (name := c :: name0).
  rewrite (proj2 (starts_with_iff name _)) by (by eexists). rewrite drop_app_length.
  change (b! ":" ++ decimal n ++ b! ":" ++ message) with (58 :: decimal n ++ (58 :: message)).
  destruct (decimal_spec n) as (H1 & H2 & H3); [lia|]. cbn match. rewrite line_digits_decimal; [done| |by right|done|lia|lia].
  eapply Forall_impl; [exact H1|]. intros b Hb. cbn in Hb. unfold is_digit. lia.
Qed.
End Compiler.

(** ** From a directory to a package *)

Record BuildReport := mkReport {
  r_ok : bool; failed_stage : string; r_error : string; error_line : Z; error_module : list Z;
  modules_compiled : Z; source_bytes : Z; bytecode_bytes : Z; package_bytes : Z; stages_passed : list string;
  r_metadata : Metadata; package_path : string
}.
Definition no_report : BuildReport := mkReport false "" "" 0 [] 0 0 0 0 [] no_metadata "".

Definition report_failed (r : BuildReport) (stage error : string) : BuildReport :=
  mkReport false stage error (error_line r) (error_module r) (modules_compiled r) (source_bytes r) (bytecode_bytes r) (package_bytes r)
    (stages_passed r) (r_metadata r) (package_path r).
Definition at_module (r : BuildReport) (line : Z) (module : list Z) : BuildReport :=
  mkReport (r_ok r) (failed_stage r) (r_error r) line module (modules_compiled r) (source_bytes r) (bytecode_bytes r) (package_bytes r)
    (stages_passed r) (r_metadata r) (package_path r).
Definition one_more (r : BuildReport) (bytes : Z) : BuildReport :=
  mkReport (r_ok r) (failed_stage r) (r_error r) (error_line r) (error_module r) (modules_compiled r + 1) (source_bytes r + bytes)
    (bytecode_bytes r) (package_bytes r) (stages_passed r) (r_metadata r) (package_path r).
Definition passed (r : BuildReport) (stage : string) : BuildReport :=
  mkReport (r_ok r) (failed_stage r) (r_error r) (error_line r) (error_module r) (modules_compiled r) (source_bytes r)
    (bytecode_bytes r) (package_bytes r) (stages_passed r ++ [stage]) (r_metadata r) (package_path r).

Definition with_bytecode (r : BuildReport) (n : Z) : BuildReport :=
  mkReport (r_ok r) (failed_stage r) (r_error r) (error_line r) (error_module r) (modules_compiled r) (source_bytes r) n
    (package_bytes r) (stages_passed r) (r_metadata r) (package_path r).
Definition with_package (r : BuildReport) (n : Z) : BuildReport :=
  mkReport (r_ok r) (failed_stage r) (r_error r) (error_line r) (error_module r) (modules_compiled r) (source_bytes r) (bytecode_bytes r)
    n (stages_passed r) (r_metadata r) (package_path r).
Definition with_metadata (r : BuildReport) (m : Metadata) : BuildReport :=
  mkReport (r_ok r) (failed_stage r) (r_error r) (error_line r) (error_module r) (modules_compiled r) (source_bytes r) (bytecode_bytes r)
    (package_bytes r) (stages_passed r) m (package_path r).
Definition succeeded (r : BuildReport) (path : string) : BuildReport :=
  mkReport true (failed_stage r) (r_error r) (error_line r) (error_module r) (modules_compiled r) (source_bytes r) (bytecode_bytes r)
    (package_bytes r) (stages_passed r) (r_metadata r) path.

(** A regular file under the application. *)
Record SourceFile := mkSource { s_relative : list Z; s_named : list Z; s_text : option (list Z) }.

(** [std::string::find]: somewhere in the text. *)
Fixpoint contains_text (part text : list Z) : bool :=
  starts_with part text || match text with [] => false | _ :: rest => contains_text part rest end.

(** The application's own test scripts. *)
Definition is_test (relative : list Z) : bool :=
  starts_with (b! "test") relative || contains_text (b! "/test") relative || contains_text (b! "_test.lua") relative.

Definition kept (f : SourceFile) : bool := bool_decide (extension (s_relative f) = b! ".lua") && negb (is_test (s_relative f)).

Section Build.
Context {J : JsonLib} {T : MqEnvelope.JsonText} {F : JsonFiles} {L : Sodium} {K : PackageCrypto}.
Variable loadbuffer : list Z -> list Z -> load_result.
Variable RuntimeTag : string.
Variables encryptionKeyPath publicKeyPath secretKeyPath packageDir : string.
Variable outside : string -> option place.

(** The bundle so far, and the lines [relative:hash]. *)
Fixpoint compile_files (files : list SourceFile) (r : BuildReport) (bundle : LuaBundle) (hashes : list (list Z))
  : res (BuildReport + BuildReport * LuaBundle * list (list Z)) :=
  match files with
  | [] => Ok (inr (r, bundle, hashes))
  | f :: files =>
      if negb (kept f) then compile_files files r bundle hashes
      else match s_text f with
      | None => Ok (inl (report_failed r "compile" ("cannot read " ++ text_of (s_relative f))))
      | Some source =>
          let compiled := Compile loadbuffer source (s_relative f) in
          if negb (c_ok compiled)
          then Ok (inl (report_failed (at_module r (c_error_line compiled) (s_relative f)) "compile" (text_of (c_error compiled))))
          else
            hash ← HexOf source;
            compile_files files (one_more r (Z.of_nat (length source)))
              (AddModule (ModuleNameForPath (s_named f)) (s_relative f) (c_bytecode compiled) bundle)
              (hashes ++ [s_relative f ++ b! ":" ++ hash])
      end
  end.

Fixpoint load_modules (ms : list LuaModule) : option (list Z * list Z) :=
  match ms with
  | [] => None
  | m :: ms => let check := Validate loadbuffer (m_code m) (m_name m) in if c_ok check then load_modules ms else Some (m_name m, c_error check)
  end.

(** What the file system says of the directory and of the entry script. *)
Record BuildInput := mkInput {
  i_directory : bool; i_entry_found : bool; i_entry_named : list Z; i_files : list SourceFile;
  i_appId : string; i_version : string; i_entry : string; i_builtBy : string; i_notes : string; i_sourceDir : string
}.

(** Stage 1: the failed report, or the report, the bundle and the digest of the
    sources. *)
Definition compile_stage (input : BuildInput) : res (BuildReport + BuildReport * LuaBundle * list Z) :=
  let invalid := fun message => Ok (inl (report_failed no_report "validate" message)) in
  if negb (SafeComponent (bytes_of (i_appId input)))
  then invalid "application id may contain only letters, digits, dot, dash and underscore"%string
  else if negb (SafeComponent (bytes_of (i_version input)))
  then invalid "version may contain only letters, digits, dot, dash and underscore"%string
  else match Version.Parse (bytes_of (i_version input)) with
  | None => invalid "version must be a semantic version like 1.4.0"%string
  | Some _ =>
      if negb (i_directory input) then invalid "no such application directory"%string
      else if negb (i_entry_found input)
      then invalid ("entry script " ++ quoted (i_entry input) ++
                    " not found -- it is relative to the application directory (" ++ i_sourceDir input ++
                    "), so for scripts/demoapp/main.lua the entry is " ++ quoted "main.lua")%string
      else
        compiled ← compile_files (i_files input) no_report empty_bundle [];
        match compiled with
        | inl r => Ok (inl r)
        | inr (r, bundle, hashes) =>
            if modules_compiled r =? 0
            then Ok (inl (report_failed r "compile" "the application directory contains no .lua files"))
            else
              let entryModule := ModuleNameForPath (i_entry_named input) in
              let bundle := SetEntry entryModule bundle in
              match EntryBytecode bundle with
              | None => Ok (inl (report_failed r "compile" ("entry module " ++ quoted (text_of entryModule) ++ " was not among the compiled files")))
              | Some _ =>
                  digest ← HexOf (concat (map (fun line => line ++ [10]) (sort_by lex_leb hashes)));
                  Ok (inr (with_bytecode (passed r "compile") (Z.of_nat (length (Serialise bundle))), bundle, digest))
              end
        end
  end.

Definition build_metadata (input : BuildInput) (now : string) (digest : list Z) : Metadata :=
  mkMetadata (i_appId input) (i_version input) (i_entry input) RuntimeTag now (i_builtBy input) (text_of digest) "" 0 kAlgorithm (i_notes input).

(** Stages 3 and 4: the failed report, or the report. *)
Definition verify_stage (r : BuildReport) (package encryptionKey : list Z) (k : KeyFiles) : res (BuildReport + BuildReport) :=
  match LoadPublicKey publicKeyPath k with
  | inl e => Ok (inl (report_failed r "verify" e))
  | inr publicKey =>
      opened ← Open RuntimeTag package encryptionKey publicKey;
      if negb (o_ok opened) then Ok (inl (report_failed r "verify" (o_error opened)))
      else
        let r := passed (with_metadata r (o_metadata opened)) "verify" in
        match LuaBundle.Parse (o_bytecode opened) with
        | Fault => Fault
        | Err e => Ok (inl (report_failed r "load" e))
        | Ok bundle =>
            match load_modules (modules bundle) with
            | Some (name, e) =>
                Ok (inl (report_failed (at_module r (error_line r) name) "load"
                           ("compiled module " ++ quoted (text_of name) ++ " will not load: " ++ text_of e)))
            | None => Ok (inr (passed r "load"))
            end
        end
  end.

Definition BuildFromDirectory (input : BuildInput) (now : string) (nonce : list Z) (writeArtifact wrote : bool) : prog Disk BuildReport :=
  compiled ← look (fun _ => compile_stage input);
  match compiled with
  | inl r => mret r
  | inr (r, bundle, digest) =>
      k ← look (fun d => Ok (keys d));
      match LoadEncryptionKey encryptionKeyPath k with
      | inl e => mret (report_failed r "sign" e)
      | inr encryptionKey =>
          match LoadSecretKey secretKeyPath k with
          | inl e => mret (report_failed r "sign" (e ++
              " -- this gateway has no signing key, so it cannot build packages. Build them where the key lives, or generate one (docs/lua-packaging.md)."))
          | inr secretKey =>
              built ← look (fun _ => LuaPackage.Build RuntimeTag (Serialise bundle) (build_metadata input now digest) encryptionKey secretKey nonce);
              if negb (b_ok built) then mret (report_failed r "sign" (b_error built))
              else
                let package := b_package built in
                let r := passed (with_package r (Z.of_nat (length package))) "sign" in
                checked ← look (fun d => verify_stage r package encryptionKey (keys d));
                match checked with
                | inl r => mret r
                | inr r =>
                    if negb writeArtifact
                    then mret (succeeded r (package_path r))
                    else
                      let file := (i_appId input ++ "-" ++ i_version input ++ ".pkg")%string in
                      saved ← locked (fun d => Ok (WriteWholeFile outside file wrote package d));
                      mret (if (saved : bool)
                            then succeeded (passed r "write") file
                            else report_failed r "write" ("could not write " ++ packageDir ++ "/" ++ file))
                end
          end
      end
  end.

(** ** What a build writes *)

Lemma filename_flat l : 47 ∉ l -> filename l = l.
Proof.
  intros H. unfold filename. assert (47 ∉ rev l) as H' by (by rewrite list_elem_of_In, <- in_rev, <- list_elem_of_In).
  pose proof (until_unique 47 (rev l) [] H' ltac:(by left)) as Hu. rewrite app_nil_r in Hu. rewrite Hu. apply rev_involutive.
Qed.

Lemma SafeComponent_flat text : SafeComponent text = true -> (47 ∉ text) /\ text <> [].
Proof.
  unfold SafeComponent. destruct text as [|c text]; [done|]. rewrite !andb_true_iff. intros (((((_ & H) & _) & _) & _) & _). split; [|done].
  intros Hin. rewrite forallb_forall in H. apply list_elem_of_In in Hin. by apply H in Hin.
Qed.

Definition package_file (input : BuildInput) : string := (i_appId input ++ "-" ++ i_version input ++ ".pkg")%string.

Lemma package_file_simple input : SafeComponent (bytes_of (i_appId input)) = true -> SafeComponent (bytes_of (i_version input)) = true ->
  simple_name (package_file input) = true /\ package_file input <> state_name.
Proof.
  intros [H1 Hn]%SafeComponent_flat [H2 _]%SafeComponent_flat. unfold simple_name, package_file.
  assert (bytes_of (i_appId input ++ "-" ++ i_version input ++ ".pkg")%string = bytes_of (i_appId input) ++ b! "-" ++ bytes_of (i_version input) ++ b! ".pkg") as E
    by (by rewrite !bytes_of_app).
  assert (47 ∉ b! "-") as H3 by (by apply (bool_decide_unpack _)). assert (47 ∉ b! ".pkg") as H4 by (by apply (bool_decide_unpack _)).
  rewrite filename_flat by (rewrite E; rewrite !elem_of_app; tauto).
  rewrite bool_decide_true by done. destruct (String.eqb_spec (i_appId input ++ "-" ++ i_version input ++ ".pkg")%string "") as [E'|]; [|split; [done|]].
  - rewrite E' in E. by destruct (bytes_of (i_appId input)).
  - intros E'. rewrite E' in E. apply (f_equal (fun l => last l)) in E. rewrite !app_assoc, last_app in E. by vm_compute in E.
Qed.

Lemma compile_stage_safe input x : compile_stage input = Ok (inr x) ->
  SafeComponent (bytes_of (i_appId input)) = true /\ SafeComponent (bytes_of (i_version input)) = true.
Proof.
  unfold compile_stage. destruct (SafeComponent (bytes_of (i_appId input))); [|done]. by destruct (SafeComponent (bytes_of (i_version input))).
Qed.

Lemma load_modules_ok ms : load_modules ms = None -> Forall (fun m => c_ok (Validate loadbuffer (m_code m) (m_name m)) = true) ms.
Proof. induction ms as [|m ms IH]; [constructor|]. cbn. destruct (c_ok _) eqn:E; [|done]. intros H. constructor; auto. Qed.

Lemma verify_stage_ok r package encryptionKey k r' : LoadEncryptionKey encryptionKeyPath k = inr encryptionKey ->
  verify_stage r package encryptionKey k = Ok (inr r') ->
  exists o bundle, open_with RuntimeTag encryptionKeyPath publicKeyPath k package = Ok (inr o) /\ o_ok o = true /\
    LuaBundle.Parse (o_bytecode o) = Ok bundle /\ r_metadata r' = o_metadata o /\
    Forall (fun m => c_ok (Validate loadbuffer (m_code m) (m_name m)) = true) (modules bundle).
Proof.
  intros He H. unfold verify_stage in H. unfold open_with, load_keys. rewrite He. destruct (LoadPublicKey publicKeyPath k) as [|pk]; [done|].
  destruct (Open RuntimeTag package encryptionKey pk) as [o| |]; cbn [mbind res_bind] in *; try done.
  destruct (o_ok o) eqn:Eo; cbn [negb] in H; [|done]. destruct (LuaBundle.Parse (o_bytecode o)) as [bundle| |] eqn:Eb; try done.
  destruct (load_modules (modules bundle)) as [[name e]|] eqn:El; [done|]. injection H as <-.
  exists o, bundle. split_and!; try done. by apply load_modules_ok.
Qed.

(** A stage that fails gives a report that says so. *)
Lemma compile_files_failed files : forall r bundle hashes r', compile_files files r bundle hashes = Ok (inl r') -> r_ok r' = false.
Proof.
  induction files as [|f files IH]; intros r bundle hashes r' H; cbn in H; [done|]. destruct (kept f); cbn [negb] in H; [|by apply IH in H].
  destruct (s_text f) as [source|]; [|by injection H as <-]. destruct (c_ok _); cbn [negb] in H; [|by injection H as <-].
  destruct (HexOf source) as [hash| |]; cbn [mbind res_bind] in H; try done. by apply IH in H.
Qed.

Lemma compile_stage_failed input r : compile_stage input = Ok (inl r) -> r_ok r = false.
Proof.
  unfold compile_stage. intros H.
  destruct (SafeComponent (bytes_of (i_appId input))); cbn [negb] in H; [|by injection H as <-].
  destruct (SafeComponent (bytes_of (i_version input))); cbn [negb] in H; [|by injection H as <-].
  destruct (Version.Parse _); [|by injection H as <-]. destruct (i_directory input); cbn [negb] in H; [|by injection H as <-].
  destruct (i_entry_found input); cbn [negb] in H; [|by injection H as <-].
  destruct (compile_files _ _ _ _) as [[r0|[[r0 bundle] hashes]]| |] eqn:E; cbn [mbind res_bind] in H; try done.
  - injection H as <-. by apply compile_files_failed in E.
  - destruct (_ =? 0); [by injection H as <-|]. destruct (EntryBytecode _); [|by injection H as <-].
    by destruct (HexOf _).
Qed.

Lemma verify_stage_failed r package encryptionKey k r' : verify_stage r package encryptionKey k = Ok (inl r') -> r_ok r' = false.
Proof.
  unfold verify_stage. intros H. destruct (LoadPublicKey _ _) as [e|pk]; [by injection H as <-|].
  destruct (Open _ _ _ _) as [o| |]; cbn [mbind res_bind] in H; try done. destruct (o_ok o); cbn [negb] in H; [|by injection H as <-].
  destruct (LuaBundle.Parse _) as [bundle| |]; [|by injection H as <-|done].
  destruct (load_modules _) as [[name e]|]; [by injection H as <-|done].
Qed.

Lemma Build_shape bytecode m ek sk nonce built : LuaPackage.Build RuntimeTag bytecode m ek sk nonce = Ok built -> b_ok built = true ->
  built = mkBuild true (b_package built) "".
Proof.
  unfold LuaPackage.Build, build_failed. intros H Hb.
  repeat match type of H with
  | context [match ?x with _ => _ end] => destruct x; cbn [mbind res_bind] in H; try discriminate H
  | (mbind _ ?x) = _ => destruct x; cbn [mbind res_bind] in H; try discriminate H
  end; injection H as <-; by try discriminate Hb.
Qed.

(** What a successful build did. *)
Lemma build_did input now nonce wrote d r d' : run (BuildFromDirectory input now nonce true wrote) d = Ok (r, d') -> r_ok r = true ->
  exists r1 bundle digest encryptionKey secretKey package o parsed,
    compile_stage input = Ok (inr (r1, bundle, digest)) /\
    LoadEncryptionKey encryptionKeyPath (keys d) = inr encryptionKey /\ LoadSecretKey secretKeyPath (keys d) = inr secretKey /\
    LuaPackage.Build RuntimeTag (Serialise bundle) (build_metadata input now digest) encryptionKey secretKey nonce = Ok (mkBuild true package "") /\
    open_with RuntimeTag encryptionKeyPath publicKeyPath (keys d) package = Ok (inr o) /\ LuaBundle.Parse (o_bytecode o) = Ok parsed /\
    Forall (fun m => c_ok (Validate loadbuffer (m_code m) (m_name m)) = true) (modules parsed) /\
    package_path r = package_file input /\ r_metadata r = o_metadata o /\
    d' = mkDisk (<[package_file input := package]> (managed d)) (elsewhere d) (keys d).
Proof.
  intros H Hok. unfold BuildFromDirectory in H. rewrite run_look in H.
  destruct (compile_stage input) as [[r0|[[r1 bundle] digest]]| |] eqn:Ec; cbn [mbind res_bind] in H; try done.
  { injection H as <- <-. by rewrite (compile_stage_failed _ _ Ec) in Hok. }
  rewrite run_look in H. cbn [mbind res_bind] in H.
  destruct (LoadEncryptionKey _ _) as [e|ek] eqn:Ee; [by injection H as <- <-|].
  destruct (LoadSecretKey _ _) as [e|sk] eqn:Es; [by injection H as <- <-|]. rewrite run_look in H.
  destruct (LuaPackage.Build _ _ _ _ _ _) as [built| |] eqn:Eb; cbn [mbind res_bind] in H; try done.
  destruct (b_ok built) eqn:Ebo; cbn [negb] in H; [|by injection H as <- <-]. rewrite run_look in H.
  destruct (verify_stage _ _ _ _) as [[r2|r2]| |] eqn:Ev; cbn [mbind res_bind] in H; try done.
  { injection H as <- <-. by rewrite (verify_stage_failed _ _ _ _ _ Ev) in Hok. }
  cbn [negb] in H. rewrite run_locked in H. cbn [mbind res_bind] in H.
  destruct (verify_stage_ok _ _ _ _ _ Ee Ev) as (o & parsed & Ho & Hoo & Hp & Hm & Hall).
  destruct (compile_stage_safe _ _ Ec) as [Ha Hv]. destruct (package_file_simple input Ha Hv) as [Hs _].
  unfold WriteWholeFile, PackagePath in H. fold (package_file input) in H. rewrite Hs in H. destruct wrote; [|by injection H as <- <-].
  cbn in H. injection H as <- <-. pose proof (Build_shape _ _ _ _ _ _ Eb Ebo) as Hsh. rewrite Hsh in Eb.
  exists r1, bundle, digest, ek, sk, (b_package built), o, parsed. by split_and!.
Qed.

(** The bundle that is in the package: the sources' paths are not. *)
Definition without_sources (b : LuaBundle) : LuaBundle := mkBundle (map (fun m => mkModule (m_name m) [] (m_code m)) (modules b)) (entry_ b).

Lemma Serialise_without_sources b : Serialise (without_sources b) = Serialise b.
Proof.
  unfold Serialise, without_sources. cbn [modules entry_]. rewrite length_map. f_equal. f_equal. f_equal.
  rewrite map_map. apply map_ext. by intros [].
Qed.

(** C15: A build that succeeds leaves a package that can be deployed as it is:
    the file named in the report opens, under the keys the gateway then has, to
    the metadata of the report and a bundle each of whose chunks the interpreter
    loads.  When the two halves of the signing key belong together, and the
    compiled modules are within the limits of the format, that bundle is the one
    that was compiled and the metadata names the application and the version
    that were asked for. *)
Theorem built_package_deploys input now nonce wrote d r d' :
  run (BuildFromDirectory input now nonce true wrote) d = Ok (r, d') -> r_ok r = true ->
  exists r1 compiled digest bundle,
    compile_stage input = Ok (inr (r1, compiled, digest)) /\
    OpenBundle RuntimeTag encryptionKeyPath publicKeyPath outside (package_path r) d' = Ok (inr (bundle, r_metadata r)) /\
    Forall (fun m => c_ok (Validate loadbuffer (m_code m) (m_name m)) = true) (modules bundle) /\
    (forall secretKey, LoadSecretKey secretKeyPath (keys d) = inr secretKey -> LoadPublicKey publicKeyPath (keys d) = inr (public_of secretKey) ->
       bytes_ok nonce -> length nonce = kNonceBytes -> bytes_ok (Serialise compiled) ->
       Z.of_nat (length (Serialise compiled) + kAeadBytes) <= kMaxPayloadBytes -> bundle_ok (without_sources compiled) ->
       bundle = without_sources compiled /\ app_id (r_metadata r) = i_appId input /\ version (r_metadata r) = i_version input).
Proof.
  intros H Hok. destruct (build_did _ _ _ _ _ _ _ H Hok) as (r1 & compiled & digest & ek & sk & package & o & bundle & Hc & He & Hs & Hb & Ho & Hp & Hall & -> & -> & ->).
  destruct (compile_stage_safe _ _ Hc) as [Ha Hv]. destruct (package_file_simple input Ha Hv) as [Hsn _].
  exists r1, compiled, digest, bundle. split; [done|]. split; [|split; [done|]].
  - unfold OpenBundle. pose proof Hsn as Hsn'. unfold simple_name in Hsn'. apply andb_true_iff in Hsn' as [-> Hne].
    apply negb_true_iff in Hne. rewrite Hne. cbn [negb]. unfold ReadWholeFile, PackagePath. rewrite Hsn. cbn [managed keys].
    rewrite lookup_insert_eq, Ho. cbn [mbind res_bind]. by rewrite Hp.
  - intros secretKey Hsk Hpk Hbn Hln Hbs Hlen Hbo. rewrite Hs in Hsk. injection Hsk as <-.
    unfold open_with, load_keys in Ho. rewrite He, Hpk in Ho. apply ReadKeyFile_ok in Hpk as (Hpl & _).
    destruct (package_roundtrip RuntimeTag (Serialise compiled) (build_metadata input now digest) ek sk nonce package Hbs Hbn Hln Hlen Hpl
      (or_intror eq_refl) Hb) as [_ Hopen]. rewrite Hopen in Ho. cbn [mbind res_bind o_ok] in Ho. injection Ho as <-.
    cbn [o_bytecode o_metadata] in *. split; [|done]. rewrite <- Serialise_without_sources in Hp, Hbs.
    pose proof (Parse_Serialise (without_sources compiled) Hbo) as Hp'.
    rewrite Hp in Hp'. by injection Hp' as ->.
Qed.

Lemma Build_keeps input now nonce writeArtifact wrote d r d' : site_ok RuntimeTag encryptionKeyPath publicKeyPath d ->
  run (BuildFromDirectory input now nonce writeArtifact wrote) d = Ok (r, d') -> site_ok RuntimeTag encryptionKeyPath publicKeyPath d'.
Proof.
  intros Hl H. unfold BuildFromDirectory in H. rewrite run_look in H.
  destruct (compile_stage input) as [[r0|[[r1 bundle] digest]]| |] eqn:Ec; cbn [mbind res_bind] in H; try done; [by injection H as _ <-|].
  rewrite run_look in H. cbn [mbind res_bind] in H.
  destruct (LoadEncryptionKey _ _) as [e|ek] eqn:Ee; [by injection H as _ <-|].
  destruct (LoadSecretKey _ _) as [e|sk]; [by injection H as _ <-|]. rewrite run_look in H.
  destruct (LuaPackage.Build _ _ _ _ _ _) as [built| |]; cbn [mbind res_bind] in H; try done.
  destruct (b_ok built); cbn [negb] in H; [|by injection H as _ <-]. rewrite run_look in H.
  destruct (verify_stage _ _ _ _) as [[r2|r2]| |] eqn:Ev; cbn [mbind res_bind] in H; try done; [by injection H as _ <-|].
  destruct writeArtifact; cbn [negb] in H; [|by injection H as _ <-]. rewrite run_locked in H. cbn [mbind res_bind] in H.
  destruct (verify_stage_ok _ _ _ _ _ Ee Ev) as (o & parsed & Ho & _). destruct (compile_stage_safe _ _ Ec) as [Ha Hv].
  destruct (package_file_simple input Ha Hv) as [Hs Hn]. unfold WriteWholeFile, PackagePath in H. fold (package_file input) in H.
  rewrite Hs in H. destruct wrote; [|by injection H as _ <-]. cbn in H. injection H as _ <-.
  refine (live_change RuntimeTag encryptionKeyPath publicKeyPath outside d _ _ _ Hl); [apply same_state; cbn; by apply lookup_insert_ne|].
  intros g _. eapply available_insert; [done|reflexivity|by exists o].
Qed.

(** ** Everything that changes the package directory *)

Hypothesis outside_name : forall f n, outside f = Some (Managed n) -> bytes_of n = filename (bytes_of f).

Inductive site_step (d d' : Disk) : Prop :=
| step_build input now nonce writeArtifact wrote r :
    run (BuildFromDirectory input now nonce writeArtifact wrote) d = Ok (r, d') -> site_step d d'
| step_manage : package_step RuntimeTag encryptionKeyPath publicKeyPath outside d d' -> site_step d d'.

Lemma site_step_keeps d d' : site_ok RuntimeTag encryptionKeyPath publicKeyPath d -> site_step d d' -> site_ok RuntimeTag encryptionKeyPath publicKeyPath d'.
Proof. intros Hl [input now nonce writeArtifact wrote r H|H]; [by eapply Build_keeps|by eapply step_keeps]. Qed.

(** C14: As long as operations on the packages run one at a time, the keys of
    this installation stay as they are, what is to be deployed or started is
    given by the name of a package (a safe component that ends in .pkg) and what
    is to be removed by a name without a separator: whatever is built, imported,
    removed, deployed, rolled back, started or stopped, whether or not the
    writes succeed, the deployed package, the one to roll back to and those that
    start at boot are always files of the package directory that open under
    these keys, none is listed twice, and the history is bounded.  (Without
    those conditions it fails: [deploy_remove_race] and
    [remove_deployed_by_another_name] in PackageManager.) *)
Theorem deployment_always_opens d d' : site_ok RuntimeTag encryptionKeyPath publicKeyPath d -> rtc site_step d d' ->
  let s := ReadState d' in
  (forall f, f ∈ active s :: previous s :: running s -> f = EmptyString \/
     exists bytes encryptionKey publicKey bytecode m, managed d' !! f = Some bytes /\
       LoadEncryptionKey encryptionKeyPath (keys d') = inr encryptionKey /\ LoadPublicKey publicKeyPath (keys d') = inr publicKey /\
       Open RuntimeTag bytes encryptionKey publicKey = Ok (mkOpen true bytecode m "" false false)) /\
  NoDup (running s) /\ (length (history s) <= kHistory)%nat.
Proof.
  intros Hl Hs. assert (site_ok RuntimeTag encryptionKeyPath publicKeyPath d') as [(Ha & Hp & Hr & Hn & _) Hlen] by (induction Hs; eauto using site_step_keeps).
  cbn zeta. split_and!; [|done|done]. intros f Hf.
  assert (f = EmptyString \/ available RuntimeTag encryptionKeyPath publicKeyPath d' f) as [->|(_ & _ & bytes & Hb & o & Ho)]; [|by left|right].
  { apply elem_of_cons in Hf as [->|[->|Hf]%elem_of_cons]; [done|done|]. right. rewrite Forall_forall in Hr. by apply Hr. }
  unfold open_with, load_keys in Ho. destruct (LoadEncryptionKey _ _) as [|ek] eqn:E1; [done|]. destruct (LoadPublicKey _ _) as [|pk] eqn:E2; [done|].
  destruct (Open RuntimeTag bytes ek pk) as [opened| |] eqn:E3; cbn [mbind res_bind] in Ho; try done.
  destruct (o_ok opened) eqn:E4; [|done]. exists bytes, ek, pk, (o_bytecode opened), (o_metadata opened). split_and!; try done.
  rewrite E3. f_equal. by apply (Open_flags RuntimeTag bytes ek pk).
Qed.

End Build.

(** ** A concrete installation *)

#[local] Existing Instance toy_crypto.
#[local] Existing Instance toy_sodium.
#[local] Existing Instance toy_text.

(** An interpreter that loads everything. *)
Definition toy_load (source name : list Z) : load_result := Loaded (Some (lua_signature ++ source)).
Abbreviation toy_site := (site_step (J := jtree_json) toy_load toy_tag_of_runtime "e" "p" "s" "lua_packages" toy_outside).

Definition toy_disk_1 : Disk := Eval vm_compute in after (toy_deploy line2 "dev" "now" Written) toy_disk.

Lemma deployment_always_opens_witness :
  rtc toy_site toy_disk toy_disk_1 /\ active (toy_read toy_disk_1) = line2 /\
  exists bytes m, managed toy_disk_1 !! line2 = Some bytes /\
    Open (J := jtree_json) toy_tag_of_runtime bytes toy_key (take kPublicKeyBytes toy_secret) = Ok (mkOpen true toy_bytecode m "" false false).
Proof.
  assert (run (toy_deploy line2 "dev" "now" Written) toy_disk = Ok (inr tt, toy_disk_1)) as Hrun by (vm_compute; reflexivity).
  assert (rtc toy_site toy_disk toy_disk_1) as Hs.
  { apply rtc_once, step_manage. refine (step_deploy _ _ _ _ _ _ line2 "dev" "now" Written _ _ Hrun). by vm_compute. }
  split; [exact Hs|]. assert (active (toy_read toy_disk_1) = line2) as E by (vm_compute; reflexivity). split; [exact E|].
  destruct (deployment_always_opens (J := jtree_json) toy_load toy_tag_of_runtime "e" "p" "s" "lua_packages" toy_outside toy_outside_name toy_disk toy_disk_1 toy_site_ok Hs) as [H _].
  destruct (H line2) as [Hd|(bytes & ek & pk & bc & m & Hb & He & Hp & Ho)]; [rewrite E; by left|done|].
  exists bytes, m. split; [exact Hb|].
  assert (LoadEncryptionKey "e" (keys toy_disk_1) = inr toy_key) as He' by (vm_compute; reflexivity).
  assert (LoadPublicKey "p" (keys toy_disk_1) = inr (take kPublicKeyBytes toy_secret)) as Hp' by (vm_compute; reflexivity).
  assert (managed toy_disk_1 !! line2 = Some toy_package) as Hb' by (vm_compute; reflexivity).
  assert (ek = toy_key) as -> by congruence. assert (pk = take kPublicKeyBytes toy_secret) as -> by congruence.
  assert (bytes = toy_package) as -> by congruence.
  assert (forall o, Open (J := jtree_json) toy_tag_of_runtime toy_package toy_key (take kPublicKeyBytes toy_secret) = Ok o -> o_bytecode o = toy_bytecode) as Hx.
  { assert (Open (J := jtree_json) toy_tag_of_runtime toy_package toy_key (take kPublicKeyBytes toy_secret) = Ok (mkOpen true toy_bytecode toy_meta "" false false))
      as Hv by (vm_compute; reflexivity). intros o. rewrite Hv. by intros [= <-]. }
  rewrite Ho. by rewrite <- (Hx _ Ho).
Defined.


(** A machine that builds: one source file, and the header of its package. *)
Definition build_input : BuildInput :=
  mkInput true true (b! "door/main.lua") [mkSource (b! "main.lua") (b! "door/main.lua") (Some (b! "return 1"))]
    "door" "1.0.0" "main.lua" "dev" "" "scripts/door".
Definition build_disk : Disk :=
  mkDisk ∅ ∅ (mkKeys (Some (ToHex toy_key)) (Some (ToHex (take kPublicKeyBytes toy_secret))) (Some (ToHex toy_secret))).
Definition build_header : list (string * jtree) := Eval vm_compute in
  match compile_stage toy_load build_input with
  | Ok (inr (_, bundle, digest)) =>
      header_fields (J := jtree_json) (complete toy_tag_of_runtime (build_metadata toy_tag_of_runtime build_input "now" digest)
        (Serialise bundle) (digest_hex (Serialise bundle))) toy_nonce
  | _ => []
  end.
Abbreviation toy_build_run := (run (BuildFromDirectory (J := jtree_json) (T := table_text build_header) toy_load toy_tag_of_runtime "e" "p" "s"
  "lua_packages" toy_outside build_input "now" toy_nonce true true) build_disk).
Definition built : BuildReport * Disk := Eval vm_compute in match toy_build_run with Ok x => x | _ => (no_report, build_disk) end.

Lemma built_package_deploys_witness :
  r_ok built.1 = true /\ package_path built.1 = "door-1.0.0.pkg"%string /\
  exists bundle, OpenBundle (J := jtree_json) (T := table_text build_header) toy_tag_of_runtime "e" "p" toy_outside "door-1.0.0.pkg" built.2 =
    Ok (inr (bundle, r_metadata built.1)).
Proof.
  assert (toy_build_run = Ok built) as E by (vm_compute; reflexivity). split; [reflexivity|]. split; [reflexivity|].
  destruct (built_package_deploys (J := jtree_json) (T := table_text build_header) toy_load toy_tag_of_runtime "e" "p" "s" "lua_packages" toy_outside
    build_input "now" toy_nonce true build_disk built.1 built.2 E eq_refl) as (r1 & compiled & digest & bundle & _ & Ho & _).
  exists bundle. exact Ho.
Defined.

(** A name that a build gives and that neither [Import] nor [Remove] takes. *)
Example long_name_refused :
  let app := text_of (replicate 60 97) in
  SafeComponent (bytes_of app) = true /\ SafeComponent (b! "1.0.0") = true /\ package_name (app ++ "-1.0.0.pkg")%string = false.
Proof. by vm_compute. Qed.

(** A module that is not a test is left out of the package. *)
Example testimony_is_a_test : kept (mkSource (b! "lib/testimony.lua") (b! "app/lib/testimony.lua") (Some [])) = false.
Proof. by vm_compute. Qed.

(** The line of a message about a file with a long name is not found: the
    interpreter shortens the name it prints. *)
Example long_chunk_name_loses_the_line :
  ParseErrorLine (b! "...ication/modules/hardware/door_controller_main.lua:14: unexpected symbol")
    (b! "@modules_of_the_application/modules/hardware/door_controller_main.lua") = 0 /\
  ParseErrorLine (b! "main.lua:14: unexpected symbol") (b! "@main.lua") = 14.
Proof. by vm_compute. Qed.
