(* ===== verification/UrlQuery.v ===== *)
(** * The query of a request (src/WebServer.cpp, [UrlDecode], [ParseQueryString]) *)

From S2P Require Import Prelude Words Text Sha256 LogStore LuaPackage.

(** [std::stoi(_, nullptr, 16)] of two hexadecimal digits. *)
Definition hex_two (h l : Z) : Z := default 0 (hex_nibble h) * 16 + default 0 (hex_nibble l).

Fixpoint UrlDecode (text : list Z) : list Z :=
  match text with
  | [] => []
  | c :: rest =>
      if c =? 43 then 32 :: UrlDecode rest
      else if c =? 37 then
        match rest with
        | h :: l :: rest' => if is_xdigit h && is_xdigit l then hex_two h l :: UrlDecode rest' else c :: UrlDecode rest
        | _ => c :: UrlDecode rest
        end
      else c :: UrlDecode rest
  end.

Abbreviation Query := (gmap (list Z) (list Z)).

Definition add_pair (out : Query) (pair : list Z) : Query :=
  if bool_decide (pair = []) then out
  else match until 61 pair with
       | (name, _ :: value) => <[UrlDecode name := UrlDecode value]> out
       | (name, []) => <[UrlDecode pair := []]> out
       end.

(** The pairs between the ampersands after the first question mark; of two
    with one name the later wins. *)
Definition ParseQueryString (rawUrl : list Z) : Query :=
  match until 63 rawUrl with
  | (_, []) => ∅
  | (_, _ :: query) => foldl add_pair ∅ (split_on 38 query)
  end.

(** ** Round trip *)

(** What a client sends for a byte, a text, and the pairs of a query. *)
Definition encode_byte (b : Z) : list Z := if is_alnum b then [b] else 37 :: hex_byte b.
Definition EncodeQuery (text : list Z) : list Z := concat (map encode_byte text).
Definition encode_pair (pair : list Z * list Z) : list Z := EncodeQuery pair.1 ++ [61] ++ EncodeQuery pair.2.

Definition query_of (pairs : list (list Z * list Z)) : list Z := join_on 38 (map encode_pair pairs).

(** The bytes a query is made of stay apart from the marks between them. *)
Definition plain_byte (b : Z) : bool := is_alnum b || (b =? 37).

Definition encode_check (b : Z) : bool :=
  (if is_alnum b then negb (b =? 43) && negb (b =? 37)
   else match hex_byte b with
        | [h; l] => is_xdigit h && is_xdigit l && (hex_two h l =? b)
        | _ => false
        end) && forallb plain_byte (encode_byte b).

Lemma encode_byte_check b : byte_ok b -> encode_check b = true.
Proof. apply byte_cases. vm_compute. reflexivity. Qed.

Lemma decode_byte b rest : byte_ok b -> UrlDecode (encode_byte b ++ rest) = b :: UrlDecode rest.
Proof.
  intros Hb. pose proof (encode_byte_check b Hb) as H. unfold encode_check in H. unfold encode_byte in *. destruct (is_alnum b).
  - reflect_bools. cbn. by rewrite (proj2 (Z.eqb_neq b 43)), (proj2 (Z.eqb_neq b 37)) by lia.
  - destruct (hex_byte b) as [|h [|l [|? ?]]]; try done. apply andb_true_iff in H as (H & _).
    apply andb_true_iff in H as (Hd & Hv%Z.eqb_eq). cbn [app UrlDecode]. cbn. by rewrite Hd, Hv.
Qed.

Lemma decode_encode text : bytes_ok text -> UrlDecode (EncodeQuery text) = text.
Proof. unfold EncodeQuery. induction 1 as [|b text Hb _ IH]; [done|]. cbn [map concat]. rewrite decode_byte by done. by rewrite IH. Qed.

Lemma encode_plain text : bytes_ok text -> forallb plain_byte (EncodeQuery text) = true.
Proof.
  unfold EncodeQuery. induction 1 as [|b text Hb _ IH]; [done|]. cbn [map concat]. rewrite forallb_app, IH.
  pose proof (encode_byte_check b Hb) as H. unfold encode_check in H. apply andb_true_iff in H as (_ & ->). done.
Qed.

Lemma plain_free mark text : plain_byte mark = false -> forallb plain_byte text = true -> mark ∉ text.
Proof. intros Hm Ht Hin. rewrite forallb_forall in Ht. specialize (Ht mark). rewrite Hm in Ht. by apply list_elem_of_In, Ht in Hin. Qed.

Definition bytes_pair_ok (p : list Z * list Z) : Prop := bytes_ok p.1 /\ bytes_ok p.2.

Lemma encoded_no_mark mark p : plain_byte mark = false -> mark <> 61 -> bytes_pair_ok p -> mark ∉ encode_pair p.
Proof.
  intros Hm Hne (H1 & H2). unfold encode_pair. rewrite !elem_of_app, list_elem_of_singleton.
  pose proof (plain_free mark _ Hm (encode_plain _ H1)). pose proof (plain_free mark _ Hm (encode_plain _ H2)). tauto.
Qed.

Lemma add_encoded out p : bytes_pair_ok p -> add_pair out (encode_pair p) = <[p.1 := p.2]> out.
Proof.
  intros (H1 & H2). unfold add_pair. rewrite bool_decide_false by (unfold encode_pair; by destruct (EncodeQuery p.1)).
  unfold encode_pair. cbn [app]. rewrite until_unique by (by right || (apply plain_free; [done|by apply encode_plain])).
  by rewrite !decode_encode.
Qed.

(** What a client sends is what the handler gets: the query built from any
    pairs of names and values, percent-encoded, parses to those pairs, a later
    one replacing an earlier one of its name. *)
Theorem query_roundtrip path pairs :
  63 ∉ path -> Forall bytes_pair_ok pairs ->
  ParseQueryString (path ++ [63] ++ query_of pairs) = foldl (fun out p => <[p.1 := p.2]> out) ∅ pairs.
Proof.
  intros Hp Hok. unfold ParseQueryString, query_of. cbn [app]. rewrite until_unique by (done || by right).
  destruct (decide (pairs = [])) as [->|Hne]; [done|].
  rewrite split_join_on.
  - generalize (∅ : Query) as out. clear Hne. induction Hok as [|p pairs H _ IH]; intros out; [done|].
    cbn [map foldl]. by rewrite add_encoded.
  - apply Forall_fmap. eapply Forall_impl; [exact Hok|]. intros p H. by apply encoded_no_mark.
  - by destruct pairs.
Qed.

Definition demo_pairs : list (list Z * list Z) := [(b! "status", b! "EM PTY"); (b! "a&b", b! "50%"); (b! "status", b! "+")].

Lemma query_roundtrip_witness :
  ParseQueryString (b! "/api/app/lockers" ++ [63] ++ query_of demo_pairs) = <[b! "status" := b! "+"]> {[b! "a&b" := b! "50%"]}.
Proof.
  rewrite (query_roundtrip (b! "/api/app/lockers") demo_pairs).
  - vm_compute. reflexivity.
  - by apply (bool_decide_unpack (63 ∉ b! "/api/app/lockers")).
  - repeat (split || constructor); try discriminate; done.
Defined.
