(* ===== verification/LuaRoutes.v ===== *)
(** * The routes a Lua script serves (src/LuaEngine.cpp, [Http.*])

    A script registers (method, path) pairs; a path may have segments written
    [<name>] that match any one segment of a request.  The table is a
    [std::map] by ["METHOD path"], here a [gmap] whose iterations are sorted by
    key; the handlers are references into the registry of the script's VM,
    handed out by [luaL_ref], which is a parameter ([LuaRegistry]). *)

From S2P Require Import Prelude Text.

(** ** The table *)

Record HttpRoute := mkRoute { r_method : list Z; r_path : list Z; handlerRef : Z }.

Definition LUA_NOREF : Z := -2.

(** [luaL_ref]: an integer that is not in use, and neither [LUA_NOREF] nor
    [LUA_REFNIL]. *)
Class LuaRegistry := {
  luaL_ref : gset Z -> Z;
  luaL_ref_fresh used : luaL_ref used ∉ used;
  luaL_ref_positive used : 0 < luaL_ref used }.

Definition slash : list Z := [47].

Definition HttpRouteKey (method path : list Z) : list Z := map toupper method ++ [32] ++ trim slash path.

(** The segments between slashes, the empty ones left out. *)
Definition SplitPath (path : list Z) : list (list Z) :=
  List.filter (fun segment => negb (bool_decide (segment = []))) (split_on 47 path).

Definition wildcard (segment : list Z) : bool :=
  (2 <=? length segment)%nat && bool_decide (head segment = Some 60) && bool_decide (last segment = Some 62).

Fixpoint segments_loop (pattern actual : list (list Z)) : bool :=
  match pattern, actual with
  | segment :: pattern', other :: actual' =>
      if wildcard segment then segments_loop pattern' actual'
      else if negb (bool_decide (segment = other)) then false else segments_loop pattern' actual'
  | _, _ => true
  end.

Definition SegmentsMatch (pattern actual : list (list Z)) : bool :=
  if negb (length pattern =? length actual)%nat then false else segments_loop pattern actual.

Abbreviation Routes := (gmap (list Z) HttpRoute).

(** The order in which a [std::map] is walked. *)
Definition key_leb {A} (a b : list Z * A) : bool := lex_leb a.1 b.1.
Definition in_key_order {A} (m : gmap (list Z) A) : list (list Z * A) := sort_by key_leb (map_to_list m).

Definition has_route (routes : Routes) (key : list Z) : bool := bool_decide (is_Some (routes !! key)).

Definition pattern_fits (upperMethod : list Z) (actual : list (list Z)) (entry : list Z * HttpRoute) : bool :=
  let route := entry.2 in
  if negb (bool_decide (r_method route = upperMethod)) && negb (bool_decide (r_method route = b! "ANY")) then false
  else if negb (bool_decide (60 ∈ r_path route)) then false
  else SegmentsMatch (SplitPath (r_path route)) actual.

(** An exact key, the same under ANY, then the first pattern in key order; the
    empty text when nothing serves the request. *)
Definition MatchHttpRouteUnlocked (routes : Routes) (method path : list Z) : list Z :=
  let exact := HttpRouteKey method path in
  if has_route routes exact then exact
  else
    let anyExact := HttpRouteKey (b! "ANY") path in
    if has_route routes anyExact then anyExact
    else match List.find (pattern_fits (map toupper method) (SplitPath path)) (in_key_order routes) with
         | Some entry => entry.1
         | None => []
         end.

Definition HandlesHttp (routes : Routes) (method path : list Z) : bool :=
  if bool_decide (routes = ∅) then false
  else negb (bool_decide (MatchHttpRouteUnlocked routes method path = [])).

Definition HttpRoutes (routes : Routes) : list (list Z) := map fst (in_key_order routes).

(** The part of a script's VM the routes live in: the table, and the
    references of its registry that are in use. *)
Record RouteTable := mkRouteTable { httpRoutes_ : Routes; registry : gset Z }.

Definition route_of (key : list Z) (ref : Z) : HttpRoute :=
  let '(method, rest) := until 32 key in mkRoute method (drop 1 rest) ref.

(** The reference a route's handler has, when it has one, is given back. *)
Definition unref (route : option HttpRoute) (used : gset Z) : gset Z :=
  match route with
  | Some r => if handlerRef r =? LUA_NOREF then used else used ∖ {[handlerRef r]}
  | None => used
  end.

(** [Http.Register] and [Http.Unregister], with C strings as arguments; the
    second says whether there was such a route. *)
Definition Lua_Http_Register {R : LuaRegistry} (method path : list Z) (t : RouteTable) : RouteTable :=
  let ref := luaL_ref (registry t) in
  let used := {[ref]} ∪ registry t in
  let key := HttpRouteKey (c_str method) (c_str path) in
  mkRouteTable (<[key := route_of key ref]> (httpRoutes_ t)) (unref (httpRoutes_ t !! key) used).

Definition Lua_Http_Unregister (method path : list Z) (t : RouteTable) : bool * RouteTable :=
  let key := HttpRouteKey (c_str method) (c_str path) in
  match httpRoutes_ t !! key with
  | None => (false, t)
  | Some r => (true, mkRouteTable (delete key (httpRoutes_ t)) (unref (Some r) (registry t)))
  end.

(** ** The order of the keys *)

Lemma lex_leb_refl a : lex_leb a a = true.
Proof. induction a as [|x a IH]; [done|]. cbn. rewrite Z.eqb_refl, IH. by rewrite orb_true_r. Qed.

Lemma lex_leb_total a : forall b, lex_leb a b = false -> lex_leb b a = true.
Proof.
  induction a as [|x a IH]; intros [|y b]; cbn; try done. intros [H1%Z.ltb_ge H2]%orb_false_iff.
  destruct (decide (y < x)); [by rewrite (proj2 (Z.ltb_lt y x)) by lia|].
  assert (x = y) as -> by lia. rewrite Z.eqb_refl in *. cbn in H2. rewrite (IH b H2). by rewrite orb_true_r.
Qed.

Lemma lex_leb_trans a : forall b c, lex_leb a b = true -> lex_leb b c = true -> lex_leb a c = true.
Proof.
  induction a as [|x a IH]; intros [|y b] [|z c]; cbn; try done.
  rewrite !orb_true_iff, !andb_true_iff, !Z.ltb_lt, !Z.eqb_eq. intros [H1|[-> H1]] [H2|[-> H2]].
  1,2,3: left; lia. right. split; [done|]. by apply (IH b).
Qed.

Lemma lex_leb_antisym a : forall b, lex_leb a b = true -> lex_leb b a = true -> a = b.
Proof.
  induction a as [|x a IH]; intros [|y b]; cbn; try done.
  rewrite !orb_true_iff, !andb_true_iff, !Z.ltb_lt, !Z.eqb_eq. intros [H1|[-> H1]] [H2|[? H2]]; try lia.
  f_equal. by apply IH.
Qed.

Lemma in_key_order_perm {A} (m : gmap (list Z) A) : in_key_order m ≡ₚ map_to_list m.
Proof. apply sort_by_perm. Qed.

Lemma elem_of_in_key_order {A} (m : gmap (list Z) A) k a : (k, a) ∈ in_key_order m <-> m !! k = Some a.
Proof. by rewrite in_key_order_perm, elem_of_map_to_list. Qed.

Lemma in_key_order_sorted {A} (m : gmap (list Z) A) :
  StronglySorted (fun a b => lex_leb a.1 b.1 = true) (in_key_order m).
Proof.
  apply (sort_by_sorted key_leb (fun _ => True)).
  - intros [a ?] [b ?] _ _. apply lex_leb_total.
  - intros [a ?] [b ?] [c ?] _ _ _. apply lex_leb_trans.
  - by apply Forall_true.
Qed.

(** The first entry that satisfies a test has the least key among those that do. *)
Lemma find_first_key {A} (m : gmap (list Z) A) (p : list Z * A -> bool) k a :
  List.find p (in_key_order m) = Some (k, a) ->
  m !! k = Some a /\ p (k, a) = true /\ forall k' a', m !! k' = Some a' -> p (k', a') = true -> lex_leb k k' = true.
Proof.
  intros H. pose proof (find_some_elem _ _ _ H) as [Hin Hp]. split_and!; [by apply elem_of_in_key_order|done|].
  intros k' a' Hin'%elem_of_in_key_order Hp'. revert H Hin'. generalize (in_key_order_sorted m).
  clear Hin. induction 1 as [|x l Hs IH Hx]; [done|]. cbn. destruct (p x) eqn:E; intros H Hin'.
  - injection H as ->. apply elem_of_cons in Hin' as [[= -> ->]|Hin']; [apply lex_leb_refl|].
    rewrite Forall_forall in Hx. by apply (Hx (k', a')).
  - apply elem_of_cons in Hin' as [<-|Hin']; [congruence|]. by apply IH.
Qed.

(** ** What a route serves *)

Definition segment_served (pattern actual : list Z) : Prop :=
  pattern = actual \/ exists name, pattern = 60 :: name ++ [62].

(** The path of a route: the same without the slashes around it, or one with
    wildcards whose segments fit one by one. *)
Definition path_served (path : list Z) (asked : list Z) : Prop :=
  path = trim slash asked \/ (60 ∈ path /\ Forall2 segment_served (SplitPath path) (SplitPath asked)).

Definition route_serves (route : HttpRoute) (method path : list Z) : Prop :=
  (r_method route = map toupper method \/ r_method route = b! "ANY") /\ path_served (r_path route) path.

(** How close a route is to the request: the very route, the path under ANY, a
    pattern. *)
Definition closeness (key method path : list Z) : nat :=
  if bool_decide (key = HttpRouteKey method path) then 0
  else if bool_decide (key = HttpRouteKey (b! "ANY") path) then 1 else 2.

(** The keys are the routes'. *)
Definition route_keys_ok (routes : Routes) : Prop :=
  forall key r, routes !! key = Some r -> key = r_method r ++ [32] ++ r_path r /\ 32 ∉ r_method r.

Lemma wildcard_iff segment : wildcard segment = true <-> exists name, segment = 60 :: name ++ [62].
Proof.
  unfold wildcard. rewrite !andb_true_iff, Nat.leb_le, !bool_decide_eq_true. split.
  - intros ((Hl & Hh) & Ht). destruct segment as [|a rest]; [done|]. injection Hh as ->.
    destruct rest as [|b rest'] using rev_ind; [cbn in Hl; lia|]. exists rest'. f_equal. f_equal.
    change (60 :: rest' ++ [b]) with ((60 :: rest') ++ [b]) in Ht. rewrite last_snoc in Ht. by injection Ht as ->.
  - intros (name & ->). split_and!; [cbn; rewrite length_app; cbn; lia|done|].
    change (60 :: name ++ [62]) with ((60 :: name) ++ [62]). apply last_snoc.
Qed.

Lemma SegmentsMatch_iff pattern : forall actual, SegmentsMatch pattern actual = true <-> Forall2 segment_served pattern actual.
Proof.
  unfold SegmentsMatch. induction pattern as [|a pattern IH]; intros [|b actual]; cbn; try (split; [done|by inversion 1]).
  rewrite Forall2_cons. rewrite <- IH. unfold segment_served. rewrite <- wildcard_iff.
  destruct (length pattern =? length actual)%nat; cbn; [|by split; [|intros (_ & ?)]].
  destruct (wildcard a); [by split; [split; [right|]|intros (_ & ?)]|].
  destruct (decide (a = b)) as [->|Hn]; [rewrite bool_decide_true by done|rewrite bool_decide_false by done]; cbn.
  - split; [by split; [left|]|by intros (_ & ?)].
  - split; [done|by intros ([?|?] & _)].
Qed.

Lemma pattern_fits_iff method path key r : pattern_fits (map toupper method) (SplitPath path) (key, r) = true <->
  (r_method r = map toupper method \/ r_method r = b! "ANY") /\ 60 ∈ r_path r /\
  Forall2 segment_served (SplitPath (r_path r)) (SplitPath path).
Proof.
  unfold pattern_fits. cbn [snd]. rewrite <- SegmentsMatch_iff.
  repeat case_bool_decide; cbn; intuition congruence.
Qed.

Lemma key_split a b c d : 32 ∉ a -> 32 ∉ c -> a ++ [32] ++ b = c ++ [32] ++ d -> a = c /\ b = d.
Proof.
  revert c. induction a as [|x a IH]; intros [|y c] Ha Hc E; cbn in *.
  - by injection E.
  - injection E as <- _. by rewrite elem_of_cons in Hc; destruct Hc; left.
  - injection E as -> _. by rewrite elem_of_cons in Ha; destruct Ha; left.
  - injection E as -> E. rewrite elem_of_cons in Ha, Hc.
    destruct (IH c) as [-> ->]; [tauto|tauto|done|done].
Qed.

Lemma upper_no_space method : 32 ∉ method -> 32 ∉ map toupper method.
Proof.
  intros H (c & E & Hc)%list_elem_of_fmap. apply H. assert (c = 32) as <- by (unfold toupper in E; destruct (_ && _) eqn:Eb; lia). done.
Qed.

(** A route whose key is that of a method and the path has that method and path. *)
Lemma exact_route routes key r method path : route_keys_ok routes -> 32 ∉ method -> routes !! key = Some r ->
  key = HttpRouteKey method path <-> r_method r = map toupper method /\ r_path r = trim slash path.
Proof.
  intros Hk Hm Hr. destruct (Hk _ _ Hr) as (E & Hs). unfold HttpRouteKey. split.
  - intros ->. apply key_split in E as (-> & ->); [done|by apply upper_no_space|done].
  - intros (<- & <-). done.
Qed.

Lemma key_not_empty method path : HttpRouteKey method path <> [].
Proof. unfold HttpRouteKey. by destruct (map toupper method). Qed.

Lemma stored_key_not_empty routes key r : route_keys_ok routes -> routes !! key = Some r -> key <> [].
Proof. intros Hk Hr ->. destruct (Hk _ _ Hr) as (E & _). by destruct (r_method r). Qed.

(** The three ways to be served, and how close each is. *)
Lemma route_serves_cases routes key r method path : route_keys_ok routes -> 32 ∉ method -> routes !! key = Some r ->
  route_serves r method path <->
  key = HttpRouteKey method path \/ key = HttpRouteKey (b! "ANY") path \/
  pattern_fits (map toupper method) (SplitPath path) (key, r) = true.
Proof.
  intros Hk Hm Hr. rewrite (exact_route _ _ _ _ path Hk Hm Hr), pattern_fits_iff.
  rewrite (exact_route _ _ _ (b! "ANY") path Hk ltac:(by apply (bool_decide_unpack (32 ∉ b! "ANY"))) Hr).
  change (map toupper (b! "ANY")) with (b! "ANY"). unfold route_serves, path_served. tauto.
Qed.

(** The route [MatchHttpRouteUnlocked] names serves the request, and none
    serves it more closely, or as closely with a smaller key; it names none
    only when none serves it. *)
Definition best_route (routes : Routes) (method path key : list Z) : Prop :=
  exists r, routes !! key = Some r /\ route_serves r method path /\
  forall key' r', routes !! key' = Some r' -> route_serves r' method path ->
    (closeness key method path < closeness key' method path)%nat \/
    (closeness key method path = closeness key' method path /\ lex_leb key key' = true).

Lemma has_route_some routes key : has_route routes key = true <-> exists r, routes !! key = Some r.
Proof. unfold has_route. rewrite bool_decide_eq_true. by split. Qed.

Lemma closest_key routes key method path : route_keys_ok routes -> 32 ∉ method ->
  (key = HttpRouteKey method path \/
   (key = HttpRouteKey (b! "ANY") path /\ has_route routes (HttpRouteKey method path) = false)) ->
  has_route routes key = true -> best_route routes method path key.
Proof.
  intros Hk Hm Hkey (r & Hr)%has_route_some. exists r. split; [done|]. split; [apply (route_serves_cases routes key); tauto|].
  intros key' r' Hr' _. unfold closeness.
  destruct Hkey as [->|(-> & Hno)].
  - rewrite (bool_decide_true _ eq_refl). case_bool_decide as E1; [right; split; [done|rewrite E1; apply lex_leb_refl]|].
    left. case_bool_decide; lia.
  - assert (forall k s, routes !! k = Some s -> k <> HttpRouteKey method path) as Hne.
    { intros k s Hs ->. apply not_true_iff_false in Hno. apply Hno, has_route_some. by exists s. }
    rewrite !(bool_decide_false _ (Hne _ _ Hr)), !(bool_decide_false _ (Hne _ _ Hr')), (bool_decide_true _ eq_refl).
    case_bool_decide as E1; [right; split; [done|rewrite E1; apply lex_leb_refl]|left; lia].
Qed.

(** The route the matcher names, in the order of the code: ANY with the very path
    before every pattern. *)
Lemma match_best routes method path : route_keys_ok routes -> 32 ∉ method ->
  match MatchHttpRouteUnlocked routes method path with
  | [] => forall key r, routes !! key = Some r -> ~ route_serves r method path
  | key => best_route routes method path key
  end.
Proof.
  intros Hk Hm.
  unfold MatchHttpRouteUnlocked. destruct (has_route routes (HttpRouteKey method path)) eqn:E1.
    { pose proof (closest_key routes _ method path Hk Hm (or_introl eq_refl) E1).
      destruct (HttpRouteKey method path) eqn:E; [by destruct (key_not_empty method path)|done]. }
    destruct (has_route routes (HttpRouteKey (b! "ANY") path)) eqn:E2.
    { pose proof (closest_key routes _ method path Hk Hm (or_intror (conj eq_refl E1)) E2).
      destruct (HttpRouteKey (b! "ANY") path) eqn:E; [by destruct (key_not_empty (b! "ANY") path)|done]. }
    assert (forall k s, routes !! k = Some s -> k <> HttpRouteKey method path /\ k <> HttpRouteKey (b! "ANY") path) as Hne.
    { intros k s Hs. apply not_true_iff_false in E1, E2.
      split; intros ->; [apply E1|apply E2]; apply has_route_some; by exists s. }
    destruct (List.find _ _) as [[key r]|] eqn:E3.
    - destruct (find_first_key _ _ _ _ E3) as (Hr & Hp & Hfirst). cbn [fst].
      pose proof (stored_key_not_empty _ _ _ Hk Hr). destruct key as [|b0 key]; [done|]. exists r.
      split; [done|]. split; [apply (route_serves_cases routes _ r method path Hk Hm Hr); tauto|].
      intros key' r' Hr' Hs'. apply (route_serves_cases routes _ r' method path Hk Hm Hr') in Hs'.
      destruct (Hne _ _ Hr) as (N1 & N2), (Hne _ _ Hr') as (N1' & N2'). right. unfold closeness.
      rewrite !(bool_decide_false _ N1), !(bool_decide_false _ N1'), !(bool_decide_false _ N2), !(bool_decide_false _ N2').
      split; [done|]. apply (Hfirst _ r'); [done|tauto].
    - intros key r Hr Hs. apply (route_serves_cases routes _ r method path Hk Hm Hr) in Hs.
      destruct (Hne _ _ Hr) as (N1 & N2). destruct Hs as [|[|Hs]]; [done|done|].
      apply elem_of_in_key_order in Hr. by rewrite (find_none_elem _ _ _ E3 Hr) in Hs.
Qed.

(** The documented order: the very route, the method's own patterns, then the
    same two under ANY. *)
Definition documented_rank (r : HttpRoute) (key method path : list Z) : nat :=
  if bool_decide (key = HttpRouteKey method path) then 0
  else if bool_decide (r_method r = map toupper method) then 1
  else if bool_decide (key = HttpRouteKey (b! "ANY") path) then 2 else 3.

Definition documented_route (routes : Routes) (method path key : list Z) : Prop :=
  exists r, routes !! key = Some r /\ route_serves r method path /\
  forall key' r', routes !! key' = Some r' -> route_serves r' method path ->
    (documented_rank r key method path < documented_rank r' key' method path)%nat \/
    (documented_rank r key method path = documented_rank r' key' method path /\ lex_leb key key' = true).

(** No route has the very method and path, and both the method's own routes and
    routes under ANY serve the request. *)
Definition contested (routes : Routes) (method path : list Z) : Prop :=
  routes !! HttpRouteKey method path = None /\
  exists key key' r r', routes !! key = Some r /\ routes !! key' = Some r' /\ route_serves r method path /\ route_serves r' method path /\
    r_method r <> r_method r'.

Lemma no_exact routes method path key r : route_keys_ok routes -> 32 ∉ method -> key <> HttpRouteKey method path ->
  (forall key' r', routes !! key' = Some r' -> route_serves r' method path ->
    (closeness key method path < closeness key' method path)%nat \/ (closeness key method path = closeness key' method path /\ lex_leb key key' = true)) ->
  routes !! key = Some r -> routes !! HttpRouteKey method path = None.
Proof.
  intros Hk Hm E Hbest Hr. destruct (routes !! HttpRouteKey method path) as [r0|] eqn:E0; [|done]. exfalso.
  assert (route_serves r0 method path) as Hs.
  { destruct (proj1 (exact_route routes _ _ method path Hk Hm E0) eq_refl). split; by left. }
  unfold closeness in Hbest.
  destruct (Hbest _ _ E0 Hs) as [H|[H _]]; rewrite (bool_decide_true _ (eq_refl (HttpRouteKey method path))), (bool_decide_false _ E) in H;
    case_bool_decide; lia.
Qed.

Lemma best_documented routes method path key : route_keys_ok routes -> 32 ∉ method -> ~ contested routes method path ->
  best_route routes method path key -> documented_route routes method path key.
Proof.
  intros Hk Hm Hc (r & Hr & Hs & Hbest). exists r. split_and!; [done|done|]. intros key' r' Hr' Hs'. unfold documented_rank.
  destruct (decide (key = HttpRouteKey method path)) as [E|E].
  { rewrite (bool_decide_true _ E). case_bool_decide as E'; [right; split; [done|rewrite E, E'; apply lex_leb_refl]|].
    left. repeat case_bool_decide; lia. }
  pose proof (no_exact _ _ _ _ _ Hk Hm E Hbest Hr) as Hno.
  assert (key' <> HttpRouteKey method path) as E' by congruence.
  assert (r_method r = r_method r') as Hmm.
  { destruct (decide (r_method r = r_method r')); [done|]. exfalso. apply Hc. split; [done|]. by exists key, key', r, r'. }
  assert (forall k q, routes !! k = Some q -> k <> HttpRouteKey method path -> r_method q = map toupper method -> k <> HttpRouteKey (b! "ANY") path) as Hany.
  { intros k q Hq Hne Hmq Hx. destruct (exact_route routes k q (b! "ANY") path Hk ltac:(by apply (bool_decide_unpack (32 ∉ b! "ANY"))) Hq) as (H1 & _).
    destruct (H1 Hx) as (_ & Hp). apply Hne. by apply (exact_route routes k q method path Hk Hm Hq). }
  destruct (Hbest key' r' Hr' Hs') as [H|[H Hlex]]; unfold closeness in H;
    rewrite (bool_decide_false _ E), (bool_decide_false _ E') in *; rewrite <- Hmm; destruct (decide (r_method r = map toupper method)) as [Hup|Hup].
  all: rewrite ?(bool_decide_true _ Hup), ?(bool_decide_false _ Hup).
  1,3: rewrite (bool_decide_false _ (Hany _ _ Hr E Hup)), (bool_decide_false _ (Hany _ _ Hr' E' ltac:(congruence))) in H; first [lia|by right].
  all: repeat case_bool_decide; first [lia|by right|by left; lia].
Qed.

(** C37: A request is served exactly when some route that a script has registered
    serves it - under its method or ANY, with the very path, or with a pattern
    whose segments equal the path's, [<name>] standing for any one.  Then, unless
    both a pattern of its own method and a route under ANY serve it and none has
    the very method and path ([any_before_pattern]), it goes to the route with its
    very method and path, else to its method's first pattern in key order, else
    to the same two under ANY. *)
Theorem route_found_exactly routes method path :
  route_keys_ok routes -> 32 ∉ method ->
  (HandlesHttp routes method path = true <-> exists key r, routes !! key = Some r /\ route_serves r method path) /\
  (HandlesHttp routes method path = true -> ~ contested routes method path ->
     documented_route routes method path (MatchHttpRouteUnlocked routes method path)).
Proof.
  intros Hk Hm. unfold HandlesHttp. pose proof (match_best routes method path Hk Hm) as Hmatch.
  destruct (decide (routes = ∅)) as [->|Hne]; [rewrite bool_decide_true by done|rewrite bool_decide_false by done].
  { split; [|done]. split; [done|]. intros (key & r & Hr & _). by rewrite lookup_empty in Hr. }
  destruct (MatchHttpRouteUnlocked routes method path) as [|b0 key] eqn:E.
  - split; [|done]. split; [done|]. intros (key & r & Hr & Hs). by destruct (Hmatch key r Hr).
  - split; [|intros _ Hc; by apply best_documented]. split; [|done]. intros _. destruct Hmatch as (r & Hr & Hs & _). by exists (b0 :: key), r.
Qed.

(** ** The table through registrations *)

(** The keys are the routes', and of the registry's references exactly those
    that are not the rest of the VM's belong to one route each. *)
Record route_table_ok (base : gset Z) (t : RouteTable) : Prop := {
  table_keys : route_keys_ok (httpRoutes_ t);
  table_refs : forall x, x ∈ registry t <-> (x ∈ base) \/ exists key r, httpRoutes_ t !! key = Some r /\ handlerRef r = x;
  table_apart : forall key r, httpRoutes_ t !! key = Some r -> (handlerRef r ∉ base) /\ handlerRef r <> LUA_NOREF;
  table_own : forall key key' r r', httpRoutes_ t !! key = Some r -> httpRoutes_ t !! key' = Some r' ->
    handlerRef r = handlerRef r' -> key = key' }.

Inductive route_call := Registers (method path : list Z) | Unregisters (method path : list Z).

Definition route_step {R : LuaRegistry} (t : RouteTable) (c : route_call) : RouteTable :=
  match c with
  | Registers method path => Lua_Http_Register method path t
  | Unregisters method path => (Lua_Http_Unregister method path t).2
  end.

Lemma route_of_key method path ref : let key := HttpRouteKey method path in
  key = r_method (route_of key ref) ++ [32] ++ r_path (route_of key ref) /\ (32 ∉ r_method (route_of key ref)) /\
  handlerRef (route_of key ref) = ref.
Proof.
  intros key. unfold route_of. assert (32 ∈ key) as Hin by (unfold key, HttpRouteKey; set_solver).
  pose proof (until_shape 32 key) as Hs. destruct (until 32 key) as [a c].
  destruct Hs as (E & Ha & Hc). cbn. split_and!; [|done|done].
  destruct Hc as [->|Hc]; [rewrite app_nil_r in E; by rewrite E in Hin|].
  destruct c as [|b c]; [done|]. by injection Hc as ->.
Qed.

Lemma elem_of_unref base t key x : route_table_ok base t ->
  x ∈ unref (httpRoutes_ t !! key) (registry t) <->
  x ∈ registry t /\ forall r, httpRoutes_ t !! key = Some r -> handlerRef r <> x.
Proof.
  intros Hok. unfold unref. destruct (httpRoutes_ t !! key) as [r|] eqn:E.
  - destruct (table_apart _ _ Hok _ _ E) as (_ & Hn). apply Z.eqb_neq in Hn. cbn. rewrite Hn.
    rewrite elem_of_difference, elem_of_singleton. split.
    + intros (? & Hx). split; [done|]. intros r1 [= <-] E1. by rewrite E1 in Hx.
    + intros (? & Hx). split; [done|]. intros ->. by apply (Hx r).
  - split; [by split|by intros (? & _)].
Qed.

Lemma register_ok {R : LuaRegistry} base t method path : route_table_ok base t -> route_table_ok base (Lua_Http_Register method path t).
Proof.
  intros Hok. unfold Lua_Http_Register. set (ref := luaL_ref (registry t)). set (key := HttpRouteKey _ _).
  pose proof (luaL_ref_fresh (registry t)) as Hfresh. pose proof (luaL_ref_positive (registry t)) as Hpos.
  fold ref in Hfresh, Hpos. destruct (route_of_key (c_str method) (c_str path) ref) as (K1 & K2 & K3). fold key in K1, K2, K3.
  assert (forall k r, httpRoutes_ t !! k = Some r -> handlerRef r <> ref) as Hother.
  { intros k r Hk <-. apply Hfresh, (table_refs _ _ Hok). right. by exists k, r. }
  constructor; cbn [httpRoutes_ registry].
  - intros k r. rewrite lookup_insert_Some. intros [[<- <-]|[? Hk]]; [done|by apply (table_keys _ _ Hok)].
  - intros x. pose proof (elem_of_unref base t key x Hok) as Hu. cbn [httpRoutes_ registry] in *.
    assert (x ∈ unref (httpRoutes_ t !! key) ({[ref]} ∪ registry t) <-> x = ref \/ x ∈ unref (httpRoutes_ t !! key) (registry t)) as ->.
    { unfold unref. destruct (httpRoutes_ t !! key) as [r|] eqn:E; [|set_solver].
      destruct (_ =? _); [set_solver|]. pose proof (Hother _ _ E). set_solver. }
    rewrite Hu, (table_refs _ _ Hok). split.
    + intros [->|([?|(k & r & Hk & <-)] & Hne)]; [|by left|].
      * right. exists key, (route_of key ref). by rewrite lookup_insert_eq.
      * right. exists k, r. rewrite lookup_insert_ne; [done|]. intros <-. by apply (Hne r).
    + intros [Hb|(k & r & Hk & <-)].
      * right. split; [by left|]. intros r Hr <-. by apply (proj1 (table_apart _ _ Hok _ _ Hr)).
      * apply lookup_insert_Some in Hk as [[<- <-]|[Hne Hk]]; [left; done|]. right. split; [right; by exists k, r|].
        intros r' Hr' E. by apply Hne, (table_own _ _ Hok _ _ _ _ Hr' Hk).
  - intros k r. rewrite lookup_insert_Some. intros [[<- <-]|[? Hk]]; [|by apply (table_apart _ _ Hok k)].
    rewrite K3. split; [|unfold LUA_NOREF; lia]. intros Hb. apply Hfresh, (table_refs _ _ Hok). by left.
  - intros k k' r r'. rewrite !lookup_insert_Some. intros [[<- <-]|[? Hk]] [[<- <-]|[? Hk']]; [done| | |].
    + rewrite K3. intros E. by destruct (Hother _ _ Hk').
    + rewrite K3. intros E. by destruct (Hother _ _ Hk).
    + by apply (table_own _ _ Hok).
Qed.

Lemma unregister_ok base t method path : route_table_ok base t -> route_table_ok base (Lua_Http_Unregister method path t).2.
Proof.
  intros Hok. unfold Lua_Http_Unregister. set (key := HttpRouteKey _ _). destruct (httpRoutes_ t !! key) as [r0|] eqn:E; [|done].
  rewrite <- E. constructor; cbn [snd httpRoutes_ registry].
  - intros k r (? & Hk)%lookup_delete_Some. by apply (table_keys _ _ Hok).
  - intros x. rewrite (elem_of_unref base t key x Hok), (table_refs _ _ Hok). split.
    + intros ([?|(k & r & Hk & <-)] & Hne); [by left|]. right. exists k, r. rewrite lookup_delete_ne; [done|].
      intros <-. by apply (Hne r).
    + intros [Hb|(k & r & (Hne & Hk)%lookup_delete_Some & <-)].
      * split; [by left|]. intros r Hr <-. by apply (proj1 (table_apart _ _ Hok _ _ Hr)).
      * split; [right; by exists k, r|]. intros r' Hr' E'. by apply Hne, (table_own _ _ Hok _ _ _ _ Hr' Hk).
  - intros k r (? & Hk)%lookup_delete_Some. by apply (table_apart _ _ Hok k).
  - intros k k' r r' (? & Hk)%lookup_delete_Some (? & Hk')%lookup_delete_Some. by apply (table_own _ _ Hok).
Qed.

(** A fresh VM: nothing registered. *)
Definition no_routes (base : gset Z) : RouteTable := mkRouteTable ∅ base.

Lemma no_routes_ok base : route_table_ok base (no_routes base).
Proof. by constructor; cbn; [| |intros ?|intros ?]; try setoid_rewrite lookup_empty; try (intros; naive_solver). Qed.

(** However a script registers and unregisters its routes, the registry of
    its VM holds exactly one handler for every route of the table, each its
    own, and nothing besides what it held before: no handler of a replaced or
    removed route is kept, and none in use is freed. *)
Theorem handlers_never_leak {R : LuaRegistry} base calls : route_table_ok base (foldl route_step (no_routes base) calls).
Proof.
  generalize (no_routes_ok base). generalize (no_routes base) as t. induction calls as [|c calls IH]; intros t Hok; [done|].
  apply IH. destruct c; [by apply register_ok|by apply unregister_ok].
Qed.

(** ** Examples *)

(** A registry that hands out the least free number. *)
Definition least_ref (used : gset Z) : Z := Z.of_nat (fresh (set_map (fun z => Z.to_nat (z - 1)) used : gset nat)) + 1.

Lemma least_ref_fresh used : least_ref used ∉ used.
Proof.
  intros Hin. apply (is_fresh (set_map (fun z => Z.to_nat (z - 1)) used : gset nat)).
  apply elem_of_map. exists (least_ref used). split; [|done]. unfold least_ref. lia.
Qed.

Lemma least_ref_positive used : 0 < least_ref used.
Proof. unfold least_ref. lia. Qed.

Definition demo_lua_registry : LuaRegistry :=
  {| luaL_ref := least_ref; luaL_ref_fresh := least_ref_fresh; luaL_ref_positive := least_ref_positive |}.

Definition demo_calls : list route_call :=
  [Registers (b! "get") (b! "/lockers/<id>/"); Registers (b! "ANY") (b! "lockers/7"); Registers (b! "GET") (b! "lockers/<id>")].
Definition demo_table : RouteTable := foldl (route_step (R := demo_lua_registry)) (no_routes ∅) demo_calls.

Lemma demo_table_ok : route_table_ok ∅ demo_table.
Proof.
  unfold demo_table, demo_calls. cbn [foldl]. do 3 apply (register_ok (R := demo_lua_registry)). apply no_routes_ok.
Qed.

Lemma handlers_never_leak_witness : route_table_ok ∅ demo_table /\ registry demo_table = {[2; 3]}.
Proof. split; [exact (handlers_never_leak (R := demo_lua_registry) ∅ demo_calls)|]. vm_compute. reflexivity. Defined.

Lemma demo_uncontested : ~ contested (httpRoutes_ demo_table) (b! "GET") (b! "lockers/8").
Proof.
  intros (_ & key & key' & r & r' & Hr & Hr' & Hs & Hs' & Hm).
  assert (forall k q, httpRoutes_ demo_table !! k = Some q -> route_serves q (b! "GET") (b! "lockers/8") -> r_method q = b! "GET") as H.
  { assert (forallb (fun x : list Z * HttpRoute => bool_decide (r_method x.2 = b! "GET") || bool_decide (r_path x.2 = b! "lockers/7")) (map_to_list (httpRoutes_ demo_table)) = true) as Hall
      by (vm_compute; reflexivity).
    intros k q Hq%elem_of_map_to_list%list_elem_of_In Hq'. rewrite forallb_forall in Hall. specialize (Hall _ Hq). cbn [snd] in Hall.
    apply orb_true_iff in Hall as [Hall|Hall]; apply bool_decide_eq_true in Hall; [done|exfalso].
    destruct Hq' as (_ & Hp). unfold path_served in Hp. rewrite Hall in Hp. destruct Hp as [Hp|(Hp & _)]; [by vm_compute in Hp|].
    revert Hp. by apply (bool_decide_unpack (60 ∉ b! "lockers/7")). }
  apply Hm. by rewrite (H _ _ Hr Hs), (H _ _ Hr' Hs').
Qed.

Lemma route_found_exactly_witness :
  documented_route (httpRoutes_ demo_table) (b! "GET") (b! "lockers/8") (b! "GET lockers/<id>").
Proof.
  assert (32 ∉ b! "GET") as Hm by (by apply (bool_decide_unpack (32 ∉ b! "GET"))).
  apply (proj2 (route_found_exactly (httpRoutes_ demo_table) (b! "GET") (b! "lockers/8") (table_keys _ _ demo_table_ok) Hm)).
  - vm_compute. reflexivity.
  - exact demo_uncontested.
Defined.

(** The path under ANY comes before the pattern of the very method. *)
Example any_before_pattern :
  MatchHttpRouteUnlocked (httpRoutes_ demo_table) (b! "GET") (b! "lockers/7") = b! "ANY lockers/7" /\
  HttpRoutes (httpRoutes_ demo_table) = [b! "ANY lockers/7"; b! "GET lockers/<id>"].
Proof. split; vm_compute; reflexivity. Qed.

(** Empty segments do not count for a pattern, but do for a plain path. *)
Example doubled_slash :
  HandlesHttp (httpRoutes_ demo_table) (b! "GET") (b! "lockers//8") = true /\
  HandlesHttp (httpRoutes_ demo_table) (b! "POST") (b! "lockers//7") = false.
Proof. split; vm_compute; reflexivity. Qed.
