(* ===== verification/LuaHttp.v ===== *)
(** * Requests served by Lua scripts

    src/LuaEngine.cpp (the queue of a script's requests, its drain on the
    script's thread, [CloseState]), src/LuaRuntimeManager.cpp ([DispatchHttp],
    [HttpRoutes]) and src/WebServer.cpp ([ServeLuaRoute], [ForwardToLua]).

    A web thread makes a request, finds the engine that serves it, queues it
    there and waits; the script's thread takes it out at its next [Sleep], runs
    the handler and answers.  A script's code, its handlers' too, is a [script]:
    what it does to routes and queue, and when it sleeps; all of it runs under
    the engine's [mutex_].  A request is a [shared_ptr]: its fields live in
    one shared store.  [on_stack] says which thread has to see to a request
    that is in no queue: the thread whose local variable it is in. *)

From stdpp Require Import relations.
From S2P Require Import Prelude Text Threads Crew LogStore LuaPackage UrlQuery LuaRoutes.

(** ** State *)

Record LuaHttpRequest := mkHttp {
  q_method : list Z; q_path : list Z; q_body : list Z; q_content_type : list Z;
  q_query : Query; q_headers : gmap (list Z) (list Z);
  status : Z; response_body : list Z; response_content_type : list Z; q_error : list Z; completed : bool }.

(** [L_] says that the engine has a VM; [mutex_] which thread holds the mutex
    under which everything of the VM runs, if one does. *)
Record LuaEngine := mkEngine { L_ : bool; running_ : bool; mutex_ : option nat; routes_ : RouteTable; httpPending_ : list nat }.

Record Http := mkState { engines : gmap nat LuaEngine; requests : gmap nat LuaHttpRequest; on_stack : gmap nat nat }.

Definition set_engine (e : nat) (f : LuaEngine -> LuaEngine) (s : Http) : Http :=
  mkState (alter f e (engines s)) (requests s) (on_stack s).
Definition set_request (rid : nat) (f : LuaHttpRequest -> LuaHttpRequest) (s : Http) : Http :=
  mkState (engines s) (alter f rid (requests s)) (on_stack s).

Definition set_running_flag (b : bool) (E : LuaEngine) : LuaEngine := mkEngine (L_ E) b (mutex_ E) (routes_ E) (httpPending_ E).
Definition set_mutex (m : option nat) (E : LuaEngine) : LuaEngine := mkEngine (L_ E) (running_ E) m (routes_ E) (httpPending_ E).
Definition set_routes (t : RouteTable) (E : LuaEngine) : LuaEngine := mkEngine (L_ E) (running_ E) (mutex_ E) t (httpPending_ E).
Definition set_pending (l : list nat) (E : LuaEngine) : LuaEngine := mkEngine (L_ E) (running_ E) (mutex_ E) (routes_ E) l.

(** What may be written in a request. *)
Inductive field := WStatus (z : Z) | WBody (l : list Z) | WType (l : list Z) | WError (l : list Z) | WCompleted.

Definition write_field (w : field) (q : LuaHttpRequest) : LuaHttpRequest :=
  let '(mkHttp m p b c qu h st rb rt er co) := q in
  match w with
  | WStatus z => mkHttp m p b c qu h z rb rt er co
  | WBody l => mkHttp m p b c qu h st l rt er co
  | WType l => mkHttp m p b c qu h st rb l er co
  | WError l => mkHttp m p b c qu h st rb rt l co
  | WCompleted => mkHttp m p b c qu h st rb rt er true
  end.

Definition set_field (rid : nat) (w : field) : prog Http unit := put (set_request rid (write_field w)).

Definition is_completed (rid : nat) (s : Http) : bool :=
  match requests s !! rid with Some q => completed q | None => false end.

Section LuaHttp.
Context {R : LuaRegistry}.

(** ** The engine *)

Definition IsRunning (e : nat) (s : Http) : bool :=
  match engines s !! e with Some E => running_ E | None => false end.

Definition EngineHandles (e : nat) (method path : list Z) (s : Http) : bool :=
  match engines s !! e with Some E => HandlesHttp (httpRoutes_ (routes_ E)) method path | None => false end.

Definition kMaxPending : nat := 64.

(** The block [SubmitHttp] runs under [httpMutex_]. *)
Definition push_request (e rid : nat) (s : Http) : bool * Http :=
  match engines s !! e with
  | None => (false, s)
  | Some E =>
      if bool_decide (httpRoutes_ (routes_ E) = ∅) then (false, s)
      else if (kMaxPending <=? length (httpPending_ E))%nat then (false, s)
      else (true, mkState (alter (set_pending (httpPending_ E ++ [rid])) e (engines s)) (requests s) (delete rid (on_stack s)))
  end.

Definition SubmitHttp (e rid : nat) : prog Http bool :=
  get (IsRunning e) ≫= fun running => if negb running then Ret false else act (push_request e rid).

(** What a call into the VM came to: an error with its message, where it has
    one, or its three results.  A number is an integer, when it has one, and a
    text; [LOther] is a table, a boolean or a function. *)
Inductive lua_value := LNil | LNumber (int : option Z) (text : list Z) | LString (text : list Z) | LOther.
Inductive lua_outcome := Raised (message : option (list Z)) | Returned (v1 v2 v3 : lua_value).

Definition lua_string (v : lua_value) : option (list Z) :=
  match v with LNumber _ t => Some t | LString t => Some t | LNil | LOther => None end.

(** The answer to a request: the fields its handler's results set, in order. *)
Definition outcome_fields (outcome : lua_outcome) : list field :=
  match outcome with
  | Raised m => [WStatus 500; WError match m with Some l => c_str l | None => b! "handler error" end]
  | Returned (LNumber int _) v2 v3 =>
      WStatus (to_int32 (default 0 int)) ::
      match lua_string v2 with Some body => [WBody body] | None => [] end ++
      match lua_string v3 with Some t => [WType (c_str t)] | None => [] end
  | Returned (LString body) _ _ => [WStatus 200; WBody body]
  | Returned _ _ _ => [WStatus 204]
  end.

Definition no_handler (q : LuaHttpRequest) : list field :=
  [WStatus 404; WError (b! "no handler for " ++ q_method q ++ [32] ++ q_path q)].
Definition no_function : list field := [WStatus 500; WError (b! "route handler is not a function")].

(** The first request of the queue and its handler, under [httpMutex_]. *)
Definition pop_request (t e : nat) (s : Http) : option (nat * Z) * Http :=
  match engines s !! e with
  | None => (None, s)
  | Some E =>
      match httpPending_ E with
      | [] => (None, s)
      | rid :: rest =>
          let ref := match requests s !! rid with
                     | Some q =>
                         match httpRoutes_ (routes_ E) !! MatchHttpRouteUnlocked (httpRoutes_ (routes_ E)) (q_method q) (q_path q) with
                         | Some r => handlerRef r
                         | None => LUA_NOREF
                         end
                     | None => LUA_NOREF
                     end in
          (Some (rid, ref), mkState (alter (set_pending rest) e (engines s)) (requests s) (<[rid := t]> (on_stack s)))
      end
  end.

(** [complete], under the request's mutex. *)
Definition complete_request (rid : nat) : prog Http unit :=
  put (fun s => mkState (engines s) (alter (write_field WCompleted) rid (requests s)) (delete rid (on_stack s))).

(** [lua_rawgeti] finds the handler while its reference is in use. *)
Definition is_function (e : nat) (ref : Z) (s : Http) : bool :=
  match engines s !! e with Some E => bool_decide (ref ∈ registry (routes_ E)) | None => false end.

Definition no_handler_fields (rid : nat) (s : Http) : list field :=
  match requests s !! rid with Some q => no_handler q | None => [] end.

(** What a request is answered without a call of its handler. *)
Definition unserved (e rid : nat) (ref : Z) (s : Http) : option (list field) :=
  if ref =? LUA_NOREF then Some (no_handler_fields rid s)
  else if negb (is_function e ref s) then Some no_function
  else None.

Definition answer_request (rid : nat) (fields : list field) : prog Http unit :=
  each (set_field rid) fields ≫= fun _ => complete_request rid.

Definition serve_request (e rid : nat) (ref : Z) (handler : prog Http lua_outcome) : prog Http unit :=
  get (unserved e rid ref) ≫= fun refused =>
  match refused with
  | Some fields => answer_request rid fields
  | None => handler ≫= fun outcome => answer_request rid (outcome_fields outcome)
  end.

(** What a script's code does, as far as its requests go: it registers and
    unregisters routes, it sleeps - what its event handlers do there comes
    first, then the queue is drained, by handlers that are such code too - and
    it ends. *)
Inductive script :=
| Ends (outcome : lua_outcome)
| Routes_then (c : route_call) (k : script)
| Sleeps_then (served : list script) (k : script).

(** [Http.Register] and [Http.Unregister]. *)
Definition RouteCall (e : nat) (c : route_call) : prog Http unit :=
  put (set_engine e (fun E => set_routes (route_step (routes_ E) c) E)).

(** The loop of [DrainPendingHttp] on thread [t], pass by pass; [handlers] is
    the code of the handlers it calls. *)
Section Drain.
Context (call : script -> prog Http lua_outcome) (t e : nat).
Fixpoint drain_loop (handlers : list script) : prog Http unit :=
  match handlers with
  | [] => Ret tt
  | h :: handlers' =>
      act (pop_request t e) ≫= fun popped =>
      match popped with
      | None => Ret tt
      | Some (rid, ref) => serve_request e rid ref (call h) ≫= fun _ => drain_loop handlers'
      end
  end.
End Drain.

Fixpoint run_script (t e : nat) (code : script) : prog Http lua_outcome :=
  match code with
  | Ends outcome => Ret outcome
  | Routes_then c k => RouteCall e c ≫= fun _ => run_script t e k
  | Sleeps_then served k => drain_loop (run_script t e) t e served ≫= fun _ => run_script t e k
  end.

Definition DrainPendingHttp (t e : nat) (handlers : list script) : prog Http unit := drain_loop (run_script t e) t e handlers.

(** [mutex_] of an engine. *)
Definition lock (t e : nat) : prog Http unit :=
  put_ready (fun s => match engines s !! e with Some E => bool_decide (mutex_ E = None) | None => false end) (set_engine e (set_mutex (Some t))).
Definition unlock (e : nat) : prog Http unit := put (set_engine e (set_mutex None)).

(** The VM goes, with its registry. *)
Definition close_vm (E : LuaEngine) : LuaEngine :=
  mkEngine false (running_ E) (mutex_ E) (mkRouteTable (httpRoutes_ (routes_ E)) ∅) (httpPending_ E).

(** The routes go and the queue is taken, under [httpMutex_]. *)
Definition take_queue (t e : nat) (s : Http) : list nat * Http :=
  match engines s !! e with
  | None => ([], s)
  | Some E =>
      (httpPending_ E,
       mkState (alter (fun E => set_pending [] (set_routes (mkRouteTable ∅ (registry (routes_ E))) E)) e (engines s)) (requests s)
         (foldr (fun rid m => <[rid := t]> m) (on_stack s) (httpPending_ E)))
  end.

Definition stopped : list field := [WStatus 503; WError (b! "the script serving this route stopped"); WCompleted].

(** The answer a request gets when its script stops, under its mutex. *)
Definition abandon (rid : nat) : prog Http unit :=
  put (fun s => mkState (engines s) (alter (fun q => foldl (fun q w => write_field w q) q stopped) rid (requests s))
                  (delete rid (on_stack s))).

Definition CloseState (t e : nat) : prog Http unit :=
  put (set_engine e close_vm) ≫= fun _ =>
  act (take_queue t e) ≫= fun abandoned => each abandon abandoned.

(** A new VM, with what its registry holds once the bindings are there. *)
Definition StartState (base : gset Z) (E : LuaEngine) : LuaEngine :=
  mkEngine true (running_ E) (mutex_ E) (mkRouteTable (httpRoutes_ (routes_ E)) base) (httpPending_ E).

(** [vm] and [loads]: whether a VM could be made, and whether it could load the
    source; [code] is what the source does. *)
Definition RunSource (t e : nat) (base : gset Z) (vm loads : bool) (code : script) : prog Http unit :=
  lock t e ≫= fun _ =>
  CloseState t e ≫= fun _ =>
  put (set_engine e (set_running_flag false)) ≫= fun _ =>
  (if negb vm then Ret tt
   else
     put (set_engine e (StartState base)) ≫= fun _ =>
     if negb loads then CloseState t e
     else
       put (set_engine e (set_running_flag true)) ≫= fun _ =>
       run_script t e code ≫= fun outcome =>
       match outcome with
       | Raised _ => CloseState t e ≫= fun _ => put (set_engine e (set_running_flag false))
       | Returned _ _ _ => Ret tt
       end) ≫= fun _ =>
  unlock e.

Definition Stop (t e : nat) : prog Http unit :=
  lock t e ≫= fun _ => CloseState t e ≫= fun _ => put (set_engine e (set_running_flag false)) ≫= fun _ => unlock e.

(** An event's handler, called when the script's own code is not running. *)
Definition can_run (e : nat) (s : Http) : bool := match engines s !! e with Some E => L_ E && running_ E | None => false end.

Definition DispatchEvent (t e : nat) (code : script) : prog Http unit :=
  lock t e ≫= fun _ =>
  get (can_run e) ≫= fun runs =>
  (if negb runs then Ret tt else run_script t e code ≫= fun _ => Ret tt) ≫= fun _ =>
  unlock e.

(** ** The manager *)


Definition timeout_error (q : LuaHttpRequest) (timeoutMs : Z) : list Z :=
  b! "the script serving " ++ q_method q ++ [32] ++ q_path q ++ b! " did not answer within " ++ decimal timeoutMs ++ b! " ms".

Definition expire_request (timeoutMs : Z) (q : LuaHttpRequest) : LuaHttpRequest :=
  if completed q then q else write_field (WError (timeout_error q timeoutMs)) (write_field (WStatus 504) q).

Definition await_answer (rid : nat) (timeoutMs : Z) (expires : bool) : prog Http unit :=
  put_ready (fun s => expires || is_completed rid s) (set_request rid (expire_request timeoutMs)).

(** [DispatchHttp] over the engines of the runtimes, in the order of their
    names; [expires] says whether the time may run out before an answer. *)
Fixpoint DispatchHttp (rid : nat) (method path : list Z) (timeoutMs : Z) (expires : bool) (snapshot : list nat) : prog Http bool :=
  match snapshot with
  | [] => Ret false
  | e :: rest =>
      get (IsRunning e) ≫= fun running =>
      if negb running then DispatchHttp rid method path timeoutMs expires rest
      else get (EngineHandles e method path) ≫= fun handles =>
      if negb handles then DispatchHttp rid method path timeoutMs expires rest
      else SubmitHttp e rid ≫= fun submitted =>
      if negb submitted then DispatchHttp rid method path timeoutMs expires rest
      else await_answer rid timeoutMs expires ≫= fun _ => Ret true
  end.

Definition find_new (routes out : list (list Z)) : list (list Z) :=
  foldl (fun out route => if bool_decide (route ∈ out) then out else out ++ [route]) out routes.

Definition engine_routes (e : nat) (s : Http) : list (list Z) :=
  match engines s !! e with Some E => HttpRoutes (httpRoutes_ (routes_ E)) | None => [] end.

Fixpoint collect_routes (snapshot : list nat) (out : list (list Z)) : prog Http (list (list Z)) :=
  match snapshot with
  | [] => Ret (sort_by lex_leb out)
  | e :: rest =>
      get (IsRunning e) ≫= fun running =>
      if negb running then collect_routes rest out
      else get (engine_routes e) ≫= fun routes => collect_routes rest (find_new routes out)
  end.

Definition AllHttpRoutes (snapshot : list nat) : prog Http (list (list Z)) := collect_routes snapshot [].

(** ** The web server *)

(** The headers a script is shown. *)
Definition kHeaders : list (list Z) := [b! "Content-Type"; b! "API-Key"; b! "Accept"; b! "X-Requested-With"].

Definition kept_headers (header : list Z -> list Z) : gmap (list Z) (list Z) :=
  foldl (fun m name => if bool_decide (header name = []) then m else <[name := header name]> m) ∅ kHeaders.

Definition lua_request (method path rawUrl body : list Z) (header : list Z -> list Z) : LuaHttpRequest :=
  mkHttp method path body (header (b! "Content-Type")) (ParseQueryString rawUrl) (kept_headers header)
    0 [] (b! "application/json") [] false.

(** [make_shared]: a request no one else knows of. *)
Definition new_request (t : nat) (q : LuaHttpRequest) (s : Http) : nat * Http :=
  let rid := fresh (dom (requests s)) in
  (rid, mkState (engines s) (<[rid := q]> (requests s)) (<[rid := t]> (on_stack s))).

Definition drop_request (rid : nat) : prog Http unit :=
  put (fun s => mkState (engines s) (delete rid (requests s)) (delete rid (on_stack s))).

Inductive web_answer :=
| Failure (code : Z) (error : list Z)
| NotServed (error : list Z) (routes : list (list Z))
| Passed (code : Z) (body content_type : list Z).

Definition read {A} (rid : nat) (default : A) (f : LuaHttpRequest -> A) : prog Http A :=
  get (fun s => match requests s !! rid with Some q => f q | None => default end).

(** The fields are read one by one, without the request's mutex. *)
Definition pass_answer (rid : nat) : prog Http web_answer :=
  read rid 0 status ≫= fun code =>
  if code =? 0 then Ret (Failure 500 (b! "handler produced no status"))
  else read rid [] response_body ≫= fun body =>
  read rid [] q_error ≫= fun error =>
  if bool_decide (body = []) && negb (bool_decide (error = [])) then
    read rid 0 status ≫= fun code => Ret (Failure code error)
  else
    read rid 0 status ≫= fun code =>
    read rid [] response_body ≫= fun body =>
    read rid [] response_content_type ≫= fun type =>
    Ret (Passed code body match type with [] => b! "application/json" | _ => type end).

Definition kLuaRouteTimeoutMs : Z := 5000.

(** [lua] is the manager, where there is one: the runtimes as the two calls see
    them, each from a snapshot of its own. *)
Definition ForwardToLua (rid : nat) (method path : list Z) (expires : bool) (lua : option (list nat * list nat)) : prog Http web_answer :=
  match lua with
  | None => drop_request rid ≫= fun _ => Ret (Failure 503 (b! "no Lua runtime manager"))
  | Some (snapshot, snapshot') =>
      DispatchHttp rid method path kLuaRouteTimeoutMs expires snapshot ≫= fun served =>
      if negb served then
        AllHttpRoutes snapshot' ≫= fun routes =>
        drop_request rid ≫= fun _ => Ret (NotServed (b! "no script serves " ++ method ++ [32] ++ path) routes)
      else pass_answer rid
  end.

Definition ServeLuaRoute (t : nat) (method path rawUrl body : list Z) (header : list Z -> list Z) (expires : bool)
  (lua : option (list nat * list nat)) : prog Http web_answer :=
  act (new_request t (lua_request method path rawUrl body header)) ≫= fun rid => ForwardToLua rid method path expires lua.
End LuaHttp.

(** ** The invariant *)

Definition queued (e rid : nat) (s : Http) : Prop := exists E, engines s !! e = Some E /\ rid ∈ httpPending_ E.

(** What only the holder of an engine's mutex changes: the VM, the routes, and
    the queue while there are no routes. *)
Definition under_mutex (E : LuaEngine) : bool * RouteTable * list nat :=
  (L_ E, routes_ E, if decide (httpRoutes_ (routes_ E) = ∅) then httpPending_ E else []).

(** With a VM, a handler for every route; without one neither routes nor
    requests. *)
Definition settled (x : bool * RouteTable * list nat) : Prop :=
  match x with
  | (true, table, _) => exists base, route_table_ok base table
  | (false, table, pending) => httpRoutes_ table = ∅ /\ pending = []
  end.

(** An engine: a bounded queue without repetition; and settled, when no call is
    at work on it. *)
Record engine_ok (E : LuaEngine) : Prop := {
  engine_bound : (length (httpPending_ E) <= kMaxPending)%nat;
  engine_nodup : NoDup (httpPending_ E);
  engine_settled : mutex_ E = None -> settled (under_mutex E) }.

(** Every request is in one place: answered, in one queue, or seen to by one
    thread. *)
Record http_ok (s : Http) : Prop := {
  http_engines : forall e E, engines s !! e = Some E -> engine_ok E;
  http_queued : forall e rid, queued e rid s -> (exists q, requests s !! rid = Some q /\ completed q = false) /\ on_stack s !! rid = None;
  http_once : forall e e' rid, queued e rid s -> queued e' rid s -> e = e';
  http_held : forall rid t, on_stack s !! rid = Some t -> exists q, requests s !! rid = Some q /\ completed q = false;
  http_placed : forall rid q, requests s !! rid = Some q -> completed q = true \/ (exists e, queued e rid s) \/ is_Some (on_stack s !! rid) }.

(** An answer that is complete stays what it is. *)
Definition answers_stay (s s' : Http) : Prop :=
  forall rid q, requests s !! rid = Some q -> completed q = true -> requests s' !! rid = Some q.

(** What thread [t] sees to. *)
Definition sees_to (t : nat) (rids : gset nat) (s : Http) : Prop := forall rid, on_stack s !! rid = Some t <-> rid ∈ rids.

(** What thread [t] holds of an engine. *)
Definition control (t e : nat) (s : Http) : option (bool * RouteTable * list nat) :=
  match engines s !! e with
  | Some E => if decide (mutex_ E = Some t) then Some (under_mutex E) else None
  | None => None
  end.

Definition stack_guar (t : nat) (s s' : Http) : Prop :=
  answers_stay s s' /\ forall t' rid, t' <> t -> on_stack s !! rid = Some t' <-> on_stack s' !! rid = Some t'.
Definition http_guar (t : nat) (s s' : Http) : Prop :=
  stack_guar t s s' /\ forall t' e, t' <> t -> control t' e s = control t' e s'.
Definition http_rely (t : nat) (s s' : Http) : Prop :=
  answers_stay s s' /\ (forall rid, on_stack s !! rid = Some t <-> on_stack s' !! rid = Some t) /\
  forall e, control t e s = control t e s'.

#[global] Instance answers_stay_order : PreOrder answers_stay.
Proof. split; [by intros s rid q|]. intros s s' s'' H1 H2 rid q Hq Hc. apply H2; [by apply H1|done]. Qed.

#[global] Instance http_rely_order t : PreOrder (http_rely t).
Proof.
  split; [by intros s; split_and!|]. intros s s' s'' (H1 & K1 & C1) (H2 & K2 & C2). split_and!; [by etrans| |].
  - intros rid. by rewrite K1.
  - intros e. by rewrite C1.
Qed.

Lemma http_guar_refl t s : http_guar t s s.
Proof. by split_and!. Qed.

Lemma http_others t t' s s' : t <> t' -> http_guar t' s s' -> http_rely t s s'.
Proof. intros Hne ((H1 & H2) & H3). split_and!; [done|intros rid; by apply H2|intros e; by apply H3]. Qed.

(** The requests thread [t] sees to and the engines it holds. *)
Definition mine (t : nat) (rids : gset nat) (c : nat -> option (bool * RouteTable * list nat)) (s : Http) : Prop :=
  sees_to t rids s /\ forall e, control t e s = c e.
Definition nothing (e : nat) : option (bool * RouteTable * list nat) := None.
Definition holds (e : nat) (x : bool * RouteTable * list nat) (e' : nat) : option (bool * RouteTable * list nat) :=
  if decide (e' = e) then Some x else None.

Lemma mine_stable t rids c : stable http_rely t (mine t rids c).
Proof. intros s s' (_ & H1 & H2) (Hs & Hc). split; [intros rid; by rewrite <- H1|intros e; by rewrite <- H2]. Qed.

Lemma exists_stable {A} t (P : A -> Http -> Prop) : (forall a, stable http_rely t (P a)) -> stable http_rely t (fun s => exists a, P a s).
Proof. intros H s s' HR (a & HP). exists a. by eapply H. Qed.

Lemma pure_stable t (P : Http -> Prop) (phi : Prop) : stable http_rely t P -> stable http_rely t (fun s => P s /\ phi).
Proof. intros H s s' HR (HP & ?). split; [by eapply H|done]. Qed.

(** The proofs about threads are about these. *)
Abbreviation http_triple t P p Q := (triple http_ok http_guar http_rely t P p Q).

(** ** Every action keeps it *)

Lemma queued_engines s s' e rid : engines s = engines s' -> queued e rid s <-> queued e rid s'.
Proof. unfold queued. by intros ->. Qed.

(** The fields of a request that is not answered. *)
Lemma set_request_ok t rid f s : http_ok s ->
  (forall q, requests s !! rid = Some q -> completed q = false -> completed (f q) = false) ->
  (forall q, requests s !! rid = Some q -> completed q = true -> f q = q) ->
  http_ok (set_request rid f s) /\ stack_guar t s (set_request rid f s).
Proof.
  intros Hok Hopen Hclosed.
  assert (forall r q, requests s !! r = Some q -> exists q', requests (set_request rid f s) !! r = Some q' /\ completed q' = completed q /\
    (completed q = true -> q' = q)) as Hkeep.
  { intros r q Hq. cbn. destruct (decide (r = rid)) as [->|Hne].
    - rewrite lookup_alter_eq, Hq. exists (f q). split; [done|]. destruct (completed q) eqn:E.
      + rewrite (Hclosed q Hq E). by split.
      + split; [by apply Hopen|done].
    - exists q. by rewrite lookup_alter_ne. }
  split.
  - constructor; intros; try by eapply http_engines.
    + change (queued e rid0 s) in H. destruct (http_queued s Hok _ _ H) as ((q & Hq & Hc) & Hn). split; [|done].
      destruct (Hkeep _ _ Hq) as (q' & ? & Hc' & _). exists q'. by rewrite Hc', Hc.
    + by eapply (http_once s Hok).
    + destruct (http_held s Hok _ _ H) as (q & Hq & Hc). destruct (Hkeep _ _ Hq) as (q' & ? & Hc' & _). exists q'. by rewrite Hc', Hc.
    + assert (exists q0, requests s !! rid0 = Some q0) as (q0 & Hq0).
      { cbn in H. destruct (decide (rid0 = rid)) as [->|Hne]; [rewrite lookup_alter_eq in H|rewrite lookup_alter_ne in H by done; by exists q].
        destruct (requests s !! rid) as [q0|]; [by exists q0|done]. }
      destruct (Hkeep _ _ Hq0) as (q' & Hq' & Hc' & _). rewrite Hq' in H. injection H as ->. rewrite Hc'.
      by apply (http_placed s Hok).
  - split; [|done]. intros r q Hq Hc. destruct (Hkeep _ _ Hq) as (q' & -> & _ & ->); done.
Qed.

(** An engine's flags and table. *)
Lemma set_engine_ok t e f s : http_ok s ->
  (forall E, engines s !! e = Some E -> httpPending_ (f E) = httpPending_ E /\ engine_ok (f E)) ->
  http_ok (set_engine e f s) /\ stack_guar t s (set_engine e f s).
Proof.
  intros Hok Hf. split; [|by split; [intros rid q|]].
  assert (forall e0 rid, queued e0 rid (set_engine e f s) <-> queued e0 rid s) as Hq.
  { intros e0 rid. unfold queued. cbn. destruct (decide (e0 = e)) as [->|Hne]; [|by rewrite lookup_alter_ne].
    rewrite lookup_alter_eq. split.
    - intros (E & HE & Hin). destruct (engines s !! e) as [E0|] eqn:H0; [|done]. injection HE as <-.
      destruct (Hf E0 eq_refl) as (Hp & _). exists E0. by rewrite <- Hp.
    - intros (E & HE & Hin). rewrite HE. exists (f E). split; [done|]. destruct (Hf E HE) as (-> & _). done. }
  constructor.
  - intros e0 E. cbn. destruct (decide (e0 = e)) as [->|Hne]; [|rewrite lookup_alter_ne by done; by apply http_engines].
    rewrite lookup_alter_eq. destruct (engines s !! e) as [E0|] eqn:H0; [|done]. intros [= <-]. by apply Hf.
  - intros e0 rid H. apply Hq in H. by apply (http_queued s Hok e0 rid).
  - intros e0 e1 rid H1 H2. apply Hq in H1, H2. by apply (http_once s Hok e0 e1 rid).
  - by apply (http_held s Hok).
  - intros rid q H. destruct (http_placed s Hok rid q H) as [?|[(e0 & He0)|?]]; [by left| |by right; right].
    right. left. exists e0. by apply Hq.
Qed.

Lemma answers_stay_same (s s' : Http) : requests s = requests s' -> answers_stay s s'.
Proof. intros E rid q. by rewrite E. Qed.

(** What happens to an engine's queue. *)
Lemma queued_alter e E l s rqs st e0 rid : engines s !! e = Some E ->
  queued e0 rid (mkState (alter (set_pending l) e (engines s)) rqs st) <->
  (e0 = e /\ rid ∈ l) \/ (e0 <> e /\ queued e0 rid s).
Proof.
  intros HE. unfold queued. cbn. destruct (decide (e0 = e)) as [->|Hne].
  - rewrite lookup_alter_eq, HE. cbn. split; [intros (? & [= <-] & ?); by left|intros [(_ & ?)|(? & _)]; [by eexists|done]].
  - rewrite lookup_alter_ne by done. tauto.
Qed.

Lemma alter_engines_ok e E l s : http_ok s -> engines s !! e = Some E -> engine_ok (set_pending l E) ->
  forall e0 E0, alter (set_pending l) e (engines s) !! e0 = Some E0 -> engine_ok E0.
Proof.
  intros Hok HE Hl e0 E0. destruct (decide (e0 = e)) as [->|Hne]; [|rewrite lookup_alter_ne by done; by apply http_engines].
  rewrite lookup_alter_eq, HE. by intros [= <-].
Qed.

Lemma sees_to_lookup t rids s rid : sees_to t rids s -> rid ∈ rids -> on_stack s !! rid = Some t.
Proof. intros H. apply H. Qed.

Lemma elem_of_snoc {A} (x y : A) l : x ∈ l ++ [y] <-> (x ∈ l) \/ x = y.
Proof. by rewrite elem_of_app, list_elem_of_singleton. Qed.

(** Handing a request over. *)
Lemma push_request_ok t e rid s : http_ok s -> sees_to t {[rid]} s ->
  let r := push_request e rid s in
  http_ok r.2 /\ stack_guar t s r.2 /\ (if r.1 then sees_to t ∅ r.2 else r.2 = s).
Proof.
  intros Hok Ht. unfold push_request. destruct (engines s !! e) as [E|] eqn:HE; [|done].
  destruct (bool_decide _) eqn:Hroutes; [done|]. apply bool_decide_eq_false in Hroutes.
  destruct (_ <=? _)%nat eqn:Hlen; [done|]. apply Nat.leb_gt in Hlen. cbn [fst snd].
  pose proof (http_engines s Hok _ _ HE) as HokE.
  pose proof (sees_to_lookup _ _ _ rid Ht ltac:(set_solver)) as Hheld.
  assert (forall e0, ~ queued e0 rid s) as Hnq by (intros e0 Hq; destruct (http_queued s Hok _ _ Hq) as (_ & Hn); congruence).
  pose proof (fun l rqs st e0 rid0 => queued_alter e E l s rqs st e0 rid0 HE) as Hqa.
  split_and!.
  - constructor.
    + apply (alter_engines_ok e E _ s Hok HE). destruct HokE as [Hb Hnd Hc]. constructor; cbn.
      * rewrite length_app. cbn. unfold kMaxPending in *. lia.
      * apply NoDup_app. split_and!; [done| |by apply NoDup_singleton]. intros x Hx Hx'. apply list_elem_of_singleton in Hx' as ->.
        apply (Hnq e). by exists E.
      * intros HL. specialize (Hc HL). unfold under_mutex in *. cbn. by rewrite decide_False in Hc |- * by done.
    + intros e0 rid0 H. apply Hqa in H. cbn [requests on_stack].
      assert (rid0 = rid \/ queued e0 rid0 s) as [->|Hq0].
      { destruct H as [(-> & [?| ->]%elem_of_snoc)|(_ & ?)]; [right; by exists E|by left|by right]. }
      * split; [by apply (http_held s Hok rid t)|]. apply lookup_delete_eq.
      * destruct (http_queued s Hok _ _ Hq0) as (? & Hn). split; [done|]. by rewrite lookup_delete_None; right.
    + intros e0 e1 rid0 H0 H1. apply Hqa in H0, H1.
      assert (forall e2, (e2 = e /\ rid0 ∈ httpPending_ E ++ [rid]) \/ (e2 <> e /\ queued e2 rid0 s) ->
        (rid0 = rid /\ e2 = e) \/ (rid0 <> rid /\ queued e2 rid0 s)) as Hcase.
      { intros e2 [(-> & [?| ->]%elem_of_snoc)|(_ & Hq)]; [right|by left|right].
        - split; [|by exists E]. intros ->. apply (Hnq e). by exists E.
        - split; [|done]. intros ->. by apply (Hnq e2). }
      destruct (Hcase _ H0) as [(? & ->)|(? & ?)], (Hcase _ H1) as [(? & ->)|(? & ?)]; try done. by eapply (http_once s Hok).
    + intros rid0 t0. cbn [on_stack]. intros (_ & H)%lookup_delete_Some. by apply (http_held s Hok rid0 t0).
    + intros rid0 q H. cbn [requests on_stack] in *. destruct (decide (rid0 = rid)) as [->|Hne].
      { right. left. exists e. apply Hqa. left. set_solver. }
      destruct (http_placed s Hok rid0 q H) as [?|[(e0 & He0)|?]]; [by left| |right; right; by rewrite lookup_delete_ne].
      right. left. exists e0. apply Hqa. destruct (decide (e0 = e)) as [->|]; [left|by right].
      destruct He0 as (E0 & HE0 & ?). rewrite HE in HE0. injection HE0 as <-. set_solver.
  - split; [by apply answers_stay_same|]. intros t' rid0 Hne. cbn. rewrite lookup_delete_Some.
    split; [|tauto]. intros H. split; [|done]. intros ->. congruence.
  - intros rid0. cbn. rewrite lookup_delete_Some, (Ht rid0). set_solver.
Qed.

(** Taking one out. *)
Lemma pop_request_ok t e rids E s : http_ok s -> sees_to t rids s -> engines s !! e = Some E -> mutex_ E = Some t ->
  let r := pop_request t e s in
  http_ok r.2 /\ stack_guar t s r.2 /\ (exists l, engines r.2 = alter (set_pending l) e (engines s)) /\
  (match r.1 with Some (rid, _) => (rid ∉ rids) /\ sees_to t ({[rid]} ∪ rids) r.2 | None => sees_to t rids r.2 end).
Proof.
  intros Hok Ht HE HM. unfold pop_request. rewrite HE.
  destruct (httpPending_ E) as [|rid rest] eqn:HP; cbn [fst snd].
  { split_and!; [done|by split|exists []|done]. symmetry. apply alter_id. intros E0 HE0. rewrite HE in HE0. injection HE0 as <-.
    destruct E. cbn in *. by subst. }
  pose proof (http_engines s Hok _ _ HE) as [Hb Hnd Hc]. rewrite HP in Hb, Hnd. apply NoDup_cons in Hnd as (Hnin & Hnd).
  assert (queued e rid s) as Hq by (exists E; rewrite HP; set_solver).
  destruct (http_queued s Hok _ _ Hq) as (Hreq & Hnone).
  pose proof (fun l rqs st e0 rid0 => queued_alter e E l s rqs st e0 rid0 HE) as Hqa.
  assert (forall e0 rid0, (e0 = e /\ rid0 ∈ rest) \/ (e0 <> e /\ queued e0 rid0 s) -> queued e0 rid0 s /\ rid0 <> rid) as Hsub.
  { intros e0 rid0 [(-> & Hin)|(Hne & H)].
    - split; [exists E; rewrite HP; set_solver|]. by intros ->.
    - split; [done|]. intros ->. by apply Hne, (http_once s Hok _ _ rid). }
  assert (rid ∉ rids) as Hnew by (intros Hin; apply Ht in Hin; congruence).
  split_and!; [| |by exists rest|done|].
  - constructor.
    + apply (alter_engines_ok e E _ s Hok HE). constructor; cbn; [cbn in Hb; lia|done|congruence].
    + intros e0 rid0 H. apply Hqa, Hsub in H as (H & Hne). cbn [requests on_stack].
      rewrite lookup_insert_ne by done. by apply (http_queued s Hok e0).
    + intros e0 e1 rid0 H0 H1. apply Hqa, Hsub in H0 as (? & _), H1 as (? & _). by eapply (http_once s Hok).
    + intros rid0 t0. cbn [on_stack requests]. intros [(<- & <-)|(_ & H)]%lookup_insert_Some; [done|]. by apply (http_held s Hok rid0 t0).
    + intros rid0 q H. cbn [requests on_stack] in *. destruct (decide (rid0 = rid)) as [->|Hne].
      { right. right. rewrite lookup_insert_eq. by eexists. }
      destruct (http_placed s Hok rid0 q H) as [?|[(e0 & He0)|?]]; [by left| |right; right; by rewrite lookup_insert_ne].
      right. left. exists e0. apply Hqa. destruct (decide (e0 = e)) as [->|]; [left|by right].
      destruct He0 as (E0 & HE0 & Hin). rewrite HE in HE0. injection HE0 as <-. rewrite HP in Hin. set_solver.
  - split; [by intros rid0 q|]. intros t' rid0 Hne. cbn. rewrite lookup_insert_Some. split.
    + intros H. right. split; [|done]. intros <-. congruence.
    + intros [(<- & <-)|(_ & ?)]; done.
  - intros rid0. cbn. rewrite lookup_insert_Some, elem_of_union, elem_of_singleton. pose proof (Ht rid0) as Hr.
    rewrite Hr. split; [intros [(<- & _)|(_ & ?)]; [by left|by right]|].
    intros [->|Hin]; [by left|]. right. split; [|done]. by intros ->.
Qed.

(** Answering one: its thread no longer sees to it. *)
Definition answered_by (rid : nat) (f : LuaHttpRequest -> LuaHttpRequest) (s : Http) : Http :=
  mkState (engines s) (alter f rid (requests s)) (delete rid (on_stack s)).

Lemma release_stack t rid rids s s' : sees_to t rids s -> rid ∈ rids -> on_stack s' = delete rid (on_stack s) ->
  (forall t' r, t' <> t -> on_stack s !! r = Some t' <-> on_stack s' !! r = Some t') /\ sees_to t (rids ∖ {[rid]}) s'.
Proof.
  intros Ht Hin E. split.
  - intros t' r Hne. rewrite E, lookup_delete_Some. split; [|tauto]. intros H. split; [|done]. intros <-.
    pose proof (proj2 (Ht rid) Hin). congruence.
  - intros r. rewrite E, lookup_delete_Some, (Ht r), elem_of_difference, elem_of_singleton. naive_solver.
Qed.

Lemma answered_ok t rid rids f s : http_ok s -> sees_to t rids s -> rid ∈ rids -> (forall q, completed (f q) = true) ->
  http_ok (answered_by rid f s) /\ stack_guar t s (answered_by rid f s) /\ sees_to t (rids ∖ {[rid]}) (answered_by rid f s).
Proof.
  intros Hok Ht Hin Hf. pose proof (proj2 (Ht rid) Hin) as Hheld. destruct (http_held s Hok _ _ Hheld) as (q0 & Hq0 & Hc0).
  assert (forall e, ~ queued e rid s) as Hnq by (intros e0 Hq; destruct (http_queued s Hok _ _ Hq) as (_ & Hn); congruence).
  destruct (release_stack t rid rids s (answered_by rid f s) Ht Hin eq_refl) as (Hothers & Hmine).
  split_and!; [|split; [|done]|done].
  - constructor; cbn [engines requests on_stack answered_by].
    + by apply http_engines.
    + intros e0 r H. change (queued e0 r s) in H. assert (r <> rid) as Hne by (intros ->; by apply (Hnq e0)).
      rewrite lookup_alter_ne, lookup_delete_ne by done. by apply (http_queued s Hok e0).
    + by apply (http_once s Hok).
    + intros r t0 (Hne & H)%lookup_delete_Some. rewrite lookup_alter_ne by done. by apply (http_held s Hok r t0).
    + intros r q H. destruct (decide (r = rid)) as [->|Hne].
      { left. rewrite lookup_alter_eq, Hq0 in H. injection H as <-. apply Hf. }
      rewrite lookup_alter_ne in H by done. rewrite lookup_delete_ne by done. by apply (http_placed s Hok).
  - intros r q Hq Hc. cbn. rewrite lookup_alter_ne; [done|]. intros <-. congruence.
Qed.

(** A request made, and one dropped. *)
Lemma new_request_ok t q s : http_ok s -> sees_to t ∅ s -> completed q = false ->
  let r := new_request t q s in http_ok r.2 /\ stack_guar t s r.2 /\ sees_to t {[r.1]} r.2.
Proof.
  intros Hok Ht Hopen. unfold new_request. cbn [fst snd]. set (rid := fresh (dom (requests s))).
  assert (requests s !! rid = None) as Hnew by (apply not_elem_of_dom; apply is_fresh).
  assert (on_stack s !! rid = None) as Hfree.
  { destruct (on_stack s !! rid) as [t0|] eqn:E; [|done]. destruct (http_held s Hok _ _ E) as (? & ? & _). congruence. }
  split_and!.
  - constructor; cbn [engines requests on_stack].
    + by apply http_engines.
    + intros e0 r H. change (queued e0 r s) in H. destruct (http_queued s Hok _ _ H) as ((q1 & Hq1 & Hc1) & Hn).
      assert (r <> rid) by congruence. rewrite !lookup_insert_ne by done. split; [by exists q1|done].
    + by apply (http_once s Hok).
    + intros r t0 [(<- & <-)|(Hne & H)]%lookup_insert_Some; [rewrite lookup_insert_eq; by exists q|].
      rewrite lookup_insert_ne by done. by apply (http_held s Hok r t0).
    + intros r q1 [(<- & <-)|(Hne & H)]%lookup_insert_Some; [right; right; rewrite lookup_insert_eq; by eexists|].
      rewrite lookup_insert_ne by done. by apply (http_placed s Hok).
  - split.
    + intros r q1 Hq1 Hc. cbn. rewrite lookup_insert_ne; [done|]. intros <-. congruence.
    + intros t' r Hne. cbn. rewrite lookup_insert_Some. split; [|intros [(_ & ?)|(_ & ?)]; congruence].
      intros H. right. split; [|done]. intros <-. congruence.
  - intros r. cbn. rewrite lookup_insert_Some, elem_of_singleton, (Ht r). set_solver.
Qed.

Lemma drop_ok t rid s : http_ok s -> sees_to t {[rid]} s ->
  let s' := mkState (engines s) (delete rid (requests s)) (delete rid (on_stack s)) in
  http_ok s' /\ stack_guar t s s' /\ sees_to t ∅ s'.
Proof.
  intros Hok Ht s'. assert (rid ∈ ({[rid]} : gset nat)) as Hin by set_solver.
  destruct (release_stack t rid {[rid]} s s' Ht Hin eq_refl) as (Hothers & Hmine).
  pose proof (proj2 (Ht rid) Hin) as Hheld. destruct (http_held s Hok _ _ Hheld) as (q0 & Hq0 & Hc0).
  split_and!.
  - constructor; cbn [engines requests on_stack s'].
    + by apply http_engines.
    + intros e0 r H. change (queued e0 r s) in H. destruct (http_queued s Hok _ _ H) as (? & Hn).
      assert (r <> rid) by congruence. by rewrite !lookup_delete_ne.
    + by apply (http_once s Hok).
    + intros r t0 (Hne & H)%lookup_delete_Some. rewrite lookup_delete_ne by done. by apply (http_held s Hok r t0).
    + intros r q (Hne & H)%lookup_delete_Some. rewrite lookup_delete_ne by done. by apply (http_placed s Hok).
  - split; [|done]. intros r q Hq Hc. cbn. rewrite lookup_delete_ne; [done|]. intros <-. congruence.
  - intros r. rewrite (Hmine r). set_solver.
Qed.

Lemma lookup_hold t l (m : gmap nat nat) r t0 :
  foldr (fun rid m => <[rid := t]> m) m l !! r = Some t0 <-> (r ∈ l /\ t0 = t) \/ ((r ∉ l) /\ m !! r = Some t0).
Proof.
  induction l as [|x l IH]; cbn; [set_solver|]. rewrite lookup_insert_Some, IH, elem_of_cons.
  destruct (decide (r = x)) as [->|Hne]; [|intuition congruence]. split; [intuition congruence|].
  intros [(_ & ->)|(Hn & _)]; [by left|]. destruct Hn. by left.
Qed.

(** Taking an engine's queue: its thread sees to the whole of it. *)
Lemma take_queue_ok t e E s : http_ok s -> sees_to t ∅ s -> engines s !! e = Some E -> mutex_ E = Some t ->
  let r := take_queue t e s in
  http_ok r.2 /\ stack_guar t s r.2 /\ NoDup r.1 /\ sees_to t (list_to_set r.1) r.2.
Proof.
  intros Hok Ht HE HM. unfold take_queue. rewrite HE. cbn [fst snd].
  pose proof (http_engines s Hok _ _ HE) as [Hb Hnd Hc].
  assert (forall rid, rid ∈ httpPending_ E -> on_stack s !! rid = None /\ exists q, requests s !! rid = Some q /\ completed q = false) as Hwait.
  { intros rid Hin. destruct (http_queued s Hok e rid) as (? & ?); [by exists E|done]. }
  set (f := fun E0 : LuaEngine => set_pending [] (set_routes (mkRouteTable ∅ (registry (routes_ E0))) E0)).
  assert (forall rqs st e0 rid, queued e0 rid (mkState (alter f e (engines s)) rqs st) <-> e0 <> e /\ queued e0 rid s) as Hqa.
  { intros rqs st e0 rid. unfold queued. cbn. destruct (decide (e0 = e)) as [->|Hne].
    - rewrite lookup_alter_eq, HE. split; [intros (? & [= <-] & H); cbn in H; set_solver|tauto].
    - rewrite lookup_alter_ne by done. tauto. }
  split_and!; [|split; [by intros rid q|]|done|].
  - constructor; cbn [engines requests on_stack].
    + intros e0 E0. destruct (decide (e0 = e)) as [->|Hne]; [|rewrite lookup_alter_ne by done; by apply (http_engines s Hok e0)].
      rewrite lookup_alter_eq, HE. intros [= <-]. constructor; cbn; [unfold kMaxPending; lia|constructor|congruence].
    + intros e0 rid (Hne & H)%Hqa. destruct (http_queued s Hok _ _ H) as (? & Hn). split; [done|].
      destruct (foldr _ _ _ !! rid) as [t0|] eqn:El; [|done]. apply lookup_hold in El as [(Hin & _)|(_ & ?)]; [|congruence].
      by destruct Hne; apply (http_once s Hok e0 e rid); [|exists E].
    + intros e0 e1 rid (_ & H0)%Hqa (_ & H1)%Hqa. by eapply (http_once s Hok).
    + intros rid t0 [(Hin & _)|(_ & H)]%lookup_hold; [by apply Hwait|by apply (http_held s Hok rid t0)].
    + intros rid q H. destruct (http_placed s Hok rid q H) as [?|[(e0 & He0)|(t0 & Ht0)]]; [by left| |].
      * destruct (decide (e0 = e)) as [->|Hne]; [|right; left; exists e0; by apply Hqa].
        right. right. exists t. apply lookup_hold. left. destruct He0 as (E0 & HE0 & Hin). rewrite HE in HE0. by injection HE0 as <-.
      * right. right. exists t0. apply lookup_hold. right. split; [|done]. intros Hin. destruct (Hwait _ Hin). congruence.
  - intros t' rid Hne. cbn. rewrite lookup_hold. split; [|intros [(_ & ?)|(_ & ?)]; done].
    intros H. right. split; [|done]. intros Hin. destruct (Hwait _ Hin). congruence.
  - intros rid. cbn. rewrite lookup_hold, elem_of_list_to_set, (Ht rid). set_solver.
Qed.

(** ** Who holds what *)

Lemma control_same t e s s' : engines s = engines s' -> control t e s = control t e s'.
Proof. unfold control. by intros ->. Qed.

(** Changing an engine that thread [t] holds, or takes, or gives back. *)
Lemma control_alter t e f E s s' : engines s !! e = Some E -> engines s' = alter f e (engines s) ->
  (mutex_ E = Some t \/ mutex_ E = None) -> (mutex_ (f E) = Some t \/ mutex_ (f E) = None) ->
  (forall t' e', t' <> t -> control t' e' s = control t' e' s') /\
  (forall e', control t e' s' = if decide (e' = e) then (if decide (mutex_ (f E) = Some t) then Some (under_mutex (f E)) else None) else control t e' s).
Proof.
  intros HE Hs' HM HM'. split.
  - intros t' e' Hne. unfold control. rewrite Hs'. destruct (decide (e' = e)) as [->|]; [|by rewrite lookup_alter_ne].
    rewrite lookup_alter_eq, HE. cbn. rewrite !decide_False; [done| |]; destruct HM, HM'; congruence.
  - intros e'. unfold control. rewrite Hs'. destruct (decide (e' = e)) as [->|]; [by rewrite lookup_alter_eq, HE|by rewrite lookup_alter_ne].
Qed.

Lemma holds_engine t rids e x s : mine t rids (holds e x) s -> exists E, engines s !! e = Some E /\ mutex_ E = Some t /\ under_mutex E = x.
Proof.
  intros (_ & H). specialize (H e). unfold control, holds in H. rewrite decide_True in H by done.
  destruct (engines s !! e) as [E|]; [|done]. destruct (decide _) as [HM|]; [|done]. injection H as <-. by exists E.
Qed.

(** The holder changes what is under the mutex. *)
Lemma holder_step t rids rids' e f x E s s' : mine t rids (holds e x) s -> engines s !! e = Some E ->
  mutex_ (f E) = Some t -> engines s' = alter f e (engines s) -> stack_guar t s s' -> sees_to t rids' s' ->
  http_guar t s s' /\ mine t rids' (holds e (under_mutex (f E))) s'.
Proof.
  intros Hm HE HM' Hs' Hg Hs. destruct (holds_engine _ _ _ _ _ Hm) as (E0 & HE0 & HM & _). rewrite HE in HE0. injection HE0 as <-.
  destruct (control_alter t e f E s s' HE Hs' (or_introl HM) (or_introl HM')) as (C1 & C2).
  split; [by split|split; [done|]]. intros e'. rewrite C2. unfold holds. destruct (decide (e' = e)); [by rewrite decide_True|].
  rewrite (proj2 Hm). unfold holds. by rewrite decide_False.
Qed.

(** A step that leaves the engines. *)
Lemma still_mine t rids rids' c s s' : mine t rids c s -> engines s = engines s' -> stack_guar t s s' -> sees_to t rids' s' ->
  http_guar t s s' /\ mine t rids' c s'.
Proof.
  intros (_ & Hc) E Hg Hs. split; [split; [done|]|split; [done|]]; intros; [by apply control_same|].
  rewrite <- Hc. symmetry. by apply control_same.
Qed.

(** ** Every method keeps it *)

Lemma triple_pure t {A} (P : Http -> Prop) (phi : Prop) (p : prog Http A) Q :
  (phi -> http_triple t P p Q) -> http_triple t (fun s => P s /\ phi) p Q.
Proof. intros Hp s (HP & Hphi). by apply Hp. Qed.

Lemma triple_pre t {A} (P P' : Http -> Prop) (p : prog Http A) Q :
  (forall s, P' s -> P s) -> http_triple t P p Q -> http_triple t P' p Q.
Proof. intros Himp Hp s HP. by apply Hp, Himp. Qed.

Lemma triple_mono t {A} (P : Http -> Prop) (p : prog Http A) (Q Q' : A -> Http -> Prop) :
  http_triple t P p Q -> (forall a s, Q a s -> Q' a s) -> http_triple t P p Q'.
Proof. intros Hp Himp s HP. eapply assured_mono; [by apply Hp|done]. Qed.

Lemma get_triple t {A} (P : Http -> Prop) (f : Http -> A) : stable http_rely t P -> http_triple t P (get f) (fun _ => P).
Proof. intros H. apply triple_get; [done|apply http_guar_refl|done]. Qed.

(** Reading and going on. *)
Lemma get_then t {A B} (P : Http -> Prop) (f : Http -> A) (k : A -> prog Http B) Q : stable http_rely t P ->
  (forall a, http_triple t P (k a) Q) -> http_triple t P (get f ≫= k) Q.
Proof. intros HP H. eapply triple_bind; [by apply get_triple|exact H]. Qed.

Definition open_field (w : field) : bool := match w with WCompleted => false | _ => true end.

Lemma write_open w q : open_field w = true -> completed (write_field w q) = completed q.
Proof. by destruct q, w. Qed.

(** What a thread that answers a request keeps to: its engines as they are. *)
Section Answering.
Context (t : nat) (c : nat -> option (bool * RouteTable * list nat)).

Lemma set_field_triple rids rid w : rid ∈ rids -> open_field w = true ->
  http_triple t (mine t rids c) (set_field rid w) (fun _ => mine t rids c).
Proof.
  intros Hin Hw. apply triple_put_ready; [apply mine_stable|]. intros s Hok Hm _. pose proof Hm as (Ht & _).
  destruct (http_held s Hok rid t) as (q0 & Hq0 & Hc0); [by apply Ht|].
  destruct (set_request_ok t rid (write_field w) s Hok) as (? & ?).
  - intros q _ Hc. by rewrite write_open.
  - intros q Hq Hc. congruence.
  - split; [done|]. by apply (still_mine t rids rids c s).
Qed.

Lemma set_fields_triple rids rid fields : rid ∈ rids -> forallb open_field fields = true ->
  http_triple t (mine t rids c) (each (set_field rid) fields) (fun _ => mine t rids c).
Proof.
  intros Hin. induction fields as [|w fields IH]; intros Hf; [by intros s|].
  apply andb_true_iff in Hf as (Hw & Hf). cbn [each]. eapply triple_bind; [by apply set_field_triple|]. intros []. by apply IH.
Qed.

Lemma complete_triple rids rid : rid ∉ rids ->
  http_triple t (mine t ({[rid]} ∪ rids) c) (complete_request rid) (fun _ => mine t rids c).
Proof.
  intros Hn. apply triple_put_ready; [apply mine_stable|]. intros s Hok Hm _. pose proof Hm as (Ht & _).
  destruct (answered_ok t rid ({[rid]} ∪ rids) (write_field WCompleted) s Hok Ht) as (? & ? & H); [set_solver|by intros []|].
  split; [done|]. apply (still_mine t ({[rid]} ∪ rids) rids c s); [done|done|done|].
  by replace rids with (({[rid]} ∪ rids) ∖ {[rid]} : gset nat) by set_solver.
Qed.

Lemma answer_triple rids rid fields : rid ∉ rids -> forallb open_field fields = true ->
  http_triple t (mine t ({[rid]} ∪ rids) c) (answer_request rid fields) (fun _ => mine t rids c).
Proof.
  intros Hn Hf. eapply triple_bind; [apply set_fields_triple; [set_solver|done]|]. intros []. by apply complete_triple.
Qed.

Lemma abandon_triple rid l :
  http_triple t (fun s => mine t (list_to_set (rid :: l)) c s /\ NoDup (rid :: l)) (abandon rid)
    (fun _ s => mine t (list_to_set l) c s /\ NoDup l).
Proof.
  apply triple_put_ready; [apply pure_stable, mine_stable|]. intros s Hok (Hm & Hnd) _. apply NoDup_cons in Hnd as (Hn & Hnd).
  pose proof Hm as (Ht & _).
  destruct (answered_ok t rid (list_to_set (rid :: l)) (fun q => foldl (fun q w => write_field w q) q stopped) s Hok Ht) as (? & ? & H);
    [set_solver|by intros []|].
  split; [done|]. destruct (still_mine t (list_to_set (rid :: l)) (list_to_set l) c s (answered_by rid (fun q => foldl (fun q w => write_field w q) q stopped) s))
    as (? & ?); [done|done|done| |by split_and!].
  by replace (list_to_set l : gset nat) with (list_to_set (rid :: l) ∖ {[rid]} : gset nat) by set_solver.
Qed.
End Answering.

Lemma outcome_fields_open outcome : forallb open_field (outcome_fields outcome) = true.
Proof. destruct outcome as [[?|]|[|? ?|?|] v2 v3]; try done. by destruct v2, v3. Qed.

Lemma unserved_open e rid ref s : match unserved e rid ref s with Some fields => forallb open_field fields = true | None => True end.
Proof. unfold unserved, no_handler_fields. destruct (ref =? LUA_NOREF); [by destruct (requests s !! rid)|]. by destruct (negb _). Qed.

(** ** Under an engine's mutex *)

(** Thread [t] is at work on engine [e], and it has a VM; or in whatever state. *)
Definition with_vm (vm : bool) (t : nat) (rids : gset nat) (e : nat) (s : Http) : Prop :=
  exists x, mine t rids (holds e x) s /\ (settled x /\ x.1.1 = vm).
Definition at_work (t : nat) (rids : gset nat) (e : nat) (s : Http) : Prop := exists x, mine t rids (holds e x) s.
Definition at_rest (t : nat) (rids : gset nat) (e : nat) (s : Http) : Prop := exists x, mine t rids (holds e x) s /\ settled x.

Lemma with_vm_stable vm t rids e : stable http_rely t (with_vm vm t rids e).
Proof. apply exists_stable. intros x. apply pure_stable, mine_stable. Qed.
Lemma at_work_stable t rids e : stable http_rely t (at_work t rids e).
Proof. apply exists_stable. intros x. apply mine_stable. Qed.
Lemma at_rest_stable t rids e : stable http_rely t (at_rest t rids e).
Proof. apply exists_stable. intros x. apply pure_stable, mine_stable. Qed.

Lemma with_vm_rest vm t rids e s : with_vm vm t rids e s -> at_rest t rids e s.
Proof. intros (x & ? & ? & _). by exists x. Qed.
Lemma at_rest_work t rids e s : at_rest t rids e s -> at_work t rids e s.
Proof. intros (x & ? & _). by exists x. Qed.

Lemma lock_triple t rids e : http_triple t (mine t rids nothing) (lock t e) (fun _ => at_rest t rids e).
Proof.
  apply triple_put_ready; [apply mine_stable|]. intros s Hok (Ht & Hc) Hr.
  destruct (engines s !! e) as [E|] eqn:HE; [|done]. apply bool_decide_eq_true in Hr.
  destruct (http_engines s Hok _ _ HE) as [Hb Hnd Hs].
  destruct (set_engine_ok t e (set_mutex (Some t)) s Hok) as (? & Hg).
  { intros E0 HE0. rewrite HE in HE0. injection HE0 as <-. by split; [|constructor]. }
  destruct (control_alter t e (set_mutex (Some t)) E s (set_engine e (set_mutex (Some t)) s) HE eq_refl (or_intror Hr) (or_introl eq_refl)) as (C1 & C2).
  split_and!; [done|by split|]. exists (under_mutex E). split; [|by apply Hs]. split; [done|]. intros e'. rewrite C2. unfold holds.
  destruct (decide (e' = e)); [by rewrite decide_True|]. by rewrite Hc.
Qed.

Lemma unlock_triple t rids e : http_triple t (at_rest t rids e) (unlock e) (fun _ => mine t rids nothing).
Proof.
  apply triple_put_ready; [apply at_rest_stable|]. intros s Hok (x & Hm & Hs) _.
  destruct (holds_engine _ _ _ _ _ Hm) as (E & HE & HM & Hx). destruct (http_engines s Hok _ _ HE) as [Hb Hnd _].
  destruct (set_engine_ok t e (set_mutex None) s Hok) as (? & Hg).
  { intros E0 HE0. rewrite HE in HE0. injection HE0 as <-. split; [done|]. constructor; [done|done|]. intros _.
    change (under_mutex (set_mutex None E)) with (under_mutex E). by rewrite Hx. }
  destruct (control_alter t e (set_mutex None) E s (set_engine e (set_mutex None) s) HE eq_refl (or_introl HM) (or_intror eq_refl)) as (C1 & C2).
  split_and!; [done|by split|]. split; [by destruct Hm|]. intros e'. rewrite C2. destruct (decide (e' = e)) as [->|Hne]; [by rewrite decide_False|].
  rewrite (proj2 Hm). unfold holds. by rewrite decide_False.
Qed.

(** A change under the mutex that leaves the queue. *)
Lemma engine_triple t rids e f (P Q : bool * RouteTable * list nat -> Prop) :
  (forall E, httpPending_ (f E) = httpPending_ E /\ mutex_ (f E) = mutex_ E) ->
  (forall E, P (under_mutex E) -> Q (under_mutex (f E))) ->
  http_triple t (fun s => exists x, mine t rids (holds e x) s /\ P x) (put (set_engine e f))
    (fun _ s => exists x, mine t rids (holds e x) s /\ Q x).
Proof.
  intros Hf HPQ. apply triple_put_ready; [apply exists_stable; intros x; apply pure_stable, mine_stable|].
  intros s Hok (x & Hm & HP) _. destruct (holds_engine _ _ _ _ _ Hm) as (E & HE & HM & <-). destruct (Hf E) as (Hp & Hmu).
  destruct (http_engines s Hok _ _ HE) as [Hb Hnd _]. rewrite HM in Hmu.
  destruct (set_engine_ok t e f s Hok) as (? & Hg).
  { intros E0 HE0. rewrite HE in HE0. injection HE0 as <-. split; [done|]. constructor; rewrite ?Hp; [done|done|congruence]. }
  destruct (holder_step t rids rids e f _ E s (set_engine e f s) Hm HE Hmu eq_refl Hg) as (? & ?); [by destruct Hm|].
  split_and!; [done|done|]. exists (under_mutex (f E)). split; [done|by apply HPQ].
Qed.

Lemma take_queue_triple t e :
  http_triple t (fun s => exists x, mine t ∅ (holds e x) s /\ x.1.1 = false) (act (take_queue t e))
    (fun l s => exists x, (mine t (list_to_set l) (holds e x) s /\ NoDup l) /\ (settled x /\ x.1.1 = false)).
Proof.
  apply triple_act; [apply exists_stable; intros x; apply pure_stable, mine_stable|]. intros s Hok (x & Hm & Hx) _.
  destruct (holds_engine _ _ _ _ _ Hm) as (E & HE & HM & Eq). pose proof Hm as (Ht & _).
  pose proof (take_queue_ok t e E s Hok Ht HE HM) as (H1 & Hg & Hnd & Hs). revert H1 Hg Hnd Hs. unfold take_queue. rewrite HE. cbn [fst snd].
  intros H1 Hg Hnd Hs. set (f := fun E0 : LuaEngine => set_pending [] (set_routes (mkRouteTable ∅ (registry (routes_ E0))) E0)) in *.
  destruct (holder_step t ∅ (list_to_set (httpPending_ E)) e f x E s (mkState (alter f e (engines s)) (requests s) (foldr (fun rid m => <[rid := t]> m) (on_stack s) (httpPending_ E))) Hm HE HM eq_refl Hg Hs) as (? & ?).
  split_and!; [done|done|]. exists (under_mutex (f E)). split; [done|]. subst x. cbn in *. rewrite Hx. cbn.
  by rewrite decide_True.
Qed.

Lemma close_triple t e : http_triple t (at_work t ∅ e) (CloseState t e) (fun _ => with_vm false t ∅ e).
Proof.
  unfold CloseState. eapply triple_bind.
  { apply (triple_pre t (fun s => exists x, mine t ∅ (holds e x) s /\ True)); [intros s (x & Hx); by exists x|].
    by apply (engine_triple t ∅ e close_vm (fun _ => True) (fun x => x.1.1 = false)). }
  intros []. eapply triple_bind; [apply take_queue_triple|]. intros l s (x & Hs & Hx). eapply assured_mono.
  - apply (triple_each _ _ _ t abandon (fun l s => mine t (list_to_set l) (holds e x) s /\ NoDup l)); [|exact Hs]. intros. apply abandon_triple.
  - intros _ s' (H & _). by exists x.
Qed.

Lemma running_triple t rids e b (P : bool * RouteTable * list nat -> Prop) :
  http_triple t (fun s => exists x, mine t rids (holds e x) s /\ P x) (put (set_engine e (set_running_flag b)))
    (fun _ s => exists x, mine t rids (holds e x) s /\ P x).
Proof. by apply engine_triple. Qed.

Lemma pop_triple t rids e :
  http_triple t (with_vm true t rids e) (act (pop_request t e))
    (fun r s => match r with Some (rid, _) => with_vm true t ({[rid]} ∪ rids) e s /\ rid ∉ rids | None => with_vm true t rids e s end).
Proof.
  apply triple_act; [apply with_vm_stable|]. intros s Hok (x & Hm & Hset & Hvm) _.
  destruct (holds_engine _ _ _ _ _ Hm) as (E & HE & HM & <-). pose proof Hm as (Ht & _).
  destruct (pop_request_ok t e rids E s Hok Ht HE HM) as (H1 & Hg & (l & Hl) & Hs).
  assert (settled (under_mutex (set_pending l E)) /\ (under_mutex (set_pending l E)).1.1 = true) as Hset'.
  { unfold under_mutex in *. cbn in *. by rewrite Hvm in *. }
  destruct (pop_request t e s) as [[[rid ref]|] s']; cbn [fst snd] in *.
  - destruct Hs as (Hn & Hs). destruct (holder_step t rids ({[rid]} ∪ rids) e (set_pending l) _ E s s' Hm HE HM Hl Hg Hs) as (? & ?).
    split_and!; [done|done| |done]. by exists (under_mutex (set_pending l E)).
  - destruct (holder_step t rids rids e (set_pending l) _ E s s' Hm HE HM Hl Hg Hs) as (? & ?).
    split_and!; [done|done|]. by exists (under_mutex (set_pending l E)).
Qed.

(** Where the engines stay as they are, whatever they are. *)
Lemma any_triple t {A} (P : bool * RouteTable * list nat -> Prop) (F G : bool * RouteTable * list nat -> Http -> Prop) (p : prog Http A) :
  (forall x, http_triple t (F x) p (fun _ => G x)) ->
  http_triple t (fun s => exists x, F x s /\ P x) p (fun _ s => exists x, G x s /\ P x).
Proof. intros H s (x & HF & HP). eapply assured_mono; [by apply (H x)|]. intros a s' HG. by exists x. Qed.

Section Methods.
Context {R : LuaRegistry}.

Lemma route_call_triple t rids e c : http_triple t (with_vm true t rids e) (RouteCall e c) (fun _ => with_vm true t rids e).
Proof.
  apply engine_triple; [done|]. intros E (Hs & Hvm). unfold under_mutex in *. cbn in *. rewrite Hvm in *. destruct Hs as (base & Hb). split; [|done].
  exists base. by destruct c; [apply register_ok|apply unregister_ok].
Qed.

Lemma serve_request_triple t e rids rid ref (p : prog Http lua_outcome) : rid ∉ rids ->
  http_triple t (with_vm true t ({[rid]} ∪ rids) e) p (fun _ => with_vm true t ({[rid]} ∪ rids) e) ->
  http_triple t (with_vm true t ({[rid]} ∪ rids) e) (serve_request e rid ref p) (fun _ => with_vm true t rids e).
Proof.
  intros Hn Hp. unfold serve_request.
  eapply (triple_bind _ _ _ _ _ _ _ (fun r s => with_vm true t ({[rid]} ∪ rids) e s /\ match r with Some fields => forallb open_field fields = true | None => True end)).
  - apply triple_get; [apply with_vm_stable|apply http_guar_refl|]. intros s _ Hs. split; [done|apply unserved_open].
  - intros [fields|]; apply triple_pure; intros Hf; [|eapply triple_bind; [exact Hp|intros outcome]];
      apply any_triple; intros x; by apply answer_triple; [|try apply outcome_fields_open].
Qed.

Lemma drain_loop_triple t e rids call handlers :
  Forall (fun h => forall rids, http_triple t (with_vm true t rids e) (call h) (fun _ => with_vm true t rids e)) handlers ->
  http_triple t (with_vm true t rids e) (drain_loop call t e handlers) (fun _ => with_vm true t rids e).
Proof.
  induction 1 as [|h handlers Hh _ IH]; [by intros s|]. cbn [drain_loop]. eapply triple_bind; [apply pop_triple|].
  intros [[rid ref]|]; [|by apply triple_ret]. apply triple_pure. intros Hn.
  eapply triple_bind; [apply serve_request_triple; [done|apply Hh]|]. intros []. exact IH.
Qed.

(** Induction on the code of a script. *)
Fixpoint script_induction (P : script -> Prop) (H1 : forall o, P (Ends o)) (H2 : forall c k, P k -> P (Routes_then c k))
  (H3 : forall l k, Forall P l -> P k -> P (Sleeps_then l k)) (code : script) : P code :=
  match code with
  | Ends o => H1 o
  | Routes_then c k => H2 c k (script_induction P H1 H2 H3 k)
  | Sleeps_then l k =>
      H3 l k ((fix all l := match l return Forall P l with
                            | [] => Forall_nil_2 P
                            | h :: l' => Forall_cons_2 P h l' (script_induction P H1 H2 H3 h) (all l')
                            end) l) (script_induction P H1 H2 H3 k)
  end.

Lemma script_triple t e code : forall rids, http_triple t (with_vm true t rids e) (run_script t e code) (fun _ => with_vm true t rids e).
Proof.
  induction code as [o|c k IH|l k Hl IH] using script_induction; intros rids; cbn [run_script]; [by apply triple_ret|..].
  - eapply triple_bind; [apply route_call_triple|]. intros []. apply IH.
  - eapply triple_bind; [by apply drain_loop_triple|]. intros []. apply IH.
Qed.

Lemma run_source_triple t e base vm loads code : http_triple t (mine t ∅ nothing) (RunSource t e base vm loads code) (fun _ => mine t ∅ nothing).
Proof.
  unfold RunSource. eapply triple_bind; [apply lock_triple|]. intros [].
  eapply triple_bind; [eapply triple_pre; [apply at_rest_work|apply close_triple]|]. intros [].
  eapply triple_bind; [apply running_triple|]. intros [].
  eapply (triple_bind _ _ _ _ _ _ _ (fun _ => at_rest t ∅ e)); [|intros []; apply unlock_triple].
  destruct vm; cbn [negb]; [|apply triple_ret; by apply with_vm_rest].
  eapply (triple_bind _ _ _ _ _ _ _ (fun _ => with_vm true t ∅ e)).
  { apply engine_triple; [done|]. intros E (Hs & Hvm). unfold under_mutex in *. cbn in *. rewrite Hvm in Hs. destruct Hs as (-> & _).
    split; [|done]. exists base. apply no_routes_ok. }
  intros []. destruct loads; cbn [negb].
  2:{ apply (triple_pre t (at_work t ∅ e)); [intros s Hs; by eapply at_rest_work, with_vm_rest|].
      eapply triple_mono; [apply close_triple|]. intros a s Hs. by apply (with_vm_rest false). }
  eapply triple_bind; [apply running_triple|]. intros []. eapply triple_bind; [apply script_triple|]. intros [m|? ? ?].
  - eapply triple_bind; [eapply triple_pre; [|apply close_triple]; intros s ?; by eapply at_rest_work, with_vm_rest|]. intros [].
    eapply triple_mono; [apply running_triple|]. intros a s Hs. by apply (with_vm_rest false).
  - apply triple_ret. by apply with_vm_rest.
Qed.

Lemma stop_triple t e : http_triple t (mine t ∅ nothing) (Stop t e) (fun _ => mine t ∅ nothing).
Proof.
  unfold Stop. eapply triple_bind; [apply lock_triple|]. intros [].
  eapply triple_bind; [eapply triple_pre; [apply at_rest_work|apply close_triple]|]. intros [].
  eapply triple_bind; [apply running_triple|]. intros []. eapply triple_pre; [by apply with_vm_rest|apply unlock_triple].
Qed.

Lemma dispatch_event_triple t e code : http_triple t (mine t ∅ nothing) (DispatchEvent t e code) (fun _ => mine t ∅ nothing).
Proof.
  unfold DispatchEvent. eapply triple_bind; [apply lock_triple|]. intros [].
  eapply (triple_bind _ _ _ _ _ _ _ (fun runs => if runs : bool then with_vm true t ∅ e else at_rest t ∅ e)).
  { apply triple_get; [apply at_rest_stable|apply http_guar_refl|]. intros s _ (x & Hm & Hs). unfold can_run.
    destruct (holds_engine _ _ _ _ _ Hm) as (E & -> & HM & Hx). destruct (L_ E) eqn:HL, (running_ E); cbn; exists x; try done.
    split_and!; [done|done|]. by rewrite <- Hx. }
  intros [|]; cbn [negb]; (eapply (triple_bind _ _ _ _ _ _ _ (fun _ => at_rest t ∅ e)); [|intros []; apply unlock_triple]); [|by apply triple_ret].
  eapply triple_bind; [apply script_triple|]. intros outcome. apply triple_ret. by apply with_vm_rest.
Qed.

Lemma push_request_control e rid t' e' s : control t' e' (push_request e rid s).2 = control t' e' s.
Proof.
  unfold push_request. destruct (engines s !! e) as [E|] eqn:HE; [|done]. destruct (bool_decide _) eqn:Hr; [done|].
  apply bool_decide_eq_false in Hr. destruct (_ <=? _)%nat; [done|]. unfold control. cbn.
  destruct (decide (e' = e)) as [->|]; [|by rewrite lookup_alter_ne]. rewrite lookup_alter_eq, HE. cbn. destruct (decide (mutex_ E = Some t')); [|done].
  unfold under_mutex. cbn. by rewrite !decide_False.
Qed.

(** A web thread holds no engine. *)
Lemma submit_triple t e rid :
  http_triple t (mine t {[rid]} nothing) (SubmitHttp e rid) (fun r => mine t (if r then ∅ else {[rid]}) nothing).
Proof.
  apply get_then; [apply mine_stable|]. intros [|]; [|by apply triple_ret]. apply triple_act; [apply mine_stable|]. intros s Hok (Ht & Hc) _.
  destruct (push_request_ok t e rid s Hok Ht) as (? & ? & H).
  split_and!; [done|split; [done|intros; symmetry; apply push_request_control]|split].
  - destruct (push_request e rid s) as [[|] s']; [done|]. cbn in *. by rewrite H.
  - intros e'. by rewrite push_request_control.
Qed.

Lemma expire_request_ok timeoutMs q : completed (expire_request timeoutMs q) = completed q.
Proof. unfold expire_request. by destruct q as [? ? ? ? ? ? ? ? ? ? []]. Qed.

Lemma await_triple t rids rid timeoutMs expires :
  http_triple t (mine t rids nothing) (await_answer rid timeoutMs expires) (fun _ => mine t rids nothing).
Proof.
  apply triple_put_ready; [apply mine_stable|]. intros s Hok Hm _.
  destruct (set_request_ok t rid (expire_request timeoutMs) s Hok) as (? & ?).
  - intros q _. by rewrite expire_request_ok.
  - intros q _ Hc. unfold expire_request. by rewrite Hc.
  - split; [done|]. apply (still_mine t rids rids nothing s); [done|done|done|by destruct Hm].
Qed.

Lemma dispatch_triple t rid method path timeoutMs expires snapshot :
  http_triple t (mine t {[rid]} nothing) (DispatchHttp rid method path timeoutMs expires snapshot)
    (fun r => mine t (if r then ∅ else {[rid]}) nothing).
Proof.
  induction snapshot as [|e rest IH]; [by apply triple_ret|]. cbn [DispatchHttp].
  apply get_then; [apply mine_stable|]. intros [|]; [|exact IH]. apply get_then; [apply mine_stable|]. intros [|]; [|exact IH].
  eapply triple_bind; [apply submit_triple|]. intros [|]; [|exact IH].
  eapply triple_bind; [apply await_triple|]. intros []. by apply triple_ret.
Qed.

Lemma collect_triple t rids snapshot : forall out,
  http_triple t (mine t rids nothing) (collect_routes snapshot out) (fun _ => mine t rids nothing).
Proof.
  induction snapshot as [|e rest IH]; intros out; [by apply triple_ret|]. cbn [collect_routes].
  apply get_then; [apply mine_stable|]. intros [|]; [|apply IH]. apply get_then; [apply mine_stable|]. intros routes. apply IH.
Qed.

Lemma pass_triple t rid : http_triple t (mine t ∅ nothing) (pass_answer rid) (fun _ => mine t ∅ nothing).
Proof.
  unfold pass_answer, read. apply get_then; [apply mine_stable|]. intros code. destruct (code =? 0); [by apply triple_ret|].
  do 2 (apply get_then; [apply mine_stable|]; intros ?). destruct (_ && _); repeat (apply get_then; [apply mine_stable|]; intros ?); by apply triple_ret.
Qed.

Lemma drop_triple t rid : http_triple t (mine t {[rid]} nothing) (drop_request rid) (fun _ => mine t ∅ nothing).
Proof. apply triple_put_ready; [apply mine_stable|]. intros s Hok Hm _. destruct (drop_ok t rid s Hok (proj1 Hm)) as (? & ? & ?).
  split; [done|]. by apply (still_mine t {[rid]} ∅ nothing s). Qed.

Lemma serve_triple t method path rawUrl body header expires lua :
  http_triple t (mine t ∅ nothing) (ServeLuaRoute t method path rawUrl body header expires lua) (fun _ => mine t ∅ nothing).
Proof.
  unfold ServeLuaRoute. eapply (triple_bind _ _ _ _ _ _ _ (fun rid => mine t {[rid]} nothing)).
  - apply triple_act; [apply mine_stable|]. intros s Hok Hm _. destruct (new_request_ok t (lua_request method path rawUrl body header) s Hok (proj1 Hm)) as (? & ? & ?); [done|].
    split; [done|]. by apply (still_mine t ∅ {[(new_request t (lua_request method path rawUrl body header) s).1]} nothing s).
  - intros rid. unfold ForwardToLua. destruct lua as [[snapshot snapshot']|].
    + eapply triple_bind; [apply dispatch_triple|]. intros [|]; [apply pass_triple|].
      eapply triple_bind; [apply collect_triple|]. intros routes. eapply triple_bind; [apply drop_triple|]. intros []. by apply triple_ret.
    + eapply triple_bind; [apply drop_triple|]. intros []. by apply triple_ret.
Qed.

(** The calls: the web server's of [ServeLuaRoute], and the manager's of an
    engine, with the code that runs in it. *)
Inductive http_call :=
| CallServe (method path rawUrl body : list Z) (header : list Z -> list Z) (expires : bool) (lua : option (list nat * list nat))
| CallRun (e : nat) (base : gset Z) (vm loads : bool) (code : script)
| CallEvent (e : nat) (code : script)
| CallStop (e : nat).

Definition http_method (t : nat) (c : http_call) : prog Http unit :=
  match c with
  | CallServe method path rawUrl body header expires lua =>
      ServeLuaRoute t method path rawUrl body header expires lua ≫= fun _ => Ret tt
  | CallRun e base vm loads code => RunSource t e base vm loads code
  | CallEvent e code => DispatchEvent t e code
  | CallStop e => Stop t e
  end.

Definition http_methods (t : nat) (p : prog Http unit) : Prop := exists c, p = http_method t c.

Lemma method_triple t p : http_methods t p -> http_triple t (fun s => http_ok s /\ mine t ∅ nothing s) p (fun _ => mine t ∅ nothing).
Proof.
  intros (c & ->). apply (triple_pre t (mine t ∅ nothing)); [by intros s (_ & ?)|]. destruct c; cbn [http_method].
  - eapply triple_bind; [apply serve_triple|]. intros ?. by apply triple_ret.
  - apply run_source_triple.
  - apply dispatch_event_triple.
  - apply stop_triple.
Qed.

Lemma http_crew ps s ps' s' : rtc (crew_step http_methods) (ps, s) (ps', s') ->
  http_ok s -> (forall i p, ps !! i = Some p -> assured http_ok http_guar http_rely i p (fun _ => mine i ∅ nothing) s) ->
  (forall t, (length ps <= t)%nat -> mine t ∅ nothing s) ->
  http_ok s' /\ answers_stay s s' /\ (forall i p, ps' !! i = Some p -> assured http_ok http_guar http_rely i p (fun _ => mine i ∅ nothing) s') /\
  (forall t, (length ps' <= t)%nat -> mine t ∅ nothing s').
Proof.
  apply (crew_safe http_ok http_guar http_rely http_rely_order http_others answers_stay answers_stay_order)
    with (N := fun t => mine t ∅ nothing) (Q := fun t => mine t ∅ nothing).
  - by intros t s0 s1 ((? & _) & _).
  - intros t. apply mine_stable.
  - intros t. apply mine_stable.
  - apply method_triple.
Qed.
End Methods.

(** A thread whose call has not ended. *)
Definition under_way (ps : list (prog Http unit)) (t : nat) : Prop := exists p, ps !! t = Some p /\ p <> Ret tt.

Lemma idle_or_under_way ps s t :
  (forall i p, ps !! i = Some p -> assured http_ok http_guar http_rely i p (fun _ => mine i ∅ nothing) s) ->
  (forall t, (length ps <= t)%nat -> mine t ∅ nothing s) -> mine t ∅ nothing s \/ under_way ps t.
Proof.
  intros Hps Hfree. destruct (ps !! t) as [p|] eqn:Hp; [|left; by apply Hfree, lookup_ge_None].
  destruct p as [[]|]; [left; exact (Hps t _ Hp)|right; by eexists].
Qed.

(** No requests, and no engine with a VM. *)
Definition http_start (s : Http) : Prop :=
  requests s = ∅ /\ on_stack s = ∅ /\
  forall e E, engines s !! e = Some E -> L_ E = false /\ mutex_ E = None /\ routes_ E = no_routes ∅ /\ httpPending_ E = [].

Lemma http_start_ok s : http_start s -> http_ok s /\ forall t, mine t ∅ nothing s.
Proof.
  intros (Hr & Hs & HE). split.
  2:{ intros t. split; [intros rid; rewrite Hs; set_solver|]. intros e. unfold control, nothing. destruct (engines s !! e) as [E|] eqn:H; [|done].
      destruct (HE e E H) as (_ & -> & _). by rewrite decide_False. }
  constructor.
  - intros e E H. destruct (HE e E H) as (HL & HM & Ht & Hp). constructor; rewrite ?Hp; [unfold kMaxPending; cbn; lia|constructor|].
    intros _. unfold under_mutex. rewrite HL, Ht, Hp. cbn. by rewrite decide_True.
  - intros e rid (E & H & Hin). destruct (HE e E H) as (_ & _ & _ & Hp). rewrite Hp in Hin. set_solver.
  - intros e e' rid (E & H & Hin). destruct (HE e E H) as (_ & _ & _ & Hp). rewrite Hp in Hin. set_solver.
  - intros rid t. by rewrite Hs.
  - intros rid q. by rewrite Hr.
Qed.

(** ** No request is lost *)

(** C36: Whatever web threads, scripts, their handlers, event handlers and stops
    do, in any interleaving: a complete answer never changes again; a script's
    queue never holds more than 64 requests; and every request that was not
    turned away is in one place only: it has its answer; or it waits in the
    queue of one script, which has a VM or on which a call that has not ended is
    at work - such as the stop that is about to answer the queue; or it is being
    seen to by one thread, whose call has not ended.  So when a script has no VM
    and no call is at work on it, nothing waits in its queue. *)
Theorem no_request_is_lost {R : LuaRegistry} s ps1 s1 ps2 s2 :
  http_start s -> rtc (crew_step http_methods) ([], s) (ps1, s1) -> rtc (crew_step http_methods) (ps1, s1) (ps2, s2) ->
  http_ok s2 /\ answers_stay s1 s2 /\
  (forall e E, engines s2 !! e = Some E -> (length (httpPending_ E) <= 64)%nat /\
     (L_ E = false -> (forall t, mutex_ E = Some t -> ~ under_way ps2 t) -> httpPending_ E = [])) /\
  forall rid q, requests s2 !! rid = Some q ->
    completed q = true \/
    (exists e E, engines s2 !! e = Some E /\ rid ∈ httpPending_ E /\
       (L_ E = true \/ exists t, mutex_ E = Some t /\ under_way ps2 t) /\ forall e', queued e' rid s2 -> e' = e) \/
    (exists t, on_stack s2 !! rid = Some t /\ under_way ps2 t).
Proof.
  intros (Hok & Hfree)%http_start_ok H1 H2.
  destruct (http_crew _ _ _ _ H1 Hok) as (Hok1 & _ & Hps1 & Hfree1); [by intros ? ? H|by intros t _|].
  destruct (http_crew _ _ _ _ H2 Hok1 Hps1 Hfree1) as (Hok2 & Hstay & Hps2 & Hfree2).
  assert (forall e E, engines s2 !! e = Some E -> L_ E = true \/ httpPending_ E = [] \/ exists t, mutex_ E = Some t /\ under_way ps2 t) as Hqueue.
  { intros e E HE. destruct (http_engines s2 Hok2 e E HE) as [_ _ Hs]. destruct (L_ E) eqn:HL; [by left|right].
    destruct (mutex_ E) as [t|] eqn:HM.
    - right. exists t. split; [done|]. destruct (idle_or_under_way _ _ t Hps2 Hfree2) as [(_ & Hc)|?]; [|done].
      specialize (Hc e). unfold control in Hc. by rewrite HE, HM, decide_True in Hc.
    - left. specialize (Hs eq_refl). unfold under_mutex in Hs. rewrite HL in Hs. destruct Hs as (Hr & Hp). by rewrite decide_True in Hp. }
  split_and!; [done|done| |].
  - intros e E HE. split; [apply (http_engines s2 Hok2 e E HE)|]. intros HL Hno. destruct (Hqueue e E HE) as [?|[?|(t & HM & Hu)]]; [congruence|done|].
    by destruct (Hno t HM).
  - intros rid q Hq. destruct (http_placed s2 Hok2 rid q Hq) as [?|[(e & E & HE & Hin)|(t & Ht)]]; [by left|right; left|right; right].
    + exists e, E. split_and!; [done|done| |].
      * destruct (Hqueue e E HE) as [?|[Hp|?]]; [by left|rewrite Hp in Hin; set_solver|by right].
      * intros e' He'. apply (http_once s2 Hok2 e' e rid); [done|by exists E].
    + exists t. split; [done|]. destruct (idle_or_under_way _ _ t Hps2 Hfree2) as [(Hs & _)|?]; [|done]. apply Hs in Ht. set_solver.
Qed.

(** ** What a request is answered *)








(** ** Examples *)

Definition demo_http : Http := mkState {[0%nat := mkEngine false false None (no_routes ∅) []]} ∅ ∅.

Lemma demo_http_start : http_start demo_http.
Proof.
  split_and!; [done|done|]. intros e E. cbn. intros [_ <-]%lookup_singleton_Some. done.
Qed.

Definition no_header (name : list Z) : list Z := [].
Definition ask (expires : bool) : http_call := CallServe (b! "GET") (b! "lockers/7") (b! "/api/app/lockers/7?x=1") [] no_header expires (Some ([0%nat], [0%nat])).

(** A script starts and registers a route, and two requests come: its event
    handler sleeps and takes the first, whose handler takes the route away and
    answers, while a stop waits for the engine; the stop answers the second. *)
Definition serve_once : script := Routes_then (Unregisters (b! "GET") (b! "lockers/<id>")) (Ends (Returned (LString (b! "open")) LNil LNil)).
Definition demo_calls : list http_call :=
  [CallRun 0 ∅ true true (Routes_then (Registers (b! "GET") (b! "lockers/<id>")) (Ends (Returned LNil LNil LNil)));
   ask false; ask false; CallStop 0; CallEvent 0 (Sleeps_then [serve_once] (Ends (Returned LNil LNil LNil)))].
Definition demo_threads : list (prog Http unit) := imap (http_method (R := demo_lua_registry)) demo_calls.

Definition demo_before : list (prog Http unit) * Http := play [(0, 20); (1, 5); (2, 5); (4, 3); (3, 20)]%nat (demo_threads, demo_http).
Definition demo_after : list (prog Http unit) * Http := play [(4, 20); (3, 20); (1, 20); (2, 20)]%nat demo_before.

Lemma demo_threads_called :
  rtc (crew_step (http_methods (R := demo_lua_registry))) ([], demo_http) (demo_threads, demo_http).
Proof.
  apply (crew_calls _ demo_threads []). intros i p Hi. unfold demo_threads in Hi. rewrite list_lookup_imap in Hi.
  destruct (_ !! i) as [c|]; [|done]. injection Hi as <-. by exists c.
Qed.

Definition demo_status (rid : nat) (s : Http) : option (Z * bool) := (fun q => (status q, completed q)) <$> requests s !! rid.
Definition demo_queue (s : Http) : option (list nat * option nat) := (fun E => (httpPending_ E, mutex_ E)) <$> engines s !! 0%nat.

Lemma no_request_is_lost_witness :
  demo_queue demo_before.2 = Some ([1], Some 4)%nat /\ on_stack demo_before.2 !! 0%nat = Some 4%nat /\
  http_ok demo_after.2 /\ answers_stay demo_before.2 demo_after.2 /\
  demo_status 0 demo_after.2 = Some (200, true) /\ demo_status 1 demo_after.2 = Some (503, true) /\ demo_queue demo_after.2 = Some ([], None).
Proof.
  destruct (no_request_is_lost (R := demo_lua_registry) demo_http demo_before.1 demo_before.2 demo_after.1 demo_after.2 demo_http_start) as (Hok & Hstay & _).
  - rewrite <- surjective_pairing. etrans; [exact demo_threads_called|]. exact (play_sound _ _ _).
  - rewrite <- !surjective_pairing. exact (play_sound _ _ _).
  - split; [vm_compute; reflexivity|]. split; [vm_compute; reflexivity|]. split; [exact Hok|]. split; [exact Hstay|].
    split; [|split]; vm_compute; reflexivity.
Defined.

(** Two requests wait for a script that serves one of them. *)
Definition demo_lua_request (method path : list Z) : LuaHttpRequest := lua_request method path path [] no_header.



Definition demo_answer : lua_outcome := Returned (LNumber (Some 201) (b! "201")) (LString (b! "opened")) LNil.
Definition demo_outcomes : list lua_outcome := [demo_answer; Raised None; Raised None].


(** A handler that returns a table: nothing of it is sent. *)
Example table_is_no_content : outcome_fields (Returned LOther LNil LNil) = [WStatus 204].
Proof. reflexivity. Qed.

(** A script whose queue is full: the answer is a 404, whose list of routes
    has the very route that was asked for. *)
Definition full_http : Http := mkState {[0%nat := mkEngine true true None demo_table (seq 0 64)]} ∅ ∅.

Theorem full_queue_is_not_found : exists s',
  run (ServeLuaRoute 9 (b! "ANY") (b! "lockers/7") (b! "/api/app/lockers/7") [] no_header true (Some ([0%nat], [0%nat]))) full_http =
  Ok (NotServed (b! "no script serves ANY lockers/7") [b! "ANY lockers/7"; b! "GET lockers/<id>"], s').
Proof. eexists. vm_compute. reflexivity. Qed.

(** The time runs out and the web thread has read the status, 504; then the
    script answers, and the web thread reads the body, which is the script's:
    the client gets the body of an answer under the status of a failure. *)
Definition late : option (Z * list Z) :=
  match run (DispatchHttp 0 (b! "POST") (b! "lockers/7") 5000 true [0%nat])
          (mkState {[0%nat := mkEngine true true None demo_table []]} {[0%nat := demo_lua_request (b! "POST") (b! "lockers/7")]} {[0%nat := 1%nat]}) with
  | Ok (true, s1) =>
      match run (read 0 0 status) s1, run (DrainPendingHttp (R := demo_lua_registry) 2 0 (map Ends demo_outcomes)) s1 with
      | Ok (code, _), Ok (_, s2) =>
          match run (read 0 [] response_body) s2 with Ok (body, _) => Some (code, body) | _ => None end
      | _, _ => None
      end
  | _ => None
  end.

Theorem late_answer_is_mixed : late = Some (504, b! "opened").
Proof. vm_compute. reflexivity. Qed.
