(* ===== verification/LuaRuntimes.v ===== *)
(** * Lua runtimes (src/LuaRuntimeManager.cpp, and the running and stopping of
    a script in src/LuaEngine.cpp)

    Every script runs in an engine of its own on a thread of its own.  Here is
    the life of a runtime: started, run, stopped, joined, forgotten.  A runtime
    is a shared object; [heap] has them all, [runtimes_] those the manager
    knows, by name.  What a script does is an argument of its thread.

    Two fields are the proof's: [custody] says which call has a runtime that is
    not in the manager's map to deal with, [reaper] which call has set a
    runtime's [reaping]. *)

From stdpp Require Import relations.
From S2P Require Import Prelude Text Threads Crew.

Inductive Phase := kStarting | kActive | kStopping | kTerminal.

#[global] Instance Phase_eq_dec : EqDecision Phase.
Proof. solve_decision. Defined.

Abbreviation Modules := (list (list Z * list Z)).

(** What the thread was given to run. *)
Record Job := mkJob { j_path : list Z; j_source : list Z; j_fromSource : bool; j_preload : Modules }.

(** [joinable] is the handle in the runtime's [std::thread]; [spawned], [begun]
    and [finished] are the thread itself; [locked] to [lastSource_] belong to
    the engine: its mutex, whether it should interrupt, whether it runs, its
    error and what it ran last. *)
Record Runtime := mkRuntime {
  rt_id : Z; rt_name : list Z; rt_path : list Z; rt_job : Job;
  rt_phase : Phase; stopRequested : bool; reaping : bool;
  joinable : bool; spawned : bool; begun : bool; finished : bool;
  startDecided : bool; startOk : bool; startError : list Z;
  locked : bool; interruptRequested_ : bool; vm_running : bool; runtimeError_ : list Z; lastSource_ : list Z }.

Inductive rt_change :=
| Phased (p : Phase) | StopRequested | Reaping (b : bool) | Joinable (b : bool) | Begun | Finished
| Decided (ok : bool) (error : list Z)
| Locked (b : bool) | Interrupt (b : bool) | Running (b : bool) | Error (e : list Z) | Ran (source : list Z).

Definition changed (c : rt_change) (r : Runtime) : Runtime :=
  let '(mkRuntime i n pa j p sr re jo sp be fi sd so se lo ir ru er ls) := r in
  match c with
  | Phased p => mkRuntime i n pa j p sr re jo sp be fi sd so se lo ir ru er ls
  | StopRequested => mkRuntime i n pa j p true re jo sp be fi sd so se lo ir ru er ls
  | Reaping b => mkRuntime i n pa j p sr b jo sp be fi sd so se lo ir ru er ls
  | Joinable b => mkRuntime i n pa j p sr re b sp be fi sd so se lo ir ru er ls
  | Begun => mkRuntime i n pa j p sr re jo sp true fi sd so se lo ir ru er ls
  | Finished => mkRuntime i n pa j p sr re jo sp be true sd so se lo ir ru er ls
  | Decided ok e => mkRuntime i n pa j p sr re jo sp be fi true ok e lo ir ru er ls
  | Locked b => mkRuntime i n pa j p sr re jo sp be fi sd so se b ir ru er ls
  | Interrupt b => mkRuntime i n pa j p sr re jo sp be fi sd so se lo b ru er ls
  | Running b => mkRuntime i n pa j p sr re jo sp be fi sd so se lo ir b er ls
  | Error e => mkRuntime i n pa j p sr re jo sp be fi sd so se lo ir ru e ls
  | Ran s => mkRuntime i n pa j p sr re jo sp be fi sd so se lo ir ru er s
  end.

Record Manager := mkManager {
  runtimes_ : gmap (list Z) nat; heap : gmap nat Runtime; nextId_ : Z; custody : gmap nat nat; reaper : gmap nat nat }.

Definition new_manager_state : Manager := mkManager ∅ ∅ 1 ∅ ∅.

Definition update (g : nat) (cs : list rt_change) (m : Manager) : Manager :=
  mkManager (runtimes_ m) (alter (fun r => foldl (fun r c => changed c r) r cs) g (heap m)) (nextId_ m) (custody m) (reaper m).

(** What a runtime says; a runtime that is not there says the default. *)
Definition asks {A} (default : A) (f : Runtime -> A) (g : nat) (m : Manager) : A :=
  match heap m !! g with Some r => f r | None => default end.

Definition change_rt (g : nat) (cs : list rt_change) : prog Manager unit := put (update g cs).
Definition change_when (ready : Runtime -> bool) (g : nat) (cs : list rt_change) : prog Manager unit :=
  put_ready (asks false ready g) (update g cs).
Definition ask_rt {A} (default : A) (f : Runtime -> A) (g : nat) : prog Manager A := get (asks default f g).

Definition active (p : Phase) : bool :=
  match p with kStarting | kActive | kStopping => true | kTerminal => false end.
Definition IsActive (g : nat) (m : Manager) : bool := asks false (fun r => active (rt_phase r)) g m.

(** ** The script's thread *)

(** What a script's code does: its file does not open, it does not load, it
    returns, it fails, or it runs until it is interrupted. *)
Inductive behaviour := Unopened (e : list Z) | Unloadable (e : list Z) | Returns | Fails (e : list Z) | Loops.

Definition kInterrupted : list Z := b! "script interrupted by Stop()".

(** The end of a script that failed: an error while an interruption is wanted
    is that interruption. *)
Definition pcall_failed (g : nat) (e : list Z) : prog Manager (option (list Z)) :=
  change_rt g [Running false] ≫= fun _ =>
  ask_rt false interruptRequested_ g ≫= fun (interrupted : bool) =>
  change_rt g [Error (if interrupted then [] else e); Locked false] ≫= fun _ => Ret (Some e).

(** [lua_pcall]: the hook that interrupts a script sees the flag only. *)
Definition pcall (g : nat) (b : behaviour) : prog Manager (option (list Z)) :=
  match b with
  | Fails e => pcall_failed g e
  | Loops => change_when interruptRequested_ g [] ≫= fun _ => pcall_failed g kInterrupted
  | _ => change_rt g [Locked false] ≫= fun _ => Ret None
  end.

(** [RunSource]: an error, or [None] for true. *)
Definition RunSource (g : nat) (code : list Z) (b : behaviour) : prog Manager (option (list Z)) :=
  change_rt g [Interrupt true] ≫= fun _ =>
  change_when (fun r => negb (locked r)) g [Locked true] ≫= fun _ =>
  change_rt g [Interrupt false] ≫= fun _ =>
  change_rt g [Running false] ≫= fun _ =>
  match b with
  | Unopened e | Unloadable e => change_rt g [Error e; Locked false] ≫= fun _ => Ret (Some e)
  | _ => change_rt g [Ran code; Running true; Error []] ≫= fun _ => pcall g b
  end.

(** [RunBundle], [RunSource] or [RunFile], whose code is what the file holds. *)
Definition run_job (g : nat) (job : Job) (contents : list Z) (b : behaviour) : prog Manager (option (list Z)) :=
  if j_fromSource job then RunSource g (j_source job) b
  else match b with
       | Unopened e => Ret (Some e)
       | _ => RunSource g contents b
       end.

Definition RunThread (g : nat) (contents : list Z) (b : behaviour) : prog Manager unit :=
  change_when (fun r => spawned r && negb (begun r)) g [Begun] ≫= fun _ =>
  change_rt g [Phased kActive] ≫= fun _ =>
  ask_rt (mkJob [] [] true []) rt_job g ≫= fun job =>
  run_job g job contents b ≫= fun error =>
  change_rt g [Decided (bool_decide (error = None)) (default [] error)] ≫= fun _ =>
  match error with
  | None => change_rt g [Finished]
  | Some _ =>
      ask_rt false stopRequested g ≫= fun _ =>   (* recorded as an error unless it was asked to stop *)
      change_rt g [Phased kTerminal] ≫= fun _ => change_rt g [Finished]
  end.

(** [LuaEngine::Stop]. *)
Definition EngineStop (g : nat) : prog Manager unit :=
  change_rt g [Interrupt true] ≫= fun _ =>
  change_when (fun r => negb (locked r)) g [Running false; Interrupt false; Error []].

Definition LastSource (g : nat) : prog Manager (list Z) :=
  Act (asks false (fun r => negb (locked r)) g) (fun m => Ok (asks [] lastSource_ g m, m)) Ret.

(** ** The manager *)

(** [reaping.exchange(true)]. *)
Definition begin_reap (t g : nat) (m : Manager) : bool * Manager :=
  match heap m !! g with
  | None => (true, m)
  | Some r =>
      if reaping r then (true, m)
      else (false, mkManager (runtimes_ m) (alter (changed (Reaping true)) g (heap m)) (nextId_ m) (custody m) (<[g := t]> (reaper m)))
  end.

(** The handle moved out of the runtime. *)
Definition take_thread (g : nat) (m : Manager) : bool * Manager :=
  (asks false joinable g m,
   mkManager (runtimes_ m) (alter (changed (Joinable false)) g (heap m)) (nextId_ m) (custody m) (reaper m)).

Definition end_reap (g : nat) (m : Manager) : Manager :=
  mkManager (runtimes_ m) (alter (changed (Reaping false)) g (heap m)) (nextId_ m) (custody m) (delete g (reaper m)).

Definition interrupt_script (g : nat) (interrupt : bool) : prog Manager unit :=
  if interrupt then change_rt g [StopRequested] ≫= fun _ => change_rt g [Phased kStopping] ≫= fun _ => EngineStop g
  else Ret tt.

Definition join_thread (g : nat) (taken : bool) : prog Manager unit :=
  if taken then change_when finished g [] else Ret tt.

Definition Reap (t g : nat) (interrupt : bool) : prog Manager unit :=
  act (begin_reap t g) ≫= fun busy =>
  if (busy : bool) then Ret tt
  else
    act (take_thread g) ≫= fun taken =>
    interrupt_script g interrupt ≫= fun _ =>
    join_thread g taken ≫= fun _ =>
    change_rt g [Phased kTerminal] ≫= fun _ =>
    put (end_reap g).

Inductive StartResult := kStarted | kAlreadyRunning | kFailed.

#[global] Instance StartResult_eq_dec : EqDecision StartResult.
Proof. solve_decision. Defined.

(** The runtime of that name: active, or there to be replaced. *)
Inductive occupant := Free | Busy | Dead (g : nat).

Definition look_up (name : list Z) (m : Manager) : occupant :=
  match runtimes_ m !! name with
  | None => Free
  | Some g => if IsActive g m then Busy else Dead g
  end.

Definition forget (name : list Z) (g : nat) (m : Manager) : Manager :=
  if bool_decide (runtimes_ m !! name = Some g)
  then mkManager (delete name (runtimes_ m)) (heap m) (nextId_ m) (custody m) (reaper m) else m.

(** [make_shared] and the start of its thread: nobody else knows of the runtime
    yet. *)
Definition new_runtime (t : nat) (name path : list Z) (job : Job) (m : Manager) : nat * Manager :=
  let g := fresh (dom (heap m)) in
  let r := mkRuntime (nextId_ m) name path job kStarting false false true true false false false false [] false false false [] [] in
  (g, mkManager (runtimes_ m) (<[g := r]> (heap m)) (nextId_ m + 1) (<[g := t]> (custody m)) (reaper m)).

(** [runtimes_[name] = runtime]: the map has it from here on. *)
Definition publish (name : list Z) (g : nat) (m : Manager) : Manager :=
  mkManager (<[name := g]> (runtimes_ m)) (heap m) (nextId_ m) (delete g (custody m)) (reaper m).

Definition await_start (g : nat) (expires : bool) : prog Manager (option (bool * list Z)) :=
  Act (fun m => expires || asks false startDecided g m)
    (fun m => Ok (if asks false startDecided g m then Some (asks false startOk g m, asks [] startError g m) else None, m)) Ret.

Definition launch (t : nat) (name path : list Z) (job : Job) (expires : bool) : prog Manager (StartResult * list Z) :=
  act (new_runtime t name (if j_fromSource job then [] else path) job) ≫= fun g =>
  put (publish name g) ≫= fun _ =>
  await_start g expires ≫= fun decided =>
  Ret match decided with
      | Some (false, e) => (kFailed, e)
      | _ => (kStarted, [])
      end.

(** [is_file] says what is at [path], [expires] whether the time for a start
    runs out first. *)
Definition StartInternal (t : nat) (name path source : list Z) (fromSource : bool) (preload : Modules)
  (is_file expires : bool) : prog Manager (StartResult * list Z) :=
  if negb fromSource && negb is_file then Ret (kFailed, b! "script not found: " ++ path)
  else
    get (look_up name) ≫= fun found =>
    let job := mkJob path source fromSource preload in
    match found with
    | Busy => Ret (kAlreadyRunning, name ++ b! " is already running")
    | Free => launch t name path job expires
    | Dead g => Reap t g false ≫= fun _ => put (forget name g) ≫= fun _ => launch t name path job expires
    end.

Definition kEditorBufferName : list Z := b! "(editor buffer)".

Definition StartScript (t : nat) (name path : list Z) (is_file expires : bool) : prog Manager (StartResult * list Z) :=
  match name with
  | [] => Ret (kFailed, b! "no script name given")
  | _ => StartInternal t name path [] false [] is_file expires
  end.

(** The name a file starts under: its path relative to the scripts directory,
    unless there is none or it climbs out. *)
Definition file_name_of (relative : option (list Z)) (filename : list Z) : list Z :=
  match relative with
  | None | Some [] => filename
  | Some rel => if starts_with (b! "..") rel then filename else rel
  end.

Definition StartFile (t : nat) (fullPath : list Z) (relative : option (list Z)) (filename : list Z) (is_file expires : bool) :
  prog Manager (StartResult * list Z) :=
  match fullPath with
  | [] => Ret (kFailed, b! "no script path given")
  | _ => StartInternal t (file_name_of relative filename) fullPath [] false [] is_file expires
  end.

Definition StartSource (t : nat) (code : list Z) (expires : bool) : prog Manager (StartResult * list Z) :=
  StartInternal t kEditorBufferName [] code true [] false expires.

(** The aliases of a package's modules without their first component. *)
Definition alias_of (name : list Z) : option (list Z) :=
  match until 46 name with
  | (_, _ :: (_ :: _) as rest) => Some rest
  | _ => None
  end.

Definition add_alias (preload : Modules) (module : list Z * list Z) : Modules :=
  match alias_of module.1 with
  | None => preload
  | Some alias => if existsb (fun candidate => bool_decide (candidate.1 = alias)) preload then preload else preload ++ [(alias, module.2)]
  end.

Definition with_aliases (modules : Modules) : Modules := foldl add_alias modules modules.

Definition StartPackage (t : nat) (displayName : list Z) (modules : Modules) (entry : list Z) (expires : bool) :
  prog Manager (StartResult * list Z) :=
  match entry with
  | [] => Ret (kFailed, b! "the package has no entry chunk")
  | _ => StartInternal t displayName [] entry true (with_aliases modules) false expires
  end.

Definition StopScript (t : nat) (name : list Z) : prog Manager bool :=
  get (fun m => match runtimes_ m !! name with Some g => if IsActive g m then Some g else None | None => None end) ≫= fun found =>
  match found with
  | None => Ret false
  | Some g => Reap t g true ≫= fun _ => Ret true
  end.

Definition SnapshotRuntimes (m : Manager) : list nat :=
  map snd (sort_by (fun a b => lex_leb a.1 b.1) (map_to_list (runtimes_ m))).

Definition stop_if_active (t g : nat) : prog Manager unit :=
  get (IsActive g) ≫= fun a => if (a : bool) then Reap t g true else Ret tt.

Definition StopAll (t : nat) : prog Manager unit := get SnapshotRuntimes ≫= each (stop_if_active t).

(** [~LuaRuntimeManager], and whether it ends the process: the runtimes go with
    the map, and one whose thread's handle is still joinable takes the process
    with it. *)
Definition Destroy (t : nat) : prog Manager bool :=
  StopAll t ≫= fun _ => get (fun m => existsb (fun g => asks false joinable g m) (SnapshotRuntimes m)).

Definition restart_job (g : nat) (path : list Z) : prog Manager (list Z) :=
  match path with [] => LastSource g | _ => Ret [] end.

Definition Restart (t : nat) (name : list Z) (is_file expires : bool) : prog Manager (bool * list Z) :=
  get (fun m => runtimes_ m !! name) ≫= fun found =>
  match found with
  | None => Ret (false, b! "no runtime named " ++ name)
  | Some g =>
      ask_rt [] rt_path g ≫= fun path =>
      restart_job g path ≫= fun source =>
      if bool_decide (path = []) && bool_decide (source = []) then Ret (false, b! "nothing to restart for " ++ name)
      else
        stop_if_active t g ≫= fun _ =>
        (match path with
         | [] => StartInternal t name [] source true [] false expires
         | _ => StartInternal t name path [] false [] is_file expires
         end) ≫= fun r => Ret (bool_decide (r.1 = kStarted), r.2)
  end.

(** The runtimes that are not active leave the map, to be joined. *)
Definition take_dead (t : nat) (m : Manager) : list nat * Manager :=
  let dead := List.filter (fun e => negb (IsActive e.2 m)) (map_to_list (runtimes_ m)) in
  (map snd dead,
   mkManager (base.filter (fun e => IsActive e.2 m = true) (runtimes_ m)) (heap m) (nextId_ m)
     (foldr (fun e c => <[e.2 := t]> c) (custody m) dead) (reaper m)).

(** A reaper's local variable goes. *)
Definition let_go (g : nat) : prog Manager unit :=
  put (fun m => mkManager (runtimes_ m) (heap m) (nextId_ m) (delete g (custody m)) (reaper m)).

Definition reap_dead (t g : nat) : prog Manager unit := Reap t g false ≫= fun _ => let_go g.

Definition Prune (t : nat) : prog Manager Z :=
  act (take_dead t) ≫= fun dead => each (reap_dead t) dead ≫= fun _ => Ret (Z.of_nat (length dead)).

Definition EngineRuns (g : nat) (m : Manager) : bool := asks false vm_running g m.

Definition IsRunning (name : list Z) (m : Manager) : bool :=
  match runtimes_ m !! name with Some g => IsActive g m && EngineRuns g m | None => false end.

Definition RunningCount (m : Manager) : Z :=
  Z.of_nat (length (List.filter (fun g => IsActive g m && EngineRuns g m) (SnapshotRuntimes m))).

(** [RuntimeInfo] and [StateName]. *)
Definition engine_state (r : Runtime) : string :=
  if vm_running r then "RUNNING" else if negb (bool_decide (runtimeError_ r = [])) then "ERROR" else "STOPPED".

Definition StateName (r : Runtime) : string :=
  match rt_phase r with
  | kStarting => "STARTING"
  | kStopping => "STOPPING"
  | kActive => engine_state r
  | kTerminal => if bool_decide (runtimeError_ r = []) then "STOPPED" else "ERROR"
  end.

(** ** What the threads' handles need *)

(** The part of a runtime, and of the state, that says who has the handle. *)
Record Core := mkCore { c_name : list Z; c_spawned : bool; c_joinable : bool; c_reaping : bool }.
Record Skel := mkSkel { k_names : gmap (list Z) nat; k_heap : gmap nat Core; k_custody : gmap nat nat; k_reaper : gmap nat nat }.

Definition core (r : Runtime) : Core := mkCore (rt_name r) (spawned r) (joinable r) (reaping r).
Definition skel (m : Manager) : Skel := mkSkel (runtimes_ m) (core <$> heap m) (custody m) (reaper m).

(** A thread that was started and not taken has somebody who will see to it:
    its runtime is in the map, or a call has it. *)
Record skel_ok (k : Skel) : Prop := {
  ok_named : forall name g, k_names k !! name = Some g -> exists c, k_heap k !! g = Some c /\ c_name c = name /\ c_spawned c = true;
  ok_custody : forall g t, k_custody k !! g = Some t -> is_Some (k_heap k !! g) /\ forall name, k_names k !! name <> Some g;
  ok_reaper : forall g, is_Some (k_reaper k !! g) <-> exists c, k_heap k !! g = Some c /\ c_reaping c = true;
  ok_joinable : forall g c, k_heap k !! g = Some c -> c_joinable c = true ->
    c_spawned c = true /\ (c_reaping c = false -> k_names k !! c_name c = Some g \/ is_Some (k_custody k !! g)) }.

Definition rt_named (n : list Z) (g : nat) (k : Skel) : Prop := exists c, k_heap k !! g = Some c /\ c_name c = n /\ c_spawned c = true.
Definition is_spawned (g : nat) (k : Skel) : Prop := exists n, rt_named n g k.
(** Nobody need join it, or somebody is about to. *)
Definition rt_settled (g : nat) (k : Skel) : Prop :=
  exists c, k_heap k !! g = Some c /\ c_spawned c = true /\ (c_joinable c = true -> c_reaping c = true).
Definition unjoined (g : nat) (k : Skel) : Prop :=
  exists c, k_heap k !! g = Some c /\ c_spawned c = true /\ c_joinable c = false.

(** What call [t] has to deal with, and what it reaps. *)
Definition hands (t : nat) (C P : gset nat) (k : Skel) : Prop :=
  (forall g, k_custody k !! g = Some t <-> g ∈ C) /\ (forall g, k_reaper k !! g = Some t <-> g ∈ P).

(** The thread that starts runtimes. *)
Definition starter : nat := 0.

Definition moves_on (k k' : Skel) : Prop :=
  forall g, (forall n, rt_named n g k -> rt_named n g k') /\ (rt_settled g k -> rt_settled g k') /\ (unjoined g k -> unjoined g k').

Definition k_guar (t : nat) (k k' : Skel) : Prop :=
  moves_on k k' /\ (t <> starter -> k_names k' ⊆ k_names k) /\
  forall t' g, t' <> t -> (k_custody k !! g = Some t' <-> k_custody k' !! g = Some t') /\ (k_reaper k !! g = Some t' <-> k_reaper k' !! g = Some t').
Definition k_rely (t : nat) (k k' : Skel) : Prop :=
  moves_on k k' /\ (t = starter -> k_names k' ⊆ k_names k) /\
  forall g, (k_custody k !! g = Some t <-> k_custody k' !! g = Some t) /\ (k_reaper k !! g = Some t <-> k_reaper k' !! g = Some t).

Definition manager_ok (m : Manager) : Prop := skel_ok (skel m).
Definition manager_guar (t : nat) (m m' : Manager) : Prop := k_guar t (skel m) (skel m').
Definition manager_rely (t : nat) (m m' : Manager) : Prop := k_rely t (skel m) (skel m').
Definition manager_ever (m m' : Manager) : Prop := moves_on (skel m) (skel m').

#[global] Instance moves_on_order : PreOrder moves_on.
Proof. split; [intros k g; by split_and!|]. intros k1 k2 k3 H1 H2 g. destruct (H1 g) as (A1 & B1 & C1), (H2 g) as (A2 & B2 & C2). split_and!; auto. Qed.

#[global] Instance manager_rely_order t : PreOrder (manager_rely t).
Proof.
  split; [by intros m; split_and!|]. intros m1 m2 m3 (A1 & B1 & C1) (A2 & B2 & C2). split_and!; [by etrans| |].
  - intros Ht. etrans; [by apply B2|by apply B1].
  - intros g. destruct (C1 g) as (D1 & E1), (C2 g) as (D2 & E2). split; [by rewrite D1|by rewrite E1].
Qed.

#[global] Instance manager_ever_order : PreOrder manager_ever.
Proof. split; [by intros m g|]. intros m1 m2 m3 H1 H2. unfold manager_ever in *. by etrans. Qed.

Lemma manager_others t t' m m' : t <> t' -> manager_guar t' m m' -> manager_rely t m m'.
Proof.
  intros Hne (A & B & C). split_and!; [done| |intros g; by apply C].
  intros ->. apply B. congruence.
Qed.

Lemma k_guar_refl t k : k_guar t k k.
Proof. by split_and!. Qed.

(** A change that no handle sees. *)
Definition inert (c : rt_change) : bool :=
  match c with Reaping _ | Joinable _ => false | _ => true end.

Lemma inert_core c r : inert c = true -> core (changed c r) = core r.
Proof. by destruct r, c. Qed.

Lemma skel_update g cs m : forallb inert cs = true -> skel (update g cs m) = skel m.
Proof.
  intros Hcs. unfold skel, update. cbn. f_equal. apply map_eq. intros i. rewrite !lookup_fmap.
  destruct (decide (i = g)) as [->|Hne]; [rewrite lookup_alter_eq|by rewrite lookup_alter_ne].
  destruct (heap m !! g) as [r|]; [|done]. cbn. f_equal. clear -Hcs. revert r. induction cs as [|c cs IH]; intros r; [done|].
  cbn in Hcs |- *. apply andb_true_iff in Hcs as (Hc & Hcs). rewrite IH by done. by apply inert_core.
Qed.

Lemma skel_heap m g c : k_heap (skel m) !! g = Some c <-> exists r, heap m !! g = Some r /\ c = core r.
Proof. cbn. rewrite lookup_fmap. destruct (heap m !! g) as [r|]; cbn; naive_solver. Qed.

(** ** The actions on handles *)

Lemma core_changed_reaping b r : core (changed (Reaping b) r) = mkCore (rt_name r) (spawned r) (joinable r) b.
Proof. by destruct r. Qed.
Lemma core_changed_joinable b r : core (changed (Joinable b) r) = mkCore (rt_name r) (spawned r) b (reaping r).
Proof. by destruct r. Qed.

(** The core of one runtime replaced. *)
Lemma skel_alter g f m r names n cu re : heap m !! g = Some r ->
  skel (mkManager names (alter f g (heap m)) n cu re) = mkSkel names (<[g := core (f r)]> (core <$> heap m)) cu re.
Proof.
  intros Hr. unfold skel. cbn. f_equal. apply map_eq. intros i. rewrite lookup_fmap.
  destruct (decide (i = g)) as [->|Hne]; [by rewrite lookup_alter_eq, lookup_insert_eq, Hr|].
  by rewrite lookup_alter_ne, lookup_insert_ne, lookup_fmap by done.
Qed.

(** What stays true when one core is replaced by another that is as settled. *)
Lemma moves_on_insert names names' h cu cu' re re' g c c' :
  h !! g = Some c -> c_name c' = c_name c -> (c_spawned c = true -> c_spawned c' = true) ->
  (c_spawned c = true -> (c_joinable c = true -> c_reaping c = true) -> c_joinable c' = true -> c_reaping c' = true) ->
  (c_joinable c = false -> c_joinable c' = false) ->
  moves_on (mkSkel names h cu re) (mkSkel names' (<[g := c']> h) cu' re').
Proof.
  intros Hc Hnm Hs Hset Hj g'. destruct (decide (g' = g)) as [->|Hne].
  - split_and!; [intros n| |]; intros (c0 & H0 & H); cbn in H0; rewrite Hc in H0; injection H0 as <-; exists c'; cbn; rewrite lookup_insert_eq;
      naive_solver.
  - by split_and!; [intros n| |]; intros (c0 & H0 & H); exists c0; cbn in *; rewrite lookup_insert_ne by done.
Qed.

Lemma hands_reaper t C P k g : hands t C P k -> g ∈ P -> k_reaper k !! g = Some t.
Proof. intros (_ & H). apply H. Qed.

(** Setting [reaping]. *)
Lemma begin_reap_ok t g C m : manager_ok m -> hands t C ∅ (skel m) -> is_spawned g (skel m) ->
  let r := begin_reap t g m in
  manager_ok r.2 /\ manager_guar t m r.2 /\
  (if r.1 then hands t C ∅ (skel r.2) /\ rt_settled g (skel r.2) else hands t C {[g]} (skel r.2) /\ is_spawned g (skel r.2)).
Proof.
  intros Hok Hh (n & c & Hc & Hname & Hs). pose proof (proj1 (skel_heap _ _ _) Hc) as (r & Hr & ->). unfold begin_reap. rewrite Hr.
  destruct (reaping r) eqn:Hre; cbn [fst snd].
  { split_and!; [done|apply k_guar_refl|done|]. exists (core r). by split_and!. }
  unfold manager_ok, manager_guar. rewrite (skel_alter g _ m r) by done. rewrite core_changed_reaping. cbn in Hs.
  assert (k_reaper (skel m) !! g = None) as Hnone.
  { destruct (k_reaper (skel m) !! g) eqn:E; [|done]. assert (is_Some (k_reaper (skel m) !! g)) as H by (rewrite E; by eexists).
    apply (ok_reaper _ Hok) in H as (c0 & Hc0 & Hre0). rewrite Hc in Hc0. injection Hc0 as <-. cbn in Hre0. congruence. }
  cbn [k_reaper skel] in Hnone. destruct Hok as [Hn Hcu Hrp Hj]. cbn [k_names k_heap k_custody k_reaper skel] in *. split_and!.
  - constructor; cbn [k_names k_heap k_custody k_reaper].
    + intros name g' Hg'. destruct (Hn name g' Hg') as (c0 & Hc0 & E1 & E2). destruct (decide (g' = g)) as [->|Hne].
      * rewrite Hc in Hc0. injection Hc0 as <-. rewrite lookup_insert_eq. by eexists.
      * rewrite lookup_insert_ne by done. by exists c0.
    + intros g' t' Hg'. destruct (Hcu g' t' Hg') as (Hsome & ?). split; [|done]. apply lookup_insert_is_Some.
      destruct (decide (g = g')); [by left|by right].
    + intros g'. rewrite lookup_insert_is_Some. destruct (decide (g' = g)) as [->|Hne].
      * split; [intros _; rewrite lookup_insert_eq; by eexists|by left].
      * rewrite lookup_insert_ne by done. rewrite <- Hrp. split; [by intros [?|(_ & ?)]|by right].
    + intros g' c0 [(<- & <-)|(Hne & H0)]%lookup_insert_Some; [by split|by apply Hj].
  - split_and!; [by apply (moves_on_insert _ _ _ _ _ _ _ g (core r))|done|]. intros t' g' Hne. split; [done|].
    cbn. rewrite lookup_insert_Some. split; [|intros [(<- & <-)|(_ & ?)]; done]. intros H. right. split; [|done]. intros <-. congruence.
  - split; [by apply Hh|]. intros g'. cbn. rewrite lookup_insert_Some, elem_of_singleton. destruct Hh as (_ & Hh). specialize (Hh g').
    cbn in Hh. rewrite Hh. set_solver.
  - exists n. eexists. cbn. rewrite lookup_insert_eq. by split.
Qed.

(** A core with the same handle, or without one, in the place of another. *)
Lemma skel_ok_insert names h cu re g c c' : skel_ok (mkSkel names h cu re) -> h !! g = Some c ->
  c_name c' = c_name c -> c_spawned c' = c_spawned c -> c_reaping c' = c_reaping c -> (c_joinable c' = true -> c' = c) ->
  skel_ok (mkSkel names (<[g := c']> h) cu re).
Proof.
  intros [Hn Hcu Hrp Hj] Hc E1 E2 E3 E4. constructor; cbn in *.
  - intros name g' Hg'. destruct (Hn name g' Hg') as (c0 & Hc0 & F1 & F2). destruct (decide (g' = g)) as [->|Hne].
    + rewrite Hc in Hc0. injection Hc0 as <-. rewrite lookup_insert_eq. exists c'. by rewrite E1, E2.
    + rewrite lookup_insert_ne by done. by exists c0.
  - intros g' t' Hg'. destruct (Hcu g' t' Hg') as (Hsome & ?). split; [|done]. apply lookup_insert_is_Some.
    destruct (decide (g = g')); [by left|by right].
  - intros g'. rewrite Hrp. destruct (decide (g' = g)) as [->|Hne]; [|by rewrite lookup_insert_ne].
    rewrite lookup_insert_eq, Hc. split; intros (? & [= <-] & ?); eexists; split; try done; congruence.
  - intros g' c0 [(<- & <-)|(Hne & H0)]%lookup_insert_Some H; [|by apply Hj]. rewrite (E4 H) in H |- *. by apply Hj.
Qed.

Lemma take_thread_ok t g C m : manager_ok m -> hands t C {[g]} (skel m) -> is_spawned g (skel m) ->
  let r := take_thread g m in
  manager_ok r.2 /\ manager_guar t m r.2 /\ hands t C {[g]} (skel r.2) /\ unjoined g (skel r.2).
Proof.
  intros Hok Hh (n & c & Hc & Hname & Hs). pose proof (proj1 (skel_heap _ _ _) Hc) as (r & Hr & ->). unfold take_thread. cbn [fst snd].
  unfold manager_ok, manager_guar. rewrite (skel_alter g _ m r) by done. rewrite core_changed_joinable. split_and!.
  - by apply (skel_ok_insert _ _ _ _ g (core r)).
  - split_and!; [by apply (moves_on_insert _ _ _ _ _ _ _ g (core r))|done|done].
  - exact Hh.
  - eexists. cbn. rewrite lookup_insert_eq. by split.
Qed.

Lemma end_reap_ok t g C m : manager_ok m -> hands t C {[g]} (skel m) -> unjoined g (skel m) ->
  manager_ok (end_reap g m) /\ manager_guar t m (end_reap g m) /\ hands t C ∅ (skel (end_reap g m)) /\ rt_settled g (skel (end_reap g m)).
Proof.
  intros Hok Hh (c & Hc & Hs & Hj0). pose proof (proj1 (skel_heap _ _ _) Hc) as (r & Hr & ->). unfold end_reap.
  unfold manager_ok, manager_guar. rewrite (skel_alter g _ m r) by done. rewrite core_changed_reaping. cbn in Hs, Hj0.
  destruct Hh as (Hh1 & Hh2). pose proof (proj2 (Hh2 g) ltac:(set_solver)) as Hmine. cbn in Hmine.
  destruct Hok as [Hn Hcu Hrp Hj]. cbn [k_names k_heap k_custody k_reaper skel] in *. split_and!.
  - constructor; cbn [k_names k_heap k_custody k_reaper].
    + intros name g' Hg'. destruct (Hn name g' Hg') as (c0 & Hc0 & E1 & E2). destruct (decide (g' = g)) as [->|Hne].
      * rewrite Hc in Hc0. injection Hc0 as <-. rewrite lookup_insert_eq. by eexists.
      * rewrite lookup_insert_ne by done. by exists c0.
    + intros g' t' Hg'. destruct (Hcu g' t' Hg') as (Hsome & ?). split; [|done]. apply lookup_insert_is_Some.
      destruct (decide (g = g')); [by left|by right].
    + intros g'. destruct (decide (g' = g)) as [->|Hne].
      * rewrite lookup_delete_eq, lookup_insert_eq. split; [intros (? & ?); done|intros (? & [= <-] & ?); done].
      * rewrite lookup_delete_ne, lookup_insert_ne by done. apply Hrp.
    + intros g' c0 [(<- & <-)|(Hne & H0)]%lookup_insert_Some; [cbn; congruence|by apply Hj].
  - split_and!; [apply (moves_on_insert _ _ _ _ _ _ _ g (core r)); cbn; congruence|done|]. intros t' g' Hne. split; [done|].
    cbn. rewrite lookup_delete_Some. split; [|tauto]. intros H. split; [|done]. intros <-. congruence.
  - split; [exact Hh1|]. intros g'. cbn. rewrite lookup_delete_Some. specialize (Hh2 g'). cbn in Hh2. rewrite Hh2. set_solver.
  - eexists. cbn. rewrite lookup_insert_eq. split_and!; [done|done|]. cbn. congruence.
Qed.

(** Out of the map, when nobody need join its thread. *)
Lemma forget_ok t name g C m : manager_ok m -> hands t C ∅ (skel m) -> rt_settled g (skel m) ->
  manager_ok (forget name g m) /\ manager_guar t m (forget name g m) /\ hands t C ∅ (skel (forget name g m)) /\
  runtimes_ (forget name g m) !! name <> Some g.
Proof.
  intros Hok Hh (c & Hc & Hs & Hset). unfold forget. case_bool_decide as E; [|split_and!; [done|apply k_guar_refl|done|done]].
  unfold manager_ok, manager_guar. split_and!.
  - destruct Hok as [Hn Hcu Hrp Hj]. constructor; cbn in *; [| |done|].
    + intros name' g' (_ & Hg')%lookup_delete_Some. by apply Hn.
    + intros g' t' Hg'. destruct (Hcu g' t' Hg') as (? & Hno). split; [done|]. intros name' (_ & Hx)%lookup_delete_Some. by apply (Hno name').
    + intros g' c0 H0 Hj0. destruct (Hj g' c0 H0 Hj0) as (? & Hmap). split; [done|]. intros Hre. destruct (Hmap Hre) as [Hin|?]; [|by right].
      left. apply lookup_delete_Some. split; [|done]. intros Heq. rewrite <- Heq, E in Hin. injection Hin as <-. rewrite Hc in H0. injection H0 as <-.
      rewrite Hset in Hre; done.
  - split_and!; [by intros g'; split_and!| |done]. intros _. cbn. apply delete_subseteq.
  - exact Hh.
  - cbn. by rewrite lookup_delete_eq.
Qed.

Lemma new_runtime_ok t name path job m : manager_ok m -> hands t ∅ ∅ (skel m) ->
  let r := new_runtime t name path job m in
  manager_ok r.2 /\ manager_guar t m r.2 /\ hands t {[r.1]} ∅ (skel r.2) /\ rt_named name r.1 (skel r.2).
Proof.
  intros Hok (Hh1 & Hh2). unfold new_runtime. cbn [fst snd]. set (g := fresh _). set (rt := mkRuntime _ _ _ _ _ _ _ _ _ _ _ _ _ _ _ _ _ _ _).
  assert (heap m !! g = None) as Hnew by (apply not_elem_of_dom; apply is_fresh).
  assert (k_heap (skel m) !! g = None) as Hknew by (cbn; by rewrite lookup_fmap, Hnew).
  assert (custody m !! g = None) as Hfree.
  { destruct (custody m !! g) as [t0|] eqn:E; [|done]. destruct (ok_custody _ Hok g t0 E) as ((? & ?) & _). congruence. }
  unfold manager_ok, manager_guar, skel. cbn [heap runtimes_ custody reaper]. rewrite fmap_insert. split_and!.
  - destruct Hok as [Hn Hcu Hrp Hj]. constructor; cbn [k_names k_heap k_custody k_reaper skel] in *.
    + intros name' g' Hg'. destruct (Hn name' g' Hg') as (c0 & Hc0 & ?). exists c0. rewrite lookup_insert_ne; [done|]. intros <-. congruence.
    + intros g' t' [(<- & <-)|(Hne & Hg')]%lookup_insert_Some.
      * rewrite lookup_insert_eq. split; [by eexists|]. intros name' Hg'. destruct (Hn name' g Hg') as (? & ? & _). congruence.
      * rewrite lookup_insert_ne by done. by apply (Hcu g' t').
    + intros g'. rewrite Hrp. destruct (decide (g' = g)) as [->|Hne]; [|by rewrite lookup_insert_ne].
      rewrite lookup_insert_eq, Hknew. split; [by intros (? & ? & _)|by intros (? & [= <-] & ?)].
    + intros g' c0 [(<- & <-)|(Hne & H0)]%lookup_insert_Some Hj0.
      * split; [done|]. intros _. right. rewrite lookup_insert_eq. by eexists.
      * destruct (Hj g' c0 H0 Hj0) as (? & Hmap). split; [done|]. intros Hre. destruct (Hmap Hre); [by left|]. right. by rewrite lookup_insert_ne.
  - split_and!; [|done|].
    + intros g'. assert (forall c0, k_heap (skel m) !! g' = Some c0 -> g' <> g) as Hne by (intros c0 H0 ->; congruence).
      split_and!; [intros n| |]; intros (c0 & H0 & Hx); exists c0; pose proof (Hne _ H0); cbn in *; by rewrite lookup_insert_ne.
    + intros t' g' Hne. split; [|done]. cbn. rewrite lookup_insert_Some. split; [|intros [(_ & ?)|(_ & ?)]; congruence].
      intros H. right. split; [|done]. intros <-. congruence.
  - split; [|exact Hh2]. intros g'. cbn. rewrite lookup_insert_Some, elem_of_singleton. specialize (Hh1 g'). cbn in Hh1. rewrite Hh1. set_solver.
  - eexists. cbn. rewrite lookup_insert_eq. by split_and!.
Qed.

Lemma publish_ok name g m : manager_ok m -> hands starter {[g]} ∅ (skel m) -> rt_named name g (skel m) -> runtimes_ m !! name = None ->
  manager_ok (publish name g m) /\ manager_guar starter m (publish name g m) /\ hands starter ∅ ∅ (skel (publish name g m)).
Proof.
  intros Hok (Hh1 & Hh2) (c & Hc & Hname & Hs) Hnone. unfold publish, manager_ok, manager_guar. split_and!.
  - destruct Hok as [Hn Hcu Hrp Hj]. constructor; cbn in *; [| |done|].
    + intros name' g' [(<- & <-)|(Hne & Hg')]%lookup_insert_Some; [by exists c|by apply Hn].
    + intros g' t' (Hne & Hg')%lookup_delete_Some. destruct (Hcu g' t' Hg') as (? & Hno). split; [done|].
      intros name' [(<- & E)|(_ & Hx)]%lookup_insert_Some; [congruence|by apply (Hno name')].
    + intros g' c0 H0 Hj0. destruct (Hj g' c0 H0 Hj0) as (? & Hmap). split; [done|]. intros Hre.
      destruct (decide (g' = g)) as [->|Hne]; [left; rewrite Hc in H0; injection H0 as <-; rewrite Hname; apply lookup_insert_eq|].
      destruct (Hmap Hre) as [Hin|?]; [left|by right; rewrite lookup_delete_ne].
      rewrite lookup_insert_ne; [done|]. intros Heq. rewrite <- Heq, Hnone in Hin. done.
  - split_and!; [by intros g'; split_and!|done|]. intros t' g' Hne. split; [|done]. cbn. rewrite lookup_delete_Some.
    split; [|tauto]. intros H. split; [|done]. intros <-. pose proof (proj2 (Hh1 g) ltac:(set_solver)) as Hm. cbn in Hm. congruence.
  - split; [|exact Hh2]. intros g'. cbn. rewrite lookup_delete_Some. specialize (Hh1 g'). cbn in Hh1. rewrite Hh1. set_solver.
Qed.

Lemma let_go_ok t g C m : manager_ok m -> hands t C ∅ (skel m) -> g ∈ C -> rt_settled g (skel m) ->
  let m' := mkManager (runtimes_ m) (heap m) (nextId_ m) (delete g (custody m)) (reaper m) in
  manager_ok m' /\ manager_guar t m m' /\ hands t (C ∖ {[g]}) ∅ (skel m').
Proof.
  intros Hok (Hh1 & Hh2) Hin (c & Hc & Hs & Hset) m'. unfold m', manager_ok, manager_guar. split_and!.
  - destruct Hok as [Hn Hcu Hrp Hj]. constructor; cbn in *; [done| |done|].
    + intros g' t' (Hne & Hg')%lookup_delete_Some. by apply (Hcu g' t').
    + intros g' c0 H0 Hj0. destruct (Hj g' c0 H0 Hj0) as (? & Hmap). split; [done|]. intros Hre.
      destruct (Hmap Hre) as [?|?]; [by left|]. right. rewrite lookup_delete_ne; [done|]. intros <-.
      rewrite Hc in H0. injection H0 as <-. rewrite Hset in Hre; done.
  - split_and!; [by intros g'; split_and!|done|]. intros t' g' Hne. split; [|done]. cbn. rewrite lookup_delete_Some.
    split; [|tauto]. intros H. split; [|done]. intros <-. pose proof (proj2 (Hh1 g) Hin) as Hm. cbn in Hm. congruence.
  - split; [|exact Hh2]. intros g'. cbn. rewrite lookup_delete_Some. specialize (Hh1 g'). cbn in Hh1. rewrite Hh1. set_solver.
Qed.

Lemma lookup_custody t (l : list (list Z * nat)) (m : gmap nat nat) g t0 :
  foldr (fun e c => <[e.2 := t]> c) m l !! g = Some t0 <-> (g ∈ map snd l /\ t0 = t) \/ ((g ∉ map snd l) /\ m !! g = Some t0).
Proof.
  induction l as [|x l IH]; cbn; [set_solver|]. rewrite lookup_insert_Some, IH, elem_of_cons.
  destruct (decide (g = x.2)) as [->|Hne]; [|intuition congruence]. split; [intuition congruence|].
  intros [(_ & ->)|(Hn & _)]; [by left|]. destruct Hn. by left.
Qed.

(** The dead runtimes, each once. *)
Lemma dead_list m l : manager_ok m -> l = List.filter (fun e => negb (IsActive e.2 m)) (map_to_list (runtimes_ m)) ->
  NoDup (map snd l) /\ (forall g, g ∈ map snd l <-> exists name, runtimes_ m !! name = Some g /\ IsActive g m = false) /\
  Forall (fun g => is_spawned g (skel m)) (map snd l).
Proof.
  intros Hok ->.
  assert (forall g, g ∈ map snd (List.filter (fun e => negb (IsActive e.2 m)) (map_to_list (runtimes_ m))) <->
    exists name, runtimes_ m !! name = Some g /\ IsActive g m = false) as Hin.
  { intros g. change (map snd ?l) with (snd <$> l). rewrite list_elem_of_fmap. split.
    - intros ([name g0] & -> & (Ha%negb_true_iff & Hm%elem_of_map_to_list)%elem_of_filter_bool). by exists name.
    - intros (name & Hm & Ha). exists (name, g). split; [done|]. apply elem_of_filter_bool. cbn. rewrite Ha. by rewrite elem_of_map_to_list. }
  split_and!; [|done|].
  - apply NoDup_map_filter. apply NoDup_fmap_2_strong; [|apply NoDup_map_to_list].
    intros [n1 g1] [n2 g2] H1%elem_of_map_to_list H2%elem_of_map_to_list E. cbn in E. subst g2. f_equal.
    destruct (ok_named _ Hok n1 g1 H1) as (c1 & Hc1 & <- & _), (ok_named _ Hok n2 g1 H2) as (c2 & Hc2 & <- & _). congruence.
  - apply Forall_forall. intros g (name & Hm & _)%Hin. exists name. destruct (ok_named _ Hok name g Hm) as (c & ?). by exists c.
Qed.

Lemma take_dead_ok t m : manager_ok m -> hands t ∅ ∅ (skel m) ->
  let r := take_dead t m in
  manager_ok r.2 /\ manager_guar t m r.2 /\ hands t (list_to_set r.1) ∅ (skel r.2) /\
  NoDup r.1 /\ Forall (fun g => is_spawned g (skel r.2)) r.1.
Proof.
  intros Hok (Hh1 & Hh2). unfold take_dead. cbn [fst snd]. destruct (dead_list m _ Hok eq_refl) as (Hnd & Hin & Hsp).
  set (dead := List.filter _ _) in *.
  assert (forall g t', custody m !! g = Some t' -> g ∉ map snd dead) as Hapart.
  { intros g t' Hc (name & Hm & _)%Hin. by apply (proj2 (ok_custody _ Hok g t' Hc) name). }
  unfold manager_ok, manager_guar. split_and!; [| | |done|exact Hsp].
  - destruct Hok as [Hn Hcu Hrp Hj]. constructor; cbn in *; [| |done|].
    + intros name g (Hg & _)%map_lookup_filter_Some. by apply Hn.
    + intros g t' [(Hd & ->)|(Hnd' & Hg)]%lookup_custody.
      * apply Hin in Hd as (name & Hm & Ha). destruct (Hn name g Hm) as (c & Hc & <- & _). split; [by eexists|].
        intros name' (Hm' & Ha')%map_lookup_filter_Some. cbn in Ha'. congruence.
      * destruct (Hcu g t' Hg) as (? & Hno). split; [done|]. intros name' (Hm' & _)%map_lookup_filter_Some. by apply (Hno name').
    + intros g c H0 Hj0. destruct (Hj g c H0 Hj0) as (? & Hmap). split; [done|]. intros Hre.
      destruct (Hmap Hre) as [Hm|(t' & Ht')].
      * destruct (IsActive g m) eqn:Ha; [left; by apply map_lookup_filter_Some|]. right. exists t. apply lookup_custody. left.
        split; [|done]. apply Hin. by exists (c_name c).
      * right. exists t'. apply lookup_custody. right. split; [by apply (Hapart g t')|done].
  - split_and!; [by intros g; split_and!| |].
    + intros _. cbn. apply map_filter_subseteq.
    + intros t' g Hne. split; [|done]. cbn. rewrite lookup_custody. split; [|intros [(_ & ?)|(_ & ?)]; done].
      intros H. right. split; [|done]. by apply (Hapart g t').
  - split; [|exact Hh2]. intros g. cbn. rewrite lookup_custody, elem_of_list_to_set. specialize (Hh1 g). cbn in Hh1. rewrite Hh1. set_solver.
Qed.

(** ** Every call keeps them *)

Abbreviation m_triple t P p Q := (triple manager_ok manager_guar manager_rely t P p Q).
Abbreviation m_stable t P := (stable manager_rely t P).

(** A predicate of the skeleton that others leave alone. *)
Definition held (t : nat) (F : Skel -> Prop) (m : Manager) : Prop := F (skel m).

Lemma hands_stable t C P : m_stable t (fun m => hands t C P (skel m)).
Proof.
  intros m m' (_ & _ & H) (H1 & H2). split; intros g; destruct (H g) as (E1 & E2); [rewrite <- E1; apply H1|rewrite <- E2; apply H2].
Qed.
Lemma named_stable t n g : m_stable t (fun m => rt_named n g (skel m)).
Proof. intros m m' (H & _) Hn. by apply (H g). Qed.
Lemma spawned_stable t g : m_stable t (fun m => is_spawned g (skel m)).
Proof. intros m m' (H & _) (n & Hn). exists n. by apply (H g). Qed.
Lemma settled_stable t g : m_stable t (fun m => rt_settled g (skel m)).
Proof. intros m m' (H & _) Hn. by apply (H g). Qed.
Lemma unjoined_stable t g : m_stable t (fun m => unjoined g (skel m)).
Proof. intros m m' (H & _) Hn. by apply (H g). Qed.
Lemma stable_and t (P Q : Manager -> Prop) : m_stable t P -> m_stable t Q -> m_stable t (fun m => P m /\ Q m).
Proof. intros HP HQ m m' HR (? & ?). split; [by apply (HP m)|by apply (HQ m)]. Qed.
Lemma stable_pure t (phi : Prop) : m_stable t (fun _ => phi).
Proof. by intros m m' _. Qed.
Lemma no_name_stable name : m_stable starter (fun m => runtimes_ m !! name = None).
Proof. intros m m' (_ & H & _) Hn. exact (lookup_weaken_None _ _ _ Hn (H eq_refl)). Qed.
Lemma only_name_stable name g : m_stable starter (fun m => runtimes_ m !! name = None \/ runtimes_ m !! name = Some g).
Proof.
  intros m m' (_ & H & _) Hn. specialize (H eq_refl). destruct (runtimes_ m' !! name) as [g'|] eqn:E; [|by left]. right.
  pose proof (lookup_weaken _ _ _ _ E H) as E'. cbn in E'. destruct Hn; congruence.
Qed.

#[local] Hint Resolve hands_stable named_stable spawned_stable settled_stable unjoined_stable stable_and stable_pure no_name_stable only_name_stable : core.

(** What speaks of handles only is kept by the other changes. *)
Lemma inert_triple t (F : Skel -> Prop) ready g cs : m_stable t (fun m => F (skel m)) -> forallb inert cs = true ->
  m_triple t (fun m => F (skel m)) (put_ready ready (update g cs)) (fun _ m => F (skel m)).
Proof.
  intros Hst Hcs. apply triple_put_ready; [done|]. intros m Hok HF _. unfold manager_ok, manager_guar.
  rewrite !(skel_update g cs m Hcs). split_and!; [done|apply k_guar_refl|done].
Qed.

Lemma look_triple t (P : Manager -> Prop) {A} (f : Manager -> A) : m_stable t P -> m_triple t P (get f) (fun _ => P).
Proof. intros Hst. apply triple_get; [done|intros m; apply k_guar_refl|done]. Qed.

Lemma look_then t (P : Manager -> Prop) {A B} (f : Manager -> A) (k : A -> prog Manager B) Q : m_stable t P ->
  (forall a, m_triple t P (k a) Q) -> m_triple t P (get f ≫= k) Q.
Proof. intros Hst H. eapply triple_bind; [by apply look_triple|exact H]. Qed.

Lemma inert_then t (F : Skel -> Prop) ready g cs {B} (k : unit -> prog Manager B) Q : m_stable t (fun m => F (skel m)) ->
  forallb inert cs = true -> m_triple t (fun m => F (skel m)) (k tt) Q ->
  m_triple t (fun m => F (skel m)) (put_ready ready (update g cs) ≫= k) Q.
Proof. intros Hst Hcs Hk. eapply triple_bind; [by apply inert_triple|]. intros []. exact Hk. Qed.

(** The script's thread. *)
Ltac inert_steps := repeat first
  [ apply inert_then; [done|done|]
  | apply look_then; [done|intros ?]
  | apply inert_triple; [done|done]
  | by apply triple_ret ].

Lemma pcall_triple t F g b : m_stable t (fun m => F (skel m)) -> m_triple t (fun m => F (skel m)) (pcall g b) (fun _ m => F (skel m)).
Proof. intros Hst. destruct b; unfold pcall, pcall_failed, change_rt, ask_rt, change_when; inert_steps. Qed.

Lemma job_source_triple t F g code b : m_stable t (fun m => F (skel m)) ->
  m_triple t (fun m => F (skel m)) (RunSource g code b) (fun _ m => F (skel m)).
Proof.
  intros Hst. unfold RunSource, change_rt, change_when. do 4 (apply inert_then; [done|done|]).
  destruct b; inert_steps; by apply pcall_triple.
Qed.

Lemma run_thread_triple t g contents b : m_triple t (fun m => hands t ∅ ∅ (skel m)) (RunThread g contents b) (fun _ m => hands t ∅ ∅ (skel m)).
Proof.
  unfold RunThread, change_rt, change_when, ask_rt. do 2 (apply (inert_then t (hands t ∅ ∅)); [auto|done|]).
  apply look_then; [auto|]. intros job. eapply (triple_bind _ _ _ _ _ _ _ (fun _ m => hands t ∅ ∅ (skel m))).
  - unfold run_job. destruct (j_fromSource job); [by apply (job_source_triple t (hands t ∅ ∅)); auto|].
    destruct b; try (by apply (job_source_triple t (hands t ∅ ∅)); auto). by apply triple_ret.
  - intros error. apply (inert_then t (hands t ∅ ∅)); [auto|done|]. destruct error.
    + apply look_then; [auto|]. intros _. apply (inert_then t (hands t ∅ ∅)); [auto|done|]. apply (inert_triple t (hands t ∅ ∅)); auto.
    + apply (inert_triple t (hands t ∅ ∅)); auto.
Qed.

Lemma engine_stop_triple t F g : m_stable t (fun m => F (skel m)) -> m_triple t (fun m => F (skel m)) (EngineStop g) (fun _ m => F (skel m)).
Proof. intros Hst. unfold EngineStop, change_rt, change_when. inert_steps. Qed.

(** A reap leaves the thread joined, or another call about to; it does not
    touch the map. *)
Lemma begin_reap_names t g m : runtimes_ (begin_reap t g m).2 = runtimes_ m.
Proof. unfold begin_reap. destruct (heap m !! g) as [r|]; [|done]. by destruct (reaping r). Qed.

Lemma reap_names_triple (t g : nat) (C : gset nat) (interrupt : bool) (X : gmap (list Z) nat -> Prop) : m_stable t (fun m => X (runtimes_ m)) ->
  m_triple t (fun m => (hands t C ∅ (skel m) /\ is_spawned g (skel m)) /\ X (runtimes_ m)) (Reap t g interrupt)
    (fun _ m => (hands t C ∅ (skel m) /\ rt_settled g (skel m)) /\ X (runtimes_ m)).
Proof.
  intros HX. unfold Reap. eapply (triple_bind _ _ _ _ _ _ _ (fun (busy : bool) m => (if busy then hands t C ∅ (skel m) /\ rt_settled g (skel m)
    else hands t C {[g]} (skel m) /\ is_spawned g (skel m)) /\ X (runtimes_ m))).
  { apply triple_act; [auto|]. intros m Hok ((Hh & Hs) & Hx) _. rewrite begin_reap_names.
    destruct (begin_reap_ok t g C m Hok Hh Hs) as (? & ? & ?). by split_and!. }
  intros [|]; [by apply triple_ret|].
  set (F := fun k => (hands t C {[g]} k /\ unjoined g k) /\ X (k_names k)).
  assert (m_stable t (fun m => F (skel m))) as Hst by (unfold F; apply stable_and; auto).
  eapply (triple_bind _ _ _ _ _ _ _ (fun _ m => F (skel m))).
  { apply triple_act; [auto|]. intros m Hok ((Hh & Hs) & Hx) _. destruct (take_thread_ok t g C m Hok Hh Hs) as (? & ? & ? & ?). by split_and!. }
  intros taken. eapply (triple_bind _ _ _ _ _ _ _ (fun _ m => F (skel m))).
  { unfold interrupt_script. destruct interrupt; [|by apply triple_ret].
    unfold change_rt. do 2 (apply (inert_then t F); [done|done|]). by apply engine_stop_triple. }
  intros []. eapply (triple_bind _ _ _ _ _ _ _ (fun _ m => F (skel m))).
  { unfold join_thread. destruct taken; [|by apply triple_ret]. unfold change_when. by apply (inert_triple t F). }
  intros []. unfold change_rt. apply (inert_then t F); [done|done|].
  apply triple_put_ready; [done|]. intros m Hok ((Hh & Hu) & Hx) _. destruct (end_reap_ok t g C m Hok Hh Hu) as (? & ? & ? & ?). by split_and!.
Qed.

Lemma m_triple_post t {A} (P : Manager -> Prop) (p : prog Manager A) (Q Q' : A -> Manager -> Prop) :
  m_triple t P p Q -> (forall a m, Q a m -> Q' a m) -> m_triple t P p Q'.
Proof. intros Hp HQ m HP. eapply assured_mono; [by apply Hp|exact HQ]. Qed.

Lemma m_triple_pre t {A} (P P' : Manager -> Prop) (p : prog Manager A) Q :
  (forall m, P' m -> P m) -> m_triple t P p Q -> m_triple t P' p Q.
Proof. intros Himp Hp m HP. by apply Hp, Himp. Qed.

Lemma reap_triple t g C interrupt :
  m_triple t (fun m => hands t C ∅ (skel m) /\ is_spawned g (skel m)) (Reap t g interrupt)
    (fun _ m => hands t C ∅ (skel m) /\ rt_settled g (skel m)).
Proof.
  eapply m_triple_post; [eapply m_triple_pre; [|apply (reap_names_triple t g C interrupt (fun _ => True)); auto]|]; [by intros m|].
  by intros ? m (? & _).
Qed.

(** Finding a runtime in the map. *)
Lemma find_triple t C {A} (f : Manager -> A) (pick : A -> option nat) :
  (forall m g, pick (f m) = Some g -> exists name, runtimes_ m !! name = Some g) ->
  m_triple t (fun m => hands t C ∅ (skel m)) (get f)
    (fun a m => hands t C ∅ (skel m) /\ forall g, pick a = Some g -> is_spawned g (skel m)).
Proof.
  intros Hf. apply triple_get; [auto|intros m; apply k_guar_refl|]. intros m Hok Hh. split; [done|]. intros g Hg.
  destruct (Hf m g Hg) as (name & Hm). exists name. destruct (ok_named _ Hok name g Hm) as (c & ?). by exists c.
Qed.

Lemma stop_script_triple t name : m_triple t (fun m => hands t ∅ ∅ (skel m)) (StopScript t name) (fun _ m => hands t ∅ ∅ (skel m)).
Proof.
  unfold StopScript. eapply triple_bind.
  - apply (find_triple t ∅ _ id). intros m g. cbn. destruct (runtimes_ m !! name) as [g0|] eqn:E; [|done].
    destruct (IsActive g0 m); [|done]. intros [= <-]. by exists name.
  - intros [g|]; cbn [id]; [|apply triple_ret; by intros m (? & _)].
    eapply (triple_bind _ _ _ _ _ _ _ (fun _ m => hands t ∅ ∅ (skel m))); [|intros []; by apply triple_ret].
    eapply m_triple_post; [eapply m_triple_pre; [|apply (reap_triple t g ∅ true)]|by intros ? m (? & _)].
    intros m (Hh & Hs). split; [done|by apply Hs].
Qed.

Lemma stop_if_active_triple t g : m_triple t (fun m => hands t ∅ ∅ (skel m) /\ is_spawned g (skel m)) (stop_if_active t g)
  (fun _ m => hands t ∅ ∅ (skel m)).
Proof.
  unfold stop_if_active. apply look_then; [auto|]. intros [|].
  - eapply m_triple_post; [apply reap_triple|by intros ? m (? & _)].
  - apply triple_ret. by intros m (? & _).
Qed.

Lemma all_spawned_stable t ls : m_stable t (fun m => Forall (fun g => is_spawned g (skel m)) ls).
Proof. intros m m' HR. rewrite !Forall_forall. intros Hs x Hx. apply (spawned_stable t x m m' HR). by apply Hs. Qed.
Lemma all_spawned_guar t ls m m' : manager_guar t m m' ->
  Forall (fun g => is_spawned g (skel m)) ls -> Forall (fun g => is_spawned g (skel m')) ls.
Proof. intros (H & _). rewrite !Forall_forall. intros Hs x Hx. destruct (Hs x Hx) as (n & Hn). exists n. by apply (H x). Qed.

Lemma stop_all_triple t : m_triple t (fun m => hands t ∅ ∅ (skel m)) (StopAll t) (fun _ m => hands t ∅ ∅ (skel m)).
Proof.
  unfold StopAll. eapply (triple_bind _ _ _ _ _ _ _ (fun l m => hands t ∅ ∅ (skel m) /\ Forall (fun g => is_spawned g (skel m)) l)).
  - apply triple_get; [auto|intros m; apply k_guar_refl|]. intros m Hok Hh. split; [done|]. apply Forall_forall. intros g Hg.
    unfold SnapshotRuntimes in Hg. change (map snd ?l) with (snd <$> l) in Hg. apply list_elem_of_fmap in Hg as ([name g0] & -> & Hin).
    rewrite sort_by_perm in Hin. apply elem_of_map_to_list in Hin. exists name. destruct (ok_named _ Hok name g0 Hin) as (c & ?). by exists c.
  - intros l. eapply m_triple_post; [apply (triple_each _ _ _ t (stop_if_active t)
      (fun l m => hands t ∅ ∅ (skel m) /\ Forall (fun g => is_spawned g (skel m)) l))|by intros ? m (? & _)].
    intros g l'. unfold stop_if_active.
    eapply m_triple_pre; [|apply (triple_frame _ _ _ t (fun m => hands t ∅ ∅ (skel m) /\ is_spawned g (skel m))
      (fun m => Forall (fun g => is_spawned g (skel m)) l')); [apply all_spawned_stable|apply all_spawned_guar|apply stop_if_active_triple]].
    intros m (Hh & (? & ?)%Forall_cons). done.
Qed.

Lemma prune_triple t : m_triple t (fun m => hands t ∅ ∅ (skel m)) (Prune t) (fun _ m => hands t ∅ ∅ (skel m)).
Proof.
  unfold Prune. set (P := fun (l : list nat) m => (hands t (list_to_set l) ∅ (skel m) /\ NoDup l) /\ Forall (fun g => is_spawned g (skel m)) l).
  eapply (triple_bind _ _ _ _ _ _ _ P).
  { apply triple_act; [auto|]. intros m Hok Hh _. destruct (take_dead_ok t m Hok Hh) as (? & ? & ? & ? & ?). by split_and!. }
  intros dead. eapply (triple_bind _ _ _ _ _ _ _ (fun _ m => hands t ∅ ∅ (skel m))); [|intros []; by apply triple_ret].
  eapply m_triple_post; [apply (triple_each _ _ _ t (reap_dead t) P)|by intros ? m ((? & _) & _)].
  intros g l. eapply m_triple_pre; [|apply (triple_frame _ _ _ t (fun m => (hands t (list_to_set (g :: l)) ∅ (skel m) /\ NoDup (g :: l)) /\ is_spawned g (skel m))
      (fun m => Forall (fun g => is_spawned g (skel m)) l)); [apply all_spawned_stable|apply all_spawned_guar|]].
  { intros m (? & (? & ?)%Forall_cons). done. }
  unfold reap_dead. eapply (triple_bind _ _ _ _ _ _ _ (fun _ m => (hands t (list_to_set (g :: l)) ∅ (skel m) /\ rt_settled g (skel m)) /\ NoDup (g :: l))).
  - eapply m_triple_pre; [|apply (triple_frame _ _ _ t (fun m => hands t (list_to_set (g :: l)) ∅ (skel m) /\ is_spawned g (skel m)) (fun _ => NoDup (g :: l))); [auto|done|apply reap_triple]].
    by intros m ((? & ?) & ?).
  - intros []. apply triple_put_ready; [auto|]. intros m Hok ((Hh & Hset) & Hnd) _.
    destruct (let_go_ok t g _ m Hok Hh ltac:(set_solver) Hset) as (? & ? & H).
    apply NoDup_cons in Hnd as (Hn & Hnd). split_and!; [done|done| |done].
    by replace (list_to_set l : gset nat) with (list_to_set (g :: l) ∖ {[g]} : gset nat) by set_solver.
Qed.

(** ** The thread that starts *)

Lemma launch_triple name path job expires :
  m_triple starter (fun m => hands starter ∅ ∅ (skel m) /\ runtimes_ m !! name = None) (launch starter name path job expires)
    (fun _ m => hands starter ∅ ∅ (skel m)).
Proof.
  unfold launch. eapply (triple_bind _ _ _ _ _ _ _ (fun g m => hands starter {[g]} ∅ (skel m) /\ rt_named name g (skel m) /\ runtimes_ m !! name = None)).
  { apply triple_act; [auto|]. intros m Hok (Hh & Hnone) _.
    destruct (new_runtime_ok starter name (if j_fromSource job then [] else path) job m Hok Hh) as (? & ? & ? & ?). by split_and!. }
  intros g. eapply (triple_bind _ _ _ _ _ _ _ (fun _ m => hands starter ∅ ∅ (skel m))).
  { apply triple_put_ready; [auto|]. intros m Hok (Hh & Hn & Hnone) _. by apply publish_ok. }
  intros []. eapply (triple_bind _ _ _ _ _ _ _ (fun _ m => hands starter ∅ ∅ (skel m))); [|intros r; by apply triple_ret].
  apply triple_act; [auto|]. intros m Hok Hh _. split_and!; [done|apply k_guar_refl|done].
Qed.

Lemma start_triple name path source fromSource preload is_file expires :
  m_triple starter (fun m => hands starter ∅ ∅ (skel m)) (StartInternal starter name path source fromSource preload is_file expires)
    (fun _ m => hands starter ∅ ∅ (skel m)).
Proof.
  unfold StartInternal. destruct (_ && _); [by apply triple_ret|].
  eapply (triple_bind _ _ _ _ _ _ _ (fun found m => hands starter ∅ ∅ (skel m) /\
    match found with Free => runtimes_ m !! name = None
    | Dead g => is_spawned g (skel m) /\ (runtimes_ m !! name = None \/ runtimes_ m !! name = Some g) | Busy => True end)).
  { apply triple_get; [auto|intros m; apply k_guar_refl|]. intros m Hok Hh. split; [done|]. unfold look_up.
    destruct (runtimes_ m !! name) as [g|] eqn:E; [|done]. destruct (IsActive g m); [done|]. split; [|by right].
    exists name. destruct (ok_named _ Hok name g E) as (c & ?). by exists c. }
  intros [| |g]; [apply launch_triple|apply triple_ret; by intros m (? & _)|].
  set (only := fun m : Manager => runtimes_ m !! name = None \/ runtimes_ m !! name = Some g).
  eapply (triple_bind _ _ _ _ _ _ _ (fun _ m => (hands starter ∅ ∅ (skel m) /\ rt_settled g (skel m)) /\ only m)).
  { eapply m_triple_pre; [|apply (reap_names_triple starter g ∅ false (fun names => names !! name = None \/ names !! name = Some g)), only_name_stable].
    by intros m (? & ? & ?). }
  intros []. eapply (triple_bind _ _ _ _ _ _ _ (fun _ m => hands starter ∅ ∅ (skel m) /\ runtimes_ m !! name = None)); [|intros []; apply launch_triple].
  apply triple_put_ready; [apply stable_and; [auto|apply only_name_stable]|]. intros m Hok ((Hh & Hs) & Ho) _.
  destruct (forget_ok starter name g ∅ m Hok Hh Hs) as (? & ? & ? & Hne). split_and!; [done|done|done|].
  destruct Ho as [Ho|Ho].
  - unfold forget in *. rewrite bool_decide_false in * by congruence. done.
  - unfold forget. rewrite bool_decide_true by done. cbn. by rewrite lookup_delete_eq.
Qed.

Lemma last_source_triple t (P : Manager -> Prop) g : m_stable t P -> m_triple t P (LastSource g) (fun _ => P).
Proof.
  intros Hst. apply (triple_act _ _ _ t P _ (fun m => (asks [] lastSource_ g m, m))); [done|]. intros m Hok HP _.
  split_and!; [done|apply k_guar_refl|done].
Qed.

Lemma restart_triple name is_file expires :
  m_triple starter (fun m => hands starter ∅ ∅ (skel m)) (Restart starter name is_file expires) (fun _ m => hands starter ∅ ∅ (skel m)).
Proof.
  unfold Restart. eapply triple_bind.
  - apply (find_triple starter ∅ _ id). intros m g E. by exists name.
  - intros [g|]; cbn [id]; [|apply triple_ret; by intros m (? & _)].
    eapply (m_triple_pre _ (fun m => hands starter ∅ ∅ (skel m) /\ is_spawned g (skel m))); [intros m (? & Hs); split; [done|by apply Hs]|].
    unfold ask_rt. apply look_then; [auto|]. intros path.
    eapply (triple_bind _ _ _ _ _ _ _ (fun _ m => hands starter ∅ ∅ (skel m) /\ is_spawned g (skel m))).
    + unfold restart_job. destruct path; [apply last_source_triple; auto|by apply triple_ret].
    + intros source. destruct (_ && _); [apply triple_ret; by intros m (? & _)|].
      eapply (triple_bind _ _ _ _ _ _ _ (fun _ m => hands starter ∅ ∅ (skel m))); [apply stop_if_active_triple|]. intros [].
      eapply (triple_bind _ _ _ _ _ _ _ (fun _ m => hands starter ∅ ∅ (skel m))); [destruct path; apply start_triple|].
      intros r. by apply triple_ret.
Qed.

(** The calls: those that start a runtime, one after the other on one thread;
    the scripts' threads, and the others, on any number. *)
Inductive start_call :=
| CallStartScript (name path : list Z) (is_file expires : bool)
| CallStartFile (fullPath : list Z) (relative : option (list Z)) (filename : list Z) (is_file expires : bool)
| CallStartSource (code : list Z) (expires : bool)
| CallStartPackage (displayName : list Z) (modules : Modules) (entry : list Z) (expires : bool)
| CallRestart (name : list Z) (is_file expires : bool).

Definition start_method (t : nat) (c : start_call) : prog Manager unit :=
  match c with
  | CallStartScript name path is_file expires => StartScript t name path is_file expires ≫= fun _ => Ret tt
  | CallStartFile fullPath relative filename is_file expires => StartFile t fullPath relative filename is_file expires ≫= fun _ => Ret tt
  | CallStartSource code expires => StartSource t code expires ≫= fun _ => Ret tt
  | CallStartPackage displayName modules entry expires => StartPackage t displayName modules entry expires ≫= fun _ => Ret tt
  | CallRestart name is_file expires => Restart t name is_file expires ≫= fun _ => Ret tt
  end.

Inductive other_call := CallThread (g : nat) (contents : list Z) (b : behaviour) | CallStop (name : list Z) | CallStopAll | CallPrune.

Definition other_method (t : nat) (c : other_call) : prog Manager unit :=
  match c with
  | CallThread g contents b => RunThread g contents b
  | CallStop name => StopScript t name ≫= fun _ => Ret tt
  | CallStopAll => StopAll t
  | CallPrune => Prune t ≫= fun _ => Ret tt
  end.

Definition manager_methods (t : nat) (p : prog Manager unit) : Prop :=
  if decide (t = starter) then exists cs, p = each (start_method starter) cs else exists c, p = other_method t c.

Lemma start_method_triple c :
  m_triple starter (fun m => hands starter ∅ ∅ (skel m)) (start_method starter c) (fun _ m => hands starter ∅ ∅ (skel m)).
Proof.
  destruct c; cbn [start_method];
    (eapply (triple_bind _ _ _ _ _ _ _ (fun _ m => hands starter ∅ ∅ (skel m))); [|intros ?; by apply triple_ret]).
  - unfold StartScript. destruct name; [by apply triple_ret|apply start_triple].
  - unfold StartFile. destruct fullPath; [by apply triple_ret|apply start_triple].
  - apply start_triple.
  - unfold StartPackage. destruct entry; [by apply triple_ret|apply start_triple].
  - apply restart_triple.
Qed.

Lemma manager_method_triple t p : manager_methods t p ->
  m_triple t (fun m => manager_ok m /\ hands t ∅ ∅ (skel m)) p (fun _ m => hands t ∅ ∅ (skel m)).
Proof.
  unfold manager_methods. intros Hp. eapply m_triple_pre; [intros m (_ & H); exact H|]. case_decide as Ht.
  - destruct Hp as (cs & ->). subst t. apply (triple_each _ _ _ starter _ (fun _ m => hands starter ∅ ∅ (skel m))).
    intros c _. apply start_method_triple.
  - destruct Hp as (c & ->). destruct c; cbn [other_method].
    + apply run_thread_triple.
    + eapply triple_bind; [apply stop_script_triple|]. intros b. by apply triple_ret.
    + apply stop_all_triple.
    + eapply triple_bind; [apply prune_triple|]. intros b. by apply triple_ret.
Qed.

Lemma new_manager_state_ok : manager_ok new_manager_state /\ forall t, hands t ∅ ∅ (skel new_manager_state).
Proof.
  split; [|intros t; split; intros g; cbn; rewrite lookup_empty; set_solver]. constructor; cbn; intros *; rewrite ?lookup_empty, ?fmap_empty, ?lookup_empty.
  - done.
  - done.
  - split; [by intros (? & ?)|by intros (? & ? & _)].
  - done.
Qed.

Lemma manager_crew ps m ps' m' : rtc (crew_step manager_methods) (ps, m) (ps', m') ->
  manager_ok m -> (forall i p, ps !! i = Some p -> assured manager_ok manager_guar manager_rely i p (fun _ m => hands i ∅ ∅ (skel m)) m) ->
  (forall t, (length ps <= t)%nat -> hands t ∅ ∅ (skel m)) ->
  manager_ok m' /\ manager_ever m m' /\
  (forall i p, ps' !! i = Some p -> assured manager_ok manager_guar manager_rely i p (fun _ m => hands i ∅ ∅ (skel m)) m') /\
  (forall t, (length ps' <= t)%nat -> hands t ∅ ∅ (skel m')).
Proof.
  apply (crew_safe manager_ok manager_guar manager_rely _ manager_others manager_ever _
    (fun t m m' (H : manager_guar t m m') => proj1 H)) with (N := fun t m => hands t ∅ ∅ (skel m)) (Q := fun t m => hands t ∅ ∅ (skel m)).
  - intros t. apply hands_stable.
  - intros t. apply hands_stable.
  - apply manager_method_triple.
Qed.

(** C38: While the manager lives, and scripts are started and restarted by one
    caller at a time, whatever stops, prunings and scripts go on meanwhile, a
    thread's handle is never lost: every runtime whose handle nobody has taken
    is in the manager's list under its name, where a start of that name or a
    pruning finds it, or in the hands of a call that has not ended; and a handle
    that was taken is never there again, so no thread is joined twice.  The end
    of the manager is left out: its destructor drops the handles of scripts that
    ended in an error ([failed_script_ends_the_process]). *)
Theorem no_thread_is_abandoned ps1 m1 ps2 m2 :
  rtc (crew_step manager_methods) ([], new_manager_state) (ps1, m1) -> rtc (crew_step manager_methods) (ps1, m1) (ps2, m2) ->
  (forall g r, heap m2 !! g = Some r -> joinable r = true ->
    runtimes_ m2 !! rt_name r = Some g \/
    exists t p, (custody m2 !! g = Some t \/ reaper m2 !! g = Some t) /\ ps2 !! t = Some p /\ p <> Ret tt) /\
  (forall g r1, heap m1 !! g = Some r1 -> spawned r1 = true -> joinable r1 = false ->
    exists r2, heap m2 !! g = Some r2 /\ joinable r2 = false).
Proof.
  intros H1 H2. destruct new_manager_state_ok as (Hok0 & Hfree0).
  destruct (manager_crew _ _ _ _ H1 Hok0) as (Hok1 & _ & Hps1 & Hfree1); [done|auto|].
  destruct (manager_crew _ _ _ _ H2 Hok1 Hps1 Hfree1) as (Hok & Hever & Hps & Hfree). clear Hps1 Hfree1 H1 H2.
  assert (forall g t, custody m2 !! g = Some t \/ reaper m2 !! g = Some t -> exists p, ps2 !! t = Some p /\ p <> Ret tt) as Hhand.
  { intros g t Ht. destruct (ps2 !! t) as [p|] eqn:Hp.
    - exists p. split; [done|]. intros ->. destruct (Hps t _ Hp) as (K1 & K2). specialize (K1 g). specialize (K2 g). cbn in K1, K2. set_solver.
    - apply lookup_ge_None in Hp. destruct (Hfree t Hp) as (K1 & K2). specialize (K1 g). specialize (K2 g). cbn in K1, K2. set_solver. }
  split.
  - intros g r Hr Hj. assert (k_heap (skel m2) !! g = Some (core r)) as Hc by (apply skel_heap; by exists r).
    destruct (ok_joinable _ Hok g _ Hc Hj) as (_ & Hmap). destruct (reaping r) eqn:Hre.
    + assert (is_Some (k_reaper (skel m2) !! g)) as (t & Ht) by (apply (ok_reaper _ Hok); by exists (core r)).
      right. destruct (Hhand g t) as (p & Hp); [by right|]. exists t, p. split; [by right|done].
    + destruct (Hmap Hre) as [?|(t & Ht)]; [by left|]. right. destruct (Hhand g t) as (p & Hp); [by left|].
      exists t, p. split; [by left|done].
  - intros g r1 Hr1 Hs Hj. destruct (Hever g) as (_ & _ & Hun). destruct Hun as (c & Hc & _ & Hcj).
    { exists (core r1). split_and!; [apply skel_heap; by exists r1|done|done]. }
    apply skel_heap in Hc as (r2 & Hr2 & ->). by exists r2.
Qed.

(** ** The modules of a package *)

(** What [require] finds under a name: the first entry. *)
Definition found_module (modules : Modules) (name : list Z) : option (list Z) :=
  snd <$> List.find (fun m => bool_decide (m.1 = name)) modules.

Lemma found_module_app modules more name : found_module (modules ++ more) name =
  match found_module modules name with Some c => Some c | None => found_module more name end.
Proof.
  unfold found_module. rewrite find_app. destruct (List.find _ modules); [done|]. by destruct (List.find _ more).
Qed.

Lemma found_module_some modules name : is_Some (found_module modules name) <-> existsb (fun m => bool_decide (m.1 = name)) modules = true.
Proof.
  unfold found_module. rewrite existsb_exists. split.
  - intros (c & H). destruct (List.find _ modules) as [m|] eqn:E; [|done]. exists m. by apply List.find_some in E.
  - intros (m & Hin & Hm). destruct (List.find _ modules) as [m'|] eqn:E; [by eexists|].
    apply (find_none_elem _ _ m) in E; [congruence|]. by apply list_elem_of_In.
Qed.

Lemma add_alias_spec preload m : exists more, add_alias preload m = preload ++ more /\
  (forall alias, alias_of m.1 = Some alias -> is_Some (found_module (add_alias preload m) alias)) /\
  (forall name code, (name, code) ∈ more -> alias_of m.1 = Some name /\ code = m.2).
Proof.
  unfold add_alias. destruct (alias_of m.1) as [alias|]; [|exists []; split_and!; [by rewrite app_nil_r|done|set_solver]].
  destruct (existsb _ preload) eqn:E.
  - exists []. split_and!; [by rewrite app_nil_r| |set_solver]. intros ? [= <-]. by apply found_module_some.
  - exists [(alias, m.2)]. split_and!; [done| |].
    + intros ? [= <-]. apply found_module_some. rewrite existsb_app. cbn. rewrite bool_decide_true by done. by rewrite orb_true_r.
    + intros name code [= -> ->]%list_elem_of_singleton. done.
Qed.

(** Every module keeps the code it had under its name, every name without its
    first component is found too, and only such names are new. *)
Theorem package_modules_resolve modules :
  (forall name code, found_module modules name = Some code -> found_module (with_aliases modules) name = Some code) /\
  (forall name alias, name ∈ modules.*1 -> alias_of name = Some alias -> is_Some (found_module (with_aliases modules) alias)) /\
  (forall name code, found_module (with_aliases modules) name = Some code -> found_module modules name = None ->
     exists m, m ∈ modules /\ alias_of m.1 = Some name /\ code = m.2).
Proof.
  unfold with_aliases.
  assert (forall l preload, exists more, foldl add_alias preload l = preload ++ more /\
    (forall name alias, name ∈ l.*1 -> alias_of name = Some alias -> is_Some (found_module (preload ++ more) alias)) /\
    (forall name code, (name, code) ∈ more -> exists m, m ∈ l /\ alias_of m.1 = Some name /\ code = m.2)) as H.
  { induction l as [|m l IH]; intros preload; cbn; [exists []; split_and!; [by rewrite app_nil_r|set_solver|set_solver]|].
    destruct (add_alias_spec preload m) as (more1 & E1 & A1 & B1). destruct (IH (add_alias preload m)) as (more2 & -> & A2 & B2).
    rewrite E1 in *. exists (more1 ++ more2). rewrite <- app_assoc in *. split_and!; [done| |].
    - intros name alias [->|Hin]%elem_of_cons Ha; [|by apply (A2 name)].
      destruct (A1 alias Ha) as (c & Hc). exists c. rewrite app_assoc, found_module_app. by rewrite Hc.
    - intros name code [Hin|Hin]%elem_of_app; [exists m; split; [set_solver|by apply B1]|].
      destruct (B2 name code Hin) as (m' & ? & ?). exists m'. split; [set_solver|done]. }
  destruct (H modules modules) as (more & -> & A & B). split_and!; [|done|].
  - intros name code Hn. by rewrite found_module_app, Hn.
  - intros name code Hn Hnone. rewrite found_module_app, Hnone in Hn. unfold found_module in Hn.
    destruct (List.find _ more) as [[n c]|] eqn:E; [|done]. cbn in Hn. injection Hn as <-.
    apply find_some_elem in E as (Hin & Hb%bool_decide_eq_true). cbn in Hb. subst n. by apply B.
Qed.

(** ** Examples *)

Definition no_path : list Z := [].
Definition loop_code : list Z := b! "while true do end".

(** A script is started, stopped while it loops, and forgotten. *)
Definition demo_start_calls : list (prog Manager unit) :=
  [each (start_method starter) [CallStartSource loop_code true]; other_method 1 (CallThread 0 [] Loops);
   other_method 2 (CallStop kEditorBufferName); other_method 3 CallPrune].

Definition demo_half : list (prog Manager unit) * Manager := play [(0, 9); (1, 9)]%nat (demo_start_calls, new_manager_state).
Definition demo_whole : list (prog Manager unit) * Manager := play [(2, 9); (1, 9); (2, 9); (3, 9)]%nat demo_half.

Definition at_end (c : list (prog Manager unit) * Manager) (i : nat) : bool :=
  match c.1 !! i with Some (Ret _) => true | _ => false end.

Lemma demo_runs : bool_decide (runtimes_ demo_whole.2 = ∅) && negb (asks true joinable 0 demo_whole.2) && forallb (at_end demo_whole) (seq 0 4) &&
  bool_decide (runtimes_ demo_half.2 !! kEditorBufferName = Some 0%nat) && asks false vm_running 0 demo_half.2 = true.
Proof. vm_compute. reflexivity. Qed.

Lemma demo_called : rtc (crew_step manager_methods) ([], new_manager_state) (demo_start_calls, new_manager_state).
Proof.
  apply (crew_calls _ demo_start_calls []). intros i p Hi. unfold manager_methods.
  destruct i as [|[|[|[|i]]]]; [| | | |done]; injection Hi as <-; cbn [length Nat.add decide].
  - rewrite decide_True by done. by exists [CallStartSource loop_code true].
  - rewrite decide_False by done. by exists (CallThread 0 [] Loops).
  - rewrite decide_False by done. by exists (CallStop kEditorBufferName).
  - rewrite decide_False by done. by exists CallPrune.
Qed.

Lemma no_thread_is_abandoned_witness :
  (forall g r, heap demo_whole.2 !! g = Some r -> joinable r = true ->
    runtimes_ demo_whole.2 !! rt_name r = Some g \/
    exists t p, (custody demo_whole.2 !! g = Some t \/ reaper demo_whole.2 !! g = Some t) /\ demo_whole.1 !! t = Some p /\ p <> Ret tt) /\
  bool_decide (runtimes_ demo_whole.2 = ∅) && asks false finished 0 demo_whole.2 = true.
Proof.
  assert (rtc (crew_step manager_methods) ([], new_manager_state) demo_half) as H1.
  { etrans; [exact demo_called|]. apply play_sound. }
  assert (rtc (crew_step manager_methods) demo_half demo_whole) as H2 by apply play_sound.
  rewrite (surjective_pairing demo_half) in H1, H2. rewrite (surjective_pairing demo_whole) in H2.
  split; [|vm_compute; reflexivity].
  exact (proj1 (no_thread_is_abandoned _ _ _ _ H1 H2)).
Defined.

(** A script fails, and nothing prunes or replaces it: its thread has ended, its
    handle is still joinable, and the destructor, which stops active scripts
    only, ends the process.  After a pruning it does not. *)
Definition failed_script : list (prog Manager unit) * Manager :=
  play [(0, 9); (1, 20)]%nat
    ([start_method 0 (CallStartSource loop_code true); other_method 1 (CallThread 0 [] (Fails (b! "attempt to call a nil value")))], new_manager_state).
Definition ends_process {A} (before : prog Manager A) : option bool :=
  match run (before ≫= fun _ => Destroy 5) failed_script.2 with Ok (ended, _) => Some ended | _ => None end.

Example failed_script_ends_the_process :
  forallb (at_end failed_script) [0; 1]%nat = true /\ ends_process (Ret tt) = Some true /\ ends_process (Prune 5) = Some false.
Proof. split_and!; vm_compute; reflexivity. Qed.

(** Two callers start the same script at the same time: both are told that it
    has started, and both scripts run.  Only one is in the list: the other can
    be stopped by no one, and its thread is joined by no one, which ends the
    process when the script ends. *)
Definition double_start : list (prog Manager unit) * Manager :=
  play [(0, 1); (1, 1); (0, 9); (1, 9); (2, 9); (3, 9)]%nat
    ([start_method 0 (CallStartScript (b! "a.lua") (b! "/s/a.lua") true true);
      start_method 1 (CallStartScript (b! "a.lua") (b! "/s/a.lua") true true);
      other_method 2 (CallThread 0 loop_code Loops); other_method 3 (CallThread 1 loop_code Loops)], new_manager_state).

Theorem double_start_abandons :
  forallb (at_end double_start) [0; 1]%nat &&
  bool_decide (map (fun g => asks [] rt_name g double_start.2) [0; 1]%nat = [b! "a.lua"; b! "a.lua"]) &&
  forallb (fun g => asks false vm_running g double_start.2 && asks false joinable g double_start.2) [0; 1]%nat &&
  bool_decide (runtimes_ double_start.2 = {[b! "a.lua" := 1%nat]}) && bool_decide (custody double_start.2 = ∅) = true.
Proof. vm_compute. reflexivity. Qed.

(** A script is stopped before its thread has begun to run it: the thread runs
    it all the same, and takes the interruption back; the call that stops it
    waits for the thread, for ever if the script does not end by itself. *)
Definition lost_stop (b : behaviour) : list (prog Manager unit) * Manager :=
  play [(0, 9); (1, 9); (2, 20); (1, 9)]%nat
    ([start_method 0 (CallStartSource loop_code true); other_method 1 (CallStop kEditorBufferName);
      other_method 2 (CallThread 0 [] b)], new_manager_state).

Theorem stop_can_hang : stuck (lost_stop Loops) && negb (at_end (lost_stop Loops) 1) && asks false vm_running 0 (lost_stop Loops).2 = true.
Proof. vm_compute. reflexivity. Qed.

(** If it is a script of handlers, the stop ends, the list says STOPPED, and
    the engine runs on: it still gets every event. *)
Theorem stopped_script_lives_on :
  forallb (at_end (lost_stop Returns)) [0; 1; 2]%nat && asks false vm_running 0 (lost_stop Returns).2 &&
  asks false (fun r => bool_decide (StateName r = "STOPPED"%string)) 0 (lost_stop Returns).2 &&
  negb (IsActive 0 (lost_stop Returns).2) = true.
Proof. vm_compute. reflexivity. Qed.

(** A restart of a script that loops and has no file: it waits for the
    engine's mutex, which the script holds as long as it runs. *)
Definition restart_loop : list (prog Manager unit) * Manager :=
  play [(0, 9); (1, 9); (2, 9)]%nat
    ([start_method 0 (CallStartSource loop_code true); other_method 1 (CallThread 0 [] Loops);
      start_method 2 (CallRestart kEditorBufferName false true)], new_manager_state).

Theorem restart_can_hang : stuck restart_loop && negb (at_end restart_loop 2) && asks false vm_running 0 restart_loop.2 = true.
Proof. vm_compute. reflexivity. Qed.

(** A package that is restarted runs without its modules. *)
Definition restarted_package : list (prog Manager unit) * Manager :=
  play [(0, 9); (1, 20); (2, 40)]%nat
    ([start_method 0 (CallStartPackage (b! "p.pkg") [(b! "app.core", b! "...")] loop_code true); other_method 1 (CallThread 0 [] Returns);
      start_method 2 (CallRestart (b! "p.pkg") false true)], new_manager_state).

Theorem restart_loses_modules :
  forallb (at_end restarted_package) [0; 1; 2]%nat &&
  bool_decide (runtimes_ restarted_package.2 = {[b! "p.pkg" := 1%nat]}) &&
  bool_decide (asks [] (fun r => j_preload (rt_job r)) 0 restarted_package.2 = [(b! "app.core", b! "..."); (b! "core", b! "...")]) &&
  bool_decide (asks [([], [])] (fun r => j_preload (rt_job r)) 1 restarted_package.2 = []) = true.
Proof. vm_compute. reflexivity. Qed.
