(* ===== verification/Signature.v ===== *)
(** * Detached signatures of updates (src/update/SignatureVerifier.cpp)

    The base64 decoder, the message that is signed, and the checks around the
    verification.  OpenSSL is not part of the repository; [OpenSsl] is what the
    gateway uses of it.  The decoder's [int] accumulator is kept at its 32
    bits, with the wrap-around compilers give the shift. *)

From Stdlib Require Import ZifyNat.
From S2P Require Import Prelude Words Text.

#[local] Ltac Zify.zify_post_hook ::= Z.to_euclidean_division_equations.

(** ** Base64 *)

Definition base64_value (c : Z) : Z :=
  if (65 <=? c) && (c <=? 90) then c - 65
  else if (97 <=? c) && (c <=? 122) then c - 97 + 26
  else if (48 <=? c) && (c <=? 57) then c - 48 + 52
  else if c =? 43 then 62
  else if c =? 47 then 63
  else -1.

Definition base64_blank (c : Z) : bool := (c =? 10) || (c =? 13) || (c =? 32) || (c =? 9).

(** [accumulator = (accumulator << 6) | v] *)
Definition shift_in (accumulator v : Z) : Z := Z.lor (to_int32 (Z.shiftl accumulator 6)) v.

Fixpoint base64_loop (text : list Z) (accumulator bits : Z) (out : list Z) : option (list Z) :=
  match text with
  | [] => Some out
  | c :: rest =>
      if base64_blank c then base64_loop rest accumulator bits out
      else if c =? 61 then Some out
      else
        let v := base64_value c in
        if v <? 0 then None
        else
          let accumulator' := shift_in accumulator v in
          let bits' := bits + 6 in
          if 8 <=? bits' then
            base64_loop rest accumulator' (bits' - 8)
              (out ++ [Z.land (Z.shiftr accumulator' (bits' - 8)) 0xFF])
          else base64_loop rest accumulator' bits' out
  end.

Definition Base64Decode (text : list Z) : option (list Z) :=
  match base64_loop text 0 0 [] with
  | Some [] => None
  | r => r
  end.

(** ** Verification *)

Class OpenSsl := {
  Key : Type;
  pem_read : list Z -> option Key;               (** [PEM_read_bio_PUBKEY] *)
  eddsa : Key -> bool;                           (** the key's type is Ed25519 or Ed448 *)
  verify_init : Key -> bool -> bool;             (** [EVP_DigestVerifyInit], with SHA-256 or without *)
  digest_verify : Key -> bool -> list Z -> list Z -> bool   (** signature and message *)
}.

Definition BuildSignedMessage (version platform sha256Hex : list Z) : list Z :=
  version ++ [10] ++ platform ++ [10] ++ sha256Hex ++ [10].

(** [keyFile] is what the file at the key's path holds, if it can be opened. *)
Definition SignatureVerify {O : OpenSsl} (keyFile : option (list Z)) (signedMessage signatureBase64 : list Z)
  : res unit :=
  match Base64Decode signatureBase64 with
  | None => Err "signature is not valid base64"
  | Some signature =>
      match keyFile with
      | None => Err "public key not readable"
      | Some pem =>
          if bool_decide (pem = []) || (64 * 1024 <? Z.of_nat (length pem))
          then Err "public key is empty or implausibly large"
          else match pem_read pem with
          | None => Err "public key is not a PEM public key"
          | Some key =>
              let sha256 := negb (eddsa key) in
              if negb (verify_init key sha256) then Err "cannot initialise verification"
              else if digest_verify key sha256 signature signedMessage then Ok tt
              else Err "signature does not match this version/platform/checksum"
          end
      end
  end.

(** ** The reference encoding (RFC 4648) *)

Definition sextet_char (v : Z) : Z :=
  if v <? 26 then 65 + v
  else if v <? 52 then 97 + (v - 26)
  else if v <? 62 then 48 + (v - 52)
  else if v =? 62 then 43 else 47.

Fixpoint base64_encode (data : list Z) : list Z :=
  match data with
  | [] => []
  | [a] => [sextet_char (a / 4); sextet_char (a mod 4 * 16); 61; 61]
  | [a; b] => [sextet_char (a / 4); sextet_char (a mod 4 * 16 + b / 16); sextet_char (b mod 16 * 4); 61]
  | a :: b :: c :: rest =>
      [sextet_char (a / 4); sextet_char (a mod 4 * 16 + b / 16); sextet_char (b mod 16 * 4 + c / 64);
       sextet_char (c mod 64)] ++ base64_encode rest
  end.

Lemma sextet_char_spec v : 0 <= v < 64 ->
  base64_value (sextet_char v) = v /\ base64_blank (sextet_char v) = false /\ (sextet_char v =? 61) = false.
Proof.
  intros Hv. unfold sextet_char.
  destruct (v <? 26) eqn:E1; [|destruct (v <? 52) eqn:E2; [|destruct (v <? 62) eqn:E3; [|destruct (v =? 62) eqn:E4]]].
  all: reflect_bools; unfold base64_value, base64_blank; split_and!.
  all: repeat (case_match; reflect_bools); try lia.
Qed.

Lemma shift_in_eq acc v : 0 <= v < 64 -> exists k, shift_in acc v = 64 * acc + v + 4294967296 * k.
Proof.
  intros Hv. unfold shift_in, to_int32, to_signed. rewrite Z.shiftl_mul_pow2 by lia.
  set (x := acc * 2 ^ 6).
  assert (exists k, (if x mod 2 ^ 32 <? 2 ^ (32 - 1) then x mod 2 ^ 32 else x mod 2 ^ 32 - 2 ^ 32)
                    = Z.shiftl (acc + 67108864 * k) 6) as [k Hk].
  { rewrite Z.mod_eq by lia. destruct (_ <? _).
    - exists (- (x / 2 ^ 32)). rewrite Z.shiftl_mul_pow2 by lia. unfold x at 1. lia.
    - exists (- (x / 2 ^ 32) - 1). rewrite Z.shiftl_mul_pow2 by lia. unfold x at 1. lia. }
  rewrite Hk, lor_shiftl_add by lia. exists k. lia.
Qed.

Lemma low_byte x s : 0 <= s -> Z.land (Z.shiftr x s) 0xFF = x / 2 ^ s mod 256.
Proof. intros. rewrite Z.shiftr_div_pow2 by lia. change 0xFF with (Z.ones 8). by rewrite Z.land_ones by lia. Qed.

Lemma base64_step v rest acc bits out : 0 <= v < 64 ->
  base64_loop (sextet_char v :: rest) acc bits out =
  if 8 <=? bits + 6 then
    base64_loop rest (shift_in acc v) (bits - 2) (out ++ [Z.land (Z.shiftr (shift_in acc v) (bits - 2)) 0xFF])
  else base64_loop rest (shift_in acc v) (bits + 6) out.
Proof.
  intros Hv. destruct (sextet_char_spec v Hv) as (Hval & Hb & He). simpl.
  rewrite Hb, He, Hval, (proj2 (Z.ltb_ge v 0)) by lia.
  replace (bits + 6 - 8) with (bits - 2) by lia. done.
Qed.

(** Two, three and four sextets, from a byte boundary. *)
Lemma base64_two a b rest acc out : 0 <= a < 64 -> 0 <= b < 64 ->
  exists acc', base64_loop (sextet_char a :: sextet_char b :: rest) acc 0 out =
    base64_loop rest acc' 4 (out ++ [4 * a + b / 16]) /\ exists k, acc' = 64 * a + b + 4096 * k.
Proof.
  intros Ha Hb. rewrite !base64_step by done. change (8 <=? 0 + 6) with false. cbv iota.
  change (8 <=? 0 + 6 + 6) with true. cbv iota. change (0 + 6 - 2) with 4.
  destruct (shift_in_eq acc a Ha) as [k Hk]. destruct (shift_in_eq (shift_in acc a) b Hb) as [k' Hk'].
  eexists. split.
  - rewrite low_byte by lia. do 3 f_equal. rewrite Hk', Hk. change (2 ^ 4) with 16. lia.
  - rewrite Hk', Hk. exists (acc + 67108864 * k + 1048576 * k'). lia.
Qed.

Lemma base64_three c k acc rest out : 0 <= c < 64 ->
  exists acc', base64_loop (sextet_char c :: rest) (acc + 4096 * k) 4 out =
    base64_loop rest acc' 2 (out ++ [(acc mod 16) * 16 + c / 4]) /\
    exists k', acc' = (acc mod 16) * 64 + c + 1024 * k'.
Proof.
  intros Hc. rewrite base64_step by done. change (8 <=? 4 + 6) with true. cbv iota. change (4 - 2) with 2.
  destruct (shift_in_eq (acc + 4096 * k) c Hc) as [j Hj]. eexists. split.
  - rewrite low_byte by lia. do 3 f_equal. rewrite Hj. change (2 ^ 2) with 4. lia.
  - rewrite Hj. exists (acc / 16 + 256 * k + 4194304 * j). rewrite (Z.div_mod acc 16) at 1 by lia. lia.
Qed.

Lemma base64_four d k acc rest out : 0 <= d < 64 ->
  exists acc', base64_loop (sextet_char d :: rest) (acc + 1024 * k) 2 out =
    base64_loop rest acc' 0 (out ++ [(acc mod 4) * 64 + d]).
Proof.
  intros Hd. rewrite base64_step by done. change (8 <=? 2 + 6) with true. cbv iota. change (2 - 2) with 0.
  destruct (shift_in_eq (acc + 1024 * k) d Hd) as [j Hj]. eexists.
  rewrite low_byte by lia. do 3 f_equal. rewrite Hj. change (2 ^ 0) with 1. lia.
Qed.

Lemma triples_ind {A} (P : list A -> Prop) :
  P [] -> (forall a, P [a]) -> (forall a b, P [a; b]) -> (forall a b c l, P l -> P (a :: b :: c :: l)) ->
  forall l, P l.
Proof.
  intros H0 H1 H2 H3 l. remember (length l) as n eqn:Hn. revert l Hn.
  induction n as [n IH] using lt_wf_ind. intros l ->.
  destruct l as [|a [|b [|c l]]]; [done..|]. apply H3. eapply IH; [|done]. simpl. lia.
Qed.

Lemma base64_loop_encode data acc out : Forall byte_ok data ->
  base64_loop (base64_encode data) acc 0 out = Some (out ++ data).
Proof.
  revert acc out. induction data as [|a|a b|a b c rest IH] using triples_ind; intros acc out Hok.
  - simpl. by rewrite app_nil_r.
  - rewrite Forall_singleton in Hok. unfold byte_ok in Hok. simpl base64_encode.
    edestruct (base64_two (a / 4) (a mod 4 * 16)) as (acc' & -> & _); [lia..|].
    simpl. do 2 f_equal. f_equal. lia.
  - rewrite !Forall_cons in Hok. destruct Hok as (Ha & Hb & _). unfold byte_ok in *. simpl base64_encode.
    edestruct (base64_two (a / 4) (a mod 4 * 16 + b / 16)) as (acc' & -> & k & ->); [lia..|].
    edestruct (base64_three (b mod 16 * 4) k) as (acc' & -> & _); [lia|].
    simpl. rewrite <- app_assoc. simpl. repeat f_equal; lia.
  - rewrite !Forall_cons in Hok. destruct Hok as (Ha & Hb & Hc & Hok). unfold byte_ok in *.
    change (base64_encode (a :: b :: c :: rest)) with
      (sextet_char (a / 4) :: sextet_char (a mod 4 * 16 + b / 16) :: sextet_char (b mod 16 * 4 + c / 64)
       :: sextet_char (c mod 64) :: base64_encode rest).
    edestruct (base64_two (a / 4) (a mod 4 * 16 + b / 16)) as (acc' & -> & k & ->); [lia..|].
    edestruct (base64_three (b mod 16 * 4 + c / 64) k) as (acc' & -> & k' & ->); [lia|].
    edestruct (base64_four (c mod 64) k') as (acc' & ->); [lia|].
    rewrite IH by done. f_equal. rewrite <- !app_assoc. simpl. repeat f_equal; lia.
Qed.

Lemma base64_loop_blanks text acc bits out :
  base64_loop text acc bits out = base64_loop (List.filter (fun c => negb (base64_blank c)) text) acc bits out.
Proof.
  revert acc bits out. induction text as [|c rest IH]; intros; [done|]. simpl.
  destruct (base64_blank c) eqn:E; simpl; [done|]. rewrite E.
  destruct (c =? 61); [done|]. destruct (_ <? 0); [done|]. destruct (8 <=? bits + 6); apply IH.
Qed.

(** The accumulator wraps without any effect on what is decoded. *)
Lemma base64_decodes data text : data <> [] -> Forall byte_ok data ->
  List.filter (fun c => negb (base64_blank c)) text = base64_encode data -> Base64Decode text = Some data.
Proof.
  intros Hne Hok Ht. unfold Base64Decode. rewrite base64_loop_blanks, Ht, base64_loop_encode by done.
  by destruct data.
Qed.

(** ** What a signature binds *)

Lemma line_inj (a b x y : list Z) : 10 ∉ a -> 10 ∉ x -> a ++ 10 :: b = x ++ 10 :: y -> a = x /\ b = y.
Proof.
  revert x. induction a as [|c a IH]; intros [|c' x] Ha Hx H; simpl in H.
  - by injection H as ->.
  - injection H as Hc _. set_solver.
  - injection H as Hc _. set_solver.
  - injection H as -> H. apply not_elem_of_cons in Ha as [_ Ha], Hx as [_ Hx].
    by destruct (IH x Ha Hx H) as [-> ->].
Qed.

Lemma BuildSignedMessage_inj v p h v' p' h' : 10 ∉ v -> 10 ∉ v' -> length h = length h' ->
  BuildSignedMessage v p h = BuildSignedMessage v' p' h' -> v = v' /\ p = p' /\ h = h'.
Proof.
  unfold BuildSignedMessage. intros Hv Hv' Hl H. apply line_inj in H as [-> H]; [|done..].
  simpl in H. assert (length p = length p') as Hp.
  { apply (f_equal length) in H. rewrite !length_app in H. simpl in H. rewrite !length_app in H. lia. }
  apply app_inj_1 in H as [-> H]; [|done]. injection H as H. by apply app_inv_tail in H.
Qed.

(** ** Properties *)

(** Decoding inverts base64: any nonempty run of bytes is read back from its
    encoding, broken into lines and padded with blanks in any way, although
    the accumulator overflows its 32 bits on all but the shortest; and the
    message that is signed determines the version, the platform and the digest
    (a version an installation accepts has no line feed). *)
Theorem signature_input_exact data text v p h v' p' h' :
  (data <> [] -> bytes_ok data -> List.filter (fun c => negb (base64_blank c)) text = base64_encode data ->
   Base64Decode text = Some data) /\
  (10 ∉ v -> 10 ∉ v' -> length h = length h' -> BuildSignedMessage v p h = BuildSignedMessage v' p' h' ->
   v = v' /\ p = p' /\ h = h').
Proof. split; [apply base64_decodes|apply BuildSignedMessage_inj]. Qed.

Lemma signature_input_exact_witness :
  Base64Decode (b! "aGVs" ++ [13; 10] ++ b! "bG8=") = Some (b! "hello").
Proof.
  apply (proj1 (signature_input_exact (b! "hello") (b! "aGVs" ++ [13; 10] ++ b! "bG8=") [] [] [] [] [] [])).
  - discriminate.
  - apply bytes_of_ok.
  - reflexivity.
Defined.
