(* ===== verification/Installer.v ===== *)
(** * Installing releases and falling back (src/update/UpdateInstaller.cpp)

    The managed tree of an installation is a record: the release directories,
    the [current] link, the files of [data] and the state file that survives a
    restart.  A path is the list of its components.  The operating system and
    [tar] are the environment: what an archive unpacks to, and whether each
    rename, copy, link or write succeeds ([Io]); a crash between two steps is
    the failure of the second.  The POSIX branches are the ones translated. *)

From stdpp Require Import relations sorting.
From S2P Require Import Prelude Words Text Float Json Version.

(** ** Paths *)

Definition path := list string.
Definition filename (p : path) : string := List.last p "".
Definition parent_path (p : path) : path := removelast p.
Definition path_text (p : path) : string := String.concat "" (map (fun c => "/" ++ c)%string p).

(** ** Versions as directory names, paths as shell words *)

Definition IsSafeVersionString (version : string) : bool :=
  let text := bytes_of version in
  negb (length text =? 0)%nat && (length text <=? 64)%nat
  && forallb (fun c => is_alnum c || (c =? 46) || (c =? 45) || (c =? 43)) text
  && negb (String.eqb version ".") && negb (String.eqb version "..")
  && negb (bool_decide (head text = Some 45)).

Definition Quote (text : list Z) : list Z :=
  39 :: List.concat (map (fun c => if c =? 39 then [39; 92; 39; 39] else [c]) text) ++ [39].

(** The command of [ExtractArchive]. *)
Definition extract_command (archivePath destinationDir : list Z) : list Z :=
  let isZip := (4 <? length archivePath)%nat && ends_with (b! ".zip") archivePath in
  b! "tar " ++ (if isZip then b! "-xf" else b! "-xzf") ++ b! " " ++ Quote archivePath ++ b! " -C "
  ++ Quote destinationDir.

(** ** The tree *)

(** What the code can tell about a release directory, and the version its
    binary was compiled with ([HSF_VERSION]). *)
Record Release := mkRelease {
  looks_like_release : bool;
  executable : bool;
  shipped : list (string * list Z);      (** the regular files of [config/] *)
  hsf_version : string
}.

Inductive StateFile `{JsonLib} := Absent | Unreadable | Holds (j : json).

Record Layout := mkLayout {
  managed : bool; root : path; releases_dir : path; current_link : path; data_dir : path;
  downloads_dir : path; state_path : path; active_release : path; reason : string
}.

Definition no_layout (why : string) : Layout := mkLayout false [] [] [] [] [] [] [] why.

(** ** Where the gateway is installed

    [canonical] is [weakly_canonical], [None] when it fails. *)
Section Detect.
Variable canonical : path -> option path.
Variable is_directory : path -> bool.

Definition detect_root (executableDir : path) (overrideRoot : option path) : string + path * path :=
  match overrideRoot with
  | Some r =>
      if is_directory r then inr (r, [])
      else inl ("update.install_root is set to " ++ path_text r ++ ", which is not a directory")%string
  | None =>
      let exeDir := match canonical executableDir with
                    | Some (c :: rest) => c :: rest
                    | _ => executableDir
                    end in
      let releaseDir := parent_path exeDir in
      let parentName := parent_path releaseDir in
      if String.eqb (filename parentName) "releases"
      then inr (parent_path parentName, default [] (canonical releaseDir))
      else if String.eqb (filename releaseDir) "current"
      then inr (parent_path releaseDir, default [] (canonical releaseDir))
      else inl ("not running from a managed install (expected <root>/releases/<version>/bin, got "
                ++ path_text executableDir
                ++ "). Over-the-air updates need the layout scripts/install-ota.sh creates; set update.install_root to override.")%string
  end.

Definition Detect (executableDir : path) (overrideRoot : option path) : Layout :=
  match detect_root executableDir overrideRoot with
  | inl why => no_layout why
  | inr (r, active) =>
      let releases := r ++ ["releases"] in
      let link := r ++ ["current"] in
      let base m act why :=
        mkLayout m (default [] (canonical r)) releases link (r ++ ["data"]) (r ++ ["downloads"])
          (r ++ ["update-state.json"]) act why in
      if negb (is_directory releases) then base false active (path_text releases ++ " does not exist")%string
      else base true (match active with [] => default [] (canonical link) | _ => active end) ""
  end.
End Detect.

(** ** State *)

Record State := mkState {
  pending : string; previous : string; attempts : Z; installed_at : string; last_result : string
}.
Definition no_state : State := mkState "" "" 0 "" "".

Section Installer.
Context {J : JsonLib}.

Record Tree := mkTree {
  releases : gmap string Release;
  current : option string;               (** [releases/<name>], which need not exist *)
  data : gmap string (list Z);
  state_file : StateFile
}.

(** The outcomes of the file operations. *)
Record Io := mkIo {
  io_rename : bool;
  io_copy : bool * option Release;       (** success, else what is left at the destination *)
  io_chmod : bool;
  io_seed : string -> bool;
  io_link : bool;
  io_swap : bool;
  io_state : bool
}.

Definition good_io : Io := mkIo true (true, None) true (fun _ => true) true true true.

(** Fields are assigned one after the other; an exception keeps those read so far. *)
Definition ReadState (tree : Tree) : res State :=
  match state_file tree with
  | Absent | Unreadable => Ok no_state
  | Holds j =>
      match value_string j "pending" "" with
      | None => Ok no_state
      | Some p =>
          match value_string j "previous" "" with
          | None => Ok (mkState p "" 0 "" "")
          | Some q =>
              a ← value_int 32 j "attempts" 0;
              match a with
              | None => Ok (mkState p q 0 "" "")
              | Some n =>
                  match value_string j "installed_at" "" with
                  | None => Ok (mkState p q n "" "")
                  | Some t => Ok (mkState p q n t (default "" (value_string j "last_result" "")))
                  end
              end
          end
      end
  end.

Definition state_json (s : State) : json :=
  inject (JObject
    [("pending", inject (JString (pending s))); ("previous", inject (JString (previous s)));
     ("attempts", inject (JInt (attempts s))); ("installed_at", inject (JString (installed_at s)));
     ("last_result", inject (JString (last_result s)))]).

Definition WriteState (io : Io) (tree : Tree) (s : State) : bool * Tree :=
  if io_state io
  then (true, mkTree (releases tree) (current tree) (data tree) (Holds (state_json s)))
  else (false, tree).

(** ** Activating *)

Definition SwapCurrent (io : Io) (tree : Tree) (releaseDirName : string) : res unit * Tree :=
  if negb (io_link io) then (Err "could not create symlink", tree)
  else if negb (io_swap io) then (Err "could not move the link", tree)
  else (Ok tt, mkTree (releases tree) (Some releaseDirName) (data tree) (state_file tree)).

Definition Activate (layout : Layout) (io : Io) (tree : Tree) (version : string) : res unit * Tree :=
  if negb (managed layout) then (Err "this gateway is not an OTA-managed install", tree)
  else if negb (IsSafeVersionString version) then (Err ("unexpected characters in version " ++ version)%string, tree)
  else if negb (bool_decide (is_Some (releases tree !! version)))
  then (Err ("release " ++ version ++ " is not installed")%string, tree)
  else SwapCurrent io tree version.

(** ** Installing *)

(** Files the installation does not have yet. *)
Definition seed_one (io : Io) (d : gmap string (list Z)) (file : string * list Z) : gmap string (list Z) :=
  let '(name, content) := file in
  if bool_decide (is_Some (d !! name)) then d
  else if io_seed io name then <[name := content]> d else d.

Definition SeedDataDirectory (io : Io) (tree : Tree) (release : Release) : Tree :=
  mkTree (releases tree) (current tree) (foldl (seed_one io) (data tree) (shipped release)) (state_file tree).

(** What [tar] left in the staging directory: its entries in directory order,
    with whether each is a directory, and the staging directory itself as a
    release. *)
Record Staging := mkStaging { entries : list (bool * Release); top : Release }.

Definition find_release (staging : Staging) : option Release :=
  match foldl (fun found entry => if fst entry && looks_like_release (snd entry) then Some (snd entry) else found)
          None (entries staging) with
  | Some r => Some r
  | None => if looks_like_release (top staging) then Some (top staging) else None
  end.

(** Replaces [releases/<version>]; [false] when neither rename nor copy worked. *)
Definition place_release (io : Io) (tree : Tree) (version : string) (unpacked : Release) : bool * Tree :=
  let put rs := mkTree rs (current tree) (data tree) (state_file tree) in
  let cleared := delete version (releases tree) in
  if io_rename io then (true, put (<[version := unpacked]> cleared))
  else match io_copy io with
  | (true, _) => (true, put (<[version := unpacked]> cleared))
  | (false, Some partial) => (false, put (<[version := partial]> cleared))
  | (false, None) => (false, put cleared)
  end.

Definition make_executable (io : Io) (tree : Tree) (version : string) : Tree :=
  mkTree (alter (fun r => mkRelease (looks_like_release r) (executable r || io_chmod io) (shipped r) (hsf_version r))
            version (releases tree))
    (current tree) (data tree) (state_file tree).

(** The trial that an installation starts. *)
Definition trial (layout : Layout) (version now : string) (before : State) : State :=
  let active := filename (active_release layout) in
  let target := match Parse (bytes_of active) with Some _ => active | None => "" end in
  mkState version
    (if String.eqb target "" || String.eqb target version then previous before else target) 0 now "".

Definition Install (layout : Layout) (io : Io) (tree : Tree) (version now : string) (archive : option Staging)
  : res unit * Tree :=
  if negb (managed layout) then
    (Err (if String.eqb (reason layout) "" then "this gateway is not an OTA-managed install" else reason layout), tree)
  else if negb (IsSafeVersionString version) then
    (Err ("refusing to install a version string with unexpected characters: " ++ version)%string, tree)
  else match archive with
  | None => (Err "failed to unpack the package", tree)
  | Some staging =>
      match find_release staging with
      | None => (Err "the package does not contain bin/hsf_gateway", tree)
      | Some unpacked =>
          match place_release io tree version unpacked with
          | (false, tree1) => (Err "could not move the unpacked release", tree1)
          | (true, tree1) =>
              let tree2 := SeedDataDirectory io (make_executable io tree1 version) unpacked in
              match ReadState tree2 with
              | Err e => (Err e, tree2)
              | Fault => (Fault, tree2)
              | Ok before =>
                  match SwapCurrent io tree2 version with
                  | (Ok _, tree3) => (Ok tt, (WriteState io tree3 (trial layout version now before)).2)
                  | (r, tree3) => (r, tree3)
                  end
              end
          end
      end
  end.

(** ** Releases on disk *)

Definition parse_name (name : string) : option Version := Parse (bytes_of name).

(** [va > vb] on two directory names. *)
Definition newer_name (a b : string) : bool :=
  match parse_name a, parse_name b with
  | Some va, Some vb => 0 <? Compare va vb
  | _, _ => false
  end.

(** [std::sort] with that order: sorted, ties in any order. *)
Class SortNewest := {
  newest : list string -> list string;
  newest_perm : forall l, Permutation (newest l) l;
  newest_sorted : forall l, Forall (fun n => parse_name n <> None) l ->
    StronglySorted (fun a b => newer_name b a = false) (newest l)
}.

Context {Q : SortNewest}.

Definition InstalledVersions (tree : Tree) : list string :=
  newest (List.filter (fun name => bool_decide (is_Some (parse_name name))) (map fst (map_to_list (releases tree)))).

(** One pass of the loop: how many were kept, and the tree. *)
Definition prune_one (layout : Layout) (keep : Z) (s : State) (acc : Z * gmap string Release) (version : string)
  : Z * gmap string Release :=
  let '(kept, rs) := acc in
  if String.eqb version (filename (active_release layout)) || String.eqb version (previous s)
     || String.eqb version (pending s)
  then acc
  else if kept + 1 <=? keep then (kept + 1, rs)
  else (kept + 1, delete version rs).

Definition PruneReleases (layout : Layout) (tree : Tree) (keep : Z) (s : State) : Tree :=
  if keep <=? 0 then tree
  else mkTree (foldl (prune_one layout keep s) (0, releases tree) (InstalledVersions tree)).2
         (current tree) (data tree) (state_file tree).

(** ** The boot lifecycle *)

(** [++state.attempts] on an [int]. *)
Definition next_attempt (n : Z) : res Z := if n =? 2147483647 then Fault else Ok (n + 1).

(** [Some v]: rolled back to [v], the caller restarts. *)
Definition CheckBoot (layout : Layout) (io : Io) (tree : Tree) (runningVersion : string) (maxAttempts : Z)
  : res (option string * Tree) :=
  if negb (managed layout) then Ok (None, tree)
  else
    s ← ReadState tree;
    if String.eqb (pending s) "" then Ok (None, tree)
    else if negb (String.eqb (pending s) runningVersion) then
      Ok (None, (WriteState io tree (mkState "" (previous s) (attempts s) (installed_at s) "abandoned")).2)
    else
      n ← next_attempt (attempts s);
      if n <=? maxAttempts then
        Ok (None, (WriteState io tree (mkState (pending s) (previous s) n (installed_at s) (last_result s))).2)
      else if String.eqb (previous s) "" then
        Ok (None, (WriteState io tree (mkState "" "" n (installed_at s) "failed-no-rollback-target")).2)
      else
        match Activate layout io tree (previous s) with
        | (Ok _, tree1) =>
            Ok (Some (previous s),
                (WriteState io tree1
                   (mkState "" (previous s) 0 (installed_at s) ("rolled-back:" ++ runningVersion)%string)).2)
        | (_, tree1) => Ok (None, tree1)
        end.

Definition ConfirmHealthy (layout : Layout) (io : Io) (tree : Tree) (runningVersion : string) : res Tree :=
  if negb (managed layout) then Ok tree
  else
    s ← ReadState tree;
    if String.eqb (pending s) "" then Ok tree
    else if negb (String.eqb (pending s) runningVersion) then Ok tree
    else Ok (WriteState io tree (mkState "" (previous s) 0 (installed_at s) "confirmed")).2.

(** ** One start of the gateway (src/main.cpp)

    The service manager runs the binary of the [current] release, whose first
    act is the boot guard; [Restarting] is its exit after a rollback. *)
Inductive boot_result := NoRelease | Restarting (to : string) | Running (version : string).

Definition boot (layout : Layout) (maxAttempts : Z) (io : Io) (tree : Tree) : res (boot_result * Tree) :=
  match current tree with
  | None => Ok (NoRelease, tree)
  | Some name =>
      match releases tree !! name with
      | None => Ok (NoRelease, tree)
      | Some r =>
          '(rolledBackTo, tree') ← CheckBoot layout io tree (hsf_version r) maxAttempts;
          Ok (match rolledBackTo with Some v => Restarting v | None => Running (hsf_version r) end, tree')
      end
  end.

End Installer.
Arguments Tree : clear implicits.

(** ** The state file *)

Section Proofs.
Context {J : JsonLib}.

Lemma ReadState_written rs c d s : - 2 ^ 31 <= attempts s < 2 ^ 31 ->
  ReadState (mkTree rs c d (Holds (state_json s))) = Ok s.
Proof.
  intros Hn. unfold ReadState, state_json. cbn [state_file].
  assert (NoDup ["pending"; "previous"; "attempts"; "installed_at"; "last_result"]) as Hnd
    by (by apply (bool_decide_unpack _)).
  rewrite (value_string_object _ _ _ (pending s)), (value_string_object _ _ _ (previous s)) by done.
  rewrite (value_int_object _ _ _ (attempts s)) by done. cbn [mbind res_bind].
  rewrite (value_string_object _ _ _ (installed_at s)), (value_string_object _ _ _ (last_result s)) by done.
  by destruct s.
Qed.

Lemma ReadState_state tree tree' : state_file tree = state_file tree' -> ReadState tree = ReadState tree'.
Proof. unfold ReadState. by intros ->. Qed.

Lemma value_int_range j key a : value_int 32 j key 0 = Ok (Some a) -> - 2 ^ 31 <= a < 2 ^ 31.
Proof.
  unfold value_int, field_int. destruct (view j) as [| | | | | | |l]; try done.
  destruct (member l key) as [x|]; [|by intros [= <-]].
  destruct (view x) as [|b|z|z|bits| | |]; try done.
  - destruct b; by intros [= <-].
  - intros [= <-]. by apply (to_signed_range 32).
  - intros [= <-]. by apply (to_signed_range 32).
  - destruct (f64_trunc bits) as [z|]; [|done]. destruct (_ && _)%bool eqn:E; [|done].
    intros [= <-]. apply andb_true_iff in E as [E1 E2]. apply Z.leb_le in E1. apply Z.ltb_lt in E2.
    by split.
Qed.

Lemma ReadState_range tree s : ReadState tree = Ok s -> - 2 ^ 31 <= attempts s < 2 ^ 31.
Proof.
  unfold ReadState. destruct (state_file tree) as [| |j]; [by intros [= <-]..|].
  destruct (value_string j "pending" "") as [p|]; [|by intros [= <-]].
  destruct (value_string j "previous" "") as [q|]; [|by intros [= <-]].
  destruct (value_int 32 j "attempts" 0) as [[n|]| |] eqn:E; simpl; try done; [|by intros [= <-]].
  apply value_int_range in E.
  destruct (value_string j "installed_at" "") as [t|]; by intros [= <-].
Qed.

(** ** A trial, boot by boot *)

(** The current release is on trial: [n] boots so far, [p] to fall back to. *)
Definition on_trial (tree : Tree J) (v p : string) (n : Z) : Prop :=
  current tree = Some v /\ exists s, ReadState tree = Ok s /\ pending s = v /\ previous s = p /\ attempts s = n.

(** No release is on trial. *)
Definition settled (tree : Tree J) : Prop := exists s, ReadState tree = Ok s /\ pending s = "".

(** Boots of which none lasts until it is confirmed. *)
Fixpoint boots (layout : Layout) (maxAttempts : Z) (n : nat) (tree : Tree J) : res (list boot_result * Tree J) :=
  match n with
  | O => Ok ([], tree)
  | S n' =>
      '(r, tree1) ← boot layout maxAttempts good_io tree;
      '(rs, tree2) ← boots layout maxAttempts n' tree1;
      Ok (r :: rs, tree2)
  end.

Lemma boots_app layout max n m tree rs tree1 : boots layout max n tree = Ok (rs, tree1) ->
  boots layout max (n + m) tree = ('(rs', tree2) ← boots layout max m tree1; Ok (rs ++ rs', tree2)).
Proof.
  revert tree rs. induction n as [|n IH]; intros tree rs H; simpl in H.
  - injection H as <- <-. simpl. by destruct (boots layout max m tree) as [[]| |].
  - simpl. destruct (boot layout max good_io tree) as [[r tree0]| |]; [|done..]. simpl in *.
    destruct (boots layout max n tree0) as [[rs0 tree0']| |] eqn:E; [|done..]. simpl in H.
    injection H as <- <-. rewrite (IH _ _ E). by destruct (boots layout max m tree0') as [[]| |].
Qed.

Lemma boot_settled layout max tree name r : settled tree -> current tree = Some name ->
  releases tree !! name = Some r -> boot layout max good_io tree = Ok (Running (hsf_version r), tree).
Proof.
  intros (s & Hs & Hp) Hc Hr. unfold boot, CheckBoot. rewrite Hc, Hr.
  destruct (managed layout); simpl; [|done]. rewrite Hs. simpl. by rewrite Hp.
Qed.

Lemma boots_settled layout max n tree name r : settled tree -> current tree = Some name ->
  releases tree !! name = Some r -> boots layout max n tree = Ok (replicate n (Running (hsf_version r)), tree).
Proof.
  intros Hs Hc Hr. induction n as [|n IH]; [done|]. simpl.
  rewrite (boot_settled layout max tree name r) by done. simpl. by rewrite IH.
Qed.

Section Trial.
Variables (layout : Layout) (max : Z) (v p : string) (r rp : Release).
Hypothesis Hmanaged : managed layout = true.
Hypothesis Hmax : 0 <= max < 2147483647.
Hypothesis Hv : v <> "".
Hypothesis Hr : hsf_version r = v.

Lemma boot_counts tree n : on_trial tree v p n -> releases tree !! v = Some r -> 0 <= n < max ->
  exists tree', boot layout max good_io tree = Ok (Running v, tree') /\ on_trial tree' v p (n + 1) /\
    releases tree' = releases tree.
Proof.
  intros (Hc & s & Hs & Hp & Hprev & Hn) Hrel Hlt. unfold boot, CheckBoot.
  rewrite Hc, Hrel, Hr, Hmanaged, Hs. cbn [mbind res_bind negb].
  rewrite Hp, (proj2 (String.eqb_neq _ _)), String.eqb_refl by done. unfold next_attempt.
  rewrite (proj2 (Z.eqb_neq _ _)) by lia. cbn [negb mbind res_bind].
  rewrite (proj2 (Z.leb_le _ _)) by lia. simpl. eexists. split; [done|]. split; [|done].
  split; [done|]. eexists. split; [apply ReadState_written; simpl; lia|]. simpl. split_and!; [done..|lia].
Qed.

Lemma boot_rolls_back tree : on_trial tree v p max -> releases tree !! v = Some r -> p <> "" ->
  IsSafeVersionString p = true -> releases tree !! p = Some rp ->
  exists tree', boot layout max good_io tree = Ok (Restarting p, tree') /\ settled tree' /\
    current tree' = Some p /\ releases tree' = releases tree.
Proof.
  intros (Hc & s & Hs & Hp & Hprev & Hn) Hrel Hne Hsafe Hrp. unfold boot, CheckBoot.
  rewrite Hc, Hrel, Hr, Hmanaged, Hs. cbn [mbind res_bind negb].
  rewrite Hp, (proj2 (String.eqb_neq _ _)), String.eqb_refl by done. unfold next_attempt.
  rewrite (proj2 (Z.eqb_neq _ _)) by lia. cbn [negb mbind res_bind].
  rewrite (proj2 (Z.leb_gt _ _)) by lia. rewrite Hprev, (proj2 (String.eqb_neq _ _)) by done.
  unfold Activate. rewrite Hmanaged, Hsafe, Hrp, bool_decide_true by done. simpl.
  eexists. split; [done|]. split_and!; [|done..].
  eexists. split; [by apply ReadState_written|done].
Qed.

Lemma boots_count k tree : on_trial tree v p 0 -> releases tree !! v = Some r -> Z.of_nat k <= max ->
  exists tree', boots layout max k tree = Ok (replicate k (Running v), tree') /\
    on_trial tree' v p (Z.of_nat k) /\ releases tree' = releases tree.
Proof.
  intros Ht Hrel. induction k as [|k IH]; intros Hk; [by exists tree|].
  destruct IH as (tree1 & H1 & Ht1 & Hrs); [lia|].
  destruct (boot_counts tree1 (Z.of_nat k)) as (tree2 & H2 & Ht2 & Hrs2); [done|by rewrite Hrs|lia|].
  exists tree2. replace (S k) with (k + 1)%nat by lia. rewrite (boots_app _ _ _ _ _ _ _ H1). simpl.
  rewrite H2. simpl. split_and!; [by rewrite replicate_add|by replace (Z.of_nat (k + 1)) with (Z.of_nat k + 1) by lia|congruence].
Qed.

Lemma ConfirmHealthy_settles tree n : on_trial tree v p n ->
  exists tree', ConfirmHealthy layout good_io tree v = Ok tree' /\ settled tree' /\ current tree' = Some v /\
    releases tree' = releases tree.
Proof.
  intros (Hc & s & Hs & Hp & Hprev & Hn). unfold ConfirmHealthy. rewrite Hmanaged, Hs. cbn [mbind res_bind negb].
  rewrite Hp, (proj2 (String.eqb_neq _ _)), String.eqb_refl by done. simpl. eexists. split; [done|].
  split_and!; [|done..]. eexists. split; [by apply ReadState_written|done].
Qed.

End Trial.
(** ** What an installation does *)

Lemma find_release_good staging r : find_release staging = Some r -> looks_like_release r = true.
Proof.
  unfold find_release.
  assert (forall l found, (forall x, found = Some x -> looks_like_release x = true) ->
    forall x, foldl (fun found entry => if fst entry && looks_like_release (snd entry) then Some (snd entry) else found)
                found l = Some x -> looks_like_release x = true) as Hl.
  { induction l as [|[d e] l IH]; intros found Hf x; simpl; [apply Hf|]. apply IH.
    destruct d, (looks_like_release e) eqn:E; simpl; intros y Hy; simplify_eq; auto. }
  destruct (foldl _ None _) as [x|] eqn:E.
  - intros [= ->]. by apply (Hl (entries staging) None).
  - destruct (looks_like_release (top staging)) eqn:Et; [|done]. by intros [= <-].
Qed.

Lemma IsSafe_nonempty version : IsSafeVersionString version = true -> version <> "".
Proof. by intros H ->. Qed.

Lemma seed_keeps io l d f content : d !! f = Some content -> foldl (seed_one io) d l !! f = Some content.
Proof.
  revert d. induction l as [|[g c] l IH]; intros d H; [done|]. simpl. apply IH. unfold seed_one.
  case_bool_decide as E; [done|]. destruct (io_seed io g); [|done].
  rewrite lookup_insert_ne; [done|]. intros ->. apply E. by rewrite H.
Qed.

Lemma place_release_spec io (tree : Tree J) version r done tree' : place_release io tree version r = (done, tree') ->
  current tree' = current tree /\ data tree' = data tree /\ state_file tree' = state_file tree /\
  (forall name, name <> version -> releases tree' !! name = releases tree !! name) /\
  (done = true -> releases tree' !! version = Some r).
Proof.
  unfold place_release. intros H.
  destruct (io_rename io); [|destruct (io_copy io) as [[|] [partial|]]]; simplify_eq; simpl;
    split_and!; try done; intros; rewrite ?lookup_insert_eq, ?lookup_insert_ne, ?lookup_delete_ne by done; done.
Qed.

(** [fs::permissions] on the binary. *)
Definition marked (io : Io) (r : Release) : Release :=
  mkRelease (looks_like_release r) (executable r || io_chmod io) (shipped r) (hsf_version r).

(** An installation that got as far as the swap. *)
Definition activated (layout : Layout) (io : Io) (tree : Tree J) (version now : string) (before : State)
  (unpacked : Release) (tree' : Tree J) : Prop :=
  current tree' = Some version /\ releases tree' !! version = Some (marked io unpacked) /\
  state_file tree' = if io_state io then Holds (state_json (trial layout version now before)) else state_file tree.

Lemma Install_effects layout io tree version now archive result tree' :
  Install layout io tree version now archive = (result, tree') ->
  (forall name, name <> version -> releases tree' !! name = releases tree !! name) /\
  (forall f content, data tree !! f = Some content -> data tree' !! f = Some content) /\
  (result <> Ok tt -> current tree' = current tree /\ state_file tree' = state_file tree) /\
  (result = Ok tt -> managed layout = true /\ IsSafeVersionString version = true /\
    exists staging unpacked before, archive = Some staging /\ find_release staging = Some unpacked /\
      ReadState tree = Ok before /\ activated layout io tree version now before unpacked tree').
Proof.
  unfold Install. intros H.
  destruct (managed layout); simpl in H; [|by simplify_eq].
  destruct (IsSafeVersionString version) eqn:Hsafe; simpl in H; [|by simplify_eq].
  destruct archive as [staging|]; [|by simplify_eq].
  destruct (find_release staging) as [unpacked|] eqn:Hf; [|by simplify_eq].
  destruct (place_release io tree version unpacked) as [d tree1] eqn:Hplace.
  apply place_release_spec in Hplace as (Hc & Hd & Hst & Hothers & Hat).
  destruct d; [|simplify_eq; split_and!; try done; by rewrite Hd].
  set (tree2 := SeedDataDirectory io (make_executable io tree1 version) unpacked) in *.
  assert (forall name, name <> version -> releases tree2 !! name = releases tree !! name) as Ho2.
  { intros name Hne. simpl. rewrite lookup_alter_ne by done. by apply Hothers. }
  assert (forall f content, data tree !! f = Some content -> data tree2 !! f = Some content) as Hd2.
  { intros f content Hfc. apply seed_keeps. simpl. by rewrite Hd. }
  rewrite (ReadState_state tree2 tree Hst) in H.
  destruct (ReadState tree) as [before| |] eqn:Hr; [|simplify_eq; by split_and!..].
  unfold SwapCurrent in H.
  destruct (io_link io); simpl in H; [|simplify_eq; by split_and!].
  destruct (io_swap io); simpl in H; [|simplify_eq; by split_and!].
  injection H as <- <-. unfold WriteState. destruct (io_state io) eqn:Hio; cbn [snd releases data current state_file].
  all: split_and!; [done|done|done|]; intros _; split_and!; [done..|]; exists staging, unpacked, before.
  all: split_and!; [done..|]; unfold activated; rewrite Hio; split_and!; [done| |done]; simpl.
  all: rewrite lookup_alter_eq, Hat by done; reflexivity.
Qed.

(** ** Every operation, in any order and with any outcome *)

(** A process and its tree: the layout is the one detected when it started. *)
Inductive ota_step {Q : SortNewest} : Layout * Tree J -> Layout * Tree J -> Prop :=
| ota_boot layout tree layout' max io result tree' :
    current tree = Some (filename (active_release layout')) ->
    boot layout' max io tree = Ok (result, tree') -> ota_step (layout, tree) (layout', tree')
| ota_install layout tree io version now archive :
    version <> filename (active_release layout) -> current tree <> Some version ->
    (forall s, ReadState tree = Ok s -> previous s <> version) ->
    ota_step (layout, tree) (layout, (Install layout io tree version now archive).2)
| ota_confirm layout tree io running tree' :
    ConfirmHealthy layout io tree running = Ok tree' -> ota_step (layout, tree) (layout, tree')
| ota_prune layout tree keep s :
    current tree = Some (filename (active_release layout)) -> ReadState tree = Ok s ->
    ota_step (layout, tree) (layout, PruneReleases layout tree keep s).

Definition good_release (tree : Tree J) (name : string) : Prop :=
  exists r, releases tree !! name = Some r /\ looks_like_release r = true.

(** The link and the running release are gateways, and so is whatever a
    rollback would go to. *)
Definition ota_ok (sys : Layout * Tree J) : Prop :=
  (exists name, current sys.2 = Some name /\ good_release sys.2 name) /\
  good_release sys.2 (filename (active_release sys.1)) /\
  (forall s r, ReadState sys.2 = Ok s -> previous s <> "" -> releases sys.2 !! previous s = Some r ->
    looks_like_release r = true).

Lemma ota_ok_write layout io tree s : ota_ok (layout, tree) -> - 2 ^ 31 <= attempts s < 2 ^ 31 ->
  (previous s <> "" -> forall r, releases tree !! previous s = Some r -> looks_like_release r = true) ->
  ota_ok (layout, (WriteState io tree s).2).
Proof.
  intros (Hc & Ha & Hp) Hn Hs. unfold WriteState. destruct (io_state io); [|done].
  split_and!; [exact Hc|exact Ha|]. intros s' r Hr Hne. simpl in *.
  rewrite ReadState_written in Hr by done. injection Hr as <-. by apply Hs.
Qed.

Lemma ota_ok_layout layout layout' tree : ota_ok (layout, tree) ->
  good_release tree (filename (active_release layout')) -> ota_ok (layout', tree).
Proof. intros (Hc & _ & Hp) Ha. by split_and!. Qed.

Lemma ota_ok_current layout tree name : ota_ok (layout, tree) -> good_release tree name ->
  ota_ok (layout, mkTree (releases tree) (Some name) (data tree) (state_file tree)).
Proof. intros (_ & Ha & Hp) Hg. split_and!; [by exists name|exact Ha|exact Hp]. Qed.

Lemma CheckBoot_ok layout io tree running max result tree' : ota_ok (layout, tree) ->
  CheckBoot layout io tree running max = Ok (result, tree') -> ota_ok (layout, tree').
Proof.
  intros Hok H. unfold CheckBoot in H. destruct (managed layout); simpl in H; [|by simplify_eq].
  destruct (ReadState tree) as [s| |] eqn:Hs; [|done..]. pose proof (ReadState_range _ _ Hs) as Hrange.
  assert (previous s <> "" -> forall r, releases tree !! previous s = Some r -> looks_like_release r = true) as Hprev.
  { intros Hne r. destruct Hok as (_ & _ & Hp). by apply Hp. }
  cbn [mbind res_bind] in H. destruct (String.eqb (pending s) ""); [by simplify_eq|].
  destruct (String.eqb (pending s) running); cbn [negb] in H; [|injection H as _ <-; by apply ota_ok_write].
  unfold next_attempt in H. destruct (attempts s =? 2147483647) eqn:Hmax; [done|].
  apply Z.eqb_neq in Hmax. cbn [mbind res_bind] in H.
  destruct (attempts s + 1 <=? max); [injection H as _ <-; apply ota_ok_write; simpl; [done|lia|done]|].
  destruct (String.eqb (previous s) "") eqn:Hne; [injection H as _ <-; apply ota_ok_write; simpl; [done|lia|done]|].
  apply String.eqb_neq in Hne. unfold Activate in H.
  destruct (managed layout), (IsSafeVersionString (previous s)); simpl in H; try by simplify_eq.
  destruct (releases tree !! previous s) as [r|] eqn:Hr; simpl in H; [|by simplify_eq].
  unfold SwapCurrent in H. destruct (io_link io), (io_swap io); simpl in H; try by simplify_eq.
  injection H as _ <-. apply ota_ok_write; simpl; [|lia|by rewrite Hr].
  apply ota_ok_current; [done|]. exists r. split; [done|by apply Hprev].
Qed.

Lemma prune_lookup {Q : SortNewest} layout tree keep s name :
  name = filename (active_release layout) \/ name = previous s \/ name = pending s ->
  releases (PruneReleases layout tree keep s) !! name = releases tree !! name.
Proof.
  intros Hname. unfold PruneReleases. destruct (keep <=? 0); [done|]. simpl.
  generalize 0 as k, (releases tree) as rs. induction (InstalledVersions tree) as [|v l IH]; intros k rs; [done|].
  simpl. destruct (_ || _)%bool eqn:E; [apply IH|]. destruct (k + 1 <=? keep); rewrite IH; [done|].
  apply lookup_delete_ne. intros ->. rewrite !orb_false_iff, !String.eqb_neq in E. naive_solver.
Qed.

Lemma Install_ok layout io tree version now archive :
  version <> filename (active_release layout) -> current tree <> Some version ->
  (forall s, ReadState tree = Ok s -> previous s <> version) ->
  ota_ok (layout, tree) -> ota_ok (layout, (Install layout io tree version now archive).2).
Proof.
  intros Ha Hcur Hprev ((name & Hn & Hg) & Hact & Hp). simpl in *.
  destruct (Install layout io tree version now archive) as [result tree'] eqn:Hi. simpl.
  apply Install_effects in Hi as (Ho & _ & Hfail & Hdone).
  assert (forall x, x <> version -> good_release tree x -> good_release tree' x) as Hkeep.
  { intros x Hx (r & Hr & Hl). exists r. by rewrite Ho. }
  assert (forall s r, ReadState tree = Ok s -> previous s <> "" -> releases tree' !! previous s = Some r ->
    looks_like_release r = true) as Hp'.
  { intros s r Hs Hne Hr. rewrite Ho in Hr by (by apply Hprev). by apply (Hp s). }
  assert (name <> version) as Hnv by congruence.
  assert (result = Ok tt \/ result <> Ok tt) as [E|E] by (destruct result as [[]| |]; by (left + right)).
  - destruct Hdone as (_ & _ & staging & unpacked & before & _ & Hf & Hs & Hc' & Hat & Hst); [done|].
    split_and!; simpl; [|by apply Hkeep|].
    + exists version. split; [done|]. exists (marked io unpacked).
      split; [done|exact (find_release_good staging unpacked Hf)].
    + intros s r Hrs Hne Hr. destruct (io_state io).
      * rewrite (ReadState_state tree' (mkTree ∅ None ∅ (Holds (state_json (trial layout version now before)))) Hst),
          ReadState_written in Hrs by done. injection Hrs as <-. unfold trial in *. simpl in *.
        destruct (_ || _)%bool eqn:Eq; [by apply (Hp' before)|].
        destruct (Parse _); [|done]. rewrite Ho in Hr by done. destruct Hact as (x & Hx & Hl). congruence.
      * rewrite (ReadState_state tree' tree Hst) in Hrs. by apply (Hp' s).
  - destruct Hfail as [Hfc Hfs]; [done|]. split_and!; simpl; [|by apply Hkeep|].
    + exists name. rewrite Hfc. split; [done|by apply Hkeep].
    + intros s r Hs. apply Hp'. rewrite <- Hs. by apply ReadState_state.
Qed.

Lemma ConfirmHealthy_ok layout io tree running tree' : ota_ok (layout, tree) ->
  ConfirmHealthy layout io tree running = Ok tree' -> ota_ok (layout, tree').
Proof.
  intros Hok Hconf. unfold ConfirmHealthy in Hconf. destruct (managed layout); simpl in Hconf; [|by simplify_eq].
  destruct (ReadState tree) as [s| |] eqn:Hs; [|done..]. cbn [mbind res_bind] in Hconf.
  destruct (String.eqb (pending s) ""); [by simplify_eq|].
  destruct (String.eqb (pending s) running); simpl in Hconf; [|by simplify_eq].
  injection Hconf as <-. apply ota_ok_write; [done|done|]. intros Hne r Hr. destruct Hok as (_ & _ & Hp). exact (Hp s r Hs Hne Hr).
Qed.

Lemma PruneReleases_ok {Q : SortNewest} layout tree keep s :
  current tree = Some (filename (active_release layout)) -> ReadState tree = Ok s ->
  ota_ok (layout, tree) -> ota_ok (layout, PruneReleases layout tree keep s).
Proof.
  intros Hc Hs (_ & Hact & Hp). simpl in *.
  assert (good_release (PruneReleases layout tree keep s) (filename (active_release layout))) as Hact'.
  { destruct Hact as (r & Hr & Hl). exists r. split; [|done]. rewrite prune_lookup; auto. }
  assert (current (PruneReleases layout tree keep s) = current tree /\
          state_file (PruneReleases layout tree keep s) = state_file tree) as [Hpc Hps].
  { unfold PruneReleases. by destruct (keep <=? 0). }
  split_and!; simpl; [|done|].
  - exists (filename (active_release layout)). split; [congruence|done].
  - intros s' r Hs' Hne Hr. rewrite (ReadState_state _ tree Hps), Hs in Hs'. injection Hs' as <-.
    rewrite prune_lookup in Hr by auto. by apply (Hp s).
Qed.

Lemma ota_step_ok {Q : SortNewest} sys sys' : ota_step sys sys' -> ota_ok sys -> ota_ok sys'.
Proof.
  intros [layout tree layout' max io result tree' Hc Hb|layout tree io version now archive Ha Hcur Hprev
    |layout tree io running tree' Hconf|layout tree keep s Hc Hs] Hok.
  - destruct Hok as ((name & Hn & Hg) & Hok'). simpl in *. rewrite Hc in Hn. injection Hn as <-.
    unfold boot in Hb. rewrite Hc in Hb. destruct (releases tree !! _) as [r|] eqn:Hr.
    + inv_bind Hb. destruct v as [back tree1]. injection Hb as _ <-. eapply CheckBoot_ok; [|exact Hm].
      split_and!; [by eexists|done|apply Hok'].
    + destruct Hg as (r & Hg & _). congruence.
  - by apply Install_ok.
  - by apply (ConfirmHealthy_ok layout io tree running).
  - by apply PruneReleases_ok.
Qed.

(** ** Pruning *)

Definition protected (layout : Layout) (s : State) (name : string) : bool :=
  String.eqb name (filename (active_release layout)) || String.eqb name (previous s) || String.eqb name (pending s).

Lemma prune_fold layout keep s l k rs :
  (foldl (prune_one layout keep s) (k, rs) l).2
  = foldl (fun rs v => delete v rs) rs
      (drop (Z.to_nat (keep - k)) (List.filter (fun v => negb (protected layout s v)) l)).
Proof.
  revert k rs. induction l as [|v l IH]; intros k rs; simpl; [by rewrite drop_nil|].
  unfold protected at 1. destruct (_ || _)%bool eqn:E; simpl; [apply IH|].
  destruct (k + 1 <=? keep) eqn:Ek; reflect_bools; rewrite IH.
  - replace (Z.to_nat (keep - k)) with (S (Z.to_nat (keep - (k + 1)))) by lia. done.
  - replace (Z.to_nat (keep - k)) with O by lia. replace (Z.to_nat (keep - (k + 1))) with O by lia. done.
Qed.

Lemma delete_all (l : list string) (rs : gmap string Release) name :
  foldl (fun rs v => delete v rs) rs l !! name = if bool_decide (name ∈ l) then None else rs !! name.
Proof.
  revert rs. induction l as [|v l IH]; intros rs; simpl; [done|]. rewrite IH.
  destruct (decide (name = v)) as [->|Hne].
  - rewrite lookup_delete_eq. rewrite (bool_decide_true (v ∈ v :: l)) by left. by case_bool_decide.
  - rewrite lookup_delete_ne by done. apply not_eq_sym in Hne.
    repeat case_bool_decide; try done; set_solver.
Qed.
End Proofs.

Lemma sorted_filter {A} (R : A -> A -> Prop) (p : A -> bool) l :
  StronglySorted R l -> StronglySorted R (List.filter p l).
Proof.
  induction 1 as [|x l Hl IH Hx]; simpl; [constructor|]. destruct (p x); [|done].
  constructor; [done|]. by apply Forall_filter_bool.
Qed.

Lemma InstalledVersions_elem {J : JsonLib} {Q : SortNewest} (tree : Tree J) name :
  name ∈ InstalledVersions tree <-> is_Some (releases tree !! name) /\ parse_name name <> None.
Proof.
  unfold InstalledVersions. rewrite newest_perm, elem_of_filter_bool, bool_decide_eq_true.
  rewrite <- not_eq_None_Some.
  assert (name ∈ (map_to_list (releases tree)).*1 <-> is_Some (releases tree !! name)) as ->; [|tauto].
  rewrite list_elem_of_fmap. split.
  - intros ([k r] & -> & H). apply elem_of_map_to_list in H. by exists r.
  - intros [r Hr]. exists (name, r). split; [done|]. by apply elem_of_map_to_list.
Qed.

(** ** Shell words

    How a POSIX shell splits a command that uses quotes and backslashes and no
    other special character. *)
Definition shell_special (c : Z) : bool :=
  existsb (Z.eqb c) (b! "|&;<>()$`#*?[]~=%!{}" ++ [34; 9; 10]).

Fixpoint shell_words (text : list Z) (quoted : bool) (word : option (list Z)) : option (list (list Z)) :=
  match text with
  | [] => if quoted then None else Some (match word with Some w => [w] | None => [] end)
  | c :: rest =>
      if quoted then
        if c =? 39 then shell_words rest false word else shell_words rest true (Some (default [] word ++ [c]))
      else if c =? 39 then shell_words rest true (Some (default [] word))
      else if c =? 32 then
        app (match word with Some w => [w] | None => [] end) <$> shell_words rest false None
      else if c =? 92 then
        match rest with
        | [] => None
        | d :: rest' => shell_words rest' false (Some (default [] word ++ [d]))
        end
      else if shell_special c then None
      else shell_words rest false (Some (default [] word ++ [c]))
  end.

Lemma shell_quoted text w rest :
  shell_words (List.concat (map (fun c => if c =? 39 then [39; 92; 39; 39] else [c]) text) ++ 39 :: rest) true (Some w)
  = shell_words rest false (Some (w ++ text)).
Proof.
  revert w. induction text as [|c text IH]; intros w; simpl; [by rewrite app_nil_r|].
  destruct (c =? 39) eqn:E; simpl.
  - apply Z.eqb_eq in E as ->. rewrite IH. by rewrite <- app_assoc.
  - rewrite E, IH. by rewrite <- app_assoc.
Qed.

Lemma shell_Quote text rest : shell_words (Quote text ++ rest) false None = shell_words rest false (Some text).
Proof.
  unfold Quote. rewrite <- app_comm_cons. change (shell_words (39 :: ?x) false None) with (shell_words x true (Some [])).
  rewrite <- app_assoc. simpl app. by rewrite shell_quoted.
Qed.

(** A word of ordinary characters, then a blank. *)
Definition plain_word (w : list Z) : bool :=
  negb (length w =? 0)%nat
  && forallb (fun c => negb (c =? 39) && negb (c =? 32) && negb (c =? 92) && negb (shell_special c)) w.

Lemma shell_plain w rest : plain_word w = true ->
  shell_words (w ++ 32 :: rest) false None = cons w <$> shell_words rest false None.
Proof.
  unfold plain_word. rewrite andb_true_iff. intros [Hne Hw].
  assert (forall acc, shell_words (w ++ 32 :: rest) false (Some acc)
          = cons (acc ++ w) <$> shell_words rest false None) as H.
  { clear Hne. induction w as [|c w IH]; intros acc; [by rewrite app_nil_r|].
    simpl in Hw. rewrite !andb_true_iff, !negb_true_iff in Hw. destruct Hw as ((((H1 & H2) & H3) & H4) & Hw).
    cbn [app shell_words]. rewrite H1, H2, H3, H4. simpl. rewrite (IH Hw). by rewrite <- app_assoc. }
  destruct w as [|c w]; [done|].
  simpl in Hw. rewrite !andb_true_iff, !negb_true_iff in Hw. destruct Hw as ((((H1 & H2) & H3) & H4) & Hw).
  specialize (H []). cbn [app shell_words] in H |- *. rewrite H1, H2, H3, H4 in *. exact H.
Qed.

(** ** Properties *)

(** The reference order, for the examples. *)
Definition not_older (a b : string) : bool := negb (newer_name b a).

Lemma not_older_total x y : not_older x y = false -> not_older y x = true.
Proof.
  unfold not_older, newer_name. destruct (parse_name x) as [u|], (parse_name y) as [v|]; try done.
  rewrite negb_false_iff, Z.ltb_lt, negb_true_iff, Z.ltb_ge. rewrite (proj1 ordered_Compare v u). lia.
Qed.

Lemma not_older_trans x y z : parse_name y <> None ->
  not_older x y = true -> not_older y z = true -> not_older x z = true.
Proof.
  unfold not_older, newer_name. destruct (parse_name x) as [u|], (parse_name y) as [v|], (parse_name z) as [w|]; try done.
  rewrite !negb_true_iff, !Z.ltb_ge. intros _ H1 H2. by apply (proj2 ordered_Compare w v u).
Qed.

Lemma newest_by_sort l : Forall (fun n => parse_name n <> None) l ->
  StronglySorted (fun a b => newer_name b a = false) (sort_by not_older l).
Proof.
  intros Hl. eapply StronglySorted_impl, (sort_by_sorted _ (fun n => parse_name n <> None)); [| | |exact Hl].
  - intros x y. apply negb_true_iff.
  - intros x y _ _. apply not_older_total.
  - intros x y z _ Hy _. by apply not_older_trans.
Qed.

Definition demo_sort : SortNewest := {|
  newest := sort_by not_older; newest_perm := sort_by_perm not_older; newest_sorted := newest_by_sort |}.

Definition demo_layout (active : string) : Layout :=
  Detect Some (fun _ => true) ["srv"; "releases"; active; "bin"] None.
Definition demo_release (version : string) : Release := mkRelease true true [("log_definitions.json", [1])] version.
Definition demo_tree : Tree jtree_json :=
  mkTree (J:=jtree_json) (<["1.0.0" := demo_release "1.0.0"]> ∅) (Some "1.0.0") ∅ Absent.
Definition demo_staging (version : string) : Staging :=
  mkStaging [(false, demo_release ""); (true, demo_release version)] (mkRelease false false [] "").

(** C12: An update that never survives is undone.  Take an installation that
    succeeded, with whatever detours, and could write its record of the trial;
    let the release in the archive report the version that was asked for, and
    let the release that was running carry a safe version name other than that.
    Then, as long as the starts can read and write the state file and move the
    link, every start of the new release that is not confirmed counts one
    attempt, the start after [max] of them puts [current] back to the release
    that was running, whose files are untouched, and from then on that release
    starts for ever.  A release that is confirmed once within its attempts is
    never rolled back. *)
Theorem failed_update_is_undone (J : JsonLib) layout max io tree version now staging unpacked tree1 rp :
  let p := filename (active_release layout) in
  0 <= max < 2147483647 ->
  Install layout io tree version now (Some staging) = (Ok tt, tree1) -> io_state io = true ->
  find_release staging = Some unpacked -> hsf_version unpacked = version ->
  parse_name p <> None -> p <> version -> IsSafeVersionString p = true -> releases tree !! p = Some rp ->
  current tree1 = Some version /\
  (exists tree2,
    boots layout max (S (Z.to_nat max)) tree1
      = Ok (replicate (Z.to_nat max) (Running version) ++ [Restarting p], tree2) /\
    current tree2 = Some p /\ releases tree2 !! p = Some rp /\
    forall n, boots layout max n tree2 = Ok (replicate n (Running (hsf_version rp)), tree2)) /\
  (forall k rs tree2, Z.of_nat k <= max -> boots layout max k tree1 = Ok (rs, tree2) ->
    exists tree3, ConfirmHealthy layout good_io tree2 version = Ok tree3 /\
      forall n, boots layout max n tree3 = Ok (replicate n (Running version), tree3)).
Proof.
  intros p Hmax Hi Hio Hf Hver Hp Hne Hpsafe Hrp.
  apply Install_effects in Hi as (Ho & _ & _ & Hdone).
  destruct Hdone as (Hm & Hsafe & st & u & before & [= <-] & Hf' & Hs & Hc & Hat & Hst); [done|].
  rewrite Hf in Hf'. injection Hf' as <-. rewrite Hio in Hst.
  pose proof (IsSafe_nonempty _ Hsafe) as Hv0. pose proof (IsSafe_nonempty _ Hpsafe) as Hp0.
  assert (on_trial tree1 version p 0) as Ht.
  { split; [done|]. exists (trial layout version now before). split.
    - rewrite (ReadState_state _ (mkTree ∅ None ∅ (Holds (state_json (trial layout version now before)))) Hst).
      by apply ReadState_written.
    - split_and!; [done| |done]. unfold trial, p, parse_name in *. simpl. destruct (Parse _); [|done].
      by rewrite !(proj2 (String.eqb_neq _ _)). }
  split_and!; [done| |].
  - destruct (boots_count layout max version p (marked io unpacked) Hm Hmax Hv0 Hver (Z.to_nat max) tree1)
      as (tree2 & H2 & Ht2 & Hrs2); [done|done|lia|]. rewrite Z2Nat.id in Ht2 by lia.
    destruct (boot_rolls_back layout max version p (marked io unpacked) rp Hm Hmax Hv0 Hver tree2)
      as (tree3 & H3 & Hset & Hc3 & Hrs3); [done|by rewrite Hrs2|done|done|by rewrite Hrs2, Ho|].
    assert (releases tree3 !! p = Some rp) as Hrp3 by (by rewrite Hrs3, Hrs2, Ho).
    exists tree3. split_and!; [|done|done|by intros; apply (boots_settled _ _ _ _ p)].
    replace (S (Z.to_nat max)) with (Z.to_nat max + 1)%nat by lia. rewrite (boots_app _ _ _ _ _ _ _ H2). simpl. by rewrite H3.
  - intros k rs tree2 Hk Hb.
    destruct (boots_count layout max version p (marked io unpacked) Hm Hmax Hv0 Hver k tree1)
      as (tree2' & H2 & Ht2 & Hrs2); [done|done|lia|]. rewrite Hb in H2. injection H2 as _ ->.
    destruct (ConfirmHealthy_settles layout version p Hm Hv0 tree2' (Z.of_nat k) Ht2) as (tree3 & H3 & Hset & Hc3 & Hrs3).
    exists tree3. split; [done|]. intros n. rewrite <- Hver.
    apply (boots_settled layout max n tree3 version (marked io unpacked)); [done|done|]. by rewrite Hrs3, Hrs2.
Qed.

Lemma failed_update_is_undone_witness :
  let layout := demo_layout "1.0.0" in
  let io := mkIo false (true, None) false (fun _ => false) true true true in
  exists tree1, Install layout io demo_tree "1.1.0" "" (Some (demo_staging "1.1.0")) = (Ok tt, tree1) /\
    exists tree2,
      boots layout 2 3 tree1 = Ok ([Running "1.1.0"; Running "1.1.0"; Restarting "1.0.0"], tree2) /\
      forall n, boots layout 2 n tree2 = Ok (replicate n (Running "1.0.0"), tree2).
Proof.
  intros layout io. eexists. split; [reflexivity|].
  edestruct (failed_update_is_undone jtree_json layout 2 io demo_tree "1.1.0" "" (demo_staging "1.1.0")
    (demo_release "1.1.0")) as (_ & (tree2 & H2 & _ & _ & H3) & _).
  1: split; reflexivity || discriminate. 1: reflexivity. 1: reflexivity. 1: reflexivity. 1: reflexivity.
  1: vm_compute; discriminate. 1: discriminate. 1: reflexivity. 1: reflexivity.
  exists tree2. split; [exact H2|exact H3].
Defined.

(** C13: The installation is never bricked: whatever starts, installations,
    confirmations and prunings happen in whatever order, and whichever of their
    file operations fail or are cut off by a crash, [current] names a release
    directory with a gateway binary in it, and so does the running release and
    the one a rollback would go to; provided no installation is asked to
    replace a release that is running, current or the rollback target. *)
Theorem ota_never_bricked (J : JsonLib) (Q : SortNewest) layout tree sys' :
  ota_ok (layout, tree) -> rtc ota_step (layout, tree) sys' -> ota_ok sys'.
Proof. intros Hok Hrtc. revert Hok. induction Hrtc as [|x y z Hxy _ IH]; [done|]. intros. by apply IH, (ota_step_ok x y). Qed.

Lemma demo_ota_ok : ota_ok (demo_layout "1.0.0", demo_tree).
Proof.
  assert (good_release demo_tree "1.0.0") as Hg by (by exists (demo_release "1.0.0")).
  split_and!; simpl; [by exists "1.0.0"|exact Hg|]. intros s r [= <-]. by simpl.
Qed.

Lemma ota_never_bricked_witness :
  let io := mkIo false (false, Some (mkRelease false false [] "")) true (fun _ => true) true true true in
  let broken := (Install (demo_layout "1.0.0") io demo_tree "1.1.0" "" (Some (demo_staging "1.1.0"))).2 in
  releases broken !! "1.1.0" = Some (mkRelease false false [] "") /\ ota_ok (demo_layout "1.0.0", broken).
Proof.
  intros io broken. split; [reflexivity|].
  refine (ota_never_bricked jtree_json demo_sort (demo_layout "1.0.0") demo_tree (demo_layout "1.0.0", broken)
    demo_ota_ok _).
  apply rtc_once. apply (ota_install (Q:=demo_sort) (demo_layout "1.0.0") demo_tree); [discriminate|discriminate|].
  intros s [= <-]. discriminate.
Defined.

(** Without that proviso it can be: the updater accepts the running version
    (see [UpdateManager]), and a failed copy then leaves nothing to start. *)
Example reinstall_can_brick :
  let io := mkIo false (false, None) true (fun _ => true) true true true in
  let tree := (Install (demo_layout "1.0.0") io demo_tree "1.0.0" "" (Some (demo_staging "1.0.0"))).2 in
  boot (demo_layout "1.0.0") 2 good_io tree = Ok (NoRelease, tree).
Proof. reflexivity. Qed.

(** [current] moves before the trial is recorded: cut off in between, a release
    that never survives is started for ever. *)
Example swap_before_trial :
  let io := mkIo true (true, None) true (fun _ => true) true true false in
  let tree := (Install (demo_layout "1.0.0") io demo_tree "1.1.0" "" (Some (demo_staging "1.1.0"))).2 in
  forall n, boots (demo_layout "1.0.0") 2 n tree = Ok (replicate n (Running "1.1.0"), tree).
Proof.
  intros io tree n. apply (boots_settled (demo_layout "1.0.0") 2 n tree "1.1.0" (demo_release "1.1.0")).
  - by exists no_state.
  - reflexivity.
  - reflexivity.
Qed.

(** Pruning removes only old releases: the running one, the rollback target
    and the one on trial stay, and whatever is not a version; of the others
    exactly [keep] remain (all, if there are no more), and none that is removed
    is newer than one that remains. *)
Theorem prune_keeps_newest (J : JsonLib) (Q : SortNewest) layout (tree : Tree J) keep s : 0 < keep ->
  let tree' := PruneReleases layout tree keep s in
  let others := List.filter (fun v => negb (protected layout s v)) (InstalledVersions tree) in
  (forall name, protected layout s name = true \/ parse_name name = None ->
     releases tree' !! name = releases tree !! name) /\
  (forall name, releases tree' !! name = if bool_decide (name ∈ drop (Z.to_nat keep) others) then None
                                         else releases tree !! name) /\
  (forall kept removed, kept ∈ take (Z.to_nat keep) others -> removed ∈ drop (Z.to_nat keep) others ->
     newer_name removed kept = false) /\
  (forall name, name ∈ others <-> is_Some (releases tree !! name) /\ parse_name name <> None /\
                                  protected layout s name = false).
Proof.
  intros Hk tree' others.
  assert (forall name, releases tree' !! name = if bool_decide (name ∈ drop (Z.to_nat keep) others) then None
                                                else releases tree !! name) as Hall.
  { intros name. unfold tree', PruneReleases. rewrite (proj2 (Z.leb_gt _ _)) by lia. simpl.
    by rewrite prune_fold, Z.sub_0_r, delete_all. }
  assert (StronglySorted (fun a b => newer_name b a = false) others) as Hsorted.
  { apply sorted_filter, newest_sorted, Forall_forall. intros x Hx.
    apply elem_of_filter_bool in Hx as [Hx _]. apply bool_decide_eq_true in Hx. by apply not_eq_None_Some. }
  assert (forall name, name ∈ others <-> is_Some (releases tree !! name) /\ parse_name name <> None /\
    protected layout s name = false) as Hin.
  { intros name. unfold others. rewrite elem_of_filter_bool, negb_true_iff, InstalledVersions_elem. naive_solver. }
  split_and!; [|exact Hall| |exact Hin].
  - intros name Hname. rewrite Hall, bool_decide_false; [done|]. intros Hd.
    assert (name ∈ others) as Ho by (rewrite <- (take_drop (Z.to_nat keep) others); set_solver).
    apply Hin in Ho.
    destruct Ho as (_ & Hp & Hpr). destruct Hname; congruence.
  - intros x y Hx Hy. rewrite <- (take_drop (Z.to_nat keep) others) in Hsorted.
    exact (StronglySorted_app_1_elem_of _ _ _ x y Hsorted Hx Hy).
Qed.

Lemma prune_keeps_newest_witness :
  let tree := mkTree (J:=jtree_json)
    (<["1.0.0" := demo_release "1.0.0"]> (<["0.9.0" := demo_release "0.9.0"]> (<["0.8.0" := demo_release "0.8.0"]>
      (<["0.10.0" := demo_release "0.10.0"]> ∅)))) (Some "1.0.0") ∅ Absent in
  let tree' := PruneReleases (Q:=demo_sort) (demo_layout "1.0.0") tree 1 no_state in
  releases tree' !! "1.0.0" = Some (demo_release "1.0.0") /\
  releases tree' !! "0.10.0" = Some (demo_release "0.10.0") /\ releases tree' !! "0.9.0" = None /\
  releases tree' !! "0.8.0" = None.
Proof.
  intros tree tree'.
  destruct (prune_keeps_newest jtree_json demo_sort (demo_layout "1.0.0") tree 1 no_state ltac:(lia)) as (H1 & H2 & _).
  split; [|split; [|split]].
  - refine (eq_trans (H1 "1.0.0" _) _); [left; reflexivity|vm_compute; reflexivity].
  - refine (eq_trans (H2 "0.10.0") _). vm_compute. reflexivity.
  - refine (eq_trans (H2 "0.9.0") _). vm_compute. reflexivity.
  - refine (eq_trans (H2 "0.8.0") _). vm_compute. reflexivity.
Defined.

(** The command that unpacks an archive is, to the shell, exactly five
    words, whatever characters the two paths hold: nothing in a path is run. *)
Theorem extract_command_words archivePath destinationDir :
  exists flag, (flag = b! "-xf" \/ flag = b! "-xzf") /\
  shell_words (extract_command archivePath destinationDir) false None
  = Some [b! "tar"; flag; archivePath; b! "-C"; destinationDir].
Proof.
  unfold extract_command.
  exists (if (4 <? length archivePath)%nat && ends_with (b! ".zip") archivePath then b! "-xf" else b! "-xzf").
  split; [destruct (_ && _)%bool; auto|].
  assert (shell_words (b! "-C" ++ 32 :: Quote destinationDir) false None = Some [b! "-C"; destinationDir]) as Hd.
  { rewrite shell_plain by done. rewrite <- (app_nil_r (Quote _)), shell_Quote. done. }
  assert (shell_words (Quote archivePath ++ 32 :: b! "-C" ++ 32 :: Quote destinationDir) false None
          = Some [archivePath; b! "-C"; destinationDir]) as Ha.
  { rewrite shell_Quote. cbn [shell_words Z.eqb Pos.eqb]. by rewrite Hd. }
  assert (forall flag, plain_word flag = true ->
    shell_words (b! "tar" ++ 32 :: flag ++ 32 :: Quote archivePath ++ 32 :: b! "-C" ++ 32 :: Quote destinationDir) false None
    = Some [b! "tar"; flag; archivePath; b! "-C"; destinationDir]) as Ht.
  { intros flag Hflag. rewrite shell_plain by done. rewrite shell_plain by done. by rewrite Ha. }
  destruct (_ && _)%bool; by apply Ht.
Qed.
