(* ===== verification/UpdateManager.v ===== *)
(** * Over-the-air updates (src/update/UpdateManager.cpp)

    The manager's state, the requests a browser can make, and the worker thread
    as a step relation over its critical sections, so that requests interleave
    with a check or an installation wherever the mutex lets them.  The release
    server and the downloaded file are any; the configuration, the disk with
    the key file and [tar] are the surroundings a run is given.  An exception nobody
    catches is [None]: on the worker thread it ends the process. *)

From stdpp Require Import relations.
From S2P Require Import Prelude Words Text Float Json Version Sha256 Signature Installer.

(** ** Addresses *)

Definition kUpperHex : list Z := b! "0123456789ABCDEF".

Definition url_safe (c : Z) : bool := is_alnum c || (c =? 45) || (c =? 95) || (c =? 46) || (c =? 126).

Definition UrlEncode (text : list Z) : list Z :=
  List.concat (map (fun c => if url_safe c then [c]
                             else [37; nth (Z.to_nat (Z.shiftr c 4)) kUpperHex 0;
                                   nth (Z.to_nat (Z.land c 0x0F)) kUpperHex 0]) text).

(** [find(c)], [find_last_of(c)] and [find(pattern)]. *)
Fixpoint find_char (c : Z) (text : list Z) : option nat :=
  match text with
  | [] => None
  | x :: rest => if x =? c then Some O else S <$> find_char c rest
  end.

Fixpoint find_last_char (c : Z) (text : list Z) : option nat :=
  match text with
  | [] => None
  | x :: rest =>
      match find_last_char c rest with
      | Some k => Some (S k)
      | None => if x =? c then Some O else None
      end
  end.

Fixpoint find_text (pattern text : list Z) : option nat :=
  if starts_with pattern text then Some O
  else match text with [] => None | _ :: rest => S <$> find_text pattern rest end.

Definition ResolveUrl (base reference : list Z) : list Z :=
  match reference with
  | [] => reference
  | front :: _ =>
      if starts_with (b! "http://") reference || starts_with (b! "https://") reference then reference
      else match find_text (b! "://") base with
      | None => reference
      | Some schemeEnd =>
          if front =? 47 then
            match find_char 47 (drop (schemeEnd + 3) base) with
            | None => base
            | Some hostEnd => take (schemeEnd + 3 + hostEnd) base
            end ++ reference
          else match find_last_char 47 base with
          | None => base ++ b! "/" ++ reference
          | Some lastSlash =>
              if (lastSlash <? schemeEnd + 3)%nat then base ++ b! "/" ++ reference
              else
                let directory := take (lastSlash + 1) base in
                match find_char 63 directory with
                | Some question => take question directory
                | None => directory
                end ++ reference
          end
      end
  end.

(** A slash in the query string of the server's address is taken for the last
    one of its path. *)
Example resolve_slash_in_query :
  ResolveUrl (b! "https://h/u/version.json?site=a/b") (b! "pkg.tgz") = b! "https://h/u/version.jsonpkg.tgz".
Proof. reflexivity. Qed.

(** ** Data *)

(** The fields of [UpdateConfig] that decide anything here. *)
Record UpdateConfig := mkUpdateConfig {
  upd_enabled : bool; upd_url : list Z; upd_channel : string; require_signature : bool;
  public_key_path : list Z
}.

Record Manifest := mkManifest {
  version : string; platform : string; download_url : list Z; sha256 : string; signature : string;
  release_date : string; min_version : string; mandatory : bool; release_notes : list string; size_bytes : Z
}.
Definition no_manifest : Manifest := mkManifest "" "" [] "" "" "" "" false [] 0.

Inductive UpdateState :=
  sDisabled | sIdle | sChecking | sAvailable | sDownloading | sVerifying | sInstalling | sReady | sError.

Definition StateName (s : UpdateState) : string :=
  match s with
  | sDisabled => "disabled" | sIdle => "idle" | sChecking => "checking" | sAvailable => "available"
  | sDownloading => "downloading" | sVerifying => "verifying" | sInstalling => "installing"
  | sReady => "ready" | sError => "error"
  end.

Inductive Command := kNone | kCheck | kInstall.

#[global] Instance UpdateState_eq_dec : EqDecision UpdateState.
Proof. solve_decision. Defined.
#[global] Instance Command_eq_dec : EqDecision Command.
Proof. solve_decision. Defined.

Record UpdateManager := mkManager {
  config : UpdateConfig; layout : Layout; device_platform : string; currentVersion : string;
  state : UpdateState; error : string; lastCheck : string; dismissed : string; available : Manifest;
  progressBytes : Z; progressTotal : Z; command : Command; commandVersion : string; dataDir : list Z
}.

(** ** The manifest *)

Section Manifest.
Context {J : JsonLib}.

Definition ReadNotes (node : json) : list string :=
  match view node with
  | JArray items =>
      List.concat (map (fun item => match view item with JString s => [s] | _ => [] end) items)
  | JString s => [s]
  | _ => []
  end.

(** What the server answered: [None] for a body that is not JSON. *)
Record RestResponse := mkResponse { resp_ok : bool; resp_status : Z; resp_error : string; resp_body : option json }.

(** The fields that describe the build for this platform: the top level, or
    the platform's entry completed with the top level's other fields. *)
Definition platform_entry (platform : string) (root : list (string * json))
  : option (res (list (string * json))) :=
  match member root "platforms" with
  | None => Some (Ok root)
  | Some p =>
      match view p with
      | JObject platforms =>
          match member platforms platform with
          | None => Some (Err ("the manifest lists no build for " ++ platform)%string)
          | Some e =>
              let inherited := List.filter (fun kv => negb (String.eqb (fst kv) "platforms")) root in
              match view e with
              | JObject own =>
                  Some (Ok (own ++ List.filter (fun kv => negb (bool_decide (is_Some (member own (fst kv))))) inherited))
              | JNull => match inherited with [] => None | _ => Some (Ok inherited) end
              | _ => None
              end
          end
      | _ => Some (Ok root)
      end
  end.

Definition not_available (entry : list (string * json)) : bool :=
  match member entry "available" with
  | Some x => match view x with JBool b => negb b | _ => false end
  | None => false
  end.

Definition read_manifest (url : list Z) (devicePlatform current : string) (entry : list (string * json))
  : option (res Manifest) :=
  version ← field_string entry "version" "";
  platform ← field_string entry "platform" devicePlatform;
  reference ← (if bool_decide (is_Some (member entry "download_url"))
               then field_string entry "download_url" "" else field_string entry "url" "");
  sha256 ← field_string entry "sha256" "";
  signature ← field_string entry "signature" "";
  release_date ← field_string entry "release_date" "";
  min_version ← field_string entry "min_version" "";
  mandatory ← field_bool entry "mandatory" false;
  match (size ← field_int 64 entry "size" 0;
         match size with
         | Some n => field_int 64 entry "size_bytes" n
         | None => Ok None
         end) with
  | Ok None => None
  | Err e => Some (Err e)
  | Fault => Some Fault
  | Ok (Some size_bytes) =>
      let notes := match member entry "release_notes" with Some node => ReadNotes node | None => [] end in
      if String.eqb version "" then Some (Err "the manifest has no version field")
      else Some (Ok (mkManifest version platform (ResolveUrl url (bytes_of reference)) sha256 signature release_date
        min_version
        (mandatory || (negb (String.eqb min_version "") && IsNewer (bytes_of min_version) (bytes_of current)))
        notes size_bytes))
  end.

Definition FetchManifest (config : UpdateConfig) (devicePlatform current : string) (response : RestResponse)
  : option (res Manifest) :=
  if bool_decide (upd_url config = []) then Some (Err "no update server configured (update.url)")
  else if negb (resp_ok response) then
    Some (Err (if String.eqb (resp_error response) ""
               then "update server returned HTTP " ++ to_string (resp_status response) else resp_error response)%string)
  else match resp_body response with
  | None => Some (Err "update server did not return JSON")
  | Some body =>
      match view body with
      | JObject root =>
          match platform_entry devicePlatform root with
          | None => None
          | Some (Err e) => Some (Err e)
          | Some Fault => Some Fault
          | Some (Ok entry) =>
              if not_available entry then Some (Ok no_manifest)
              else read_manifest (upd_url config) devicePlatform current entry
          end
      | _ => Some (Err "update manifest is not a JSON object")
      end
  end.

(** A version that is a number, and a platform entry that is no object, are
    exceptions on the worker thread. *)
End Manifest.

(** The request that fetches it. *)
Definition manifest_request (config : UpdateConfig) (platform current machine_id : string) : list Z :=
  upd_url config ++ match find_char 63 (upd_url config) with None => b! "?" | Some _ => b! "&" end
  ++ b! "platform=" ++ UrlEncode (bytes_of platform) ++ b! "&channel=" ++ UrlEncode (bytes_of (upd_channel config))
  ++ b! "&version=" ++ UrlEncode (bytes_of current) ++ b! "&device_id=" ++ UrlEncode (bytes_of machine_id).

(** ** The start of the process *)

(** The healthy half of the boot lifecycle, once the process has lasted. *)
Definition RunBootCheck {J : JsonLib} {Q : SortNewest} (layout : Layout) (io : Io) (tree : Tree J)
  (runningVersion : string) (keep : Z) : res (Tree J) :=
  if negb (managed layout) then Ok tree
  else
    s ← ReadState tree;
    if String.eqb (pending s) "" || negb (String.eqb (pending s) runningVersion) then Ok tree
    else
      tree1 ← ConfirmHealthy layout io tree runningVersion;
      s1 ← ReadState tree1;
      Ok (PruneReleases layout tree1 keep s1).

(** What [Configure] shows of a rollback before this start. *)
Definition rolled_back_from (s : State) : string :=
  if String.prefix "rolled-back:" (last_result s)
  then String.substring 12 (String.length (last_result s) - 12) (last_result s) else "".

Lemma rolled_back_from_read p a t v : rolled_back_from (mkState "" p a t ("rolled-back:" ++ v)) = v.
Proof.
  assert (String.substring 0 (String.length v) v = v) as H by (induction v as [|c v IH]; simpl; by f_equal).
  unfold rolled_back_from. simpl. rewrite Nat.sub_0_r. destruct v; exact H.
Qed.

(** ** Requests *)

Definition with_config (m : UpdateManager) (cfg : UpdateConfig) (s : UpdateState) : UpdateManager :=
  mkManager cfg (layout m) (device_platform m) (currentVersion m) s (error m) (lastCheck m) (dismissed m)
    (available m) (progressBytes m) (progressTotal m) (command m) (commandVersion m) (dataDir m).
Definition with_state (m : UpdateManager) (s : UpdateState) (e : string) : UpdateManager :=
  mkManager (config m) (layout m) (device_platform m) (currentVersion m) s e (lastCheck m) (dismissed m)
    (available m) (progressBytes m) (progressTotal m) (command m) (commandVersion m) (dataDir m).
Definition with_command (m : UpdateManager) (c : Command) (v : string) : UpdateManager :=
  mkManager (config m) (layout m) (device_platform m) (currentVersion m) (state m) (error m) (lastCheck m)
    (dismissed m) (available m) (progressBytes m) (progressTotal m) c v (dataDir m).
Definition with_offer (m : UpdateManager) (now dis : string) (offer : Manifest) : UpdateManager :=
  mkManager (config m) (layout m) (device_platform m) (currentVersion m) (state m) (error m) now dis
    offer (progressBytes m) (progressTotal m) (command m) (commandVersion m) (dataDir m).
Definition with_progress (m : UpdateManager) (received total : Z) : UpdateManager :=
  mkManager (config m) (layout m) (device_platform m) (currentVersion m) (state m) (error m) (lastCheck m)
    (dismissed m) (available m) received total (command m) (commandVersion m) (dataDir m).

(** [cfg] is the present [update] section; its [install_root] stays the same. *)
Definition RefreshConfig (m : UpdateManager) (cfg : UpdateConfig) : UpdateManager :=
  with_config m cfg
    (if upd_enabled cfg && bool_decide (state m = sDisabled) then sIdle
     else if negb (upd_enabled cfg) && negb (bool_decide (state m = sDisabled)) then sDisabled
     else state m).

Definition CheckNow (m : UpdateManager) (cfg : UpdateConfig) : UpdateManager :=
  let m1 := RefreshConfig m cfg in
  if upd_enabled cfg then with_command m1 kCheck (commandVersion m1) else m1.

Definition busy (s : UpdateState) : bool :=
  match s with sDownloading | sVerifying | sInstalling | sReady => true | _ => false end.

Definition RequestInstall (m : UpdateManager) (cfg : UpdateConfig) (v : string) : res unit * UpdateManager :=
  let m1 := RefreshConfig m cfg in
  if negb (upd_enabled cfg) then (Err "over-the-air updates are switched off (update.enabled)", m1)
  else if negb (managed (layout m1)) then (Err (reason (layout m1)), m1)
  else if String.eqb (version (available m1)) "" || negb (String.eqb (version (available m1)) v)
  then (Err ("no manifest for version " ++ v ++ "; run a check first")%string, m1)
  else if busy (state m1) then (Err "an update is already in progress", m1)
  else (Ok tt, with_command m1 kInstall v).

Definition Dismiss (m : UpdateManager) (v : string) : res unit * UpdateManager :=
  if negb (String.eqb (version (available m)) v)
  then (Err ("version " ++ v ++ " is not the one being offered")%string, m)
  else if mandatory (available m) then (Err "this is a mandatory update and cannot be postponed", m)
  else (Ok tt, with_offer m (lastCheck m) v (available m)).

Definition SetState (m : UpdateManager) (s : UpdateState) (e : string) : UpdateManager := with_state m s e.

(** ** Status *)

Section Status.
Context {J : JsonLib}.

Definition have_offer (m : UpdateManager) : bool :=
  negb (String.eqb (version (available m)) "")
  && IsNewer (bytes_of (version (available m))) (bytes_of (currentVersion m)).

Definition jstr (s : string) : json := inject (JString s).
Definition jbool (b : bool) : json := inject (JBool b).
Definition jint (z : Z) : json := inject (JInt z).

(** [static_cast<int>((progressBytes_ * 100) / progressTotal_)], a quotient
    towards zero; a [Fault] where the product overflows. *)
Definition progress_percent (bytes total : Z) : res Z :=
  if 0 <? total then
    if (- 2 ^ 63 <=? bytes * 100) && (bytes * 100 <? 2 ^ 63) then Ok (to_int32 (Z.quot (bytes * 100) total)) else Fault
  else Ok (-1).

Definition StatusJsonUnlocked (m : UpdateManager) (signature_backend rolledBackFrom : string)
  : res (list (string * json)) :=
  let offer := available m in
  percent ← (if bool_decide (state m = sDownloading) then
               p ← progress_percent (progressBytes m) (progressTotal m);
               Ok [("progress_bytes", jint (progressBytes m)); ("progress_total", jint (progressTotal m));
                   ("progress_percent", jint p)]
             else Ok []);
  Ok ([("state", jstr (StateName (state m))); ("enabled", jbool (upd_enabled (config m)));
       ("current_version", jstr (currentVersion m)); ("platform", jstr (device_platform m));
       ("channel", jstr (upd_channel (config m))); ("last_check", jstr (lastCheck m)); ("error", jstr (error m));
       ("managed", jbool (managed (layout m))); ("signature_backend", jstr signature_backend);
       ("require_signature", jbool (require_signature (config m)))]
      ++ (if managed (layout m) then [] else [("managed_reason", jstr (reason (layout m)))])
      ++ (if String.eqb rolledBackFrom "" then [] else [("rolled_back_from", jstr rolledBackFrom)])
      ++ [("available", jbool (have_offer m))]
      ++ (if have_offer m then
            [("version", jstr (version offer)); ("mandatory", jbool (mandatory offer));
             ("release_date", jstr (release_date offer));
             ("release_notes", inject (JArray (map jstr (release_notes offer))));
             ("size_bytes", jint (size_bytes offer)); ("dismissed", jbool (String.eqb (dismissed m) (version offer)))]
          else [])
      ++ percent).
End Status.

(** ** Verification *)

(** Where the key is; [disk] gives the contents of a file. *)
Definition keyPath (cfg : UpdateConfig) (dataDir : list Z) : list Z :=
  match public_key_path cfg with
  | 47 :: _ => public_key_path cfg
  | _ => path_append dataDir (public_key_path cfg)
  end.

Definition VerifyPackage {O : OpenSsl} (cfg : UpdateConfig) (dataDir : list Z) (m : Manifest) (archive : file_reads)
  (disk : list Z -> option (list Z)) : res unit :=
  if String.eqb (sha256 m) "" then Err "the manifest carries no sha256, so the download cannot be checked"
  else
    actual ← HexOfFile archive;
    if bool_decide (actual = []) then Err "could not hash the downloaded package"
    else if negb (HexEquals actual (bytes_of (sha256 m))) then Err "checksum mismatch"
    else if negb (require_signature cfg) then Ok tt
    else if String.eqb (signature m) "" then
      Err "the manifest carries no signature and update.require_signature is on"
    else SignatureVerify (disk (keyPath cfg dataDir)) (BuildSignedMessage (bytes_of (version m)) (bytes_of (platform m)) actual)
           (bytes_of (signature m)).

(** ** The worker *)

(** What the critical section at the top of the loop decides. *)
Definition worker_take (m : UpdateManager) (cfg : UpdateConfig) (due : bool) : Command * string * UpdateManager :=
  let m1 := RefreshConfig m cfg in
  (match command m1 with kNone => if upd_enabled cfg && due then kCheck else kNone | c => c end,
   commandVersion m1, with_command m1 kNone "").

(** The offer of a check that succeeded, then the state that follows from it. *)
Definition record_offer (m : UpdateManager) (now : string) (offer : Manifest) : UpdateManager :=
  with_offer m now
    (if negb (String.eqb (version offer) "") && negb (String.eqb (version offer) (version (available m)))
     then "" else dismissed m) offer.

Definition announce (m : UpdateManager) (offer : Manifest) : UpdateManager :=
  SetState m (if negb (String.eqb (version offer) "")
                 && IsNewer (bytes_of (version offer)) (bytes_of (currentVersion m)) then sAvailable else sIdle) "".

(** Where the downloaded package is stored. *)
Definition archive_name (v : string) : string := ("hsf-gateway-" ++ v ++ ".pkg")%string.

Inductive Worker :=
| wTurn                                   (** the top of the loop *)
| wCheck                                  (** a check was taken *)
| wFetched (offer : Manifest)
| wOffered (offer : Manifest)
| wInstall (v : string)                   (** an installation was taken *)
| wDownload (offer : Manifest)
| wVerify (offer : Manifest) (archive : file_reads)
| wPlace (offer : Manifest) (archive : file_reads)
| wRestart                                (** installed; the thread has ended *)
| wDead.                                  (** an exception ended the process *)

(** The system, with the requests it accepted, and the packages it verified
    with the configuration and the disk of that moment. *)
Record Sys `{J : JsonLib} := mkSys {
  mgr : UpdateManager; worker : Worker; tree : Tree J;
  accepted : list string;
  verified : list (Manifest * file_reads * UpdateConfig * (list Z -> option (list Z)))
}.

(** The surroundings of a run: what an archive unpacks to, the [update]
    sections the configuration has at some time of the run, and what the disk
    holds at some time of the run. *)
Record Surroundings := mkSurroundings {
  unpack : list Z -> option Staging; configured : UpdateConfig -> Prop; held : (list Z -> option (list Z)) -> Prop
}.

Section Steps.
Context {J : JsonLib} {O : OpenSsl}.
Variable env : Surroundings.

Definition set_worker (s : Sys) (m : UpdateManager) (w : Worker) : Sys :=
  mkSys _ m w (tree s) (accepted s) (verified s).

Definition taken (c : Command * string) : Worker :=
  match c with (kNone, _) => wTurn | (kCheck, _) => wCheck | (kInstall, v) => wInstall v end.

Inductive update_step : Sys -> Sys -> Prop :=
| web_check s cfg : configured env cfg -> update_step s (set_worker s (CheckNow (mgr s) cfg) (worker s))
| web_install s cfg v m' :
    configured env cfg ->
    RequestInstall (mgr s) cfg v = (Ok tt, m') ->
    update_step s (mkSys _ m' (worker s) (tree s) (v :: accepted s) (verified s))
| web_install_refused s cfg v e m' :
    configured env cfg ->
    RequestInstall (mgr s) cfg v = (Err e, m') -> update_step s (set_worker s m' (worker s))
| web_dismiss s v : update_step s (set_worker s (Dismiss (mgr s) v).2 (worker s))
| web_status s cfg : configured env cfg -> update_step s (set_worker s (RefreshConfig (mgr s) cfg) (worker s))
| w_take s cfg due c v m' :
    configured env cfg -> worker s = wTurn -> worker_take (mgr s) cfg due = (c, v, m') -> update_step s (set_worker s m' (taken (c, v)))
| w_fetch s response :
    worker s = wCheck ->
    let m := SetState (mgr s) sChecking "" in
    update_step s
      (match FetchManifest (config m) (device_platform m) (currentVersion m) response with
       | None | Some Fault => set_worker s m wDead
       | Some (Err e) => set_worker s (SetState m sError e) wTurn
       | Some (Ok offer) => set_worker s m (wFetched offer)
       end)
| w_offer s now offer :
    worker s = wFetched offer -> update_step s (set_worker s (record_offer (mgr s) now offer) (wOffered offer))
| w_announce s offer :
    worker s = wOffered offer -> update_step s (set_worker s (announce (mgr s) offer) wTurn)
| w_start s v :
    worker s = wInstall v ->
    let offer := available (mgr s) in
    update_step s
      (if negb (String.eqb (version offer) v)
       then set_worker s (SetState (mgr s) sError "the offered version changed while the request was queued") wTurn
       else set_worker s (mgr s) (wDownload offer))
| w_download s offer result :
    worker s = wDownload offer ->
    update_step s
      (if bool_decide (download_url offer = [])
       then set_worker s (SetState (mgr s) sError "the manifest has no download url") wTurn
       else
         let m := with_progress (SetState (mgr s) sDownloading "") 0 (size_bytes offer) in
         match result with
         | Ok archive => set_worker s m (wVerify offer archive)
         | Err e => set_worker s (SetState m sError ("download failed: " ++ e)%string) wTurn
         | Fault => set_worker s m wDead
         end)
| w_progress s offer archive received total :
    worker s = wVerify offer archive ->
    update_step s (set_worker s (with_progress (mgr s) received total) (worker s))
| w_verify s offer archive disk :
    held env disk -> worker s = wVerify offer archive ->
    let m := SetState (mgr s) sVerifying "" in
    update_step s
      (match VerifyPackage (config m) (dataDir m) offer archive disk with
       | Ok _ => mkSys _ m (wPlace offer archive) (tree s) (accepted s)
                   ((offer, archive, config m, disk) :: verified s)
       | Err e => set_worker s (SetState m sError e) wTurn
       | Fault => set_worker s m wDead
       end)
| w_place s offer archive io now :
    worker s = wPlace offer archive ->
    let m := SetState (mgr s) sInstalling "" in
    update_step s
      (match Install (layout m) io (tree s) (version offer) now (unpack env (concat (reads archive))) with
       | (Ok _, tree') => mkSys _ (SetState m sReady "") wRestart tree' (accepted s) (verified s)
       | (Err e, tree') => mkSys _ (SetState m sError e) wTurn tree' (accepted s) (verified s)
       | (Fault, tree') => mkSys _ m wDead tree' (accepted s) (verified s)
       end).
End Steps.

(** ** What a verified package is *)

(** The bytes are the ones the manifest's digest names, and the key's owner
    signed version, platform and digest together. *)
Definition genuine {O : OpenSsl} (cfg : UpdateConfig) (dataDir : list Z) (offer : Manifest)
  (archive : file_reads) (disk : list Z -> option (list Z)) : Prop :=
  let digest := digest_hex (concat (reads archive)) in
  map tolower (bytes_of (sha256 offer)) = map tolower digest /\
  (require_signature cfg = true -> exists pem key sig, disk (keyPath cfg dataDir) = Some pem /\ pem_read pem = Some key /\
     Base64Decode (bytes_of (signature offer)) = Some sig /\
     digest_verify key (negb (eddsa key)) sig
       (BuildSignedMessage (bytes_of (version offer)) (bytes_of (platform offer)) digest) = true).

Definition short_file (f : file_reads) : Prop := Z.of_nat (length (concat (reads f))) * 8 < 2 ^ 64.

Lemma SignatureVerify_ok {O : OpenSsl} keyFile message sig64 : SignatureVerify keyFile message sig64 = Ok tt ->
  exists pem key sig, keyFile = Some pem /\ pem_read pem = Some key /\ Base64Decode sig64 = Some sig /\
    digest_verify key (negb (eddsa key)) sig message = true.
Proof.
  unfold SignatureVerify. destruct (Base64Decode sig64) as [sig|]; [|done]. destruct keyFile as [pem|]; [|done].
  destruct (_ || _)%bool; [done|]. destruct (pem_read pem) as [key|] eqn:Hk; [|done].
  destruct (verify_init _ _); simpl; [|done]. destruct (digest_verify _ _ _ _) eqn:Hd; [|done].
  intros _. by exists pem, key, sig.
Qed.

#[local] Opaque HexOf HexOfFile digest_hex.

Lemma VerifyPackage_genuine {O : OpenSsl} cfg dir offer archive disk : short_file archive ->
  VerifyPackage cfg dir offer archive disk = Ok tt -> genuine cfg dir offer archive disk.
Proof.
  intros Hs. unfold VerifyPackage. destruct (String.eqb (sha256 offer) ""); [done|].
  intros H. inv_bind H. destruct (HexOfFile_inv _ _ Hs Hm) as [-> | ->]; [done|].
  case_bool_decide; [done|]. destruct (HexEquals _ _) eqn:Hh; [|done]. apply HexEquals_iff in Hh. cbn [negb] in H.
  split; [done|]. intros Hreq. rewrite Hreq in H. cbn [negb] in H.
  destruct (String.eqb (signature offer) ""); [done|]. by apply SignatureVerify_ok in H.
Qed.

Lemma RequestInstall_cases m cfg v r m' : RequestInstall m cfg v = (r, m') ->
  (r = Ok tt /\ m' = with_command (RefreshConfig m cfg) kInstall v /\
   upd_enabled cfg = true /\ managed (layout m) = true /\ v <> "" /\ version (available m) = v /\
   busy (state (RefreshConfig m cfg)) = false) \/
  (exists e, r = Err e /\ m' = RefreshConfig m cfg).
Proof.
  unfold RequestInstall. intros H. destruct (upd_enabled cfg); simpl in H; [|simplify_eq; right; by eexists].
  destruct (managed (layout m)); simpl in H; [|simplify_eq; right; by eexists].
  destruct (version (available m) =? "")%string eqn:E1; simpl in H; [simplify_eq; right; by eexists|].
  destruct (version (available m) =? v)%string eqn:E2; simpl in H; [|simplify_eq; right; by eexists].
  destruct (busy _) eqn:E3; simplify_eq; [right; by eexists|]. left.
  apply String.eqb_neq in E1. apply String.eqb_eq in E2. by subst.
Qed.

(** ** Nothing is installed that was not asked for and verified *)

Section Safety.
Context {J : JsonLib} {O : OpenSsl}.
Variable env : Surroundings.
Variable dir : list Z.

Definition verified_as (s : Sys) (offer : Manifest) (archive : file_reads) : Prop :=
  exists cfg disk, (offer, archive, cfg, disk) ∈ verified s.

Definition pc_ok (s : Sys) : Prop :=
  (command (mgr s) = kInstall -> commandVersion (mgr s) ∈ accepted s) /\
  match worker s with
  | wInstall v => v ∈ accepted s
  | wDownload offer | wVerify offer _ => version offer ∈ accepted s
  | wPlace offer archive => verified_as s offer archive
  | _ => True
  end.

Definition verified_ok (s : Sys) : Prop :=
  forall offer archive cfg disk, (offer, archive, cfg, disk) ∈ verified s ->
    version offer ∈ accepted s /\ configured env cfg /\ held env disk /\
    VerifyPackage cfg dir offer archive disk = Ok tt.

Definition config_ok (m : UpdateManager) : Prop := configured env (config m) /\ dataDir m = dir.


(** [current] is what it was, until the one installation that ends the worker. *)
Definition current_ok (c0 : option string) (s : Sys) : Prop :=
  match worker s with
  | wRestart =>
      exists offer archive staging r, verified_as s offer archive /\
        unpack env (concat (reads archive)) = Some staging /\ find_release staging = Some r /\
        IsSafeVersionString (version offer) = true /\ current (tree s) = Some (version offer)
  | _ => current (tree s) = c0
  end.

Definition sys_ok (c0 : option string) (s : Sys) : Prop :=
  pc_ok s /\ config_ok (mgr s) /\ verified_ok s /\ current_ok c0 s.

(** Steps of the web threads change neither the worker nor the tree. *)
Lemma sys_ok_web c0 s m acc : (command m = kInstall -> commandVersion m ∈ acc) -> config_ok m ->
  (forall v, v ∈ accepted s -> v ∈ acc) -> sys_ok c0 s ->
  sys_ok c0 (mkSys _ m (worker s) (tree s) acc (verified s)).
Proof.
  intros Hm Hcfg Hacc ((_ & Hpc) & _ & Hv & Hc). split_and!; [split; [done|]|done| |done].
  - simpl. destruct (worker s); auto.
  - intros offer archive cfg disk Hin. destruct (Hv _ _ _ _ Hin) as [? ?]. auto.
Qed.

(** Steps of the worker before anything is placed. *)
Lemma sys_ok_worker c0 s m w : current (tree s) = c0 -> w <> wRestart -> config_ok m -> sys_ok c0 s ->
  (command m = kInstall -> commandVersion m ∈ accepted s) ->
  match w with
  | wInstall v => v ∈ accepted s
  | wDownload offer | wVerify offer _ => version offer ∈ accepted s
  | wPlace offer archive => verified_as s offer archive
  | _ => True
  end -> sys_ok c0 (set_worker s m w).
Proof.
  intros Hc Hw Hcfg (_ & _ & Hv & _) Hm Hpc. split_and!; [done|done|done|]. unfold current_ok. simpl. by destruct w.
Qed.

Lemma config_ok_refresh m cfg : configured env cfg -> config_ok m -> config_ok (RefreshConfig m cfg).
Proof. intros Hcfg [_ Hd]. by split. Qed.

Lemma update_step_ok c0 s s' : update_step env s s' -> sys_ok c0 s -> sys_ok c0 s'.
Proof.
  intros H Hok. pose proof Hok as ((Hcmd & Hpc) & Hconf & Hv & Hc). destruct H as
    [s cfg Hcfg|s cfg v m' Hcfg Hi|s cfg v e m' Hcfg Hi|s v|s cfg Hcfg|s cfg due c v m' Hcfg Hw Ht|s response Hw m
    |s now offer Hw|s offer Hw|s v Hw offer|s offer result Hw|s offer archive received total Hw
    |s offer archive disk Hdisk Hw m|s offer archive io now Hw m];
    unfold current_ok in Hc; try rewrite Hw in *; try pose proof (config_ok_refresh _ _ Hcfg Hconf) as Hnew.
  - apply sys_ok_web; [| |done..]; unfold CheckNow; by destruct (upd_enabled cfg).
  - destruct (RequestInstall_cases _ _ _ _ _ Hi) as [(_ & -> & _)|[e [? _]]]; [|done].
    apply sys_ok_web; [intros _; left|done|by right|done].
  - destruct (RequestInstall_cases _ _ _ _ _ Hi) as [[? _]|[e' [_ ->]]]; [done|]. by apply sys_ok_web.
  - apply sys_ok_web; [| |done..]; unfold Dismiss; by repeat case_match.
  - by apply sys_ok_web.
  - unfold worker_take in Ht. simplify_eq. apply sys_ok_worker; [done| |done|done|done|].
    + unfold taken. by repeat case_match.
    + simpl in *. destruct (command (mgr s)); simpl; [by destruct (upd_enabled cfg && due)|done|auto].
  - repeat case_match; by apply sys_ok_worker.
  - by apply sys_ok_worker.
  - by apply sys_ok_worker.
  - destruct (String.eqb (version offer) v) eqn:E; simpl; apply sys_ok_worker; try done.
    apply String.eqb_eq in E. by rewrite E.
  - case_match; [by apply sys_ok_worker|]. destruct result; by apply sys_ok_worker.
  - by apply sys_ok_worker.
  - destruct (VerifyPackage _ _ offer archive disk) as [[]| |] eqn:Hver; [|by apply sys_ok_worker..].
    split_and!; [split; [done|]|done| |done]; simpl.
    + exists (config m), disk. simpl. left.
    + intros o a cfg key Hin. destruct Hconf as [Hcfg Hdir]. change (dataDir m) with (dataDir (mgr s)) in Hver.
      rewrite Hdir in Hver. apply elem_of_cons in Hin as [E|Hin]; [by simplify_eq|by apply (Hv o a cfg key)].
  - destruct (Install _ _ _ _ _ _) as [result tree'] eqn:Hi. apply Install_effects in Hi as (_ & _ & Hfail & Hdone).
    destruct result as [[]|e|].
    + destruct Hdone as (_ & Hsafe & staging & r & before & Hu & Hf & _ & Hcur & _); [done|].
      split_and!; [done|done|done|]. exists offer, archive, staging, r. by split_and!.
    + destruct Hfail as [Hcur _]; [done|]. split_and!; [done|done|done|]. unfold current_ok. simpl. congruence.
    + destruct Hfail as [Hcur _]; [done|]. split_and!; [done|done|done|]. unfold current_ok. simpl. congruence.
Qed.
End Safety.

(** ** Query strings *)

Definition hex_value (c : Z) : Z := if c <=? 57 then c - 48 else c - 65 + 10.

Fixpoint percent_decode (text : list Z) : list Z :=
  match text with
  | [] => []
  | c :: rest =>
      if c =? 37 then
        match rest with
        | h :: l :: rest' => hex_value h * 16 + hex_value l :: percent_decode rest'
        | _ => c :: percent_decode rest
        end
      else c :: percent_decode rest
  end.

Lemma percent_decode_one c rest : byte_ok c ->
  percent_decode (UrlEncode [c] ++ rest) = c :: percent_decode rest /\
  Forall (fun x => url_safe x = true \/ x = 37) (UrlEncode [c]).
Proof.
  intros Hc. unfold UrlEncode. cbn [map List.concat]. rewrite app_nil_r.
  assert (forall c, byte_ok c -> url_safe c = false ->
    hex_value (nth (Z.to_nat (Z.shiftr c 4)) kUpperHex 0) * 16 + hex_value (nth (Z.to_nat (Z.land c 0x0F)) kUpperHex 0) = c /\
    url_safe (nth (Z.to_nat (Z.shiftr c 4)) kUpperHex 0) = true /\
    url_safe (nth (Z.to_nat (Z.land c 0x0F)) kUpperHex 0) = true) as Hall.
  { clear. intros c Hc _.
    assert (forallb (fun n => let c := Z.of_nat n in
      (hex_value (nth (Z.to_nat (Z.shiftr c 4)) kUpperHex 0) * 16
        + hex_value (nth (Z.to_nat (Z.land c 0x0F)) kUpperHex 0) =? c)
      && url_safe (nth (Z.to_nat (Z.shiftr c 4)) kUpperHex 0)
      && url_safe (nth (Z.to_nat (Z.land c 0x0F)) kUpperHex 0)) (seq 0 256) = true) as H by (vm_compute; reflexivity).
    rewrite forallb_forall in H. unfold byte_ok in Hc. specialize (H (Z.to_nat c)).
    rewrite in_seq, Z2Nat.id in H by lia. specialize (H ltac:(lia)). simpl in H.
    rewrite !andb_true_iff, Z.eqb_eq in H. tauto. }
  destruct (url_safe c) eqn:E; cbn [app percent_decode].
  - assert ((c =? 37) = false) as ->; [|by auto]. apply Z.eqb_neq. intros ->. vm_compute in E. done.
  - change (37 =? 37) with true. cbv iota. destruct (Hall c Hc E) as (H1 & H2 & H3). rewrite H1. split; [done|]. rewrite !Forall_cons. split_and!; auto.
Qed.

Lemma UrlEncode_cons c text : UrlEncode (c :: text) = UrlEncode [c] ++ UrlEncode text.
Proof. unfold UrlEncode. simpl. by rewrite app_nil_r. Qed.

Lemma UrlEncode_spec text : bytes_ok text ->
  percent_decode (UrlEncode text) = text /\ Forall (fun x => url_safe x = true \/ x = 37) (UrlEncode text).
Proof.
  intros H. induction H as [|c text Hc Ht [IH1 IH2]]; [done|]. rewrite UrlEncode_cons.
  destruct (percent_decode_one c (UrlEncode text) Hc) as [-> Hs]. rewrite IH1. split; [done|]. by apply Forall_app.
Qed.

(** ** Properties *)

(** C11: Nothing is ever installed that was not asked for and verified: however
    requests, checks and installations interleave and whatever the release
    server sends, if [current] has moved, it names the version of an offer that
    an accepted request named, whose archive's SHA-256 is the one of the
    manifest, and which passed under an [update] section the configuration had
    during the run: when that section requires signatures, the key stored in
    the file it names (below the data directory when the path is relative) on
    the disk of that moment verified a signature over exactly that version,
    platform and digest; and what was unpacked is a gateway. *)
Theorem only_verified_updates_run (J : JsonLib) (O : OpenSsl) env s0 s :
  worker s0 = wTurn -> command (mgr s0) <> kInstall -> verified s0 = [] -> configured env (config (mgr s0)) ->
  rtc (update_step env) s0 s ->
  current (tree s) = current (tree s0) \/
  exists offer archive cfg disk staging r,
    version offer ∈ accepted s /\ configured env cfg /\ held env disk /\
    (short_file archive -> genuine cfg (dataDir (mgr s0)) offer archive disk) /\
    unpack env (concat (reads archive)) = Some staging /\ find_release staging = Some r /\ looks_like_release r = true /\
    IsSafeVersionString (version offer) = true /\ current (tree s) = Some (version offer).
Proof.
  intros Hw Hcmd Hv Hcfg Hrtc.
  assert (sys_ok env (dataDir (mgr s0)) (current (tree s0)) s) as (_ & _ & Hver & Hc).
  { assert (sys_ok env (dataDir (mgr s0)) (current (tree s0)) s0) as Hok.
    { split_and!; [split; [done|by rewrite Hw]|done| |unfold current_ok; by rewrite Hw].
      unfold verified_ok. rewrite Hv. intros ? ? ? ? Hin. by apply not_elem_of_nil in Hin. }
    revert Hok. generalize (current (tree s0)) (dataDir (mgr s0)). clear -Hrtc.
    induction Hrtc as [|x y z Hxy _ IH]; [done|]. intros c0 dir Hok. by apply IH, (update_step_ok env dir c0 x y). }
  unfold current_ok in Hc. destruct (worker s); auto. right.
  destruct Hc as (offer & archive & staging & r & (cfg & disk & Hin) & Hu & Hf & Hsafe & Hcur).
  destruct (Hver _ _ _ _ Hin) as (Hacc & Hcfg' & Hdisk & Hok). exists offer, archive, cfg, disk, staging, r.
  split_and!; try done; [intros Hs; by apply VerifyPackage_genuine|by apply (find_release_good staging)].
Qed.

Definition demo_openssl : OpenSsl := {|
  Key := list Z; pem_read := Some; eddsa := fun _ => true; verify_init := fun _ _ => true;
  digest_verify := fun _ _ sig message => bool_decide (sig = take 3 message)
|}.
Definition demo_update_config : UpdateConfig := mkUpdateConfig true (b! "https://h/v.json") "stable" true (b! "update_public_key.pem").
Definition demo_manager : UpdateManager :=
  mkManager demo_update_config (demo_layout "1.0.0") "linux" "1.0.0" sIdle "" "" "" no_manifest 0 0 kNone "" (b! "/etc/hsf").
Definition demo_archive : file_reads := mkFile true [b! "pkg"] false.
Definition demo_digest : string := text_of (digest_hex (b! "pkg")).
Definition demo_offer : Manifest :=
  mkManifest "1.1.0" "linux" (b! "https://h/p.tgz") demo_digest "MS4x" "" "" false [] 0.
Definition demo_response : RestResponse (J:=jtree_json) :=
  mkResponse (J:=jtree_json) true 200 "" (Some (TObject
    [("version", TString "1.1.0"); ("url", TString "p.tgz"); ("signature", TString "MS4x");
     ("sha256", TString demo_digest)])).
Definition demo_unpack (archive : list Z) : option Staging := Some (demo_staging "1.1.0").
Definition demo_disk (file : list Z) : option (list Z) :=
  if bool_decide (file = b! "/etc/hsf/update_public_key.pem") then Some [7] else None.
Definition demo_env : Surroundings :=
  mkSurroundings demo_unpack (fun cfg => cfg = demo_update_config) (fun disk => disk = demo_disk).
Definition demo_sys : Sys (J:=jtree_json) := mkSys jtree_json demo_manager wTurn demo_tree [] [].

(** The steps that succeed, from what they compute. *)
Lemma w_fetch_ok {J : JsonLib} {O : OpenSsl} env (s : Sys) response offer : worker s = wCheck ->
  FetchManifest (config (mgr s)) (device_platform (mgr s)) (currentVersion (mgr s)) response = Some (Ok offer) ->
  update_step env s (set_worker s (SetState (mgr s) sChecking "") (wFetched offer)).
Proof. intros Hw H. pose proof (w_fetch env s response Hw) as Hs. simpl in Hs. by rewrite H in Hs. Qed.

Lemma w_verify_ok {J : JsonLib} {O : OpenSsl} env (s : Sys) offer archive disk :
  held env disk -> worker s = wVerify offer archive -> VerifyPackage (config (mgr s)) (dataDir (mgr s)) offer archive disk = Ok tt ->
  update_step env s (mkSys _ (SetState (mgr s) sVerifying "") (wPlace offer archive) (tree s) (accepted s)
                   ((offer, archive, config (mgr s), disk) :: verified s)).
Proof. intros Hd Hw H. pose proof (w_verify env s offer archive disk Hd Hw) as Hs. simpl in Hs. by rewrite H in Hs. Qed.

Lemma w_place_ok {J : JsonLib} {O : OpenSsl} env (s : Sys) offer archive io now tree' :
  worker s = wPlace offer archive ->
  Install (layout (mgr s)) io (tree s) (version offer) now (unpack env (concat (reads archive))) = (Ok tt, tree') ->
  update_step env s (mkSys _ (SetState (SetState (mgr s) sInstalling "") sReady "") wRestart tree' (accepted s) (verified s)).
Proof. intros Hw H. pose proof (w_place env s offer archive io now Hw) as Hs. simpl in Hs. by rewrite H in Hs. Qed.

Lemma demo_fetch : FetchManifest demo_update_config "linux" "1.0.0" demo_response = Some (Ok demo_offer).
Proof. reflexivity. Qed.

Lemma demo_verify : VerifyPackage (O:=demo_openssl) demo_update_config (b! "/etc/hsf") demo_offer demo_archive demo_disk = Ok tt.
Proof. vm_compute. reflexivity. Qed.

Lemma demo_install : exists tree', Install (demo_layout "1.0.0") good_io demo_tree "1.1.0" "" (Some (demo_staging "1.1.0")) = (Ok tt, tree').
Proof. eexists. reflexivity. Qed.

#[local] Opaque VerifyPackage demo_digest.

(** A check, a request and the installation it asks for, state by state. *)
Definition demo_at (st : UpdateState) (offer : Manifest) (c : Command) (v : string) (w : Worker) (acc : list string)
  : Sys (J:=jtree_json) :=
  mkSys jtree_json (mkManager demo_update_config (demo_layout "1.0.0") "linux" "1.0.0" st "" "" "" offer 0 0 c v (b! "/etc/hsf"))
    w demo_tree acc [].

Abbreviation demo_step := (update_step (O:=demo_openssl) demo_env).

Lemma demo_1 : demo_step demo_sys (demo_at sIdle no_manifest kNone "" wCheck []).
Proof. by apply (w_take _ demo_sys demo_update_config true kCheck ""). Qed.

Lemma demo_2 : demo_step (demo_at sIdle no_manifest kNone "" wCheck [])
                         (demo_at sChecking no_manifest kNone "" (wFetched demo_offer) []).
Proof. apply (w_fetch_ok _ (demo_at sIdle no_manifest kNone "" wCheck []) demo_response); [done|exact demo_fetch]. Qed.

Lemma demo_3 : demo_step (demo_at sChecking no_manifest kNone "" (wFetched demo_offer) [])
                         (demo_at sChecking demo_offer kNone "" (wOffered demo_offer) []).
Proof. exact (w_offer (O:=demo_openssl) demo_env (demo_at sChecking no_manifest kNone "" (wFetched demo_offer) []) "" demo_offer eq_refl). Qed.

Lemma demo_4 : demo_step (demo_at sChecking demo_offer kNone "" (wOffered demo_offer) [])
                         (demo_at sAvailable demo_offer kNone "" wTurn []).
Proof. exact (w_announce (O:=demo_openssl) demo_env (demo_at sChecking demo_offer kNone "" (wOffered demo_offer) []) demo_offer eq_refl). Qed.

Lemma demo_5 : demo_step (demo_at sAvailable demo_offer kNone "" wTurn [])
                         (demo_at sAvailable demo_offer kInstall "1.1.0" wTurn ["1.1.0"]).
Proof. by apply (web_install _ (demo_at sAvailable demo_offer kNone "" wTurn []) demo_update_config "1.1.0"). Qed.

Lemma demo_6 : demo_step (demo_at sAvailable demo_offer kInstall "1.1.0" wTurn ["1.1.0"])
                         (demo_at sAvailable demo_offer kNone "" (wInstall "1.1.0") ["1.1.0"]).
Proof.
  by apply (w_take _ (demo_at sAvailable demo_offer kInstall "1.1.0" wTurn ["1.1.0"]) demo_update_config true kInstall "1.1.0").
Qed.

Lemma demo_7 : demo_step (demo_at sAvailable demo_offer kNone "" (wInstall "1.1.0") ["1.1.0"])
                         (demo_at sAvailable demo_offer kNone "" (wDownload demo_offer) ["1.1.0"]).
Proof. by apply (w_start _ (demo_at sAvailable demo_offer kNone "" (wInstall "1.1.0") ["1.1.0"]) "1.1.0"). Qed.

Lemma demo_8 : demo_step (demo_at sAvailable demo_offer kNone "" (wDownload demo_offer) ["1.1.0"])
                         (demo_at sDownloading demo_offer kNone "" (wVerify demo_offer demo_archive) ["1.1.0"]).
Proof.
  by apply (w_download _ (demo_at sAvailable demo_offer kNone "" (wDownload demo_offer) ["1.1.0"]) demo_offer (Ok demo_archive)).
Qed.

Lemma demo_update : exists s, rtc demo_step demo_sys s /\ current (tree s) = Some "1.1.0".
Proof.
  destruct demo_install as [tree' Hi]. pose proof (Install_effects _ _ _ _ _ _ _ _ Hi) as (_ & _ & _ & Hdone).
  destruct Hdone as (_ & _ & _ & _ & _ & _ & _ & _ & Hcur & _); [done|].
  pose proof (w_verify_ok (O:=demo_openssl) demo_env
    (demo_at sDownloading demo_offer kNone "" (wVerify demo_offer demo_archive) ["1.1.0"])
    demo_offer demo_archive demo_disk eq_refl eq_refl demo_verify) as H9.
  match type of H9 with update_step _ _ ?s9 =>
    pose proof (w_place_ok (O:=demo_openssl) demo_env s9 demo_offer demo_archive good_io "" tree' eq_refl Hi) as H10 end.
  eexists. split.
  - eapply rtc_l; [exact demo_1|]. eapply rtc_l; [exact demo_2|]. eapply rtc_l; [exact demo_3|].
    eapply rtc_l; [exact demo_4|]. eapply rtc_l; [exact demo_5|]. eapply rtc_l; [exact demo_6|].
    eapply rtc_l; [exact demo_7|]. eapply rtc_l; [exact demo_8|]. eapply rtc_l; [exact H9|].
    eapply rtc_l; [exact H10|]. apply rtc_refl.
  - exact Hcur.
Qed.

Lemma only_verified_updates_run_witness :
  exists (s : Sys (J:=jtree_json)) offer archive, current (tree s) = Some "1.1.0" /\
    In (version offer) (accepted s) /\
    (short_file archive -> genuine (O:=demo_openssl) demo_update_config (b! "/etc/hsf") offer archive demo_disk).
Proof.
  destruct demo_update as (s & Hr & Hc).
  destruct (only_verified_updates_run jtree_json demo_openssl demo_env demo_sys s eq_refl ltac:(discriminate) eq_refl
    eq_refl Hr) as [H|(offer & archive & cfg & disk & staging & r & H1 & Hcfg & Hdisk & H2 & _)].
  - exfalso. rewrite Hc in H. discriminate H.
  - simpl in Hcfg, Hdisk. subst cfg disk. exists s, offer, archive. split; [exact Hc|].
    split; [by apply list_elem_of_In|exact H2].
Defined.

(** A release that is not newer than the running one is not shown as available,
    but a request for it is accepted: a signed older release can be installed,
    and so can the running version over itself ([Installer.reinstall_can_brick]). *)
Example older_release_accepted :
  let old := mkManifest "0.9.0" "linux" (b! "https://h/old") "" "" "" "" false [] 0 in
  let m := record_offer demo_manager "" old in
  have_offer m = false /\ (RequestInstall m demo_update_config "0.9.0").1 = Ok tt.
Proof. split; reflexivity. Qed.

(** The one command slot: a check asked for before the worker has taken an
    accepted installation replaces it. *)
Example check_replaces_install :
  let m := record_offer demo_manager "" demo_offer in
  let m1 := (RequestInstall m demo_update_config "1.1.0").2 in
  (RequestInstall m demo_update_config "1.1.0").1 = Ok tt /\
  (worker_take (CheckNow m1 demo_update_config) demo_update_config false).1.1 = kCheck.
Proof. split; reflexivity. Qed.

(** A manifest with a number for its version, or a text for the platform's
    entry, is an exception on the worker thread: the process ends. *)
Example mistyped_manifest_ends_process :
  FetchManifest (J:=jtree_json) demo_update_config "linux" "1.0.0"
    (mkResponse (J:=jtree_json) true 200 "" (Some (TObject [("version", TInt 2)]))) = None /\
  FetchManifest (J:=jtree_json) demo_update_config "linux" "1.0.0"
    (mkResponse (J:=jtree_json) true 200 "" (Some (TObject
       [("version", TString "2.0.0"); ("platforms", TObject [("linux", TString "p.tgz")])]))) = None.
Proof. split; reflexivity. Qed.

(** The platform the signature covers is the manifest's own; it is not compared
    with the device's. *)
Example foreign_platform_accepted :
  let offer := mkManifest "1.1.0" "windows" (b! "https://h/p") demo_digest "MS4x" "" "" false [] 0 in
  (RequestInstall (record_offer demo_manager "" offer) demo_update_config "1.1.0").1 = Ok tt /\
  VerifyPackage (O:=demo_openssl) demo_update_config (b! "/etc/hsf") offer demo_archive demo_disk = Ok tt.
Proof. split; vm_compute; reflexivity. Qed.

(** A release that was postponed and is mandatory in a later manifest stays
    postponed. *)
Example dismissed_stays_when_mandatory :
  let m := (Dismiss (record_offer demo_manager "" demo_offer) "1.1.0").2 in
  let urgent := mkManifest "1.1.0" "linux" (b! "https://h/p") "" "" "" "" true [] 0 in
  dismissed (record_offer m "" urgent) = "1.1.0".
Proof. reflexivity. Qed.
