(* ===== verification/SecurityStore.v ===== *)
(** * Accounts, sessions and lockout (src/security/SecurityStore.cpp)

    The security database is its four tables.  SQLite is not part of the
    repository: the statements, which are, have their SQL meaning on lists of
    rows in [rowid] order, and are taken to execute unless a constraint of the
    schema fails; which of several sessions issued in the same second
    [ORDER BY issued_at DESC] puts first is left open ([SqlOrder]).  One
    critical section of the store's mutex is one atomic step and reads the
    clock once.  Text is its bytes.  An operation that hashes a token can
    [Fault] in the hasher's model; that it does not is a theorem. *)

From stdpp Require Import relations.
From S2P Require Import Prelude Words Text Sha256 Permissions PasswordHash.

(** ** The tables *)

Record UserRow := mkUserRow {
  u_id : Z; u_username : list Z; u_display_name : list Z; u_password_hash : list Z; u_role : string;
  u_enabled : bool; u_created_at : Z; u_last_login : Z; u_password_changed : Z; u_must_change : bool
}.
Record SessionRow := mkSessionRow {
  s_id : Z; s_token_hash : list Z; s_user_id : Z; s_issued_at : Z; s_expires_at : Z; s_source_ip : list Z
}.
Record FailureRow := mkFailureRow { f_username : list Z; f_source_ip : list Z; f_at : Z }.
Record AuditEntry := mkAudit {
  a_id : Z; a_timestamp : Z; a_event : list Z; a_username : list Z; a_source_ip : list Z;
  a_resource : list Z; a_result : list Z; a_reason : list Z
}.

(** [next_...] is the next [AUTOINCREMENT] value of a table. *)
Record Db := mkDb {
  users : list UserRow; next_user : Z;
  sessions : list SessionRow; next_session : Z;
  login_failures : list FailureRow;
  audit_log : list AuditEntry; next_audit : Z
}.

(** [db_]: null until [Load] opened a file. *)
Definition SecurityStore : Type := option Db.

Definition with_users (db : Db) (us : list UserRow) : Db :=
  mkDb us (next_user db) (sessions db) (next_session db) (login_failures db) (audit_log db) (next_audit db).
Definition with_sessions (db : Db) (ss : list SessionRow) : Db :=
  mkDb (users db) (next_user db) ss (next_session db) (login_failures db) (audit_log db) (next_audit db).
Definition with_failures (db : Db) (fs : list FailureRow) : Db :=
  mkDb (users db) (next_user db) (sessions db) (next_session db) fs (audit_log db) (next_audit db).
Definition with_audit (db : Db) (es : list AuditEntry) (next : Z) : Db :=
  mkDb (users db) (next_user db) (sessions db) (next_session db) (login_failures db) es next.

(** [COLLATE NOCASE] folds the ASCII letters. *)
Definition same_name (a b : list Z) : bool := bool_decide (map tolower a = map tolower b).

(** [ORDER BY issued_at DESC]: sorted, ties in any order. *)
Definition newer (a b : SessionRow) : Prop := s_issued_at b <= s_issued_at a.
Class SqlOrder := {
  newest_first : list SessionRow -> list SessionRow;
  newest_first_perm : forall l, Permutation (newest_first l) l;
  newest_first_sorted : forall l, StronglySorted newer (newest_first l)
}.

(** ** Rows as the gateway sees them *)

Record User := mkUser {
  id : Z; username : list Z; display_name : list Z; role : Role; enabled : bool; created_at : Z;
  last_login : Z; password_changed : Z; must_change_password : bool
}.
Record Session := mkSession {
  session_id : Z; session_user_id : Z; session_username : list Z; session_role : Role;
  issued_at : Z; expires_at : Z; source_ip : list Z
}.

(** An unknown role is the least privileged one. *)
Definition role_of (name : string) : Role :=
  match RoleFromName name with kRoleCount => kUser | r => r end.

Definition ReadUserRow (row : UserRow) : User :=
  mkUser (u_id row) (u_username row) (u_display_name row) (role_of (u_role row)) (u_enabled row)
    (u_created_at row) (u_last_login row) (u_password_changed row) (u_must_change row).

Definition TokenHash (token : list Z) : res (list Z) := HexOf token.

Definition ValidUsername (name : list Z) : res unit :=
  if (length name <? 3)%nat || (32 <? length name)%nat then Err "username must be 3-32 characters"
  else if forallb (fun c => is_alnum c || (c =? 46) || (c =? 95) || (c =? 45)) name then Ok tt
  else Err "username may contain only letters, digits, dot, underscore and hyphen".

Section Operations.
Context {L : Sodium} {O : SqlOrder}.

(** ** Opening *)

Definition user_named (db : Db) (name : list Z) : option UserRow :=
  List.find (fun row => same_name (u_username row) name) (users db).
Definition user_with_id (db : Db) (userId : Z) : option UserRow :=
  List.find (fun row => u_id row =? userId) (users db).

(** [INSERT INTO users]: refused when the name is taken. *)
Definition insert_user (db : Db) (name display hash : list Z) (role : Role) (now : Z) (must_change : bool)
  : option Db :=
  match user_named db name with
  | Some _ => None
  | None =>
      Some (mkDb (users db ++ [mkUserRow (next_user db) name display hash (RoleName role) true now 0 now must_change])
              (next_user db + 1) (sessions db) (next_session db) (login_failures db) (audit_log db)
              (next_audit db))
  end.

(** [file] is the database found at the path, or nothing if it cannot be
    opened; [draws] and [encoded] are what libsodium answers.  The result is
    the seeded password, empty unless the database had no account. *)
Definition Load (st : SecurityStore) (file : option Db) (now : Z) (draws : list nat)
  (encoded : option (list Z)) : bool * list Z * SecurityStore :=
  if negb sodium_ok then (false, [], st)
  else match file with
  | None => (false, [], st)
  | Some db0 =>
      let db := with_sessions db0 [] in
      if (length (users db) =? 0)%nat then
        let password := RandomToken draws in
        match Hash encoded with
        | [] => (false, [], Some db)
        | hash =>
            match insert_user db (b! "admin") (b! "Administrator") hash kAdmin now true with
            | None => (false, [], Some db)
            | Some db' => (true, password, Some db')
            end
        end
      else (true, [], Some db)
  end.

(** ** Accounts *)

Definition FindUserUnlocked (st : SecurityStore) (name : list Z) : option User :=
  match st with None => None | Some db => ReadUserRow <$> user_named db name end.
Definition FindUser (st : SecurityStore) (name : list Z) : option User := FindUserUnlocked st name.
Definition FindUserById (st : SecurityStore) (userId : Z) : option User :=
  match st with None => None | Some db => ReadUserRow <$> user_with_id db userId end.

Definition CreateUser (st : SecurityStore) (now : Z) (name : list Z) (encoded : option (list Z))
  (role : Role) (displayName : list Z) : res User * SecurityStore :=
  match ValidUsername name with
  | Err e => (Err e, st)
  | Fault => (Fault, st)
  | Ok _ =>
      if bool_decide (role = kRoleCount) then (Err "unknown role", st)
      else match Hash encoded with
      | [] => (Err "could not hash the password", st)
      | hash =>
          match st with
          | None => (Err "security database unavailable", st)
          | Some db =>
              match FindUserUnlocked st name with
              | Some _ => (Err "a user with that name already exists", st)
              | None =>
                  match insert_user db name (match displayName with [] => name | _ => displayName end)
                          hash role now false with
                  | None => (Err "database error", st)
                  | Some db' =>
                      match FindUserUnlocked (Some db') name with
                      | Some user => (Ok user, Some db')
                      | None => (Err "", Some db')
                      end
                  end
              end
          end
      end
  end.

(** [UPDATE users SET ... WHERE id = ?] *)
Definition update_user (db : Db) (userId : Z) (f : UserRow -> UserRow) : Db :=
  with_users db (map (fun row => if u_id row =? userId then f row else row) (users db)).

Definition set_hash (hash : list Z) (now : Z) (row : UserRow) : UserRow :=
  mkUserRow (u_id row) (u_username row) (u_display_name row) hash (u_role row) (u_enabled row)
    (u_created_at row) (u_last_login row) now false.
Definition set_enabled (value : bool) (row : UserRow) : UserRow :=
  mkUserRow (u_id row) (u_username row) (u_display_name row) (u_password_hash row) (u_role row) value
    (u_created_at row) (u_last_login row) (u_password_changed row) (u_must_change row).
Definition set_role (role : Role) (row : UserRow) : UserRow :=
  mkUserRow (u_id row) (u_username row) (u_display_name row) (u_password_hash row) (RoleName role)
    (u_enabled row) (u_created_at row) (u_last_login row) (u_password_changed row) (u_must_change row).
Definition set_last_login (now : Z) (row : UserRow) : UserRow :=
  mkUserRow (u_id row) (u_username row) (u_display_name row) (u_password_hash row) (u_role row)
    (u_enabled row) (u_created_at row) now (u_password_changed row) (u_must_change row).

Definition RevokeAllForUser (st : SecurityStore) (userId : Z) : Z * SecurityStore :=
  match st with
  | None => (0, st)
  | Some db =>
      let kept := List.filter (fun s => negb (s_user_id s =? userId)) (sessions db) in
      (Z.of_nat (length (sessions db)) - Z.of_nat (length kept), Some (with_sessions db kept))
  end.

(** The first critical section of [SetPassword], then the whole. *)
Definition set_password_row (st : SecurityStore) (now userId : Z) (encoded : option (list Z))
  : res unit * SecurityStore :=
  match Hash encoded with
  | [] => (Err "could not hash the password", st)
  | hash =>
      match st with
      | None => (Err "security database unavailable", st)
      | Some db => (Ok tt, Some (update_user db userId (set_hash hash now)))
      end
  end.

Definition SetPassword (st : SecurityStore) (now userId : Z) (encoded : option (list Z))
  : res unit * SecurityStore :=
  match set_password_row st now userId encoded with
  | (Ok _, st') => (Ok tt, (RevokeAllForUser st' userId).2)
  | (r, st') => (r, st')
  end.

Definition set_enabled_row (st : SecurityStore) (userId : Z) (value : bool) : bool * SecurityStore :=
  match st with
  | None => (false, st)
  | Some db => (true, Some (update_user db userId (set_enabled value)))
  end.

Definition SetEnabled (st : SecurityStore) (userId : Z) (value : bool) : bool * SecurityStore :=
  match set_enabled_row st userId value with
  | (true, st') => (true, if value then st' else (RevokeAllForUser st' userId).2)
  | r => r
  end.

Definition set_role_row (st : SecurityStore) (userId : Z) (role : Role) : bool * SecurityStore :=
  if bool_decide (role = kRoleCount) then (false, st)
  else match st with
  | None => (false, st)
  | Some db => (true, Some (update_user db userId (set_role role)))
  end.

Definition SetRole (st : SecurityStore) (userId : Z) (role : Role) : bool * SecurityStore :=
  match set_role_row st userId role with
  | (true, st') => (true, (RevokeAllForUser st' userId).2)
  | r => r
  end.

Definition CountAdmins (st : SecurityStore) : Z :=
  match st with
  | None => 0
  | Some db =>
      Z.of_nat (length (List.filter (fun row => String.eqb (u_role row) (RoleName kAdmin) && u_enabled row)
                          (users db)))
  end.

(** The sessions of a deleted account go with it ([ON DELETE CASCADE]). *)
Definition DeleteUser (st : SecurityStore) (userId : Z) : res unit * SecurityStore :=
  match st with
  | None => (Err "security database unavailable", st)
  | Some db =>
      (Ok tt, Some (with_sessions
        (with_users db (List.filter (fun row => negb (u_id row =? userId)) (users db)))
        (List.filter (fun s => negb (s_user_id s =? userId)) (sessions db))))
  end.

(** ** Login *)

Inductive LoginResult := LoginOk | kInvalidCredentials | kLockedOut | kDisabled | kInternalError.

(** The failures of a name at or after [since]. *)
Definition failures_since (db : Db) (name : list Z) (since : Z) : list FailureRow :=
  List.filter (fun f => same_name (f_username f) name && (since <=? f_at f)) (login_failures db).

Definition FailedAttemptsUnlocked (db : Db) (name : list Z) (since : Z) : Z :=
  Z.of_nat (length (failures_since db name since)).

Definition RecordFailureUnlocked (db : Db) (now : Z) (name ip : list Z) : Db :=
  with_failures db (login_failures db ++ [mkFailureRow name ip now]).

Definition ClearFailuresUnlocked (db : Db) (name : list Z) : Db :=
  with_failures db (List.filter (fun f => negb (same_name (f_username f) name)) (login_failures db)).

(** Keeps the newest [maxSessions - 1] sessions of the user. *)
Definition EnforceSessionLimitUnlocked (db : Db) (userId maxSessions : Z) : Db :=
  if maxSessions <=? 0 then db
  else
    let mine := List.filter (fun s => s_user_id s =? userId) (sessions db) in
    let kept := take (Z.to_nat (if 1 <? maxSessions then maxSessions - 1 else 0)) (newest_first mine) in
    with_sessions db
      (List.filter (fun s => negb (s_user_id s =? userId) || existsb (fun k => s_id k =? s_id s) kept)
         (sessions db)).

(** [SELECT MAX(at)] *)
Definition latest_failure (fs : list FailureRow) (default : Z) : Z :=
  match fs with
  | [] => default
  | f :: rest => foldl (fun m g => Z.max m (f_at g)) (f_at f) rest
  end.

(** The first critical section: the lockout check and the look-up.  [inl] is an
    answer, with the remaining lockout; [inr] the account and its stored hash,
    to be verified without the lock. *)
Definition login_begin (st : SecurityStore) (now : Z) (name ip : list Z)
  (maxFailedAttempts lockoutSeconds : Z) : ((LoginResult * Z) + (User * list Z)) * SecurityStore :=
  match st with
  | None => (inl (kInternalError, 0), st)
  | Some db =>
      let windowStart := now - lockoutSeconds in
      if (0 <? maxFailedAttempts) && (0 <? lockoutSeconds)
         && (maxFailedAttempts <=? FailedAttemptsUnlocked db name windowStart)
      then
        let latest := latest_failure (failures_since db name windowStart) now in
        let lockoutRemaining := latest + lockoutSeconds - now in
        (inl (kLockedOut, if lockoutRemaining <? 1 then 1 else lockoutRemaining), st)
      else
        match user_named db name with
        | None => (inl (kInvalidCredentials, 0), Some (RecordFailureUnlocked db now name ip))
        | Some row => (inr (ReadUserRow row, u_password_hash row), st)
        end
  end.

(** [INSERT INTO sessions]: refused on a token hash that is already there or a
    user that no longer is. *)
Definition insert_session (db : Db) (hash : list Z) (userId now expires : Z) (ip : list Z) : option Db :=
  if existsb (fun s => bool_decide (s_token_hash s = hash)) (sessions db) then None
  else match user_with_id db userId with
  | None => None
  | Some _ =>
      Some (mkDb (users db) (next_user db)
              (sessions db ++ [mkSessionRow (next_session db) hash userId now expires ip])
              (next_session db + 1) (login_failures db) (audit_log db) (next_audit db))
  end.

(** The second critical section, with the account read in the first and the
    outcome of the verification; [buffer] are the random bytes of the token. *)
Definition login_finish (st : SecurityStore) (now : Z) (user : User) (passwordOk : bool) (name ip : list Z)
  (tokenLifetimeSeconds maxSessionsPerUser : Z) (buffer : list Z)
  : res (LoginResult * option (list Z * Session) * SecurityStore) :=
  match st with
  | None => Ok (kInternalError, None, st)
  | Some db =>
      if negb passwordOk then
        Ok (kInvalidCredentials, None, Some (RecordFailureUnlocked db now name ip))
      else if negb (enabled user) then
        Ok (kDisabled, None, Some (RecordFailureUnlocked db now name ip))
      else
        let db1 := EnforceSessionLimitUnlocked (ClearFailuresUnlocked db name) (id user) maxSessionsPerUser in
        match RandomHex buffer with
        | [] => Ok (kInternalError, None, Some db1)
        | token =>
            let expires := now + (if 0 <? tokenLifetimeSeconds then tokenLifetimeSeconds else 1800) in
            hash ← TokenHash token;
            match insert_session db1 hash (id user) now expires ip with
            | None => Ok (kInternalError, None, Some db1)
            | Some db2 =>
                Ok (LoginOk,
                    Some (token, mkSession (next_session db1) (id user) (username user) (role user) now expires ip),
                    Some (update_user db2 (id user) (set_last_login now)))
            end
        end
  end.

(** A login with nothing in between; [now] and [now'] are the two clock readings. *)
Definition Login (st : SecurityStore) (now now' : Z) (name password ip : list Z)
  (maxFailedAttempts lockoutSeconds tokenLifetimeSeconds maxSessionsPerUser : Z) (buffer : list Z)
  : res (LoginResult * Z * option (list Z * Session) * SecurityStore) :=
  match login_begin st now name ip maxFailedAttempts lockoutSeconds with
  | (inl (result, remaining), st') => Ok (result, remaining, None, st')
  | (inr (user, storedHash), st') =>
      '(result, session, st'') ← login_finish st' now' user (Verify storedHash password) name ip
                                   tokenLifetimeSeconds maxSessionsPerUser buffer;
      Ok (result, 0, session, st'')
  end.

(** ** Sessions *)

Definition session_with_hash (db : Db) (hash : list Z) : option SessionRow :=
  List.find (fun s => bool_decide (s_token_hash s = hash)) (sessions db).

(** The row of the join, as a session; the role is the account's present one. *)
Definition join_session (s : SessionRow) (u : UserRow) : Session :=
  mkSession (s_id s) (s_user_id s) (u_username u) (role_of (u_role u)) (s_issued_at s) (s_expires_at s)
    (s_source_ip s).

Definition Authenticate (st : SecurityStore) (now : Z) (token : list Z)
  : res (option Session * SecurityStore) :=
  match token, st with
  | [], _ | _, None => Ok (None, st)
  | _, Some db =>
      hash ← TokenHash token;
      match session_with_hash db hash with
      | None => Ok (None, st)
      | Some s =>
          match user_with_id db (s_user_id s) with
          | None => Ok (None, st)
          | Some u =>
              if s_expires_at s <=? now
              then Ok (None, Some (with_sessions db
                     (List.filter (fun s => negb (bool_decide (s_token_hash s = hash))) (sessions db))))
              else Ok (if u_enabled u then Some (join_session s u) else None, st)
          end
      end
  end.

Definition Revoke (st : SecurityStore) (token : list Z) : res (bool * SecurityStore) :=
  match token, st with
  | [], _ | _, None => Ok (false, st)
  | _, Some db =>
      hash ← TokenHash token;
      let kept := List.filter (fun s => negb (bool_decide (s_token_hash s = hash))) (sessions db) in
      Ok ((length kept <? length (sessions db))%nat, Some (with_sessions db kept))
  end.

Definition PurgeExpiredSessions (st : SecurityStore) (now : Z) : Z * SecurityStore :=
  match st with
  | None => (0, st)
  | Some db =>
      let kept := List.filter (fun s => negb (s_expires_at s <=? now)) (sessions db) in
      (Z.of_nat (length (sessions db)) - Z.of_nat (length kept), Some (with_sessions db kept))
  end.

Definition CountActiveSessions (st : SecurityStore) (now userId : Z) : Z :=
  match st with
  | None => 0
  | Some db =>
      Z.of_nat (length (List.filter (fun s => (s_user_id s =? userId) && (now <? s_expires_at s)) (sessions db)))
  end.

(** ** Audit *)

Definition RecordAudit (st : SecurityStore) (now : Z) (event name ip resource result reason : list Z)
  : SecurityStore :=
  match st with
  | None => st
  | Some db =>
      Some (with_audit db (audit_log db ++ [mkAudit (next_audit db) now event name ip resource result reason])
              (next_audit db + 1))
  end.

Definition PruneAudit (st : SecurityStore) (now days : Z) : Z * SecurityStore :=
  if days <=? 0 then (0, st)
  else match st with
  | None => (0, st)
  | Some db =>
      let kept := List.filter (fun e => negb (a_timestamp e <? now - days * 86400)) (audit_log db) in
      (Z.of_nat (length (audit_log db)) - Z.of_nat (length kept), Some (with_audit db kept (next_audit db)))
  end.

(** ** Every operation as atomic steps, in any interleaving

    A login is its two critical sections; between them any other step may
    happen, so the account a login finishes with is whatever it was when the
    login began, or at any earlier time. *)
Inductive store_step : SecurityStore -> SecurityStore -> Prop :=
| step_create st now name enc r display : store_step st (CreateUser st now name enc r display).2
| step_password st now userId enc : store_step st (set_password_row st now userId enc).2
| step_enabled st userId value : store_step st (set_enabled_row st userId value).2
| step_role st userId r : store_step st (set_role_row st userId r).2
| step_revoke_all st userId : store_step st (RevokeAllForUser st userId).2
| step_delete st userId : store_step st (DeleteUser st userId).2
| step_begin st now name ip m l : store_step st (login_begin st now name ip m l).2
| step_finish st now user ok name ip life cap buffer result session st' :
    login_finish st now user ok name ip life cap buffer = Ok (result, session, st') -> store_step st st'
| step_authenticate st now token session st' :
    Authenticate st now token = Ok (session, st') -> store_step st st'
| step_revoke st token done st' : Revoke st token = Ok (done, st') -> store_step st st'
| step_purge st now : store_step st (PurgeExpiredSessions st now).2
| step_audit st now event name ip resource result reason :
    store_step st (RecordAudit st now event name ip resource result reason)
| step_prune st now days : store_step st (PruneAudit st now days).2.

End Operations.

(** ** The schema's constraints *)

Definition folded (row : UserRow) : list Z := map tolower (u_username row).

Record db_ok (db : Db) : Prop := {
  ok_user_ids : NoDup (map u_id (users db));
  ok_user_next : Forall (fun row => u_id row < next_user db) (users db);
  ok_user_names : NoDup (map folded (users db));
  ok_token_hashes : NoDup (map s_token_hash (sessions db));
  ok_session_ids : NoDup (map s_id (sessions db));
  ok_session_next : Forall (fun s => s_id s < next_session db) (sessions db);
  ok_session_users : Forall (fun s => s_user_id s ∈ map u_id (users db)) (sessions db)
}.

Definition store_ok (st : SecurityStore) : Prop := match st with None => True | Some db => db_ok db end.

Lemma same_name_iff a b : same_name a b = true <-> map tolower a = map tolower b.
Proof. apply bool_decide_eq_true. Qed.

Lemma db_ok_sessions db p : db_ok db -> db_ok (with_sessions db (List.filter p (sessions db))).
Proof.
  intros []. constructor; simpl; auto using NoDup_map_filter, Forall_filter_bool.
Qed.

Lemma db_ok_failures db fs : db_ok db -> db_ok (with_failures db fs).
Proof. by intros []. Qed.

Lemma db_ok_audit db es n : db_ok db -> db_ok (with_audit db es n).
Proof. by intros []. Qed.

(** An update that keeps the ids and names. *)
Lemma db_ok_update_user db userId f :
  (forall row, u_id (f row) = u_id row /\ u_username (f row) = u_username row) ->
  db_ok db -> db_ok (update_user db userId f).
Proof.
  intros Hf H. set (g := fun row => if u_id row =? userId then f row else row).
  assert (forall row, u_id (g row) = u_id row /\ folded (g row) = folded row) as Hg.
  { intros row. unfold g, folded. destruct (_ =? _); [|done]. by destruct (Hf row) as [-> ->]. }
  assert (map u_id (map g (users db)) = map u_id (users db)) as Hids.
  { rewrite map_map. apply map_ext. intros. apply Hg. }
  destruct H. constructor; simpl; fold g; rewrite ?Hids; auto.
  - apply Forall_map. eapply Forall_impl; [done|]. intros row Hr. simpl. by rewrite (proj1 (Hg row)).
  - rewrite map_map. erewrite map_ext; [done|]. intros. apply Hg.
Qed.

Lemma user_named_none db name : user_named db name = None ->
  map tolower name ∉ map folded (users db).
Proof.
  intros H (row & Hr & Hin)%list_elem_of_In%in_map_iff.
  apply (find_none_elem _ _ row) in H; [|by apply list_elem_of_In].
  assert (same_name (u_username row) name = true) by (by apply same_name_iff). congruence.
Qed.

Lemma NoDup_map_snoc {A B} (f : A -> B) l x : NoDup (map f l) -> f x ∉ map f l -> NoDup (map f (l ++ [x])).
Proof.
  intros. rewrite map_app. apply NoDup_app. split_and!; [done| |apply NoDup_singleton].
  intros y Hy Hin. apply list_elem_of_singleton in Hin. simpl in Hin. by subst.
Qed.

Lemma fresh_id {A} (key : A -> Z) l n : Forall (fun x => key x < n) l -> n ∉ map key l.
Proof.
  rewrite Forall_forall. intros H (x & Hx & Hin)%list_elem_of_In%in_map_iff.
  specialize (H x (proj2 (list_elem_of_In _ _) Hin)). lia.
Qed.

Lemma db_ok_insert_user db name display hash r now must db' :
  insert_user db name display hash r now must = Some db' -> db_ok db -> db_ok db'.
Proof.
  unfold insert_user. destruct (user_named db name) eqn:E; [done|]. intros [= <-] [].
  constructor; simpl; auto.
  - apply NoDup_map_snoc; [done|]. by apply fresh_id.
  - apply Forall_app. split; [|apply Forall_singleton; simpl; lia].
    eapply Forall_impl; [done|]. simpl. intros; lia.
  - apply NoDup_map_snoc; [done|]. by apply user_named_none.
  - eapply Forall_impl; [done|]. simpl. intros. rewrite map_app. apply elem_of_app. by left.
Qed.

Lemma user_with_id_elem db userId row : user_with_id db userId = Some row ->
  row ∈ users db /\ u_id row = userId.
Proof. intros H. apply find_some_elem in H as [H1 H2]. by apply Z.eqb_eq in H2. Qed.

Lemma db_ok_insert_session db hash userId now expires ip db' :
  insert_session db hash userId now expires ip = Some db' -> db_ok db -> db_ok db'.
Proof.
  unfold insert_session. destruct (existsb _ _) eqn:Hx; [done|].
  destruct (user_with_id db userId) as [row|] eqn:Hu; [|done]. intros [= <-] [].
  apply user_with_id_elem in Hu as [Hin Hid].
  constructor; simpl; auto.
  - apply NoDup_map_snoc; [done|]. intros (s & Hs & Hin')%list_elem_of_In%in_map_iff.
    enough (existsb (fun s => bool_decide (s_token_hash s = hash)) (sessions db) = true) by congruence.
    apply existsb_exists. exists s. split; [done|]. by apply bool_decide_eq_true.
  - apply NoDup_map_snoc; [done|]. by apply fresh_id.
  - apply Forall_app. split; [|apply Forall_singleton; simpl; lia].
    eapply Forall_impl; [exact ok_session_next0|]. simpl. intros; lia.
  - apply Forall_app. split; [done|]. constructor; [|done]. simpl. rewrite <- Hid.
    by apply list_elem_of_In, in_map, list_elem_of_In.
Qed.

Section Invariant.
Context {L : Sodium} {O : SqlOrder}.

Lemma db_ok_limit db userId cap : db_ok db -> db_ok (EnforceSessionLimitUnlocked db userId cap).
Proof. intros. unfold EnforceSessionLimitUnlocked. case_match; [done|]. by apply db_ok_sessions. Qed.

Lemma db_ok_delete db userId : db_ok db -> db_ok (with_sessions
  (with_users db (List.filter (fun row => negb (u_id row =? userId)) (users db)))
  (List.filter (fun s => negb (s_user_id s =? userId)) (sessions db))).
Proof.
  intros []. constructor; simpl; auto using NoDup_map_filter, Forall_filter_bool.
  apply Forall_forall. intros s [Hs Hin]%elem_of_filter_bool.
  rewrite Forall_forall in ok_session_users0. specialize (ok_session_users0 s Hin).
  apply list_elem_of_In, in_map_iff in ok_session_users0 as (row & Hr & Hrow).
  apply list_elem_of_In, in_map_iff. exists row. split; [done|]. apply filter_In. by rewrite Hr.
Qed.

Lemma login_finish_ok st now user ok name ip life cap buffer result session st' :
  login_finish st now user ok name ip life cap buffer = Ok (result, session, st') -> store_ok st -> store_ok st'.
Proof.
  unfold login_finish. intros H Hok. destruct st as [db|]; [|by simplify_eq]. simpl in Hok.
  destruct ok; simpl in H; [|simplify_eq; by apply db_ok_failures].
  destruct (enabled user); simpl in H; [|simplify_eq; by apply db_ok_failures].
  assert (db_ok (EnforceSessionLimitUnlocked (ClearFailuresUnlocked db name) (id user) cap)) as H1
    by (by apply db_ok_limit, db_ok_failures).
  destruct (RandomHex buffer) as [|t token]; [by simplify_eq|].
  inv_bind H. destruct (insert_session _ _ _ _ _ _) eqn:Hins; simplify_eq; [|done].
  apply db_ok_update_user; [done|]. by eapply db_ok_insert_session.
Qed.

Lemma db_step_ok st st' : store_step st st' -> store_ok st -> store_ok st'.
Proof.
  intros Hstep Hok. destruct Hstep.
  - unfold CreateUser. repeat case_match; simplify_eq; simpl; try done; by eapply db_ok_insert_user.
  - unfold set_password_row. repeat case_match; simpl; try done. by apply db_ok_update_user.
  - destruct st; simpl; [|done]. by apply db_ok_update_user.
  - unfold set_role_row. repeat case_match; simpl; try done. by apply db_ok_update_user.
  - destruct st; simpl; [|done]. by apply db_ok_sessions.
  - destruct st; simpl; [|done]. by apply db_ok_delete.
  - unfold login_begin. repeat case_match; simpl; try done. by apply db_ok_failures.
  - by eapply login_finish_ok.
  - unfold Authenticate in H. destruct token, st; try (simplify_eq; done).
    inv_bind H. repeat case_match; simplify_eq; try done; by apply db_ok_sessions.
  - unfold Revoke in H. destruct token, st; try (simplify_eq; done).
    inv_bind H. simplify_eq. by apply db_ok_sessions.
  - destruct st; simpl; [|done]. by apply db_ok_sessions.
  - destruct st; simpl; [|done]. by apply db_ok_audit.
  - unfold PruneAudit. repeat case_match; simpl; try done. by apply db_ok_audit.
Qed.

Lemma Load_ok st file now draws encoded : store_ok st -> (forall db, file = Some db -> db_ok db) ->
  store_ok (Load st file now draws encoded).2.
Proof.
  intros Hst Hf. unfold Load. destruct sodium_ok; simpl; [|done]. destruct file as [db|]; [|done].
  specialize (Hf db eq_refl).
  assert (db_ok (with_sessions db [])) as H0.
  { destruct Hf. constructor; simpl; auto; constructor. }
  repeat case_match; simpl; try done. by eapply db_ok_insert_user.
Qed.

End Invariant.

(** ** What a token is worth *)

#[local] Opaque digest_hex HexOf.

(** Tokens of a size the hasher can count; the gateway's have 64 bytes. *)
Definition short (token : list Z) : Prop := Z.of_nat (length token) * 8 < 2 ^ 64.

(** [ss] is what the tables say of the token's hash at time [now]. *)
Definition valid_session (db : Db) (now : Z) (token : list Z) (ss : Session) : Prop :=
  token <> [] /\ exists s u, s ∈ sessions db /\ s_token_hash s = digest_hex token /\
    u ∈ users db /\ u_id u = s_user_id s /\ u_enabled u = true /\ now < s_expires_at s /\
    ss = join_session s u.

Lemma session_with_hash_iff db hash s : db_ok db ->
  session_with_hash db hash = Some s <-> s ∈ sessions db /\ s_token_hash s = hash.
Proof.
  intros Hok. split.
  - intros H. apply find_some_elem in H as [H1 H2]. by apply bool_decide_eq_true in H2.
  - intros [Hs <-]. apply (find_unique s_token_hash); [apply Hok|done|by apply bool_decide_eq_true|].
    intros y Hy. by apply bool_decide_eq_true in Hy.
Qed.

Lemma user_with_id_iff db userId u : db_ok db ->
  user_with_id db userId = Some u <-> u ∈ users db /\ u_id u = userId.
Proof.
  intros Hok. split; [apply user_with_id_elem|]. intros [Hu <-].
  apply (find_unique u_id); [apply Hok|done|by apply Z.eqb_eq|]. intros y Hy. by apply Z.eqb_eq in Hy.
Qed.

Lemma Authenticate_some db now token ss st' : db_ok db -> short token ->
  Authenticate (Some db) now token = Ok (Some ss, st') <->
  valid_session db now token ss /\ st' = Some db.
Proof.
  intros Hok Hshort. unfold Authenticate, TokenHash, valid_session. rewrite HexOf_digest by done.
  cbn [mbind res_bind]. split.
  - destruct token as [|b token]; [done|]. destruct (session_with_hash db _) as [s|] eqn:Hs; [|done].
    apply session_with_hash_iff in Hs as [Hs Hh]; [|done].
    destruct (user_with_id db _) as [u|] eqn:Hu; [|done]. apply user_with_id_iff in Hu as [Hu Hid]; [|done].
    destruct (s_expires_at s <=? now) eqn:He; [done|]. apply Z.leb_gt in He.
    destruct (u_enabled u) eqn:Hen; [|done]. intros [= <- <-]. split; [|done]. split; [done|].
    exists s, u. by split_and!.
  - intros [[Hne (s & u & Hs & Hh & Hu & Hid & Hen & He & ->)] ->].
    destruct token as [|b token]; [by destruct (Hne eq_refl)|].
    rewrite (proj2 (session_with_hash_iff db _ s Hok) (conj Hs Hh)).
    rewrite (proj2 (user_with_id_iff db _ u Hok) (conj Hu Hid)).
    by rewrite (proj2 (Z.leb_gt _ _)), Hen by done.
Qed.

Lemma Authenticate_total st now token : short token -> exists r st', Authenticate st now token = Ok (r, st').
Proof.
  intros Hshort. unfold Authenticate, TokenHash. rewrite HexOf_digest by done.
  destruct token, st; cbn [mbind res_bind]; repeat case_match; eauto.
Qed.

(** ** Revocation *)

Section Revocation.
Context {L : Sodium} {O : SqlOrder}.

(** The operations after which an account's sessions must be worthless. *)
Inductive revokes (st : SecurityStore) (userId : Z) : SecurityStore -> Prop :=
| by_password now enc st' : SetPassword st now userId enc = (Ok tt, st') -> revokes st userId st'
| by_role r st' : SetRole st userId r = (true, st') -> revokes st userId st'
| by_disabling st' : SetEnabled st userId false = (true, st') -> revokes st userId st'
| by_deleting st' : DeleteUser st userId = (Ok tt, st') -> revokes st userId st'
| by_revoking : revokes st userId (RevokeAllForUser st userId).2.

(** All of them drop the account's sessions and leave the other accounts alone. *)
Definition revoked (db : Db) (userId : Z) (db' : Db) : Prop :=
  sessions db' = List.filter (fun s => negb (s_user_id s =? userId)) (sessions db) /\
  (forall u, u_id u <> userId -> u ∈ users db' <-> u ∈ users db).

Lemma update_user_other db userId f u : (forall row, u_id (f row) = u_id row) -> u_id u <> userId ->
  u ∈ users (update_user db userId f) <-> u ∈ users db.
Proof.
  intros Hf Hu. simpl. rewrite !list_elem_of_In, in_map_iff. split.
  - intros (row & Hrow & Hin). destruct (u_id row =? userId) eqn:E; [|by subst].
    apply Z.eqb_eq in E. subst u. rewrite Hf in Hu. done.
  - intros Hin. exists u. by rewrite (proj2 (Z.eqb_neq _ _)).
Qed.

Lemma revokes_revoked st userId st' : revokes st userId st' -> store_ok st ->
  match st, st' with
  | Some db, Some db' => db_ok db' /\ revoked db userId db'
  | _, _ => st' = st
  end.
Proof.
  intros H Hok. destruct st as [db|]; [|destruct H; simpl in *; try done; unfold SetPassword, SetRole, SetEnabled,
    set_password_row, set_role_row, set_enabled_row in *; repeat case_match; simplify_eq; done].
  simpl in Hok.
  assert (forall f, (forall row, u_id (f row) = u_id row /\ u_username (f row) = u_username row) ->
    let db' := with_sessions (update_user db userId f)
                 (List.filter (fun s => negb (s_user_id s =? userId)) (sessions db)) in
    db_ok db' /\ revoked db userId db') as Hupdate.
  { intros f Hf db'. split.
    - apply (db_ok_sessions (update_user db userId f)). by apply db_ok_update_user.
    - split; [done|]. intros. apply update_user_other; [|done]. intros. apply Hf. }
  destruct H as [now enc st' H|r st' H|st' H|st' H|].
  - unfold SetPassword, set_password_row in H. destruct (Hash enc); simplify_eq. by apply Hupdate.
  - unfold SetRole, set_role_row in H. destruct (bool_decide _); simplify_eq. by apply Hupdate.
  - unfold SetEnabled, set_enabled_row in H. simplify_eq. by apply Hupdate.
  - unfold DeleteUser in H. simplify_eq. split; [by apply db_ok_delete|]. split; [done|].
    intros u Hu. simpl. rewrite elem_of_filter_bool, (proj2 (Z.eqb_neq _ _)) by done. naive_solver.
  - simpl. split; [by apply db_ok_sessions|done].
Qed.

Lemma revoked_valid db userId db' now token ss : revoked db userId db' ->
  valid_session db' now token ss <-> valid_session db now token ss /\ session_user_id ss <> userId.
Proof.
  intros [Hs Hu]. unfold valid_session. split.
  - intros (Hne & s & u & Hin & Hh & Hin' & Hid & Hen & He & ->). rewrite Hs in Hin.
    apply elem_of_filter_bool in Hin as [Hneq Hin]. apply negb_true_iff, Z.eqb_neq in Hneq.
    split; [|done]. split; [done|]. exists s, u. rewrite Hu in Hin' by congruence. by split_and!.
  - intros [(Hne & s & u & Hin & Hh & Hin' & Hid & Hen & He & ->) Hneq]. simpl in Hneq.
    split; [done|]. exists s, u. rewrite Hs, Hu by congruence. split_and!; try done.
    apply elem_of_filter_bool. by rewrite (proj2 (Z.eqb_neq _ _)).
Qed.

(** The hash of [token] is in the sessions table, of account [userId]. *)
Definition held_by (st : SecurityStore) (userId : Z) (token : list Z) : Prop :=
  exists db s, st = Some db /\ s ∈ sessions db /\ s_token_hash s = digest_hex token /\ s_user_id s = userId.

(** A login finishes by issuing a token with the same hash as [token]. *)
Definition reissues (token : list Z) (st st' : SecurityStore) : Prop :=
  exists now user name ip life cap buffer result token' session,
    login_finish st now user true name ip life cap buffer = Ok (result, Some (token', session), st') /\
    TokenHash token' = Ok (digest_hex token).

(** Any later operation of any thread but one that issues the token anew. *)
Definition quiet_step (token : list Z) (st st' : SecurityStore) : Prop :=
  store_step st st' /\ ~ reissues token st st'.

Definition hashes (st : SecurityStore) : list (list Z) :=
  match st with Some db => map s_token_hash (sessions db) | None => [] end.

Lemma hashes_filter hash (p : SessionRow -> bool) db :
  hash ∈ map s_token_hash (List.filter p (sessions db)) -> hash ∈ map s_token_hash (sessions db).
Proof.
  rewrite !list_elem_of_In, !in_map_iff. intros (s & Hs & Hin). apply filter_In in Hin as [Hin _]. by exists s.
Qed.

Lemma quiet_hashes token st st' : quiet_step token st st' ->
  digest_hex token ∈ hashes st' -> digest_hex token ∈ hashes st.
Proof.
  intros [Hstep Hquiet]. destruct Hstep.
  - unfold CreateUser, insert_user. by repeat (case_match; simplify_eq; simpl).
  - unfold set_password_row. by repeat case_match.
  - by destruct st.
  - unfold set_role_row. by repeat case_match.
  - destruct st; [|done]. apply hashes_filter.
  - destruct st; [|done]. apply hashes_filter.
  - unfold login_begin. by repeat case_match.
  - rename H into Hf. pose proof Hf as Hfin. unfold login_finish in Hf. destruct st as [db|]; [|by simplify_eq].
    destruct ok; simpl in Hf; [|by simplify_eq]. destruct (enabled user); simpl in Hf; [|by simplify_eq].
    assert (forall h, h ∈ map s_token_hash (sessions (EnforceSessionLimitUnlocked (ClearFailuresUnlocked db name) (id user) cap))
      -> h ∈ map s_token_hash (sessions db)) as Hcap.
    { intros h. unfold EnforceSessionLimitUnlocked. destruct (cap <=? 0); [exact (fun H => H)|]. apply hashes_filter. }
    destruct (RandomHex buffer) as [|t drawn] eqn:Hb; [simplify_eq; apply Hcap|].
    inv_bind Hf. unfold insert_session in Hf.
    destruct (existsb _ _); [simplify_eq; apply Hcap|].
    destruct (user_with_id _ _); [|simplify_eq; apply Hcap].
    simplify_eq. simpl. rewrite map_app, elem_of_app. intros [Hin|Hin]; [by apply Hcap|].
    apply list_elem_of_singleton in Hin. simpl in Hin. destruct Hquiet.
    eexists _, _, _, _, _, _, _, _, _, _. split; [exact Hfin|]. by rewrite Hin.
  - unfold Authenticate in H. destruct token0, st; try (by simplify_eq).
    inv_bind H. repeat case_match; simplify_eq; try done; apply hashes_filter.
  - unfold Revoke in H. destruct token0, st; try (by simplify_eq). inv_bind H. simplify_eq. apply hashes_filter.
  - destruct st; [|done]. apply hashes_filter.
  - by destruct st.
  - unfold PruneAudit. by repeat case_match.
Qed.

(** A login that issues a token leaves its hash in the table. *)
Lemma reissues_hash token st st' : reissues token st st' -> digest_hex token ∈ hashes st'.
Proof.
  intros (now & user & name & ip & life & cap & buffer & result & token' & session & Hf & Hh).
  unfold login_finish in Hf. destruct st as [db|]; [|done]. simpl in Hf.
  destruct (enabled user); simpl in Hf; [|done]. destruct (RandomHex buffer) as [|t drawn] eqn:Hb; [done|].
  inv_bind Hf. unfold insert_session in Hf. destruct (existsb _ _); [done|]. destruct (user_with_id _ _); [|done].
  simplify_eq. simpl. rewrite map_app, elem_of_app. right. rewrite Hm in Hh. injection Hh as ->. by left.
Qed.

(** A token whose hash is gone stays refused until it is issued again. *)
Lemma gone_token_refused token st st' now r st2 : short token -> digest_hex token ∉ hashes st ->
  rtc (quiet_step token) st st' -> Authenticate st' now token = Ok (r, st2) -> r = None.
Proof.
  intros Hshort Hgone Hrtc Ha.
  assert (digest_hex token ∉ hashes st') as H.
  { clear Ha. induction Hrtc as [|x y z Hxy _ IH]; [done|]. apply IH. by intros Hin%(quiet_hashes _ _ _ Hxy). }
  clear Hrtc Hgone. unfold Authenticate, TokenHash in Ha. rewrite HexOf_digest in Ha by done.
  destruct token as [|b token]; [by simplify_eq|]. destruct st' as [db|]; [|by simplify_eq].
  cbn [mbind res_bind] in Ha. destruct (session_with_hash db _) as [s|] eqn:Hs; [|by simplify_eq].
  destruct H. apply find_some_elem in Hs as [Hs Hh]. apply bool_decide_eq_true in Hh. simpl. rewrite <- Hh.
  by apply list_elem_of_In, in_map, list_elem_of_In.
Qed.

(** A revocation drops the hash of every token the account held. *)
Lemma revoked_gone st userId st' token : store_ok st -> revokes st userId st' -> held_by st userId token ->
  digest_hex token ∉ hashes st'.
Proof.
  intros Hok Hrev (db & s & -> & Hs & Hh & Hu). pose proof (revokes_revoked _ _ _ Hrev Hok) as H.
  destruct st' as [db'|]; [|done]. destruct H as [_ [Hsess _]]. simpl. rewrite Hsess.
  rewrite list_elem_of_In, in_map_iff. intros (s' & Hh' & Hin). apply filter_In in Hin as [Hin Hne].
  apply negb_true_iff, Z.eqb_neq in Hne. apply Hne.
  apply list_elem_of_In in Hin. rewrite <- Hh in Hh'.
  destruct Hok. enough (s' = s) by congruence.
  by eapply (NoDup_key_inj s_token_hash).
Qed.

(** At once. *)
Lemma revocation_at_once st userId st' now token r st1 :
  store_ok st -> revokes st userId st' -> short token -> Authenticate st' now token = Ok (r, st1) ->
  match r with
  | Some ss => session_user_id ss <> userId /\ Authenticate st now token = Ok (Some ss, st)
  | None => forall ss st2, Authenticate st now token = Ok (Some ss, st2) -> session_user_id ss = userId
  end.
Proof.
  intros Hok Hrev Hs Ha. pose proof (revokes_revoked _ _ _ Hrev Hok) as H.
  destruct st as [db|]; [|subst st'; unfold Authenticate in *; destruct token; simplify_eq; by intros].
  destruct st' as [db'|]; [destruct H as [Hok' H]|done]. simpl in Hok.
  pose proof (fun ss => revoked_valid db userId db' now token ss H) as Hiff.
  destruct r as [ss|].
  - apply Authenticate_some in Ha as [Hv _]; [|done..]. apply Hiff in Hv as [Hv Hne].
    split; [done|]. by apply Authenticate_some.
  - intros ss st2 Hss. apply Authenticate_some in Hss as [Hv _]; [|done..].
    destruct (decide (session_user_id ss = userId)) as [|Hne]; [done|].
    assert (Authenticate (Some db') now token = Ok (Some ss, Some db')) as E.
    { apply Authenticate_some; [done..|]. split; [by apply Hiff|done]. }
    rewrite Ha in E. done.
Qed.

End Revocation.

(** ** A successful login *)

Section LoginFacts.
Context {L : Sodium} {O : SqlOrder}.

(** The cap leaves room for the session about to be issued. *)
Lemma limit_length db userId cap : db_ok db -> 0 < cap ->
  Z.of_nat (length (List.filter (fun s => s_user_id s =? userId)
    (sessions (EnforceSessionLimitUnlocked db userId cap)))) <= cap - 1.
Proof.
  intros Hok Hcap. unfold EnforceSessionLimitUnlocked. rewrite (proj2 (Z.leb_gt _ _)) by done.
  set (kept := take _ _). simpl.
  set (l := List.filter _ (List.filter _ _)).
  assert (length l <= length kept)%nat as Hl.
  { rewrite <- (length_map s_id l), <- (length_map s_id kept). apply List.NoDup_incl_length.
    - apply NoDup_ListNoDup, NoDup_map_filter, NoDup_map_filter, Hok.
    - intros i (s & <- & Hin)%in_map_iff. unfold l in Hin.
      apply filter_In in Hin as [Hin Hu]. apply filter_In in Hin as [_ Hk]. rewrite Hu in Hk. simpl in Hk.
      apply existsb_exists in Hk as (k & Hk & E). apply Z.eqb_eq in E. rewrite <- E. by apply in_map. }
  assert (length kept <= Z.to_nat (cap - 1))%nat; [|lia].
  unfold kept. rewrite length_take. destruct (1 <? cap) eqn:E; [lia|]. apply Z.ltb_ge in E. lia.
Qed.

Lemma insert_session_shape db hash userId now expires ip db' :
  insert_session db hash userId now expires ip = Some db' ->
  users db' = users db /\
  sessions db' = sessions db ++ [mkSessionRow (next_session db) hash userId now expires ip].
Proof. unfold insert_session. repeat case_match; intros; by simplify_eq. Qed.

Lemma length_RandomHex buffer : (length (RandomHex buffer) <= 2 * length buffer)%nat.
Proof.
  unfold RandomHex. case_match; simpl; [lia|]. clear.
  induction buffer as [|b buffer IH]; simpl; [lia|]. simpl in IH. lia.
Qed.

Lemma user_limit db userId cap : users (EnforceSessionLimitUnlocked db userId cap) = users db.
Proof. unfold EnforceSessionLimitUnlocked. by case_match. Qed.

(** What a successful second half did. *)
Lemma login_finish_spec db now row name ip life cap buffer token ss st' :
  db_ok db -> row ∈ users db -> Z.of_nat (length buffer) < 2 ^ 59 ->
  login_finish (Some db) now (ReadUserRow row) true name ip life cap buffer
    = Ok (LoginOk, Some (token, ss), st') ->
  u_enabled row = true /\ short token /\ token <> [] /\ exists db', st' = Some db' /\ db_ok db' /\
    ss = mkSession (session_id ss) (u_id row) (u_username row) (role_of (u_role row)) now
           (now + (if 0 <? life then life else 1800)) ip /\
    (forall t, t < expires_at ss -> valid_session db' t token ss) /\
    (0 < cap -> Z.of_nat (length (List.filter (fun s => s_user_id s =? u_id row) (sessions db'))) <= cap).
Proof.
  intros Hok Hrow Hbuf Hfin.
  pose proof (login_finish_ok _ _ _ _ _ _ _ _ _ _ _ _ Hfin Hok) as Hok'.
  unfold login_finish in Hfin. simpl in Hfin. destruct (u_enabled row) eqn:Hen; simpl in Hfin; [|done].
  set (db1 := EnforceSessionLimitUnlocked (ClearFailuresUnlocked db name) (u_id row) cap) in *.
  pose proof (length_RandomHex buffer) as Hlen.
  destruct (RandomHex buffer) as [|b tok] eqn:Htok; [done|].
  assert (short (b :: tok)) as Hshort by (unfold short; lia).
  unfold TokenHash in Hfin. rewrite HexOf_digest in Hfin by done. cbn [mbind res_bind] in Hfin.
  destruct (insert_session _ _ _ _ _ _) as [db2|] eqn:Hins; [|done]. injection Hfin as <- <- <-.
  apply insert_session_shape in Hins as [Hu Hs].
  assert (users db1 = users db) as Hu1 by (unfold db1; by rewrite user_limit).
  split_and!; [done|done|done|]. eexists. split_and!; [done|done|done| |].
  - intros t Ht. simpl in Ht. split; [done|].
    eexists _, (set_last_login now row). simpl. split_and!.
    + rewrite Hs. apply elem_of_app. right. by apply list_elem_of_singleton.
    + done.
    + rewrite Hu, Hu1. apply list_elem_of_In, in_map_iff. exists row.
      rewrite Z.eqb_refl. split; [done|]. by apply list_elem_of_In.
    + done.
    + done.
    + done.
    + done.
  - intros Hcap. simpl. rewrite Hs, List.filter_app, length_app. simpl. rewrite Z.eqb_refl. simpl.
    pose proof (limit_length (ClearFailuresUnlocked db name) (u_id row) cap (db_ok_failures _ _ Hok) Hcap).
    fold db1 in H. lia.
Qed.

Lemma user_named_elem db name row : user_named db name = Some row ->
  row ∈ users db /\ same_name (u_username row) name = true.
Proof. intros H. by apply find_some_elem in H. Qed.

(** ** Guessing *)

Lemma Login_locked db now now' name pw ip m l life cap buffer : 0 < m -> 0 < l ->
  m <= FailedAttemptsUnlocked db name (now - l) -> exists remaining, 1 <= remaining /\
  Login (Some db) now now' name pw ip m l life cap buffer = Ok (kLockedOut, remaining, None, Some db).
Proof.
  intros Hm Hl Hf. unfold Login, login_begin.
  rewrite (proj2 (Z.ltb_lt _ _) Hm), (proj2 (Z.ltb_lt _ _) Hl), (proj2 (Z.leb_le _ _) Hf). simpl.
  eexists. split; [|done]. case_match eqn:E; [lia|]. by apply Z.ltb_ge in E.
Qed.

(** A password that no account has. *)
Definition refuses (db : Db) (pw : list Z) : Prop :=
  forall row, row ∈ users db -> Verify (u_password_hash row) pw = false.

Lemma Login_wrong db now now' name pw ip m l life cap buffer : 0 < m -> 0 < l ->
  refuses db pw -> FailedAttemptsUnlocked db name (now - l) < m ->
  exists t, (t = now \/ t = now') /\
  Login (Some db) now now' name pw ip m l life cap buffer =
  Ok (kInvalidCredentials, 0, None, Some (RecordFailureUnlocked db t name ip)).
Proof.
  intros Hm Hl Hpw Hf. unfold Login, login_begin.
  rewrite (proj2 (Z.ltb_lt _ _) Hm), (proj2 (Z.ltb_lt _ _) Hl), (proj2 (Z.leb_gt _ _) Hf). simpl.
  destruct (user_named db name) as [row|] eqn:E; [|by exists now; split; [left|]].
  apply user_named_elem in E as [Hrow _]. rewrite (Hpw row Hrow). by exists now'; split; [right|].
Qed.

(** A guess: the clock as the name is looked up and as the outcome is recorded,
    the spelling of the name, the password, the address. *)
Record Guess := mkGuess { g_start : Z; g_end : Z; g_name : list Z; g_password : list Z; g_ip : list Z }.

(** Guesses made one after the other. *)
Fixpoint guess_many (st : SecurityStore) (attempts : list Guess) (m l life cap : Z) (buffer : list Z)
  : res (list LoginResult * SecurityStore) :=
  match attempts with
  | [] => Ok ([], st)
  | a :: rest =>
      '(result, _, _, st') ← Login st (g_start a) (g_end a) (g_name a) (g_password a) (g_ip a) m l life cap buffer;
      '(results, st'') ← guess_many st' rest m l life cap buffer;
      Ok (result :: results, st'')
  end.

(** Within the lockout period from [t0]. *)
Definition within (t0 l t : Z) : Prop := t0 <= t <= t0 + l.

(** A wrong guess at [name] within one lockout period from [t0]. *)
Definition wrong_guess (db : Db) (name : list Z) (t0 l : Z) (a : Guess) : Prop :=
  within t0 l (g_start a) /\ within t0 l (g_end a) /\ same_name (g_name a) name = true /\ refuses db (g_password a).

(** [n] failures count at any time of that period. *)
Definition counted (db : Db) (name : list Z) (t0 l n : Z) : Prop :=
  forall t name', t0 <= t <= t0 + l -> same_name name' name = true ->
  FailedAttemptsUnlocked db name' (t - l) = n.

Lemma same_name_eq a b c : same_name a b = true -> same_name c a = same_name c b.
Proof. intros H%same_name_iff. unfold same_name. by rewrite H. Qed.

Lemma counted_record db name t0 l n now name' ip : counted db name t0 l n ->
  t0 <= now <= t0 + l -> same_name name' name = true ->
  counted (RecordFailureUnlocked db now name' ip) name t0 l (n + 1).
Proof.
  intros Hc Hnow Hn' t name'' Ht Hn''. rewrite <- (Hc t name'' Ht Hn'').
  unfold FailedAttemptsUnlocked, failures_since. simpl. rewrite List.filter_app, length_app. simpl.
  rewrite (same_name_eq name'' name name' Hn''), Hn', (proj2 (Z.leb_le _ _)) by lia. simpl. lia.
Qed.

Lemma wrong_guess_users db db' name t0 l a : users db' = users db -> wrong_guess db name t0 l a ->
  wrong_guess db' name t0 l a.
Proof. unfold wrong_guess, refuses. by intros ->. Qed.

Lemma guess_many_spec attempts name t0 m l life cap buffer : 0 < m -> 0 < l ->
  forall db n, Forall (wrong_guess db name t0 l) attempts ->
  counted db name t0 l (Z.of_nat n) -> (n <= Z.to_nat m)%nat ->
  exists db', guess_many (Some db) attempts m l life cap buffer =
    Ok (replicate (Nat.min (length attempts) (Z.to_nat m - n)) kInvalidCredentials ++
        replicate (length attempts - (Z.to_nat m - n)) kLockedOut, Some db') /\
    counted db' name t0 l (Z.of_nat (n + Nat.min (length attempts) (Z.to_nat m - n))) /\ users db' = users db.
Proof.
  intros Hm Hl. induction attempts as [|[now now' nm pw ip] attempts IH]; intros db n Hall Hc Hn; simpl.
  { exists db. rewrite Nat.add_0_r. split_and!; auto. }
  apply Forall_cons in Hall as [(Ht & Ht' & Hnm & Hpw) Hall]. simpl in *.
  destruct (decide (n = Z.to_nat m)) as [->|Hne].
  - assert (FailedAttemptsUnlocked db nm (now - l) = Z.of_nat (Z.to_nat m)) as Hf by (by apply Hc).
    destruct (Login_locked db now now' nm pw ip m l life cap buffer) as (r & _ & ->); [done|done|lia|].
    cbn [mbind res_bind]. destruct (IH db (Z.to_nat m) Hall Hc) as (db' & -> & Hc' & Hu); [lia|].
    exists db'. rewrite Nat.sub_diag, !Nat.min_0_r, !Nat.sub_0_r in *. cbn [mbind res_bind]. by split_and!.
  - assert (FailedAttemptsUnlocked db nm (now - l) = Z.of_nat n) as Hf by (by apply Hc).
    destruct (Login_wrong db now now' nm pw ip m l life cap buffer) as (t & Hwhen & ->); [done|done|done|lia|].
    cbn [mbind res_bind]. assert (within t0 l t) as Hin by (by destruct Hwhen as [-> | ->]).
    destruct (IH (RecordFailureUnlocked db t nm ip) (S n)) as (db' & -> & Hc' & Hu).
    { eapply Forall_impl; [exact Hall|]. intros a. by apply wrong_guess_users. }
    { replace (Z.of_nat (S n)) with (Z.of_nat n + 1) by lia. by apply counted_record. }
    { lia. }
    exists db'. cbn [mbind res_bind].
    replace (Z.to_nat m - n)%nat with (S (Z.to_nat m - S n)) by lia.
    split_and!; [done| |done].
    assert (forall a b, a = b -> counted db' name t0 l (Z.of_nat a) -> counted db' name t0 l (Z.of_nat b))
      as Hcast by (by intros ? ? ->).
    eapply Hcast; [|exact Hc']. lia.
Qed.

End LoginFacts.

(** ** Properties *)

(** A concrete libsodium and ordering, for the examples: a stored hash verifies
    exactly the password it is. *)
Definition demo_sodium : Sodium := {|
  sodium_ok := true; pw_verify := fun hash pw => bool_decide (hash = pw); pw_needs_rehash := fun _ => 0 |}.

Definition sort_newest (l : list SessionRow) : list SessionRow :=
  sort_by (fun s x => s_issued_at x <=? s_issued_at s) l.

Lemma sort_newest_sorted l : StronglySorted newer (sort_newest l).
Proof.
  eapply StronglySorted_impl, (sort_by_sorted _ (fun _ => True)).
  - unfold newer. intros x y H. by apply Z.leb_le.
  - intros x y _ _ H. apply Z.leb_gt in H. apply Z.leb_le. lia.
  - intros x y z _ _ _ H1 H2. apply Z.leb_le in H1, H2. apply Z.leb_le. lia.
  - by apply Forall_true.
Qed.

Definition demo_order : SqlOrder := {|
  newest_first := sort_newest; newest_first_perm := sort_by_perm _; newest_first_sorted := sort_newest_sorted |}.

Definition demo_db : Db :=
  mkDb [mkUserRow 1 (b! "admin") (b! "Administrator") (b! "s3cret") "ADMIN" true 100 0 100 false;
        mkUserRow 2 (b! "Eve") (b! "Eve") (b! "hunter2") "USER" true 100 0 100 false] 3 [] 1 [] [] 1.

Lemma demo_db_ok : db_ok demo_db.
Proof.
  constructor; simpl; repeat constructor; simpl; try lia; try (intros H; set_unfold; naive_solver).
Qed.

(** The same accounts with one session, of the second one. *)
Definition demo_session_db (hash : list Z) : Db :=
  mkDb (users demo_db) 3 [mkSessionRow 1 hash 2 100 900 []] 2 [] [] 1.

Lemma demo_session_db_ok hash : db_ok (demo_session_db hash).
Proof.
  destruct demo_db_ok. constructor; simpl; auto using NoDup_singleton.
  - apply Forall_singleton. simpl. lia.
  - apply Forall_singleton. simpl. set_solver.
Qed.

(** C3: Whatever the database held when it was opened, provided it satisfied its
    schema, and whatever operations of any number of threads interleave on it,
    user ids, user names (up to case), session ids and token hashes stay
    unique and every session belongs to an existing account; opening it
    discards the sessions it held, and seeds an account only when it has none. *)
Theorem security_store_invariant (L : Sodium) (O : SqlOrder) file now draws encoded ok password st0 st :
  (forall db, file = Some db -> db_ok db) ->
  Load None file now draws encoded = (ok, password, st0) ->
  rtc store_step st0 st ->
  store_ok st /\
  (forall db0, st0 = Some db0 -> sessions db0 = []) /\
  (ok = true -> exists db db0, file = Some db /\ st0 = Some db0 /\
     (users db <> [] -> users db0 = users db /\ password = []) /\
     (users db = [] -> map u_username (users db0) = [b! "admin"] /\ password = RandomToken draws)).
Proof.
  intros Hfile Hload Hrtc. pose proof (Load_ok None file now draws encoded I Hfile) as Hst0.
  rewrite Hload in Hst0. simpl in Hst0. split.
  { clear Hload. induction Hrtc as [|x y z Hxy _ IH]; [done|]. by apply IH, (db_step_ok x y Hxy). }
  clear Hrtc Hst0. unfold Load in Hload. destruct sodium_ok; simpl in Hload; [|by simplify_eq].
  destruct file as [db|]; [|by simplify_eq].
  destruct (length (users db) =? 0)%nat eqn:E.
  - apply Nat.eqb_eq, nil_length_inv in E.
    destruct (Hash encoded) as [|h hash]; [injection Hload as <- <- <-; split; [by intros ? [= <-]|done]|].
    unfold insert_user, user_named in Hload. simpl in Hload. rewrite E in Hload. simpl in Hload.
    injection Hload as <- <- <-. split; [by intros ? [= <-]|]. intros _. eexists _, _. by split_and!.
  - injection Hload as <- <- <-. split; [by intros ? [= <-]|]. intros _. eexists _, _.
    split_and!; [done|done|done|]. intros Hnil. by rewrite Hnil in E.
Qed.

Lemma security_store_invariant_witness :
  let st0 := (Load (L:=demo_sodium) None (Some demo_db) 500 [] None).2 in
  let st := (DeleteUser (CreateUser (L:=demo_sodium) st0 501 (b! "bob") (Some (b! "s3cret!")) kUser []).2 2).2 in
  store_ok st /\ (exists db, st = Some db /\ map u_username (users db) = [b! "admin"; b! "bob"]).
Proof.
  intros st0 st. split; [|eexists; split; [reflexivity|reflexivity]].
  refine (proj1 (security_store_invariant demo_sodium demo_order (Some demo_db) 500 [] None true [] st0 st _ _ _)).
  - intros db [= <-]. exact demo_db_ok.
  - reflexivity.
  - eapply rtc_l; [apply (step_create (L:=demo_sodium))|]. eapply rtc_l; [apply step_delete|]. apply rtc_refl.
Defined.

(** C4: A token authenticates exactly as the tables say: with a session whose
    stored hash is the token's SHA-256, not expired, of an enabled account, and
    with the role that account has now; so a demotion or a disabling counts at
    once.  Every other token is refused, and the call always answers. *)
Theorem authenticate_spec db now token : db_ok db -> short token ->
  exists r st', Authenticate (Some db) now token = Ok (r, st') /\
    (forall ss, r = Some ss <-> valid_session db now token ss) /\
    (r <> None -> st' = Some db).
Proof.
  intros Hok Hs. destruct (Authenticate_total (Some db) now token Hs) as (r & st' & Ha).
  pose proof (fun ss => Authenticate_some db now token ss st' Hok Hs) as Hiff. rewrite Ha in Hiff.
  exists r, st'. split; [done|]. split.
  - intros ss. split; [intros ->; by apply Hiff|]. intros Hv.
    assert (Authenticate (Some db) now token = Ok (Some ss, Some db)) as E by (by apply Authenticate_some).
    rewrite Ha in E. by injection E as -> _.
  - destruct r as [ss|]; [|done]. intros _. by apply (Hiff ss).
Qed.

Lemma authenticate_spec_witness :
  let db := demo_session_db (digest_hex [55]) in
  exists r st', Authenticate (Some db) 500 [55] = Ok (r, st') /\
    (forall ss, r = Some ss <-> valid_session db 500 [55] ss) /\ (r <> None -> st' = Some db).
Proof. intros db. apply (authenticate_spec db 500 [55]); [apply demo_session_db_ok|reflexivity]. Defined.

(** C5: Changing the password or the role of an account, disabling or deleting
    it, or revoking its sessions makes every token of that account worthless at
    once, and the tokens of all other accounts go on working exactly as before.
    The revoked tokens stay worthless for ever after, whatever operations of
    whatever threads follow - logins, password changes and re-enabling the
    account included - as long as no later login draws a token of the same hash
    again. *)
Theorem revocation_is_complete (L : Sodium) (O : SqlOrder) st userId st' now token r st1 :
  store_ok st -> revokes st userId st' -> short token -> Authenticate st' now token = Ok (r, st1) ->
  match r with
  | Some ss => session_user_id ss <> userId /\ Authenticate st now token = Ok (Some ss, st)
  | None => forall ss st2, Authenticate st now token = Ok (Some ss, st2) -> session_user_id ss = userId
  end /\
  (held_by st userId token -> r = None /\
   forall later now' r' st2, rtc (quiet_step token) st' later ->
     Authenticate later now' token = Ok (r', st2) -> r' = None).
Proof.
  intros Hok Hrev Hs Ha. split.
  - by eapply revocation_at_once.
  - intros Hheld. pose proof (revoked_gone _ _ _ _ Hok Hrev Hheld) as Hgone. split.
    + eapply gone_token_refused; [done|exact Hgone|apply rtc_refl|exact Ha].
    + intros later now' r' st2 Hlater Ha'. by eapply gone_token_refused.
Qed.

(** The revoked account is enabled once more: its old token stays worthless. *)
Lemma revocation_is_complete_witness :
  let db := demo_session_db (digest_hex [55]) in
  let st1 := (RevokeAllForUser (Some db) 2).2 in
  let st2 := (set_enabled_row st1 2 true).2 in
  Authenticate st1 500 [55] = Ok (None, st1) /\
  (forall ss st2, Authenticate (Some db) 500 [55] = Ok (Some ss, st2) -> session_user_id ss = 2) /\
  (forall now r st3, Authenticate st2 now [55] = Ok (r, st3) -> r = None).
Proof.
  intros db st1 st2. assert (Authenticate st1 500 [55] = Ok (None, st1)) as H by (vm_compute; reflexivity).
  destruct (revocation_is_complete demo_sodium demo_order (Some db) 2 st1 500 [55] None st1) as [Hbefore Hlater];
    [apply demo_session_db_ok|apply by_revoking|reflexivity|exact H|].
  split; [exact H|]. split; [exact Hbefore|].
  destruct Hlater as [_ Hlater].
  { eexists db, _. split; [reflexivity|]. split; [left|split; reflexivity]. }
  intros now r st3. apply Hlater. apply rtc_once. split; [apply step_enabled|].
  intros Hin%reissues_hash. apply (not_elem_of_nil _ Hin).
Defined.

(** C6: A login that succeeds had the password of an enabled account of that
    name (in any case), and the token it hands out authenticates as that
    account, with its role, at every instant up to the expiry and at none
    after; with a cap on sessions the account never has more of them. *)
Theorem login_issues_session (L : Sodium) (O : SqlOrder) db now now' name pw ip m l life cap buffer
  remaining token ss st' :
  db_ok db -> Z.of_nat (length buffer) < 2 ^ 59 ->
  Login (Some db) now now' name pw ip m l life cap buffer = Ok (LoginOk, remaining, Some (token, ss), st') ->
  exists row, row ∈ users db /\ same_name (u_username row) name = true /\ u_enabled row = true /\
    Verify (u_password_hash row) pw = true /\
    session_user_id ss = u_id row /\ session_role ss = role_of (u_role row) /\
    expires_at ss = now' + (if 0 <? life then life else 1800) /\
    (forall t, t < expires_at ss -> Authenticate st' t token = Ok (Some ss, st')) /\
    (forall t r st1, expires_at ss <= t -> Authenticate st' t token = Ok (r, st1) -> r = None) /\
    (0 < cap -> exists db', st' = Some db' /\
       Z.of_nat (length (List.filter (fun s => s_user_id s =? u_id row) (sessions db'))) <= cap).
Proof.
  intros Hok Hbuf Hlogin. unfold Login in Hlogin.
  destruct (login_begin (Some db) now name ip m l) as [[[result rem]|[user hash]] st0] eqn:Hb; [by simplify_eq|].
  unfold login_begin in Hb. destruct (_ && _)%bool; [done|]. destruct (user_named db name) as [row|] eqn:Hu; [|done].
  injection Hb as <- <- <-. apply user_named_elem in Hu as [Hrow Hname].
  destruct (login_finish _ _ _ _ _ _ _ _ _) as [[[result session] st'']| |] eqn:Hf; [|done..].
  simpl in Hlogin. injection Hlogin as -> <- -> ->.
  destruct (Verify (u_password_hash row) pw) eqn:Hpw; [|done].
  destruct (login_finish_spec db now' row name ip life cap buffer token ss st' Hok Hrow Hbuf Hf)
    as (Hen & Hshort & Hne & db' & -> & Hok' & Hss & Hvalid & Hcap).
  exists row. split_and!; [exact Hrow|exact Hname|exact Hen|exact Hpw|exact (f_equal session_user_id Hss)
    |exact (f_equal session_role Hss)|exact (f_equal expires_at Hss)| | |].
  - intros t Ht. apply Authenticate_some; [done|done|]. split; [by apply Hvalid|done].
  - intros t r st1 Ht Ha. destruct r as [ss'|]; [|done]. exfalso.
    apply Authenticate_some in Ha as [[_ (s & u & Hs & Hh & _ & _ & _ & He & _)] _]; [|done..].
    destruct (Hvalid (expires_at ss - 1)) as (_ & s' & u' & Hs' & Hh' & _ & _ & _ & _ & Hss'); [lia|].
    assert (session_with_hash db' (digest_hex token) = Some s) as E1 by (by apply session_with_hash_iff).
    assert (session_with_hash db' (digest_hex token) = Some s') as E2 by (by apply session_with_hash_iff).
    rewrite E1 in E2. injection E2 as <-. apply (f_equal expires_at) in Hss'. simpl in Hss'. lia.
  - intros Hc. exists db'. split; [done|]. by apply Hcap.
Qed.

Lemma login_issues_session_witness :
  let buffer := [1; 2; 3] in
  exists result token ss st',
    Login (L:=demo_sodium) (O:=demo_order) (Some demo_db) 1000 1000 (b! "EVE") (b! "hunter2") [] 5 900 1800 10 buffer
      = Ok (LoginOk, result, Some (token, ss), st') /\
    exists row, row ∈ users demo_db /\ session_user_id ss = u_id row /\
      (forall t, t < expires_at ss -> Authenticate st' t token = Ok (Some ss, st')).
Proof.
  intros buffer.
  destruct (Login (L:=demo_sodium) (O:=demo_order) (Some demo_db) 1000 1000 (b! "EVE") (b! "hunter2") [] 5 900 1800 10 buffer)
    as [[[[r rem] session] st']| |] eqn:E; [|vm_compute in E; discriminate E..].
  assert (r = LoginOk /\ session <> None) as [-> Hs] by (vm_compute in E; injection E as <- _ <- _; by split).
  destruct session as [[token ss]|]; [|by destruct Hs].
  exists rem, token, ss, st'. split; [reflexivity|].
  destruct (login_issues_session demo_sodium demo_order demo_db 1000 1000 (b! "EVE") (b! "hunter2") [] 5 900 1800 10
    buffer rem token ss st' demo_db_ok ltac:(vm_compute; reflexivity) E) as (row & H1 & _ & _ & _ & H2 & _ & _ & H3 & _).
  exists row. split; [exact H1|split; [exact H2|exact H3]].
Defined.

(** C17: Of wrong guesses at one name, made one after the other within one
    lockout period that starts with no failure of that name on record, exactly
    the first [m] are answered as invalid credentials, whatever their passwords,
    in whatever spelling of the name and from whatever address, and all others
    as locked out; the answers are the same whether or not the account exists.
    From then on, for the rest of the period, not even the right password is
    accepted, and nothing changes; once the last failure has left the window the
    name is not locked any more.  (Guesses that overlap can be more: see
    [overlapping_guesses_exceed].) *)
Theorem lockout_exact (L : Sodium) (O : SqlOrder) db name t0 attempts m l life cap buffer :
  0 < m -> 0 < l -> Forall (wrong_guess db name t0 l) attempts -> counted db name t0 l 0 ->
  let k := length attempts in
  exists db', guess_many (Some db) attempts m l life cap buffer =
    Ok (replicate (Nat.min k (Z.to_nat m)) kInvalidCredentials ++
        replicate (k - Z.to_nat m) kLockedOut, Some db') /\ users db' = users db /\
    ((Z.to_nat m <= k)%nat -> forall t t' name' pw ip, t0 <= t <= t0 + l -> same_name name' name = true ->
       exists remaining, 1 <= remaining /\
         Login (Some db') t t' name' pw ip m l life cap buffer = Ok (kLockedOut, remaining, None, Some db')) /\
    (forall t name' ip, (forall f, f ∈ login_failures db' -> same_name (f_username f) name' = true -> f_at f < t - l) ->
       forall remaining, (login_begin (Some db') t name' ip m l).1 <> inl (kLockedOut, remaining)).
Proof.
  intros Hm Hl Hatt Hc k.
  destruct (guess_many_spec attempts name t0 m l life cap buffer Hm Hl db 0 Hatt Hc) as (db' & Hg & Hc' & Hu); [lia|].
  rewrite Nat.sub_0_r in *. exists db'. split_and!; [done|done| |].
  - intros Hk t t' name' pw ip Ht Hname. apply Login_locked; [done|done|].
    rewrite (Hc' t name' Ht Hname). unfold k in Hk. lia.
  - intros t name' ip Hold remaining. unfold login_begin.
    assert (FailedAttemptsUnlocked db' name' (t - l) = 0) as ->.
    { unfold FailedAttemptsUnlocked, failures_since.
      destruct (List.filter _ _) as [|f fs] eqn:E; [done|]. exfalso.
      assert (f ∈ f :: fs) as Hin by left. rewrite <- E in Hin.
      apply elem_of_filter_bool in Hin as [Hp Hin]. apply andb_true_iff in Hp as [Hn Hp].
      apply Z.leb_le in Hp. specialize (Hold f Hin Hn). lia. }
    rewrite (proj2 (Z.leb_gt _ _) Hm), andb_false_r. by destruct (user_named db' name').
Qed.

Definition demo_guesses : list Guess :=
  [mkGuess 1000 1001 (b! "Eve") (b! "guess") []; mkGuess 1001 1001 (b! "eve") (b! "letmein") [7];
   mkGuess 1002 1003 (b! "EVE") (b! "guess") []].

Lemma lockout_exact_witness :
  exists db', guess_many (L:=demo_sodium) (O:=demo_order) (Some demo_db) demo_guesses 2 900 1800 10 [1]
      = Ok ([kInvalidCredentials; kInvalidCredentials; kLockedOut], Some db') /\ users db' = users demo_db.
Proof.
  destruct (lockout_exact demo_sodium demo_order demo_db (b! "eve") 1000 demo_guesses 2 900 1800 10 [1])
    as (db' & H & Hu & _).
  - lia.
  - lia.
  - repeat constructor; simpl; try lia; intros row Hrow; apply list_elem_of_In in Hrow as [<-|[<-|[]]]; reflexivity.
  - intros t name' _ _. reflexivity.
  - exists db'. split; [exact H|exact Hu].
Defined.

(** Guesses whose look-ups all come before the first failure is recorded are
    all checked against the password, however many they are. *)
Example overlapping_guesses_exceed :
  let begin db := (login_begin (Some db) 1000 (b! "Eve") [] 1 900).1 in
  exists account, begin demo_db = inr account /\
  match login_finish (L:=demo_sodium) (O:=demo_order) (Some demo_db) 1000 account.1 false (b! "Eve") [] 1800 10 [1] with
  | Ok (result, _, Some db1) =>
      result = kInvalidCredentials /\ begin db1 <> inr account /\
      match login_finish (L:=demo_sodium) (O:=demo_order) (Some db1) 1000 account.1 true (b! "Eve") [] 1800 10 [1] with
      | Ok (result2, _, _) => result2 = LoginOk
      | _ => False
      end
  | _ => False
  end.
Proof. eexists. split; [reflexivity|]. vm_compute. by split_and!. Qed.

(** A login that read the account before a password change and finishes after
    it still gets a session with the old password, and the change does not
    revoke it. *)
Example login_survives_password_change :
  match login_begin (Some demo_db) 1000 (b! "Eve") [] 5 900 with
  | (inr (user, storedHash), st1) =>
      match SetPassword (L:=demo_sodium) st1 1000 2 (Some (b! "new")) with
      | (Ok _, st2) =>
          match login_finish (L:=demo_sodium) (O:=demo_order) st2 1001 user
                  (Verify (L:=demo_sodium) storedHash (b! "hunter2")) (b! "Eve") [] 1800 10 [9] with
          | Ok (LoginOk, Some (token, _), st3) =>
              match Authenticate st3 1002 token with
              | Ok (Some ss, _) => session_user_id ss = 2
              | _ => False
              end
          | _ => False
          end
      | _ => False
      end
  | _ => False
  end.
Proof. vm_compute. reflexivity. Qed.

(** ** The type of an account *)

(** What every row of the table is: a name of the permitted form, one of the
    three role names exactly as [RoleName] writes them, a hash. *)
Definition row_typed (row : UserRow) : Prop :=
  ValidUsername (u_username row) = Ok tt /\ u_role row = RoleName (role_of (u_role row)) /\ u_password_hash row <> [].

Definition typed (st : SecurityStore) : Prop := match st with None => True | Some db => Forall row_typed (users db) end.

Section Typed.
Context {L : Sodium} {O : SqlOrder}.

Lemma typed_update db userId f : (forall row, row_typed row -> row_typed (f row)) ->
  typed (Some db) -> typed (Some (update_user db userId f)).
Proof.
  intros Hf H. simpl in *. apply Forall_map. eapply Forall_impl; [exact H|]. intros row Hr. simpl.
  destruct (_ =? _); auto.
Qed.

Lemma role_name_typed r : r <> kRoleCount -> RoleName r = RoleName (role_of (RoleName r)).
Proof. by destruct r. Qed.

Lemma typed_insert db name display hash r now must db' : insert_user db name display hash r now must = Some db' ->
  ValidUsername name = Ok tt -> r <> kRoleCount -> hash <> [] -> typed (Some db) -> typed (Some db').
Proof.
  unfold insert_user. destruct (user_named db name); [done|]. intros [= <-] Hn Hr Hh H. simpl in *.
  apply Forall_app. split; [done|]. apply Forall_singleton. split; [done|]. split; [|done]. by apply role_name_typed.
Qed.

Lemma login_finish_typed st now user ok name ip life cap buffer result session st' :
  login_finish st now user ok name ip life cap buffer = Ok (result, session, st') -> typed st -> typed st'.
Proof.
  unfold login_finish. destruct st as [db|]; [|by intros [= _ _ <-]]. intros H Ht.
  destruct (negb ok); [by injection H as _ _ <-|]. destruct (negb (enabled user)); [by injection H as _ _ <-|].
  set (db1 := EnforceSessionLimitUnlocked _ _ _) in H.
  assert (users db1 = users db) as Hu by (unfold db1; by rewrite user_limit).
  destruct (RandomHex buffer); [injection H as _ _ <-; simpl; by rewrite Hu|].
  inv_bind H. destruct (insert_session _ _ _ _ _ _) as [db2|] eqn:Hins; injection H as _ _ <-; [|simpl; by rewrite Hu].
  apply insert_session_shape in Hins as [Hu2 _]. apply typed_update; [done|]. simpl. by rewrite Hu2, Hu.
Qed.

Lemma typed_step st st' : store_step st st' -> typed st -> typed st'.
Proof.
  intros Hstep Ht. destruct Hstep.
  - unfold CreateUser. destruct (ValidUsername name) as [[]| |] eqn:Hn; simpl; try done.
    case_bool_decide; [done|]. destruct (Hash enc) as [|b hash]; [done|]. destruct st as [db|]; [|done].
    destruct (FindUserUnlocked (Some db) name); [done|]. destruct (insert_user _ _ _ _ _ _ _) eqn:E; [|done].
    destruct (user_named d name); simpl; by eapply typed_insert.
  - unfold set_password_row. destruct (Hash enc); [done|]. destruct st; [|done]. simpl.
    apply typed_update; [|done]. by intros row (? & ? & ?).
  - destruct st; [|done]. apply typed_update; [|done]. by intros row (? & ? & ?).
  - unfold set_role_row. case_bool_decide; [done|]. destruct st; [|done]. apply typed_update; [|done].
    intros row (? & ? & ?). split_and!; [done| |done]. by apply role_name_typed.
  - by destruct st.
  - destruct st; [|done]. by apply Forall_filter_bool.
  - unfold login_begin. repeat case_match; done.
  - by eapply login_finish_typed.
  - unfold Authenticate in H. destruct token, st; try (simplify_eq; done).
    inv_bind H. repeat case_match; by simplify_eq.
  - unfold Revoke in H. destruct token, st; try (simplify_eq; done). inv_bind H. by simplify_eq.
  - by destruct st.
  - by destruct st.
  - unfold PruneAudit. by repeat case_match.
Qed.

End Typed.

(** C10: The accounts are well typed: starting from a database whose rows are,
    or from an empty one, and under any interleaving of operations, every row
    has a name of 3 to 32 permitted characters, one of the three role names in
    the exact spelling that is counted and looked up, and a non-empty password
    hash; so the role an account has as a session sees it is the role its row
    stores, and [CountAdmins] counts exactly the enabled accounts that
    authenticate as administrators. *)
Theorem accounts_well_typed (L : Sodium) (O : SqlOrder) file now draws encoded ok password st0 st :
  typed file -> Load None file now draws encoded = (ok, password, st0) -> rtc store_step st0 st ->
  typed st /\
  CountAdmins st = match st with
    | None => 0
    | Some db => Z.of_nat (length (List.filter (fun user => bool_decide (role user = kAdmin) && enabled user)
                                     (map ReadUserRow (users db))))
    end.
Proof.
  intros Hfile Hload Hrtc. assert (typed st0) as Hst0.
  { unfold Load in Hload. destruct (negb sodium_ok); [by injection Hload as _ _ <-|].
    destruct file as [db|]; [|by injection Hload as _ _ <-].
    destruct (_ =? _)%nat; [|by injection Hload as _ _ <-].
    destruct (Hash encoded) eqn:Hh; [by injection Hload as _ _ <-|].
    destruct (insert_user _ _ _ _ _ _ _) eqn:E; injection Hload as _ _ <-; [|done].
    by eapply typed_insert. }
  assert (typed st) as Hst.
  { clear Hload. induction Hrtc as [|x y z Hxy _ IH]; [done|]. by apply IH, (typed_step x y Hxy). }
  split; [done|]. destruct st as [db|]; [|done]. unfold typed in Hst. unfold CountAdmins. f_equal.
  induction Hst as [|row l (_ & Hr & _) _ IH]; [done|]. cbn [List.filter map].
  assert (String.eqb (u_role row) (RoleName kAdmin) = bool_decide (role (ReadUserRow row) = kAdmin)) as ->.
  { simpl. rewrite Hr at 1. destruct (role_of (u_role row)); reflexivity. }
  cbn [enabled ReadUserRow]. destruct (_ && _)%bool; [apply (f_equal S)|]; exact IH.
Qed.

Lemma accounts_well_typed_witness :
  let st0 := (Load (L:=demo_sodium) None (Some demo_db) 500 [] None).2 in
  let st := (SetRole st0 2 kAdmin).2 in
  typed st /\ CountAdmins st = 2.
Proof.
  intros st0 st.
  destruct (accounts_well_typed demo_sodium demo_order (Some demo_db) 500 [] None true [] st0 st) as [H1 H2].
  - repeat constructor; try reflexivity; discriminate.
  - reflexivity.
  - eapply rtc_l; [apply (step_role _ 2 kAdmin)|]. apply rtc_once. apply (step_revoke_all _ 2).
  - split; [exact H1|reflexivity].
Defined.
