(* ===== verification/Middleware.v ===== *)
(** * The request pipeline (src/security/SecurityMiddleware.h)

    What happens to every HTTP request before its handler runs: body ceiling,
    rate limit, authentication, authorisation; and the headers added after it.
    The request's parts come from Crow, which is not part of the repository;
    they are the fields of [request].  [now] is the wall clock in seconds (for
    the security store) and [tick] the steady clock (for the limiters). *)

From S2P Require Import Prelude Words Text Float Sha256 Permissions RateLimiter Validation PasswordHash SecurityStore.

(** ** Configuration, request, state *)

(** The fields of [AuthConfig] the pipeline and the handlers of [AuthHandlers]
    read; rates are doubles. *)
Record AuthConfig := mkAuthConfig {
  auth_enabled : bool;
  token_lifetime_sec : Z; max_sessions_per_user : Z;
  max_failed_attempts : Z; lockout_seconds : Z;
  rate_limit_enabled : bool;
  login_rate_per_sec : Z; login_burst : Z; api_rate_per_sec : Z; api_burst : Z;
  max_body_bytes : Z; max_lua_body_bytes : Z;
  audit_enabled : bool;
  public_app_routes : bool;
  security_headers : bool;
  allowed_origins : list Z
}.

(** [authorization] and [origin] are header values, empty when absent. *)
Record request := mkRequest {
  url : list Z; method : list Z; authorization : list Z; origin : list Z; body : list Z; remote_ip : list Z
}.

Record Middleware := mkMiddleware {
  loginLimiter : RateLimiter; apiLimiter : RateLimiter; store : SecurityStore
}.

(** The limiters a gateway starts with: (0.2, 5.0) and (40.0, 120.0), each of
    4096 keys. *)
Definition new_middleware (st : SecurityStore) : Middleware :=
  mkMiddleware (new_limiter 0x3fc999999999999a 0x4014000000000000 4096)
    (new_limiter 0x4044000000000000 0x405e000000000000 4096) st.

(** [context]; the short-circuit flag is the verdict's constructor. *)
Record context := mkContext { ctx_session : option Session; ctx_source_ip : list Z }.
Definition authenticated (ctx : context) : bool := bool_decide (is_Some (ctx_session ctx)).

Inductive verdict :=
| Handler (ctx : context)                               (** the handler runs *)
| Answered (code : Z) (error : string) (retry_after : option Z).   (** the response is finished *)

(** ** Helpers *)

Definition ClientIp (req : request) : list Z := remote_ip req.

Definition kPrefix : list Z := b! "bearer ".

Definition BearerToken (req : request) : list Z :=
  let header := authorization req in
  if (length header <=? length kPrefix)%nat then []
  else if negb (bool_decide (map tolower (take (length kPrefix) header) = kPrefix)) then []
  else trim [32; 9; 13; 10] (drop (length kPrefix) header).

Definition PathOf (req : request) : list Z := (until 63 (url req)).1.

(** [Audit]: what is not a constant is sanitised. *)
Definition Audit (config : AuthConfig) (st : SecurityStore) (now : Z)
  (event username ip resource result reason : list Z) : SecurityStore :=
  if negb (audit_enabled config) then st
  else RecordAudit st now event (SanitiseForLog username 64) (SanitiseForLog ip 64)
         (SanitiseForLog resource 200) result (SanitiseForLog reason 200).

(** The cast of a double to [int], undefined outside its range. *)
Definition int_of_f64 (x : Z) : res Z :=
  match f64_trunc x with
  | Some z => if (- 2 ^ 31 <=? z) && (z <? 2 ^ 31) then Ok z else Fault
  | None => Fault
  end.

(** 0.999 *)
Definition almost_one : Z := 0x3feff7ced916872b.

(** ** Before the handler *)

Definition body_limit (config : AuthConfig) (path : list Z) : Z :=
  if starts_with (b! "/api/lua") path then Z.max 1024 (max_lua_body_bytes config)
  else Z.max 1024 (max_body_bytes config).

(** The two limiters, configured; which one counts the request. *)
Definition is_login (path : list Z) : bool := bool_decide (path = b! "/api/auth/login").

Definition limiter_for (m : Middleware) (config : AuthConfig) (path : list Z) : RateLimiter :=
  if is_login path then Configure (loginLimiter m) (login_rate_per_sec config) (login_burst config)
  else Configure (apiLimiter m) (api_rate_per_sec config) (api_burst config).

Definition with_limiter (m : Middleware) (config : AuthConfig) (path : list Z) (l : RateLimiter) : Middleware :=
  if is_login path
  then mkMiddleware l (Configure (apiLimiter m) (api_rate_per_sec config) (api_burst config)) (store m)
  else mkMiddleware (Configure (loginLimiter m) (login_rate_per_sec config) (login_burst config)) l (store m).

Definition with_store (m : Middleware) (st : SecurityStore) : Middleware :=
  mkMiddleware (loginLimiter m) (apiLimiter m) st.

(** Step 2; [Some retry] is a refusal. *)
Definition rate_limit (config : AuthConfig) (m : Middleware) (tick : Z) (path ip : list Z)
  : res (option Z * Middleware) :=
  if negb (rate_limit_enabled config) then Ok (None, m)
  else
    let '(allowed, l) := Allow (limiter_for m config path) (text_of ip) tick in
    if allowed then Ok (None, with_limiter m config path l)
    else
      let '(retry, l') := RetryAfter l (text_of ip) tick in
      seconds ← int_of_f64 (f64_add retry almost_one);
      Ok (Some seconds, with_limiter m config path l').

(** The policy of the request, script routes made public when configured so. *)
Definition effective_policy (config : AuthConfig) (path method : list Z) : RoutePolicy :=
  let policy := PolicyFor path method in
  if public_app_routes config && starts_with (b! "/api/app") path
  then mkPolicy (pattern policy) (methods policy) kPublic (permission policy)
  else policy.

(** Steps 4 and 5. *)
Definition authorise (config : AuthConfig) (m : Middleware) (now : Z) (policy : RoutePolicy)
  (req : request) : res (verdict * Middleware) :=
  let path := PathOf req in
  let ip := ClientIp req in
  match BearerToken req with
  | [] =>
      Ok (Answered 401 "UNAUTHENTICATED" None,
          with_store m (Audit config (store m) now (b! "ACCESS_DENIED") [] ip path (b! "DENIED") (b! "no bearer token")))
  | token =>
      '(session, st) ← Authenticate (store m) now token;
      match session with
      | None =>
          Ok (Answered 401 "UNAUTHENTICATED" None,
              with_store m (Audit config st now (b! "TOKEN_EXPIRED") [] ip path (b! "DENIED") (b! "invalid or expired token")))
      | Some ss =>
          if bool_decide (guard policy = kPermission) && negb (RoleHasPermission (session_role ss) (permission policy))
          then Ok (Answered 403 "FORBIDDEN" None,
                   with_store m (Audit config st now (b! "ACCESS_DENIED") (session_username ss) ip path (b! "DENIED")
                     (b! "missing " ++ bytes_of (PermissionName (permission policy)))))
          else Ok (Handler (mkContext (Some ss) ip), with_store m st)
      end
  end.

Definition before_handle (config : AuthConfig) (m : Middleware) (now tick : Z) (req : request)
  : res (verdict * Middleware) :=
  let ip := ClientIp req in
  let path := PathOf req in
  if bool_decide (method req = b! "OPTIONS") then Ok (Answered 204 "" None, m)
  else if body_limit config path <? Z.of_nat (length (body req)) then
    Ok (Answered 413 "REQUEST_TOO_LARGE" None,
        with_store m (Audit config (store m) now (b! "ACCESS_DENIED") [] ip path (b! "DENIED") (b! "body too large")))
  else
    '(refused, m1) ← rate_limit config m tick path ip;
    match refused with
    | Some retry =>
        Ok (Answered 429 "TOO_MANY_REQUESTS" (Some retry),
            with_store m1 (Audit config (store m1) now (b! "RATE_LIMITED") [] ip path (b! "DENIED")
              (if is_login path then b! "login rate limit" else b! "api rate limit")))
    | None =>
        if negb (auth_enabled config) then Ok (Handler (mkContext None ip), m1)
        else
          let policy := effective_policy config path (method req) in
          match guard policy with
          | kPublic | kApiKey => Ok (Handler (mkContext None ip), m1)
          | _ => authorise config m1 now policy req
          end
    end.

(** ** After the handler *)

Definition content_security_policy : string :=
  "default-src 'self'; script-src 'self' 'unsafe-inline' https://cdn.jsdelivr.net; style-src 'self' 'unsafe-inline' https://cdn.jsdelivr.net; img-src 'self' data:; connect-src 'self' ws: wss:; font-src 'self' data: https://cdn.jsdelivr.net; frame-ancestors 'none'; base-uri 'self'; form-action 'self'".

Definition hygiene_headers (path : list Z) : list (string * list Z) :=
  [("Content-Security-Policy"%string, bytes_of content_security_policy);
   ("X-Content-Type-Options"%string, b! "nosniff"); ("X-Frame-Options"%string, b! "DENY");
   ("Referrer-Policy"%string, b! "no-referrer")] ++
  (if starts_with (b! "/api/") path then [("Cache-Control"%string, b! "no-store")] else []).

(** The lines [std::getline(stream, candidate, ',')] reads: the parts between
    the separators, a last empty one excepted. *)
Definition getlines (sep : Z) (text : list Z) : list (list Z) :=
  let parts := split_on sep text in
  match last parts with Some [] => removelast parts | _ => parts end.

Definition cors_headers (origin : list Z) : list (string * list Z) :=
  [("Access-Control-Allow-Origin"%string, origin); ("Vary"%string, b! "Origin");
   ("Access-Control-Allow-Headers"%string, b! "Authorization, Content-Type, API-Key");
   ("Access-Control-Allow-Methods"%string, b! "GET, POST, PUT, DELETE, OPTIONS")].

(** The loop over the candidates, which stops at the first match. *)
Fixpoint origin_loop (candidates : list (list Z)) (origin : list Z) : list (string * list Z) :=
  match candidates with
  | [] => []
  | candidate :: rest =>
      match trim [32; 9] candidate with
      | [] => origin_loop rest origin
      | trimmed => if bool_decide (trimmed = origin) then cors_headers origin else origin_loop rest origin
      end
  end.

(** The headers added to the response. *)
Definition after_handle (config : AuthConfig) (req : request) : list (string * list Z) :=
  (if security_headers config then hygiene_headers (PathOf req) else []) ++
  (match origin req, allowed_origins config with
   | [], _ | _, [] => []
   | o, allowed => origin_loop (getlines 44 allowed) o
   end).

(** ** Bearer tokens *)

Lemma BearerToken_spec req scheme before token after :
  authorization req = scheme ++ before ++ token ++ after -> map tolower scheme = kPrefix ->
  Forall (fun b => b ∈ [32; 9; 13; 10]) before -> Forall (fun b => b ∈ [32; 9; 13; 10]) after ->
  (forall b, head token = Some b -> b ∉ [32; 9; 13; 10]) ->
  (forall b, last token = Some b -> b ∉ [32; 9; 13; 10]) -> token <> [] ->
  BearerToken req = token.
Proof.
  intros Hauth Hs Hb Ha Hh Hl Hne. unfold BearerToken. rewrite Hauth.
  assert (length scheme = length kPrefix) as Hlen by (by rewrite <- Hs, length_map).
  rewrite length_app, Hlen, (proj2 (Nat.leb_gt _ _)).
  2: { rewrite !length_app. destruct token; [done|]. simpl. lia. }
  rewrite <- Hlen, take_app_length, drop_app_length, bool_decide_true by done. simpl.
  by apply trim_spec.
Qed.

(** ** What reaches a handler *)

(** The rate limit step lets the request through. *)
Definition within_rate (config : AuthConfig) (m : Middleware) (tick : Z) (req : request) : Prop :=
  rate_limit_enabled config = true ->
  (Allow (limiter_for m config (PathOf req)) (text_of (ClientIp req)) tick).1 = true.

(** What the policy table asks of a request, stated on the security tables. *)
Definition entitled (config : AuthConfig) (db : Db) (now : Z) (req : request) (session : option Session) : Prop :=
  let policy := effective_policy config (PathOf req) (method req) in
  if negb (auth_enabled config) || bool_decide (guard policy = kPublic) || bool_decide (guard policy = kApiKey)
  then session = None
  else exists ss, session = Some ss /\ valid_session db now (BearerToken req) ss /\
    (guard policy = kPermission -> RoleHasPermission (session_role ss) (permission policy) = true).

Lemma rate_limit_store config m tick path ip refused m1 :
  rate_limit config m tick path ip = Ok (refused, m1) -> store m1 = store m.
Proof.
  unfold rate_limit. destruct (negb _); [by intros [= _ <-]|]. destruct (Allow _ _ _) as [[|] l]; simpl.
  - intros [= _ <-]. unfold with_limiter. by destruct (is_login path).
  - destruct (RetryAfter _ _ _) as [retry l']. intros H. inv_bind H. injection H as _ <-.
    unfold with_limiter. by destruct (is_login path).
Qed.

Lemma rate_limit_none config m tick req m1 :
  rate_limit config m tick (PathOf req) (ClientIp req) = Ok (None, m1) -> within_rate config m tick req.
Proof.
  unfold rate_limit, within_rate. intros H Hen. rewrite Hen in H. simpl in H.
  destruct (Allow _ _ _) as [[|] l]; [done|]. destruct (RetryAfter _ _ _). by inv_bind H.
Qed.

Lemma rate_limit_passes config m tick req : within_rate config m tick req ->
  exists m1, rate_limit config m tick (PathOf req) (ClientIp req) = Ok (None, m1) /\ store m1 = store m.
Proof.
  intros H. assert (exists m1, rate_limit config m tick (PathOf req) (ClientIp req) = Ok (None, m1)) as [m1 Hm].
  { unfold rate_limit, within_rate in *. destruct (rate_limit_enabled config); simpl; [|by eexists].
    specialize (H eq_refl). destruct (Allow _ _ _) as [[|] l]; [by eexists|done]. }
  exists m1. split; [done|]. by eapply rate_limit_store.
Qed.

Lemma authorise_handler config m now policy req db ctx m' :
  store m = Some db -> db_ok db -> short (BearerToken req) ->
  authorise config m now policy req = Ok (Handler ctx, m') ->
  store m' = Some db /\
  exists ss, ctx = mkContext (Some ss) (ClientIp req) /\ valid_session db now (BearerToken req) ss /\
    (guard policy = kPermission -> RoleHasPermission (session_role ss) (permission policy) = true).
Proof.
  intros Hst Hok Hs. unfold authorise. rewrite Hst.
  destruct (BearerToken req) as [|b token]; [done|].
  destruct (Authenticate _ _ _) as [[session st]| |] eqn:Ha; simpl; [|done..].
  destruct session as [ss|]; [|done]. apply Authenticate_some in Ha as [Hv ->]; [|done..].
  destruct (bool_decide (guard policy = kPermission) && _) eqn:Hp; [done|]. intros [= <- <-].
  split; [done|]. exists ss. split_and!; [done|done|]. intros Hg. rewrite bool_decide_true in Hp by done.
  by apply negb_false_iff in Hp.
Qed.

Lemma authorise_entitled config m now req db ss :
  let policy := effective_policy config (PathOf req) (method req) in
  store m = Some db -> db_ok db -> short (BearerToken req) ->
  valid_session db now (BearerToken req) ss ->
  (guard policy = kPermission -> RoleHasPermission (session_role ss) (permission policy) = true) ->
  exists m', authorise config m now policy req = Ok (Handler (mkContext (Some ss) (ClientIp req)), m').
Proof.
  intros policy Hst Hok Hs Hv Hp. unfold authorise. rewrite Hst.
  assert (Authenticate (Some db) now (BearerToken req) = Ok (Some ss, Some db)) as Ha
    by (by apply Authenticate_some).
  destruct Hv as [Hne _]. destruct (BearerToken req) as [|b token]; [by destruct (Hne eq_refl)|].
  rewrite Ha. cbn [mbind res_bind]. destruct (bool_decide (guard policy = kPermission)) eqn:E.
  - apply bool_decide_eq_true in E. rewrite (Hp E). by eexists.
  - by eexists.
Qed.

(** What is known when a handler runs. *)
Lemma admitted config m now tick req db ctx m' :
  store m = Some db -> db_ok db -> short (BearerToken req) ->
  before_handle config m now tick req = Ok (Handler ctx, m') ->
  store m' = Some db /\ ctx = mkContext (ctx_session ctx) (ClientIp req) /\
  method req <> b! "OPTIONS" /\ Z.of_nat (length (body req)) <= body_limit config (PathOf req) /\
  within_rate config m tick req /\ entitled config db now req (ctx_session ctx).
Proof.
  intros Hst Hok Hs H. unfold before_handle in H.
  destruct (decide (method req = b! "OPTIONS")) as [Ho|Ho]; [by rewrite bool_decide_true in H by done|].
  rewrite bool_decide_false in H by done.
  destruct (body_limit config (PathOf req) <? Z.of_nat (length (body req))) eqn:Hb; [done|]. apply Z.ltb_ge in Hb.
  destruct (rate_limit _ _ _ _ _) as [[[retry|] m1]| |] eqn:Hr; simpl in H; try done.
  pose proof (rate_limit_store _ _ _ _ _ _ _ Hr) as Hst1. rewrite Hst in Hst1.
  assert (store m' = Some db /\ ctx = mkContext (ctx_session ctx) (ClientIp req) /\
    entitled config db now req (ctx_session ctx)) as (? & ? & ?); [|split_and!; try done; by eapply rate_limit_none].
  unfold entitled. destruct (auth_enabled config); simpl in *; [|by injection H as <- <-].
  set (policy := effective_policy _ _ _) in *.
  assert ((ctx = mkContext None (ClientIp req) /\ m' = m1 /\ (guard policy = kPublic \/ guard policy = kApiKey)) \/
    (guard policy <> kPublic /\ guard policy <> kApiKey /\
     authorise config m1 now policy req = Ok (Handler ctx, m'))) as [(-> & -> & Hg)|(Hg1 & Hg2 & Ha)].
  { destruct (guard policy); first [right; done | injection H as <- <-; left; tauto]. }
  { split_and!; [done|done|]. by destruct Hg as [-> | ->]. }
  destruct (authorise_handler _ _ _ _ _ _ _ _ Hst1 Hok Hs Ha) as (Hst' & ss & -> & Hv & Hp).
  split_and!; [done|done|]. rewrite !bool_decide_false by done. simpl. by exists ss.
Qed.

(** ** Properties *)

(** C1: A request reaches its handler exactly when it is not a preflight, its
    body is within the limit of its path, the rate limiter lets it through and
    the policy table is satisfied: nothing for a public or API-key route, and
    for every other route a bearer token that the security tables hold as a
    live session of an enabled account whose present role has the permission
    the route asks for.  The handler then sees that session and no other. *)
Theorem pipeline_admits_exactly config m now tick req db session :
  store m = Some db -> db_ok db -> short (BearerToken req) ->
  (exists m', before_handle config m now tick req = Ok (Handler (mkContext session (ClientIp req)), m')) <->
  method req <> b! "OPTIONS" /\ Z.of_nat (length (body req)) <= body_limit config (PathOf req) /\
  within_rate config m tick req /\ entitled config db now req session.
Proof.
  intros Hst Hok Hs. split.
  { intros [m' H]. by destruct (admitted _ _ _ _ _ _ _ _ Hst Hok Hs H) as (_ & _ & H'). }
  intros (Ho & Hb & Hrate & He). unfold before_handle, entitled in *. set (policy := effective_policy _ _ _) in *.
  rewrite bool_decide_false, (proj2 (Z.ltb_ge _ _) Hb) by done.
  destruct (rate_limit_passes config m tick req Hrate) as (m1 & -> & Hst1).
  rewrite Hst in Hst1. cbn [mbind res_bind].
  destruct (auth_enabled config); simpl in *; [|subst; by eexists].
  destruct (guard policy) eqn:Hg; simpl in He; try (subst; by eexists).
  all: destruct He as (ss & -> & Hv & Hp).
  all: apply (authorise_entitled config m1 now req db ss Hst1 Hok Hs Hv).
  all: fold policy; rewrite Hg; exact Hp.
Qed.

(** A viewer with a live session and the configuration it is offered. *)
Definition demo_config : AuthConfig :=
  mkAuthConfig true 1800 10 5 900 false f64_one f64_one f64_one f64_one 65536 1048576 true false true (b! "https://hmi.local").

Definition demo_request (path token : list Z) : request :=
  mkRequest path (b! "GET") (b! "Bearer " ++ token) (b! "https://hmi.local") [] (b! "10.0.0.9").

Lemma pipeline_admits_exactly_witness :
  let db := demo_session_db (digest_hex [55]) in
  let m := new_middleware (Some db) in
  let req := demo_request (b! "/api/logs") [55] in
  let ss := mkSession 1 2 (b! "Eve") kUser 100 900 [] in
  (exists m', before_handle demo_config m 500 0 req = Ok (Handler (mkContext (Some ss) (ClientIp req)), m')) <->
  method req <> b! "OPTIONS" /\ Z.of_nat (length (body req)) <= body_limit demo_config (PathOf req) /\
  within_rate demo_config m 0 req /\ entitled demo_config db 500 req (Some ss).
Proof.
  intros db m req ss. apply (pipeline_admits_exactly demo_config m 500 0 req db (Some ss));
    [reflexivity|apply demo_session_db_ok|reflexivity].
Defined.

(** The viewer reaches the log page and not the user list. *)
Example viewer_reads_logs :
  let m := new_middleware (Some (demo_session_db (digest_hex [55]))) in
  match before_handle demo_config m 500 0 (demo_request (b! "/api/logs") [55]),
        before_handle demo_config m 500 0 (demo_request (b! "/api/users") [55]) with
  | Ok (Handler ctx, _), Ok (Answered 403 _ _, _) => session_username <$> ctx_session ctx = Some (b! "Eve")
  | _, _ => False
  end.
Proof. vm_compute. reflexivity. Qed.

(** C2: Every refusal says why, and only one reason applies: 204 for a
    preflight, which changes nothing; 413 for a body over the limit; 429, and
    only then a Retry-After, for a source over its rate; 401 when a protected
    route is asked for without a token the tables hold valid; 403 when the
    session is valid and its role lacks the permission. *)
Theorem pipeline_refusals config m now tick req db code error retry m' :
  store m = Some db -> db_ok db -> short (BearerToken req) ->
  before_handle config m now tick req = Ok (Answered code error retry, m') ->
  let policy := effective_policy config (PathOf req) (method req) in
  let preflight := method req = b! "OPTIONS" in
  let fits := Z.of_nat (length (body req)) <= body_limit config (PathOf req) in
  let protected := auth_enabled config = true /\ guard policy <> kPublic /\ guard policy <> kApiKey in
  (retry <> None <-> code = 429) /\
  ((code = 204 /\ preflight /\ m' = m) \/
   (code = 413 /\ ~ preflight /\ ~ fits) \/
   (code = 429 /\ ~ preflight /\ fits /\ ~ within_rate config m tick req) \/
   (code = 401 /\ ~ preflight /\ fits /\ within_rate config m tick req /\ protected /\
    forall ss, ~ valid_session db now (BearerToken req) ss) \/
   (code = 403 /\ ~ preflight /\ fits /\ within_rate config m tick req /\ protected /\
    guard policy = kPermission /\ exists ss, valid_session db now (BearerToken req) ss /\
      RoleHasPermission (session_role ss) (permission policy) = false)).
Proof.
  intros Hst Hok Hs H policy preflight fits protected. unfold before_handle in H.
  destruct (decide (method req = b! "OPTIONS")) as [Ho|Ho].
  { rewrite bool_decide_true in H by done. simplify_eq. split; [done|]. by left. }
  rewrite bool_decide_false in H by done.
  destruct (body_limit config (PathOf req) <? Z.of_nat (length (body req))) eqn:Hb.
  { apply Z.ltb_lt in Hb. injection H as <- _ <- _. split; [done|]. right; left.
    split_and!; [done|done|unfold fits; lia]. }
  apply Z.ltb_ge in Hb.
  destruct (rate_limit _ _ _ _ _) as [[refused m1]| |] eqn:Hr; simpl in H; try done.
  destruct refused as [r|].
  { injection H as <- _ <- _. split; [done|]. right; right; left. split_and!; [done|done|done|].
    intros Hw. destruct (rate_limit_passes config m tick req Hw) as (m2 & Hm2 & _). by rewrite Hr in Hm2. }
  pose proof (rate_limit_none _ _ _ _ _ Hr) as Hw. pose proof (rate_limit_store _ _ _ _ _ _ _ Hr) as Hst1.
  rewrite Hst in Hst1. destruct (auth_enabled config) eqn:Hen; simpl in H; [|done]. fold policy in H.
  assert (authorise config m1 now policy req = Ok (Answered code error retry, m') /\ protected) as [Ha Hprot].
  { unfold protected. destruct (guard policy); by (split || done). }
  clear H. unfold authorise in Ha. rewrite Hst1 in Ha.
  destruct (BearerToken req) as [|b token] eqn:Ht.
  { injection Ha as <- _ <- _. split; [done|]. do 3 right; left. split_and!; [done..|]. intros ss [Hne _]. done. }
  destruct (Authenticate _ _ _) as [[session st]| |] eqn:Hauth; simpl in Ha; [|done..].
  destruct session as [ss|].
  - apply Authenticate_some in Hauth as [Hv _]; [|done..].
    destruct (bool_decide (guard policy = kPermission) && _) eqn:Hp; [|done].
    injection Ha as <- _ <- _. split; [done|]. do 4 right. apply andb_true_iff in Hp as [Hg Hp].
    apply bool_decide_eq_true in Hg. apply negb_true_iff in Hp. split_and!; try done. by exists ss.
  - injection Ha as <- _ <- _. split; [done|]. do 3 right; left. split_and!; [done..|]. intros ss Hv.
    assert (Authenticate (Some db) now (b :: token) = Ok (Some ss, Some db)) as E by (by apply Authenticate_some).
    by rewrite Hauth in E.
Qed.

Lemma pipeline_refusals_witness :
  let db := demo_session_db (digest_hex [55]) in
  let m := new_middleware (Some db) in
  let req := demo_request (b! "/api/users") [55] in
  let policy := effective_policy demo_config (PathOf req) (method req) in
  exists m', before_handle demo_config m 500 0 req = Ok (Answered 403 "FORBIDDEN" None, m') /\
  exists ss, valid_session db 500 (BearerToken req) ss /\ RoleHasPermission (session_role ss) (permission policy) = false.
Proof.
  intros db m req policy.
  destruct (before_handle demo_config m 500 0 req) as [[[ctx|code error retry] m']| |] eqn:E;
    [vm_compute in E; discriminate E| |vm_compute in E; discriminate E..].
  assert (code = 403 /\ error = "FORBIDDEN" /\ retry = None) as (-> & -> & ->)
    by (vm_compute in E; injection E as <- <- <- _; split_and!; reflexivity).
  exists m'. split; [reflexivity|].
  destruct (pipeline_refusals demo_config m 500 0 req db 403 "FORBIDDEN" None m'
    eq_refl (demo_session_db_ok _) eq_refl E) as [_ [H|[H|[H|[H|H]]]]]; [exfalso; destruct H; discriminate..|].
  destruct H as (_ & _ & _ & _ & _ & _ & ss & Hv & Hp). exists ss. exact (conj Hv Hp).
Defined.

(** ** Cross-origin headers *)

(** The parts are the separator-free stretches between separators. *)
Definition entry (sep : Z) (text part : list Z) : Prop :=
  (sep ∉ part) /\ exists before after, text = before ++ part ++ after /\
    (before = [] \/ last before = Some sep) /\ (after = [] \/ head after = Some sep).

Lemma entry_cons sep p rest part : sep ∉ p ->
  entry sep (p ++ sep :: rest) part <-> part = p \/ entry sep rest part.
Proof.
  intros Hp. unfold entry. split.
  - intros (Hpart & before & after & Htext & Hb & Ha). destruct Hb as [->|Hb].
    + left. simpl in Htext. pose proof (until_unique sep part after Hpart Ha) as E.
      rewrite <- Htext, (until_unique sep p (sep :: rest)) in E by (done || by right). congruence.
    + right. split; [done|]. apply last_Some in Hb as (b0 & ->).
      rewrite <- app_assoc in Htext. simpl in Htext.
      pose proof (until_unique sep p (sep :: rest) Hp (or_intror eq_refl)) as E.
      pose proof (until_shape sep b0) as Hs. destruct (until sep b0) as [q c] eqn:Eq.
      destruct Hs as (-> & Hq & Hc).
      assert (head (c ++ sep :: part ++ after) = Some sep) as Hh by (destruct c; [done|by destruct Hc]).
      rewrite Htext, <- app_assoc, (until_unique sep q) in E by (done || by right).
      injection E as -> E. destruct c as [|x c]; simpl in E.
      * injection E as Er. exists [], after. subst rest. split_and!; auto.
      * injection E as Ex Er. exists (c ++ [sep]), after. rewrite <- app_assoc. split_and!; [done| |done].
        right. by rewrite last_snoc.
  - intros [-> | (Hpart & before & after & -> & Hb & Ha)].
    + split; [done|]. exists [], (sep :: rest). split_and!; auto.
    + split; [done|]. exists (p ++ sep :: before), after. rewrite <- app_assoc. split_and!; [done| |done].
      right. destruct Hb as [->|Hb]; [by rewrite last_snoc|]. by rewrite last_app_cons, last_cons, Hb.
Qed.

Lemma split_on_spec sep text part : part ∈ split_on sep text <-> entry sep text part.
Proof.
  remember (length text) as n eqn:Hn. revert text Hn.
  induction n as [n IH] using lt_wf_ind. intros text ->. rewrite split_on_until.
  pose proof (until_shape sep text) as Hs. destruct (until sep text) as [p after]. simpl.
  destruct Hs as (-> & Hp & Ha). destruct after as [|c rest].
  - rewrite list_elem_of_singleton, app_nil_r. split.
    + intros ->. split; [done|]. exists [], []. rewrite app_nil_r. split_and!; auto.
    + intros (Hpart & before & after & Htext & Hb & Haf). destruct Hb as [->|Hb].
      * destruct Haf as [->|Haf]; [by rewrite app_nil_r in Htext|]. destruct after; [done|]. simpl in Haf.
        simplify_eq. set_solver.
      * apply last_Some in Hb as (b0 & ->). set_solver.
  - destruct Ha as [|Ha]; [done|]. simpl in Ha. simplify_eq. rewrite entry_cons by done.
    rewrite elem_of_cons. rewrite (IH (length rest)); [done| |done]. rewrite length_app. simpl. lia.
Qed.

Lemma getlines_elem sep text part : part <> [] -> part ∈ getlines sep text <-> part ∈ split_on sep text.
Proof.
  intros Hne. unfold getlines. destruct (last (split_on sep text)) as [[|b p]|] eqn:E; [|done..].
  apply last_Some in E as (l & ->). rewrite removelast_last, elem_of_app, list_elem_of_singleton. naive_solver.
Qed.

Lemma origin_loop_spec candidates o h : o <> [] ->
  h ∈ origin_loop candidates o <-> h ∈ cors_headers o /\ exists c, c ∈ candidates /\ trim [32; 9] c = o.
Proof.
  intros Ho. induction candidates as [|c cs IH]; cbn [origin_loop].
  { split; [intros H; by apply not_elem_of_nil in H|]. intros (_ & c & Hc & _). by apply not_elem_of_nil in Hc. }
  assert (forall P : Prop, (exists x, x ∈ c :: cs /\ trim [32; 9] x = o) <->
    trim [32; 9] c = o \/ exists x, x ∈ cs /\ trim [32; 9] x = o) as Hex.
  { intros _. split.
    - intros (x & [-> | Hx]%elem_of_cons & E); eauto.
    - intros [E|(x & Hx & E)]; [exists c|exists x]; (split; [|done]); [by left|by right]. }
  rewrite (Hex True). clear Hex. destruct (trim [32; 9] c) as [|t ts] eqn:Et.
  - rewrite IH. naive_solver.
  - destruct (bool_decide (t :: ts = o)) eqn:Eb.
    + apply bool_decide_eq_true in Eb. naive_solver.
    + apply bool_decide_eq_false in Eb. rewrite IH. naive_solver.
Qed.

(** Cross-origin headers go only to the origins on the allowlist: the
    response names an allowed origin exactly when the request has one, it is,
    blanks apart, one of the comma-separated entries of the configuration, and
    then it is that origin; no wildcard is ever sent to another origin. *)
Theorem cors_follows_allowlist config req value :
  ("Access-Control-Allow-Origin"%string, value) ∈ after_handle config req <->
  value = origin req /\ origin req <> [] /\
  exists part, entry 44 (allowed_origins config) part /\ trim [32; 9] part = origin req.
Proof.
  unfold after_handle. rewrite elem_of_app.
  assert (("Access-Control-Allow-Origin"%string, value) ∉
    (if security_headers config then hygiene_headers (PathOf req) else [])) as Hno.
  { unfold hygiene_headers. destruct (security_headers config); [|apply not_elem_of_nil].
    intros H%list_elem_of_In. destruct (starts_with _ _); cbn [app In] in H;
      repeat (destruct H as [H|H]; [discriminate H|]); exact H. }
  destruct (origin req) as [|b o] eqn:Ho.
  { split; [intros [?|H]; [done|by apply not_elem_of_nil in H]|]. by intros (_ & ? & _). }
  assert (forall part, trim [32; 9] part = b :: o -> part <> []) as Hpart by (intros [|] ?; done).
  destruct (allowed_origins config) as [|a l] eqn:Hal.
  { split; [intros [?|H]; [done|by apply not_elem_of_nil in H]|]. intros (_ & _ & part & Hen & E).
    apply split_on_spec in Hen. simpl in Hen. apply list_elem_of_singleton in Hen. by subst. }
  rewrite origin_loop_spec by done. split.
  - intros [?|[Hh (c & Hc & E)]]; [done|]. split_and!; [|done|].
    + apply list_elem_of_In in Hh. cbn [cors_headers In] in Hh.
      destruct Hh as [Hh|Hh]; [by injection Hh|]. by repeat (destruct Hh as [Hh|Hh]; [discriminate Hh|]).
    + exists c. split; [|done]. apply split_on_spec. rewrite <- getlines_elem; [done|by apply Hpart].
  - intros (-> & _ & part & Hen & E). right. split; [by left|]. exists part. split; [|done].
    apply getlines_elem; [by apply Hpart|]. by apply split_on_spec.
Qed.
