(* ===== verification/AuthHandlers.v ===== *)
(** * Accounts over HTTP (src/WebServer.cpp, SetupAuthRoutes)

    The handlers behind /api/auth, /api/users and /api/audit, and the rest of
    what they ask of the security store.  A handler runs after the pipeline of
    [Middleware] has admitted the request and has its [context].  It is a
    sequence of calls of the store; [now i] is the clock its [i]-th call reads.
    The JSON parser is [parse]; the address and parameters of the request are
    arguments.  A response is its code and the value that is serialised. *)

From stdpp Require Import relations.
From S2P Require Import Prelude Words Text Float Json Sha256 Permissions RateLimiter Validation PasswordHash SecurityStore Middleware WebReply.

(** ** Queries of the store *)

(** [LIKE] of SQLite, the pattern first. *)
Class SqlLike := { like : list Z -> list Z -> bool }.

(** The [COLLATE NOCASE] order of the user names. *)
Definition by_name (a b : UserRow) : bool := lex_leb (folded a) (folded b).

Definition ListUsers (st : SecurityStore) : list User :=
  match st with None => [] | Some db => map ReadUserRow (sort_by by_name (users db)) end.

Section Queries.
Context {K : SqlLike}.

(** The [WHERE] clause: 37 is the percent sign. *)
Definition audit_matches (eventFilter usernameFilter : list Z) (e : AuditEntry) : bool :=
  (bool_decide (eventFilter = []) || bool_decide (a_event e = eventFilter)) &&
  (bool_decide (usernameFilter = []) || like ([37] ++ usernameFilter ++ [37]) (a_username e)).

(** [ORDER BY id DESC]; the rows are kept in the order of their ids. *)
Definition QueryAudit (st : SecurityStore) (eventFilter usernameFilter : list Z) (limit offset : Z)
  : list AuditEntry :=
  match st with
  | None => []
  | Some db =>
      take (Z.to_nat (if 0 <? limit then limit else 100))
        (drop (Z.to_nat (if 0 <? offset then offset else 0))
          (rev (List.filter (audit_matches eventFilter usernameFilter) (audit_log db))))
  end.

Definition CountAudit (st : SecurityStore) (eventFilter usernameFilter : list Z) : Z :=
  match st with
  | None => 0
  | Some db => Z.of_nat (length (List.filter (audit_matches eventFilter usernameFilter) (audit_log db)))
  end.
End Queries.

(** ** Requests *)

Inductive Method := Get | Post | Patch | Delete.

Section Handlers.
Context {J : JsonLib} {L : Sodium} {O : SqlOrder} {K : SqlLike}.
Variable parse : string -> option json.

Definition permissions_json (role : Role) : json := jlist (map jstring (PermissionNamesFor role)).

Definition user_json (user : User) : json :=
  object [("id"%string, jint (id user)); ("username"%string, jtext (username user));
          ("display_name"%string, jtext (display_name user)); ("role"%string, jstring (RoleName (role user)));
          ("permissions"%string, permissions_json (role user)); ("enabled"%string, jbool (enabled user));
          ("created_at"%string, jint (created_at user)); ("last_login"%string, jint (last_login user));
          ("must_change_password"%string, jbool (must_change_password user))].

Definition audit_json (e : AuditEntry) : json :=
  object [("id"%string, jint (a_id e)); ("timestamp"%string, jint (a_timestamp e));
          ("event"%string, jtext (a_event e)); ("username"%string, jtext (a_username e));
          ("source_ip"%string, jtext (a_source_ip e)); ("resource"%string, jtext (a_resource e));
          ("result"%string, jtext (a_result e)); ("reason"%string, jtext (a_reason e))].

(** [ctx.session.username], empty for the default session. *)
Definition ctx_username (ctx : context) : list Z :=
  match ctx_session ctx with Some ss => session_username ss | None => [] end.

(** [if (config.audit_log) RecordAudit(...)]: only the login handler
    sanitises. *)
Definition record (config : AuthConfig) (st : SecurityStore) (now : Z)
  (event name ip resource result reason : list Z) : SecurityStore :=
  if audit_enabled config then RecordAudit st now event name ip resource result reason else st.

(** ** Signing in and out *)

Definition auth_mode (config : AuthConfig) : response :=
  mkResponse 200 (object [("enabled"%string, jbool (auth_enabled config));
                          ("token_lifetime_sec"%string, jint (token_lifetime_sec config))]).

Definition login_audit (config : AuthConfig) (st : SecurityStore) (now : Z) (name ip : list Z)
  (event outcome reason : list Z) : SecurityStore :=
  record config st now event (SanitiseForLog name 64) (SanitiseForLog ip 64) (b! "/api/auth/login") outcome reason.

Definition login_payload (token : list Z) (ss : Session) : response :=
  success [("token"%string, jtext token); ("token_type"%string, jstring "Bearer");
           ("expires_at"%string, jint (expires_at ss)); ("expires_in"%string, jint (expires_at ss - issued_at ss));
           ("username"%string, jtext (session_username ss)); ("role"%string, jstring (RoleName (session_role ss)));
           ("permissions"%string, permissions_json (session_role ss))].

(** The text of a field, empty when it was not accepted. *)
Definition text_field (value : option string) : list Z := bytes_of (default ""%string value).

Definition auth_login (config : AuthConfig) (st : SecurityStore) (now : nat -> Z) (ip : list Z) (body : string)
  (buffer : list Z) : res (response * SecurityStore) :=
  match JsonObject parse body (Z.to_nat (Z.max 1024 (max_body_bytes config))) with
  | Fault => Fault
  | Err _ => Ok (failure 400 "INVALID_REQUEST", st)
  | Ok j =>
      '(name, errors1) ← StringField j "username" 1 64 "identifier" [] true;
      '(password, errors) ← StringField j "password" 1 256 "" errors1 true;
      match errors with
      | _ :: _ => Ok (failure 401 "INVALID_CREDENTIALS", st)
      | [] =>
          let name := text_field name in
          '(result, remaining, session, st1) ← Login st (now 0%nat) (now 1%nat) name (text_field password) ip
              (max_failed_attempts config) (lockout_seconds config) (token_lifetime_sec config)
              (max_sessions_per_user config) buffer;
          let audit := login_audit config st1 (now 2%nat) name ip in
          match result with
          | LoginOk =>
              match session with
              | Some (token, ss) => Ok (login_payload token ss, audit (b! "LOGIN_SUCCESS") (b! "OK") [])
              | None => Fault
              end
          | kLockedOut =>
              Ok (mkResponse 423 (object [("success"%string, jbool false); ("error"%string, jstring "ACCOUNT_LOCKED");
                                          ("retry_after_seconds"%string, jint remaining)]),
                  audit (b! "ACCOUNT_LOCKED") (b! "DENIED") (b! "locked out"))
          | kInternalError =>
              Ok (failure 500 "INTERNAL_ERROR", audit (b! "LOGIN_FAILED") (b! "ERROR") (b! "internal"))
          | kDisabled =>
              Ok (failure 401 "INVALID_CREDENTIALS", audit (b! "LOGIN_FAILED") (b! "DENIED") (b! "account disabled"))
          | kInvalidCredentials =>
              Ok (failure 401 "INVALID_CREDENTIALS", audit (b! "LOGIN_FAILED") (b! "DENIED") (b! "bad credentials"))
          end
      end
  end.

Definition auth_logout (config : AuthConfig) (st : SecurityStore) (now : nat -> Z) (ctx : context) (token : list Z)
  : res (response * SecurityStore) :=
  '(_, st1) ← Revoke st token;
  Ok (success [], record config st1 (now 0%nat) (b! "LOGOUT") (ctx_username ctx) (ctx_source_ip ctx)
                    (b! "/api/auth/logout") (b! "OK") []).

Definition auth_me (ctx : context) : response :=
  match ctx_session ctx with
  | None => mkResponse 200 (object [("authenticated"%string, jbool false); ("auth_enabled"%string, jbool false)])
  | Some ss =>
      mkResponse 200 (object
        [("authenticated"%string, jbool true); ("auth_enabled"%string, jbool true);
         ("username"%string, jtext (session_username ss)); ("role"%string, jstring (RoleName (session_role ss)));
         ("permissions"%string, permissions_json (session_role ss)); ("expires_at"%string, jint (expires_at ss))])
  end.

(** The current password is checked by a login whose session is thrown away. *)
Definition auth_password (config : AuthConfig) (st : SecurityStore) (now : nat -> Z) (ctx : context) (body : string)
  (buffer : list Z) (encoded : option (list Z)) : res (response * SecurityStore) :=
  match JsonObject parse body 4096 with
  | Fault => Fault
  | Err _ => Ok (failure 400 "INVALID_REQUEST", st)
  | Ok j =>
      '(current, errors1) ← StringField j "current_password" 1 256 "" [] true;
      '(next, errors) ← StringField j "new_password" 12 256 "" errors1 true;
      match errors with
      | _ :: _ => Ok (mkResponse 400 (ErrorsToJson errors), st)
      | [] =>
          match FindUser st (ctx_username ctx) with
          | None => Ok (failure 401 "UNAUTHENTICATED", st)
          | Some user =>
              '(result, _, session, st1) ← Login st (now 0%nat) (now 1%nat) (username user) (text_field current)
                  (ctx_source_ip ctx) (max_failed_attempts config) (lockout_seconds config) 60
                  (max_sessions_per_user config) buffer;
              match result, session with
              | LoginOk, None => Fault
              | LoginOk, Some (token, _) =>
                  '(_, st2) ← Revoke st1 token;
                  match SetPassword st2 (now 2%nat) (id user) encoded with
                  | (Ok _, st3) =>
                      Ok (success [("reauthenticate"%string, jbool true)],
                          record config st3 (now 3%nat) (b! "PASSWORD_CHANGED") (username user) (ctx_source_ip ctx)
                            (b! "/api/auth/password") (b! "OK") (b! "self-service"))
                  | (_, st3) => Ok (failure 500 "INTERNAL_ERROR", st3)
                  end
              | _, _ => Ok (failure 401 "INVALID_CREDENTIALS", st1)
              end
          end
      end
  end.

(** ** Managing accounts *)

Definition role_names : list string := ["ADMIN"; "OPERATOR"; "USER"]%string.

Definition users_list (st : SecurityStore) : response :=
  mkResponse 200 (object [("users"%string, jlist (map user_json (ListUsers st)))]).

Definition users_create (config : AuthConfig) (st : SecurityStore) (now : nat -> Z) (ctx : context) (body : string)
  (encoded : option (list Z)) : res (response * SecurityStore) :=
  match JsonObject parse body 8192 with
  | Fault => Fault
  | Err _ => Ok (failure 400 "INVALID_REQUEST", st)
  | Ok j =>
      '(name, errors1) ← StringField j "username" 3 32 "identifier" [] true;
      '(password, errors2) ← StringField j "password" 12 256 "" errors1 true;
      '(roleName, errors3) ← EnumField j "role" role_names errors2 true;
      '(displayName, errors) ← StringField j "display_name" 0 64 "printable" errors3 false;
      match errors with
      | _ :: _ => Ok (mkResponse 400 (ErrorsToJson errors), st)
      | [] =>
          let name := text_field name in
          let roleName := default ""%string roleName in
          match CreateUser st (now 0%nat) name encoded (RoleFromName roleName) (text_field displayName) with
          | (Fault, _) => Fault
          | (Err e, st1) => Ok (failure 400 e, st1)
          | (Ok created, st1) =>
              Ok (mkResponse 201 (user_json created),
                  record config st1 (now 1%nat) (b! "USER_CREATED") (ctx_username ctx) (ctx_source_ip ctx)
                    (b! "/api/users") (b! "OK") (b! "created " ++ name ++ b! " as " ++ bytes_of roleName))
          end
      end
  end.

Definition user_delete (config : AuthConfig) (st : SecurityStore) (now : nat -> Z) (ctx : context) (target : User)
  : response * SecurityStore :=
  if bool_decide (username target = ctx_username ctx) then (failure 400 "CANNOT_DELETE_SELF", st)
  else if bool_decide (role target = kAdmin) && (CountAdmins st <=? 1) then (failure 400 "LAST_ADMIN", st)
  else match DeleteUser st (id target) with
  | (Ok _, st1) =>
      let st2 := (RevokeAllForUser st1 (id target)).2 in
      (success [], record config st2 (now 0%nat) (b! "USER_PERMISSION_CHANGED") (ctx_username ctx)
                     (ctx_source_ip ctx) (b! "/api/users") (b! "OK") (b! "deleted " ++ username target))
  | (_, st1) => (failure 500 "INTERNAL_ERROR", st1)
  end.

(** One block of the change handler: an answer, or on with the store, the
    errors and the changes so far. *)
Definition block : Type := (response * SecurityStore) + (SecurityStore * Errors * list Z).

Definition patch_role (target : User) (j : json) (st : SecurityStore) (errors : Errors) (changes : list Z)
  : res block :=
  if negb (contains j "role") then Ok (inr (st, errors, changes))
  else
    '(value, errors') ← EnumField j "role" role_names errors true;
    match value with
    | None => Ok (inr (st, errors', changes))
    | Some roleName =>
        if bool_decide (role target = kAdmin) && negb (bool_decide (RoleFromName roleName = kAdmin))
           && (CountAdmins st <=? 1)
        then Ok (inl (failure 400 "LAST_ADMIN", st))
        else Ok (inr ((SetRole st (id target) (RoleFromName roleName)).2, errors',
                      changes ++ b! "role=" ++ bytes_of roleName ++ b! " "))
    end.

Definition patch_enabled (target : User) (j : json) (st : SecurityStore) (errors : Errors) (changes : list Z)
  : res block :=
  if negb (contains j "enabled") then Ok (inr (st, errors, changes))
  else
    let '(value, errors') := BoolField j "enabled" errors true in
    match value with
    | None => Ok (inr (st, errors', changes))
    | Some enabled =>
        if negb enabled && bool_decide (role target = kAdmin) && (CountAdmins st <=? 1)
        then Ok (inl (failure 400 "LAST_ADMIN", st))
        else Ok (inr ((SetEnabled st (id target) enabled).2, errors',
                      changes ++ b! "enabled=" ++ (if enabled then b! "true " else b! "false ")))
    end.

Definition use_self_service : response :=
  mkResponse 400 (object
    [("success"%string, jbool false); ("error"%string, jstring "USE_SELF_SERVICE_PASSWORD_CHANGE");
     ("detail"%string, jstring "Change your own password with POST /api/auth/password, which verifies the current one.")]).

Definition patch_password (ctx : context) (target : User) (j : json) (st : SecurityStore) (now : Z)
  (encoded : option (list Z)) (errors : Errors) (changes : list Z) : res block :=
  if negb (contains j "password") then Ok (inr (st, errors, changes))
  else if bool_decide (username target = ctx_username ctx) then Ok (inl (use_self_service, st))
  else
    '(value, errors') ← StringField j "password" 12 256 "" errors true;
    match value with
    | None => Ok (inr (st, errors', changes))
    | Some _ =>
        match SetPassword st now (id target) encoded with
        | (Ok _, st1) => Ok (inr (st1, errors', changes ++ b! "password "))
        | (_, st1) => Ok (inl (failure 500 "INTERNAL_ERROR", st1))
        end
    end.

(** The next block, if the handler has not answered yet. *)
Definition and_then (b : block) (k : SecurityStore -> Errors -> list Z -> res block) : res block :=
  match b with inl answer => Ok (inl answer) | inr (st, errors, changes) => k st errors changes end.

(** [*updated] of an empty optional is undefined. *)
Definition user_patch (config : AuthConfig) (st : SecurityStore) (now : nat -> Z) (ctx : context) (target : User)
  (body : string) (encoded : option (list Z)) : res (response * SecurityStore) :=
  match JsonObject parse body 8192 with
  | Fault => Fault
  | Err _ => Ok (failure 400 "INVALID_REQUEST", st)
  | Ok j =>
      b1 ← patch_role target j st [] [];
      b2 ← and_then b1 (patch_enabled target j);
      b3 ← and_then b2 (fun st errors changes => patch_password ctx target j st (now 0%nat) encoded errors changes);
      match b3 with
      | inl answer => Ok answer
      | inr (st1, (_ :: _) as errors, _) => Ok (mkResponse 400 (ErrorsToJson errors), st1)
      | inr (st1, [], changes) =>
          let st2 := match changes with
            | [] => st1
            | _ => record config st1 (now 1%nat) (b! "USER_PERMISSION_CHANGED") (ctx_username ctx) (ctx_source_ip ctx)
                     (b! "/api/users") (b! "OK") (username target ++ b! ": " ++ changes)
            end in
          match FindUserById st2 (id target) with
          | Some updated => Ok (mkResponse 200 (user_json updated), st2)
          | None => Fault
          end
      end
  end.

Definition user_by_id (config : AuthConfig) (st : SecurityStore) (now : nat -> Z) (ctx : context) (method : Method)
  (userId : Z) (body : string) (encoded : option (list Z)) : res (response * SecurityStore) :=
  match FindUserById st userId with
  | None => Ok (failure 404 "NOT_FOUND", st)
  | Some target =>
      match method with
      | Delete => Ok (user_delete config st now ctx target)
      | _ => user_patch config st now ctx target body encoded
      end
  end.

(** ** The audit trail *)

(** [event], ... are the parameters of the URL, [None] when absent. *)
Definition audit_page (st : SecurityStore) (event user limit offset : option (list Z)) : response :=
  let event := default [] event in
  let user := default [] user in
  let limit := Z.max 1 (Z.min (from_option atoi 100 limit) 500) in
  let offset := Z.max 0 (from_option atoi 0 offset) in
  mkResponse 200 (object
    [("entries"%string, jlist (map audit_json (QueryAudit st event user limit offset)));
     ("total"%string, jint (CountAudit st event user)); ("limit"%string, jint limit);
     ("offset"%string, jint offset)]).

(** ** The routes *)

Inductive AuthRoute :=
| RouteMode | RouteLogin | RouteLogout | RouteMe | RoutePassword
| RouteUsers (method : Method)
| RouteUser (method : Method) (userId : Z)
| RouteAudit (event user limit offset : option (list Z)).

(** What a handler draws from outside: its clock readings, the random bytes of
    a token, what libsodium makes of a new password. *)
Record Draws := mkDraws { clock : nat -> Z; random : list Z; hashed : option (list Z) }.

Definition handle_auth (config : AuthConfig) (st : SecurityStore) (ctx : context) (route : AuthRoute)
  (req : request) (draws : Draws) : res (response * SecurityStore) :=
  let body := text_of (body req) in
  match route with
  | RouteMode => Ok (auth_mode config, st)
  | RouteLogin => auth_login config st (clock draws) (ClientIp req) body (random draws)
  | RouteLogout => auth_logout config st (clock draws) ctx (BearerToken req)
  | RouteMe => Ok (auth_me ctx, st)
  | RoutePassword => auth_password config st (clock draws) ctx body (random draws) (hashed draws)
  | RouteUsers Get => Ok (users_list st, st)
  | RouteUsers _ => users_create config st (clock draws) ctx body (hashed draws)
  | RouteUser method userId => user_by_id config st (clock draws) ctx method userId body (hashed draws)
  | RouteAudit event user limit offset => Ok (audit_page st event user limit offset, st)
  end.

(** The paths and methods the routes are registered for; an [<int>] of Crow is
    a run of digits with a sign. *)
Definition int_text (text : list Z) : Prop :=
  text <> [] /\ Forall (fun b => is_digit b || (b =? 43) || (b =? 45) = true) text.

Definition registered (route : AuthRoute) (path method : list Z) : Prop :=
  match route with
  | RouteMode => path = b! "/api/auth/mode" /\ method = b! "GET"
  | RouteLogin => path = b! "/api/auth/login" /\ method = b! "POST"
  | RouteLogout => path = b! "/api/auth/logout" /\ method = b! "POST"
  | RouteMe => path = b! "/api/auth/me" /\ method = b! "GET"
  | RoutePassword => path = b! "/api/auth/password" /\ method = b! "POST"
  | RouteUsers Get => path = b! "/api/users" /\ method = b! "GET"
  | RouteUsers Post => path = b! "/api/users" /\ method = b! "POST"
  | RouteUser Patch _ => (exists digits, path = b! "/api/users/" ++ digits /\ int_text digits) /\ method = b! "PATCH"
  | RouteUser Delete _ => (exists digits, path = b! "/api/users/" ++ digits /\ int_text digits) /\ method = b! "DELETE"
  | RouteAudit _ _ _ _ => path = b! "/api/audit" /\ method = b! "GET"
  | _ => False
  end.

(** A request from its arrival to the response, nothing else in between.  A
    refusal of the pipeline has its own payload, [refusal]. *)
Definition serve (config : AuthConfig) (m : Middleware) (now tick : Z) (route : AuthRoute) (req : request)
  (draws : Draws) (refusal : json) : res (response * Middleware) :=
  '(v, m1) ← before_handle config m now tick req;
  match v with
  | Answered code _ _ => Ok (mkResponse code refusal, m1)
  | Handler ctx =>
      '(r, st) ← handle_auth config (store m1) ctx route req draws;
      Ok (r, with_store m1 st)
  end.

End Handlers.

#[global] Instance LoginResult_eq_dec : EqDecision LoginResult.
Proof. solve_decision. Defined.

(** ** Every handler is a sequence of steps of the store *)

Section Steps.
Context {J : JsonLib} {L : Sodium} {O : SqlOrder} {K : SqlLike}.
Variable parse : string -> option json.

Abbreviation steps := (rtc store_step).

Lemma record_steps config st now event name ip resource result reason :
  steps st (record config st now event name ip resource result reason).
Proof. unfold record. destruct (audit_enabled config); [apply rtc_once, step_audit|apply rtc_refl]. Qed.

Lemma Login_steps st now now' name pw ip m l life cap buffer result remaining session st' :
  Login st now now' name pw ip m l life cap buffer = Ok (result, remaining, session, st') -> steps st st'.
Proof.
  unfold Login. pose proof (step_begin st now name ip m l) as Hb.
  destruct (login_begin st now name ip m l) as [[[r rem]|[user hash]] st1]; intros H; simpl in *.
  - injection H as _ _ _ <-. by apply rtc_once.
  - inv_bind H. destruct v as [[r s] st2]. injection H as _ _ _ <-.
    eapply rtc_l; [exact Hb|]. by eapply rtc_once, step_finish.
Qed.

Lemma SetPassword_steps st now userId enc : steps st (SetPassword st now userId enc).2.
Proof.
  unfold SetPassword. pose proof (step_password st now userId enc) as H.
  destruct (set_password_row st now userId enc) as [[u| |] st']; simpl in *; [|by apply rtc_once..].
  eapply rtc_l; [exact H|]. apply rtc_once, step_revoke_all.
Qed.

Lemma SetRole_steps st userId r : steps st (SetRole st userId r).2.
Proof.
  unfold SetRole. pose proof (step_role st userId r) as H.
  destruct (set_role_row st userId r) as [[|] st']; simpl in *; [|by apply rtc_once].
  eapply rtc_l; [exact H|]. apply rtc_once, step_revoke_all.
Qed.

Lemma SetEnabled_steps st userId value : steps st (SetEnabled st userId value).2.
Proof.
  unfold SetEnabled. pose proof (step_enabled st userId value) as H.
  destruct (set_enabled_row st userId value) as [[|] st']; simpl in *; [|by apply rtc_once].
  destruct value; [by apply rtc_once|]. eapply rtc_l; [exact H|]. apply rtc_once, step_revoke_all.
Qed.

Lemma Revoke_steps st token done st' : Revoke st token = Ok (done, st') -> steps st st'.
Proof. intros. by eapply rtc_once, step_revoke. Qed.

End Steps.

#[export] Hint Resolve record_steps Login_steps SetPassword_steps SetRole_steps SetEnabled_steps Revoke_steps : gw.

(** ** What happens to the accounts *)

(** The rows of the accounts, but for the time of the last login. *)
Definition rows (st : SecurityStore) : list UserRow := match st with None => [] | Some db => users db end.
Definition accounts (st : SecurityStore) : list UserRow := map (set_last_login 0) (rows st).

Definition update_rows (userId : Z) (f : UserRow -> UserRow) (l : list UserRow) : list UserRow :=
  map (fun row => if u_id row =? userId then f row else row) l.

Definition without (userId : Z) (l : list UserRow) : list UserRow :=
  List.filter (fun row => negb (u_id row =? userId)) l.

(** What [CountAdmins] counts, and its two parts. *)
Definition is_admin (row : UserRow) : bool := String.eqb (u_role row) (RoleName kAdmin) && u_enabled row.
Definition count_rows (l : list UserRow) : nat := length (List.filter is_admin l).

Lemma map_filter_same {A B} (f : A -> B) (p : B -> bool) (q : A -> bool) l : (forall x, p (f x) = q x) ->
  List.filter p (map f l) = map f (List.filter q l).
Proof. intros H. induction l as [|x l IH]; simpl; [done|]. rewrite H. destruct (q x); simpl; by rewrite IH. Qed.

Lemma CountAdmins_accounts st : CountAdmins st = Z.of_nat (count_rows (accounts st)).
Proof.
  destruct st as [db|]; [|done]. unfold count_rows, accounts. simpl.
  rewrite (map_filter_same _ _ is_admin) by done. by rewrite length_map.
Qed.

Lemma accounts_ids st : map u_id (accounts st) = map u_id (rows st).
Proof. unfold accounts. rewrite map_map. by apply map_ext. Qed.

Lemma store_ok_ids st : store_ok st -> NoDup (map u_id (accounts st)).
Proof. rewrite accounts_ids. destruct st as [db|]; [intros []; done|intros _; constructor]. Qed.

Lemma update_rows_without t f l : (forall row, u_id (f row) = u_id row) ->
  without t (update_rows t f l) = without t l.
Proof.
  intros Hf. induction l as [|row l IH]; simpl; [done|]. destruct (u_id row =? t) eqn:E; simpl.
  - by rewrite Hf, E.
  - by rewrite E, IH.
Qed.

(** Without one account at most one administrator is gone. *)
Lemma count_without t l : NoDup (map u_id l) ->
  (count_rows (without t l) <= count_rows l <= S (count_rows (without t l)))%nat /\
  ((exists row, row ∈ l /\ u_id row = t /\ is_admin row = true) <->
   count_rows l = S (count_rows (without t l))).
Proof.
  unfold count_rows. induction l as [|row l IH]; simpl.
  { intros _. split; [lia|]. split; [|done]. intros (row & Hin & _). by apply not_elem_of_nil in Hin. }
  intros [Hrow Hnd]%NoDup_cons. specialize (IH Hnd) as [IH1 IH2].
  assert (forall P : UserRow -> Prop, (exists x, x ∈ row :: l /\ P x) <-> P row \/ exists x, x ∈ l /\ P x) as Hex.
  { intros P. split.
    - intros (x & [-> | Hx]%elem_of_cons & E); eauto.
    - intros [E|(x & Hx & E)]; [exists row|exists x]; (split; [|done]); [by left|by right]. }
  rewrite (Hex (fun x => u_id x = t /\ is_admin x = true)). destruct (u_id row =? t) eqn:E; simpl.
  - apply Z.eqb_eq in E. assert (without t l = l) as Hw.
    { apply filter_all. intros x Hx. apply negb_true_iff, Z.eqb_neq. intros Hxt. apply Hrow. rewrite E, <- Hxt.
      by apply list_elem_of_In, in_map, list_elem_of_In. }
    fold (without t l). rewrite Hw. destruct (is_admin row); simpl.
    + split; [lia|]. split; [done|]. intros _. by left.
    + split; [lia|]. split; [|lia]. intros [[_ H]|H]; [done|]. apply IH2 in H. rewrite Hw in H. lia.
  - apply Z.eqb_neq in E. fold (without t l). destruct (is_admin row); simpl.
    + split; [lia|]. split.
      * intros [[? _]|H]; [done|]. apply IH2 in H. lia.
      * intros H. right. apply IH2. lia.
    + split; [lia|]. rewrite <- IH2. naive_solver.
Qed.

(** The store's operations on the accounts. *)
Section Accounts.
Context {J : JsonLib} {L : Sodium} {O : SqlOrder} {K : SqlLike}.

Lemma map_update_rows t f l : (forall row, f (set_last_login 0 row) = set_last_login 0 (f row)) ->
  map (set_last_login 0) (update_rows t f l) = update_rows t f (map (set_last_login 0) l).
Proof.
  intros Hf. unfold update_rows. rewrite !map_map. apply map_ext. intros row. simpl.
  destruct (u_id row =? t); [|done]. by rewrite Hf.
Qed.

Lemma login_finish_accounts st now user ok name ip life cap buffer result session st' :
  login_finish st now user ok name ip life cap buffer = Ok (result, session, st') -> accounts st' = accounts st.
Proof.
  unfold login_finish. destruct st as [db|]; [|by intros [= _ _ <-]].
  destruct ok; simpl; [|by intros [= _ _ <-]]. destruct (enabled user); simpl; [|by intros [= _ _ <-]].
  set (db1 := EnforceSessionLimitUnlocked _ _ _).
  assert (users db1 = users db) as Hu by (unfold db1; by rewrite user_limit).
  destruct (RandomHex buffer); [intros [= _ _ <-]; unfold accounts; simpl; by rewrite Hu|].
  intros H. inv_bind H. destruct (insert_session _ _ _ _ _ _) as [db2|] eqn:Hins;
    injection H as _ _ <-; unfold accounts; simpl; [|by rewrite Hu].
  apply insert_session_shape in Hins as [Hu2 _]. rewrite Hu2, Hu.
  rewrite map_map. apply map_ext. intros row. by destruct (_ =? _).
Qed.

Lemma Login_accounts st now now' name pw ip m l life cap buffer result remaining session st' :
  Login st now now' name pw ip m l life cap buffer = Ok (result, remaining, session, st') ->
  accounts st' = accounts st.
Proof.
  unfold Login. destruct (login_begin st now name ip m l) as [[[r rem]|[user hash]] st1] eqn:E; intros H.
  - injection H as _ _ _ <-. unfold login_begin in E. destruct st as [db|]; [|by injection E as _ _ <-].
    destruct (_ && _)%bool; [by injection E as _ _ <-|]. destruct (user_named db name); [done|].
    by injection E as _ _ <-.
  - unfold login_begin in E. destruct st as [db|]; [|done].
    destruct (_ && _)%bool; [done|]. destruct (user_named db name) as [row|]; [|done]. injection E as _ _ <-.
    inv_bind H. destruct v as [[r s] st2]. injection H as _ _ _ <-. by eapply login_finish_accounts.
Qed.

Lemma record_accounts config st now event name ip resource result reason :
  accounts (record config st now event name ip resource result reason) = accounts st.
Proof. unfold record. destruct (audit_enabled config); [|done]. by destruct st. Qed.

Lemma Revoke_accounts st token done st' : Revoke st token = Ok (done, st') -> accounts st' = accounts st.
Proof.
  unfold Revoke. destruct token, st; try by intros [= _ <-]. intros H. inv_bind H. by injection H as _ <-.
Qed.

Lemma RevokeAll_accounts st userId : accounts (RevokeAllForUser st userId).2 = accounts st.
Proof. by destruct st. Qed.

(** A change of one account. *)
Definition changes (t : Z) (f : UserRow -> UserRow) (st st' : SecurityStore) : Prop :=
  accounts st' = update_rows t f (accounts st).

Lemma SetPassword_accounts st now t enc : accounts (SetPassword st now t enc).2 = accounts st \/
  (Hash enc <> [] /\ changes t (set_hash (Hash enc) now) st (SetPassword st now t enc).2).
Proof.
  unfold SetPassword, set_password_row. destruct (Hash enc) as [|b hash]; [by left|].
  destruct st as [db|]; [|by left]. right. split; [done|]. unfold changes, accounts. simpl.
  by rewrite <- map_update_rows.
Qed.

Lemma SetRole_accounts st t r : accounts (SetRole st t r).2 = accounts st \/
  changes t (set_role r) st (SetRole st t r).2.
Proof.
  unfold SetRole, set_role_row. destruct (bool_decide _); [by left|]. destruct st as [db|]; [|by left].
  right. unfold changes, accounts. simpl. by rewrite <- map_update_rows.
Qed.

Lemma SetEnabled_accounts st t value : accounts (SetEnabled st t value).2 = accounts st \/
  changes t (set_enabled value) st (SetEnabled st t value).2.
Proof.
  unfold SetEnabled, set_enabled_row. destruct st as [db|]; [|by left].
  right. destruct value; unfold changes, accounts; simpl; by rewrite <- map_update_rows.
Qed.

Lemma FindUserById_account st t user : FindUserById st t = Some user ->
  id user = t /\ exists row, row ∈ accounts st /\ u_id row = t /\ role user = role_of (u_role row) /\
    username user = u_username row.
Proof.
  unfold FindUserById. destruct st as [db|]; [|done]. intros (row & Hu & ->)%fmap_Some.
  apply user_with_id_elem in Hu as [Hin Ht]. split; [done|]. exists (set_last_login 0 row). split_and!; try done.
  unfold accounts. simpl. by apply list_elem_of_In, in_map, list_elem_of_In.
Qed.

(** The change handler, of which the accounts other than the target see
    nothing, and which never takes the last administrator away: the target is
    one afterwards if it was the only one before. *)
Definition spares (t : Z) (st st' : SecurityStore) : Prop :=
  without t (accounts st') = without t (accounts st) /\
  (count_rows (accounts st) = 1%nat -> (exists row, row ∈ accounts st /\ u_id row = t /\ is_admin row = true) ->
   exists row, row ∈ accounts st' /\ u_id row = t /\ is_admin row = true).

Lemma spares_same t st st' : accounts st' = accounts st -> spares t st st'.
Proof. intros H. unfold spares. by rewrite H. Qed.

(** The only administrator. *)
Definition sole_admin (t : Z) (st : SecurityStore) : Prop :=
  count_rows (accounts st) = 1%nat /\ exists row, row ∈ accounts st /\ u_id row = t /\ is_admin row = true.

Lemma spares_sole t st st' : store_ok st -> store_ok st' -> spares t st st' -> sole_admin t st -> sole_admin t st'.
Proof.
  intros Hok Hok' [Ho Ha] [H1 H2]. split; [|by apply Ha].
  destruct (count_without t (accounts st) (store_ok_ids _ Hok)) as [_ Hc].
  destruct (count_without t (accounts st') (store_ok_ids _ Hok')) as [_ Hc'].
  apply Hc in H2 as Hn. specialize (Ha H1 H2). apply Hc' in Ha. rewrite Ha, Ho. lia.
Qed.

(** One more change of the target. *)
Lemma spares_step t f st0 st1 st2 : store_ok st0 -> store_ok st1 -> spares t st0 st1 ->
  accounts st2 = accounts st1 \/ changes t f st1 st2 -> (forall row, u_id (f row) = u_id row) ->
  (sole_admin t st0 -> sole_admin t st1 -> forall row, is_admin row = true -> is_admin (f row) = true) ->
  spares t st0 st2.
Proof.
  intros Hok0 Hok1 Hs Hc Hf Hadm. pose proof Hs as [Ho Ha]. destruct Hc as [Hc|Hc]; unfold spares; rewrite Hc; [done|].
  split; [by rewrite update_rows_without|]. intros H1 H2.
  assert (sole_admin t st0) as H0 by done. pose proof (spares_sole _ _ _ Hok0 Hok1 Hs H0) as H01.
  specialize (Hadm H0 H01). destruct H01 as [_ (row & Hin & Ht & Hrow)]. exists (f row).
  split; [|by rewrite Hf, Hadm]. apply list_elem_of_In, in_map_iff. exists row.
  rewrite Ht, Z.eqb_refl. split; [done|]. by apply list_elem_of_In.
Qed.

(** What sparing is for. *)
Lemma spares_admins t st st' : store_ok st -> store_ok st' -> spares t st st' ->
  1 <= CountAdmins st -> 1 <= CountAdmins st'.
Proof.
  intros Hok Hok' [Ho Ha] H. rewrite CountAdmins_accounts in *.
  destruct (count_without t (accounts st) (store_ok_ids _ Hok)) as [Hle Hiff].
  destruct (count_without t (accounts st') (store_ok_ids _ Hok')) as [Hle' Hiff']. rewrite Ho in Hle', Hiff'.
  destruct (decide (count_rows (without t (accounts st)) = 0%nat)) as [E|]; [|lia].
  assert (count_rows (accounts st) = 1%nat) as H1 by lia.
  assert (exists row, row ∈ accounts st /\ u_id row = t /\ is_admin row = true) as H2 by (apply Hiff; lia).
  apply Hiff' in Ha; [lia|done|done].
Qed.

(** The target of the handler, as it was read at the start. *)
Lemma sole_admin_target t st target : store_ok st -> FindUserById st t = Some target -> sole_admin t st ->
  role target = kAdmin /\ CountAdmins st = 1.
Proof.
  intros Hok (_ & row & Hin & Ht & Hr & _)%FindUserById_account [H1 (row' & Hin' & Ht' & Ha)].
  assert (row = row') as <-.
  { pose proof (store_ok_ids _ Hok) as Hnd.
    apply (NoDup_key_inj u_id (accounts st)); [done|done|done|by rewrite Ht, Ht']. }
  split; [|rewrite CountAdmins_accounts; lia]. rewrite Hr. apply andb_true_iff in Ha as [Ha _].
  apply String.eqb_eq in Ha. by rewrite Ha.
Qed.

Definition block_ok (t : Z) (st0 st1 : SecurityStore) (b : block) : Prop :=
  match b with
  | inl (_, st2) | inr (st2, _, _) => rtc store_step st1 st2 /\ spares t st0 st2
  end.

Section Blocks.
Context (st0 st1 : SecurityStore) (target : User).
Hypothesis (Hok0 : store_ok st0) (Hok1 : store_ok st1) (Ht : FindUserById st0 (id target) = Some target).
Hypothesis Hs : spares (id target) st0 st1.

Lemma sole_guard : sole_admin (id target) st0 -> sole_admin (id target) st1 ->
  bool_decide (role target = kAdmin) = true /\ (CountAdmins st1 <=? 1) = true.
Proof.
  intros H0 [H1 _]. destruct (sole_admin_target _ _ _ Hok0 Ht H0) as [Hr _]. rewrite Hr.
  split; [done|]. apply Z.leb_le. rewrite CountAdmins_accounts. lia.
Qed.

Lemma patch_role_ok j errors changes b : patch_role target j st1 errors changes = Ok b ->
  block_ok (id target) st0 st1 b.
Proof.
  unfold patch_role. destruct (negb (contains j "role")); [intros [= <-]; by split; [apply rtc_refl|]|].
  intros H. inv_bind H. destruct v as [[roleName|] errors']; [|injection H as <-; by split; [apply rtc_refl|]].
  destruct (_ && _)%bool eqn:Hg; injection H as <-; [by split; [apply rtc_refl|]|].
  split; [apply SetRole_steps|].
  apply (spares_step _ (set_role (RoleFromName roleName)) st0 st1); [done..|apply SetRole_accounts|done|].
  intros H0 H1. destruct (sole_guard H0 H1) as [E1 E2]. rewrite E1, E2, andb_true_r in Hg. simpl in Hg.
  apply negb_false_iff, bool_decide_eq_true in Hg. rewrite Hg. intros row [_ He]%andb_true_iff. unfold is_admin.
  simpl. exact He.
Qed.

Lemma patch_enabled_ok j errors changes b : patch_enabled target j st1 errors changes = Ok b ->
  block_ok (id target) st0 st1 b.
Proof.
  unfold patch_enabled. destruct (negb (contains j "enabled")); [intros [= <-]; by split; [apply rtc_refl|]|].
  destruct (BoolField j "enabled" errors true) as [[value|] errors'];
    [|intros [= <-]; by split; [apply rtc_refl|]].
  destruct (_ && _)%bool eqn:Hg; intros [= <-]; [by split; [apply rtc_refl|]|].
  split; [apply SetEnabled_steps|].
  apply (spares_step _ (set_enabled value) st0 st1); [done..|apply SetEnabled_accounts|done|].
  intros H0 H1. destruct (sole_guard H0 H1) as [E1 E2]. rewrite E1, E2, !andb_true_r in Hg.
  apply negb_false_iff in Hg. subst value. intros row [Hr _]%andb_true_iff. apply andb_true_iff. by split.
Qed.

Lemma patch_password_ok ctx j now enc errors changes b :
  patch_password ctx target j st1 now enc errors changes = Ok b -> block_ok (id target) st0 st1 b.
Proof.
  unfold patch_password. destruct (negb (contains j "password")); [intros [= <-]; by split; [apply rtc_refl|]|].
  destruct (bool_decide _); [intros [= <-]; by split; [apply rtc_refl|]|].
  intros H. inv_bind H. destruct v as [[value|] errors']; [|injection H as <-; by split; [apply rtc_refl|]].
  assert (rtc store_step st1 (SetPassword st1 now (id target) enc).2 /\
    spares (id target) st0 (SetPassword st1 now (id target) enc).2) as Hset.
  { split; [apply SetPassword_steps|].
    apply (spares_step _ (set_hash (Hash enc) now) st0 st1); [done..| |done|done].
    destruct (SetPassword_accounts st1 now (id target) enc) as [?|[_ ?]]; auto. }
  by destruct (SetPassword st1 now (id target) enc) as [[u| |] st2]; injection H as <-.
Qed.
End Blocks.

Lemma rtc_step_ok st st' : rtc store_step st st' -> store_ok st -> store_ok st'.
Proof. induction 1 as [|x y z Hxy _ IH]; [done|]. intros Hok. by apply IH, (db_step_ok x y Hxy). Qed.

Variable parse : string -> option json.

Lemma user_patch_ok config st now ctx target body encoded r st' : store_ok st ->
  FindUserById st (id target) = Some target ->
  user_patch parse config st now ctx target body encoded = Ok (r, st') ->
  rtc store_step st st' /\ spares (id target) st st'.
Proof.
  intros Hok Ht H. unfold user_patch in H.
  destruct (JsonObject _ _ _) as [j| |]; [|injection H as _ <-; split; [apply rtc_refl|by apply spares_same]|done].
  assert (forall st1 b (k : SecurityStore -> Errors -> list Z -> res block) b',
    rtc store_step st st1 -> block_ok (id target) st st1 b -> and_then b k = Ok b' ->
    (forall st2 errors changes, store_ok st2 -> spares (id target) st st2 ->
       forall b'', k st2 errors changes = Ok b'' -> block_ok (id target) st st2 b'') ->
    block_ok (id target) st st b') as Hthen.
  { intros st1 b k b' H1 Hb Hk Hnext. destruct b as [[r2 st2]|[[st2 errors] changes]]; destruct Hb as [H2 Hs2]; simpl in Hk.
    - injection Hk as <-. split; [by trans st1|done].
    - assert (rtc store_step st st2) as H12 by (by trans st1). pose proof (rtc_step_ok _ _ H12 Hok) as Hok2.
      specialize (Hnext st2 errors changes Hok2 Hs2 b' Hk).
      destruct b' as [[r3 st3]|[[st3 e3] c3]]; destruct Hnext as [H3 Hs3]; (split; [by trans st2|done]). }
  inv_bind H. rename v into b1. apply (patch_role_ok st st target Hok Hok Ht (spares_same _ _ _ eq_refl)) in Hm.
  inv_bind H. rename v into b2.
  apply (Hthen st b1 _ _ (rtc_refl _ _) Hm) in Hm0.
  2: { intros st2 e c Hok2 Hs2 b''. by apply patch_enabled_ok. }
  inv_bind H. rename v into b3. apply (Hthen st b2 _ _ (rtc_refl _ _) Hm0) in Hm1.
  2: { intros st2 e c Hok2 Hs2 b''. by apply patch_password_ok. }
  destruct b3 as [[r3 st3]|[[st3 errors] changes]]; destruct Hm1 as [H3 Hs3]; [by injection H as _ <-|].
  destruct errors; [|by injection H as _ <-].
  set (st4 := match changes with [] => st3 | _ => record _ _ _ _ _ _ _ _ _ end) in *.
  assert (rtc store_step st3 st4 /\ accounts st4 = accounts st3) as [H4 Ha4].
  { unfold st4. destruct changes; [split; [apply rtc_refl|done]|].
    split; [apply record_steps|apply record_accounts]. }
  destruct (FindUserById st4 (id target)); [|done]. injection H as _ <-.
  split; [by trans st3|]. unfold spares in *. by rewrite Ha4.
Qed.

Lemma user_delete_ok config st now ctx target r st' : store_ok st ->
  FindUserById st (id target) = Some target ->
  user_delete config st now ctx target = (r, st') -> rtc store_step st st' /\ spares (id target) st st'.
Proof.
  intros Hok Ht. unfold user_delete. destruct (bool_decide (username _ = _)).
  { intros [= _ <-]. split; [apply rtc_refl|by apply spares_same]. }
  destruct (_ && _)%bool eqn:Hg.
  { intros [= _ <-]. split; [apply rtc_refl|by apply spares_same]. }
  pose proof (step_delete st (id target)) as Hd. destruct st as [db|]; [|done]. simpl in Hd |- *. intros [= _ <-].
  split.
  - eapply rtc_l; [exact Hd|]. eapply rtc_l; [apply step_revoke_all|]. apply record_steps.
  - unfold spares. rewrite record_accounts. unfold accounts. simpl. split.
    + unfold without. rewrite (map_filter_same _ _ (fun row => negb (u_id row =? id target))) by done.
      rewrite (map_filter_same _ _ (fun row => negb (u_id row =? id target))) by done. f_equal.
      apply filter_all. by intros x [Hx _]%elem_of_filter_bool.
    + intros H1 H2. destruct (sole_guard (Some db) (Some db) target Hok Ht (conj H1 H2) (conj H1 H2)) as [E1 E2].
      by rewrite E1, E2 in Hg.
Qed.

(** The password a request for the password route sends as the present one. *)
Definition sent_password (body : string) (pw : list Z) : Prop :=
  exists j v text, JsonObject parse body 4096 = Ok j /\ present j "current_password" = Some v /\
    view v = JString text /\ pw = bytes_of text.

(** A required field read without a complaint. *)
Lemma required_text j field lo hi charset errors value :
  StringField j field lo hi charset errors true = Ok (value, []) ->
  errors = [] /\ exists v text, present j field = Some v /\ view v = JString text /\ value = Some text.
Proof.
  intros H. pose proof (StringField_spec j field lo hi charset errors true) as Hs. rewrite H in Hs.
  destruct value as [text|].
  - destruct Hs as (<- & (v & Hp & Hv) & _). split; [done|]. by exists v, text.
  - destruct Hs as [[problem Hs]|[Hs _]]; [by destruct errors|done].
Qed.

(** What a request may do to the accounts, by its route. *)
Definition account_change (ctx : context) (route : AuthRoute) (body : string) (st st' : SecurityStore) : Prop :=
  match route with
  | RouteUsers Get => st' = st
  | RouteUsers _ => accounts st' = accounts st \/ exists row, accounts st' = accounts st ++ [row]
  | RouteUser _ userId => spares userId st st'
  | RoutePassword => accounts st' = accounts st \/
      exists row pw f, row ∈ accounts st /\ same_name (u_username row) (ctx_username ctx) = true /\
        sent_password body pw /\
        Verify (u_password_hash row) pw = true /\ (forall x, is_admin (f x) = is_admin x /\ u_id (f x) = u_id x) /\
        changes (u_id row) f st st'
  | _ => accounts st' = accounts st
  end.

Lemma auth_login_ok config st now ip body buffer r st' :
  auth_login parse config st now ip body buffer = Ok (r, st') ->
  rtc store_step st st' /\ accounts st' = accounts st.
Proof.
  unfold auth_login. destruct (JsonObject _ _ _) as [j| |]; [|intros [= _ <-]; by split; [apply rtc_refl|]|done].
  intros H. inv_bind H. destruct v as [name errors1]. inv_bind H. destruct v as [password errors].
  destruct errors; [|injection H as _ <-; by split; [apply rtc_refl|]].
  inv_bind H. destruct v as [[[result remaining] session] st1].
  assert (rtc store_step st st1 /\ accounts st1 = accounts st) as [Hsteps Hacc]
    by (split; [by eapply Login_steps|by eapply Login_accounts]).
  assert (forall event outcome reason, let st2 := login_audit config st1 (now 2%nat) (text_field name) ip event outcome reason in
    rtc store_step st st2 /\ accounts st2 = accounts st) as Haudit.
  { intros. split; [trans st1; [done|apply record_steps]|]. unfold st2, login_audit. by rewrite record_accounts. }
  destruct result; [destruct session as [[token ss]|]; [|done]| | | |]; injection H as _ <-; apply Haudit.
Qed.

Lemma users_create_ok config st now ctx body encoded r st' :
  users_create parse config st now ctx body encoded = Ok (r, st') ->
  rtc store_step st st' /\ (accounts st' = accounts st \/ exists row, accounts st' = accounts st ++ [row]).
Proof.
  unfold users_create. destruct (JsonObject _ _ _) as [j| |]; [|intros [= _ <-]; split; [apply rtc_refl|by left]|done].
  intros H. inv_bind H. destruct v as [name e1]. inv_bind H. destruct v as [password e2].
  inv_bind H. destruct v as [roleName e3]. inv_bind H. destruct v as [displayName errors].
  destruct errors; [|injection H as _ <-; split; [apply rtc_refl|by left]].
  set (created := CreateUser _ _ _ _ _ _) in H.
  assert (rtc store_step st created.2 /\
    (accounts created.2 = accounts st \/ exists row, accounts created.2 = accounts st ++ [row])) as [Hsteps Hacc].
  { split; [apply rtc_once, step_create|]. unfold created, CreateUser.
    repeat case_match; simpl; auto; unfold insert_user in *; repeat case_match; simplify_eq;
      unfold accounts; simpl; rewrite map_app; eauto. }
  destruct created as [[user| |] st1]; simpl in Hsteps, Hacc; [|by injection H as _ <-|done].
  injection H as _ <-. split; [trans st1; [done|apply record_steps]|]. by rewrite record_accounts.
Qed.

(** The account a successful login was for. *)
Lemma Login_row st now now' name pw ip m l life cap buffer remaining session st' :
  Login st now now' name pw ip m l life cap buffer = Ok (LoginOk, remaining, session, st') ->
  exists db row, st = Some db /\ user_named db name = Some row /\ Verify (u_password_hash row) pw = true.
Proof.
  unfold Login, login_begin. destruct st as [db|]; [|by intros [=]]. destruct (_ && _)%bool; [by intros [=]|].
  destruct (user_named db name) as [row|] eqn:E; [|by intros [=]]. intros H. exists db, row. split_and!; [done|done|].
  destruct (Verify _ _) eqn:Hv; [done|]. by unfold login_finish in H.
Qed.

Lemma FindUser_named st name user : FindUser st name = Some user ->
  exists db row, st = Some db /\ user = ReadUserRow row /\ row ∈ users db /\
    same_name (u_username row) name = true /\ user_named db (u_username row) = Some row.
Proof.
  unfold FindUser, FindUserUnlocked. destruct st as [db|]; [|done]. intros (row & Hrow & ->)%fmap_Some.
  pose proof (user_named_elem _ _ _ Hrow) as [Hin Hname]. exists db, row. split_and!; try done.
  rewrite <- Hrow. unfold user_named. apply find_ext. intros x. by apply same_name_eq.
Qed.

Lemma password_change_accounts ctx body st st1 st2 : accounts st2 = accounts st1 ->
  account_change ctx RoutePassword body st st1 -> account_change ctx RoutePassword body st st2.
Proof. unfold account_change, changes. by intros ->. Qed.

Lemma auth_password_ok config st now ctx body buffer encoded r st' :
  auth_password parse config st now ctx body buffer encoded = Ok (r, st') ->
  rtc store_step st st' /\ account_change ctx RoutePassword body st st'.
Proof.
  unfold auth_password. destruct (JsonObject _ _ _) as [j| |] eqn:Hj; [|intros [= _ <-]; split; [apply rtc_refl|by left]|done].
  intros H. inv_bind H. destruct v as [current e1]. inv_bind H. destruct v as [next errors].
  destruct errors; [|injection H as _ <-; split; [apply rtc_refl|by left]].
  apply required_text in Hm0 as [-> _]. apply required_text in Hm as [_ (cj & text & Hcj & Htext & ->)].
  destruct (FindUser st (ctx_username ctx)) as [user|] eqn:Hu; [|injection H as _ <-; split; [apply rtc_refl|by left]].
  inv_bind H. destruct v as [[[result remaining] session] st1]. rename Hm into Hlogin.
  assert (rtc store_step st st1 /\ accounts st1 = accounts st) as [Hsteps Hacc]
    by (split; [by eapply Login_steps|by eapply Login_accounts]).
  destruct (decide (result = LoginOk)) as [->|Hr].
  2: { destruct result; [done|injection H as _ <-; by split; [|left]..]. }
  destruct session as [[token ss]|]; [|done]. inv_bind H. destruct v as [done st2].
  assert (rtc store_step st st2 /\ accounts st2 = accounts st) as [Hsteps2 Hacc2].
  { split; [trans st1; [done|by eapply Revoke_steps]|]. by rewrite (Revoke_accounts _ _ _ _ Hm). }
  pose proof (SetPassword_steps st2 (now 2%nat) (id user) encoded) as Hsteps3.
  pose proof (SetPassword_accounts st2 (now 2%nat) (id user) encoded) as Hacc3.
  destruct (FindUser_named _ _ _ Hu) as (db & row & -> & -> & Hin & Hname & Hrow). simpl in Hlogin.
  apply Login_row in Hlogin as (db' & row' & [= <-] & Hrow' & Hv). rewrite Hrow in Hrow'. injection Hrow' as <-.
  assert (account_change ctx RoutePassword body (Some db) (SetPassword st2 (now 2%nat) (u_id row) encoded).2) as Hchange.
  { simpl. rewrite <- Hacc2. destruct Hacc3 as [Hacc3|[_ Hacc3]]; [by left|right].
    exists (set_last_login 0 row), (bytes_of text), (set_hash (Hash encoded) (now 2%nat)). split_and!; try done.
    - rewrite Hacc2. by apply list_elem_of_In, in_map, list_elem_of_In.
    - by exists j, cj, text.
    - simpl. unfold changes. rewrite <- Hacc2. exact Hacc3. }
  cbn [mbind res_bind] in H. change (id (ReadUserRow row)) with (u_id row) in *.
  destruct (SetPassword st2 (now 2%nat) (u_id row) encoded) as [[u| |] st3]; cbn [snd] in Hsteps3, Hchange;
    injection H as _ <-; [|by split; [trans st2|]..].
  split; [trans st2; [done|]; trans st3; [done|apply record_steps]|].
  eapply password_change_accounts; [apply record_accounts|done].
Qed.


(** Every handler, on any store that satisfies its schema. *)
Lemma handle_auth_ok config st ctx route req draws r st' : store_ok st ->
  handle_auth parse config st ctx route req draws = Ok (r, st') ->
  rtc store_step st st' /\ account_change ctx route (text_of (body req)) st st'.
Proof.
  intros Hok H. destruct route as [| | | | |method|method userId|]; simpl in H |- *.
  - injection H as _ <-. by split; [apply rtc_refl|].
  - by eapply auth_login_ok.
  - unfold auth_logout in H. inv_bind H. destruct v as [d st1]. injection H as _ <-. rewrite record_accounts.
    split; [trans st1; [by eapply Revoke_steps|apply record_steps]|by eapply Revoke_accounts].
  - injection H as _ <-. by split; [apply rtc_refl|].
  - by eapply auth_password_ok.
  - destruct method; [injection H as _ <-; by split; [apply rtc_refl|]|by eapply users_create_ok..].
  - unfold user_by_id in H. destruct (FindUserById st userId) as [target|] eqn:Ht.
    2: { injection H as _ <-. split; [apply rtc_refl|by apply spares_same]. }
    assert (userId = id target) as -> by (by apply FindUserById_account in Ht as [? _]).
    assert ((exists r, user_delete config st (clock draws) ctx target = (r, st')) \/
      user_patch parse config st (clock draws) ctx target (text_of (body req)) (hashed draws) = Ok (r, st'))
      as [[r' Hd]|Hp] by (destruct method; auto; left; injection H as H; by eexists).
    + by eapply user_delete_ok.
    + by eapply user_patch_ok.
  - injection H as _ <-. by split; [apply rtc_refl|].
Qed.

(** The handlers of any number of requests, one after the other. *)
Inductive served : SecurityStore -> SecurityStore -> Prop :=
| served_by config ctx route req draws r st st' :
    handle_auth parse config st ctx route req draws = Ok (r, st') -> served st st'.

Lemma served_ok st st' : served st st' -> store_ok st -> store_ok st'.
Proof.
  intros [config ctx route req draws r s s' H] Hok. by destruct (handle_auth_ok _ _ _ _ _ _ _ _ Hok H) as [?%rtc_step_ok _].
Qed.

Lemma password_admins ctx body st st' : account_change ctx RoutePassword body st st' -> CountAdmins st' = CountAdmins st.
Proof.
  rewrite !CountAdmins_accounts. intros [->|(row & pw & f & _ & _ & _ & _ & Hf & ->)]; [done|]. f_equal.
  unfold count_rows. induction (accounts st) as [|x l IH]; simpl; [done|].
  assert (is_admin (if u_id x =? u_id row then f x else x) = is_admin x) as -> by (destruct (_ =? _); [apply Hf|done]).
  by destruct (is_admin x); simpl; rewrite IH.
Qed.

Lemma served_admins st st' : served st st' -> store_ok st -> 1 <= CountAdmins st -> 1 <= CountAdmins st'.
Proof.
  intros Hserved Hok. pose proof (served_ok _ _ Hserved Hok) as Hok'.
  destruct Hserved as [config ctx route req draws r s s' H].
  destruct (handle_auth_ok _ _ _ _ _ _ _ _ Hok H) as [_ Hc].
  assert (accounts s' = accounts s -> 1 <= CountAdmins s -> 1 <= CountAdmins s') as Hsame
    by (rewrite !CountAdmins_accounts; by intros ->).
  assert ((exists row, accounts s' = accounts s ++ [row]) -> 1 <= CountAdmins s -> 1 <= CountAdmins s') as Hmore.
  { rewrite !CountAdmins_accounts. intros [row ->]. unfold count_rows. rewrite List.filter_app, length_app. lia. }
  destruct route as [| | | | |[]|method userId|]; simpl in Hc; auto.
  - by rewrite (password_admins _ _ _ _ Hc).
  - by subst.
  - by destruct Hc; auto.
  - by destruct Hc; auto.
  - by destruct Hc; auto.
  - by apply (spares_admins userId s s').
Qed.

End Accounts.

(** ** Failed logins *)

Section Guessing.
Context {J : JsonLib} {L : Sodium} {O : SqlOrder}.
Variable parse : string -> option json.

Lemma login_audit_failures config db now name ip event outcome reason : exists db',
  login_audit config (Some db) now name ip event outcome reason = Some db' /\
  login_failures db' = login_failures db /\ users db' = users db.
Proof. unfold login_audit, record. destruct (audit_enabled config); by eexists. Qed.

(** An attempt that ends without a session, and without an internal error,
    depends on the failures only. *)
Lemma Login_refused db db0 now name pw ip m l life cap buffer result remaining session st' :
  login_failures db = login_failures db0 -> users db0 = [] ->
  Login (Some db) now now name pw ip m l life cap buffer = Ok (result, remaining, session, st') ->
  result <> LoginOk -> result <> kInternalError ->
  exists db' db0' result0, st' = Some db' /\
    Login (Some db0) now now name pw ip m l life cap buffer = Ok (result0, remaining, None, Some db0') /\
    (result0 = result \/ (result = kDisabled /\ result0 = kInvalidCredentials)) /\
    login_failures db' = login_failures db0' /\ users db0' = [].
Proof.
  intros Hf Hu H Hok Hie. unfold Login, login_begin in *.
  assert (FailedAttemptsUnlocked db0 name (now - l) = FailedAttemptsUnlocked db name (now - l)) as Hc
    by (unfold FailedAttemptsUnlocked, failures_since; by rewrite Hf).
  assert (failures_since db0 name (now - l) = failures_since db name (now - l)) as Hs
    by (unfold failures_since; by rewrite Hf).
  rewrite Hc, Hs. destruct (_ && _)%bool.
  { injection H as <- <- _ <-. exists db, db0, kLockedOut. split_and!; auto. }
  unfold user_named in *. rewrite Hu. simpl.
  assert (forall db', login_failures db' = login_failures db ++ [mkFailureRow name ip now] ->
    login_failures db' = login_failures (RecordFailureUnlocked db0 now name ip)) as Hrec
    by (intros db' ->; simpl; by rewrite Hf).
  destruct (List.find _ (users db)) as [row|].
  - destruct (login_finish _ _ _ _ _ _ _ _ _) as [[[r s] st1]| |] eqn:E; simpl in H; [|done..].
    injection H as <- <- _ <-. unfold login_finish in E.
    destruct (negb (Verify _ _)).
    { injection E as <- _ <-. eexists _, _, _. split_and!; [done|done|by left|by apply Hrec|done]. }
    destruct (negb (enabled _)).
    { injection E as <- _ <-. eexists _, _, _. split_and!; [done|done|by right|by apply Hrec|done]. }
    destruct (RandomHex buffer); [by injection E as <- _ _|]. inv_bind E.
    destruct (insert_session _ _ _ _ _ _); by injection E as <- _ _.
  - injection H as <- <- _ <-. eexists _, _, _. split_and!; [done|done|by left|by apply Hrec|done].
Qed.

Definition refused (r : response) : Prop := code r <> 200 /\ code r <> 500.

Lemma auth_login_refused config db db0 now ip body buffer r st' : now 0%nat = now 1%nat ->
  login_failures db = login_failures db0 -> users db0 = [] ->
  auth_login parse config (Some db) now ip body buffer = Ok (r, st') -> refused r ->
  exists db' db0', st' = Some db' /\ auth_login parse config (Some db0) now ip body buffer = Ok (r, Some db0') /\
    login_failures db' = login_failures db0' /\ users db0' = [].
Proof.
  intros Hnow Hf Hu H [H200 H500]. unfold auth_login in *.
  destruct (JsonObject _ _ _) as [j| |]; [|injection H as <- <-; by exists db, db0|done].
  inv_bind H. destruct v as [name errors1]. cbn [mbind res_bind]. inv_bind H. destruct v as [password errors].
  cbn [mbind res_bind]. destruct errors; [|injection H as <- <-; by exists db, db0].
  inv_bind H. destruct v as [[[result remaining] session] st1]. rewrite <- Hnow in *.
  destruct (decide (result = LoginOk)) as [->|Hok].
  { destruct session as [[token ss]|]; [|done]. injection H as <- _. by destruct H200. }
  destruct (decide (result = kInternalError)) as [->|Hie].
  { injection H as <- _. by destruct H500. }
  destruct (Login_refused _ _ _ _ _ _ _ _ _ _ _ _ _ _ _ Hf Hu Hm1 Hok Hie)
    as (db1 & db01 & result0 & -> & -> & Hres & Hf1 & Hu1). cbn [mbind res_bind].
  assert (forall event outcome reason event0 outcome0 reason0,
    exists db' db0', login_audit config (Some db1) (now 2%nat) (text_field name) ip event outcome reason = Some db' /\
      login_audit config (Some db01) (now 2%nat) (text_field name) ip event0 outcome0 reason0 = Some db0' /\
      login_failures db' = login_failures db0' /\ users db0' = []) as Haudit.
  { intros event outcome reason event0 outcome0 reason0.
    destruct (login_audit_failures config db1 (now 2%nat) (text_field name) ip event outcome reason) as (db' & -> & E1 & _).
    destruct (login_audit_failures config db01 (now 2%nat) (text_field name) ip event0 outcome0 reason0)
      as (db0' & -> & E2 & E3).
    exists db', db0'. rewrite E1, E2, E3. by split_and!. }
  destruct result; try done; destruct Hres as [->|[? ->]]; try done; injection H as <- <-; cbv zeta.
  all: edestruct Haudit as (db' & db0' & E & E0 & E1 & E2); exists db', db0'; split_and!;
    [exact E|f_equal; f_equal; exact E0|exact E1|exact E2].
Qed.

(** A series of attempts, from anywhere, at any names. *)
Fixpoint login_many (config : AuthConfig) (st : SecurityStore) (attempts : list (Draws * list Z * string))
  : res (list response * SecurityStore) :=
  match attempts with
  | [] => Ok ([], st)
  | (draws, ip, body) :: rest =>
      '(r, st1) ← auth_login parse config st (clock draws) ip body (random draws);
      '(rs, st2) ← login_many config st1 rest;
      Ok (r :: rs, st2)
  end.
End Guessing.

(** ** The routes and the policy table *)

Lemma Audit_accounts config st now event name ip resource result reason :
  accounts (Audit config st now event name ip resource result reason) = accounts st.
Proof. unfold Audit. destruct (audit_enabled config); [|done]. by destruct st. Qed.

Lemma Authenticate_accounts st now token session st' :
  Authenticate st now token = Ok (session, st') -> accounts st' = accounts st.
Proof.
  unfold Authenticate. destruct token, st; try by intros [= _ <-]. intros H. inv_bind H.
  repeat case_match; by simplify_eq.
Qed.

Lemma before_handle_accounts config m now tick req v m' :
  before_handle config m now tick req = Ok (v, m') -> accounts (store m') = accounts (store m).
Proof.
  unfold before_handle. destruct (bool_decide _); [by intros [= _ <-]|].
  destruct (_ <? _); [intros [= _ <-]; apply Audit_accounts|]. intros H. inv_bind H. destruct v0 as [refused m1].
  rewrite <- (rate_limit_store _ _ _ _ _ _ _ Hm). destruct refused.
  { injection H as _ <-. apply Audit_accounts. }
  destruct (negb _); [by injection H as _ <-|].
  assert (authorise config m1 now (effective_policy config (PathOf req) (method req)) req = Ok (v, m') ->
    accounts (store m') = accounts (store m1)) as Hauth.
  { clear H. unfold authorise. destruct (BearerToken req); [intros [= _ <-]; apply Audit_accounts|].
    intros H. inv_bind H. destruct v0 as [session st].
    rewrite <- (Authenticate_accounts _ _ _ _ _ Hm0). destruct session; [|injection H as _ <-; apply Audit_accounts].
    destruct (_ && _)%bool; injection H as _ <-; [apply Audit_accounts|done]. }
  destruct (guard _); auto; by injection H as _ <-.
Qed.

Lemma int_text_html pre digits : int_text digits -> ends_with (b! ".html") (pre ++ digits) = false.
Proof.
  intros [Hne Hd]. apply not_true_iff_false. intros [front H]%ends_with_iff.
  destruct digits as [|d ds] using rev_ind; [done|]. clear IHds.
  assert (last (pre ++ ds ++ [d]) = Some 108) as Hl by (rewrite H; by rewrite last_app).
  rewrite app_assoc, last_snoc in Hl. injection Hl as ->. apply Forall_app in Hd as [_ Hd].
  by rewrite Forall_singleton in Hd.
Qed.

(** The entry of the table that decides the changing routes of an account. *)
Definition users_policy : RoutePolicy := mkPolicy "/api/users*" "" kPermission kUserWrite.

Lemma user_policy digits method : int_text digits -> method = b! "PATCH" \/ method = b! "DELETE" ->
  PolicyFor (b! "/api/users/" ++ digits) method = users_policy.
Proof.
  intros Hd Hm. set (path := b! "/api/users/" ++ digits).
  assert (List.find (policy_matches path method) RoutePolicies = Some users_policy) as H; [|by unfold PolicyFor; rewrite H].
  replace RoutePolicies with (take 3 RoutePolicies ++ [mkPolicy "*.html" "" kPublic kPermCount] ++ drop 4 RoutePolicies)
    by reflexivity.
  rewrite !find_app.
  replace (List.find (policy_matches path method) (take 3 RoutePolicies)) with (@None RoutePolicy)
    by (destruct Hm as [-> | ->]; vm_compute; reflexivity).
  replace (List.find (policy_matches path method) [mkPolicy "*.html" "" kPublic kPermCount]) with (@None RoutePolicy).
  2: { unfold List.find, policy_matches. change (PathMatches _ path) with (ends_with (b! ".html") path).
       unfold path. by rewrite int_text_html. }
  destruct Hm as [-> | ->]; vm_compute; reflexivity.
Qed.

Lemma user_write_admin r : RoleHasPermission r kUserWrite = true -> r = kAdmin.
Proof. by destruct r. Qed.

(** ** Properties *)

(** C8: The gateway never loses its last administrator: whatever requests of
    the account handlers are served one after the other, with whatever bodies,
    by whatever callers, the database keeps an enabled account with the
    administrator role if it had one, and keeps its constraints. *)
Theorem administrators_remain (J : JsonLib) (L : Sodium) (O : SqlOrder) (K : SqlLike) parse st st' :
  store_ok st -> 1 <= CountAdmins st -> rtc (served parse) st st' -> store_ok st' /\ 1 <= CountAdmins st'.
Proof.
  intros Hok Hn Hrtc. induction Hrtc as [|x y z Hxy _ IH]; [done|].
  apply IH; [by eapply served_ok|by eapply served_admins].
Qed.

(** A live session of an administrator. *)
Lemma admin_session config db now req session : auth_enabled config = true ->
  PolicyFor (PathOf req) (method req) = users_policy -> starts_with (b! "/api/app") (PathOf req) = false ->
  entitled config db now req session ->
  exists ss, session = Some ss /\ valid_session db now (BearerToken req) ss /\ session_role ss = kAdmin.
Proof.
  intros Hen Hp Ha. unfold entitled, effective_policy. rewrite Hen, Hp, Ha, andb_false_r. simpl.
  intros (ss & -> & Hv & Hr). exists ss. split_and!; [done|done|]. by apply user_write_admin, Hr.
Qed.

(** C7: From the wire to the tables: with authentication on, an account is
    created, changed or deleted only by a request whose bearer token is a live
    session of an administrator, and then at most one account is touched; the
    one exception is a caller with a live session whose request body gives the
    present password of the account of his own name, and only that account
    changes.
    Everything else a client can send to these routes leaves every account as
    it was, but for the time of its last login. *)
Theorem account_changes_authorised (J : JsonLib) (L : Sodium) (O : SqlOrder) (K : SqlLike) parse config m now tick
  route req draws refusal r m' db :
  store m = Some db -> db_ok db -> short (BearerToken req) -> auth_enabled config = true ->
  registered route (PathOf req) (method req) ->
  serve parse config m now tick route req draws refusal = Ok (r, m') ->
  accounts (store m') = accounts (store m) \/
  exists ss, valid_session db now (BearerToken req) ss /\
    ((session_role ss = kAdmin /\
      ((exists row, accounts (store m') = accounts (store m) ++ [row]) \/
       exists userId, without userId (accounts (store m')) = without userId (accounts (store m)))) \/
     (route = RoutePassword /\ exists row pw, row ∈ accounts (store m) /\ sent_password parse (text_of (body req)) pw /\
        same_name (u_username row) (session_username ss) = true /\ Verify (u_password_hash row) pw = true /\
        without (u_id row) (accounts (store m')) = without (u_id row) (accounts (store m)))).
Proof.
  intros Hst Hok Hshort Hen Hreg H. unfold serve in H. inv_bind H. destruct v as [v m1].
  destruct v as [ctx|code error retry].
  2: { injection H as _ <-. left. by eapply before_handle_accounts. }
  destruct (admitted _ _ _ _ _ _ _ _ Hst Hok Hshort Hm) as (Hst1 & _ & _ & _ & _ & He).
  inv_bind H. destruct v as [r' st']. injection H as _ <-. simpl. rewrite Hst. rewrite Hst1 in Hm0.
  destruct (handle_auth_ok parse config (Some db) ctx route req draws r' st' Hok Hm0) as [_ Hc].
  destruct route as [| | | | |[]|[] userId|]; try (by left); simpl in Hreg; try done.
  - destruct Hc as [Hc|(row & pw & f & Hin & Hname & Hsent & Hv & Hf & Hc)]; [by left|right].
    destruct Hreg as [Hpath Hmeth]. unfold entitled, effective_policy in He. rewrite Hen, Hpath, Hmeth in He.
    change (starts_with (b! "/api/app") (b! "/api/auth/password")) with false in He.
    change (PolicyFor (b! "/api/auth/password") (b! "POST"))
      with (mkPolicy "/api/auth/password" "POST" kAuthenticated kPermCount) in He.
    rewrite andb_false_r in He. simpl in He. destruct He as (ss & Hss & Hvs & _).
    exists ss. split; [done|]. right. split; [done|]. exists row, pw. unfold ctx_username in Hname. rewrite Hss in Hname.
    split_and!; [done..|]. rewrite Hc. apply update_rows_without. apply Hf.
  - simpl in Hc. subst. by left.
  - destruct Hreg as [Hpath Hmeth]. destruct Hc as [Hc|Hc]; [by left|right].
    destruct (fun Hp Ha => admin_session config db now req _ Hen Hp Ha He) as (ss & _ & Hvs & Hr);
      [by rewrite Hpath, Hmeth|by rewrite Hpath|]. exists ss. split; [done|]. left. split; [done|]. by left.
  - destruct Hreg as [(digits & Hpath & Hd) Hmeth]. destruct Hc as [Hc _]. right.
    destruct (fun Hp Ha => admin_session config db now req _ Hen Hp Ha He) as (ss & _ & Hvs & Hr);
      [rewrite Hpath, Hmeth; apply user_policy; [done|by left]|by rewrite Hpath|].
    exists ss. split; [done|]. left. split; [done|]. right. by exists userId.
  - destruct Hreg as [(digits & Hpath & Hd) Hmeth]. destruct Hc as [Hc _]. right.
    destruct (fun Hp Ha => admin_session config db now req _ Hen Hp Ha He) as (ss & _ & Hvs & Hr);
      [rewrite Hpath, Hmeth; apply user_policy; [done|by right]|by rewrite Hpath|].
    exists ss. split; [done|]. left. split; [done|]. right. by exists userId.
Qed.

(** C9: A failed login reveals nothing about the accounts: as long as no
    attempt of a series succeeds (or hits an internal error), every response,
    lockouts and their remaining time included, is exactly the one a gateway
    with no accounts at all and the same record of failures would give, to a
    wrong password, an unknown name, a disabled account and a malformed name
    alike.  (An attempt is taken to fall within one second of the clock.) *)
Theorem failed_logins_reveal_nothing (J : JsonLib) (L : Sodium) (O : SqlOrder) parse config db db0 attempts rs st' :
  login_failures db0 = login_failures db -> users db0 = [] ->
  Forall (fun a => clock a.1.1 0%nat = clock a.1.1 1%nat) attempts ->
  login_many parse config (Some db) attempts = Ok (rs, st') -> Forall refused rs ->
  exists st0', login_many parse config (Some db0) attempts = Ok (rs, st0').
Proof.
  intros Hf Hu Hclock. symmetry in Hf. revert db db0 rs Hf Hu.
  induction Hclock as [|[[draws ip] body] rest Hnow _ IH]; intros db db0 rs Hf Hu H Hr; simpl in *.
  { injection H as <- _. by eexists. }
  inv_bind H. destruct v as [r st1]. inv_bind H. destruct v as [rs' st2]. injection H as <- <-.
  apply Forall_cons in Hr as [Hr Hrs].
  destruct (auth_login_refused _ _ _ _ _ _ _ _ _ _ Hnow Hf Hu Hm Hr) as (db' & db0' & -> & -> & Hf' & Hu').
  cbn [mbind res_bind]. destruct (IH db' db0' rs' Hf' Hu' Hm0 Hrs) as [st0' ->]. by eexists.
Qed.

(** ** Examples *)

(** [LIKE] for patterns whose only wildcards are a leading and a trailing one. *)
Definition demo_like : SqlLike := {| like := fun pattern text =>
  let middle := removelast (tail pattern) in
  existsb (fun k => starts_with middle (drop k text)) (seq 0 (S (length text))) |}.

(** Bodies the examples' parser knows. *)
Definition demo_parse (body : string) : option jtree :=
  if String.eqb body "demote" then Some (TObject [("role"%string, TString "USER")])
  else if String.eqb body "demote and disable"
  then Some (TObject [("role"%string, TString "USER"); ("enabled"%string, TBool false)])
  else if String.eqb body "promote, bad flag"
  then Some (TObject [("role"%string, TString "ADMIN"); ("enabled"%string, TString "yes")])
  else if String.eqb body "promote" then Some (TObject [("role"%string, TString "ADMIN")])
  else if String.eqb body "guess"
  then Some (TObject [("username"%string, TString "admin"); ("password"%string, TString "letmein")])
  else None.

Definition demo_draws : Draws := mkDraws (fun _ => 500) [7] (Some (b! "new hash")).
Definition demo_admin : context := mkContext (Some (mkSession 9 1 (b! "admin") kAdmin 100 900 [])) (b! "10.0.0.9").

Definition demo_handle (st : SecurityStore) (route : AuthRoute) (body : string) : res (response (J:=jtree_json) * SecurityStore) :=
  handle_auth (J:=jtree_json) (L:=demo_sodium) (O:=demo_order) (K:=demo_like) demo_parse demo_config st demo_admin
    route (mkRequest [] [] [] [] (bytes_of body) []) demo_draws.

Definition answer (r : res (response (J:=jtree_json) * SecurityStore)) : option (Z * Z * list string) :=
  match r with
  | Ok (r, st) => Some (code r, CountAdmins st, map u_role (rows st))
  | _ => None
  end.

(** The only administrator can neither be demoted nor removed, and the other
    account can become one. *)
Example last_admin_stays :
  answer (demo_handle (Some demo_db) (RouteUser Patch 1) "demote") = Some (400, 1, ["ADMIN"; "USER"]%string) /\
  answer (demo_handle (Some demo_db) (RouteUser Patch 2) "promote") = Some (200, 2, ["ADMIN"; "ADMIN"]%string).
Proof. vm_compute. split; reflexivity. Qed.

Definition two_admins : Db := with_users demo_db (map (set_role kAdmin) (users demo_db)).

(** A change is not all or nothing: the role is stored, and the sessions
    revoked, before the next field is found malformed and the request refused
    with 400; and, the target's role having been read before, demoting and
    disabling one of two administrators stops halfway with LAST_ADMIN. *)
Example patch_stops_halfway :
  answer (demo_handle (Some demo_db) (RouteUser Patch 2) "promote, bad flag") = Some (400, 2, ["ADMIN"; "ADMIN"]%string) /\
  answer (demo_handle (Some two_admins) (RouteUser Patch 2) "demote and disable")
    = Some (400, 1, ["ADMIN"; "USER"]%string).
Proof. vm_compute. split; reflexivity. Qed.

(** The count and the deletion are two critical sections: two administrators
    who delete each other at the same time leave none. *)
Example concurrent_deletes_leave_none :
  let st := Some two_admins in
  (CountAdmins st <=? 1) = false /\ CountAdmins (DeleteUser (DeleteUser st 1).2 2).2 = 0.
Proof. vm_compute. split; reflexivity. Qed.

Lemma administrators_remain_witness :
  let st' := match demo_handle (Some demo_db) (RouteUser Patch 1) "demote" with Ok (_, st) => st | _ => None end in
  store_ok st' /\ 1 <= CountAdmins st'.
Proof.
  intros st'. apply (administrators_remain jtree_json demo_sodium demo_order demo_like demo_parse (Some demo_db) st').
  - exact demo_db_ok.
  - apply Z.leb_le. reflexivity.
  - destruct (demo_handle (Some demo_db) (RouteUser Patch 1) "demote") as [[r s]| |] eqn:E;
      [|vm_compute in E; discriminate E..].
    unfold st'. apply rtc_once. eapply (served_by (K:=demo_like)). exact E.
Defined.

(** Two administrators, the second with a session. *)
Definition two_admins_with (hash : list Z) : Db := with_users (demo_session_db hash) (users two_admins).
Definition two_admins_db : Db := two_admins_with (digest_hex [55]).

Lemma two_admins_ok hash : db_ok (two_admins_with hash).
Proof.
  destruct (demo_session_db_ok hash). constructor; try assumption.
  apply Forall_map. eapply Forall_impl; [exact ok_user_next|]. done.
Qed.

(** The second removes the first. *)
Definition demo_removal : res (response (J:=jtree_json) * Middleware) :=
  serve (J:=jtree_json) (L:=demo_sodium) (O:=demo_order) (K:=demo_like) demo_parse demo_config
    (new_middleware (Some two_admins_db)) 500 0 (RouteUser Delete 1)
    (mkRequest (b! "/api/users/1") (b! "DELETE") (b! "Bearer 7") [] [] (b! "10.0.0.9")) demo_draws TNull.

Lemma demo_removal_rows :
  match demo_removal with Ok (_, m') => map u_username (rows (store m')) = [b! "Eve"] | _ => False end.
Proof. vm_compute. reflexivity. Qed.

Lemma account_changes_authorised_witness :
  exists r m', demo_removal = Ok (r, m') /\ map u_username (rows (store m')) = [b! "Eve"] /\
  exists ss, valid_session two_admins_db 500 [55] ss /\ session_role ss = kAdmin.
Proof.
  pose proof demo_removal_rows as Hrows.
  destruct demo_removal as [[r m']| |] eqn:E; [|destruct Hrows..].
  exists r, m'. split; [reflexivity|]. split; [exact Hrows|].
  destruct (account_changes_authorised jtree_json demo_sodium demo_order demo_like demo_parse demo_config
    (new_middleware (Some two_admins_db)) 500 0 (RouteUser Delete 1)
    (mkRequest (b! "/api/users/1") (b! "DELETE") (b! "Bearer 7") [] [] (b! "10.0.0.9")) demo_draws TNull r m'
    two_admins_db) as [H|(ss & Hv & [[Hr _]|[Hr _]])].
  - reflexivity.
  - exact (two_admins_ok _).
  - reflexivity.
  - reflexivity.
  - simpl. split; [|reflexivity]. exists [49]. split; [reflexivity|]. split; [discriminate|repeat constructor].
  - exact E.
  - exfalso. apply (f_equal (map u_username)) in H. unfold accounts in H. rewrite !map_map in H. 
    change (map u_username (rows (store m')) = [b! "admin"; b! "Eve"]) in H. rewrite Hrows in H. discriminate H.
  - exists ss. split; [exact Hv|exact Hr].
  - discriminate Hr.
Defined.

Lemma failed_logins_reveal_nothing_witness :
  let attempts := [(demo_draws, b! "10.0.0.9", "guess"%string); (demo_draws, b! "10.0.0.9", "guess"%string)] in
  let empty := with_users demo_db [] in
  exists rs st0', login_many (J:=jtree_json) (L:=demo_sodium) (O:=demo_order) demo_parse demo_config (Some empty) attempts
    = Ok (rs, st0') /\ map code rs = [401; 401].
Proof.
  intros attempts empty.
  destruct (login_many (J:=jtree_json) (L:=demo_sodium) (O:=demo_order) demo_parse demo_config (Some demo_db) attempts)
    as [[rs st']| |] eqn:E; [|vm_compute in E; discriminate E..].
  assert (map code rs = [401; 401]) as Hc by (vm_compute in E; injection E as <- _; reflexivity).
  assert (Forall refused rs) as Hr by (vm_compute in E; injection E as <- _; repeat constructor; discriminate).
  destruct (failed_logins_reveal_nothing jtree_json demo_sodium demo_order demo_parse demo_config demo_db empty attempts
    rs st' eq_refl eq_refl ltac:(repeat constructor) E Hr) as [st0' H].
  exists rs, st0'. split; [exact H|exact Hc].
Defined.
